(* ===== verification/_CoqProject ===== *)
-Q . S2P
Prelude.v
UnicodeTables.v
GoStrings.v
Strconv.v
GoValue.v
Sha256.v
Netip.v
Driver.v
Backhaul.v
ExternalEgress.v
JobSchema.v
JobSchemaSpec.v
JobSchemaRefine.v
JobSchemaProps.v
Jobs.v
Redaction.v
JobQueue.v
JobQueueProps.v
AgentAuth.v
AgentReplay.v
Firewall.v
FirewallText.v
FirewallFields.v
FirewallScript.v
FirewallProps.v
FirewallAgent.v
JsonImage.v
FirewallCatalog.v
FirewallTables.v
FirewallSeeds.v
FirewallJobs.v
FirewallFlow.v
FirewallStoreProps.v
FirewallReads.v
FirewallStrict.v
FirewallGates.v
FirewallSamples.v
Shell.v
NetHost.v
AgentPaths.v
AgentPathsProps.v
AgentHost.v
AgentHostProps.v
RoutePolicy.v
RoutePolicyProps.v
RoutePolicyAgent.v
NetPolicy.v
NetPolicyProps.v
InstanceFiles.v
InstanceRuntime.v
InstanceProps.v
InstanceRollback.v
AddressPool.v
AddressPoolStore.v
AddressPoolProps.v
VlessPolicy.v
VlessPolicyProps.v
EgressText.v
EgressProfiles.v
EgressRender.v
EgressWireGuard.v
EgressOpenVPN.v
PackageCommands.v
AgentPackages.v
EgressProcess.v
EgressRuntime.v
EgressAgent.v
HostTrace.v
PackageProps.v
EgressSignals.v
EgressGuard.v
EgressArtifacts.v
EgressSamples.v
