(* ===== verification/Prelude.v ===== *)
(** * RTIS MegaVPN: a verification development

    MegaVPN is a control plane for fleets of VPN nodes: an HTTP API with a
    PostgreSQL store, a worker, and an agent on every node that polls for
    jobs and changes the host.  This library models, as executable Gallina
    definitions that follow the Go source function by function, the parts in
    which a wrong decision reaches a node, and proves what those parts promise.

    ** How the parts interact

    A user or another handler asks for a job.  The job service ([Jobs],
    [internal/app/jobs/service.go]) classifies its type, checks the permission
    and hands it to the store, which brings the payload into canonical form
    ([JobSchema], [internal/jobschema/jobschema.go], with the catalogues of
    [Driver], [Backhaul] and [ExternalEgress]) and inserts a row.  The queue
    ([JobQueue], [internal/infra/postgres/store.go]) gives the row to a worker
    or to the agent of its node under a lease and a resource lock, takes the
    lease back when it runs out, and records the completion.  The agent signs
    its requests ([AgentAuth], [internal/agentauth/signature.go]) and the
    server verifies them and refuses replays ([AgentReplay],
    [internal/api/http/agent_signature.go]).

    Firewall jobs are followed from one end to the other.  The store keeps a
    catalogue of address lists, entries, policies and rules ([FirewallCatalog],
    [FirewallTables], [FirewallSeeds], [internal/infra/postgres/firewall.go]),
    builds the payload of a job from it and guards strict jobs ([FirewallJobs]);
    the payload passes [Normalize], is sent as JSON ([JsonImage]), and is
    planned and rendered by the agent ([Firewall], [cmd/agent/firewall.go]) and
    applied ([FirewallAgent]).  The control plane and the agent have each their
    own copy of every check; [FirewallFlow], [FirewallReads], [FirewallStrict]
    and [FirewallGates] relate the copies, so that what the store accepted and
    what its gates let through is stated of the script on the node.

    The other agent jobs change the host through one interface of operations
    ([AgentHost.agent_ops], [InstanceRuntime.runtime_ops]): route policies
    ([RoutePolicy], [RoutePolicyAgent], [cmd/agent/route_policy*.go]), the
    network policy of an instance ([NetPolicy], [cmd/agent/netpolicy.go]) and
    instances with their files and units ([AgentPaths], [InstanceFiles],
    [InstanceRuntime], [cmd/agent/instance_*.go]).  Their theorems are about
    every host, seen as a trace of events; those about rollback assume the laws
    of a file system ([InstanceRollback.FileView]).

    Two more kinds of agent jobs extend that interface
    ([AgentPackages.package_ops], [EgressProcess.egress_ops]).  Packages and
    capabilities are installed and verified ([PackageCommands],
    [AgentPackages], [cmd/agent/capability.go], [cmd/agent/system.go]).  An
    external egress is a tunnel or a local proxy to a provider: its profile is
    parsed ([EgressProfiles], [internal/externalegress/*.go]), rendered into
    managed files ([EgressRender]), and its runtime is installed, guarded,
    started, probed and removed ([EgressProcess], [EgressRuntime],
    [EgressAgent], [cmd/agent/external_egress.go]), with the packages it needs
    installed on the way.  [HostTrace] is the log of what such a job does and a
    small logic over it, in which the theorems about these jobs are proved.

    Instances get their networks from address pools ([AddressPool],
    [AddressPoolStore], [internal/infra/postgres/address_pools.go]) and their
    routing policies pass a boundary ([VlessPolicy],
    [internal/accesspolicy/vless.go]).  What is stored in results and shown in
    responses is redacted ([Redaction], [internal/api/http/redaction.go] and the
    store's own copy).

    ** Files

    Go itself: [Prelude] (results, stable sorting, the tactics and the hint
    database [megavpn]), [UnicodeTables] and [GoStrings] (bytes, runes, the
    functions of [strings]), [Strconv], [GoValue] (the dynamic types the code
    switches on; a Go map of dynamic values is a [gmap]), [Sha256] (SHA-256, HMAC,
    hexadecimal), [Netip] (parsing, printing and masking of addresses),
    [NetHost] (texts with a port), [JsonImage] (what a receiver decodes from an
    encoded value).  [Shell] has the quoting of the rendered scripts and a reader
    of simple commands by the POSIX rules, against which the renderers are
    proved.

    Components, each with its operations under their Go names:
    - [Driver], [Backhaul], [ExternalEgress]: the catalogues and the functions
      over them;
    - [JobSchema]: [Normalize], one definition per case of its switch.
      [JobSchemaSpec] is an abstract schema language and the schema of each job
      type, [JobSchemaRefine] shows that each case runs its schema, and
      [JobSchemaProps] has the refinement theorem and what it yields: canonical
      payloads, idempotence, the ranges of managed resources, no plaintext token;
    - [Jobs]: [Create], the classifications, [normalizeJobForInsert],
      [CreateJob]; the service is proved against the class [JobStore], which the
      store implements;
    - [Redaction]: both redactions, shown equal, complete and idempotent;
    - [JobQueue]: claiming, stale leases, resource locks, completion and
      cancellation.  [JobQueueProps] runs them as the steps of a state machine
      with a clock: exclusion, the status graph, who may complete, which job a
      claim takes and when it comes back empty;
    - [AgentAuth], [AgentReplay]: canonical strings, signatures, the window and
      the replay cache; what an accepted request proves, and when one may be
      accepted twice;
    - [Firewall]: payload to plan to nftables script.  [FirewallText],
      [FirewallFields] and [FirewallScript] are about the text, the fields and
      the lines, [FirewallProps] about the whole plan: commands on the managed
      table only, declared sets, the control plane kept reachable;
      [FirewallAgent] runs the job against an interface of host operations;
    - [FirewallCatalog]: the normalisation of policies, rules, lists and entries;
      [FirewallTables]: the six tables with their constraints and the operations
      that change them; [FirewallSeeds]: the defaults and the management
      settings; [FirewallJobs]: payloads, SSH bootstrap checks, strict gates,
      queueing and results.  [FirewallFlow]: what is stored is a fixed point of
      the agent's normalisation; [FirewallStoreProps]: the invariant of every
      state the operations reach; [FirewallReads]: the agent's sets and rules are
      the catalogue's; [FirewallStrict], [FirewallGates]: what the hash and the
      gates of a strict apply give on the node; [FirewallSamples]: one database
      on which all of it is evaluated, and the surprising behaviours;
    - [AgentPaths], [AgentPathsProps]: which paths, units and unit files a job
      may touch; [AgentHost], [AgentHostProps]: the host's operations, and files
      replaced whole;
    - [RoutePolicy], [RoutePolicyProps], [RoutePolicyAgent]: a node's routes as
      kernel rules, the script, its snapshot and its cleanup: how the shell reads
      each command, which marks and tables the rules take, and that an apply
      clears what the previous one set up;
    - [NetPolicy], [NetPolicyProps]: the network policy of an instance, its
      script and what its jobs touch;
    - [InstanceFiles], [InstanceRuntime]: decoding, applying, operating and
      removing an instance; [InstanceProps]: a job is confined to its instance's
      files and units; [InstanceRollback]: a failed apply is undone;
    - [AddressPool]: the [uint32] arithmetic, the search for a free subnet and
      the derived addresses; [AddressPoolStore]: the two tables with their
      constraints and every operation on them; [AddressPoolProps]: allocations
      of a pool are disjoint, the inventory adds up, an allocation always ends;
    - [VlessPolicy], [VlessPolicyProps]: the boundary that routing policies
      pass, its soundness and idempotence;
    - [PackageCommands]: the allow-list of commands that run outside the agent's
      sandbox, and the classification of failed ones; [AgentPackages]: tracked
      commands, installers, verifiers and the two jobs.  [PackageProps]: the
      allow-list is a grammar, every command of an install is on it, tracked
      commands end, and the policy against starting services is undone;
    - [EgressText], [EgressProfiles]: lines, fields and addresses, and the five
      profile parsers; [EgressRender]: decoding of the job, the managed files and
      their allow-list.  [EgressWireGuard]: what is rendered is accepted again;
      [EgressOpenVPN]: the rendered directives are the profile's without the
      managed ones, and none is forbidden; [EgressArtifacts]: what is rendered is
      on the allow-list;
    - [EgressProcess]: the processes of L2TP and their end; [EgressRuntime]: the
      unit, probes and evidence; [EgressAgent]: the jobs.  [EgressSignals]: every
      signal has a reason; [EgressGuard]: the routes of an egress are closed
      before its tunnel starts; [EgressSamples]: jobs evaluated on a host, and
      the findings.

    ** What is a parameter

    Code outside the repository, and code that only writes elsewhere, is an
    argument of the definitions: [url.Parse], [fmt.Sprint] of the values that
    [stringify] does not print itself, [%q] (Firewall); [json.Marshal] and
    [json.Unmarshal] (Jobs, JobQueue, VlessPolicy, the agent's jobs, and the image
    of a type with a method of its own in JsonImage); [url.QueryUnescape] and the
    check of certificates (the external egress; texts of errors as well, beyond
    their kind); the inventory report and the binary repository
    (AgentPackages); [strconv.IsPrint] beyond
    ASCII (NetPolicy, the instances); the host's commands and files (AgentHost,
    FirewallAgent) and the installer of nginx (InstanceRuntime); the order of a
    [range] over a map (VlessPolicy, NetPolicy, the external egress) and of rows without an [order by]
    (JobQueue); the text PostgreSQL makes of a [cidr] and of a [uuid], and its
    collation (AddressPoolStore, FirewallTables); the rest of a node's row
    (FirewallJobs); the bootstrap runs, secrets and completion side effects,
    which act on the rest of the database (JobQueue).  Clock readings and
    generated identifiers are arguments.  Hypotheses about parameters are named
    in the sections that use them, and the witnesses instantiate them with
    concrete functions.

    ** Integers, fuel and time

    A machine integer is a [Z] with its wrap-around written out ([in_int64],
    [u32]); a conversion from float64 follows amd64.  Recursion over text is on
    the length of the text.  The search for a subnet has fuel: one step more
    than there are used subnets is enough ([next_subnet_spec]), and
    [zero_prefix_diverges] shows why the prefix must be positive.  The loops of
    the agent that wait or try again count down the attempts the code allows.
    PostgreSQL
    times are microseconds.  Transactions run one after the other; a failed
    statement aborts its transaction, and a queue's tables are replaced only by
    a commit.

    ** Not modelled

    The SQL of the rest of the store, HTTP routing and decoding, TLS, mail,
    backups and the web interface: they are input and output around the parts
    above, or rest on libraries.  Of the agent: its control loop, traffic
    accounting and diagnostics, which read the host; the power commands
    ([node_power.go]); the binary repository; and the backhaul runtime
    ([backhaul.go]; the removal of managed paths it shares is in [AgentHost]).
    Starting a process, its timeout and its environment belong to the host.
    Of the store: the renderers of the service configurations
    ([instance_drivers.go]), access routes and backhaul, whose functions are
    queries with little between them.  Node remediation changes jobs and locks as
    well and is not among the steps of [JobQueueProps].  The check of
    certificates in [internal/externalegress] rests on [crypto/x509].

    ** Findings

    Where the code does not do what it means to, a lemma with a concrete input
    shows it next to the theorem it limits.  Requests and jobs:
    [future_request_replayed], [claim_blocked_by_first],
    [stale_worker_completes], [lock_kinds_do_not_exclude].  The firewall on the
    node: [ssh_rule_undeclared_set], [zone_injects_line], [set_names_collide],
    [ports_of_commas].  The catalogue: [baseline_deleted_by_update],
    [referenced_list_deleted_by_update], [inventory_resets_the_node_policy],
    [shared_source_changes_group], [open_entry_passes_the_gate],
    [late_result_undoes_disable], [untyped_range_is_a_name],
    [bad_range_is_stored], [zoned_rule_is_stored].  Routes and networks:
    [separators_match_any_port], [revision_line_feed_is_a_command],
    [refused_policy_loses_the_snapshot], [same_comment_rule_skipped],
    [unit_name_injects].  Instances: [unit_may_choose_its_program],
    [wireguard_unit_is_its_own_policy], [disabled_apply_keeps_its_files].
    Pools and policies: [full_default_pool_shadows],
    [update_deletes_used_pool], [two_tags_depend_on_order].  External egress:
    [forbidden_directive_copied], [forbidden_directive_in_open_tag],
    [spaced_section_without_table], [remote_id_breaks_line],
    [certificates_not_preserved]. *)

From stdpp Require Export base tactics option list gmap strings sorting.
From Stdlib Require Export ZArith Lia.
From stdpp Require Import options.

(** ** Results: a Go pair [(value, error)] where the error decides *)

Inductive result (E A : Type) : Type :=
| Ok (a : A)
| Err (e : E).
Arguments Ok {E A} a.
Arguments Err {E A} e.

#[export] Instance result_ret {E} : MRet (result E) := λ A a, Ok a.
#[export] Instance result_bind {E} : MBind (result E) := λ A B f m,
  match m with Ok a => f a | Err e => Err e end.
#[export] Instance result_fmap {E} : FMap (result E) := λ A B f m,
  match m with Ok a => Ok (f a) | Err e => Err e end.

(** [guard_err b e]: the code's [if !b { return e }]. *)
Definition guard_err {E} (b : bool) (e : E) : result E () :=
  if b then Ok tt else Err e.

(** [fmt.Errorf] with a [%w] verb: wrap the error, keep the value. *)
Definition map_err {E F A} (f : E → F) (m : result E A) : result F A :=
  match m with Ok a => Ok a | Err e => Err (f e) end.

Definition is_ok {E A} (m : result E A) : bool :=
  match m with Ok _ => true | Err _ => false end.

Section result_laws.
Context {E : Type}.

Lemma bind_ok_inv {A B} (m : result E A) (f : A → result E B) b :
  m ≫= f = Ok b → ∃ a, m = Ok a ∧ f a = Ok b.
Proof. destruct m; naive_solver. Qed.

Lemma bind_ext {A B} (m : result E A) (f g : A → result E B) :
  (∀ a, m = Ok a → f a = g a) → m ≫= f = m ≫= g.
Proof. destruct m; simpl; auto. Qed.

Lemma bind_assoc {A B C} (m : result E A) (f : A → result E B) (g : B → result E C) :
  (m ≫= f) ≫= g = m ≫= (λ a, f a ≫= g).
Proof. by destruct m. Qed.

Lemma bind_ret_l {A B} (a : A) (f : A → result E B) : Ok a ≫= f = f a.
Proof. done. Qed.

Lemma bind_ret_r {A} (m : result E A) : m ≫= (λ a, Ok a) = m.
Proof. by destruct m. Qed.

Lemma guard_err_ok (b : bool) (e : E) u : guard_err b e = Ok u → b = true.
Proof. by destruct b. Qed.

Lemma map_err_ok {F A} (f : E → F) (m : result E A) a :
  map_err f m = Ok a ↔ m = Ok a.
Proof. destruct m; naive_solver. Qed.
End result_laws.

(** Open every successful bind of the context, outermost first. *)
Ltac inv_binds :=
  repeat match goal with
  | H : mbind _ _ = Ok _ |- _ =>
      let a := fresh "a" in
      apply bind_ok_inv in H as (a & ? & H)
  | H : guard_err _ _ = Ok _ |- _ => apply guard_err_ok in H
  | H : map_err _ _ = Ok _ |- _ => apply map_err_ok in H
  | H : Ok _ = Ok _ |- _ => injection H as H
  | H : Err _ = Ok _ |- _ => discriminate H
  | H : Ok _ = Err _ |- _ => discriminate H
  end.

(** Split the boolean conjunctions and disjunctions the code's guards leave. *)
Ltac split_bools :=
  repeat match goal with
  | H : (_ && _)%bool = true |- _ => apply andb_true_iff in H as [? ?]
  | H : (_ || _)%bool = false |- _ => apply orb_false_iff in H as [? ?]
  | H : negb _ = true |- _ => apply negb_true_iff in H
  | H : negb _ = false |- _ => apply negb_false_iff in H
  | H : bool_decide _ = true |- _ => apply bool_decide_eq_true in H
  | H : bool_decide _ = false |- _ => apply bool_decide_eq_false in H
  end.

(** Decide the innermost scrutinee of the goal, keeping its equation. *)
Ltac case_scrut :=
  match goal with
  | |- context [match ?x with _ => _ end] =>
      lazymatch x with
      | context [match _ with _ => _ end] => fail
      | _ => let E := fresh "E" in destruct x eqn:E
      end
  end.

(** ** Machine integers *)

Definition two32 : Z := 4294967296.
Definition two63 : Z := 9223372036854775808.
Definition two64 : Z := 18446744073709551616.
Definition max_int64 : Z := 9223372036854775807.
Definition min_int64 : Z := -9223372036854775808.

(** [uint32(z)] and [int64(z)]: the low bits, two's complement for the latter. *)
Definition u32 (z : Z) : Z := (z mod two32)%Z.
Definition i64 (z : Z) : Z := ((z + two63) mod two64 - two63)%Z.

Lemma u32_range z : (0 ≤ u32 z < two32)%Z.
Proof. apply Z.mod_pos_bound. done. Qed.
Lemma u32_id z : (0 ≤ z < two32)%Z → u32 z = z.
Proof. unfold u32. apply Z.mod_small. Qed.
Lemma i64_range z : (min_int64 ≤ i64 z ≤ max_int64)%Z.
Proof.
  unfold i64, min_int64, max_int64.
  pose proof (Z.mod_pos_bound (z + two63) two64 eq_refl). unfold two63, two64 in *. lia.
Qed.
Lemma i64_id z : (min_int64 ≤ z ≤ max_int64)%Z → i64 z = z.
Proof.
  unfold min_int64, max_int64. intros ?. unfold i64.
  rewrite Z.mod_small; unfold two63, two64; lia.
Qed.

(** ** Exhaustive checks over an initial segment of [Z] *)

Fixpoint all_below (n : nat) (f : Z → bool) : bool :=
  match n with
  | O => true
  | S n => f (Z.of_nat n) && all_below n f
  end.

Lemma all_below_spec n f z :
  all_below n f = true → (0 ≤ z < Z.of_nat n)%Z → f z = true.
Proof.
  induction n as [|n IH]; [lia|]. intros [? ?]%andb_true_iff ?.
  destruct (decide (z = Z.of_nat n)) as [->|]; [done|]. apply IH; [done|lia].
Qed.

(** A tail-recursive variant for the large segments ([Z.of_nat] per step is
    what makes [all_below] slow). *)
Fixpoint all_from (n : nat) (z : Z) (f : Z → bool) : bool :=
  match n with
  | O => true
  | S n => if f z then all_from n (Z.succ z) f else false
  end.

Lemma all_from_spec n z f x :
  all_from n z f = true → (z ≤ x < z + Z.of_nat n)%Z → f x = true.
Proof.
  revert z. induction n as [|n IH]; intros z; simpl; [lia|].
  destruct (f z) eqn:?; [|done]. intros ? ?.
  destruct (decide (x = z)) as [->|]; [done|]. apply (IH (Z.succ z)); [done|lia].
Qed.

(** ** Stable insertion sort: [sort.Strings] and [sort.SliceStable] *)

Section isort.
Context {A : Type} (less : A → A → bool).

Fixpoint sorted_insert (x : A) (l : list A) : list A :=
  match l with
  | [] => [x]
  | y :: l' => if less y x then y :: sorted_insert x l' else x :: l
  end.
Definition isort (l : list A) : list A := foldr sorted_insert [] l.

Lemma sorted_insert_perm x l : sorted_insert x l ≡ₚ x :: l.
Proof.
  induction l as [|y l IH]; simpl; [done|].
  destruct (less y x); [|done]. rewrite IH. by constructor.
Qed.

Lemma isort_perm l : isort l ≡ₚ l.
Proof.
  induction l as [|x l IH]; simpl; [done|]. by rewrite sorted_insert_perm, IH.
Qed.

(** Nothing is put before an element that is strictly smaller. *)
Definition ordered (l : list A) : Prop := StronglySorted (λ x y, less y x = false) l.

Context (less_trans : ∀ x y z, less y x = false → less z y = false → less z x = false).
Context (less_asym : ∀ x y, less x y = true → less y x = false).

Lemma sorted_insert_ordered x l : ordered l → ordered (sorted_insert x l).
Proof using less_trans less_asym.
  unfold ordered. induction 1 as [|y l Hl IH Hy]; simpl; [repeat constructor|].
  destruct (less y x) eqn:E.
  - constructor; [done|]. rewrite sorted_insert_perm. constructor; auto.
  - constructor; [by constructor|]. constructor; [done|].
    eapply Forall_impl; [exact Hy|]. simpl. eauto.
Qed.

Lemma isort_ordered l : ordered (isort l).
Proof using less_trans less_asym.
  induction l; simpl; [constructor|]. by apply sorted_insert_ordered.
Qed.
End isort.

(** ** Lists *)

Lemma elem_of_isort {A} (less : A → A → bool) l x : x ∈ isort less l ↔ x ∈ l.
Proof. by rewrite isort_perm. Qed.

Lemma length_isort {A} (less : A → A → bool) l : length (isort less l) = length l.
Proof. by rewrite isort_perm. Qed.

Lemma existsb_false {A} (f : A → bool) l : existsb f l = false ↔ ∀ x, x ∈ l → f x = false.
Proof.
  induction l as [|y l IH]; cbn [existsb]; [by split; [intros _ x ?%elem_of_nil|]|].
  rewrite orb_false_iff, IH. setoid_rewrite elem_of_cons. naive_solver.
Qed.

(** The first index at which [P] holds bounds every index at which it does. *)
Lemma list_find_first {A} (P : A → Prop) `{∀ x, Decision (P x)} l i x j y :
  list_find P l = Some (i, x) → l !! j = Some y → P y → i ≤ j.
Proof.
  intros (Hi & Hx & Hmin)%list_find_Some Hj HP.
  destruct (decide (i ≤ j)) as [|Hlt]; [done|].
  exfalso. eapply Hmin; [exact Hj|lia|done].
Qed.

Create HintDb megavpn discriminated.
