(* ===== verification/UnicodeTables.v ===== *)
(** * Case tables of the Go [unicode] package

    The simple (one rune to one rune) case mappings of the runes above ASCII,
    as [unicode.ToLower] and [unicode.ToUpper] apply them, run-length encoded:
    [CR lo hi step delta] maps every rune [lo, lo+step, ..., hi] to itself
    plus [delta].  Runes in no range map to themselves.  ASCII letters are
    handled directly by [GoStrings.to_lower_rune] and [to_upper_rune]. *)
From Stdlib Require Import ZArith List.
Import ListNotations.

(** One run of runes with a common distance to their case counterpart. *)
Record case_range := CR { cr_lo : Z; cr_hi : Z; cr_step : Z; cr_delta : Z }.

(** [unicode.ToLower] above ASCII. *)
Definition lower_ranges : list case_range :=
  [ CR 192 214 1 (32); CR 216 222 1 (32); CR 256 302 2 (1); CR 304 304 1 (-199)
  ; CR 306 310 2 (1); CR 313 327 2 (1); CR 330 374 2 (1); CR 376 376 1 (-121)
  ; CR 377 381 2 (1); CR 385 385 1 (210); CR 386 388 2 (1); CR 390 390 1 (206)
  ; CR 391 391 1 (1); CR 393 394 1 (205); CR 395 395 1 (1); CR 398 398 1 (79)
  ; CR 399 399 1 (202); CR 400 400 1 (203); CR 401 401 1 (1); CR 403 403 1 (205)
  ; CR 404 404 1 (207); CR 406 406 1 (211); CR 407 407 1 (209); CR 408 408 1 (1)
  ; CR 412 412 1 (211); CR 413 413 1 (213); CR 415 415 1 (214); CR 416 420 2 (1)
  ; CR 422 422 1 (218); CR 423 423 1 (1); CR 425 425 1 (218); CR 428 428 1 (1)
  ; CR 430 430 1 (218); CR 431 431 1 (1); CR 433 434 1 (217); CR 435 437 2 (1)
  ; CR 439 439 1 (219); CR 440 440 1 (1); CR 444 444 1 (1); CR 452 452 1 (2)
  ; CR 453 453 1 (1); CR 455 455 1 (2); CR 456 456 1 (1); CR 458 458 1 (2)
  ; CR 459 475 2 (1); CR 478 494 2 (1); CR 497 497 1 (2); CR 498 500 2 (1)
  ; CR 502 502 1 (-97); CR 503 503 1 (-56); CR 504 542 2 (1); CR 544 544 1 (-130)
  ; CR 546 562 2 (1); CR 570 570 1 (10795); CR 571 571 1 (1); CR 573 573 1 (-163)
  ; CR 574 574 1 (10792); CR 577 577 1 (1); CR 579 579 1 (-195); CR 580 580 1 (69)
  ; CR 581 581 1 (71); CR 582 590 2 (1); CR 880 882 2 (1); CR 886 886 1 (1)
  ; CR 895 895 1 (116); CR 902 902 1 (38); CR 904 906 1 (37); CR 908 908 1 (64)
  ; CR 910 911 1 (63); CR 913 929 1 (32); CR 931 939 1 (32); CR 975 975 1 (8)
  ; CR 984 1006 2 (1); CR 1012 1012 1 (-60); CR 1015 1015 1 (1); CR 1017 1017 1 (-7)
  ; CR 1018 1018 1 (1); CR 1021 1023 1 (-130); CR 1024 1039 1 (80); CR 1040 1071 1 (32)
  ; CR 1120 1152 2 (1); CR 1162 1214 2 (1); CR 1216 1216 1 (15); CR 1217 1229 2 (1)
  ; CR 1232 1326 2 (1); CR 1329 1366 1 (48); CR 4256 4293 1 (7264); CR 4295 4295 1 (7264)
  ; CR 4301 4301 1 (7264); CR 5024 5103 1 (38864); CR 5104 5109 1 (8); CR 7312 7354 1 (-3008)
  ; CR 7357 7359 1 (-3008); CR 7680 7828 2 (1); CR 7838 7838 1 (-7615); CR 7840 7934 2 (1)
  ; CR 7944 7951 1 (-8); CR 7960 7965 1 (-8); CR 7976 7983 1 (-8); CR 7992 7999 1 (-8)
  ; CR 8008 8013 1 (-8); CR 8025 8031 2 (-8); CR 8040 8047 1 (-8); CR 8072 8079 1 (-8)
  ; CR 8088 8095 1 (-8); CR 8104 8111 1 (-8); CR 8120 8121 1 (-8); CR 8122 8123 1 (-74)
  ; CR 8124 8124 1 (-9); CR 8136 8139 1 (-86); CR 8140 8140 1 (-9); CR 8152 8153 1 (-8)
  ; CR 8154 8155 1 (-100); CR 8168 8169 1 (-8); CR 8170 8171 1 (-112); CR 8172 8172 1 (-7)
  ; CR 8184 8185 1 (-128); CR 8186 8187 1 (-126); CR 8188 8188 1 (-9); CR 8486 8486 1 (-7517)
  ; CR 8490 8490 1 (-8383); CR 8491 8491 1 (-8262); CR 8498 8498 1 (28); CR 8544 8559 1 (16)
  ; CR 8579 8579 1 (1); CR 9398 9423 1 (26); CR 11264 11311 1 (48); CR 11360 11360 1 (1)
  ; CR 11362 11362 1 (-10743); CR 11363 11363 1 (-3814); CR 11364 11364 1 (-10727); CR 11367 11371 2 (1)
  ; CR 11373 11373 1 (-10780); CR 11374 11374 1 (-10749); CR 11375 11375 1 (-10783); CR 11376 11376 1 (-10782)
  ; CR 11378 11378 1 (1); CR 11381 11381 1 (1); CR 11390 11391 1 (-10815); CR 11392 11490 2 (1)
  ; CR 11499 11501 2 (1); CR 11506 11506 1 (1); CR 42560 42604 2 (1); CR 42624 42650 2 (1)
  ; CR 42786 42798 2 (1); CR 42802 42862 2 (1); CR 42873 42875 2 (1); CR 42877 42877 1 (-35332)
  ; CR 42878 42886 2 (1); CR 42891 42891 1 (1); CR 42893 42893 1 (-42280); CR 42896 42898 2 (1)
  ; CR 42902 42920 2 (1); CR 42922 42922 1 (-42308); CR 42923 42923 1 (-42319); CR 42924 42924 1 (-42315)
  ; CR 42925 42925 1 (-42305); CR 42926 42926 1 (-42308); CR 42928 42928 1 (-42258); CR 42929 42929 1 (-42282)
  ; CR 42930 42930 1 (-42261); CR 42931 42931 1 (928); CR 42932 42946 2 (1); CR 42948 42948 1 (-48)
  ; CR 42949 42949 1 (-42307); CR 42950 42950 1 (-35384); CR 42951 42953 2 (1); CR 42960 42960 1 (1)
  ; CR 42966 42968 2 (1); CR 42997 42997 1 (1); CR 65313 65338 1 (32); CR 66560 66599 1 (40)
  ; CR 66736 66771 1 (40); CR 66928 66938 1 (39); CR 66940 66954 1 (39); CR 66956 66962 1 (39)
  ; CR 66964 66965 1 (39); CR 68736 68786 1 (64); CR 71840 71871 1 (32); CR 93760 93791 1 (32)
  ; CR 125184 125217 1 (34) ]%Z.

(** [unicode.ToUpper] above ASCII. *)
Definition upper_ranges : list case_range :=
  [ CR 181 181 1 (743); CR 224 246 1 (-32); CR 248 254 1 (-32); CR 255 255 1 (121)
  ; CR 257 303 2 (-1); CR 305 305 1 (-232); CR 307 311 2 (-1); CR 314 328 2 (-1)
  ; CR 331 375 2 (-1); CR 378 382 2 (-1); CR 383 383 1 (-300); CR 384 384 1 (195)
  ; CR 387 389 2 (-1); CR 392 392 1 (-1); CR 396 396 1 (-1); CR 402 402 1 (-1)
  ; CR 405 405 1 (97); CR 409 409 1 (-1); CR 410 410 1 (163); CR 414 414 1 (130)
  ; CR 417 421 2 (-1); CR 424 424 1 (-1); CR 429 429 1 (-1); CR 432 432 1 (-1)
  ; CR 436 438 2 (-1); CR 441 441 1 (-1); CR 445 445 1 (-1); CR 447 447 1 (56)
  ; CR 453 453 1 (-1); CR 454 454 1 (-2); CR 456 456 1 (-1); CR 457 457 1 (-2)
  ; CR 459 459 1 (-1); CR 460 460 1 (-2); CR 462 476 2 (-1); CR 477 477 1 (-79)
  ; CR 479 495 2 (-1); CR 498 498 1 (-1); CR 499 499 1 (-2); CR 501 501 1 (-1)
  ; CR 505 543 2 (-1); CR 547 563 2 (-1); CR 572 572 1 (-1); CR 575 576 1 (10815)
  ; CR 578 578 1 (-1); CR 583 591 2 (-1); CR 592 592 1 (10783); CR 593 593 1 (10780)
  ; CR 594 594 1 (10782); CR 595 595 1 (-210); CR 596 596 1 (-206); CR 598 599 1 (-205)
  ; CR 601 601 1 (-202); CR 603 603 1 (-203); CR 604 604 1 (42319); CR 608 608 1 (-205)
  ; CR 609 609 1 (42315); CR 611 611 1 (-207); CR 613 613 1 (42280); CR 614 614 1 (42308)
  ; CR 616 616 1 (-209); CR 617 617 1 (-211); CR 618 618 1 (42308); CR 619 619 1 (10743)
  ; CR 620 620 1 (42305); CR 623 623 1 (-211); CR 625 625 1 (10749); CR 626 626 1 (-213)
  ; CR 629 629 1 (-214); CR 637 637 1 (10727); CR 640 640 1 (-218); CR 642 642 1 (42307)
  ; CR 643 643 1 (-218); CR 647 647 1 (42282); CR 648 648 1 (-218); CR 649 649 1 (-69)
  ; CR 650 651 1 (-217); CR 652 652 1 (-71); CR 658 658 1 (-219); CR 669 669 1 (42261)
  ; CR 670 670 1 (42258); CR 837 837 1 (84); CR 881 883 2 (-1); CR 887 887 1 (-1)
  ; CR 891 893 1 (130); CR 940 940 1 (-38); CR 941 943 1 (-37); CR 945 961 1 (-32)
  ; CR 962 962 1 (-31); CR 963 971 1 (-32); CR 972 972 1 (-64); CR 973 974 1 (-63)
  ; CR 976 976 1 (-62); CR 977 977 1 (-57); CR 981 981 1 (-47); CR 982 982 1 (-54)
  ; CR 983 983 1 (-8); CR 985 1007 2 (-1); CR 1008 1008 1 (-86); CR 1009 1009 1 (-80)
  ; CR 1010 1010 1 (7); CR 1011 1011 1 (-116); CR 1013 1013 1 (-96); CR 1016 1016 1 (-1)
  ; CR 1019 1019 1 (-1); CR 1072 1103 1 (-32); CR 1104 1119 1 (-80); CR 1121 1153 2 (-1)
  ; CR 1163 1215 2 (-1); CR 1218 1230 2 (-1); CR 1231 1231 1 (-15); CR 1233 1327 2 (-1)
  ; CR 1377 1414 1 (-48); CR 4304 4346 1 (3008); CR 4349 4351 1 (3008); CR 5112 5117 1 (-8)
  ; CR 7296 7296 1 (-6254); CR 7297 7297 1 (-6253); CR 7298 7298 1 (-6244); CR 7299 7300 1 (-6242)
  ; CR 7301 7301 1 (-6243); CR 7302 7302 1 (-6236); CR 7303 7303 1 (-6181); CR 7304 7304 1 (35266)
  ; CR 7545 7545 1 (35332); CR 7549 7549 1 (3814); CR 7566 7566 1 (35384); CR 7681 7829 2 (-1)
  ; CR 7835 7835 1 (-59); CR 7841 7935 2 (-1); CR 7936 7943 1 (8); CR 7952 7957 1 (8)
  ; CR 7968 7975 1 (8); CR 7984 7991 1 (8); CR 8000 8005 1 (8); CR 8017 8023 2 (8)
  ; CR 8032 8039 1 (8); CR 8048 8049 1 (74); CR 8050 8053 1 (86); CR 8054 8055 1 (100)
  ; CR 8056 8057 1 (128); CR 8058 8059 1 (112); CR 8060 8061 1 (126); CR 8064 8071 1 (8)
  ; CR 8080 8087 1 (8); CR 8096 8103 1 (8); CR 8112 8113 1 (8); CR 8115 8115 1 (9)
  ; CR 8126 8126 1 (-7205); CR 8131 8131 1 (9); CR 8144 8145 1 (8); CR 8160 8161 1 (8)
  ; CR 8165 8165 1 (7); CR 8179 8179 1 (9); CR 8526 8526 1 (-28); CR 8560 8575 1 (-16)
  ; CR 8580 8580 1 (-1); CR 9424 9449 1 (-26); CR 11312 11359 1 (-48); CR 11361 11361 1 (-1)
  ; CR 11365 11365 1 (-10795); CR 11366 11366 1 (-10792); CR 11368 11372 2 (-1); CR 11379 11379 1 (-1)
  ; CR 11382 11382 1 (-1); CR 11393 11491 2 (-1); CR 11500 11502 2 (-1); CR 11507 11507 1 (-1)
  ; CR 11520 11557 1 (-7264); CR 11559 11559 1 (-7264); CR 11565 11565 1 (-7264); CR 42561 42605 2 (-1)
  ; CR 42625 42651 2 (-1); CR 42787 42799 2 (-1); CR 42803 42863 2 (-1); CR 42874 42876 2 (-1)
  ; CR 42879 42887 2 (-1); CR 42892 42892 1 (-1); CR 42897 42899 2 (-1); CR 42900 42900 1 (48)
  ; CR 42903 42921 2 (-1); CR 42933 42947 2 (-1); CR 42952 42954 2 (-1); CR 42961 42961 1 (-1)
  ; CR 42967 42969 2 (-1); CR 42998 42998 1 (-1); CR 43859 43859 1 (-928); CR 43888 43967 1 (-38864)
  ; CR 65345 65370 1 (-32); CR 66600 66639 1 (-40); CR 66776 66811 1 (-40); CR 66967 66977 1 (-39)
  ; CR 66979 66993 1 (-39); CR 66995 67001 1 (-39); CR 67003 67004 1 (-39); CR 68800 68850 1 (-64)
  ; CR 71872 71903 1 (-32); CR 93792 93823 1 (-32); CR 125218 125251 1 (-34) ]%Z.

(** The counterpart of [r] under a table: its first matching range decides. *)
Fixpoint map_case (t : list case_range) (r : Z) : Z :=
  match t with
  | [] => r
  | CR lo hi st d :: t' =>
      if (r <? lo)%Z then map_case t' r
      else if (hi <? r)%Z then map_case t' r
      else if ((r - lo) mod st =? 0)%Z then (r + d)%Z
      else map_case t' r
  end.
