(* ===== verification/GoStrings.v ===== *)
(** * Go strings: bytes, UTF-8 runes and the [strings] functions in use

    A Go string is a byte sequence; here it is a [string] (one [ascii] per
    byte).  [runes] is the rune sequence a [for range] loop sees (an invalid
    byte decodes to U+FFFD), [encode] is [utf8.AppendRune].  On these stand
    [ToLower], [ToUpper] and [TrimSpace] with their Unicode behaviour, and
    the byte-level functions [Trim], [ReplaceAll], [Split], [Cut], [Join]. *)
From S2P Require Import Prelude UnicodeTables.
From Stdlib Require Import Ascii.
From stdpp Require Import options.
Open Scope Z_scope.

Ltac Zify.zify_post_hook ::= Z.to_euclidean_division_equations.

(** ** Bytes *)

Definition byte_val (a : ascii) : Z := Z.of_N (N_of_ascii a).
Definition byte_chr (z : Z) : ascii := ascii_of_N (Z.to_N z).

Lemma byte_val_range a : 0 ≤ byte_val a < 256.
Proof. unfold byte_val. pose proof (N_ascii_bounded a). lia. Qed.
Lemma byte_val_chr z : 0 ≤ z < 256 → byte_val (byte_chr z) = z.
Proof. intros ?. unfold byte_val, byte_chr. rewrite N_ascii_embedding; lia. Qed.
Lemma byte_chr_val a : byte_chr (byte_val a) = a.
Proof. unfold byte_chr, byte_val. by rewrite N2Z.id, ascii_N_embedding. Qed.
Lemma byte_val_inj a b : byte_val a = byte_val b → a = b.
Proof. intros E. by rewrite <-(byte_chr_val a), <-(byte_chr_val b), E. Qed.

(** The empty string and the double quote, named so that string literals stay simple. *)
Definition quote_char : ascii := byte_chr 34.

Lemma sapp_assoc (a b c : string) : (a +:+ b) +:+ c = a +:+ (b +:+ c).
Proof. induction a as [|x a IH]; [done|]. by apply (f_equal (String x)) in IH. Qed.
Lemma sapp_nil_r (a : string) : a +:+ "" = a.
Proof. induction a as [|x a IH]; [done|]. by apply (f_equal (String x)) in IH. Qed.
Lemma sapp_cons x (a b : string) : String x a +:+ b = String x (a +:+ b).
Proof. done. Qed.
Lemma sapp_nil_l (a : string) : "" +:+ a = a.
Proof. done. Qed.
Lemma length_sapp (a b : string) :
  String.length (a +:+ b) = (String.length a + String.length b)%nat.
Proof. induction a; [done|]. rewrite sapp_cons. simpl. by f_equal. Qed.

(** ** UTF-8 *)

Definition rune_error : Z := 65533.

Definition valid_rune (r : Z) : bool :=
  ((0 <=? r) && (r <? 55296)) || ((57344 <=? r) && (r <=? 1114111)).

Definition is_cont (b : Z) : bool := (128 <=? b) && (b <=? 191).

(** The accept ranges of the second byte of 3- and 4-byte sequences. *)
Definition second3 (b0 b1 : Z) : bool :=
  ((if b0 =? 224 then 160 else 128) <=? b1) && (b1 <=? (if b0 =? 237 then 159 else 191)).
Definition second4 (b0 b1 : Z) : bool :=
  ((if b0 =? 240 then 144 else 128) <=? b1) && (b1 <=? (if b0 =? 244 then 143 else 191)).

(** [utf8.DecodeRuneInString]: the first rune and the rest. *)
Definition decode1 (s : string) : option (Z * string) :=
  match s with
  | EmptyString => None
  | String a0 s1 =>
      let b0 := byte_val a0 in
      if b0 <? 128 then Some (b0, s1)
      else if b0 <? 194 then Some (rune_error, s1)
      else if b0 <? 224 then
        match s1 with
        | String a1 s2 =>
            if is_cont (byte_val a1)
            then Some ((b0 - 192) * 64 + (byte_val a1 - 128), s2)
            else Some (rune_error, s1)
        | _ => Some (rune_error, s1)
        end
      else if b0 <? 240 then
        match s1 with
        | String a1 (String a2 s3) =>
            if second3 b0 (byte_val a1) && is_cont (byte_val a2)
            then Some ((b0 - 224) * 4096 + (byte_val a1 - 128) * 64 + (byte_val a2 - 128), s3)
            else Some (rune_error, s1)
        | _ => Some (rune_error, s1)
        end
      else if b0 <? 245 then
        match s1 with
        | String a1 (String a2 (String a3 s4)) =>
            if second4 b0 (byte_val a1) && is_cont (byte_val a2) && is_cont (byte_val a3)
            then Some ((b0 - 240) * 262144 + (byte_val a1 - 128) * 4096
                       + (byte_val a2 - 128) * 64 + (byte_val a3 - 128), s4)
            else Some (rune_error, s1)
        | _ => Some (rune_error, s1)
        end
      else Some (rune_error, s1)
  end.

Fixpoint runes_fuel (n : nat) (s : string) : list Z :=
  match n with
  | O => []
  | S n => match decode1 s with None => [] | Some (r, s') => r :: runes_fuel n s' end
  end.

(** The runes of a [for _, r := range s] loop. *)
Definition runes (s : string) : list Z := runes_fuel (String.length s) s.

(** [utf8.AppendRune]: an invalid rune is written as U+FFFD. *)
Definition encode (r : Z) : string :=
  let r := if valid_rune r then r else rune_error in
  if r <? 128 then String (byte_chr r) ""
  else if r <? 2048 then
    String (byte_chr (192 + r / 64)) (String (byte_chr (128 + r mod 64)) "")
  else if r <? 65536 then
    String (byte_chr (224 + r / 4096)) (String (byte_chr (128 + (r / 64) mod 64))
      (String (byte_chr (128 + r mod 64)) ""))
  else
    String (byte_chr (240 + r / 262144)) (String (byte_chr (128 + (r / 4096) mod 64))
      (String (byte_chr (128 + (r / 64) mod 64)) (String (byte_chr (128 + r mod 64)) ""))).

Definition encode_all (rs : list Z) : string := foldr (λ r s, encode r +:+ s) "" rs.

Lemma decode1_lt s r s' : decode1 s = Some (r, s') → (String.length s' < String.length s)%nat.
Proof.
  unfold decode1. intros H.
  repeat case_match; simplify_eq/=; lia.
Qed.

Lemma decode1_None s : decode1 s = None ↔ s = "".
Proof.
  split; [|by intros ->]. unfold decode1. intros H. repeat case_match; done.
Qed.

Lemma runes_fuel_enough n m s :
  (String.length s ≤ n)%nat → (String.length s ≤ m)%nat → runes_fuel n s = runes_fuel m s.
Proof.
  revert m s. induction n as [|n IH]; intros m s Hn Hm.
  - destruct s; [|simpl in Hn; lia]. by destruct m.
  - destruct m as [|m]; [destruct s; [done|simpl in Hm; lia]|]. simpl.
    destruct (decode1 s) as [[r s']|] eqn:E; [|done].
    f_equal. apply decode1_lt in E. apply IH; lia.
Qed.

Lemma runes_decode1 s r s' : decode1 s = Some (r, s') → runes s = r :: runes s'.
Proof.
  intros E. pose proof (decode1_lt _ _ _ E). unfold runes.
  destruct (String.length s) as [|n] eqn:L; [lia|]. simpl. rewrite E.
  f_equal. apply runes_fuel_enough; lia.
Qed.

Lemma runes_nil : runes "" = [].
Proof. done. Qed.

(** Induction along the rune structure of a string. *)
Lemma rune_ind (P : string → Prop) :
  P "" → (∀ s r s', decode1 s = Some (r, s') → P s' → P s) → ∀ s, P s.
Proof.
  intros H0 HS s. remember (String.length s) as n eqn:Hn.
  revert s Hn. induction (lt_wf n) as [n _ IH]. intros s ->.
  destruct (decode1 s) as [[r s']|] eqn:E.
  - eapply HS; [exact E|]. eapply IH; [by eapply decode1_lt|done].
  - apply decode1_None in E as ->. done.
Qed.

(** *** Decoding is inverse to encoding *)

(** Evaluate the decision procedures of [decode1] on bytes that are known
    only through bounds. *)
Ltac bool_lia :=
  repeat match goal with
  | |- context [?a <? ?b] =>
      first [ replace (a <? b) with true by lia | replace (a <? b) with false by lia ]
  | |- context [?a <=? ?b] =>
      first [ replace (a <=? b) with true by lia | replace (a <=? b) with false by lia ]
  | |- context [?a =? ?b] =>
      first [ replace (a =? b) with true by lia | replace (a =? b) with false by lia ]
  end.

Lemma valid_rune_cases r :
  valid_rune r = true → 0 ≤ r < 55296 ∨ 57344 ≤ r ≤ 1114111.
Proof. unfold valid_rune. lia. Qed.

Lemma decode1_encode r s : valid_rune r = true → decode1 (encode r +:+ s) = Some (r, s).
Proof.
  intros Hv. unfold encode. rewrite Hv. apply valid_rune_cases in Hv.
  destruct (r <? 128) eqn:E1; [|destruct (r <? 2048) eqn:E2; [|destruct (r <? 65536) eqn:E3]];
    unfold decode1; rewrite ?sapp_cons, ?sapp_nil_l, !byte_val_chr by lia.
  - by rewrite E1.
  - unfold is_cont. bool_lia. simpl. do 2 f_equal. lia.
  - bool_lia. unfold second3, is_cont.
    destruct (224 + r / 4096 =? 224) eqn:E4; destruct (224 + r / 4096 =? 237) eqn:E5;
      bool_lia; simpl; do 2 f_equal; lia.
  - bool_lia. unfold second4, is_cont.
    destruct (240 + r / 262144 =? 240) eqn:E4; destruct (240 + r / 262144 =? 244) eqn:E5;
      bool_lia; simpl; do 2 f_equal; lia.
Qed.

Lemma runes_encode_all rs : Forall (λ r, valid_rune r = true) rs → runes (encode_all rs) = rs.
Proof.
  induction 1 as [|r rs Hr _ IH]; [done|]. simpl.
  rewrite (runes_decode1 _ r (encode_all rs)) by by apply decode1_encode.
  by rewrite IH.
Qed.

Lemma encode_valid_fix r : encode r = encode (if valid_rune r then r else rune_error).
Proof. unfold encode. destruct (valid_rune r) eqn:E; by rewrite ?E. Qed.

(** A decoded rune is valid; unless the byte was invalid it spells its own bytes. *)
Lemma decode1_inv s r s' :
  decode1 s = Some (r, s') →
  valid_rune r = true ∧ (r = rune_error ∨ s = encode r +:+ s').
Proof.
  unfold decode1. destruct s as [|a0 s1]; [done|]. intros H.
  pose proof (byte_val_range a0).
  assert (∀ x, r = rune_error → valid_rune r = true ∧ (r = rune_error ∨ String a0 s1 = x))
    as Herr by (intros ? ->; split; [done|by left]).
  destruct (byte_val a0 <? 128) eqn:E1.
  { simplify_eq. assert (valid_rune (byte_val a0) = true) as Hv by (unfold valid_rune; lia).
    split; [done|right]. unfold encode. rewrite Hv, E1. by rewrite byte_chr_val. }
  destruct (byte_val a0 <? 194) eqn:E2; [simplify_eq; by apply Herr|].
  destruct (byte_val a0 <? 224) eqn:E3.
  { destruct s1 as [|a1 s2]; [simplify_eq; by apply Herr|].
    destruct (is_cont (byte_val a1)) eqn:C1; [|simplify_eq; by apply Herr].
    unfold is_cont in C1. simplify_eq.
    set (r := (byte_val a0 - 192) * 64 + (byte_val a1 - 128)).
    assert (valid_rune r = true) as Hv by (unfold valid_rune; lia).
    split; [done|right]. unfold encode. rewrite Hv. bool_lia. cbv iota. rewrite !sapp_cons. f_equal.
    - apply byte_val_inj. rewrite byte_val_chr; lia.
    - f_equal. apply byte_val_inj. rewrite byte_val_chr; lia. }
  destruct (byte_val a0 <? 240) eqn:E4.
  { destruct s1 as [|a1 [|a2 s3]]; [simplify_eq; by apply Herr..|].
    destruct (second3 _ _ && is_cont _)%bool eqn:C1; [|simplify_eq; by apply Herr].
    unfold second3, is_cont in C1. apply andb_true_iff in C1 as [C1 C2]. simplify_eq.
    set (r := (byte_val a0 - 224) * 4096 + (byte_val a1 - 128) * 64 + (byte_val a2 - 128)).
    assert (valid_rune r = true) as Hv.
    { unfold valid_rune. repeat case_match; lia. }
    assert (128 ≤ byte_val a1 ≤ 191) by (repeat case_match; lia).
    assert (2048 ≤ r < 65536) by (repeat case_match; lia).
    split; [done|right]. unfold encode. rewrite Hv. bool_lia. cbv iota.
    rewrite !sapp_cons. repeat (apply f_equal2; [apply byte_val_inj; rewrite byte_val_chr; lia|]).
    done. }
  destruct (byte_val a0 <? 245) eqn:E5; [|simplify_eq; by apply Herr].
  destruct s1 as [|a1 [|a2 [|a3 s4]]]; [simplify_eq; by apply Herr..|].
  destruct (second4 _ _ && is_cont _ && is_cont _)%bool eqn:C1; [|simplify_eq; by apply Herr].
  unfold second4, is_cont in C1. apply andb_true_iff in C1 as [[C1 C2]%andb_true_iff C3].
  simplify_eq.
  set (r := (byte_val a0 - 240) * 262144 + (byte_val a1 - 128) * 4096
            + (byte_val a2 - 128) * 64 + (byte_val a3 - 128)).
  assert (128 ≤ byte_val a1 ≤ 191) by (repeat case_match; lia).
  assert (65536 ≤ r ≤ 1114111) by (repeat case_match; lia).
  assert (valid_rune r = true) as Hv by (unfold valid_rune; lia).
  split; [done|right]. unfold encode. rewrite Hv. bool_lia. cbv iota.
  rewrite !sapp_cons. repeat (apply f_equal2; [apply byte_val_inj; rewrite byte_val_chr; lia|]).
  done.
Qed.

Lemma runes_valid s : Forall (λ r, valid_rune r = true) (runes s).
Proof.
  induction s as [|s r s' E IH] using rune_ind; [constructor|].
  rewrite (runes_decode1 _ _ _ E). constructor; [by eapply decode1_inv|done].
Qed.

(** Decoding a concatenation splits where the second part starts with a lead byte. *)
Definition starts_lead (s : string) : bool :=
  match s with String a _ => negb (is_cont (byte_val a)) | EmptyString => true end.

Lemma second3_cont b0 b1 : second3 b0 b1 = true → is_cont b1 = true.
Proof. unfold second3, is_cont. repeat case_match; lia. Qed.
Lemma second4_cont b0 b1 : second4 b0 b1 = true → is_cont b1 = true.
Proof. unfold second4, is_cont. repeat case_match; lia. Qed.

Lemma decode1_app x y r x' :
  decode1 x = Some (r, x') → starts_lead y = true → decode1 (x +:+ y) = Some (r, x' +:+ y).
Proof.
  destruct x as [|a0 x1]; [done|]. rewrite sapp_cons. unfold decode1. intros H Hy.
  destruct (_ <? 128); [by simplify_eq|]. destruct (_ <? 194); [by simplify_eq|].
  assert (∀ a y', y = String a y' → is_cont (byte_val a) = false) as Hl.
  { intros a y' ->. simpl in Hy. by apply negb_true_iff in Hy. }
  assert (∀ b a y', y = String a y' → second3 b (byte_val a) = false) as Hl3.
  { intros b a y' Hy'. pose proof (Hl _ _ Hy') as Hc. apply not_true_is_false.
    intros ?%second3_cont. congruence. }
  assert (∀ b a y', y = String a y' → second4 b (byte_val a) = false) as Hl4.
  { intros b a y' Hy'. pose proof (Hl _ _ Hy') as Hc. apply not_true_is_false.
    intros ?%second4_cont. congruence. }
  destruct (_ <? 224); [|destruct (_ <? 240); [|destruct (_ <? 245); [|by simplify_eq]]].
  - destruct x1 as [|a1 x2].
    + simplify_eq. rewrite sapp_nil_l. destruct y as [|a y]; [done|]. by rewrite (Hl a y).
    + rewrite sapp_cons. by destruct (is_cont _); simplify_eq.
  - destruct x1 as [|a1 [|a2 x3]]; rewrite ?sapp_nil_l, ?sapp_cons, ?sapp_nil_l.
    + simplify_eq. destruct y as [|a [|a' y]]; [done..|].
      by rewrite (Hl3 _ a (String a' y)).
    + simplify_eq. destruct y as [|a y]; [done|].
      by rewrite (Hl a y), andb_false_r.
    + by destruct (_ && _)%bool; simplify_eq.
  - destruct x1 as [|a1 [|a2 [|a3 x4]]]; rewrite ?sapp_nil_l, ?sapp_cons, ?sapp_nil_l.
    + simplify_eq. destruct y as [|a [|a' [|a'' y]]]; [done..|].
      by rewrite (Hl4 _ a (String a' (String a'' y))).
    + simplify_eq. destruct y as [|a [|a' y]]; [done..|].
      by rewrite (Hl a (String a' y)), andb_false_r.
    + simplify_eq. destruct y as [|a y]; [done|].
      by rewrite (Hl a y), andb_false_r.
    + by destruct (_ && _ && _)%bool; simplify_eq.
Qed.

Lemma runes_app x y : starts_lead y = true → runes (x +:+ y) = runes x ++ runes y.
Proof.
  intros Hy. induction x as [|x r x' E IH] using rune_ind; [done|].
  rewrite (runes_decode1 _ _ _ (decode1_app _ _ _ _ E Hy)).
  by rewrite (runes_decode1 _ _ _ E), IH.
Qed.

Lemma encode_starts_lead r s : starts_lead (encode r +:+ s) = true.
Proof.
  rewrite encode_valid_fix.
  set (r' := if valid_rune r then r else rune_error).
  assert (valid_rune r' = true) as Hv by (subst r'; by case_match).
  unfold encode. rewrite Hv. apply valid_rune_cases in Hv.
  repeat case_match; simpl; rewrite byte_val_chr by lia; unfold is_cont;
    apply negb_true_iff, andb_false_iff; lia.
Qed.

Lemma runes_encode r : valid_rune r = true → runes (encode r) = [r].
Proof.
  intros Hv. rewrite <-(sapp_nil_r (encode r)).
  by rewrite (runes_decode1 _ r "") by by apply decode1_encode.
Qed.

Lemma encode_all_app a b : encode_all (a ++ b) = encode_all a +:+ encode_all b.
Proof. induction a as [|r a IH]; [done|]. simpl. by rewrite IH, sapp_assoc. Qed.

Lemma encode_nonempty r : encode r ≠ "".
Proof. unfold encode. repeat case_match; done. Qed.

(** ** Case mapping *)

(** [unicode.ToLower] and [unicode.ToUpper]. *)
Definition to_lower_rune (r : Z) : Z :=
  if r <? 128 then (if (65 <=? r) && (r <=? 90) then r + 32 else r)
  else map_case lower_ranges r.
Definition to_upper_rune (r : Z) : Z :=
  if r <? 128 then (if (97 <=? r) && (r <=? 122) then r - 32 else r)
  else map_case upper_ranges r.

(** [unicode.IsSpace]. *)
Definition space_runes : list Z :=
  [9; 10; 11; 12; 13; 32; 133; 160; 5760; 8192; 8193; 8194; 8195; 8196; 8197; 8198;
   8199; 8200; 8201; 8202; 8232; 8233; 8239; 8287; 12288].
Definition is_space (r : Z) : bool := existsb (Z.eqb r) space_runes.

(** [strings.ToLower], [strings.ToUpper]: [strings.Map] over the runes. *)
Definition to_lower (s : string) : string := encode_all (to_lower_rune <$> runes s).
Definition to_upper (s : string) : string := encode_all (to_upper_rune <$> runes s).

(** The runes a table moves. *)
Definition range_runes (c : case_range) : list Z :=
  (λ k, cr_lo c + cr_step c * Z.of_nat k)
    <$> seq 0 (S (Z.to_nat ((cr_hi c - cr_lo c) / cr_step c))).
Definition moved_runes (t : list case_range) : list Z := t ≫= range_runes.

Lemma moved_runes_cons c t : moved_runes (c :: t) = range_runes c ++ moved_runes t.
Proof. done. Qed.

Lemma map_case_moved t r :
  forallb (λ c, 0 <? cr_step c) t = true → map_case t r = r ∨ r ∈ moved_runes t.
Proof.
  induction t as [|[lo hi st d] t IH]; [by left|].
  rewrite moved_runes_cons, elem_of_app. intros [Hst Ht]%andb_true_iff. simpl in Hst.
  assert (map_case t r = r ∨ r ∈ range_runes (CR lo hi st d) ∨ r ∈ moved_runes t) as Hnext.
  { destruct (IH Ht); auto. }
  cbn [map_case].
  destruct (r <? lo) eqn:?; [done|]. destruct (hi <? r) eqn:?; [done|].
  destruct ((r - lo) mod st =? 0) eqn:E; [|done]. right. left.
  unfold range_runes. cbn [cr_lo cr_hi cr_step].
  apply list_elem_of_fmap. exists (Z.to_nat ((r - lo) / st)). split; [|apply elem_of_seq].
  - rewrite Z2Nat.id by (apply Z.div_pos; lia).
    pose proof (Z_div_mod_eq_full (r - lo) st). lia.
  - pose proof (Z.div_le_mono (r - lo) (hi - lo) st ltac:(lia) ltac:(lia)).
    pose proof (Z.div_pos (r - lo) st ltac:(lia) ltac:(lia)). lia.
Qed.

(** Everything the proofs need of a rune, checked for ASCII and for the runes
    the table moves; every other rune is its own lower case. *)
Definition lower_rune_ok (r : Z) : bool :=
  let l := to_lower_rune r in
  (to_lower_rune l =? l)
  && (if valid_rune r then valid_rune l else true)
  && Bool.eqb (is_space l) (is_space r)
  && (if (l <? 128) && negb ((97 <=? l) && (l <=? 122)) then l =? r else true)
  && (if r <? 128 then l <? 128 else true).

Lemma lower_rune_ok_ascii : all_below 128 lower_rune_ok = true.
Proof. vm_compute. reflexivity. Qed.
Lemma lower_rune_ok_moved : forallb lower_rune_ok (moved_runes lower_ranges) = true.
Proof. vm_compute. reflexivity. Qed.

Lemma lower_rune_ok_all r : 0 ≤ r → lower_rune_ok r = true.
Proof.
  intros H0. destruct (decide (r < 128)) as [Hlt|Hge].
  { by apply (all_below_spec 128); [exact lower_rune_ok_ascii|]. }
  destruct (map_case_moved lower_ranges r eq_refl) as [E|Hin].
  - assert (to_lower_rune r = r) as El.
    { unfold to_lower_rune. by replace (r <? 128) with false by lia. }
    unfold lower_rune_ok. rewrite !El, Z.eqb_refl, Bool.eqb_reflx.
    replace (r <? 128) with false by lia. by destruct (valid_rune r).
  - pose proof lower_rune_ok_moved as H. rewrite forallb_forall in H.
    by apply H, list_elem_of_In.
Qed.

Lemma valid_rune_nonneg r : valid_rune r = true → 0 ≤ r.
Proof. unfold valid_rune. lia. Qed.

Section lower_rune.
Context (r : Z) (Hr : 0 ≤ r).

Lemma to_lower_rune_idemp : to_lower_rune (to_lower_rune r) = to_lower_rune r.
Proof using Hr. pose proof (lower_rune_ok_all r Hr). unfold lower_rune_ok in *. split_bools. by apply Z.eqb_eq. Qed.
Lemma to_lower_rune_valid : valid_rune r = true → valid_rune (to_lower_rune r) = true.
Proof using Hr.
  pose proof (lower_rune_ok_all r Hr) as H. unfold lower_rune_ok in H. split_bools.
  intros E. by rewrite E in *.
Qed.
Lemma is_space_to_lower_rune : is_space (to_lower_rune r) = is_space r.
Proof using Hr.
  pose proof (lower_rune_ok_all r Hr) as H. unfold lower_rune_ok in H. split_bools.
  by apply Bool.eqb_prop.
Qed.
(** Only letters are produced by lowering: any other ASCII rune is itself. *)
Lemma to_lower_rune_ascii_fixed c :
  0 ≤ c < 128 → ¬ (97 ≤ c ≤ 122) → to_lower_rune r = c → r = c.
Proof using Hr.
  pose proof (lower_rune_ok_all r Hr) as H. unfold lower_rune_ok in H. split_bools.
  intros ? ? Hc. rewrite Hc in *.
  replace ((c <? 128) && negb ((97 <=? c) && (c <=? 122)))%bool with true in * by lia. lia.
Qed.
End lower_rune.

Lemma runes_to_lower s : runes (to_lower s) = to_lower_rune <$> runes s.
Proof.
  apply runes_encode_all, Forall_fmap. eapply Forall_impl; [apply runes_valid|].
  intros r Hr. simpl. by apply to_lower_rune_valid; [apply valid_rune_nonneg|].
Qed.

Lemma to_lower_idemp s : to_lower (to_lower s) = to_lower s.
Proof.
  unfold to_lower at 1. rewrite runes_to_lower. unfold to_lower. f_equal.
  rewrite <-list_fmap_compose. apply list_fmap_ext. intros i r Hr. simpl.
  apply to_lower_rune_idemp, valid_rune_nonneg.
  eapply (Forall_lookup_1 _ _ _ _ (runes_valid s)), Hr.
Qed.

Lemma runes_eq_nil s : runes s = [] ↔ s = "".
Proof.
  split; [|by intros ->]. destruct (decode1 s) as [[r s']|] eqn:E.
  - by rewrite (runes_decode1 _ _ _ E).
  - intros _. by apply decode1_None.
Qed.

Lemma to_lower_eq_nil s : to_lower s = "" ↔ s = "".
Proof.
  rewrite <-(runes_eq_nil (to_lower s)), runes_to_lower, <-(runes_eq_nil s).
  destruct (runes s); naive_solver.
Qed.

(** ** Trimming white space *)

Definition space_encodings : list string := encode <$> space_runes.

Fixpoint trim_left_fuel (n : nat) (s : string) : string :=
  match n with
  | O => s
  | S n =>
      match decode1 s with
      | Some (r, s') => if is_space r then trim_left_fuel n s' else s
      | None => s
      end
  end.
Definition trim_left (s : string) : string := trim_left_fuel (String.length s) s.

(** Trailing white space goes from the end inwards: a byte is kept unless it
    opens a white-space rune with nothing after it. *)
Fixpoint trim_right (s : string) : string :=
  match s with
  | EmptyString => EmptyString
  | String a s' =>
      let t := String a (trim_right s') in
      if existsb (String.eqb t) space_encodings then EmptyString else t
  end.

(** [strings.TrimSpace]. *)
Definition trim_space (s : string) : string := trim_right (trim_left s).

Lemma trim_left_fuel_enough n m s :
  (String.length s ≤ n)%nat → (String.length s ≤ m)%nat →
  trim_left_fuel n s = trim_left_fuel m s.
Proof.
  revert m s. induction n as [|n IH]; intros m s Hn Hm.
  - destruct s; [|simpl in Hn; lia]. by destruct m.
  - destruct m as [|m]; [destruct s; [done|simpl in Hm; lia]|]. simpl.
    destruct (decode1 s) as [[r s']|] eqn:E; [|done].
    apply decode1_lt in E. destruct (is_space r); [|done]. apply IH; lia.
Qed.

Lemma trim_left_decode1 s r s' :
  decode1 s = Some (r, s') → trim_left s = if is_space r then trim_left s' else s.
Proof.
  intros E. pose proof (decode1_lt _ _ _ E). unfold trim_left.
  destruct (String.length s) as [|n] eqn:L; [lia|]. simpl. rewrite E.
  destruct (is_space r); [|done]. apply trim_left_fuel_enough; lia.
Qed.

Definition no_lead_space (s : string) : Prop :=
  match head (runes s) with Some r => is_space r = false | None => True end.
Definition no_trail_space (s : string) : Prop :=
  match last (runes s) with Some r => is_space r = false | None => True end.

Lemma trim_left_no_lead s : no_lead_space (trim_left s).
Proof.
  induction s as [|s r s' E IH] using rune_ind; [done|].
  rewrite (trim_left_decode1 _ _ _ E). destruct (is_space r) eqn:Er; [done|].
  unfold no_lead_space. by rewrite (runes_decode1 _ _ _ E).
Qed.

Lemma trim_left_id s : no_lead_space s → trim_left s = s.
Proof.
  destruct (decode1 s) as [[r s']|] eqn:E.
  - unfold no_lead_space. rewrite (runes_decode1 _ _ _ E), (trim_left_decode1 _ _ _ E).
    simpl. by intros ->.
  - apply decode1_None in E as ->. done.
Qed.

(** *** The right end *)

Definition suffix (e s : string) : Prop := ∃ x, s = x +:+ e.

Lemma suffix_cons a e s : suffix e (String a s) ↔ e = String a s ∨ suffix e s.
Proof.
  split.
  - intros [[|b x] E]; [by left|]. right. exists x. rewrite sapp_cons in E. by simplify_eq.
  - intros [->|[x ->]]; [by exists ""|]. by exists (String a x).
Qed.

Lemma trim_right_fix s :
  trim_right s = s ↔ ∀ e, e ∈ space_encodings → e ≠ "" → ¬ suffix e s.
Proof.
  induction s as [|a s IH].
  - split; [|done]. intros _ e _ He [[|b x] E]; [by destruct e|]. by rewrite sapp_cons in E.
  - cbn [trim_right]. destruct (existsb _ _) eqn:Ex.
    + apply existsb_exists in Ex as (e & He%list_elem_of_In & Eq%String.eqb_eq).
      split; [done|]. intros Hn. exfalso.
      destruct (decide (trim_right s = s)) as [Es|Es].
      * apply (Hn e He); [by subst|]. rewrite suffix_cons. left. by rewrite <-Eq, Es.
      * apply Es, IH. intros e' He' Hne' Hs. apply (Hn e' He' Hne'). rewrite suffix_cons. auto.
    + split.
      * intros [= Es] e He Hne. rewrite suffix_cons. intros [->|Hs].
        { rewrite Es in Ex. apply not_true_iff_false in Ex. apply Ex, existsb_exists.
          exists (String a s). split; [by apply list_elem_of_In|by apply String.eqb_eq]. }
        by apply (proj1 IH Es e).
      * intros Hn. f_equal. apply IH. intros e He Hne Hs. apply (Hn e He Hne).
        rewrite suffix_cons. auto.
Qed.

Lemma trim_right_idemp s : trim_right (trim_right s) = trim_right s.
Proof.
  induction s as [|a s IH]; [done|]. cbn [trim_right].
  destruct (existsb _ _) eqn:Ex; [done|]. cbn [trim_right]. by rewrite IH, Ex.
Qed.

Lemma trim_right_app s : ∃ ws, Forall (λ r, r ∈ space_runes) ws ∧ s = trim_right s +:+ encode_all ws.
Proof.
  induction s as [|a s (ws & Hws & E)].
  - by exists [].
  - cbn [trim_right]. destruct (existsb _ _) eqn:Ex.
    + apply existsb_exists in Ex as (e & He%list_elem_of_In & Eq%String.eqb_eq).
      apply list_elem_of_fmap in He as (r & -> & Hr).
      exists (r :: ws). split; [by constructor|].
      rewrite sapp_nil_l. simpl. rewrite <-Eq, sapp_cons. by f_equal.
    + exists ws. split; [done|]. rewrite sapp_cons. by f_equal.
Qed.

Lemma space_rune_valid r : r ∈ space_runes → valid_rune r = true ∧ r ≠ rune_error.
Proof.
  assert (forallb (λ r, valid_rune r && negb (r =? rune_error)) space_runes = true) as H
    by by vm_compute.
  intros Hin%list_elem_of_In. rewrite forallb_forall in H. apply H in Hin. split_bools.
  split; [done|lia].
Qed.

Lemma is_space_elem r : is_space r = true ↔ r ∈ space_runes.
Proof.
  unfold is_space. rewrite existsb_exists. split.
  - intros (x & Hx & ->%Z.eqb_eq). by apply list_elem_of_In.
  - intros H. exists r. rewrite Z.eqb_refl. by rewrite <-list_elem_of_In.
Qed.

Lemma encode_all_lead rs : starts_lead (encode_all rs) = true.
Proof. destruct rs; [done|]. apply encode_starts_lead. Qed.

Lemma suffix_trans x y z : suffix x y → suffix y z → suffix x z.
Proof. intros [u ->] [v ->]. exists (v +:+ u). by rewrite sapp_assoc. Qed.

Lemma decode1_suffix s r s' : decode1 s = Some (r, s') → suffix s' s.
Proof.
  unfold decode1. intros H. repeat case_match; simplify_eq;
    repeat first [by exists "" | apply suffix_cons; right].
Qed.

(** A string whose last rune is a proper one ends in that rune's encoding. *)
Lemma last_rune_suffix s r :
  last (runes s) = Some r → r ≠ rune_error → suffix (encode r) s.
Proof.
  intros Hl Hr. induction s as [|s r' s' E IH] using rune_ind; [done|].
  rewrite (runes_decode1 _ _ _ E) in Hl. rewrite last_cons in Hl.
  destruct (last (runes s')) as [l|] eqn:El.
  - simplify_eq. eapply suffix_trans; [by apply IH|by eapply decode1_suffix].
  - simplify_eq. apply last_None, runes_eq_nil in El as ->.
    destruct (decode1_inv _ _ _ E) as [_ [?|Es]]; [done|]. subst s.
    exists "". by rewrite sapp_nil_r.
Qed.

Lemma suffix_last_rune s r :
  valid_rune r = true → suffix (encode r) s → last (runes s) = Some r.
Proof.
  intros Hv [x ->]. rewrite runes_app.
  - rewrite runes_encode by done. by rewrite last_snoc.
  - rewrite <-(sapp_nil_r (encode r)). apply encode_starts_lead.
Qed.

Lemma trim_right_fix_runes s : trim_right s = s ↔ no_trail_space s.
Proof.
  rewrite trim_right_fix. unfold no_trail_space. split.
  - intros H. destruct (last (runes s)) as [r|] eqn:El; [|done].
    apply not_true_is_false. intros Hr%is_space_elem.
    apply (H (encode r)); [by apply list_elem_of_fmap_2|apply encode_nonempty|].
    apply last_rune_suffix; [done|]. by apply space_rune_valid.
  - intros H e (r & -> & Hr)%list_elem_of_fmap _ Hs.
    destruct (space_rune_valid _ Hr) as [Hv _].
    rewrite (suffix_last_rune _ _ Hv Hs) in H.
    apply is_space_elem in Hr. congruence.
Qed.

(** *** [TrimSpace] *)

Lemma no_lead_space_trim_right s : no_lead_space s → no_lead_space (trim_right s).
Proof.
  destruct (trim_right_app s) as (ws & _ & E). unfold no_lead_space.
  rewrite E at 1. rewrite runes_app by apply encode_all_lead.
  by destruct (runes (trim_right s)).
Qed.

Lemma trim_space_fix s : trim_space s = s ↔ no_lead_space s ∧ no_trail_space s.
Proof.
  unfold trim_space. split.
  - intros E. assert (no_lead_space s) as Hl.
    { rewrite <-E. apply no_lead_space_trim_right, trim_left_no_lead. }
    split; [done|]. rewrite trim_left_id in E by done. by apply trim_right_fix_runes.
  - intros [Hl Ht]. rewrite trim_left_id by done. by apply trim_right_fix_runes.
Qed.

Lemma trim_space_trimmed s : no_lead_space (trim_space s) ∧ no_trail_space (trim_space s).
Proof.
  split.
  - apply no_lead_space_trim_right, trim_left_no_lead.
  - apply trim_right_fix_runes, trim_right_idemp.
Qed.

Lemma trim_space_idemp s : trim_space (trim_space s) = trim_space s.
Proof. apply trim_space_fix, trim_space_trimmed. Qed.

Lemma head_fmap {A B} (f : A → B) l : head (f <$> l) = f <$> head l.
Proof. by destruct l. Qed.

Lemma runes_nonneg s : Forall (λ r, 0 ≤ r) (runes s).
Proof. eapply Forall_impl; [apply runes_valid|]. intros r. apply valid_rune_nonneg. Qed.

Lemma to_lower_trimmed s : trim_space s = s → trim_space (to_lower s) = to_lower s.
Proof.
  rewrite !trim_space_fix. unfold no_lead_space, no_trail_space.
  rewrite runes_to_lower, head_fmap, fmap_last. pose proof (runes_nonneg s) as Hn.
  intros [Hl Ht]. split.
  - destruct (runes s) as [|r rs]; [done|]. simpl in *. inversion Hn.
    by rewrite is_space_to_lower_rune.
  - destruct (last (runes s)) as [r|] eqn:El; [|done]. simpl.
    apply last_Some in El as [l El]. rewrite El in Hn.
    apply Forall_app in Hn as [_ Hn]. inversion Hn. by rewrite is_space_to_lower_rune.
Qed.

Lemma trim_to_lower_trim s : trim_space (to_lower (trim_space s)) = to_lower (trim_space s).
Proof. apply to_lower_trimmed, trim_space_idemp. Qed.

(** ** Byte-level functions *)

Notation "s =s t" := (String.eqb s t) (at level 70, no associativity) : stdpp_scope.

(** [value == one of the case labels]: a [switch] over string literals. *)
Definition one_of (value : string) (options : list string) : bool :=
  existsb (String.eqb value) options.

Definition bytes (s : string) : list ascii := String.list_ascii_of_string s.

(** [strings.Trim] with an ASCII cutset, given as a byte predicate. *)
Fixpoint trim_left_set (p : ascii → bool) (s : string) : string :=
  match s with
  | String a s' => if p a then trim_left_set p s' else s
  | EmptyString => EmptyString
  end.
Fixpoint trim_right_set (p : ascii → bool) (s : string) : string :=
  match s with
  | String a s' =>
      match trim_right_set p s' with
      | EmptyString => if p a then EmptyString else String a EmptyString
      | t => String a t
      end
  | EmptyString => EmptyString
  end.
Definition trim_set (cutset : string) (s : string) : string :=
  let p := λ a, existsb (Ascii.eqb a) (bytes cutset) in
  trim_right_set p (trim_left_set p s).

(** [s[:n]] for [n <= len(s)]. *)
Fixpoint take_bytes (n : nat) (s : string) : string :=
  match n, s with
  | S n, String a s' => String a (take_bytes n s')
  | _, _ => EmptyString
  end.

(** [strings.CutPrefix]. *)
Fixpoint strip_prefix (p s : string) : option string :=
  match p, s with
  | EmptyString, _ => Some s
  | String a p', String b s' => if Ascii.eqb a b then strip_prefix p' s' else None
  | _, EmptyString => None
  end.

(** [strings.HasPrefix], [strings.Contains] and [strings.HasSuffix]. *)
Definition has_prefix (p s : string) : bool := match strip_prefix p s with Some _ => true | None => false end.
Fixpoint contains_sub (needle s : string) : bool :=
  match strip_prefix needle s with
  | Some _ => true
  | None => match s with String _ s' => contains_sub needle s' | EmptyString => false end
  end.
Fixpoint has_suffix (e s : string) : bool :=
  (s =s e) || match s with String _ s' => has_suffix e s' | EmptyString => false end.

(** [strings.ReplaceAll] for a non-empty [old]; [n] bounds the remaining bytes. *)
Fixpoint replace_fuel (n : nat) (old new s : string) : string :=
  match n, s with
  | S n, String a s' =>
      match strip_prefix old s with
      | Some rest => new +:+ replace_fuel n old new rest
      | None => String a (replace_fuel n old new s')
      end
  | _, _ => EmptyString
  end.
Definition replace_all (old new s : string) : string :=
  replace_fuel (String.length s) old new s.

(** [strings.ReplaceAll] for a one-byte [old]. *)
Fixpoint replace_char (old : ascii) (new s : string) : string :=
  match s with
  | EmptyString => EmptyString
  | String a s' => (if Ascii.eqb a old then new else String a "") +:+ replace_char old new s'
  end.

(** [strings.Split] at a one-byte separator. *)
Fixpoint split_char (c : ascii) (s : string) : list string :=
  match s with
  | EmptyString => [EmptyString]
  | String a s' =>
      if Ascii.eqb a c then EmptyString :: split_char c s'
      else match split_char c s' with
           | w :: ws => String a w :: ws
           | [] => [String a EmptyString]
           end
  end.

(** [strings.Cut] at a one-byte separator. *)
Fixpoint cut_char (c : ascii) (s : string) : option (string * string) :=
  match s with
  | EmptyString => None
  | String a s' =>
      if Ascii.eqb a c then Some (EmptyString, s')
      else match cut_char c s' with Some (l, r) => Some (String a l, r) | None => None end
  end.

(** [strings.LastIndexByte], as the two sides of the last occurrence. *)
Fixpoint cut_last (c : ascii) (s : string) : option (string * string) :=
  match s with
  | EmptyString => None
  | String a s' =>
      match cut_last c s' with
      | Some (l, r) => Some (String a l, r)
      | None => if Ascii.eqb a c then Some (EmptyString, s') else None
      end
  end.

Definition contains_char (c : ascii) (s : string) : bool := existsb (Ascii.eqb c) (bytes s).

(** [strings.Join]. *)
Fixpoint join (sep : string) (l : list string) : string :=
  match l with
  | [] => EmptyString
  | [x] => x
  | x :: l' => x +:+ sep +:+ join sep l'
  end.

(** [strings.EqualFold(s, t)] for an ASCII [t]: beside the two ASCII cases, U+017F
    folds with s and U+212A with k. *)
Definition fold_rune (r : Z) : Z :=
  if r =? 383 then 115 else if r =? 8490 then 107
  else if (65 <=? r) && (r <=? 90) then r + 32 else r.
Definition equal_fold_ascii (s t : string) : bool :=
  bool_decide (fold_rune <$> runes s = fold_rune <$> runes t).

(** The byte strings built rune by rune with [strings.Builder]: every maximal
    run of runes outside [ok] becomes one dash ([sanitize...], [slugify...]). *)
Fixpoint dash_runs (ok : Z → bool) (last_dash : bool) (rs : list Z) : string :=
  match rs with
  | [] => EmptyString
  | r :: rs =>
      if ok r then encode r +:+ dash_runs ok false rs
      else if last_dash then dash_runs ok true rs
      else String (byte_chr 45) (dash_runs ok true rs)
  end.

(** Byte-wise string order, as [sort.Strings] uses it. *)
Definition string_lt (s t : string) : bool :=
  match String.compare s t with Lt => true | _ => false end.
Definition sort_strings (l : list string) : list string := isort string_lt l.

(** The order is total and transitive, in the form the sort lemmas take. *)
Lemma string_lt_cons a b s t :
  string_lt (String a s) (String b t)
  = (byte_val a <? byte_val b) || ((byte_val a =? byte_val b) && string_lt s t).
Proof.
  unfold string_lt. cbn [String.compare]. unfold Ascii.compare, byte_val.
  destruct (N.compare_spec (N_of_ascii a) (N_of_ascii b)) as [E| |].
  - rewrite E, Z.eqb_refl. replace (_ <? _) with false by lia. done.
  - by replace (_ <? _) with true by lia.
  - replace (_ <? _) with false by lia. by replace (_ =? _) with false by lia.
Qed.

(** Decide the comparisons of a goal between bytes. *)
Ltac cmp_bytes :=
  repeat match goal with
  | |- context [?x <? ?y] => destruct (Z.ltb_spec x y)
  | |- context [?x =? ?y] => destruct (Z.eqb_spec x y)
  end; simpl; try lia; try done.

Lemma string_lt_asym s t : string_lt s t = true → string_lt t s = false.
Proof.
  revert t. induction s as [|a s IH]; intros [|b t]; try done. rewrite !string_lt_cons. cmp_bytes. apply IH.
Qed.

Lemma string_lt_total s t : string_lt s t = false → string_lt t s = false → s = t.
Proof.
  revert t. induction s as [|a s IH]; intros [|b t]; try done. rewrite !string_lt_cons. cmp_bytes.
  intros. rewrite (byte_val_inj a b) by done. by rewrite (IH t).
Qed.

Lemma string_le_trans s t u : string_lt t s = false → string_lt u t = false → string_lt u s = false.
Proof.
  revert t u. induction s as [|a s IH]; intros [|b t] [|c u]; try done. rewrite !string_lt_cons. cmp_bytes.
  apply IH.
Qed.

(** *** Lemmas on the byte-level functions *)

Lemma one_of_spec v l : one_of v l = true ↔ v ∈ l.
Proof.
  unfold one_of. rewrite existsb_exists, list_elem_of_In. split.
  - by intros (x & ? & ->%String.eqb_eq).
  - intros ?. exists v. by rewrite String.eqb_refl.
Qed.

Lemma one_of_false v l : one_of v l = false ↔ v ∉ l.
Proof. by rewrite <-not_true_iff_false, one_of_spec. Qed.

Lemma bytes_cons a s : bytes (String a s) = a :: bytes s.
Proof. done. Qed.
Lemma bytes_app a b : bytes (a +:+ b) = bytes a ++ bytes b.
Proof. induction a as [|x a IH]; [done|]. rewrite sapp_cons. unfold bytes in *. simpl. by f_equal. Qed.

Lemma bytes_inj a b : bytes a = bytes b → a = b.
Proof.
  unfold bytes. intros E. rewrite <-(String.string_of_list_ascii_of_string a), E.
  apply String.string_of_list_ascii_of_string.
Qed.

Lemma encode_ascii_byte c r : byte_val c < 128 → c ∈ bytes (encode r) → r = byte_val c.
Proof.
  intros Hc. rewrite encode_valid_fix.
  set (r' := if valid_rune r then r else rune_error). intros Hin.
  assert (valid_rune r' = true) as Hv by (subst r'; by case_match).
  assert (r' = byte_val c) as E.
  { revert Hin. unfold encode. rewrite Hv. apply valid_rune_cases in Hv.
    unfold bytes. repeat case_match; simpl; rewrite ?elem_of_cons, elem_of_nil;
      intuition; subst c; rewrite byte_val_chr in *; lia. }
  subst r'. destruct (valid_rune r); [done|]. unfold rune_error in E. lia.
Qed.

Lemma encode_all_ascii_byte c rs :
  byte_val c < 128 → c ∈ bytes (encode_all rs) → byte_val c ∈ rs.
Proof.
  intros Hc. induction rs as [|r rs IH]; simpl; [by intros ?%elem_of_nil|].
  rewrite bytes_app, elem_of_app, elem_of_cons. intros [H|H]; [|auto].
  left. symmetry. by apply encode_ascii_byte.
Qed.

Lemma ascii_rune_byte c s : byte_val c < 128 → byte_val c ∈ runes s → c ∈ bytes s.
Proof.
  intros Hc. induction s as [|s r s' E IH] using rune_ind; [by intros ?%elem_of_nil|].
  rewrite (runes_decode1 _ _ _ E), elem_of_cons. intros [Hr|H].
  - destruct (decode1_inv _ _ _ E) as [_ [Hre|Es]]; [unfold rune_error in *; lia|]. subst s.
    rewrite bytes_app, elem_of_app. left. subst r. unfold encode.
    pose proof (byte_val_range c).
    replace (valid_rune (byte_val c)) with true by (unfold valid_rune; lia).
    bool_lia. rewrite byte_chr_val. by left.
  - destruct (decode1_suffix _ _ _ E) as [x ->]. rewrite bytes_app, elem_of_app. auto.
Qed.

(** Lowering creates no ASCII byte other than a letter. *)
Lemma to_lower_byte c s :
  byte_val c < 128 → ¬ (97 ≤ byte_val c ≤ 122) → c ∈ bytes (to_lower s) → c ∈ bytes s.
Proof.
  intros Hc Hnl Hin. apply ascii_rune_byte; [done|].
  apply encode_all_ascii_byte in Hin; [|done].
  apply list_elem_of_fmap in Hin as (r & Hr & Hin).
  pose proof (runes_nonneg s) as Hn. rewrite Forall_forall in Hn.
  pose proof (byte_val_range c).
  rewrite <-(to_lower_rune_ascii_fixed r (Hn r Hin) (byte_val c)); auto. lia.
Qed.

Lemma trim_left_suffix s : suffix (trim_left s) s.
Proof.
  induction s as [|s r s' E IH] using rune_ind; [by exists ""|].
  rewrite (trim_left_decode1 _ _ _ E). destruct (is_space r); [|by exists ""].
  eapply suffix_trans; [exact IH|by eapply decode1_suffix].
Qed.

Lemma trim_space_infix s : ∃ x y, s = x +:+ trim_space s +:+ y.
Proof.
  unfold trim_space. destruct (trim_left_suffix s) as [x Ex].
  destruct (trim_right_app (trim_left s)) as (ws & _ & Ey).
  exists x, (encode_all ws). by rewrite <-Ey.
Qed.

Lemma trim_space_byte c s : c ∈ bytes (trim_space s) → c ∈ bytes s.
Proof.
  destruct (trim_space_infix s) as (x & y & E). intros H. rewrite E, !bytes_app. set_solver.
Qed.

Lemma trim_space_nil : trim_space "" = "".
Proof. done. Qed.

Lemma replace_char_byte old new s :
  old ∉ bytes new → old ∉ bytes (replace_char old new s).
Proof.
  intros Hn. induction s as [|a s IH]; [by intros ?%elem_of_nil|].
  cbn [replace_char]. rewrite bytes_app, elem_of_app. intros [H|H]; [|auto].
  destruct (Ascii.eqb_spec a old); [done|]. unfold bytes in H. simpl in H.
  apply list_elem_of_singleton in H. congruence.
Qed.

Lemma replace_char_id old new s : old ∉ bytes s → replace_char old new s = s.
Proof.
  induction s as [|a s IH]; [done|]. unfold bytes. simpl. rewrite not_elem_of_cons.
  intros [Hne Hs]. destruct (Ascii.eqb_spec a old); [congruence|].
  rewrite IH by done. done.
Qed.

Lemma contains_char_spec c s : contains_char c s = true ↔ c ∈ bytes s.
Proof.
  unfold contains_char. rewrite existsb_exists, list_elem_of_In. split.
  - by intros (x & ? & ->%Ascii.eqb_eq).
  - intros ?. exists c. by rewrite Ascii.eqb_refl.
Qed.

Lemma split_char_nonempty c s : split_char c s ≠ [].
Proof. destruct s; simpl; [done|]. repeat case_match; done. Qed.

Lemma split_char_none c s : c ∉ bytes s → split_char c s = [s].
Proof.
  induction s as [|a s IH]; [done|]. unfold bytes. simpl. rewrite not_elem_of_cons.
  intros [Hne Hs]. destruct (Ascii.eqb_spec a c); [congruence|]. by rewrite IH.
Qed.

Lemma split_char_app c w s :
  c ∉ bytes w → split_char c (w +:+ String c s) = w :: split_char c s.
Proof.
  induction w as [|a w IH].
  - intros _. rewrite sapp_nil_l. simpl. by rewrite Ascii.eqb_refl.
  - rewrite sapp_cons. unfold bytes. simpl. rewrite not_elem_of_cons. intros [Hne Hs].
    destruct (Ascii.eqb_spec a c); [congruence|]. by rewrite IH.
Qed.

(** Splitting at the separator undoes joining with it. *)
Lemma split_join c l :
  l ≠ [] → Forall (λ w, c ∉ bytes w) l → split_char c (join (String c "") l) = l.
Proof.
  intros Hne H. induction H as [|w l Hw Hl IH]; [done|].
  destruct l as [|w' l]; [by apply split_char_none|].
  change (join (String c "") (w :: w' :: l)) with (w +:+ String c (join (String c "") (w' :: l))).
  rewrite split_char_app by done. by rewrite IH.
Qed.

Lemma join_byte c sep l :
  c ∈ bytes (join sep l) → c ∈ bytes sep ∨ ∃ w, w ∈ l ∧ c ∈ bytes w.
Proof.
  induction l as [|w l IH]; [by intros ?%elem_of_nil|].
  destruct l as [|w' l]; [intros H; right; exists w; split; [by left|done]|].
  cbn [join]. rewrite !bytes_app, !elem_of_app. intros [H|[H|H]]; [|by left|].
  - right. exists w. split; [by left|done].
  - destruct (IH H) as [?|(w0 & ? & ?)]; [by left|]. right. exists w0. split; [by right|done].
Qed.

#[export] Hint Rewrite to_lower_idemp trim_space_idemp trim_to_lower_trim : megavpn.

(** *** Strings of plain ASCII bytes *)

(** Every byte of [s] satisfies [p]. *)
Definition all_bytes (p : ascii → bool) (s : string) : Prop := Forall (λ a, p a = true) (bytes s).
Lemma all_bytes_dec (p : ascii → bool) s : forallb p (bytes s) = true → all_bytes p s.
Proof. unfold all_bytes. rewrite forallb_forall, Forall_forall. intros H x Hx. apply H. by apply list_elem_of_In. Qed.

Lemma all_bytes_cons p a s : all_bytes p (String a s) ↔ p a = true ∧ all_bytes p s.
Proof. unfold all_bytes, bytes. simpl. apply Forall_cons_iff. Qed.
Lemma all_bytes_app p s t : all_bytes p (s +:+ t) ↔ all_bytes p s ∧ all_bytes p t.
Proof. unfold all_bytes. rewrite bytes_app. apply Forall_app. Qed.
Lemma all_bytes_impl (p q : ascii → bool) s :
  (∀ a, p a = true → q a = true) → all_bytes p s → all_bytes q s.
Proof. unfold all_bytes. intros H Hs. eapply Forall_impl; [exact Hs|exact H]. Qed.
Lemma all_bytes_nil p : all_bytes p "".
Proof. constructor. Qed.
Lemma all_bytes_not_in p s c : all_bytes p s → p c = false → c ∉ bytes s.
Proof. unfold all_bytes. rewrite Forall_forall. intros H Hc Hin. apply H in Hin. congruence. Qed.

Definition ascii_byte (a : ascii) : bool := byte_val a <? 128.

Lemma encode_ascii r : 0 ≤ r < 128 → encode r = String (byte_chr r) "".
Proof.
  intros H. unfold encode. replace (valid_rune r) with true by (unfold valid_rune; lia).
  bool_lia. done.
Qed.

Lemma runes_ascii s : all_bytes ascii_byte s → runes s = byte_val <$> bytes s.
Proof.
  induction s as [|a s IH]; [done|]. rewrite all_bytes_cons. unfold ascii_byte. intros [Ha Hs].
  rewrite (runes_decode1 _ (byte_val a) s).
  - rewrite IH by done. done.
  - unfold decode1. by rewrite Ha.
Qed.

Lemma encode_all_bytes s : all_bytes ascii_byte s → encode_all (byte_val <$> bytes s) = s.
Proof.
  induction s as [|a s IH]; [done|]. rewrite all_bytes_cons. unfold ascii_byte. intros [Ha Hs].
  rewrite bytes_cons, fmap_cons. cbn [encode_all foldr]. fold (encode_all (byte_val <$> bytes s)).
  rewrite IH by done. pose proof (byte_val_range a). rewrite encode_ascii by lia. by rewrite byte_chr_val.
Qed.

(** Lower-case or caseless ASCII text is its own lower case. *)
Definition no_upper (a : ascii) : bool :=
  ascii_byte a && negb ((65 <=? byte_val a) && (byte_val a <=? 90)).

Lemma to_lower_no_upper s : all_bytes no_upper s → to_lower s = s.
Proof.
  intros H. assert (all_bytes ascii_byte s) as Ha.
  { eapply all_bytes_impl; [|exact H]. unfold no_upper. by intros a [? _]%andb_true_iff. }
  unfold to_lower. rewrite runes_ascii by done. rewrite <-list_fmap_compose.
  rewrite (list_fmap_ext (to_lower_rune ∘ byte_val) byte_val); [by apply encode_all_bytes|].
  intros i a Hi. simpl. unfold to_lower_rune. revert H. unfold all_bytes.
  rewrite Forall_lookup. intros H. specialize (H i a Hi). unfold no_upper, ascii_byte in H.
  split_bools. rewrite H. by rewrite H0.
Qed.

Definition no_space (a : ascii) : bool := ascii_byte a && negb (is_space (byte_val a)).

Lemma trim_space_no_space s : all_bytes no_space s → trim_space s = s.
Proof.
  intros H. assert (all_bytes ascii_byte s) as Ha.
  { eapply all_bytes_impl; [|exact H]. unfold no_space. by intros a [? _]%andb_true_iff. }
  assert (Forall (λ r, is_space r = false) (runes s)) as Hr.
  { rewrite runes_ascii by done. apply Forall_fmap. eapply Forall_impl; [exact H|].
    unfold no_space. intros a. simpl. intros. split_bools. done. }
  apply trim_space_fix. unfold no_lead_space, no_trail_space. split.
  - destruct Hr; done.
  - destruct (last (runes s)) as [r|] eqn:El; [|done].
    apply last_Some in El as [l El]. rewrite El in Hr.
    apply Forall_app in Hr as [_ Hr]. by inversion Hr.
Qed.

Lemma trim_right_set_bytes p q s : all_bytes q s → all_bytes q (trim_right_set p s).
Proof.
  induction s as [|a s IH]; [done|]. rewrite all_bytes_cons. intros [Ha Hs]. simpl.
  specialize (IH Hs). destruct (trim_right_set p s).
  - destruct (p a); [apply all_bytes_nil|]. apply all_bytes_cons. split; [done|apply all_bytes_nil].
  - apply all_bytes_cons. auto.
Qed.
Lemma trim_left_set_bytes p q s : all_bytes q s → all_bytes q (trim_left_set p s).
Proof.
  induction s as [|a s IH]; [done|]. intros H. simpl. destruct (p a); [|done].
  apply IH. by apply all_bytes_cons in H as [_ ?].
Qed.
Lemma trim_set_bytes c q s : all_bytes q s → all_bytes q (trim_set c s).
Proof. intros H. by apply trim_right_set_bytes, trim_left_set_bytes. Qed.
Lemma take_bytes_bytes n q s : all_bytes q s → all_bytes q (take_bytes n s).
Proof.
  revert s. induction n as [|n IH]; intros [|a s] H; try apply all_bytes_nil.
  simpl. apply all_bytes_cons in H as [? ?]. apply all_bytes_cons. auto.
Qed.
Lemma take_bytes_length n s : (String.length (take_bytes n s) ≤ n)%nat.
Proof. revert s. induction n; intros [|a s]; simpl; [lia..|]. specialize (IHn s). lia. Qed.

Lemma trim_right_set_length p s : (String.length (trim_right_set p s) ≤ String.length s)%nat.
Proof.
  induction s as [|a s IH]; [done|]. simpl.
  destruct (trim_right_set p s); [destruct (p a); simpl; lia|]. simpl in *. lia.
Qed.
Lemma trim_left_set_length p s : (String.length (trim_left_set p s) ≤ String.length s)%nat.
Proof. induction s as [|a s IH]; [done|]. simpl. destruct (p a); simpl; lia. Qed.
Lemma trim_set_length c s : (String.length (trim_set c s) ≤ String.length s)%nat.
Proof. unfold trim_set. etrans; [apply trim_right_set_length|apply trim_left_set_length]. Qed.

(** A first byte outside the cutset survives trimming, at both ends. *)
Lemma trim_left_set_head p s a t : trim_left_set p s = String a t → p a = false.
Proof.
  induction s as [|b s IH]; [done|]. simpl. destruct (p b) eqn:E; [done|]. by intros [= <- _].
Qed.
Lemma trim_right_set_keep p a s : p a = false → ∃ t, trim_right_set p (String a s) = String a t.
Proof. intros H. simpl. destruct (trim_right_set p s); [rewrite H|]; eauto. Qed.
Lemma trim_left_set_keep p a s : p a = false → trim_left_set p (String a s) = String a s.
Proof. intros H. simpl. by rewrite H. Qed.

Lemma trim_right_set_id p s a : p a = false → trim_right_set p (s +:+ String a "") = s +:+ String a "".
Proof.
  intros H. induction s as [|b s IH]; [rewrite sapp_nil_l; simpl; by rewrite H|].
  rewrite sapp_cons. cbn [trim_right_set]. rewrite IH. by destruct s.
Qed.

Lemma dash_runs_bytes ok ld rs :
  (∀ r, ok r = true → 0 ≤ r < 128) →
  all_bytes (λ a, ok (byte_val a) || (byte_val a =? 45)) (dash_runs ok ld rs).
Proof.
  intros Hok. revert ld. induction rs as [|r rs IH]; intros ld; [apply all_bytes_nil|].
  cbn [dash_runs]. destruct (ok r) eqn:E.
  - pose proof (Hok r E). rewrite encode_ascii, sapp_cons, all_bytes_cons by done.
    rewrite byte_val_chr, E by lia. split; [done|apply IH].
  - destruct ld; [apply IH|]. rewrite all_bytes_cons. split; [|apply IH].
    rewrite byte_val_chr by lia. by rewrite orb_true_r.
Qed.

Lemma dash_runs_id ok ld rs :
  forallb ok rs = true → dash_runs ok ld rs = encode_all rs.
Proof.
  revert ld. induction rs as [|r rs IH]; intros ld; [done|]. simpl.
  intros [-> Hrs]%andb_true_iff. by rewrite IH.
Qed.
