(* ===== verification/Strconv.v ===== *)
(** * Decimal conversion: [strconv.Itoa], [strconv.Atoi], [strconv.ParseInt]

    [int] is 64 bits wide on the platforms the agent is built for, so [Atoi]
    and [ParseInt(s, 10, 64)] agree: an optional sign, then at least one
    decimal digit, and a value in the int64 range. *)
From S2P Require Import Prelude GoStrings.
From Stdlib Require Import Ascii.
From stdpp Require Import options.
Open Scope Z_scope.

Ltac Zify.zify_post_hook ::= Z.to_euclidean_division_equations.

Definition is_digit (a : ascii) : bool := (48 <=? byte_val a) && (byte_val a <=? 57).
Definition digit_chr (d : Z) : ascii := byte_chr (48 + d).

(** The value of a digit string after [acc]; [None] at any other byte. *)
Fixpoint digits_value (acc : Z) (s : string) : option Z :=
  match s with
  | EmptyString => Some acc
  | String a s' => if is_digit a then digits_value (acc * 10 + (byte_val a - 48)) s' else None
  end.

Definition parse_unsigned (s : string) : option Z :=
  match s with EmptyString => None | _ => digits_value 0 s end.

Definition in_int64 (z : Z) : bool := (min_int64 <=? z) && (z <=? max_int64).

(** [strconv.Atoi] = [strconv.ParseInt(s, 10, 64)]; [None] is the error. *)
Definition atoi (s : string) : option Z :=
  v ← match s with
      | String "+" s' => parse_unsigned s'
      | String "-" s' => Z.opp <$> parse_unsigned s'
      | _ => parse_unsigned s
      end;
  if in_int64 v then Some v else None.

Fixpoint show_digits (fuel : nat) (z : Z) (tail : string) : string :=
  match fuel with
  | O => tail
  | S fuel =>
      let tail := String (digit_chr (z mod 10)) tail in
      if z <? 10 then tail else show_digits fuel (z / 10) tail
  end.

(** [strconv.Itoa]; a number has at most as many digits as bits. *)
Definition itoa (z : Z) : string :=
  let show n := show_digits (S (Z.to_nat (Z.log2 n))) n "" in
  if z <? 0 then String "-" (show (- z)) else show z.

Example itoa_samples : (itoa 0, itoa 65535, itoa (-120)) = ("0", "65535", "-120").
Proof. reflexivity. Qed.
Example atoi_samples :
  (atoi "022", atoi "+7", atoi "-1", atoi "", atoi "1_0", atoi "9223372036854775808")
  = (Some 22, Some 7, Some (-1), None, None, None).
Proof. reflexivity. Qed.

Lemma digit_chr_digit d : 0 ≤ d < 10 → is_digit (digit_chr d) = true.
Proof. intros ?. unfold is_digit, digit_chr. rewrite byte_val_chr; lia. Qed.

Lemma digits_value_digit acc d s :
  0 ≤ d < 10 → digits_value acc (String (digit_chr d) s) = digits_value (acc * 10 + d) s.
Proof.
  intros ?. cbn [digits_value]. rewrite digit_chr_digit by done.
  unfold digit_chr. rewrite byte_val_chr by lia. f_equal. lia.
Qed.

Lemma digits_value_show fuel z tail :
  0 ≤ z < 2 ^ Z.of_nat fuel → digits_value 0 (show_digits fuel z tail) = digits_value z tail.
Proof.
  revert z tail. induction fuel as [|fuel IH]; intros z tail Hz.
  - simpl. by replace z with 0 by lia.
  - cbn [show_digits]. rewrite Nat2Z.inj_succ, Z.pow_succ_r in Hz by lia.
    destruct (z <? 10) eqn:E.
    + rewrite digits_value_digit by lia. f_equal. lia.
    + rewrite IH by lia. rewrite digits_value_digit by lia. f_equal. lia.
Qed.

Lemma show_digits_cons fuel z tail : ∃ d s, 0 ≤ d < 10 ∧ show_digits (S fuel) z tail = String (digit_chr d) s.
Proof.
  revert z tail. induction fuel as [|fuel IH]; intros z tail; cbn [show_digits].
  - exists (z mod 10), tail. split; [lia|]. by case_match.
  - destruct (z <? 10); [exists (z mod 10), tail; split; [lia|done]|]. apply IH.
Qed.

Lemma fuel_enough n : 0 ≤ n → 0 ≤ n < 2 ^ Z.of_nat (S (Z.to_nat (Z.log2 n))).
Proof.
  intros H. split; [done|]. rewrite Nat2Z.inj_succ, Z2Nat.id by apply Z.log2_nonneg.
  destruct (decide (n = 0)) as [->|]; [done|]. apply Z.log2_spec. lia.
Qed.

Definition show_pos (n : Z) : string := show_digits (S (Z.to_nat (Z.log2 n))) n "".

Lemma parse_show_pos n : 0 ≤ n → parse_unsigned (show_pos n) = Some n.
Proof.
  intros H. unfold parse_unsigned, show_pos.
  destruct (show_digits_cons (Z.to_nat (Z.log2 n)) n "") as (d & s & _ & E).
  rewrite E, <-E. by rewrite digits_value_show by by apply fuel_enough.
Qed.

Lemma show_pos_head n : ∃ d s, 0 ≤ d < 10 ∧ show_pos n = String (digit_chr d) s.
Proof. apply show_digits_cons. Qed.

Lemma digit_chr_sign d s :
  0 ≤ d < 10 →
  match String (digit_chr d) s with
  | String "+" s' => parse_unsigned s'
  | String "-" s' => Z.opp <$> parse_unsigned s'
  | _ => parse_unsigned (String (digit_chr d) s)
  end = parse_unsigned (String (digit_chr d) s).
Proof.
  intros H. assert (d = 0 ∨ d = 1 ∨ d = 2 ∨ d = 3 ∨ d = 4 ∨ d = 5 ∨ d = 6 ∨ d = 7 ∨ d = 8 ∨ d = 9)
    as Hd by lia.
  by destruct Hd as [->|[->|[->|[->|[->|[->|[->|[->|[->| ->]]]]]]]]].
Qed.

(** Printing then parsing an int is the identity. *)
Lemma atoi_itoa z : min_int64 ≤ z ≤ max_int64 → atoi (itoa z) = Some z.
Proof.
  intros Hz. unfold itoa, atoi. fold (show_pos z). fold (show_pos (- z)).
  assert (in_int64 z = true) as Hin by (unfold in_int64; lia).
  destruct (z <? 0) eqn:E.
  - rewrite parse_show_pos by lia. simpl. by rewrite Z.opp_involutive, Hin.
  - destruct (show_pos_head z) as (d & s & Hd & Es). rewrite Es.
    rewrite digit_chr_sign, <-Es, parse_show_pos by lia. simpl. by rewrite Hin.
Qed.

Lemma atoi_range s z : atoi s = Some z → min_int64 ≤ z ≤ max_int64.
Proof.
  unfold atoi. intros (v & _ & H)%bind_Some. unfold in_int64 in H.
  case_match; [|done]. simplify_eq. lia.
Qed.

(** The bytes of a printed number. *)
Lemma show_digits_bytes fuel z tail c :
  c ∈ bytes (show_digits fuel z tail) → is_digit c = true ∨ c ∈ bytes tail.
Proof.
  revert z tail. induction fuel as [|fuel IH]; intros z tail; [by right|].
  cbn [show_digits]. assert (is_digit (digit_chr (z mod 10)) = true) by (apply digit_chr_digit; lia).
  assert (∀ d, is_digit d = true → c ∈ bytes (String d tail) → is_digit c = true ∨ c ∈ bytes tail)
    as Hcons.
  { unfold bytes. simpl. intros d Hd. rewrite elem_of_cons. intros [->|?]; auto. }
  destruct (z <? 10); [by apply Hcons|]. intros [?|Hc]%IH; [by left|]. by eapply Hcons.
Qed.

Lemma itoa_bytes z c : c ∈ bytes (itoa z) → is_digit c = true ∨ c = "-"%char.
Proof.
  unfold itoa. destruct (z <? 0).
  - unfold bytes. simpl. rewrite elem_of_cons. intros [->|H]; [by right|].
    apply (show_digits_bytes (S _)) in H as [?|Hn]; [by left|by apply elem_of_nil in Hn].
  - intros [?|H]%show_digits_bytes; [by left|by apply elem_of_nil in H].
Qed.

Lemma itoa_inj a b : min_int64 ≤ a ≤ max_int64 → min_int64 ≤ b ≤ max_int64 → itoa a = itoa b → a = b.
Proof. intros Ha Hb E. pose proof (atoi_itoa a Ha). rewrite E, atoi_itoa in *; congruence. Qed.

Lemma itoa_nonempty z : itoa z ≠ "".
Proof.
  unfold itoa. destruct (z <? 0); [done|].
  destruct (show_pos_head z) as (d & s & _ & E). unfold show_pos in E. by rewrite E.
Qed.
