(* ===== verification/GoValue.v ===== *)
(** * Dynamic values: Go's [any] as the program's payloads carry it

    Job payloads, agent messages and policies are [map[string]any].  [any]
    below has one constructor per dynamic type the code's type switches tell
    apart; every other type is [AOther], which all of them reject.  A nil
    map, slice or pointer inside an interface does not occur in the payloads
    (they come from [encoding/json] or from literals), so [AMap], [ASlice]
    and the rest stand for non-nil values and [ANil] for the nil interface. *)
From S2P Require Import Prelude GoStrings Strconv.
From Stdlib Require Export SpecFloat.
From stdpp Require Import options.
Open Scope Z_scope.

Inductive any : Type :=
| ANil
| ABool (b : bool)
| AInt (z : Z)
| AInt32 (z : Z)
| AInt64 (z : Z)
| AFloat64 (f : spec_float)
| AString (s : string)
(** a value whose dynamic type is not [string] and implements [fmt.Stringer] *)
| AStringer (s : string)
| AStrings (l : list string)
| AInts (l : list Z)
| ASlice (l : list any)
| AMap (m : gmap string any)
(** [map[string]map[string]any] and [[]map[string]any] *)
| AMapOfMaps (m : gmap string (gmap string any))
| AMaps (l : list (gmap string any))
(** any other dynamic type, with its [fmt.Sprint] text *)
| AOther (sprint : string).

Notation gomap := (gmap string any).

(** ** float64 *)

(** The magnitude of [m * 2^e], truncated toward zero. *)
Definition trunc_mag (m : positive) (e : Z) : Z :=
  if 0 <=? e then Z.pos m * 2 ^ e else Z.pos m / 2 ^ (- e).

(** Whether [m * 2^e] is a whole number. *)
Definition whole_mag (m : positive) (e : Z) : bool :=
  if 0 <=? e then true else Z.pos m mod 2 ^ (- e) =? 0.

(** [int(f)].  Outside the int64 range the result is implementation-defined;
    this is the value of the amd64 conversion instruction, and likewise for
    NaN and the infinities. *)
Definition int_of_float (f : spec_float) : Z :=
  match f with
  | S754_zero _ => 0
  | S754_finite s m e =>
      let z := if s then - trunc_mag m e else trunc_mag m e in
      if in_int64 z then z else min_int64
  | S754_infinity _ | S754_nan => min_int64
  end.

(** [f == z] for a whole constant [z]. *)
Definition float_is (f : spec_float) (z : Z) : bool :=
  match f with
  | S754_zero _ => z =? 0
  | S754_finite s m e =>
      whole_mag m e && ((if s then - trunc_mag m e else trunc_mag m e) =? z)
  | _ => false
  end.

(** The float64 of a small whole number, for examples. *)
Definition float_of_pos (p : positive) : spec_float := S754_finite false p 0.

Lemma int_of_float_range f : min_int64 ≤ int_of_float f ≤ max_int64.
Proof.
  unfold int_of_float. repeat case_match;
    unfold in_int64, min_int64, max_int64 in *; try lia; split_bools; lia.
Qed.

Lemma int_of_float_is f z :
  min_int64 ≤ z ≤ max_int64 → float_is f z = true → int_of_float f = z.
Proof.
  unfold float_is, int_of_float. intros Hz H. destruct f as [s| | |s m e]; try done; [lia|].
  apply andb_true_iff in H as [_ ->%Z.eqb_eq].
  replace (in_int64 z) with true; [done|]. unfold in_int64. lia.
Qed.

(** ** Maps *)

(** [delete(m, k)] and [m[k] = v] are stdpp's [delete] and [<[k:=v]>];
    writing back the value a key already has changes nothing. *)
Lemma put_same (m : gomap) k v : m !! k = Some v → <[k:=v]> m = m.
Proof. apply insert_id. Qed.
