(* ===== verification/Sha256.v ===== *)
(** * SHA-256, HMAC-SHA256 and hexadecimal text

    [crypto/sha256], [crypto/hmac] and [encoding/hex] as the program uses
    them: unit-name hashes, the firewall script hash and the signatures of
    agent requests.  Words are 32-bit values in [Z], additions wrap. *)
From S2P Require Import Prelude GoStrings.
From Stdlib Require Import Ascii.
From stdpp Require Import options.
Open Scope Z_scope.

Definition round_constants : list Z :=
  [ 1116352408; 1899447441; 3049323471; 3921009573; 961987163; 1508970993
  ; 2453635748; 2870763221; 3624381080; 310598401; 607225278; 1426881987
  ; 1925078388; 2162078206; 2614888103; 3248222580; 3835390401; 4022224774
  ; 264347078; 604807628; 770255983; 1249150122; 1555081692; 1996064986
  ; 2554220882; 2821834349; 2952996808; 3210313671; 3336571891; 3584528711
  ; 113926993; 338241895; 666307205; 773529912; 1294757372; 1396182291
  ; 1695183700; 1986661051; 2177026350; 2456956037; 2730485921; 2820302411
  ; 3259730800; 3345764771; 3516065817; 3600352804; 4094571909; 275423344
  ; 430227734; 506948616; 659060556; 883997877; 958139571; 1322822218
  ; 1537002063; 1747873779; 1955562222; 2024104815; 2227730452; 2361852424
  ; 2428436474; 2756734187; 3204031479; 3329325298 ].

Definition initial_state : list Z :=
  [ 1779033703; 3144134277; 1013904242; 2773480762; 1359893119; 2600822924; 528734635; 1541459225 ].

Definition rotr (n x : Z) : Z := Z.lor (Z.shiftr x n) (u32 (Z.shiftl x (32 - n))).
Definition xor3 (a b c : Z) : Z := Z.lxor a (Z.lxor b c).
Definition big_sigma0 (x : Z) : Z := xor3 (rotr 2 x) (rotr 13 x) (rotr 22 x).
Definition big_sigma1 (x : Z) : Z := xor3 (rotr 6 x) (rotr 11 x) (rotr 25 x).
Definition small_sigma0 (x : Z) : Z := xor3 (rotr 7 x) (rotr 18 x) (Z.shiftr x 3).
Definition small_sigma1 (x : Z) : Z := xor3 (rotr 17 x) (rotr 19 x) (Z.shiftr x 10).
Definition choose (e f g : Z) : Z := Z.lxor (Z.land e f) (Z.land (two32 - 1 - e) g).
Definition majority (a b c : Z) : Z := xor3 (Z.land a b) (Z.land a c) (Z.land b c).

(** One round: the state [a..h], and the window of the next sixteen schedule words. *)
Definition sha_round (st : list Z * list Z) (k : Z) : list Z * list Z :=
  match st with
  | ([a; b; c; d; e; f; g; h], w :: ws) =>
      let t1 := u32 (h + big_sigma1 e + choose e f g + k + w) in
      let t2 := u32 (big_sigma0 a + majority a b c) in
      let nth_w i := nth i (w :: ws) 0 in
      let w' := u32 (small_sigma1 (nth_w 14%nat) + nth_w 9%nat
                     + small_sigma0 (nth_w 1%nat) + nth_w 0%nat) in
      ([u32 (t1 + t2); a; b; c; u32 (d + t1); e; f; g], ws ++ [w'])
  | st => st
  end.

Definition compress (h : list Z) (block : list Z) : list Z :=
  let (h', _) := foldl sha_round (h, block) round_constants in
  zip_with (λ x y, u32 (x + y)) h h'.

(** Big-endian words of a byte list whose length is a multiple of four. *)
Fixpoint words (bs : list Z) : list Z :=
  match bs with
  | a :: b :: c :: d :: bs => (((a * 256 + b) * 256 + c) * 256 + d) :: words bs
  | _ => []
  end.

Fixpoint be_bytes (n : nat) (z : Z) : list Z :=
  match n with O => [] | S n => be_bytes n (z / 256) ++ [z mod 256] end.

Definition pad (bs : list Z) : list Z :=
  let len := Z.of_nat (length bs) in
  bs ++ [128] ++ replicate (Z.to_nat ((55 - len) mod 64)) 0 ++ be_bytes 8 (len * 8).

Fixpoint fold_blocks (fuel : nat) (h : list Z) (ws : list Z) : list Z :=
  match fuel, ws with
  | S fuel, _ :: _ => fold_blocks fuel (compress h (take 16 ws)) (drop 16 ws)
  | _, _ => h
  end.

(** [sha256.Sum256]: 32 bytes. *)
Definition sha256_bytes (bs : list Z) : list Z :=
  let ws := words (pad bs) in
  fold_blocks (length ws) initial_state ws ≫= be_bytes 4.

Definition to_bytes (s : string) : list Z := byte_val <$> bytes s.

(** [hmac.New(sha256.New, key)] over one message. *)
Definition hmac_bytes (key msg : list Z) : list Z :=
  let key := if decide (length key ≤ 64)%nat then key else sha256_bytes key in
  let key := key ++ replicate (64 - length key) 0 in
  sha256_bytes ((Z.lxor 92 <$> key) ++ sha256_bytes ((Z.lxor 54 <$> key) ++ msg)).

(** [hex.EncodeToString]. *)
Definition hex_digit (d : Z) : ascii := byte_chr (if d <? 10 then 48 + d else 87 + d).
Definition hex_encode (bs : list Z) : string :=
  foldr (λ b s, String (hex_digit (b / 16)) (String (hex_digit (b mod 16)) s)) "" bs.

Definition sha256_hex (s : string) : string := hex_encode (sha256_bytes (to_bytes s)).
Definition hmac_sha256_hex (key msg : string) : string :=
  hex_encode (hmac_bytes (to_bytes key) (to_bytes msg)).

(** The FIPS 180-4 and RFC 4231 test vectors. *)
Example sha256_abc :
  sha256_hex "abc" = "ba7816bf8f01cfea414140de5dae2223b00361a396177a9cb410ff61f20015ad".
Proof. vm_compute. reflexivity. Qed.
Example sha256_two_blocks :
  sha256_hex "abcdbcdecdefdefgefghfghighijhijkijkljklmklmnlmnomnopnopq"
  = "248d6a61d20638b8e5c026930c3e6039a33ce45964ff2167f6ecedd419db06c1".
Proof. vm_compute. reflexivity. Qed.
Example hmac_jefe :
  hmac_sha256_hex "Jefe" "what do ya want for nothing?"
  = "5bdcc146bf60754e6a042426089575c75a003f089d2739839dec58b964ec3843".
Proof. vm_compute. reflexivity. Qed.

(** ** Shape of the digests *)

Lemma length_be_bytes n z : length (be_bytes n z) = n.
Proof. revert z. induction n; intros z; simpl; [done|]. rewrite length_app, IHn. simpl. lia. Qed.

Lemma length_sha_round st k : length (st.1) = 8%nat → length ((sha_round st k).1) = 8%nat.
Proof.
  destruct st as [l ws]. simpl. intros H.
  do 8 (destruct l as [|? l]; [done|]). destruct l; [|done]. destruct ws; [done|reflexivity].
Qed.

Lemma length_compress h b : length h = 8%nat → length (compress h b) = 8%nat.
Proof.
  intros H. unfold compress.
  assert (∀ ks st, length (st.1) = 8%nat → length ((foldl sha_round st ks).1) = 8%nat) as Hf.
  { induction ks as [|k ks IH]; intros st Hst; [done|]. simpl. by apply IH, length_sha_round. }
  specialize (Hf round_constants (h, b) H).
  destruct (foldl _ _ _) as [h' ws]. simpl in Hf. rewrite length_zip_with. lia.
Qed.

Lemma length_fold_blocks n h ws : length h = 8%nat → length (fold_blocks n h ws) = 8%nat.
Proof.
  revert h ws. induction n as [|n IH]; intros h ws H; [done|]. simpl.
  destruct ws; [done|]. by apply IH, length_compress.
Qed.

Lemma length_be_bytes_bind n l : length (l ≫= be_bytes n) = (n * length l)%nat.
Proof.
  induction l as [|z l IH]; [simpl; lia|]. rewrite bind_cons, length_app, length_be_bytes, IH.
  simpl. lia.
Qed.

Lemma length_sha256_bytes bs : length (sha256_bytes bs) = 32%nat.
Proof. unfold sha256_bytes. rewrite length_be_bytes_bind, length_fold_blocks; done. Qed.

Lemma be_bytes_range n z : Forall (λ b, 0 ≤ b < 256) (be_bytes n z).
Proof.
  revert z. induction n as [|n IH]; intros z; [constructor|]. simpl.
  apply Forall_app. split; [done|]. constructor; [|done].
  by apply Z.mod_pos_bound.
Qed.

Lemma sha256_bytes_range bs : Forall (λ b, 0 ≤ b < 256) (sha256_bytes bs).
Proof.
  unfold sha256_bytes. generalize (fold_blocks (length (words (pad bs))) initial_state (words (pad bs))).
  intros l. induction l; [constructor|]. rewrite bind_cons, Forall_app.
  split; [apply be_bytes_range|done].
Qed.

Definition is_hex (a : ascii) : bool :=
  ((48 <=? byte_val a) && (byte_val a <=? 57)) || ((97 <=? byte_val a) && (byte_val a <=? 102)).

Lemma hex_digit_hex d : 0 ≤ d < 16 → is_hex (hex_digit d) = true.
Proof.
  intros H. unfold is_hex, hex_digit. destruct (d <? 10) eqn:E; rewrite byte_val_chr; lia.
Qed.

Lemma hex_encode_hex bs :
  Forall (λ b, 0 ≤ b < 256) bs → Forall (λ a, is_hex a = true) (bytes (hex_encode bs)).
Proof.
  induction 1 as [|b bs Hb _ IH]; [constructor|].
  pose proof (Z.div_pos b 16). pose proof (Z.div_lt_upper_bound b 16 16).
  pose proof (Z.mod_pos_bound b 16).
  do 2 (constructor; [apply hex_digit_hex; lia|]). done.
Qed.

Lemma length_hex_encode bs : String.length (hex_encode bs) = (2 * length bs)%nat.
Proof. induction bs as [|b bs IH]; [done|]. simpl. rewrite IH. lia. Qed.

Lemma sha256_hex_hex s : Forall (λ a, is_hex a = true) (bytes (sha256_hex s)).
Proof. apply hex_encode_hex, sha256_bytes_range. Qed.
Lemma length_sha256_hex s : String.length (sha256_hex s) = 64%nat.
Proof. unfold sha256_hex. by rewrite length_hex_encode, length_sha256_bytes. Qed.
Lemma length_hmac_hex k s : String.length (hmac_sha256_hex k s) = 64%nat.
Proof. unfold hmac_sha256_hex, hmac_bytes. by rewrite length_hex_encode, length_sha256_bytes. Qed.
Lemma hmac_hex_hex k s : Forall (λ a, is_hex a = true) (bytes (hmac_sha256_hex k s)).
Proof. apply hex_encode_hex, sha256_bytes_range. Qed.
