(* ===== verification/Netip.v ===== *)
(** * IP addresses and prefixes: [net/netip]

    [Addr] and [Prefix] with the parsing, printing, masking and comparison
    the program uses.  An IPv4 address is a 32-bit value, an IPv6 address a
    128-bit value and a zone (empty for none); the zone of a parsed address
    is an arbitrary non-empty string, as in Go. *)
From S2P Require Import Prelude GoStrings Strconv.
From Stdlib Require Import Ascii.
From stdpp Require Import options.
Open Scope Z_scope.

Ltac Zify.zify_post_hook ::= Z.to_euclidean_division_equations.

Inductive addr : Type :=
| V4 (n : Z)
| V6 (n : Z) (zone : string).

Definition Is4 (a : addr) : bool := match a with V4 _ => true | V6 _ _ => false end.
Definition Is6 (a : addr) : bool := match a with V4 _ => false | V6 _ _ => true end.
Definition zone_of (a : addr) : string := match a with V4 _ => "" | V6 _ z => z end.

Record prefix := Prefix { prefix_addr : addr; prefix_bits : Z }.

(** ** Parsing *)

(** [parseIPv4Fields]; [prev_dot] also stands for the start of the text. *)
Fixpoint parse_ipv4_fields (s : string) (prev_dot : bool) (val digs : Z) (fields : list Z)
  : option (list Z) :=
  match s with
  | EmptyString => if (length fields <? 3)%nat then None else Some (fields ++ [val])
  | String c s' =>
      if is_digit c then
        if (digs =? 1) && (val =? 0) then None
        else
          let val := val * 10 + (byte_val c - 48) in
          if 255 <? val then None else parse_ipv4_fields s' false val (digs + 1) fields
      else if Ascii.eqb c "." then
        if prev_dot || (match s' with EmptyString => true | _ => false end) then None
        else if (length fields =? 3)%nat then None
        else parse_ipv4_fields s' true 0 0 (fields ++ [val])
      else None
  end.

Definition octets_value (l : list Z) : Z := foldl (λ acc o, acc * 256 + o) 0 l.

Definition parse_ipv4 (s : string) : option addr :=
  V4 ∘ octets_value <$> parse_ipv4_fields s true 0 0 [].

Definition hex_value (c : ascii) : option Z :=
  let b := byte_val c in
  if (48 <=? b) && (b <=? 57) then Some (b - 48)
  else if (97 <=? b) && (b <=? 102) then Some (b - 87)
  else if (65 <=? b) && (b <=? 70) then Some (b - 55)
  else None.

(** The hex digits of one group: value, digit count and rest; a fifth digit fails. *)
Fixpoint hex_group (s : string) (acc off : Z) : option (Z * Z * string) :=
  match s with
  | EmptyString => Some (acc, off, s)
  | String c s' =>
      match hex_value c with
      | None => Some (acc, off, s)
      | Some v => if 3 <? off then None else hex_group s' (acc * 16 + v) (off + 1)
      end
  end.

(** The group loop of [parseIPv6]; [n] is the number of groups still free,
    [ell] the group index of the [::], if one was seen. *)
Fixpoint ipv6_groups (n : nat) (gs : list Z) (ell : option nat) (s : string)
  : option (list Z * option nat * string) :=
  match n with
  | O => Some (gs, ell, s)
  | S n =>
      match hex_group s 0 0 with
      | None => None
      | Some (acc, off, rest) =>
          if off =? 0 then None
          else match rest with
          | EmptyString => Some (gs ++ [acc], ell, EmptyString)
          | String c rest =>
              if Ascii.eqb c "." then
                if (match ell with None => true | _ => false end) && negb (length gs =? 6)%nat
                then None
                else if (8 <? length gs + 2)%nat then None
                else match parse_ipv4_fields s true 0 0 [] with
                     | Some [a; b; c; d] => Some (gs ++ [a * 256 + b; c * 256 + d], ell, EmptyString)
                     | _ => None
                     end
              else if Ascii.eqb c ":" then
                match rest with
                | EmptyString => None
                | String c2 rest2 =>
                    if Ascii.eqb c2 ":" then
                      match ell with
                      | Some _ => None
                      | None =>
                          let ell := Some (S (length gs)) in
                          match rest2 with
                          | EmptyString => Some (gs ++ [acc], ell, EmptyString)
                          | _ => ipv6_groups n (gs ++ [acc]) ell rest2
                          end
                      end
                    else ipv6_groups n (gs ++ [acc]) ell rest
                end
              else None
          end
      end
  end.

Definition groups_value (l : list Z) : Z := foldl (λ acc g, acc * 65536 + g) 0 l.

Definition finish_ipv6 (r : list Z * option nat * string) : option Z :=
  match r with
  | (gs, ell, EmptyString) =>
      if (length gs <? 8)%nat then
        match ell with
        | None => None
        | Some e => Some (groups_value (take e gs ++ replicate (8 - length gs) 0 ++ drop e gs))
        end
      else match ell with Some _ => None | None => Some (groups_value gs) end
  | _ => None
  end.

Definition parse_ipv6 (s : string) : option addr :=
  let '(s, zone, ok) :=
    match cut_char "%" s with
    | Some (s', z) => (s', z, negb (z =s ""))
    | None => (s, "", true)
    end in
  if ok then
    match strip_prefix "::" s with
    | Some EmptyString => Some (V6 0 zone)
    | Some rest => n ← ipv6_groups 8 [] (Some 0%nat) rest ≫= finish_ipv6; Some (V6 n zone)
    | None => n ← ipv6_groups 8 [] None s ≫= finish_ipv6; Some (V6 n zone)
    end
  else None.

(** [netip.ParseAddr]: the first dot, colon or percent sign decides. *)
Fixpoint addr_kind (s : string) : option ascii :=
  match s with
  | EmptyString => None
  | String c s' =>
      if existsb (Ascii.eqb c) ["."; ":"; "%"]%char then Some c else addr_kind s'
  end.

Definition ParseAddr (s : string) : option addr :=
  match addr_kind s with
  | Some "."%char => parse_ipv4 s
  | Some ":"%char => parse_ipv6 s
  | _ => None
  end.

(** [netip.ParsePrefix]. *)
Definition ParsePrefix (s : string) : option prefix :=
  match cut_last "/" s with
  | None => None
  | Some (addr_str, bits_str) =>
      ip ← ParseAddr addr_str;
      if negb (zone_of ip =s "") then None
      else
        let bad := match bits_str with
                   | String a (String _ _) => negb ((49 <=? byte_val a) && (byte_val a <=? 57))
                   | _ => false
                   end in
        if bad then None
        else
          bits ← atoi bits_str;
          let max_bits := if Is6 ip then 128 else 32 in
          if (bits <? 0) || (max_bits <? bits) then None else Some (Prefix ip bits)
  end.

(** ** Printing *)

Definition show_ipv4 (n : Z) : string :=
  itoa (n / 16777216) +:+ "." +:+ itoa ((n / 65536) mod 256) +:+ "."
  +:+ itoa ((n / 256) mod 256) +:+ "." +:+ itoa (n mod 256).

Definition hex_chr (d : Z) : ascii := byte_chr (if d <? 10 then 48 + d else 87 + d).
Definition show_hex (g : Z) : string :=
  if g <? 16 then String (hex_chr g) ""
  else if g <? 256 then String (hex_chr (g / 16)) (String (hex_chr (g mod 16)) "")
  else if g <? 4096 then
    String (hex_chr (g / 256)) (String (hex_chr ((g / 16) mod 16)) (String (hex_chr (g mod 16)) ""))
  else String (hex_chr (g / 4096)) (String (hex_chr ((g / 256) mod 16))
         (String (hex_chr ((g / 16) mod 16)) (String (hex_chr (g mod 16)) ""))).

Definition groups_of (n : Z) : list Z :=
  (λ k, (n / 2 ^ (16 * k)) mod 65536) <$> [7; 6; 5; 4; 3; 2; 1; 0].

Fixpoint zero_run (l : list Z) : nat :=
  match l with g :: l => if g =? 0 then S (zero_run l) else 0%nat | [] => 0%nat end.

(** The first longest run of at least two zero groups: start and length. *)
Fixpoint longest_zero_run (i : nat) (l : list Z) : option (nat * nat) :=
  match l with
  | [] => None
  | _ :: l' =>
      let here := zero_run l in
      match longest_zero_run (S i) l' with
      | Some (j, len) => if (len <=? here)%nat then Some (i, here) else Some (j, len)
      | None => if (2 <=? here)%nat then Some (i, here) else None
      end
  end.

Definition show_groups (l : list Z) : string := join ":" (show_hex <$> l).

Definition show_ipv6 (n : Z) : string :=
  let l := groups_of n in
  match longest_zero_run 0 l with
  | Some (i, len) => show_groups (take i l) +:+ "::" +:+ show_groups (drop (i + len) l)
  | None => show_groups l
  end.

Definition is_4in6 (n : Z) : bool := n / 4294967296 =? 65535.

(** [Addr.String]. *)
Definition addr_string (a : addr) : string :=
  match a with
  | V4 n => show_ipv4 n
  | V6 n zone =>
      (if is_4in6 n then "::ffff:" +:+ show_ipv4 (n mod 4294967296) else show_ipv6 n)
      +:+ (if zone =s "" then "" else "%" +:+ zone)
  end.

(** [Prefix.String]. *)
Definition prefix_string (p : prefix) : string :=
  addr_string (prefix_addr p) +:+ "/" +:+ itoa (prefix_bits p).

(** ** Masking and comparison *)

Definition addr_width (a : addr) : Z := match a with V4 _ => 32 | V6 _ _ => 128 end.
Definition addr_value (a : addr) : Z := match a with V4 n | V6 n _ => n end.

Definition mask_value (width bits n : Z) : Z :=
  let block := 2 ^ (width - bits) in n - n mod block.

(** [Prefix.Masked]; the zone goes away. *)
Definition Masked (p : prefix) : prefix :=
  match prefix_addr p with
  | V4 n => Prefix (V4 (mask_value 32 (prefix_bits p) n)) (prefix_bits p)
  | V6 n _ => Prefix (V6 (mask_value 128 (prefix_bits p) n) "") (prefix_bits p)
  end.

(** [Prefix.Contains]. *)
Definition Contains (p : prefix) (a : addr) : bool :=
  (addr_width (prefix_addr p) =? addr_width a)
  && (zone_of a =s "")
  && (mask_value (addr_width a) (prefix_bits p) (addr_value (prefix_addr p))
      =? mask_value (addr_width a) (prefix_bits p) (addr_value a)).

(** [Addr.Compare]. *)
Definition addr_compare (a b : addr) : comparison :=
  match addr_width a ?= addr_width b with
  | Eq =>
      match addr_value a ?= addr_value b with
      | Eq => String.compare (zone_of a) (zone_of b)
      | c => c
      end
  | c => c
  end.

(** [netip.AddrFrom4], and the range that [As4] and [As16] give. *)
Definition addr_ok (a : addr) : Prop :=
  match a with V4 n => 0 ≤ n < two32 | V6 n _ => 0 ≤ n < 2 ^ 128 end.

Example parse_samples :
  (ParseAddr "10.0.0.1", ParseAddr "10.0.0.01", ParseAddr "::", ParseAddr "2001:db8::1",
   ParseAddr "fe80::1%eth0", ParseAddr "::ffff:192.0.2.1", ParseAddr "1::2::3", ParseAddr "1:2:3:4:5:6:7::")
  = (Some (V4 167772161), None, Some (V6 0 ""), Some (V6 42540766411282592856903984951653826561 ""),
     Some (V6 338288524927261089654018896841347694593 "eth0"),
     Some (V6 281473902969345 ""), None, Some (V6 5192455318486707404433266433261568 "")).
Proof. vm_compute. reflexivity. Qed.

(** ** Printing then parsing is the identity *)

(** *** IPv4 *)

(** The effect of a run of digits on the value and digit count. *)
Fixpoint octet_run (s : string) (val digs : Z) : option (Z * Z) :=
  match s with
  | EmptyString => Some (val, digs)
  | String c s' =>
      if is_digit c then
        if (digs =? 1) && (val =? 0) then None
        else
          let val := val * 10 + (byte_val c - 48) in
          if 255 <? val then None else octet_run s' val (digs + 1)
      else None
  end.

Lemma parse_octet_run w rest pd val digs fs v d :
  octet_run w val digs = Some (v, d) → w ≠ "" →
  parse_ipv4_fields (w +:+ rest) pd val digs fs = parse_ipv4_fields rest false v d fs.
Proof.
  revert pd val digs. induction w as [|c w IH]; intros pd val digs H Hne; [done|].
  rewrite sapp_cons. cbn [parse_ipv4_fields octet_run] in *.
  destruct (is_digit c); [|done]. destruct (_ && _)%bool; [done|].
  destruct (255 <? _); [done|]. destruct w as [|c' w].
  - cbn in H. by simplify_eq.
  - by apply IH.
Qed.

Lemma octet_run_itoa o : 0 ≤ o < 256 → ∃ d, octet_run (itoa o) 0 0 = Some (o, d).
Proof.
  intros Ho.
  assert (all_below 256 (λ o, match octet_run (itoa o) 0 0 with
    Some (v, _) => v =? o | None => false end) = true) as Hall by (vm_compute; reflexivity).
  pose proof (all_below_spec 256 _ o Hall Ho) as H. simpl in H.
  destruct (octet_run _ _ _) as [[v d]|]; [|done]. apply Z.eqb_eq in H as ->. eauto.
Qed.

Lemma parse_ipv4_dot o s fs :
  0 ≤ o < 256 → s ≠ "" → (length fs < 3)%nat →
  parse_ipv4_fields (itoa o +:+ String "." s) true 0 0 fs = parse_ipv4_fields s true 0 0 (fs ++ [o]).
Proof.
  intros Ho Hs Hf. destruct (octet_run_itoa o Ho) as [d Hd].
  rewrite (parse_octet_run _ _ _ _ _ _ _ _ Hd) by apply itoa_nonempty.
  cbn [parse_ipv4_fields]. change (is_digit ".") with false. cbv iota.
  change (Ascii.eqb "." ".") with true. cbv iota. destruct s; [done|]. simpl.
  destruct (Nat.eqb_spec (length fs) 3); [lia|done].
Qed.

Lemma parse_ipv4_last o fs :
  0 ≤ o < 256 → length fs = 3%nat → parse_ipv4_fields (itoa o) true 0 0 fs = Some (fs ++ [o]).
Proof.
  intros Ho Hf. destruct (octet_run_itoa o Ho) as [d Hd].
  rewrite <-(sapp_nil_r (itoa o)).
  rewrite (parse_octet_run _ _ _ _ _ _ _ _ Hd) by apply itoa_nonempty.
  simpl. by rewrite Hf.
Qed.

Lemma dot_app (s t : string) : s +:+ "." +:+ t = s +:+ String "." t.
Proof. done. Qed.

Lemma sapp_eq_nil (s t : string) : s +:+ t = "" → s = "" ∧ t = "".
Proof. destruct s; [done|]. by rewrite sapp_cons. Qed.

Lemma octet_range n k : 0 ≤ (n / k) mod 256 < 256.
Proof. by apply Z.mod_pos_bound. Qed.

Lemma parse_show_ipv4_fields n :
  0 ≤ n < two32 →
  parse_ipv4_fields (show_ipv4 n) true 0 0 []
  = Some [n / 16777216; (n / 65536) mod 256; (n / 256) mod 256; n mod 256].
Proof.
  unfold two32. intros Hn. unfold show_ipv4. rewrite !dot_app.
  assert (∀ o s, itoa o +:+ s ≠ "") as Hne.
  { intros o s [H _]%sapp_eq_nil. by apply itoa_nonempty in H. }
  rewrite parse_ipv4_dot; [|lia|apply Hne|simpl; lia].
  rewrite parse_ipv4_dot; [|apply octet_range|apply Hne|simpl; lia].
  rewrite parse_ipv4_dot; [|apply octet_range|apply itoa_nonempty|simpl; lia].
  by rewrite parse_ipv4_last by (done || by apply Z.mod_pos_bound).
Qed.

Lemma parse_show_ipv4 n : 0 ≤ n < two32 → parse_ipv4 (show_ipv4 n) = Some (V4 n).
Proof.
  intros Hn. unfold parse_ipv4. rewrite parse_show_ipv4_fields by done. simpl. do 2 f_equal.
  unfold two32 in Hn. unfold octets_value. simpl. lia.
Qed.

(** *** IPv6 *)

Definition is_hex_any (c : ascii) : bool := match hex_value c with Some _ => true | None => false end.

Lemma hex_group_app w rest acc off a o :
  hex_group w acc off = Some (a, o, "") →
  (match rest with String c _ => is_hex_any c = false | EmptyString => True end) →
  hex_group (w +:+ rest) acc off = Some (a, o, rest).
Proof.
  intros H Hr. revert acc off H. induction w as [|c w IH]; intros acc off H.
  - rewrite sapp_nil_l. simpl in H. simplify_eq. destruct rest as [|c rest]; [done|].
    simpl. unfold is_hex_any in Hr. by destruct (hex_value c).
  - rewrite sapp_cons. cbn [hex_group] in *. destruct (hex_value c); [|done].
    destruct (3 <? off); [done|]. by apply IH.
Qed.

Definition hex_group_back (g : Z) : bool :=
  match hex_group (show_hex g) 0 0 with
  | Some (a, o, EmptyString) => (a =? g) && (1 <=? o)
  | _ => false
  end.

Lemma hex_group_show_digits h l : 0 ≤ h < 256 → 0 ≤ l < 256 → hex_group_back (h * 256 + l) = true.
Proof.
  intros Hh Hl.
  assert (all_below 256 (λ h, all_below 256 (λ l, hex_group_back (h * 256 + l))) = true) as Hall
    by (vm_compute; reflexivity).
  exact (all_below_spec 256 (λ l, hex_group_back (h * 256 + l)) l
    (all_below_spec 256 _ h Hall Hh) Hl).
Qed.

Lemma hex_group_show g : 0 ≤ g < 65536 → ∃ o, 1 ≤ o ∧ hex_group (show_hex g) 0 0 = Some (g, o, "").
Proof.
  intros Hg.
  pose proof (hex_group_show_digits (g / 256) (g mod 256) ltac:(lia) ltac:(lia)) as H.
  replace (g / 256 * 256 + g mod 256) with g in H by lia. unfold hex_group_back in H.
  destruct (hex_group _ _ _) as [[[a o] [|]]|]; try done.
  apply andb_true_iff in H as [->%Z.eqb_eq ?]. exists o. split; [lia|done].
Qed.

Definition group_ok (g : Z) : Prop := 0 ≤ g < 65536.

Lemma show_hex_head g : group_ok g → ∃ c s, show_hex g = String c s ∧ is_hex_any c = true.
Proof.
  intros Hg. destruct (hex_group_show g Hg) as (o & Ho & H).
  destruct (show_hex g) as [|c s]; [simpl in H; simplify_eq; lia|].
  exists c, s. split; [done|]. unfold is_hex_any. cbn [hex_group] in H.
  destruct (hex_value c); [done|]. simplify_eq.
Qed.

Lemma hex_not_colon c : is_hex_any c = true → Ascii.eqb c ":" = false ∧ Ascii.eqb c "." = false.
Proof. intros H. split; apply Ascii.eqb_neq; intros ->; vm_compute in H; done. Qed.

(** One group followed by a colon and a further group. *)
Lemma ipv6_groups_colon n gs ell g c s :
  group_ok g → is_hex_any c = true →
  ipv6_groups (S n) gs ell (show_hex g +:+ String ":" (String c s))
  = ipv6_groups n (gs ++ [g]) ell (String c s).
Proof.
  intros Hg Hc. destruct (hex_group_show g Hg) as (o & Ho & H).
  cbn [ipv6_groups]. rewrite (hex_group_app _ _ _ _ _ _ H) by done.
  replace (o =? 0) with false by lia. change (Ascii.eqb ":" ".") with false.
  change (Ascii.eqb ":" ":") with true. cbv iota.
  apply hex_not_colon in Hc as [-> _]. done.
Qed.

Lemma ipv6_groups_last n gs ell g :
  group_ok g → ipv6_groups (S n) gs ell (show_hex g) = Some (gs ++ [g], ell, "").
Proof.
  intros Hg. destruct (hex_group_show g Hg) as (o & Ho & H).
  cbn [ipv6_groups]. rewrite H. by replace (o =? 0) with false by lia.
Qed.

Lemma show_groups_cons g g' l : show_groups (g :: g' :: l) = show_hex g +:+ String ":" (show_groups (g' :: l)).
Proof. done. Qed.

Lemma show_groups_head g l s :
  group_ok g → ∃ c t, show_groups (g :: l) +:+ s = String c t ∧ is_hex_any c = true.
Proof.
  intros Hg. destruct (show_hex_head g Hg) as (c & t & E & Hc).
  destruct l as [|g' l].
  - exists c, (t +:+ s). unfold show_groups. simpl. by rewrite E.
  - rewrite show_groups_cons, E. eauto.
Qed.

Lemma ipv6_groups_all n gs ell l :
  Forall group_ok l → l ≠ [] → (length l ≤ n)%nat →
  ipv6_groups n gs ell (show_groups l) = Some (gs ++ l, ell, "").
Proof.
  intros Hl. revert n gs. induction Hl as [|g l Hg Hl IH]; intros n gs Hne Hn; [done|].
  destruct n as [|n]; [simpl in Hn; lia|]. destruct l as [|g' l].
  - by apply ipv6_groups_last.
  - rewrite show_groups_cons. inversion Hl as [|? ? Hg' _]; subst.
    destruct (show_groups_head g' l "" Hg') as (c & t & E & Hc). rewrite sapp_nil_r in E.
    rewrite E, ipv6_groups_colon, <-E by done. rewrite IH by (done || simpl in *; lia).
    by rewrite <-app_assoc.
Qed.

(** The groups before and after an ellipsis. *)
Lemma ipv6_groups_ellipsis n gs l r :
  Forall group_ok l → Forall group_ok r → l ≠ [] → (length l + length r ≤ n)%nat →
  ipv6_groups n gs None (show_groups l +:+ "::" +:+ show_groups r)
  = Some (gs ++ l ++ r, Some (length gs + length l)%nat, "").
Proof.
  intros Hl Hr. revert n gs. induction Hl as [|g l Hg Hl IH]; intros n gs Hne Hn; [done|].
  destruct n as [|n]; [simpl in Hn; lia|]. destruct l as [|g' l].
  - destruct (hex_group_show g Hg) as (o & Ho & H). unfold show_groups at 1. cbn [fmap list_fmap join].
    change ("::" +:+ show_groups r) with (String ":" (String ":" (show_groups r))).
    cbn [ipv6_groups]. rewrite (hex_group_app _ _ _ _ _ _ H) by done.
    replace (o =? 0) with false by lia. change (Ascii.eqb ":" ".") with false.
    change (Ascii.eqb ":" ":") with true. cbv iota zeta.
    replace (length gs + length [g])%nat with (S (length gs)) by (simpl; lia).
    destruct r as [|g' r]; [done|].
    inversion Hr as [|? ? Hg' _]; subst.
    destruct (show_groups_head g' r "" Hg') as (c & t & E & Hc). rewrite sapp_nil_r in E.
    rewrite E, <-E. rewrite ipv6_groups_all by (done || simpl in *; lia).
    by rewrite <-app_assoc.
  - rewrite show_groups_cons, sapp_assoc, (sapp_cons ":" (show_groups (g' :: l))). inversion Hl as [|? ? Hg' _]; subst.
    destruct (show_groups_head g' l ("::" +:+ show_groups r) Hg') as (c & t & E & Hc).
    rewrite E, ipv6_groups_colon, <-E by done. rewrite IH by (done || simpl in *; lia).
    rewrite <-app_assoc. replace (length (gs ++ [g]) + length (g' :: l))%nat with (length gs + length (g :: g' :: l))%nat by (rewrite length_app; simpl; lia). done.
Qed.

Lemma zero_run_spec l : take (zero_run l) l = replicate (zero_run l) 0 ∧ (zero_run l ≤ length l)%nat.
Proof.
  induction l as [|g l [IH1 IH2]]; [done|]. simpl. destruct (Z.eqb_spec g 0) as [->|]; simpl.
  - split; [by f_equal|lia].
  - split; [done|lia].
Qed.

Lemma longest_zero_run_spec i l j len :
  longest_zero_run i l = Some (j, len) →
  (i ≤ j)%nat ∧ (2 ≤ len)%nat ∧ (j - i + len ≤ length l)%nat
  ∧ l = take (j - i) l ++ replicate len 0 ++ drop (j - i + len) l.
Proof.
  revert i j len. induction l as [|g l IH]; intros i j len H; [done|].
  cbn [longest_zero_run] in H.
  assert ((i, zero_run (g :: l)) = (j, len) ∧ (2 ≤ zero_run (g :: l))%nat
    ∨ longest_zero_run (S i) l = Some (j, len)) as [[E Hz]|E].
  { destruct (longest_zero_run (S i) l) as [[j' len']|] eqn:El.
    - apply IH in El as (_ & ? & _). destruct (Nat.leb_spec len' (zero_run (g :: l))).
      + simplify_eq. left. split; [done|lia].
      + simplify_eq. by right.
    - destruct (Nat.leb_spec 2 (zero_run (g :: l))); [|done]. simplify_eq. by left. }
  - destruct (zero_run_spec (g :: l)) as [E1 E2]. simplify_eq.
    rewrite Nat.sub_diag. simpl (0 + _)%nat. change (take 0 _) with (@nil Z). rewrite <-E1.
    simpl app. rewrite take_drop. done.
  - apply IH in E as (? & ? & Hlen & E). replace (j - i)%nat with (S (j - S i)) by lia.
    split_and!; [lia|lia|simpl; lia|]. simpl. by f_equal.
Qed.

Lemma groups_of_length n : length (groups_of n) = 8%nat.
Proof. done. Qed.

Lemma groups_of_ok n : Forall group_ok (groups_of n).
Proof.
  unfold groups_of. apply Forall_fmap, Forall_true. intros k. simpl. unfold group_ok.
  by apply Z.mod_pos_bound.
Qed.

Lemma groups_value_of n : 0 ≤ n < 2 ^ 128 → groups_value (groups_of n) = n.
Proof.
  intros Hn.
  assert (∀ k k', 0 ≤ k → k' = k + 1 →
    n / 2 ^ (16 * k') * 65536 + (n / 2 ^ (16 * k)) mod 65536 = n / 2 ^ (16 * k)) as Hs.
  { intros k k' Hk ->. replace (16 * (k + 1)) with (16 * k + 16) by lia.
    rewrite Z.pow_add_r, <-Z.div_div by lia. change (2 ^ 16) with 65536. lia. }
  assert (0 * 65536 + (n / 2 ^ (16 * 7)) mod 65536 = n / 2 ^ (16 * 7)) as H7.
  { rewrite <-(Hs 7 8) at 2 by lia. rewrite (Z.div_small n (2 ^ (16 * 8))) by exact Hn. done. }
  unfold groups_value, groups_of. cbn [fmap list_fmap foldl].
  rewrite H7, (Hs 6 7), (Hs 5 6), (Hs 4 5), (Hs 3 4), (Hs 2 3), (Hs 1 2), (Hs 0 1) by lia.
  apply Z.div_1_r.
Qed.

Lemma finish_groups_of n : 0 ≤ n < 2 ^ 128 → finish_ipv6 (groups_of n, None, "") = Some n.
Proof. intros Hn. unfold finish_ipv6. simpl (_ <? _)%nat. cbv iota. by rewrite groups_value_of. Qed.

Lemma finish_ellipsis l r len n :
  (1 ≤ len)%nat → (length l + len + length r)%nat = 8%nat →
  groups_value (l ++ replicate len 0 ++ r) = n →
  finish_ipv6 (l ++ r, Some (length l), "") = Some n.
Proof.
  intros Hl Hlen Hv. unfold finish_ipv6. rewrite length_app.
  destruct (Nat.ltb_spec (length l + length r) 8); [|lia].
  rewrite take_app_length, drop_app_length. replace (8 - (length l + length r))%nat with len by lia. by rewrite Hv.
Qed.

(** Bytes an address text is made of. *)
Definition addr_byte (c : ascii) : bool := is_hex_any c || Ascii.eqb c ":" || Ascii.eqb c ".".

Lemma cut_char_app c a s : c ∉ bytes a → cut_char c (a +:+ String c s) = Some (a, s).
Proof.
  induction a as [|x a IH]; intros H.
  - rewrite sapp_nil_l. simpl. by rewrite Ascii.eqb_refl.
  - rewrite bytes_cons, not_elem_of_cons in H. destruct H as [Hx H]. rewrite sapp_cons. simpl.
    destruct (Ascii.eqb_spec x c); [congruence|]. by rewrite IH.
Qed.

Lemma cut_char_none c a : c ∉ bytes a → cut_char c a = None.
Proof.
  induction a as [|x a IH]; intros H; [done|].
  rewrite bytes_cons, not_elem_of_cons in H. destruct H as [Hx H]. simpl.
  destruct (Ascii.eqb_spec x c); [congruence|]. by rewrite IH.
Qed.

Lemma cut_last_none c a : c ∉ bytes a → cut_last c a = None.
Proof.
  induction a as [|x a IH]; intros H; [done|].
  rewrite bytes_cons, not_elem_of_cons in H. destruct H as [Hx H]. simpl. rewrite IH by done.
  destruct (Ascii.eqb_spec x c); [congruence|done].
Qed.

Lemma cut_last_app c a s : c ∉ bytes s → cut_last c (a +:+ String c s) = Some (a, s).
Proof.
  intros H. induction a as [|x a IH].
  - rewrite sapp_nil_l. simpl. by rewrite cut_last_none, Ascii.eqb_refl.
  - rewrite sapp_cons. simpl. by rewrite IH.
Qed.

Lemma hex_chr_any d : 0 ≤ d < 16 → is_hex_any (hex_chr d) = true.
Proof.
  intros Hd. refine (all_below_spec 16 (λ d, is_hex_any (hex_chr d)) d _ Hd). by vm_compute.
Qed.

Lemma show_hex_bytes g : group_ok g → all_bytes is_hex_any (show_hex g).
Proof.
  unfold group_ok. intros Hg. unfold show_hex.
  repeat case_match; rewrite ?all_bytes_cons; split_and?; try apply all_bytes_nil;
    apply hex_chr_any; lia.
Qed.

Lemma digit_hex c : is_digit c = true → is_hex_any c = true.
Proof.
  unfold is_digit, is_hex_any, hex_value. intros H. by rewrite H.
Qed.

Lemma itoa_digits z : 0 ≤ z < 1000 → all_bytes is_digit (itoa z).
Proof.
  intros Hz. assert (forallb is_digit (bytes (itoa z)) = true) as H.
  { refine (all_below_spec 1000 (λ z, forallb is_digit (bytes (itoa z))) z _ Hz). by vm_compute. }
  unfold all_bytes. apply Forall_forall. intros c Hc. rewrite forallb_forall in H.
  apply H. by apply list_elem_of_In.
Qed.

Lemma show_ipv4_bytes n : 0 ≤ n < two32 → all_bytes (λ c, is_hex_any c || Ascii.eqb c ".") (show_ipv4 n).
Proof.
  unfold two32. intros Hn.
  assert (∀ z, 0 ≤ z < 256 → all_bytes (λ c, is_hex_any c || Ascii.eqb c ".") (itoa z)) as H.
  { intros z Hz. eapply all_bytes_impl; [|apply itoa_digits; lia].
    intros c Hc. simpl in *. by rewrite digit_hex. }
  unfold show_ipv4. rewrite !all_bytes_app.
  split_and!; (apply H; lia) || (by repeat constructor).
Qed.

Lemma show_groups_bytes l : Forall group_ok l → all_bytes addr_byte (show_groups l).
Proof.
  intros Hl. induction Hl as [|g l Hg Hl IH]; [apply all_bytes_nil|].
  assert (all_bytes addr_byte (show_hex g)) as H.
  { eapply all_bytes_impl; [|by apply show_hex_bytes]. intros c Hc. unfold addr_byte. by rewrite Hc. }
  destruct l; [done|]. rewrite show_groups_cons, all_bytes_app, all_bytes_cons. done.
Qed.

Lemma addr_kind_hex w c s :
  all_bytes is_hex_any w → existsb (Ascii.eqb c) ["."; ":"; "%"]%char = true →
  addr_kind (w +:+ String c s) = Some c.
Proof.
  intros Hw Hc. induction w as [|x w IH].
  - rewrite sapp_nil_l. simpl in *. by rewrite Hc.
  - rewrite sapp_cons. apply all_bytes_cons in Hw as [Hx Hw]. cbn [addr_kind].
    destruct (existsb (Ascii.eqb x) _) eqn:E; [|by apply IH].
    exfalso. simpl in E. rewrite !orb_true_iff, !Ascii.eqb_eq in E.
    destruct E as [-> | [-> | [-> |]]]; done.
Qed.

Lemma show_ipv6_cases n :
  0 ≤ n < 2 ^ 128 →
  (∃ g l, Forall group_ok (g :: l) ∧ length l = 7%nat ∧ groups_value (g :: l) = n ∧
     show_ipv6 n = show_groups (g :: l))
  ∨ (∃ l len r, Forall group_ok l ∧ Forall group_ok r ∧ (1 ≤ len)%nat
     ∧ (length l + len + length r)%nat = 8%nat
     ∧ groups_value (l ++ replicate len 0 ++ r) = n
     ∧ show_ipv6 n = show_groups l +:+ "::" +:+ show_groups r).
Proof.
  intros Hn. pose proof (groups_of_ok n) as Hok. pose proof (groups_value_of n Hn) as Hv.
  unfold show_ipv6. destruct (longest_zero_run 0 (groups_of n)) as [[i len]|] eqn:E.
  - right. apply longest_zero_run_spec in E as (_ & Hlen & Hi & E).
    rewrite Nat.sub_0_r in *. rewrite groups_of_length in Hi.
    exists (take i (groups_of n)), len, (drop (i + len) (groups_of n)).
    split_and!; [by apply Forall_take|by apply Forall_drop|lia| |by rewrite <-E|done].
    rewrite length_take, length_drop, groups_of_length. lia.
  - left. pose proof (groups_of_length n) as Hl. destruct (groups_of n) as [|g l]; [done|].
    simpl in Hl. eauto 10 with lia.
Qed.

Lemma strip_colons_hex c t : is_hex_any c = true → strip_prefix "::" (String c t) = None.
Proof.
  intros Hc. cbn [strip_prefix]. destruct (Ascii.eqb_spec ":" c) as [<-|]; done.
Qed.

(** [parseIPv6] on the text before the zone. *)
Definition parse_ipv6_text (s : string) : option Z :=
  match strip_prefix "::" s with
  | Some EmptyString => Some 0
  | Some rest => ipv6_groups 8 [] (Some 0%nat) rest ≫= finish_ipv6
  | None => ipv6_groups 8 [] None s ≫= finish_ipv6
  end.

Lemma parse_ipv6_zone s n zone :
  parse_ipv6_text s = Some n → "%"%char ∉ bytes s →
  parse_ipv6 (s +:+ (if zone =s "" then "" else "%" +:+ zone)) = Some (V6 n zone).
Proof.
  intros Hs Hp. unfold parse_ipv6.
  assert (∀ z, match strip_prefix "::" s with
    | Some EmptyString => Some (V6 0 z)
    | Some rest => n ← ipv6_groups 8 [] (Some 0%nat) rest ≫= finish_ipv6; Some (V6 n z)
    | None => n ← ipv6_groups 8 [] None s ≫= finish_ipv6; Some (V6 n z)
    end = Some (V6 n z)) as H.
  { intros z. unfold parse_ipv6_text in Hs. destruct (strip_prefix "::" s) as [[|c t]|].
    - by simplify_eq.
    - by rewrite Hs.
    - by rewrite Hs. }
  destruct (String.eqb_spec zone "") as [->|Hz].
  - rewrite sapp_nil_r, cut_char_none by done. apply H.
  - change ("%" +:+ zone) with (String "%" zone). rewrite cut_char_app by done.
    destruct (String.eqb_spec zone ""); [done|]. apply H.
Qed.

Lemma parse_show_ipv6_text n : 0 ≤ n < 2 ^ 128 → parse_ipv6_text (show_ipv6 n) = Some n.
Proof.
  intros Hn. unfold parse_ipv6_text.
  destruct (show_ipv6_cases n Hn) as [(g & l & Hok & Hl & Hv & E)|(l & len & r & Hl & Hr & Hlen & H8 & Hv & E)];
    rewrite E.
  - assert (group_ok g) as Hg by (by inversion Hok).
    destruct (show_groups_head g l "" Hg) as (c & t & Ec & Hc). rewrite sapp_nil_r in Ec.
    rewrite Ec, strip_colons_hex, <-Ec by done.
    rewrite ipv6_groups_all by (done || simpl; lia). simpl. unfold finish_ipv6.
    simpl length. rewrite Hl. simpl (_ <? _)%nat. cbv iota. by rewrite Hv.
  - destruct l as [|g l].
    + unfold show_groups at 1. simpl (join _ _). rewrite sapp_nil_l.
      change (strip_prefix "::" ("::" +:+ show_groups r)) with (Some (show_groups r)).
      destruct r as [|g r].
      * simpl in H8. assert (len = 8%nat) as -> by lia. simpl in Hv. by subst n.
      * assert (group_ok g) as Hg by (by inversion Hr).
        destruct (show_groups_head g r "" Hg) as (c & t & Ec & Hc). rewrite sapp_nil_r in Ec.
        rewrite Ec. cbv iota. rewrite <-Ec. rewrite ipv6_groups_all by (done || simpl in *; lia).
        apply (finish_ellipsis [] (g :: r) len n); done.
    + assert (group_ok g) as Hg by (by inversion Hl).
      destruct (show_groups_head g l ("::" +:+ show_groups r) Hg) as (c & t & Ec & Hc).
      rewrite Ec, strip_colons_hex, <-Ec by done.
      rewrite ipv6_groups_ellipsis by (done || simpl in *; lia).
      by apply (finish_ellipsis (g :: l) r len n).
Qed.

(** The dotted quad at the end of an IPv4-mapped address. *)
Lemma hex_group_octet o rest :
  0 ≤ o < 256 → ∃ a d, (d =? 0) = false
    ∧ hex_group (itoa o +:+ String "." rest) 0 0 = Some (a, d, String "." rest).
Proof.
  intros Ho.
  assert (match hex_group (itoa o) 0 0 with Some (_, d, EmptyString) => negb (d =? 0) | _ => false end = true) as H.
  { refine (all_below_spec 256 (λ o, match hex_group (itoa o) 0 0 with
      Some (_, d, EmptyString) => negb (d =? 0) | _ => false end) o _ Ho). by vm_compute. }
  destruct (hex_group (itoa o) 0 0) as [[[a d] [|]]|] eqn:E; try done.
  exists a, d. split; [by apply negb_true_iff|]. by apply hex_group_app.
Qed.

Lemma parse_mapped_text n :
  0 ≤ n < 2 ^ 128 → is_4in6 n = true → parse_ipv6_text ("::ffff:" +:+ show_ipv4 (n mod 4294967296)) = Some n.
Proof.
  unfold is_4in6. intros Hn H4%Z.eqb_eq. set (m := n mod 4294967296).
  assert (0 ≤ m < two32) as Hm by (unfold m, two32; lia).
  pose proof (parse_show_ipv4_fields m Hm) as Hp.
  unfold parse_ipv6_text.
  change (strip_prefix "::" ("::ffff:" +:+ show_ipv4 m)) with (Some ("ffff:" +:+ show_ipv4 m)).
  change ("ffff:" +:+ show_ipv4 m) with (show_hex 65535 +:+ String ":" (show_ipv4 m)).
  destruct (show_hex 65535 +:+ String ":" (show_ipv4 m)) as [|c0 t0] eqn:E0; [done|]. rewrite <-E0.
  unfold show_ipv4 in *. rewrite !dot_app in *.
  set (tl := itoa ((m / 65536) mod 256) +:+ _) in *.
  destruct (hex_group_octet (m / 16777216) tl) as (a & d & Hd & Hg); [unfold two32 in Hm; lia|].
  assert (∃ c t, itoa (m / 16777216) +:+ String "." tl = String c t ∧ is_hex_any c = true) as (c & t & Ec & Hc).
  { assert (0 ≤ m / 16777216 < 1000) as Hr by (unfold two32 in Hm; lia).
    pose proof (itoa_digits _ Hr) as Hdg. pose proof (itoa_nonempty (m / 16777216)) as Hne.
    destruct (itoa (m / 16777216)) as [|c t]; [done|]. apply all_bytes_cons in Hdg as [Hc _].
    exists c, (t +:+ String "." tl). split; [done|by apply digit_hex]. }
  rewrite Ec, ipv6_groups_colon, <-Ec by (done || by unfold group_ok; lia).
  cbn [ipv6_groups]. rewrite Hg, Hd. change (Ascii.eqb "." ".") with true. cbv iota.
  simpl (negb _). simpl (8 <? _)%nat. cbv iota. rewrite Hp. simpl. f_equal.
  unfold groups_value. simpl. unfold two32 in Hm. lia.
Qed.

Lemma addr_kind_ipv4 n : 0 ≤ n < two32 → addr_kind (show_ipv4 n) = Some "."%char.
Proof.
  unfold two32. intros Hn. unfold show_ipv4. rewrite dot_app. apply addr_kind_hex; [|done].
  eapply all_bytes_impl; [|apply itoa_digits; lia]. apply digit_hex.
Qed.

Lemma addr_kind_groups g l s :
  group_ok g → (2 ≤ length (g :: l))%nat ∨ (∃ t, s = String ":" t) →
  addr_kind (show_groups (g :: l) +:+ s) = Some ":"%char.
Proof.
  intros Hg H. pose proof (show_hex_bytes g Hg) as Hb. destruct l as [|g' l].
  - destruct H as [?|[t ->]]; [simpl in *; lia|]. by apply addr_kind_hex.
  - rewrite show_groups_cons, sapp_assoc, sapp_cons. by apply addr_kind_hex.
Qed.

Lemma addr_kind_ipv6 n s : 0 ≤ n < 2 ^ 128 → addr_kind (show_ipv6 n +:+ s) = Some ":"%char.
Proof.
  intros Hn.
  destruct (show_ipv6_cases n Hn) as [(g & l & Hok & Hl & Hv & E)|(l & len & r & Hl & Hr & Hlen & H8 & Hv & E)];
    rewrite E.
  - apply addr_kind_groups; [by inversion Hok|]. left. simpl. lia.
  - rewrite sapp_assoc. destruct l as [|g l]; [done|].
    apply addr_kind_groups; [by inversion Hl|]. right. eauto.
Qed.

Lemma show_ipv6_bytes n : 0 ≤ n < 2 ^ 128 → all_bytes addr_byte (show_ipv6 n).
Proof.
  intros Hn.
  destruct (show_ipv6_cases n Hn) as [(g & l & Hok & Hl & Hv & E)|(l & len & r & Hl & Hr & Hlen & H8 & Hv & E)];
    rewrite E, ?all_bytes_app; split_and?; try (by apply show_groups_bytes); by repeat constructor.
Qed.

Lemma addr_text_bytes n :
  0 ≤ n < 2 ^ 128 →
  all_bytes addr_byte (if is_4in6 n then "::ffff:" +:+ show_ipv4 (n mod 4294967296) else show_ipv6 n).
Proof.
  intros Hn. destruct (is_4in6 n); [|by apply show_ipv6_bytes].
  rewrite all_bytes_app. split; [by repeat constructor|].
  eapply all_bytes_impl; [|apply show_ipv4_bytes; unfold two32; lia].
  intros c Hc. unfold addr_byte. apply orb_true_iff in Hc as [->| ->]; [done|]. apply orb_true_r.
Qed.

Lemma ParseAddr_string a : addr_ok a → ParseAddr (addr_string a) = Some a.
Proof.
  destruct a as [n|n zone]; simpl; intros Hn; unfold ParseAddr.
  - rewrite addr_kind_ipv4 by done. by apply parse_show_ipv4.
  - assert (∀ s, addr_kind ((if is_4in6 n then "::ffff:" +:+ show_ipv4 (n mod 4294967296)
      else show_ipv6 n) +:+ s) = Some ":"%char) as ->.
    { intros s. destruct (is_4in6 n); [done|by apply addr_kind_ipv6]. }
    apply parse_ipv6_zone.
    + destruct (is_4in6 n) eqn:E; [by apply parse_mapped_text|by apply parse_show_ipv6_text].
    + eapply all_bytes_not_in; [by apply addr_text_bytes|done].
Qed.

Definition prefix_ok (p : prefix) : Prop :=
  addr_ok (prefix_addr p) ∧ zone_of (prefix_addr p) = ""
  ∧ 0 ≤ prefix_bits p ≤ addr_width (prefix_addr p).

Lemma ParsePrefix_string p : prefix_ok p → ParsePrefix (prefix_string p) = Some p.
Proof.
  destruct p as [a b]. intros (Ha & Hz & Hb). simpl in *. unfold ParsePrefix, prefix_string. simpl.
  assert (0 ≤ b < 129) as Hb' by (destruct a; simpl in Hb; lia).
  change ("/" +:+ itoa b) with (String "/" (itoa b)).
  rewrite cut_last_app.
  2:{ eapply all_bytes_not_in; [apply itoa_digits; lia|done]. }
  rewrite ParseAddr_string by done. simpl. rewrite Hz. simpl.
  assert (match itoa b with
    | String a (String _ _) => negb ((49 <=? byte_val a) && (byte_val a <=? 57))
    | _ => false end = false) as ->.
  { apply negb_true_iff.
    refine (all_below_spec 129 (λ b, negb (match itoa b with
      | String a (String _ _) => negb ((49 <=? byte_val a) && (byte_val a <=? 57))
      | _ => false end)) b _ Hb'). by vm_compute. }
  rewrite atoi_itoa by (unfold in_int64, min_int64, max_int64, two63; lia). simpl.
  destruct a; simpl in *; by replace ((b <? 0) || _) with false by lia.
Qed.

(** ** What the parsers return is in range *)

Definition octet_ok (o : Z) : Prop := 0 ≤ o < 256.

Lemma parse_ipv4_fields_ok s pd val digs fs l :
  parse_ipv4_fields s pd val digs fs = Some l →
  Forall octet_ok fs → octet_ok val → (length fs ≤ 3)%nat → Forall octet_ok l ∧ length l = 4%nat.
Proof.
  revert pd val digs fs. induction s as [|c s IH]; intros pd val digs fs H Hf Hv Hl; cbn [parse_ipv4_fields] in H.
  - destruct (Nat.ltb_spec (length fs) 3); [done|]. simplify_eq. split.
    + apply Forall_app. auto.
    + rewrite length_app. simpl. lia.
  - destruct (is_digit c) eqn:Hd.
    + destruct (_ && _)%bool; [done|]. destruct (Z.ltb_spec 255 (val * 10 + (byte_val c - 48))); [done|].
      eapply IH; [done|done| |done]. unfold octet_ok in *. unfold is_digit in Hd. lia.
    + destruct (Ascii.eqb c "."); [|done]. destruct (pd || _); [done|].
      destruct (Nat.eqb_spec (length fs) 3); [done|].
      eapply IH; [done| |unfold octet_ok; lia|rewrite length_app; simpl; lia].
      apply Forall_app. auto.
Qed.

Lemma octets_value_range l : Forall octet_ok l → length l = 4%nat → 0 ≤ octets_value l < two32.
Proof.
  intros Hl Hlen. destruct l as [|a [|b [|c [|d [|]]]]]; try done.
  rewrite !Forall_cons_iff in Hl. unfold octet_ok, two32, octets_value in *. simpl. lia.
Qed.

Lemma parse_ipv4_ok s a : parse_ipv4 s = Some a → addr_ok a ∧ Is4 a = true.
Proof.
  unfold parse_ipv4. destruct (parse_ipv4_fields _ _ _ _ _) as [l|] eqn:E; intros H; simplify_eq/=.
  apply parse_ipv4_fields_ok in E as [? ?]; [|done|done|simpl; lia].
  split; [by apply octets_value_range|done].
Qed.

Lemma hex_value_range c v : hex_value c = Some v → 0 ≤ v < 16.
Proof. unfold hex_value. intros. repeat case_match; simplify_eq; lia. Qed.

Lemma hex_group_range s acc off a o r :
  hex_group s acc off = Some (a, o, r) → 0 ≤ off ≤ 4 → 0 ≤ acc < 16 ^ off → 0 ≤ a < 65536.
Proof.
  assert (∀ off, 0 ≤ off ≤ 4 → 16 ^ off ≤ 65536) as Hpow.
  { intros k Hk. change 65536 with (16 ^ 4). apply Z.pow_le_mono_r; lia. }
  revert acc off. induction s as [|c s IH]; intros acc off H Ho Ha; cbn [hex_group] in H.
  - simplify_eq. specialize (Hpow _ Ho). lia.
  - destruct (hex_value c) as [v|] eqn:Hv.
    + destruct (Z.ltb_spec 3 off); [done|]. apply hex_value_range in Hv.
      eapply IH; [done|lia|]. rewrite Z.pow_add_r by lia. change (16 ^ 1) with 16. lia.
    + simplify_eq. specialize (Hpow _ Ho). lia.
Qed.

Lemma groups_value_range l : Forall group_ok l → 0 ≤ groups_value l < 65536 ^ Z.of_nat (length l).
Proof.
  intros Hl. unfold groups_value.
  enough (∀ acc k, 0 ≤ k → 0 ≤ acc < 65536 ^ k →
    0 ≤ foldl (λ acc g, acc * 65536 + g) acc l < 65536 ^ (k + Z.of_nat (length l))) as H.
  { specialize (H 0 0). rewrite Z.add_0_l in H. apply H; lia. }
  induction Hl as [|g l Hg Hl IH]; intros acc k Hk Ha.
  - simpl. by rewrite Z.add_0_r.
  - simpl foldl. replace (k + Z.of_nat (length (g :: l))) with (k + 1 + Z.of_nat (length l)) by (simpl; lia).
    apply IH; [lia|]. rewrite Z.pow_add_r by lia. change (65536 ^ 1) with 65536.
    unfold group_ok in Hg. lia.
Qed.

Lemma ipv6_groups_ok n gs ell s l e r :
  ipv6_groups n gs ell s = Some (l, e, r) →
  Forall group_ok gs → (length gs + n ≤ 8)%nat → Forall group_ok l ∧ (length l ≤ 8)%nat.
Proof.
  revert gs ell s. induction n as [|n IH]; intros gs ell s H Hgs Hlen; cbn [ipv6_groups] in H.
  { simplify_eq. split; [done|lia]. }
  destruct (hex_group s 0 0) as [[[acc off] rest]|] eqn:Eg; [|done].
  apply hex_group_range in Eg; [|lia|simpl; lia]. destruct (off =? 0); [done|].
  assert (Forall group_ok (gs ++ [acc])) as Hgs1 by (apply Forall_app; auto).
  assert (length (gs ++ [acc]) + n ≤ 8)%nat as Hlen1 by (rewrite length_app; simpl; lia).
  assert (∀ x y, Some (gs ++ [acc], x, y) = Some (l, e, r) → Forall group_ok l ∧ (length l ≤ 8)%nat) as Hstop.
  { intros x y [= <- <- <-]. split; [done|lia]. }
  destruct rest as [|c rest]; [by eapply Hstop|].
  destruct (Ascii.eqb c ".").
  - destruct (_ && _)%bool; [done|]. destruct (Nat.ltb_spec 8 (length gs + 2)); [done|].
    destruct (parse_ipv4_fields _ _ _ _ _) as [fl|] eqn:Ef; [|done].
    apply parse_ipv4_fields_ok in Ef as [Hf ?]; [|done|done|simpl; lia].
    destruct fl as [|x [|y [|z [|w [|]]]]]; try done. simplify_eq.
    rewrite !Forall_cons_iff in Hf. unfold octet_ok in Hf. split.
    + apply Forall_app. split; [done|]. rewrite !Forall_cons_iff. unfold group_ok.
      split_and!; [lia..|done].
    + rewrite length_app. simpl. lia.
  - destruct (Ascii.eqb c ":"); [|done]. destruct rest as [|c2 rest]; [done|].
    destruct (Ascii.eqb c2 ":"); [|by eapply IH].
    destruct ell; [done|]. destruct rest; [by eapply Hstop|by eapply IH].
Qed.

Lemma finish_ipv6_range l e r n :
  finish_ipv6 (l, e, r) = Some n → Forall group_ok l → (length l ≤ 8)%nat → 0 ≤ n < 2 ^ 128.
Proof.
  intros H Hl Hlen. change (2 ^ 128) with (65536 ^ 8). unfold finish_ipv6 in H.
  destruct r; [|done]. destruct (Nat.ltb_spec (length l) 8).
  - destruct e as [e|]; [|done]. simplify_eq.
    pose proof (groups_value_range (take e l ++ replicate (8 - length l) 0 ++ drop e l)) as Hr.
    rewrite !length_app, length_replicate, length_take, length_drop in Hr.
    replace (Z.of_nat _) with 8 in Hr by lia. apply Hr.
    rewrite !Forall_app. split_and!; [by apply Forall_take| |by apply Forall_drop].
    apply Forall_replicate. unfold group_ok. lia.
  - destruct e; [done|]. simplify_eq. pose proof (groups_value_range l Hl) as Hr.
    by replace (Z.of_nat (length l)) with 8 in Hr by lia.
Qed.

Lemma parse_ipv6_ok s a : parse_ipv6 s = Some a → addr_ok a ∧ Is6 a = true.
Proof.
  unfold parse_ipv6. destruct (match cut_char "%" s with Some _ => _ | None => _ end) as [[t zone] ok].
  destruct ok; [|done].
  assert (∀ e u, (n ← ipv6_groups 8 [] e u ≫= finish_ipv6; Some (V6 n zone)) = Some a →
    addr_ok a ∧ Is6 a = true) as Hgo.
  { intros e u H. destruct (ipv6_groups 8 [] e u) as [[[l e'] r]|] eqn:Eg; [|done].
    cbn [mbind option_bind] in H. destruct (finish_ipv6 (l, e', r)) as [n|] eqn:Ef; [|done].
    injection H as <-.
    apply ipv6_groups_ok in Eg as [? ?]; [|done|done].
    split; [by eapply finish_ipv6_range|done]. }
  destruct (strip_prefix "::" t) as [[|c u]|]; [|by apply Hgo..].
  intros. simplify_eq. split; [simpl; lia|done].
Qed.

Lemma ParseAddr_ok s a : ParseAddr s = Some a → addr_ok a.
Proof.
  unfold ParseAddr. destruct (addr_kind s) as [c|]; [|done]. intros H.
  destruct (Ascii.eqb_spec c ".") as [->|]; [by apply parse_ipv4_ok in H as [? _]|].
  destruct (Ascii.eqb_spec c ":") as [->|]; [by apply parse_ipv6_ok in H as [? _]|].
  destruct c as [[] [] [] [] [] [] [] []]; done.
Qed.

Lemma ParsePrefix_ok s p : ParsePrefix s = Some p → prefix_ok p.
Proof.
  unfold ParsePrefix. destruct (cut_last "/" s) as [[a b]|]; [|done].
  destruct (ParseAddr a) as [ip|] eqn:Ea; [|done]. cbn [mbind option_bind].
  destruct (String.eqb_spec (zone_of ip) ""); [|done]. cbn [negb].
  destruct (match b with String _ _ => _ | EmptyString => _ end); [done|].
  destruct (atoi b) as [bits|]; [|done]. cbn [mbind option_bind].
  destruct (_ || _) eqn:Eb; [done|]. intros. simplify_eq.
  apply ParseAddr_ok in Ea. unfold prefix_ok. simpl. split_and!; try done; destruct ip; simpl in *; lia.
Qed.

Lemma mask_value_range w b n : 0 ≤ b ≤ w → 0 ≤ n < 2 ^ w → 0 ≤ mask_value w b n ≤ n.
Proof.
  intros Hb Hn. unfold mask_value.
  assert (0 < 2 ^ (w - b)) as Hp by (apply Z.pow_pos_nonneg; lia).
  pose proof (Z.mod_pos_bound n _ Hp). pose proof (Z.mod_le n (2 ^ (w - b)) ltac:(lia) Hp). lia.
Qed.

Lemma mask_value_idemp w b n : mask_value w b (mask_value w b n) = mask_value w b n.
Proof.
  unfold mask_value. set (m := 2 ^ (w - b)).
  destruct (decide (m = 0)) as [->|Hm]; [rewrite !Zmod_0_r; lia|].
  rewrite Zminus_mod_idemp_r, Z.sub_diag, Zmod_0_l. lia.
Qed.

Lemma Masked_ok p : prefix_ok p → prefix_ok (Masked p).
Proof.
  destruct p as [[n|n z] b]; intros (Ha & Hz & Hb); simpl in *; subst; unfold prefix_ok; simpl.
  - pose proof (mask_value_range 32 b n Hb Ha). unfold two32 in *. split_and!; done || lia.
  - pose proof (mask_value_range 128 b n Hb Ha). split_and!; done || lia.
Qed.

Lemma Masked_idemp p : Masked (Masked p) = Masked p.
Proof. destruct p as [[n|n z] b]; unfold Masked; simpl; by rewrite mask_value_idemp. Qed.

(** A masked prefix is a fixpoint of parse, mask and print. *)
Lemma prefix_canonical s p :
  ParsePrefix s = Some p → ParsePrefix (prefix_string (Masked p)) = Some (Masked p).
Proof. intros H. by apply ParsePrefix_string, Masked_ok, (ParsePrefix_ok s). Qed.

(** ** The text of an address has no blanks *)

Lemma addr_text a : addr_ok a → zone_of a = "" → all_bytes addr_byte (addr_string a).
Proof.
  intros Ha Hz. destruct a as [n|n z]; simpl in *.
  - eapply all_bytes_impl; [|by apply show_ipv4_bytes]. intros c Hc.
    unfold addr_byte. apply orb_true_iff in Hc as [->| ->]; [done|apply orb_true_r].
  - subst z. rewrite sapp_nil_r. by apply addr_text_bytes.
Qed.

Lemma addr_byte_no_space a : addr_byte a = true → no_space a = true.
Proof. destruct a as [[] [] [] [] [] [] [] []]; vm_compute; congruence. Qed.

Lemma trim_addr a : addr_ok a → zone_of a = "" → trim_space (addr_string a) = addr_string a.
Proof.
  intros. apply trim_space_no_space. eapply all_bytes_impl; [apply addr_byte_no_space|by apply addr_text].
Qed.
