(* ===== verification/Driver.v ===== *)
(** * Service drivers: contracts, operations and default locations

    The catalogue of [internal/service/driver]: what each VPN or proxy
    service supports, which instance job drives which operation, and the
    systemd unit, configuration path and WireGuard interface name an
    instance gets by default. *)
From S2P Require Import Prelude GoStrings Sha256.
From Stdlib Require Import Ascii.
From stdpp Require Import options.
Open Scope Z_scope.

Ltac Zify.zify_post_hook ::= Z.to_euclidean_division_equations.

(** ** Codes *)

Definition XrayCore : string := "xray-core".
Definition OpenVPN : string := "openvpn".
Definition WireGuard : string := "wireguard".
Definition IPSec : string := "ipsec".
Definition XL2TPD : string := "xl2tpd".
Definition HTTPProxy : string := "http_proxy".
Definition MTProto : string := "mtproto".
Definition Shadowsocks : string := "shadowsocks".
Definition Nginx : string := "nginx".

Definition ArtifactAll : string := "all".
Definition ArtifactZipBundle : string := "zip_bundle".
Definition ArtifactOpenVPNProfile : string := "ovpn".
Definition ArtifactVLESSURL : string := "vless_url".
Definition ArtifactWireGuardConfig : string := "wg_conf".
Definition ArtifactMTProtoURL : string := "mtproto_url".
Definition ArtifactHTTPProxyBundle : string := "http_proxy_bundle".
Definition ArtifactShadowsocksURL : string := "ss_url".
Definition ArtifactIPSecBundle : string := "ipsec_bundle".

Definition OperationRender : string := "render".
Definition OperationValidate : string := "validate".
Definition OperationApply : string := "apply".
Definition OperationRestart : string := "restart".
Definition OperationStart : string := "start".
Definition OperationStop : string := "stop".
Definition OperationEnable : string := "enable".
Definition OperationDisable : string := "disable".
Definition OperationDelete : string := "delete".

(** ** Data *)

Record OperationSpec := {
  op_Code : string; op_JobType : string; op_DisplayName : string;
  op_Category : string; op_ExecutionTarget : string;
  op_RequiresSpec : bool; op_RequiresRenderedFiles : bool; op_RequiresSystemdUnit : bool;
  op_MutatesConfig : bool; op_MutatesRuntime : bool; op_ConvergesDesiredState : bool;
  op_Destructive : bool; op_AgentExecutable : bool;
  op_QueuedStatus : string; op_SetsEnabled : bool; op_QueuedEnabled : bool }.

Record HealthCheckSpec := {
  hc_Code : string; hc_DisplayName : string; hc_Signal : string; hc_Source : string;
  hc_Required : bool; hc_PortSource : string; hc_ConfigPathSource : string;
  hc_TimeoutSeconds : Z; hc_DegradedOnFail : bool }.

Record Contract := {
  Code : string; RuntimeCode : string; DisplayName : string;
  DefaultUnitPattern : string; Contract_DefaultConfigPath : string;
  Contract_DefaultConfigMode : string;
  ProvisioningSupported : bool; AccountSupported : bool;
  Artifacts : list string; InstallStrategies : list string;
  Contract_RequiresIPForwarding : bool;
  Operations : list OperationSpec; HealthChecks : list HealthCheckSpec }.

Definition contracts : gmap string Contract := list_to_map [
  (XrayCore, {| Code := XrayCore; RuntimeCode := XrayCore;
    DisplayName := "Xray VLESS / Reality"; DefaultUnitPattern := "megavpn-xray-<slug>";
    Contract_DefaultConfigPath := "/usr/local/etc/xray/<slug>.json"; Contract_DefaultConfigMode := "0640";
    ProvisioningSupported := true; AccountSupported := true;
    Artifacts := [ArtifactVLESSURL]; InstallStrategies := ["binary_repository"; "xtls_install_release"; "manual_present"];
    Contract_RequiresIPForwarding := false;
    Operations := []; HealthChecks := [] |});
  (OpenVPN, {| Code := OpenVPN; RuntimeCode := OpenVPN;
    DisplayName := "OpenVPN"; DefaultUnitPattern := "openvpn-server@<slug>";
    Contract_DefaultConfigPath := "/etc/openvpn/server/<slug>.conf"; Contract_DefaultConfigMode := "0644";
    ProvisioningSupported := true; AccountSupported := true;
    Artifacts := [ArtifactOpenVPNProfile]; InstallStrategies := ["ubuntu_repo"; "manual_present"];
    Contract_RequiresIPForwarding := true;
    Operations := []; HealthChecks := [] |});
  (WireGuard, {| Code := WireGuard; RuntimeCode := WireGuard;
    DisplayName := "WireGuard"; DefaultUnitPattern := "wg-quick@<slug>";
    Contract_DefaultConfigPath := "/etc/wireguard/<slug>.conf"; Contract_DefaultConfigMode := "0600";
    ProvisioningSupported := true; AccountSupported := true;
    Artifacts := [ArtifactWireGuardConfig]; InstallStrategies := ["ubuntu_repo"; "manual_present"];
    Contract_RequiresIPForwarding := true;
    Operations := []; HealthChecks := [] |});
  (IPSec, {| Code := IPSec; RuntimeCode := IPSec;
    DisplayName := "IPsec / IKEv2"; DefaultUnitPattern := "strongswan-starter";
    Contract_DefaultConfigPath := "/etc/ipsec.conf"; Contract_DefaultConfigMode := "0644";
    ProvisioningSupported := true; AccountSupported := true;
    Artifacts := [ArtifactIPSecBundle]; InstallStrategies := ["ubuntu_repo"; "manual_present"];
    Contract_RequiresIPForwarding := true;
    Operations := []; HealthChecks := [] |});
  (XL2TPD, {| Code := XL2TPD; RuntimeCode := XL2TPD;
    DisplayName := "XL2TPD"; DefaultUnitPattern := "xl2tpd";
    Contract_DefaultConfigPath := "/etc/xl2tpd/xl2tpd.conf"; Contract_DefaultConfigMode := "0644";
    ProvisioningSupported := false; AccountSupported := false;
    Artifacts := []; InstallStrategies := ["ubuntu_repo"; "manual_present"];
    Contract_RequiresIPForwarding := true;
    Operations := []; HealthChecks := [] |});
  (HTTPProxy, {| Code := HTTPProxy; RuntimeCode := HTTPProxy;
    DisplayName := "HTTP Proxy"; DefaultUnitPattern := "megavpn-http-proxy-<slug>";
    Contract_DefaultConfigPath := "/etc/squid/<slug>.conf"; Contract_DefaultConfigMode := "0644";
    ProvisioningSupported := true; AccountSupported := true;
    Artifacts := [ArtifactHTTPProxyBundle]; InstallStrategies := ["ubuntu_repo"; "manual_present"];
    Contract_RequiresIPForwarding := false;
    Operations := []; HealthChecks := [] |});
  (MTProto, {| Code := MTProto; RuntimeCode := XrayCore;
    DisplayName := "MTProto"; DefaultUnitPattern := "megavpn-mtproto-<slug>";
    Contract_DefaultConfigPath := "/usr/local/etc/xray/<slug>.json"; Contract_DefaultConfigMode := "0640";
    ProvisioningSupported := true; AccountSupported := true;
    Artifacts := [ArtifactMTProtoURL]; InstallStrategies := ["manual_present"];
    Contract_RequiresIPForwarding := false;
    Operations := []; HealthChecks := [] |});
  (Shadowsocks, {| Code := Shadowsocks; RuntimeCode := Shadowsocks;
    DisplayName := "Shadowsocks"; DefaultUnitPattern := "megavpn-shadowsocks-<slug>";
    Contract_DefaultConfigPath := "/etc/shadowsocks-libev/<slug>.json"; Contract_DefaultConfigMode := "0640";
    ProvisioningSupported := true; AccountSupported := true;
    Artifacts := [ArtifactShadowsocksURL]; InstallStrategies := ["binary_repository"; "ubuntu_repo"; "manual_present"];
    Contract_RequiresIPForwarding := false;
    Operations := []; HealthChecks := [] |});
  (Nginx, {| Code := Nginx; RuntimeCode := Nginx;
    DisplayName := "Nginx"; DefaultUnitPattern := "nginx";
    Contract_DefaultConfigPath := "/etc/nginx/conf.d/megavpn-<slug>.conf"; Contract_DefaultConfigMode := "0644";
    ProvisioningSupported := false; AccountSupported := false;
    Artifacts := []; InstallStrategies := ["nginx_org_repo"; "ubuntu_repo"; "manual_present"];
    Contract_RequiresIPForwarding := false;
    Operations := []; HealthChecks := [] |})
].

Definition baseOperations : list OperationSpec := [
  {| op_Code := OperationRender; op_JobType := ""; op_DisplayName := "Render config";
     op_Category := "config"; op_ExecutionTarget := "control-plane"; op_RequiresSpec := true;
     op_RequiresRenderedFiles := false; op_RequiresSystemdUnit := false; op_MutatesConfig := false;
     op_MutatesRuntime := false; op_ConvergesDesiredState := false; op_Destructive := false;
     op_AgentExecutable := false; op_QueuedStatus := ""; op_SetsEnabled := false;
     op_QueuedEnabled := false |};
  {| op_Code := OperationValidate; op_JobType := ""; op_DisplayName := "Validate rendered config";
     op_Category := "config"; op_ExecutionTarget := "agent"; op_RequiresSpec := true;
     op_RequiresRenderedFiles := true; op_RequiresSystemdUnit := false; op_MutatesConfig := false;
     op_MutatesRuntime := false; op_ConvergesDesiredState := false; op_Destructive := false;
     op_AgentExecutable := true; op_QueuedStatus := ""; op_SetsEnabled := false;
     op_QueuedEnabled := false |};
  {| op_Code := OperationApply; op_JobType := "instance.apply"; op_DisplayName := "Apply desired state";
     op_Category := "convergence"; op_ExecutionTarget := "agent"; op_RequiresSpec := true;
     op_RequiresRenderedFiles := true; op_RequiresSystemdUnit := true; op_MutatesConfig := true;
     op_MutatesRuntime := true; op_ConvergesDesiredState := true; op_Destructive := false;
     op_AgentExecutable := true; op_QueuedStatus := "provisioning"; op_SetsEnabled := false;
     op_QueuedEnabled := false |};
  {| op_Code := OperationRestart; op_JobType := "instance.restart"; op_DisplayName := "Restart runtime";
     op_Category := "lifecycle"; op_ExecutionTarget := "agent"; op_RequiresSpec := false;
     op_RequiresRenderedFiles := false; op_RequiresSystemdUnit := true; op_MutatesConfig := false;
     op_MutatesRuntime := true; op_ConvergesDesiredState := false; op_Destructive := false;
     op_AgentExecutable := true; op_QueuedStatus := ""; op_SetsEnabled := false;
     op_QueuedEnabled := false |};
  {| op_Code := OperationStart; op_JobType := "instance.start"; op_DisplayName := "Start runtime";
     op_Category := "lifecycle"; op_ExecutionTarget := "agent"; op_RequiresSpec := false;
     op_RequiresRenderedFiles := false; op_RequiresSystemdUnit := true; op_MutatesConfig := false;
     op_MutatesRuntime := true; op_ConvergesDesiredState := false; op_Destructive := false;
     op_AgentExecutable := true; op_QueuedStatus := "active"; op_SetsEnabled := true;
     op_QueuedEnabled := true |};
  {| op_Code := OperationStop; op_JobType := "instance.stop"; op_DisplayName := "Stop runtime";
     op_Category := "lifecycle"; op_ExecutionTarget := "agent"; op_RequiresSpec := false;
     op_RequiresRenderedFiles := false; op_RequiresSystemdUnit := true; op_MutatesConfig := false;
     op_MutatesRuntime := true; op_ConvergesDesiredState := false; op_Destructive := true;
     op_AgentExecutable := true; op_QueuedStatus := "disabled"; op_SetsEnabled := true;
     op_QueuedEnabled := false |};
  {| op_Code := OperationEnable; op_JobType := "instance.enable"; op_DisplayName := "Enable and start runtime";
     op_Category := "lifecycle"; op_ExecutionTarget := "agent"; op_RequiresSpec := false;
     op_RequiresRenderedFiles := false; op_RequiresSystemdUnit := true; op_MutatesConfig := false;
     op_MutatesRuntime := true; op_ConvergesDesiredState := true; op_Destructive := false;
     op_AgentExecutable := true; op_QueuedStatus := "active"; op_SetsEnabled := true;
     op_QueuedEnabled := true |};
  {| op_Code := OperationDisable; op_JobType := "instance.disable"; op_DisplayName := "Disable and stop runtime";
     op_Category := "lifecycle"; op_ExecutionTarget := "agent"; op_RequiresSpec := false;
     op_RequiresRenderedFiles := false; op_RequiresSystemdUnit := true; op_MutatesConfig := false;
     op_MutatesRuntime := true; op_ConvergesDesiredState := true; op_Destructive := true;
     op_AgentExecutable := true; op_QueuedStatus := "disabled"; op_SetsEnabled := true;
     op_QueuedEnabled := false |};
  {| op_Code := OperationDelete; op_JobType := "instance.delete"; op_DisplayName := "Delete managed runtime";
     op_Category := "lifecycle"; op_ExecutionTarget := "agent"; op_RequiresSpec := true;
     op_RequiresRenderedFiles := true; op_RequiresSystemdUnit := true; op_MutatesConfig := true;
     op_MutatesRuntime := true; op_ConvergesDesiredState := true; op_Destructive := true;
     op_AgentExecutable := true; op_QueuedStatus := "deleting"; op_SetsEnabled := true;
     op_QueuedEnabled := false |}
].

(** ** Code normalisation *)

Definition NormalizeCode (code : string) : string :=
  let code := to_lower (trim_space code) in
  if one_of code ["xray"; "xray-core"; "xray_core"] then XrayCore
  else if one_of code ["openvpn"] then OpenVPN
  else if one_of code ["wireguard"; "wg"; "wg-quick"] then WireGuard
  else if one_of code ["mtproto"; "telegram-mtproto"] then MTProto
  else if one_of code ["nginx"] then Nginx
  else if one_of code ["ipsec"; "strongswan"] then IPSec
  else if one_of code ["http_proxy"; "http-proxy"; "squid"] then HTTPProxy
  else if one_of code ["l2tp"; "l2tpd"; "xl2tpd"] then XL2TPD
  else if one_of code ["shadowsocks"; "shadowsocks-libev"; "ss-server"] then Shadowsocks
  else code.

(** ** Operations *)

Definition NormalizeOperation (value : string) : string :=
  let value := to_lower (trim_space value) in
  if value =s "reload" then OperationRestart
  else if value =s "up" then OperationStart
  else if value =s "down" then OperationStop
  else value.

Definition operationSupportedByContract (contract : Contract) (op : OperationSpec) : bool :=
  if op_Code op =s OperationRender then
    negb (trim_space (Contract_DefaultConfigPath contract) =s "")
  else if op_Code op =s OperationValidate then
    negb (trim_space (Contract_DefaultConfigPath contract) =s "")
  else if op_JobType op =s "" then true
  else negb (trim_space (DefaultUnitPattern contract) =s "").

Definition OperationsFor (code : string) : list OperationSpec :=
  match contracts !! NormalizeCode code with
  | None => []
  | Some contract => List.filter (operationSupportedByContract contract) baseOperations
  end.

Definition OperationFor (code operation : string) : option OperationSpec :=
  let operation := NormalizeOperation operation in
  List.find (λ op, op_Code op =s operation) (OperationsFor code).

Definition SupportsOperation (code operation : string) : bool :=
  match OperationFor code operation with Some _ => true | None => false end.

Definition OperationFromJobType (jobType : string) : option string :=
  let jobType := trim_space jobType in
  op_Code <$> List.find (λ op, op_JobType op =s jobType) baseOperations.

Definition IsInstanceOperationJobType (jobType : string) : bool :=
  match OperationFromJobType jobType with Some _ => true | None => false end.

(** ** Health checks *)

Definition supportsEndpointListeningCheck (code : string) : bool :=
  one_of (NormalizeCode code)
    [XrayCore; OpenVPN; WireGuard; IPSec; HTTPProxy; MTProto; Shadowsocks; Nginx].

Definition HealthChecksFor (code : string) : list HealthCheckSpec :=
  match contracts !! NormalizeCode code with
  | None => []
  | Some contract =>
      (if negb (trim_space (DefaultUnitPattern contract) =s "") then
        [{| hc_Code := "systemd_active"; hc_DisplayName := "Systemd unit active";
            hc_Signal := "active_state"; hc_Source := "agent_runtime_report";
            hc_Required := true; hc_PortSource := ""; hc_ConfigPathSource := "";
            hc_TimeoutSeconds := 5; hc_DegradedOnFail := true |}] else []) ++
      (if negb (trim_space (Contract_DefaultConfigPath contract) =s "") then
        [{| hc_Code := "config_observed"; hc_DisplayName := "Config observed";
            hc_Signal := "config_hash"; hc_Source := "agent_runtime_report";
            hc_Required := true; hc_PortSource := "";
            hc_ConfigPathSource := "driver_default_or_revision_spec";
            hc_TimeoutSeconds := 5; hc_DegradedOnFail := true |}] else []) ++
      (if supportsEndpointListeningCheck (Code contract) then
        [{| hc_Code := "endpoint_listening"; hc_DisplayName := "Endpoint port listening";
            hc_Signal := "listening_ports"; hc_Source := "agent_runtime_report";
            hc_Required := true; hc_PortSource := "instance.endpoint_port";
            hc_ConfigPathSource := "";
            hc_TimeoutSeconds := 5; hc_DegradedOnFail := true |}] else [])
  end.

(** ** Contracts *)

Definition enrichContract (c : Contract) : Contract :=
  {| Code := Code c; RuntimeCode := RuntimeCode c; DisplayName := DisplayName c;
     DefaultUnitPattern := DefaultUnitPattern c;
     Contract_DefaultConfigPath := Contract_DefaultConfigPath c;
     Contract_DefaultConfigMode := Contract_DefaultConfigMode c;
     ProvisioningSupported := ProvisioningSupported c; AccountSupported := AccountSupported c;
     Artifacts := Artifacts c; InstallStrategies := InstallStrategies c;
     Contract_RequiresIPForwarding := Contract_RequiresIPForwarding c;
     Operations := OperationsFor (Code c); HealthChecks := HealthChecksFor (Code c) |}.

Definition ContractFor (code : string) : option Contract :=
  enrichContract <$> contracts !! NormalizeCode code.

(** The fixed listing order; a missing key would give Go's zero contract, which
    [Contracts_complete] rules out. *)
Definition zeroContract : Contract :=
  {| Code := ""; RuntimeCode := ""; DisplayName := ""; DefaultUnitPattern := "";
     Contract_DefaultConfigPath := ""; Contract_DefaultConfigMode := "";
     ProvisioningSupported := false; AccountSupported := false; Artifacts := [];
     InstallStrategies := []; Contract_RequiresIPForwarding := false;
     Operations := []; HealthChecks := [] |}.
Definition Contracts : list Contract :=
  (λ code, enrichContract (default zeroContract (contracts !! code)))
    <$> [XrayCore; OpenVPN; WireGuard; IPSec; XL2TPD; HTTPProxy; MTProto; Shadowsocks; Nginx].

Definition IsProvisioningSupported (code : string) : bool :=
  match ContractFor code with Some c => ProvisioningSupported c | None => false end.

Definition IsValidInstallStrategy (code strategy : string) : bool :=
  match ContractFor code with
  | None => false
  | Some c => existsb (λ item, item =s strategy) (InstallStrategies c)
  end.

Definition IsSupportedArtifactType (value : string) : bool :=
  one_of (to_lower (trim_space value))
    [ArtifactAll; ArtifactZipBundle; ArtifactOpenVPNProfile; ArtifactVLESSURL;
     ArtifactWireGuardConfig; ArtifactMTProtoURL; ArtifactHTTPProxyBundle;
     ArtifactShadowsocksURL; ArtifactIPSecBundle].

Definition NormalizeArtifactType (value : string) : string :=
  let value := to_lower (trim_space value) in
  if value =s "" then ""
  else if IsSupportedArtifactType value then value else value.

(** ** Default locations *)

Definition fallbackSlug (code : string) : string :=
  let code := NormalizeCode code in
  if code =s OpenVPN then "server"
  else if code =s WireGuard then "wg0"
  else if code =s HTTPProxy then "proxy"
  else if code =s Shadowsocks then "shadowsocks"
  else code.

Definition materializePattern (pattern slug fallback : string) : string :=
  let pattern := trim_space pattern in
  if pattern =s "" then ""
  else
    let slug := trim_space slug in
    let slug := if slug =s "" then fallback else slug in
    replace_all "<slug>" slug pattern.

(** The runes an interface name may keep: letters and digits in lower case, [_.+-]. *)
Definition wireguard_rune (r : Z) : bool :=
  ((97 <=? r) && (r <=? 122)) || ((48 <=? r) && (r <=? 57))
  || (r =? 95) || (r =? 46) || (r =? 43) || (r =? 45).

Definition sanitizeWireGuardInterface (value : string) : string :=
  let value := to_lower (trim_space value) in
  trim_set "-" (dash_runs wireguard_rune false (runes value)).

Definition isValidWireGuardInterface (value : string) : bool :=
  if (value =s "") || (15 <? Z.of_nat (String.length value)) || (value =s ".") || (value =s "..")
  then false
  else sanitizeWireGuardInterface value =s value.

Definition WireGuardInterfaceName (seed : string) : string :=
  let seed := trim_space seed in
  let clean := sanitizeWireGuardInterface seed in
  let clean := if clean =s "" then "wg0" else clean in
  if isValidWireGuardInterface clean then clean
  else
    let hashInput := seed in
    let hashInput := if hashInput =s "" then clean else hashInput in
    let hashInput := if hashInput =s "" then "wg" else hashInput in
    let hash := take_bytes 6 (sha256_hex hashInput) in
    let prefix := trim_set "-_.+" clean in
    let prefix := if prefix =s "" then "wg" else prefix in
    let prefix := if 8 <? Z.of_nat (String.length prefix) then take_bytes 8 prefix else prefix in
    trim_set "-_.+" prefix +:+ "-" +:+ hash.

Definition DefaultSystemdUnit (code slug : string) : string :=
  match ContractFor code with
  | None => ""
  | Some c =>
      if NormalizeCode code =s WireGuard then "wg-quick@" +:+ WireGuardInterfaceName slug
      else materializePattern (DefaultUnitPattern c) slug (fallbackSlug (Code c))
  end.

Definition DefaultConfigPath (code slug : string) : string :=
  match ContractFor code with
  | None => ""
  | Some c =>
      if NormalizeCode code =s WireGuard
      then "/etc/wireguard/" +:+ WireGuardInterfaceName slug +:+ ".conf"
      else materializePattern (Contract_DefaultConfigPath c) slug (fallbackSlug (Code c))
  end.

Definition DefaultConfigMode (code : string) : string :=
  match ContractFor code with
  | None => "0644"
  | Some c =>
      if trim_space (Contract_DefaultConfigMode c) =s "" then "0644"
      else Contract_DefaultConfigMode c
  end.

Definition RequiresIPForwarding (code : string) : bool :=
  match ContractFor code with Some c => Contract_RequiresIPForwarding c | None => false end.

Example wireguard_names :
  (WireGuardInterfaceName "", WireGuardInterfaceName " Office VPN ",
   WireGuardInterfaceName "a-very-long-office-name")
  = ("wg0", "office-vpn", "a-very-l-750eb2").
Proof. vm_compute. reflexivity. Qed.

(** ** Lemmas *)

(** [NormalizeCode] answers one of the nine codes or its trimmed lower-case argument. *)
Lemma NormalizeCode_cases code :
  NormalizeCode code ∈ [XrayCore; OpenVPN; WireGuard; MTProto; Nginx; IPSec; HTTPProxy; XL2TPD; Shadowsocks]
  ∨ NormalizeCode code = to_lower (trim_space code).
Proof.
  unfold NormalizeCode. cbv zeta.
  repeat match goal with
  | |- context [if one_of ?x ?l then _ else _] => destruct (one_of x l)
  end; try (by right); left; by apply list_elem_of_In; simpl; tauto.
Qed.

Lemma NormalizeCode_idemp code : NormalizeCode (NormalizeCode code) = NormalizeCode code.
Proof.
  destruct (NormalizeCode_cases code) as [H|E].
  - repeat (apply elem_of_cons in H as [->|H]; [by vm_compute|]). by apply elem_of_nil in H.
  - rewrite E at 1. unfold NormalizeCode. by rewrite trim_to_lower_trim, to_lower_idemp.
Qed.

Lemma NormalizeCode_trimmed code : trim_space (NormalizeCode code) = NormalizeCode code.
Proof.
  destruct (NormalizeCode_cases code) as [H| -> ]; [|apply trim_to_lower_trim].
  repeat (apply elem_of_cons in H as [->|H]; [by vm_compute|]). by apply elem_of_nil in H.
Qed.

Lemma NormalizeCode_nonempty code : trim_space code ≠ "" → NormalizeCode code ≠ "".
Proof.
  intros Hne. destruct (NormalizeCode_cases code) as [H| -> ].
  - intros E. rewrite E in H. repeat (apply elem_of_cons in H as [?|H]; [done|]).
    by apply elem_of_nil in H.
  - by rewrite to_lower_eq_nil.
Qed.

(** *** Interface names *)

Lemma wireguard_rune_range r : wireguard_rune r = true → 0 ≤ r < 128.
Proof. unfold wireguard_rune. lia. Qed.

Definition wireguard_byte (a : ascii) : bool := wireguard_rune (byte_val a).

Lemma wireguard_rune_plain : all_below 128 (λ z,
  if wireguard_rune z then negb (is_space z) && negb ((65 <=? z) && (z <=? 90)) else true) = true.
Proof. vm_compute. reflexivity. Qed.

Lemma wireguard_byte_plain a :
  wireguard_byte a = true → no_upper a = true ∧ no_space a = true ∧ ascii_byte a = true.
Proof.
  unfold wireguard_byte, no_upper, no_space, ascii_byte. intros H.
  pose proof (wireguard_rune_range _ H) as Hr.
  pose proof (all_below_spec 128 _ _ wireguard_rune_plain Hr) as Hp. cbv beta in Hp.
  rewrite H in Hp. apply andb_true_iff in Hp as [Hs Hu].
  replace (byte_val a <? 128) with true by lia. by rewrite Hs, Hu.
Qed.

Lemma sanitize_bytes s : all_bytes wireguard_byte (sanitizeWireGuardInterface s).
Proof.
  unfold sanitizeWireGuardInterface. apply trim_set_bytes.
  eapply all_bytes_impl; [|apply dash_runs_bytes, wireguard_rune_range].
  intros a. unfold wireguard_byte, wireguard_rune. simpl. lia.
Qed.

Definition dash_byte (a : ascii) : bool := existsb (Ascii.eqb a) (bytes "-").

Lemma sanitize_plain s :
  all_bytes wireguard_byte s → sanitizeWireGuardInterface s = trim_set "-" s.
Proof.
  intros H. unfold sanitizeWireGuardInterface.
  rewrite trim_space_no_space by (eapply all_bytes_impl; [|exact H]; apply wireguard_byte_plain).
  rewrite to_lower_no_upper by (eapply all_bytes_impl; [|exact H]; apply wireguard_byte_plain).
  assert (all_bytes ascii_byte s) as Ha.
  { eapply all_bytes_impl; [|exact H]. apply wireguard_byte_plain. }
  rewrite dash_runs_id, runes_ascii, encode_all_bytes; try done.
  rewrite runes_ascii by done. revert H. unfold all_bytes.
  induction (bytes s); [done|]. intros H. inversion H; subst. simpl.
  apply andb_true_iff. auto.
Qed.

(** A name of safe bytes is valid as soon as neither end is a dash. *)
Lemma valid_interface a t z s :
  s = String a t → (∃ x, s = x +:+ String z "") →
  dash_byte a = false → dash_byte z = false →
  all_bytes wireguard_byte s → (String.length s ≤ 15)%nat → s ≠ "." → s ≠ ".." →
  isValidWireGuardInterface s = true.
Proof.
  intros Es [x Ex] Ha Hz Hb Hl H1 H2. unfold isValidWireGuardInterface.
  replace (15 <? Z.of_nat (String.length s)) with false by lia.
  destruct (String.eqb_spec s ""); [by subst|].
  destruct (String.eqb_spec s "."); [done|]. destruct (String.eqb_spec s ".."); [done|]. simpl.
  apply String.eqb_eq. rewrite sanitize_plain by done. unfold trim_set. fold dash_byte.
  rewrite Es at 1. rewrite trim_left_set_keep, <-Es by done.
  rewrite Ex. by apply trim_right_set_id.
Qed.

Lemma hex_byte_wireguard a : is_hex a = true → wireguard_byte a = true ∧ dash_byte a = false.
Proof.
  unfold is_hex, wireguard_byte, wireguard_rune, dash_byte. intros H. split; [lia|].
  simpl. rewrite orb_false_r. apply Ascii.eqb_neq. intros ->. vm_compute in H. done.
Qed.

Definition edge_byte (a : ascii) : bool := existsb (Ascii.eqb a) (bytes "-_.+").

Lemma edge_dash a : edge_byte a = false → dash_byte a = false.
Proof. unfold edge_byte, dash_byte. simpl. intros. by destruct (Ascii.eqb a "-"). Qed.

(** A trimmed string that is not empty still starts with a byte outside the cutset. *)
Lemma trim_edges_head s a t : trim_set "-_.+" s = String a t → edge_byte a = false.
Proof.
  unfold trim_set. fold edge_byte. intros E.
  destruct (trim_left_set edge_byte s) as [|b u] eqn:El; [done|].
  pose proof (trim_left_set_head _ _ _ _ El) as Hb.
  destruct (trim_right_set_keep edge_byte b u Hb) as [v Ev].
  rewrite Ev in E. by injection E as <- _.
Qed.

Lemma trim_edges_keep a t : edge_byte a = false → ∃ u, trim_set "-_.+" (String a t) = String a u.
Proof.
  intros Ha. unfold trim_set. fold edge_byte. rewrite trim_left_set_keep by done.
  by apply trim_right_set_keep.
Qed.

Lemma take_six_hex s : ∃ h5 z, take_bytes 6 (sha256_hex s) = h5 +:+ String z ""
  ∧ is_hex z = true ∧ all_bytes is_hex (take_bytes 6 (sha256_hex s)).
Proof.
  pose proof (sha256_hex_hex s) as Hh. pose proof (length_sha256_hex s) as Hl.
  assert (all_bytes is_hex (take_bytes 6 (sha256_hex s))) as Ha by by apply take_bytes_bytes.
  destruct (sha256_hex s) as [|a [|b [|c [|d [|e [|f t]]]]]]; try discriminate Hl.
  exists (String a (String b (String c (String d (String e ""))))), f.
  repeat split; [|done]. unfold all_bytes, bytes in Ha. simpl in Ha.
  rewrite Forall_forall in Ha. apply Ha. set_solver.
Qed.

(** ** Theorems *)

(** [WireGuardInterfaceName] always yields a name the kernel accepts: whatever the
    seed (empty, over-long, non-ASCII, only punctuation), the result passes
    [isValidWireGuardInterface], so it is at most 15 bytes of [a-z0-9_.+-]. *)
Theorem WireGuardInterfaceName_valid seed :
  isValidWireGuardInterface (WireGuardInterfaceName seed) = true.
Proof.
  unfold WireGuardInterfaceName. cbv zeta.
  set (clean := if sanitizeWireGuardInterface _ =s "" then "wg0" else _).
  assert (all_bytes wireguard_byte clean) as Hc.
  { subst clean. case_match; [by repeat constructor|apply sanitize_bytes]. }
  destruct (isValidWireGuardInterface clean) eqn:Ev; [done|].
  generalize (if (if trim_space seed =s "" then clean else trim_space seed) =s "" then "wg"
              else if trim_space seed =s "" then clean else trim_space seed). intros hin.
  set (p0 := if trim_set "-_.+" clean =s "" then "wg" else trim_set "-_.+" clean).
  assert (all_bytes wireguard_byte p0 ∧ ∃ a t, p0 = String a t ∧ edge_byte a = false)
    as [Hp0 (a & t & Ep0 & Ha)].
  { subst p0. destruct (trim_set "-_.+" clean) as [|a t] eqn:Et; simpl.
    - split; [by repeat constructor|]. eauto.
    - split; [rewrite <-Et; by apply trim_set_bytes|]. exists a, t. split; [done|].
      by eapply trim_edges_head. }
  set (p1 := if 8 <? Z.of_nat (String.length p0) then take_bytes 8 p0 else p0).
  assert (all_bytes wireguard_byte p1 ∧ (String.length p1 ≤ 8)%nat ∧ ∃ u, p1 = String a u)
    as (Hp1 & Hl1 & u & Ep1).
  { subst p1. destruct (8 <? _) eqn:E8.
    - split; [by apply take_bytes_bytes|]. split; [apply take_bytes_length|].
      rewrite Ep0. simpl. eauto.
    - split; [done|]. split; [lia|eauto]. }
  destruct (trim_edges_keep a u Ha) as [v Ev1]. rewrite <-Ep1 in Ev1.
  pose proof (trim_set_length "-_.+" p1) as Hlt.
  assert (all_bytes wireguard_byte (trim_set "-_.+" p1)) as Hpt by by apply trim_set_bytes.
  destruct (take_six_hex hin) as (h5 & z & Eh & Hz & Hh).
  pose proof (take_bytes_length 6 (sha256_hex hin)) as Hl6.
  rewrite Ev1 in *. clear Ev1.
  apply (valid_interface a (v +:+ "-" +:+ take_bytes 6 (sha256_hex hin)) z).
  - done.
  - exists (String a v +:+ "-" +:+ h5). by rewrite Eh, !sapp_assoc.
  - by apply edge_dash.
  - by apply hex_byte_wireguard.
  - rewrite !all_bytes_app. split; [done|]. split; [by repeat constructor|].
    eapply all_bytes_impl; [|exact Hh]. intros. by apply hex_byte_wireguard.
  - rewrite !length_sapp. change (String.length "-") with 1%nat. lia.
  - intros E. apply (f_equal String.length) in E. rewrite !length_sapp, Eh, length_sapp in E.
    simpl in E. lia.
  - intros E. apply (f_equal String.length) in E. rewrite !length_sapp, Eh, length_sapp in E.
    simpl in E. lia.
Qed.

(** *** Operations and contracts *)

(** The codes [OperationsFor] lists are those of [baseOperations], because every
    contract of the catalogue has a unit pattern and a configuration path. *)
Lemma contracts_complete code c :
  contracts !! code = Some c →
  Code c = code ∧ NormalizeCode code = code
  ∧ List.filter (operationSupportedByContract c) baseOperations = baseOperations.
Proof.
  intros H%elem_of_list_to_map_2.
  repeat (apply elem_of_cons in H as [H|H]; [injection H as -> ->; by vm_compute|]).
  by apply elem_of_nil in H.
Qed.

Lemma OperationsFor_known code c :
  contracts !! NormalizeCode code = Some c → OperationsFor code = baseOperations.
Proof.
  intros H. unfold OperationsFor. rewrite H. by apply contracts_complete in H as (_ & _ & ?).
Qed.

Definition operation_codes : list string := op_Code <$> baseOperations.

Lemma find_op_code operation :
  match List.find (λ op, op_Code op =s operation) baseOperations with
  | Some op => op_Code op = operation ∧ op ∈ baseOperations
  | None => operation ∉ operation_codes
  end.
Proof.
  destruct (List.find _ _) as [op|] eqn:E.
  - apply find_some in E as [Hin ->%String.eqb_eq]. split; [done|by apply list_elem_of_In].
  - intros (op & -> & Hin%list_elem_of_In)%list_elem_of_fmap.
    pose proof (find_none _ _ E op Hin) as H. simpl in H. by rewrite String.eqb_refl in H.
Qed.

(** [SupportsOperation] holds exactly for a catalogued service and one of the
    nine operations: no contract withholds an operation. *)
Theorem SupportsOperation_spec code operation :
  SupportsOperation code operation = true ↔
  is_Some (contracts !! NormalizeCode code) ∧ NormalizeOperation operation ∈ operation_codes.
Proof.
  unfold SupportsOperation, OperationFor.
  destruct (contracts !! NormalizeCode code) as [c|] eqn:E.
  - rewrite (OperationsFor_known _ _ E).
    pose proof (find_op_code (NormalizeOperation operation)) as Hf.
    destruct (List.find _ _) as [op|].
    + destruct Hf as [<- Hin]. split; [|done]. intros _. split; [done|].
      apply list_elem_of_fmap. eauto.
    + split; [done|]. by intros [_ ?].
  - unfold OperationsFor. rewrite E. simpl. split; [done|]. by intros [[? ?] _].
Qed.

(** The seven job-backed operations: [OperationFromJobType] inverts the naming
    scheme [instance.<code>], and every job type it accepts (other than the empty
    one) is in that scheme. *)
Theorem OperationFromJobType_roundtrip jobType code :
  trim_space jobType ≠ "" →
  OperationFromJobType jobType = Some code ↔
  trim_space jobType = "instance." +:+ code ∧
  code ∈ [OperationApply; OperationRestart; OperationStart; OperationStop;
          OperationEnable; OperationDisable; OperationDelete].
Proof.
  intros Hne. unfold OperationFromJobType. set (jt := trim_space jobType) in *. split.
  - destruct (List.find _ _) as [op|] eqn:E; [|done]. intros [= <-].
    apply find_some in E as [Hin Hj%String.eqb_eq].
    repeat (destruct Hin as [<-|Hin];
      [first [by destruct Hne | split; [by rewrite <-Hj|by apply list_elem_of_In; simpl; tauto]]|]).
    done.
  - intros [-> Hin]. repeat (apply elem_of_cons in Hin as [->|Hin]; [reflexivity|]).
    by apply elem_of_nil in Hin.
Qed.

(** The empty job type is accepted as the [render] operation: the two operations
    without a job have the empty [JobType]. *)
Lemma OperationFromJobType_blank jobType :
  trim_space jobType = "" →
  OperationFromJobType jobType = Some OperationRender ∧ IsInstanceOperationJobType jobType = true.
Proof.
  intros E. unfold IsInstanceOperationJobType.
  assert (OperationFromJobType jobType = Some OperationRender) as ->; [|done].
  unfold OperationFromJobType. by rewrite E.
Qed.

Lemma OperationFromJobType_blank_witness :
  trim_space "  " = "" ∧ OperationFromJobType "  " = Some OperationRender
  ∧ IsInstanceOperationJobType "  " = true.
Proof.
  split; [by vm_compute|]. apply (OperationFromJobType_blank "  "). by vm_compute.
Defined.

Lemma OperationFromJobType_roundtrip_witness :
  OperationFromJobType " instance.stop " = Some OperationStop.
Proof.
  apply (OperationFromJobType_roundtrip " instance.stop " OperationStop).
  - by vm_compute.
  - split; [by vm_compute|]. apply list_elem_of_In. simpl. tauto.
Defined.
