(* ===== verification/Backhaul.v ===== *)
(** * The backhaul catalogue

    [internal/backhaul/contract.go]: the tunnel drivers two nodes can be
    linked by, the lookup of a driver under any spelling, and the checks on a
    driver code and on a tunnel prefix. *)
From S2P Require Import Prelude GoStrings Netip.
From Stdlib Require Import Ascii.
From stdpp Require Import options.
Open Scope Z_scope.

Ltac Zify.zify_post_hook ::= Z.to_euclidean_division_equations.

Module Backhaul.

Definition DriverWireGuard : string := "wireguard".
Definition DriverOpenVPNUDP : string := "openvpn_udp".
Definition DriverOpenVPNTCP443 : string := "openvpn_tcp_443".
Definition DriverIPSecL2TP : string := "ipsec_l2tp".
Definition DriverIKEv2 : string := "ikev2".
Definition DriverXrayVLESSWS : string := "xray_vless_ws_tls".
Definition DriverXrayVLESSGRPC : string := "xray_vless_grpc_tls".
Definition DriverXrayReality : string := "xray_vless_reality".
Definition DriverXrayTUNVLESS : string := "xray_tun_vless".

Record DriverDefinition := {
  Code : string; Label : string; Layer : string; DefaultPort : Z; DefaultProtocol : string;
  ActivationMode : string; SupportsKernelRoutes : bool;
  Capabilities : list string; Warnings : list string }.

Definition Catalog : list DriverDefinition := [
  {| Code := DriverWireGuard; Label := "WireGuard L3"; Layer := "l3"; DefaultPort := 51830;
     DefaultProtocol := "udp"; ActivationMode := "managed_systemd"; SupportsKernelRoutes := true;
     Capabilities := ["wireguard"];
     Warnings := [] |};
  {| Code := DriverOpenVPNUDP; Label := "OpenVPN UDP P2P"; Layer := "l3"; DefaultPort := 11950;
     DefaultProtocol := "udp"; ActivationMode := "managed_systemd"; SupportsKernelRoutes := true;
     Capabilities := ["openvpn"];
     Warnings := ["Static-key OpenVPN P2P is a fallback transport; prefer certificate mode before broad production rollout."] |};
  {| Code := DriverOpenVPNTCP443; Label := "OpenVPN TCP 443 P2P"; Layer := "l3"; DefaultPort := 443;
     DefaultProtocol := "tcp"; ActivationMode := "managed_systemd"; SupportsKernelRoutes := true;
     Capabilities := ["openvpn"];
     Warnings := ["TCP-over-TCP can degrade throughput; use only as blocked-UDP fallback."] |};
  {| Code := DriverIPSecL2TP; Label := "L2TP + IPsec"; Layer := "l3"; DefaultPort := 1701;
     DefaultProtocol := "udp"; ActivationMode := "materialize_only"; SupportsKernelRoutes := true;
     Capabilities := ["ipsec"; "xl2tpd"];
     Warnings := ["Requires host-level strongSwan/xl2tpd integration before auto activation."] |};
  {| Code := DriverIKEv2; Label := "IKEv2 / IPsec"; Layer := "l3"; DefaultPort := 500;
     DefaultProtocol := "udp"; ActivationMode := "materialize_only"; SupportsKernelRoutes := true;
     Capabilities := ["ipsec"];
     Warnings := ["Requires site-to-site swanctl/ipsec profile before auto activation."] |};
  {| Code := DriverXrayVLESSWS; Label := "Xray VLESS WebSocket TLS"; Layer := "proxy"; DefaultPort := 443;
     DefaultProtocol := "tcp"; ActivationMode := "materialize_only"; SupportsKernelRoutes := false;
     Capabilities := ["xray-core"];
     Warnings := ["Proxy/camouflage transport; kernel L3 routing needs an explicit TUN/TProxy stage."] |};
  {| Code := DriverXrayVLESSGRPC; Label := "Xray VLESS gRPC TLS"; Layer := "proxy"; DefaultPort := 443;
     DefaultProtocol := "tcp"; ActivationMode := "materialize_only"; SupportsKernelRoutes := false;
     Capabilities := ["xray-core"];
     Warnings := ["Proxy/camouflage transport; kernel L3 routing needs an explicit TUN/TProxy stage."] |};
  {| Code := DriverXrayReality; Label := "Xray VLESS Reality"; Layer := "proxy"; DefaultPort := 443;
     DefaultProtocol := "tcp"; ActivationMode := "materialize_only"; SupportsKernelRoutes := false;
     Capabilities := ["xray-core"];
     Warnings := ["Reality is suitable for camouflage, not direct L3 routing by itself."] |};
  {| Code := DriverXrayTUNVLESS; Label := "Xray TUN over VLESS"; Layer := "l3_over_proxy"; DefaultPort := 443;
     DefaultProtocol := "tcp"; ActivationMode := "materialize_only"; SupportsKernelRoutes := true;
     Capabilities := ["xray-core"];
     Warnings := ["Requires careful Linux policy routing and loop protection before auto activation."] |}].
Definition NormalizeDriver (driver : string) : string :=
  to_lower (trim_space (replace_char "-" "_" driver)).

(** The Go function [Definition]: [None] is its [(DriverDefinition{}, false)]. *)
Definition definition (driver : string) : option DriverDefinition :=
  let driver := NormalizeDriver driver in
  List.find (λ def, Code def =s driver) Catalog.

Definition SupportedDrivers : list string := sort_strings (Code <$> Catalog).

Inductive error :=
| UnsupportedDriver (driver : string)
| TunnelCIDRRequired
| TunnelCIDRInvalid
| TunnelCIDRNotPointToPoint.

Definition ValidateDriver (driver : string) : result error () :=
  match definition driver with
  | None => Err (UnsupportedDriver (trim_space driver))
  | Some _ => Ok tt
  end.

Definition IsL3Capable (driver : string) : bool :=
  match definition driver with
  | Some def => SupportsKernelRoutes def
  | None => false
  end.

Definition ValidateTunnelCIDR (value : string) : result error () :=
  let value := trim_space value in
  if value =s "" then Err TunnelCIDRRequired
  else match ParsePrefix value with
  | None => Err TunnelCIDRInvalid
  | Some prefix =>
      if negb (Is4 (prefix_addr prefix)) || (30 <? prefix_bits prefix)
      then Err TunnelCIDRNotPointToPoint
      else Ok tt
  end.

(** ** Theorems *)

Lemma NormalizeDriver_no_dash driver : "-"%char ∉ bytes (NormalizeDriver driver).
Proof.
  unfold NormalizeDriver. intros H.
  apply to_lower_byte, trim_space_byte, replace_char_byte in H; [done| |done|].
  - vm_compute. by intros ?%list_elem_of_singleton.
  - vm_compute. by intros [? _].
Qed.

Lemma NormalizeDriver_idemp driver : NormalizeDriver (NormalizeDriver driver) = NormalizeDriver driver.
Proof.
  unfold NormalizeDriver at 1. rewrite replace_char_id by apply NormalizeDriver_no_dash.
  unfold NormalizeDriver. by rewrite trim_to_lower_trim, to_lower_idemp.
Qed.

Lemma SupportedDrivers_codes code : code ∈ SupportedDrivers ↔ ∃ d, d ∈ Catalog ∧ Code d = code.
Proof.
  assert (SupportedDrivers ≡ₚ Code <$> Catalog) as -> by apply isort_perm.
  rewrite list_elem_of_fmap. naive_solver.
Qed.

Lemma Catalog_codes_normal : forallb (λ d, NormalizeDriver (Code d) =s Code d) Catalog = true.
Proof. by vm_compute. Qed.

Lemma NormalizeDriver_trimmed driver : trim_space (NormalizeDriver driver) = NormalizeDriver driver.
Proof. apply trim_to_lower_trim. Qed.

Lemma ValidateDriver_code driver :
  ValidateDriver driver = Ok tt → NormalizeDriver driver ∈ SupportedDrivers.
Proof.
  unfold ValidateDriver. destruct (definition driver) as [d|] eqn:E; [|done]. intros _.
  apply List.find_some in E as [Hin E%String.eqb_eq]. apply SupportedDrivers_codes.
  exists d. split; [by apply list_elem_of_In|done].
Qed.

(** One spelling-insensitive lookup drives every check on a driver: it finds
    the catalogue entry whose code is the normalised spelling, and the three
    checks agree on it. *)
Lemma driver_lookup driver :
  (ValidateDriver driver = Ok tt ↔ NormalizeDriver driver ∈ SupportedDrivers)
  ∧ definition (NormalizeDriver driver) = definition driver
  ∧ (∀ def, definition driver = Some def →
       def ∈ Catalog ∧ Code def = NormalizeDriver driver ∧ definition (Code def) = Some def
       ∧ IsL3Capable driver = negb (Layer def =s "proxy")).
Proof.
  assert (∀ def, definition driver = Some def → def ∈ Catalog ∧ Code def = NormalizeDriver driver) as Hf.
  { intros def H. apply List.find_some in H as [H1 H2%String.eqb_eq]. by apply list_elem_of_In in H1. }
  assert (definition (NormalizeDriver driver) = definition driver) as Hn.
  { unfold definition. by rewrite NormalizeDriver_idemp. }
  split_and!; [|done|].
  - rewrite SupportedDrivers_codes. unfold ValidateDriver. split.
    + destruct (definition driver) as [d|]; [|done]. intros _. exists d. naive_solver.
    + intros (d & Hd & Hc). destruct (definition driver) as [d'|] eqn:E; [done|].
      apply (List.find_none _ _ E) in Hd || apply list_elem_of_In, (List.find_none _ _ E) in Hd.
      simpl in Hd. by rewrite Hc, String.eqb_refl in Hd.
  - intros def H. destruct (Hf def H) as [Hin Hc]. split_and!; [done|done| |].
    + rewrite Hc, Hn. done.
    + unfold IsL3Capable. rewrite H. clear -Hin.
      assert (forallb (λ d, Bool.eqb (SupportsKernelRoutes d) (negb (Layer d =s "proxy"))) Catalog = true) as Ha
        by (by vm_compute).
      rewrite forallb_forall in Ha. apply eqb_prop, Ha. by apply list_elem_of_In.
Qed.

(** A tunnel prefix is accepted exactly when its trimmed text is an IPv4 CIDR
    of at most 30 bits; the network it masks to then holds two distinct
    addresses beside its first and its last one. *)
Theorem ValidateTunnelCIDR_hosts value :
  ValidateTunnelCIDR value = Ok tt →
  ∃ net bits, 0 ≤ bits ≤ 30 ∧ Masked <$> ParsePrefix (trim_space value) = Some (Prefix (V4 net) bits)
    ∧ let last := net + 2 ^ (32 - bits) - 1 in
      last < two32
      ∧ ∃ a b, net < a < b ∧ b < last
        ∧ Contains (Prefix (V4 net) bits) (V4 a) = true
        ∧ Contains (Prefix (V4 net) bits) (V4 b) = true.
Proof.
  unfold ValidateTunnelCIDR. destruct (_ =s ""); [done|].
  destruct (ParsePrefix (trim_space value)) as [[a bits]|] eqn:E; [|done]. simpl.
  destruct (Is4 a) eqn:H4; [|done]. destruct (Z.ltb_spec 30 bits); [done|]. intros _.
  destruct a as [n|]; [|done]. pose proof (ParsePrefix_ok _ _ E) as (Ha & _ & Hb). simpl in *.
  unfold two32 in *. set (m := 2 ^ (32 - bits)).
  assert (4 ≤ m ∧ m * 2 ^ bits = 4294967296) as [Hm Hp].
  { unfold m. split.
    - change 4 with (2 ^ 2). apply Z.pow_le_mono_r; lia.
    - rewrite <-Z.pow_add_r by lia. by replace (32 - bits + bits) with 32 by lia. }
  assert (0 < 2 ^ bits) as Hp0 by (apply Z.pow_pos_nonneg; lia).
  set (net := mask_value 32 bits n). exists net, bits.
  assert (net = m * (n / m)) as Hnet by (unfold net, mask_value; fold m; lia).
  assert (n / m < 2 ^ bits) as Hq by (apply Z.div_lt_upper_bound; lia).
  assert (0 ≤ n / m) as Hq0 by (apply Z.div_pos; lia).
  assert (∀ k, 0 ≤ k < m → Contains (Prefix (V4 net) bits) (V4 (net + k)) = true) as Hc.
  { intros k Hk. unfold Contains, mask_value. simpl. fold m. apply Z.eqb_eq.
    rewrite Hnet. rewrite (Z.mul_comm m (n / m)), Z.mod_mul, Z.add_comm, Z.mod_add, (Z.mod_small k) by lia. lia. }
  split_and!; [lia|lia|done|nia|].
  exists (net + 1), (net + 2). split_and!; [lia|lia|lia|apply Hc; lia|apply Hc; lia].
Qed.

Lemma ValidateTunnelCIDR_hosts_witness :
  ValidateTunnelCIDR " 10.77.0.5/30 " = Ok tt ∧
  ∃ net bits, 0 ≤ bits ≤ 30 ∧ Masked <$> ParsePrefix "10.77.0.5/30" = Some (Prefix (V4 net) bits)
    ∧ let last := net + 2 ^ (32 - bits) - 1 in
      last < two32
      ∧ ∃ a b, net < a < b ∧ b < last
        ∧ Contains (Prefix (V4 net) bits) (V4 a) = true
        ∧ Contains (Prefix (V4 net) bits) (V4 b) = true.
Proof.
  split; [vm_compute; reflexivity|].
  apply (ValidateTunnelCIDR_hosts " 10.77.0.5/30 "). vm_compute. reflexivity.
Defined.

End Backhaul.
