(* ===== verification/ExternalEgress.v ===== *)
(** * The catalogue of external egress protocols

    [internal/externalegress/catalog.go]: the third-party tunnel and proxy
    protocols a node can leave through, their spellings, and the subset whose
    runtime is ready. *)
From S2P Require Import Prelude GoStrings.
From Stdlib Require Import Ascii.
From stdpp Require Import options.
Open Scope Z_scope.

Module ExternalEgress.

Definition RuntimeReady : string := "ready".
Definition RuntimePreview : string := "preview".
Definition RuntimePlanned : string := "planned".

Record ProtocolDefinition := {
  Code : string; Label : string; Category : string; RuntimeSupport : string;
  ImportFormats : list string; CredentialModes : list string;
  Transports : list string; Notes : string }.

Definition protocolCatalog : list ProtocolDefinition := [
  {| Code := "openvpn"; Label := "OpenVPN"; Category := "tunnel"; RuntimeSupport := RuntimeReady;
     ImportFormats := ["ovpn"; "inline"];
     CredentialModes := ["config_file"; "username_password"; "certificate_private_key"];
     Transports := ["udp"; "tcp"];
     Notes := "Parsed client profile with managed route isolation." |};
  {| Code := "wireguard"; Label := "WireGuard"; Category := "tunnel"; RuntimeSupport := RuntimeReady;
     ImportFormats := ["conf"; "inline"];
     CredentialModes := ["config_file"; "private_key"; "preshared_key"];
     Transports := ["udp"];
     Notes := "Managed wg-quick client profile with a dedicated routing table." |};
  {| Code := "socks5"; Label := "SOCKS5 proxy"; Category := "proxy"; RuntimeSupport := RuntimePreview;
     ImportFormats := ["structured"];
     CredentialModes := ["username_password"; "none"];
     Transports := ["tcp"];
     Notes := "Can be used by proxy-aware runtimes; transparent L3 routing requires a managed TUN adapter." |};
  {| Code := "http_connect"; Label := "HTTP CONNECT proxy"; Category := "proxy"; RuntimeSupport := RuntimePreview;
     ImportFormats := ["structured"; "url"];
     CredentialModes := ["username_password"; "none"];
     Transports := ["tcp"; "tls"];
     Notes := "Can be used by proxy-aware runtimes; transparent L3 routing requires a managed TUN adapter." |};
  {| Code := "shadowsocks"; Label := "Shadowsocks"; Category := "proxy_tunnel"; RuntimeSupport := RuntimeReady;
     ImportFormats := ["url"; "json"];
     CredentialModes := ["password"];
     Transports := ["tcp"; "udp"];
     Notes := "Runs as an isolated loopback Xray proxy and is selected only by assigned client access groups." |};
  {| Code := "vless"; Label := "VLESS"; Category := "proxy_tunnel"; RuntimeSupport := RuntimeReady;
     ImportFormats := ["url"; "json"];
     CredentialModes := ["uuid"];
     Transports := ["tcp"; "ws"; "grpc"; "httpupgrade"; "xhttp"];
     Notes := "Runs as an isolated loopback Xray proxy with mandatory TLS or REALITY security." |};
  {| Code := "l2tp"; Label := "L2TP"; Category := "tunnel"; RuntimeSupport := RuntimePlanned;
     ImportFormats := ["structured"];
     CredentialModes := ["username_password"];
     Transports := ["udp"];
     Notes := "Unencrypted L2TP is catalogued but cannot be activated because it is not safe for production." |};
  {| Code := "l2tp_ipsec"; Label := "L2TP over IPsec"; Category := "tunnel"; RuntimeSupport := RuntimeReady;
     ImportFormats := ["key_value"; "json"];
     CredentialModes := ["username_password"; "psk"; "certificate_private_key"];
     Transports := ["udp"; "ipsec"];
     Notes := "Managed strongSwan + xl2tpd client with an isolated PPP interface and fail-closed policy routing." |};
  {| Code := "ikev2"; Label := "IKEv2 / IPsec"; Category := "tunnel"; RuntimeSupport := RuntimePlanned;
     ImportFormats := ["structured"; "mobileconfig"];
     CredentialModes := ["username_password"; "certificate_private_key"; "psk"];
     Transports := ["udp"; "ipsec"];
     Notes := "Preferred IPsec family option; client-mode runtime driver is planned." |};
  {| Code := "trojan"; Label := "Trojan"; Category := "proxy_tunnel"; RuntimeSupport := RuntimePlanned;
     ImportFormats := ["url"; "json"; "structured"];
     CredentialModes := ["password"; "certificate"];
     Transports := ["tls"];
     Notes := "Catalogued for a future managed TUN runtime." |};
  {| Code := "hysteria2"; Label := "Hysteria 2"; Category := "proxy_tunnel"; RuntimeSupport := RuntimePlanned;
     ImportFormats := ["url"; "yaml"; "structured"];
     CredentialModes := ["password"; "certificate"];
     Transports := ["quic"];
     Notes := "Catalogued for a future managed TUN runtime." |}].

Definition Catalog : list ProtocolDefinition := protocolCatalog.

Definition AvailableCatalog : list ProtocolDefinition :=
  filter (λ item, RuntimeSupport item = RuntimeReady) protocolCatalog.

Definition NormalizeProtocol (value : string) : string :=
  let v := to_lower (trim_space value) in
  if one_of v ["ovpn"; "openvpn_udp"; "openvpn_tcp"; "openvpn"] then "openvpn"
  else if one_of v ["wg"; "wireguard"] then "wireguard"
  else if one_of v ["http"; "https"; "http_proxy"; "connect"; "http_connect"] then "http_connect"
  else if one_of v ["socks"; "socks5"] then "socks5"
  else if one_of v ["ss"; "shadowsocks"] then "shadowsocks"
  else if one_of v ["xray"; "xray-core"; "vless"] then "vless"
  else if one_of v ["l2tp+ipsec"; "l2tp_ipsec"; "xl2tpd_ipsec"] then "l2tp_ipsec"
  else if one_of v ["ipsec"; "ikev2"] then "ikev2"
  else to_lower (trim_space value).

(** The Go function [Definition]: [None] is its [(ProtocolDefinition{}, false)]. *)
Definition definition (code : string) : option ProtocolDefinition :=
  let code := NormalizeProtocol code in
  List.find (λ item, Code item =s code) protocolCatalog.

(** ** Theorems *)

Lemma NormalizeProtocol_cases value :
  NormalizeProtocol value ∈ ["openvpn"; "wireguard"; "http_connect"; "socks5"; "shadowsocks"; "vless"; "l2tp_ipsec"; "ikev2"]
  ∨ NormalizeProtocol value = to_lower (trim_space value).
Proof.
  unfold NormalizeProtocol. cbv zeta.
  repeat match goal with
  | |- context [if one_of ?x ?l then _ else _] => destruct (one_of x l)
  end; try (by right); left; apply list_elem_of_In; simpl; tauto.
Qed.

Lemma NormalizeProtocol_idemp value : NormalizeProtocol (NormalizeProtocol value) = NormalizeProtocol value.
Proof.
  destruct (NormalizeProtocol_cases value) as [H|E].
  - repeat (apply elem_of_cons in H as [->|H]; [by vm_compute|]). by apply elem_of_nil in H.
  - rewrite E at 1. unfold NormalizeProtocol. by rewrite trim_to_lower_trim, to_lower_idemp.
Qed.

Lemma NormalizeProtocol_trimmed value : trim_space (NormalizeProtocol value) = NormalizeProtocol value.
Proof.
  destruct (NormalizeProtocol_cases value) as [H| -> ]; [|apply trim_to_lower_trim].
  repeat (apply elem_of_cons in H as [->|H]; [by vm_compute|]). by apply elem_of_nil in H.
Qed.

Lemma NormalizeProtocol_nonempty value : trim_space value ≠ "" → NormalizeProtocol value ≠ "".
Proof.
  intros Hne. destruct (NormalizeProtocol_cases value) as [H| -> ].
  - intros E. rewrite E in H. repeat (apply elem_of_cons in H as [?|H]; [done|]).
    by apply elem_of_nil in H.
  - by rewrite to_lower_eq_nil.
Qed.

Lemma definition_normal code : definition (NormalizeProtocol code) = definition code.
Proof. unfold definition. by rewrite NormalizeProtocol_idemp. Qed.

(** Every spelling of a protocol finds the entry its normal form names, and
    the entry is offered exactly when its runtime is ready. *)
Lemma protocol_lookup code :
  definition (NormalizeProtocol code) = definition code
  ∧ ∀ item, definition code = Some item →
      item ∈ Catalog ∧ Code item = NormalizeProtocol code ∧ definition (Code item) = Some item
      ∧ (item ∈ AvailableCatalog ↔ RuntimeSupport item = RuntimeReady).
Proof.
  pose proof (definition_normal code) as Hn. split; [done|]. intros item H. pose proof H as [Hin Hc%String.eqb_eq]%List.find_some.
  apply list_elem_of_In in Hin. split_and!; [done|done|by rewrite Hc, Hn|].
  unfold AvailableCatalog. rewrite list_elem_of_filter. naive_solver.
Qed.

Lemma protocol_lookup_witness :
  ∃ item, definition " WG " = Some item ∧ Code item = "wireguard" ∧ item ∈ AvailableCatalog.
Proof.
  destruct (definition " WG ") as [item|] eqn:E; [|vm_compute in E; discriminate E].
  destruct (protocol_lookup " WG ") as [_ H]. destruct (H item E) as (_ & Hc & _ & Ha).
  exists item. split; [reflexivity|]. split; [rewrite Hc; vm_compute; reflexivity|].
  apply Ha. vm_compute in E. injection E as <-. reflexivity.
Defined.

End ExternalEgress.
