(* ===== verification/JobSchema.v ===== *)
(** * Job payload normalisation

    [internal/jobschema/jobschema.go]: what a payload of each job type must
    hold before the job is stored.  [Normalize] dispatches on the trimmed job
    type; one definition below per [case].  [payload] is read throughout,
    [normalized] (the clone) is rebound where the code writes to it, and an
    early [return nil, err] is the error of the monad. *)
From S2P Require Import Prelude GoStrings Strconv GoValue Driver Backhaul ExternalEgress.
From Stdlib Require Import Ascii.
From stdpp Require Import options.
Open Scope Z_scope.

(** ** Validation errors: one constructor per format string *)

Inductive ValidationError : Type :=
| MustBe (key what : string)                (* payload.%s must be ... *)
| Required (key : string)                   (* payload.%s is required *)
| MustBeOneOf (key : string) (values : list string)
| DriverRejected (e : Backhaul.error)       (* the message of backhaul.ValidateDriver *)
| ProtocolUnsupported
| ProtocolNotReady
| Invalid (key : string)                    (* payload.%s is invalid *)
| OutsideManagedRange (key : string)        (* payload.%s is outside the managed range *)
| InvalidPort (key : string) (port : Z)
| ElementMustBeObject (field : string) (idx : nat)
| MustBeArray (field : string)
| TokenRefRequired
| PlaintextToken
| OperationUnsupported (runtime : bool) (driver operation : string)
| CodeOrUnitRequired
| ArtifactTypeUnsupported
| UnsupportedInstanceJobType (jobType : string)
| UnsupportedJobType (jobType : string).

Notation R := (result ValidationError).

(** ** Readers *)

Definition optionalString (payload : gomap) (key : string) : R string :=
  match payload !! key with
  | None | Some ANil => Ok ""
  | Some (AString value) => Ok (trim_space value)
  | Some (AStringer value) => Ok (trim_space value)
  | _ => Err (MustBe key "a string")
  end.

Definition requireString (payload : gomap) (key : string) : R string :=
  value ← optionalString payload key;
  if value =s "" then Err (Required key) else Ok value.

(** A [map[string]map[string]any] copied into a [map[string]any]. *)
Definition widen_map (typed : gmap string gomap) : gomap := AMap <$> typed.

Definition requireMap (payload : gomap) (key : string) : R gomap :=
  match payload !! key with
  | None | Some ANil => Err (Required key)
  | Some (AMap value) => Ok value
  | Some (AMapOfMaps typed) => Ok (widen_map typed)
  | _ => Err (MustBe key "an object")
  end.

(** [None] is the nil map. *)
Definition optionalMap (payload : gomap) (key : string) : R (option gomap) :=
  match payload !! key with
  | None | Some ANil => Ok None
  | Some (AMap value) => Ok (Some value)
  | Some (AMapOfMaps typed) => Ok (Some (widen_map typed))
  | _ => Err (MustBe key "an object")
  end.

(** [None] is the pair [(false, false)]. *)
Definition optionalBool (payload : gomap) (key : string) : R (option bool) :=
  match payload !! key with
  | None | Some ANil => Ok None
  | Some (ABool value) => Ok (Some value)
  | Some (AString value) =>
      let value := to_lower (trim_space value) in
      if one_of value ["true"; "1"; "yes"] then Ok (Some true)
      else if one_of value ["false"; "0"; "no"] then Ok (Some false)
      else Err (MustBe key "a boolean")
  | Some (AFloat64 value) =>
      if float_is value 1 then Ok (Some true)
      else if float_is value 0 then Ok (Some false)
      else Err (MustBe key "a boolean")
  | _ => Err (MustBe key "a boolean")
  end.

Definition optionalInt (payload : gomap) (key : string) : R (option Z) :=
  match payload !! key with
  | None | Some ANil => Ok None
  | Some (AInt value) => Ok (Some value)
  | Some (AInt32 value) => Ok (Some value)
  | Some (AInt64 value) => Ok (Some value)
  | Some (AFloat64 value) => Ok (Some (int_of_float value))
  | _ => Err (MustBe key "a number")
  end.

Definition not_blank (s : string) : bool := negb (s =s "").

Fixpoint string_items (key : string) (items : list any) : R (list string) :=
  match items with
  | [] => Ok []
  | AString s :: items =>
      out ← string_items key items;
      let s := trim_space s in
      Ok (if not_blank s then s :: out else out)
  | _ => Err (MustBe key "an array of strings")
  end.

Definition optionalStringSlice (payload : gomap) (key : string) : R (option (list string)) :=
  match payload !! key with
  | None | Some ANil => Ok None
  | Some (AStrings value) => Ok (Some (List.filter not_blank (trim_space <$> value)))
  | Some (ASlice value) => Some <$> string_items key value
  | _ => Err (MustBe key "an array of strings")
  end.

(** The closure [add] of [optionalIntSlice]: the port of one element. *)
Definition port_item (key : string) (value : any) : R Z :=
  port ← (match value with
          | AInt typed => Ok typed
          | AInt32 typed => Ok typed
          | AInt64 typed => Ok typed
          | AFloat64 typed => Ok (int_of_float typed)
          | AString typed =>
              match atoi (trim_space typed) with
              | Some parsed => Ok parsed
              | None => Err (MustBe key "an array of numbers")
              end
          | _ => Err (MustBe key "an array of numbers")
          end : R Z);
  if (port <? 1) || (65535 <? port) then Err (InvalidPort key port) else Ok port.

Fixpoint port_items (key : string) (items : list any) : R (list Z) :=
  match items with
  | [] => Ok []
  | item :: items => port ← port_item key item; out ← port_items key items; Ok (port :: out)
  end.

Definition optionalIntSlice (payload : gomap) (key : string) : R (option (list Z)) :=
  match payload !! key with
  | None | Some ANil => Ok None
  | Some (AInts value) => Some <$> port_items key (AInt <$> value)
  | Some (ASlice value) => Some <$> port_items key value
  | _ => Err (MustBe key "an array of numbers")
  end.

Fixpoint object_items (field : string) (idx : nat) (items : list any) : R (list any) :=
  match items with
  | [] => Ok []
  | (AMap _ as item) :: items => out ← object_items field (S idx) items; Ok (item :: out)
  | _ => Err (ElementMustBeObject field idx)
  end.

Definition normalizeObjectArray (value : any) (field : string) : R (list any) :=
  match value with
  | ASlice items => object_items field 0 items
  | AMaps items => Ok (AMap <$> items)
  | _ => Err (MustBeArray field)
  end.

(** [stringifyAny(m[key])]: a missing key reads as nil. *)
Definition stringifyAny (v : option any) : string :=
  match v with
  | Some (AString value) => trim_space value
  | Some (AStringer value) => trim_space value
  | _ => ""
  end.

Definition normalizeNodeCleanupScope (value : string) (includeAgent : bool) : string :=
  let value := to_lower (trim_space value) in
  if one_of value ["services_only"; "service"; "services"; "instances"; "instance_runtime"]
  then "services_only"
  else if one_of value ["full_node"; "full"; "node"; "all"; "wipe"] then "full_node"
  else if includeAgent then "full_node"
  else "services_only".

Definition isAllowedArtifactType (artifactType : string) : bool := IsSupportedArtifactType artifactType.

Fixpoint trimOptionalStrings (dst src : gomap) (keys : list string) : gomap :=
  match keys with
  | [] => dst
  | key :: keys =>
      let dst := match optionalString src key with
                 | Ok value => if value =s "" then dst else <[key:=AString value]> dst
                 | Err _ => dst
                 end in
      trimOptionalStrings dst src keys
  end.

(** ** Idioms the cases repeat inline *)

(** [for _, key := range keys { ... }] with an early return. *)
Fixpoint for_each (keys : list string) (body : gomap → string → R gomap) (normalized : gomap) : R gomap :=
  match keys with
  | [] => Ok normalized
  | key :: keys => normalized ← body normalized key; for_each keys body normalized
  end.

(** [if v, err := optionalString(..); err != nil { return } else if v != "" { normalized[key] = f(v) }] *)
Definition put_string_with (f : string → string) (payload : gomap) (key : string) (normalized : gomap) : R gomap :=
  v ← optionalString payload key;
  Ok (if v =s "" then normalized else <[key:=AString (f v)]> normalized).
Definition put_string := put_string_with id.

(** [if v, ok, err := optionalX(..); err != nil { return } else if ok { normalized[key] = v }] *)
Definition put_bool (payload : gomap) (key : string) (normalized : gomap) : R gomap :=
  v ← optionalBool payload key;
  Ok (match v with Some v => <[key:=ABool v]> normalized | None => normalized end).

Definition put_bool_or_false (payload : gomap) (key : string) (normalized : gomap) : R gomap :=
  v ← optionalBool payload key;
  Ok (match v with Some v => <[key:=ABool v]> normalized | None => <[key:=ABool false]> normalized end).

Definition put_int (payload : gomap) (key : string) (normalized : gomap) : R gomap :=
  v ← optionalInt payload key;
  Ok (match v with Some v => <[key:=AInt v]> normalized | None => normalized end).

Definition put_strings (payload : gomap) (key : string) (normalized : gomap) : R gomap :=
  v ← optionalStringSlice payload key;
  Ok (match v with Some v => <[key:=AStrings v]> normalized | None => normalized end).

Definition put_ints (payload : gomap) (key : string) (normalized : gomap) : R gomap :=
  v ← optionalIntSlice payload key;
  Ok (match v with Some v => <[key:=AInts v]> normalized | None => normalized end).

Definition put_map (payload : gomap) (key : string) (normalized : gomap) : R gomap :=
  v ← optionalMap payload key;
  Ok (match v with Some v => <[key:=AMap v]> normalized | None => normalized end).

(** [if raw, ok := payload[key]; ok { raw.([]any) } else { []any{} }] *)
Definition put_array (payload : gomap) (key : string) (normalized : gomap) : R gomap :=
  match payload !! key with
  | Some (ASlice items) => Ok (<[key:=ASlice items]> normalized)
  | Some _ => Err (MustBe key "an array")
  | None => Ok (<[key:=ASlice []]> normalized)
  end.

Definition put_objects (payload : gomap) (key : string) (normalized : gomap) : R gomap :=
  match payload !! key with
  | Some raw =>
      routes ← normalizeObjectArray raw ("payload." +:+ key);
      Ok (<[key:=ASlice routes]> normalized)
  | None => Ok (<[key:=ASlice []]> normalized)
  end.

(** ** The cases of [Normalize] *)

Definition normalize_control_plane_tls (payload : gomap) : R gomap := Ok payload.

Definition normalize_node_bootstrap (payload : gomap) : R gomap :=
  let normalized := payload in
  nodeID ← requireString payload "node_id";
  mode ← optionalString payload "bootstrap_mode";
  let mode := if mode =s "" then "ssh_bootstrap" else mode in
  _ ← guard_err (one_of mode ["ssh_bootstrap"; "manual_bundle"])
        (MustBeOneOf "bootstrap_mode" ["ssh_bootstrap"; "manual_bundle"]);
  let normalized := <["node_id":=AString nodeID]> normalized in
  let normalized := <["bootstrap_mode":=AString mode]> normalized in
  normalized ← put_bool payload "reinstall_agent" normalized;
  put_bool payload "force_reenroll" normalized.

Definition normalize_capability_install (payload : gomap) : R gomap :=
  let normalized := payload in
  nodeID ← requireString payload "node_id";
  serviceCode ← requireString payload "service_code";
  strategy ← requireString payload "strategy";
  channel ← requireString payload "channel";
  let normalized := <["node_id":=AString nodeID]> normalized in
  let normalized := <["service_code":=AString (to_lower serviceCode)]> normalized in
  let normalized := <["strategy":=AString strategy]> normalized in
  let normalized := <["channel":=AString channel]> normalized in
  put_strings payload "dependent_instance_ids" normalized.

Definition normalize_capability_verify (payload : gomap) : R gomap :=
  let normalized := payload in
  nodeID ← requireString payload "node_id";
  serviceCode ← requireString payload "service_code";
  let normalized := <["node_id":=AString nodeID]> normalized in
  Ok (<["service_code":=AString (to_lower serviceCode)]> normalized).

Definition normalize_node_only (payload : gomap) : R gomap :=
  nodeID ← requireString payload "node_id";
  Ok (<["node_id":=AString nodeID]> payload).

Definition normalize_emergency_cleanup (payload : gomap) : R gomap :=
  let normalized := payload in
  nodeID ← requireString payload "node_id";
  confirmation ← requireString payload "confirmation";
  let normalized := <["node_id":=AString nodeID]> normalized in
  let normalized := <["confirmation":=AString confirmation]> normalized in
  normalized ← put_string payload "node_name" normalized;
  normalized ← put_bool_or_false payload "include_agent" normalized;
  cleanupScope ← optionalString payload "cleanup_scope";
  let includeAgent := match normalized !! "include_agent" with Some (ABool b) => b | _ => false end in
  let cleanupScope := normalizeNodeCleanupScope cleanupScope includeAgent in
  Ok (<["cleanup_scope":=AString cleanupScope]> normalized).

Definition normalize_node_reboot (payload : gomap) : R gomap :=
  let normalized := payload in
  nodeID ← requireString payload "node_id";
  confirmation ← requireString payload "confirmation";
  let normalized := <["node_id":=AString nodeID]> normalized in
  let normalized := <["confirmation":=AString confirmation]> normalized in
  normalized ← put_string payload "node_name" normalized;
  put_string payload "reason" normalized.

(** The five fields that the three backhaul cases open with. *)
Definition backhaul_head (payload : gomap) : R gomap :=
  let normalized := payload in
  nodeID ← requireString payload "node_id";
  linkID ← requireString payload "link_id";
  transportID ← requireString payload "transport_id";
  role ← requireString payload "role";
  let role := to_lower role in
  _ ← guard_err (one_of role ["ingress"; "egress"]) (MustBeOneOf "role" ["ingress"; "egress"]);
  driver ← requireString payload "driver";
  let driver := Backhaul.NormalizeDriver driver in
  _ ← map_err DriverRejected (Backhaul.ValidateDriver driver);
  let normalized := <["node_id":=AString nodeID]> normalized in
  let normalized := <["link_id":=AString linkID]> normalized in
  let normalized := <["transport_id":=AString transportID]> normalized in
  let normalized := <["role":=AString role]> normalized in
  Ok (<["driver":=AString driver]> normalized).

Definition normalize_backhaul_apply (payload : gomap) : R gomap :=
  normalized ← backhaul_head payload;
  let normalized := trimOptionalStrings normalized payload
    ["link_name"; "interface_name"; "routing_table"; "endpoint_host"; "protocol"; "tunnel_cidr";
     "ingress_address"; "egress_address"; "output_path"; "systemd_unit"; "activation_mode"; "driver_layer"] in
  normalized ← put_int payload "endpoint_port" normalized;
  normalized ← put_int payload "route_metric" normalized;
  normalized ← put_bool payload "activate" normalized;
  normalized ← put_array payload "files" normalized;
  normalized ← put_map payload "enforcement" normalized;
  put_strings payload "warnings" normalized.

Definition normalize_backhaul_probe (payload : gomap) : R gomap :=
  normalized ← backhaul_head payload;
  let normalized := trimOptionalStrings normalized payload
    ["interface_name"; "systemd_unit"; "peer_address"] in
  put_int payload "probe_count" normalized.

Definition normalize_backhaul_cleanup (payload : gomap) : R gomap :=
  normalized ← backhaul_head payload;
  let normalized := trimOptionalStrings normalized payload
    ["interface_name"; "delete_batch_id"; "route_disable_batch_id"] in
  routeAction ← optionalString payload "route_action";
  normalized ← (if routeAction =s "" then Ok normalized
    else
      let routeAction := to_lower routeAction in
      _ ← guard_err (routeAction =s "disable") (MustBeOneOf "route_action" ["disable"]);
      Ok (<["route_action":=AString routeAction]> normalized) : R gomap);
  normalized ← put_strings payload "systemd_units" normalized;
  normalized ← put_strings payload "paths" normalized;
  put_strings payload "directories" normalized.

(** The second half of the case: the optional strings, the numbers and their
    ranges, and the secret references. *)
Definition external_egress_numbers (payload normalized : gomap) : R gomap :=
  let normalized := trimOptionalStrings normalized payload ["transport"; "endpoint_host"] in
  normalized ← for_each ["route_metric"; "fwmark"]
    (λ normalized key,
      value ← optionalInt payload key;
      match value with
      | Some value => Ok (<[key:=AInt value]> normalized)
      | None => Err (Required key)
      end) normalized;
  port ← optionalInt payload "endpoint_port";
  normalized ← (match port with
    | Some value =>
        if (value <? 1) || (65535 <? value) then Err (Invalid "endpoint_port")
        else Ok (<["endpoint_port":=AInt value]> normalized)
    | None => Ok normalized
    end : R gomap);
  _ ← (match atoi (stringifyAny (normalized !! "routing_table")) with
       | Some table => guard_err (negb ((table <? 40000) || (48999 <? table))) (OutsideManagedRange "routing_table")
       | None => Err (OutsideManagedRange "routing_table")
       end : R ());
  let metric := match normalized !! "route_metric" with Some (AInt z) => z | _ => 0 end in
  _ ← guard_err (negb ((metric <? 1) || (32767 <? metric))) (Invalid "route_metric");
  let mark := match normalized !! "fwmark" with Some (AInt z) => z | _ => 0 end in
  _ ← guard_err (negb ((mark <? 0x4d590000) || (0x4d59ffff <? mark))) (OutsideManagedRange "fwmark");
  match payload !! "secret_refs" with
  | Some (AMap refs) => Ok (<["secret_refs":=AMap refs]> normalized)
  | Some _ => Err (MustBe "secret_refs" "an object")
  | None => Ok (<["secret_refs":=AMap ∅]> normalized)
  end.

Definition normalize_external_egress (payload : gomap) : R gomap :=
  let normalized := payload in
  normalized ← for_each ["node_id"; "profile_id"; "deployment_id"; "protocol"; "interface_name"; "routing_table"]
    (λ normalized key, value ← requireString payload key; Ok (<[key:=AString value]> normalized)) normalized;
  let protocol := ExternalEgress.NormalizeProtocol (stringifyAny (normalized !! "protocol")) in
  definition ← (match ExternalEgress.definition protocol with
                | Some definition => Ok definition
                | None => Err ProtocolUnsupported
                end : R ExternalEgress.ProtocolDefinition);
  _ ← guard_err (ExternalEgress.RuntimeSupport definition =s ExternalEgress.RuntimeReady) ProtocolNotReady;
  let normalized := <["protocol":=AString protocol]> normalized in
  external_egress_numbers payload normalized.

Definition normalize_route_policy_apply (payload : gomap) : R gomap :=
  let normalized := payload in
  nodeID ← requireString payload "node_id";
  let normalized := <["node_id":=AString nodeID]> normalized in
  normalized ← put_string payload "revision" normalized;
  normalized ← put_string payload "generated_at" normalized;
  normalized ← put_string payload "output_path" normalized;
  normalized ← put_string_with to_lower payload "enforcement_mode" normalized;
  normalized ← put_objects payload "routes" normalized;
  normalized ← put_objects payload "system_routes" normalized;
  normalized ← put_int payload "route_count" normalized;
  normalized ← put_int payload "active_route_count" normalized;
  normalized ← put_int payload "system_route_count" normalized;
  put_int payload "active_system_route_count" normalized.

Definition normalize_route_policy_cleanup (payload : gomap) : R gomap :=
  let normalized := payload in
  nodeID ← requireString payload "node_id";
  let normalized := <["node_id":=AString nodeID]> normalized in
  let normalized := trimOptionalStrings normalized payload
    ["revision"; "generated_at"; "output_path"; "cleanup_reason"] in
  normalized ← put_objects payload "routes" normalized;
  put_objects payload "system_routes" normalized.

Definition normalize_node_firewall (payload : gomap) : R gomap :=
  let normalized := payload in
  nodeID ← requireString payload "node_id";
  let normalized := <["node_id":=AString nodeID]> normalized in
  let normalized := trimOptionalStrings normalized payload
    ["policy_id"; "policy_key"; "revision_id"; "disable_reason"; "firewall_payload_hash";
     "safety_mode"; "agent_control_plane_url"] in
  normalized ← put_int payload "revision_no" normalized;
  normalized ← put_int payload "firewall_payload_version" normalized;
  normalized ← for_each ["default_input_policy"; "default_forward_policy"; "default_output_policy"]
    (λ normalized key,
      value ← optionalString payload key;
      let value := to_lower value in
      let value := if value =s "" then "accept" else value in
      _ ← guard_err (one_of value ["accept"; "drop"; "reject"]) (MustBeOneOf key ["accept"; "drop"; "reject"]);
      Ok (<[key:=AString value]> normalized)) normalized;
  normalized ← put_bool_or_false payload "enforce_default_policy" normalized;
  normalized ← put_bool payload "node_requires_forward_preservation" normalized;
  normalized ← put_ints payload "ssh_bootstrap_ports" normalized;
  normalized ← put_array payload "rules" normalized;
  put_array payload "address_lists" normalized.

Definition normalize_rotate_token (payload : gomap) : R gomap :=
  let normalized := payload in
  nodeID ← requireString payload "node_id";
  newTokenRefID ← optionalString payload "new_agent_token_secret_ref_id";
  newTokenHash ← optionalString payload "new_agent_token_hash";
  legacyNewToken ← optionalString payload "new_agent_token";
  _ ← guard_err (negb ((newTokenRefID =s "") || (newTokenHash =s ""))) TokenRefRequired;
  _ ← guard_err (legacyNewToken =s "") PlaintextToken;
  let normalized := <["node_id":=AString nodeID]> normalized in
  let normalized := <["new_agent_token_secret_ref_id":=AString newTokenRefID]> normalized in
  let normalized := <["new_agent_token_hash":=AString newTokenHash]> normalized in
  put_string payload "new_token_hint" normalized.

(** The check both instance cases make on the codes and the unit. *)
Definition code_or_unit (payload normalized : gomap) : R () :=
  guard_err
    (negb ((stringifyAny (normalized !! "service_code") =s "")
           && (stringifyAny (normalized !! "runtime_service_code") =s "")
           && (trim_space (stringifyAny (payload !! "systemd_unit")) =s "")))
    CodeOrUnitRequired.

Definition put_operable_code (runtime : bool) (action : string) (payload : gomap) (key : string)
    (normalized : gomap) : R gomap :=
  code ← optionalString payload key;
  if code =s "" then Ok normalized
  else
    let code := NormalizeCode code in
    _ ← guard_err (SupportsOperation code action) (OperationUnsupported runtime code action);
    Ok (<[key:=AString code]> normalized).

Definition normalize_instance (jobType : string) (payload : gomap) : R gomap :=
  let normalized := payload in
  instanceID ← requireString payload "instance_id";
  action ← (match OperationFromJobType jobType with
            | Some action => Ok action
            | None => Err (UnsupportedInstanceJobType jobType)
            end : R string);
  let normalized := <["instance_id":=AString instanceID]> normalized in
  let normalized := <["action":=AString action]> normalized in
  normalized ← put_operable_code false action payload "service_code" normalized;
  normalized ← put_operable_code true action payload "runtime_service_code" normalized;
  _ ← code_or_unit payload normalized;
  normalized ← (if (action =s "apply") || (action =s "delete")
    then spec ← requireMap payload "spec"; Ok (<["spec":=AMap spec]> normalized)
    else Ok normalized : R gomap);
  let normalized := trimOptionalStrings normalized payload ["name"; "slug"; "systemd_unit"; "endpoint_host"] in
  normalized ← put_int payload "endpoint_port" normalized;
  put_bool payload "enabled" normalized.

Definition normalize_instance_diagnose (payload : gomap) : R gomap :=
  let normalized := payload in
  instanceID ← requireString payload "instance_id";
  let normalized := <["instance_id":=AString instanceID]> normalized in
  let normalized := <["action":=AString "diagnose"]> normalized in
  normalized ← put_string_with NormalizeCode payload "service_code" normalized;
  normalized ← put_string_with NormalizeCode payload "runtime_service_code" normalized;
  _ ← code_or_unit payload normalized;
  normalized ← put_map payload "spec" normalized;
  let normalized := trimOptionalStrings normalized payload ["name"; "slug"; "systemd_unit"; "endpoint_host"] in
  normalized ← put_int payload "endpoint_port" normalized;
  put_bool payload "enabled" normalized.

Definition normalize_group_provision (payload : gomap) : R gomap :=
  groupID ← requireString payload "group_id";
  put_strings payload "instance_ids" (<["group_id":=AString groupID]> payload).

Definition normalize_client_provision (payload : gomap) : R gomap :=
  clientID ← requireString payload "client_id";
  normalized ← put_strings payload "instance_ids" (<["client_id":=AString clientID]> payload);
  put_map payload "service_options" normalized.

Definition normalize_artifact_build (payload : gomap) : R gomap :=
  let normalized := payload in
  clientID ← requireString payload "client_id";
  artifactType ← optionalString payload "artifact_type";
  artifactType ← (if artifactType =s "" then optionalString payload "type" else Ok artifactType : R string);
  let artifactType := to_lower (trim_space artifactType) in
  let artifactType := if artifactType =s "" then "all" else artifactType in
  _ ← guard_err (isAllowedArtifactType artifactType) ArtifactTypeUnsupported;
  let normalized := <["client_id":=AString clientID]> normalized in
  let normalized := <["artifact_type":=AString artifactType]> normalized in
  let normalized := delete "type" normalized in
  put_strings payload "instance_ids" normalized.

Definition normalize_client_revoke (payload : gomap) : R gomap :=
  clientID ← requireString payload "client_id";
  Ok (<["client_id":=AString clientID]> payload).

(** ** [Normalize]; a nil payload is the empty map *)

Definition Normalize (jobType : string) (payload : option gomap) : R gomap :=
  let jobType := trim_space jobType in
  let payload := default ∅ payload in
  if jobType =s "platform.control_plane_tls.apply" then normalize_control_plane_tls payload
  else if jobType =s "node.bootstrap" then normalize_node_bootstrap payload
  else if jobType =s "node.capability.install" then normalize_capability_install payload
  else if jobType =s "node.capability.verify" then normalize_capability_verify payload
  else if one_of jobType ["node.inventory"; "node.inventory.sync"; "node.services.discover"; "node.channel.probe"]
  then normalize_node_only payload
  else if jobType =s "node.emergency_cleanup" then normalize_emergency_cleanup payload
  else if jobType =s "node.reboot" then normalize_node_reboot payload
  else if jobType =s "node.backhaul.apply" then normalize_backhaul_apply payload
  else if jobType =s "node.backhaul.probe" then normalize_backhaul_probe payload
  else if jobType =s "node.backhaul.cleanup" then normalize_backhaul_cleanup payload
  else if one_of jobType ["node.external_egress.apply"; "node.external_egress.probe"; "node.external_egress.cleanup"]
  then normalize_external_egress payload
  else if jobType =s "node.route_policy.apply" then normalize_route_policy_apply payload
  else if jobType =s "node.route_policy.cleanup" then normalize_route_policy_cleanup payload
  else if one_of jobType ["node.firewall.preview"; "node.firewall.apply"; "node.firewall.observe"; "node.firewall.disable"]
  then normalize_node_firewall payload
  else if jobType =s "node.agent.rotate_token" then normalize_rotate_token payload
  else if one_of jobType ["instance.apply"; "instance.restart"; "instance.start"; "instance.stop";
                          "instance.enable"; "instance.disable"; "instance.delete"]
  then normalize_instance jobType payload
  else if jobType =s "instance.diagnose" then normalize_instance_diagnose payload
  else if jobType =s "client_access_group.provision" then normalize_group_provision payload
  else if jobType =s "client.provision" then normalize_client_provision payload
  else if jobType =s "artifact.build" then normalize_artifact_build payload
  else if jobType =s "client.revoke" then normalize_client_revoke payload
  else Err (UnsupportedJobType jobType).
