(* ===== verification/JobSchemaSpec.v ===== *)
(** * The payload schemas: an abstract specification of [Normalize]

    A schema is a list of items.  A [Field] says what becomes of one key (it
    keeps its value, gets another one or goes away) as a function of the
    payload alone; a [Ensure] constrains the payload as a whole.  [run] checks
    the items in order.  Its result is described key by key
    ([run_spec]), which the sequence of guards, reads and writes of the code
    does not show; the refinement theorem is that each case of the code is
    the run of its schema, errors included. *)
From S2P Require Import Prelude GoStrings Strconv GoValue Driver Backhaul ExternalEgress JobSchema.
From Stdlib Require Import Ascii.
From stdpp Require Import options.
Open Scope Z_scope.

(** ** Schemas *)

Inductive act := Keep | Put (v : any) | Drop.

Definition act_val (a : act) (old : option any) : option any :=
  match a with Keep => old | Put v => Some v | Drop => None end.

Definition act_apply (a : act) (key : string) (n : gomap) : gomap :=
  match a with Keep => n | Put v => <[key:=v]> n | Drop => delete key n end.

Inductive item :=
| Field (key : string) (norm : gomap → R act)
| Ensure (c : gomap → R ()).

Definition item_key (it : item) : option string :=
  match it with Field k _ => Some k | Ensure _ => None end.
Definition keys_of (its : list item) : list string := omap item_key its.

Definition step (it : item) (payload n : gomap) : R gomap :=
  match it with
  | Field k norm => a ← norm payload; Ok (act_apply a k n)
  | Ensure c => _ ← c payload; Ok n
  end.

Fixpoint run_from (its : list item) (payload n : gomap) : R gomap :=
  match its with
  | [] => Ok n
  | it :: its => n ← step it payload n; run_from its payload n
  end.

Definition run (its : list item) (payload : gomap) : R gomap := run_from its payload payload.

Lemma act_apply_same a k n : act_apply a k n !! k = act_val a (n !! k).
Proof. destruct a; simpl; [done|apply lookup_insert_eq|apply lookup_delete_eq]. Qed.

Lemma act_apply_other a k k' n : k ≠ k' → act_apply a k n !! k' = n !! k'.
Proof. intros. destruct a; simpl; [done|by apply lookup_insert_ne|by apply lookup_delete_ne]. Qed.

Lemma act_apply_fix a k n : act_val a (n !! k) = n !! k → act_apply a k n = n.
Proof.
  destruct a; simpl; intros H; [done|by apply insert_id|]. by apply delete_id.
Qed.

Lemma run_from_app its1 its2 p n :
  run_from (its1 ++ its2) p n = n ← run_from its1 p n; run_from its2 p n.
Proof.
  revert n. induction its1 as [|it its1 IH]; intros n; [done|].
  cbn [run_from app]. rewrite bind_assoc. apply bind_ext. intros n' _. apply IH.
Qed.

(** What a key holds after a run: its field's verdict on the payload, and
    outside the schema what it held before. *)
Lemma run_from_spec its p n n' :
  run_from its p n = Ok n' → NoDup (keys_of its) →
  (∀ k norm, Field k norm ∈ its → ∃ a, norm p = Ok a ∧ n' !! k = act_val a (n !! k))
  ∧ (∀ c, Ensure c ∈ its → c p = Ok tt)
  ∧ (∀ k, k ∉ keys_of its → n' !! k = n !! k).
Proof.
  revert n. induction its as [|it its IH]; intros n H Hd.
  { cbn in H. simplify_eq. split_and!; [by intros ?? ?%elem_of_nil|by intros ? ?%elem_of_nil|done]. }
  cbn [run_from] in H. apply bind_ok_inv in H as (n1 & Hstep & H).
  destruct it as [k norm|c]; cbn [step] in Hstep.
  - cbn in Hd. apply NoDup_cons in Hd as [Hk Hd].
    apply bind_ok_inv in Hstep as (a & Ha & [= <-]).
    destruct (IH _ H Hd) as (Hf & Hc & Ho). split_and!.
    + intros k' norm' [E|Hin]%elem_of_cons.
      * simplify_eq. exists a. rewrite Ho by done. by rewrite act_apply_same.
      * destruct (Hf k' norm' Hin) as (a' & ? & Ev). exists a'. split; [done|].
        rewrite Ev, act_apply_other; [done|]. intros <-. apply Hk.
        apply list_elem_of_omap. by exists (Field k norm').
    + intros c [?|Hin]%elem_of_cons; [done|auto].
    + intros k' [Hne Hn]%not_elem_of_cons. rewrite Ho by done. by apply act_apply_other.
  - apply bind_ok_inv in Hstep as ([] & Ha & [= <-]).
    destruct (IH _ H Hd) as (Hf & Hc & Ho). split_and!; [|intros c' [E|Hin]%elem_of_cons|done].
    + intros k' norm' [?|Hin]%elem_of_cons; [done|eauto].
    + by simplify_eq.
    + auto.
Qed.

Lemma run_from_fix its p :
  (∀ k norm, Field k norm ∈ its → ∃ a, norm p = Ok a ∧ act_val a (p !! k) = p !! k) →
  (∀ c, Ensure c ∈ its → c p = Ok tt) → run_from its p p = Ok p.
Proof.
  induction its as [|it its IH]; intros Hf Hc; [done|]. cbn [run_from].
  assert (step it p p = Ok p) as ->.
  { destruct it as [k norm|c]; cbn [step].
    - destruct (Hf k norm) as (a & -> & E); [set_solver|]. cbn. by rewrite act_apply_fix.
    - by rewrite Hc by set_solver. }
  cbn. apply IH; intros; [eapply Hf|eapply Hc]; set_solver.
Qed.

(** A field is stable when its verdict on its own result is to keep it. *)
Definition stable (k : string) (norm : gomap → R act) : Prop :=
  ∀ p n a, norm p = Ok a → n !! k = act_val a (p !! k) →
    ∃ a', norm n = Ok a' ∧ act_val a' (n !! k) = n !! k.

Create HintDb schema discriminated.

(** An item that the map [n] already satisfies and that leaves it alone. *)
Definition fixed (n : gomap) (it : item) : Prop :=
  match it with
  | Field k norm => stable k norm ∨ ∃ a, norm n = Ok a ∧ act_val a (n !! k) = n !! k
  | Ensure c => c n = Ok tt
  end.

(** A run whose fields are stable, or stable on its results, is idempotent. *)
Lemma run_idemp its p n :
  NoDup (keys_of its) →
  run its p = Ok n →
  Forall (fixed n) its →
  run its n = Ok n.
Proof.
  intros Hd Hr Hs. unfold run in *. destruct (run_from_spec _ _ _ _ Hr Hd) as (Hf & Hc & Ho).
  rewrite Forall_forall in Hs. apply run_from_fix.
  - intros k norm Hin. destruct (Hs _ Hin) as [Hst|?]; [|done].
    destruct (Hf k norm Hin) as (a & Ha & E). eauto.
  - intros c Hin. exact (Hs _ Hin).
Qed.

(** ** Kinds of fields *)

(** A required string, transformed and then checked. *)
Definition req_string_with (f : string → string) (ok : string → R ()) (k : string) (p : gomap) : R act :=
  s ← requireString p k; _ ← ok (f s); Ok (Put (AString (f s))).
Definition anything (s : string) : R () := Ok tt.
Definition req_string (k : string) : item := Field k (req_string_with id anything k).

(** An optional string: blank keeps what is there. *)
Definition opt_string_with (f : string → string) (ok : string → R ()) (k : string) (p : gomap) : R act :=
  s ← optionalString p k;
  if s =s "" then Ok Keep else _ ← ok (f s); Ok (Put (AString (f s))).
Definition opt_string (k : string) : item := Field k (opt_string_with id anything k).

(** A string that always gets a value: [f] also decides what blank becomes. *)
Definition def_string (f : string → string) (ok : string → R ()) (k : string) (p : gomap) : R act :=
  s ← optionalString p k; _ ← ok (f s); Ok (Put (AString (f s))).

(** [trimOptionalStrings]: a value of another type is kept, not rejected. *)
Definition trim_act (k : string) (p : gomap) : R act :=
  Ok (match optionalString p k with
      | Ok value => if value =s "" then Keep else Put (AString value)
      | Err _ => Keep
      end).
Definition trims (ks : list string) : list item := (λ k, Field k (trim_act k)) <$> ks.

Definition keep_or {A} (c : A → any) (o : option A) : act :=
  match o with Some v => Put (c v) | None => Keep end.
Definition opt_bool (k : string) : item := Field k (λ p, keep_or ABool <$> optionalBool p k).
Definition def_bool (k : string) : item :=
  Field k (λ p, (λ o, Put (ABool (default false o))) <$> optionalBool p k).
Definition opt_int (k : string) : item := Field k (λ p, keep_or AInt <$> optionalInt p k).
Definition req_int (k : string) : item :=
  Field k (λ p, v ← optionalInt p k;
    match v with Some v => Ok (Put (AInt v)) | None => Err (Required k) end).
Definition opt_strings (k : string) : item := Field k (λ p, keep_or AStrings <$> optionalStringSlice p k).
Definition opt_ints (k : string) : item := Field k (λ p, keep_or AInts <$> optionalIntSlice p k).
Definition opt_map (k : string) : item := Field k (λ p, keep_or AMap <$> optionalMap p k).
Definition req_map (k : string) : item := Field k (λ p, Put ∘ AMap <$> requireMap p k).

Definition array_act (k : string) (p : gomap) : R act :=
  match p !! k with
  | Some (ASlice items) => Ok (Put (ASlice items))
  | Some _ => Err (MustBe k "an array")
  | None => Ok (Put (ASlice []))
  end.
Definition array (k : string) : item := Field k (array_act k).

Definition objects_act (k : string) (p : gomap) : R act :=
  match p !! k with
  | Some raw => routes ← normalizeObjectArray raw ("payload." +:+ k); Ok (Put (ASlice routes))
  | None => Ok (Put (ASlice []))
  end.
Definition objects (k : string) : item := Field k (objects_act k).

(** ** The schemas, in the order the code reads *)

Definition bootstrap_mode (s : string) : string := if s =s "" then "ssh_bootstrap" else s.
Definition enum (key : string) (values : list string) (s : string) : R () :=
  guard_err (one_of s values) (MustBeOneOf key values).

Definition schema_bootstrap : list item :=
  [req_string "node_id";
   Field "bootstrap_mode" (def_string bootstrap_mode
     (enum "bootstrap_mode" ["ssh_bootstrap"; "manual_bundle"]) "bootstrap_mode");
   opt_bool "reinstall_agent"; opt_bool "force_reenroll"].

Definition lower_field (k : string) : item := Field k (req_string_with to_lower anything k).

Definition schema_capability_install : list item :=
  [req_string "node_id"; lower_field "service_code"; req_string "strategy"; req_string "channel";
   opt_strings "dependent_instance_ids"].

Definition schema_capability_verify : list item := [req_string "node_id"; lower_field "service_code"].

Definition schema_node_only : list item := [req_string "node_id"].

Definition cleanup_scope_act (p : gomap) : R act :=
  scope ← optionalString p "cleanup_scope";
  include ← optionalBool p "include_agent";
  Ok (Put (AString (normalizeNodeCleanupScope scope (default false include)))).

Definition schema_emergency_cleanup : list item :=
  [req_string "node_id"; req_string "confirmation"; opt_string "node_name";
   def_bool "include_agent"; Field "cleanup_scope" cleanup_scope_act].

Definition schema_reboot : list item :=
  [req_string "node_id"; req_string "confirmation"; opt_string "node_name"; opt_string "reason"].

Definition schema_backhaul_head : list item :=
  [req_string "node_id"; req_string "link_id"; req_string "transport_id";
   Field "role" (req_string_with to_lower (enum "role" ["ingress"; "egress"]) "role");
   Field "driver" (req_string_with Backhaul.NormalizeDriver
     (λ d, map_err DriverRejected (Backhaul.ValidateDriver d)) "driver")].

Definition schema_backhaul_apply : list item :=
  schema_backhaul_head
  ++ trims ["link_name"; "interface_name"; "routing_table"; "endpoint_host"; "protocol"; "tunnel_cidr";
     "ingress_address"; "egress_address"; "output_path"; "systemd_unit"; "activation_mode"; "driver_layer"]
  ++ [opt_int "endpoint_port"; opt_int "route_metric"; opt_bool "activate"; array "files";
      opt_map "enforcement"; opt_strings "warnings"].

Definition schema_backhaul_probe : list item :=
  schema_backhaul_head ++ trims ["interface_name"; "systemd_unit"; "peer_address"] ++ [opt_int "probe_count"].

Definition schema_backhaul_cleanup : list item :=
  schema_backhaul_head
  ++ trims ["interface_name"; "delete_batch_id"; "route_disable_batch_id"]
  ++ [Field "route_action" (opt_string_with to_lower
        (λ s, guard_err (s =s "disable") (MustBeOneOf "route_action" ["disable"])) "route_action");
      opt_strings "systemd_units"; opt_strings "paths"; opt_strings "directories"].

Definition protocol_ready (p : gomap) : R () :=
  protocol ← optionalString p "protocol";
  match ExternalEgress.definition protocol with
  | Some d => guard_err (ExternalEgress.RuntimeSupport d =s ExternalEgress.RuntimeReady) ProtocolNotReady
  | None => Err ProtocolUnsupported
  end.

Definition managed_int (k : string) (lo hi : Z) (e : ValidationError) (p : gomap) : R () :=
  v ← optionalInt p k;
  match v with
  | Some v => guard_err (negb ((v <? lo) || (hi <? v))) e
  | None => Err e
  end.

Definition managed_table (p : gomap) : R () :=
  table ← optionalString p "routing_table";
  match atoi table with
  | Some table => guard_err (negb ((table <? 40000) || (48999 <? table))) (OutsideManagedRange "routing_table")
  | None => Err (OutsideManagedRange "routing_table")
  end.

Definition egress_port_act (p : gomap) : R act :=
  port ← optionalInt p "endpoint_port";
  match port with
  | Some v => if (v <? 1) || (65535 <? v) then Err (Invalid "endpoint_port") else Ok (Put (AInt v))
  | None => Ok Keep
  end.

Definition secret_refs_act (p : gomap) : R act :=
  match p !! "secret_refs" with
  | Some (AMap refs) => Ok (Put (AMap refs))
  | Some _ => Err (MustBe "secret_refs" "an object")
  | None => Ok (Put (AMap ∅))
  end.

Definition schema_external_egress : list item :=
  [req_string "node_id"; req_string "profile_id"; req_string "deployment_id";
   Field "protocol" (req_string_with ExternalEgress.NormalizeProtocol anything "protocol");
   req_string "interface_name"; req_string "routing_table"; Ensure protocol_ready]
  ++ trims ["transport"; "endpoint_host"]
  ++ [req_int "route_metric"; req_int "fwmark"; Field "endpoint_port" egress_port_act;
      Ensure managed_table;
      Ensure (managed_int "route_metric" 1 32767 (Invalid "route_metric"));
      Ensure (managed_int "fwmark" 0x4d590000 0x4d59ffff (OutsideManagedRange "fwmark"));
      Field "secret_refs" secret_refs_act].

Definition schema_route_policy_apply : list item :=
  [req_string "node_id"; opt_string "revision"; opt_string "generated_at"; opt_string "output_path";
   Field "enforcement_mode" (opt_string_with to_lower anything "enforcement_mode");
   objects "routes"; objects "system_routes"; opt_int "route_count"; opt_int "active_route_count";
   opt_int "system_route_count"; opt_int "active_system_route_count"].

Definition schema_route_policy_cleanup : list item :=
  [req_string "node_id"] ++ trims ["revision"; "generated_at"; "output_path"; "cleanup_reason"]
  ++ [objects "routes"; objects "system_routes"].

Definition firewall_policy (s : string) : string :=
  let s := to_lower s in if s =s "" then "accept" else s.
Definition policy_field (k : string) : item :=
  Field k (def_string firewall_policy (enum k ["accept"; "drop"; "reject"]) k).

Definition schema_firewall : list item :=
  [req_string "node_id"]
  ++ trims ["policy_id"; "policy_key"; "revision_id"; "disable_reason"; "firewall_payload_hash";
     "safety_mode"; "agent_control_plane_url"]
  ++ [opt_int "revision_no"; opt_int "firewall_payload_version";
      policy_field "default_input_policy"; policy_field "default_forward_policy";
      policy_field "default_output_policy"; def_bool "enforce_default_policy";
      opt_bool "node_requires_forward_preservation"; opt_ints "ssh_bootstrap_ports";
      array "rules"; array "address_lists"].

Definition token_check (p : gomap) : R () :=
  ref ← optionalString p "new_agent_token_secret_ref_id";
  hash ← optionalString p "new_agent_token_hash";
  legacy ← optionalString p "new_agent_token";
  _ ← guard_err (negb ((ref =s "") || (hash =s ""))) TokenRefRequired;
  guard_err (legacy =s "") PlaintextToken.

Definition schema_rotate_token : list item :=
  [req_string "node_id"; opt_string "new_agent_token_secret_ref_id"; opt_string "new_agent_token_hash";
   Ensure token_check; opt_string "new_token_hint"].

Definition unit_check (p : gomap) : R () :=
  service ← optionalString p "service_code";
  runtime ← optionalString p "runtime_service_code";
  guard_err (negb ((service =s "") && (runtime =s "") && (stringifyAny (p !! "systemd_unit") =s "")))
    CodeOrUnitRequired.

Definition code_field (runtime : bool) (action k : string) : item :=
  Field k (opt_string_with NormalizeCode
    (λ code, guard_err (SupportsOperation code action) (OperationUnsupported runtime code action)) k).

Definition schema_instance (action : string) : list item :=
  [req_string "instance_id"; Field "action" (λ _, Ok (Put (AString action)));
   code_field false action "service_code"; code_field true action "runtime_service_code";
   Ensure unit_check]
  ++ (if (action =s "apply") || (action =s "delete") then [req_map "spec"] else [])
  ++ trims ["name"; "slug"; "systemd_unit"; "endpoint_host"]
  ++ [opt_int "endpoint_port"; opt_bool "enabled"].

Definition diagnose_code (k : string) : item := Field k (opt_string_with NormalizeCode anything k).

Definition schema_instance_diagnose : list item :=
  [req_string "instance_id"; Field "action" (λ _, Ok (Put (AString "diagnose")));
   diagnose_code "service_code"; diagnose_code "runtime_service_code"; Ensure unit_check;
   opt_map "spec"]
  ++ trims ["name"; "slug"; "systemd_unit"; "endpoint_host"]
  ++ [opt_int "endpoint_port"; opt_bool "enabled"].

Definition schema_group_provision : list item := [req_string "group_id"; opt_strings "instance_ids"].
Definition schema_client_provision : list item :=
  [req_string "client_id"; opt_strings "instance_ids"; opt_map "service_options"].

Definition artifact_type (s : string) : string :=
  let s := to_lower s in if s =s "" then ArtifactAll else s.
Definition artifact_type_act (p : gomap) : R act :=
  s ← optionalString p "artifact_type";
  s ← (if s =s "" then optionalString p "type" else Ok s : R string);
  _ ← guard_err (IsSupportedArtifactType (artifact_type s)) ArtifactTypeUnsupported;
  Ok (Put (AString (artifact_type s))).

Definition schema_artifact_build : list item :=
  [req_string "client_id"; Field "artifact_type" artifact_type_act; Field "type" (λ _, Ok Drop);
   opt_strings "instance_ids"].

Definition schema_client_revoke : list item := [req_string "client_id"].

(** The schema of each job type; [None] is a type the code refuses. *)
Definition schema_of (jobType : string) : option (list item) :=
  if jobType =s "platform.control_plane_tls.apply" then Some []
  else if jobType =s "node.bootstrap" then Some schema_bootstrap
  else if jobType =s "node.capability.install" then Some schema_capability_install
  else if jobType =s "node.capability.verify" then Some schema_capability_verify
  else if one_of jobType ["node.inventory"; "node.inventory.sync"; "node.services.discover"; "node.channel.probe"]
  then Some schema_node_only
  else if jobType =s "node.emergency_cleanup" then Some schema_emergency_cleanup
  else if jobType =s "node.reboot" then Some schema_reboot
  else if jobType =s "node.backhaul.apply" then Some schema_backhaul_apply
  else if jobType =s "node.backhaul.probe" then Some schema_backhaul_probe
  else if jobType =s "node.backhaul.cleanup" then Some schema_backhaul_cleanup
  else if one_of jobType ["node.external_egress.apply"; "node.external_egress.probe"; "node.external_egress.cleanup"]
  then Some schema_external_egress
  else if jobType =s "node.route_policy.apply" then Some schema_route_policy_apply
  else if jobType =s "node.route_policy.cleanup" then Some schema_route_policy_cleanup
  else if one_of jobType ["node.firewall.preview"; "node.firewall.apply"; "node.firewall.observe"; "node.firewall.disable"]
  then Some schema_firewall
  else if jobType =s "node.agent.rotate_token" then Some schema_rotate_token
  else if one_of jobType ["instance.apply"; "instance.restart"; "instance.start"; "instance.stop";
                          "instance.enable"; "instance.disable"; "instance.delete"]
  then schema_instance <$> OperationFromJobType jobType
  else if jobType =s "instance.diagnose" then Some schema_instance_diagnose
  else if jobType =s "client_access_group.provision" then Some schema_group_provision
  else if jobType =s "client.provision" then Some schema_client_provision
  else if jobType =s "artifact.build" then Some schema_artifact_build
  else if jobType =s "client.revoke" then Some schema_client_revoke
  else None.
