(* ===== verification/JobSchemaRefine.v ===== *)
(** * Each case of [Normalize] is the run of its schema

    The refinement proofs: the idioms of the code are steps of the matching
    fields, and the cases, which read first and write later, perform the same
    reads in the same order as their schemas. *)
From S2P Require Import Prelude GoStrings Strconv GoValue Driver Backhaul ExternalEgress JobSchema JobSchemaSpec.
From Stdlib Require Import Ascii.
From stdpp Require Import options.
Open Scope Z_scope.

(** Reduce the monad and the schema interpreter, nothing else. *)
Ltac monad_cbn :=
  cbv beta delta [req_string_with opt_string_with def_string keep_or anything];
  cbn [mbind result_bind fmap result_fmap list_fmap run_from step app act_apply guard_err map_err].

(** Case analysis on the next read of the left-hand side. *)
Ltac read_case :=
  match goal with
  | |- mbind _ ?m = _ =>
      lazymatch m with
      | requireString _ _ => idtac
      | optionalString _ _ => idtac
      | optionalInt _ _ => idtac
      | guard_err ?b _ => idtac
      | map_err _ _ => idtac
      end;
      lazymatch m with
      | guard_err ?b ?e => destruct b eqn:?
      | map_err _ ?m' => destruct m' as [[]|] eqn:?
      | _ => destruct m eqn:?
      end; monad_cbn; [|reflexivity]
  end.

Section idioms.
Context (p : gomap).

Lemma put_string_with_step f k n :
  put_string_with f p k n = step (Field k (opt_string_with f anything k)) p n.
Proof.
  unfold put_string_with, opt_string_with. cbn [step].
  destruct (optionalString p k) as [s|e]; monad_cbn; [|done]. by destruct (s =s "").
Qed.

Lemma put_string_step k n : put_string p k n = step (opt_string k) p n.
Proof. apply put_string_with_step. Qed.

Lemma put_bool_step k n : put_bool p k n = step (opt_bool k) p n.
Proof. unfold put_bool, opt_bool. cbn [step]. by destruct (optionalBool p k) as [[]|]. Qed.

Lemma put_bool_or_false_step k n : put_bool_or_false p k n = step (def_bool k) p n.
Proof. unfold put_bool_or_false, def_bool. cbn [step]. by destruct (optionalBool p k) as [[]|]. Qed.

Lemma put_int_step k n : put_int p k n = step (opt_int k) p n.
Proof. unfold put_int, opt_int. cbn [step]. by destruct (optionalInt p k) as [[]|]. Qed.

Lemma put_strings_step k n : put_strings p k n = step (opt_strings k) p n.
Proof. unfold put_strings, opt_strings. cbn [step]. by destruct (optionalStringSlice p k) as [[]|]. Qed.

Lemma put_ints_step k n : put_ints p k n = step (opt_ints k) p n.
Proof. unfold put_ints, opt_ints. cbn [step]. by destruct (optionalIntSlice p k) as [[]|]. Qed.

Lemma put_map_step k n : put_map p k n = step (opt_map k) p n.
Proof. unfold put_map, opt_map. cbn [step]. by destruct (optionalMap p k) as [[]|]. Qed.

Lemma put_array_step k n : put_array p k n = step (array k) p n.
Proof. unfold put_array, array, array_act. cbn [step]. by destruct (p !! k) as [[]|]. Qed.

Lemma put_objects_step k n : put_objects p k n = step (objects k) p n.
Proof.
  unfold put_objects, objects, objects_act. cbn [step]. destruct (p !! k) as [raw|]; [|done].
  by destruct (normalizeObjectArray raw _).
Qed.

Lemma put_operable_code_step runtime action k n :
  put_operable_code runtime action p k n = step (code_field runtime action k) p n.
Proof.
  unfold put_operable_code, code_field, opt_string_with. cbn [step].
  destruct (optionalString p k) as [s|e]; monad_cbn; [|done].
  destruct (s =s ""); [done|]. cbv zeta. by destruct (SupportsOperation _ _).
Qed.

Lemma trims_run ks n : run_from (trims ks) p n = Ok (trimOptionalStrings n p ks).
Proof.
  revert n. induction ks as [|k ks IH]; intros n; [done|].
  change (trims (k :: ks)) with (Field k (trim_act k) :: trims ks).
  cbn [run_from trimOptionalStrings step]. unfold trim_act at 1. cbn [mbind result_bind].
  rewrite IH. do 2 f_equal.
  destruct (optionalString p k) as [s|e]; [|done]. by destruct (s =s "").
Qed.
End idioms.

#[export] Hint Rewrite put_string_with_step put_string_step put_bool_step put_bool_or_false_step
  put_int_step put_strings_step put_ints_step put_map_step put_array_step put_objects_step
  put_operable_code_step : schema.

(** A chain of idioms against the remaining fields. *)
Ltac idioms :=
  cbn [run_from];
  repeat (autorewrite with schema;
    first [ reflexivity
          | (rewrite bind_ret_r; reflexivity)
          | (apply bind_ext; intros ? _) ]).

(** Bring a [trims] segment of the schema to the front of the goal. *)
Ltac trim_segment :=
  rewrite run_from_app, trims_run; cbn [mbind result_bind].

Section cases.
Context (p : gomap).

Lemma refine_bootstrap : normalize_node_bootstrap p = run schema_bootstrap p.
Proof.
  unfold normalize_node_bootstrap, run, schema_bootstrap, req_string. monad_cbn.
  do 2 read_case. unfold enum, bootstrap_mode. read_case. idioms.
Qed.

Lemma refine_capability_install : normalize_capability_install p = run schema_capability_install p.
Proof.
  unfold normalize_capability_install, run, schema_capability_install, req_string, lower_field. monad_cbn.
  do 4 read_case. idioms.
Qed.

Lemma refine_capability_verify : normalize_capability_verify p = run schema_capability_verify p.
Proof.
  unfold normalize_capability_verify, run, schema_capability_verify, req_string, lower_field. monad_cbn.
  by do 2 read_case.
Qed.

Lemma refine_node_only : normalize_node_only p = run schema_node_only p.
Proof. unfold normalize_node_only, run, schema_node_only, req_string. monad_cbn. by read_case. Qed.

Lemma refine_reboot : normalize_node_reboot p = run schema_reboot p.
Proof.
  unfold normalize_node_reboot, run, schema_reboot, req_string. monad_cbn. do 2 read_case. idioms.
Qed.

Lemma refine_backhaul_head : backhaul_head p = run_from schema_backhaul_head p p.
Proof.
  unfold backhaul_head, schema_backhaul_head, req_string, enum. monad_cbn. do 4 read_case.
  by do 3 read_case.
Qed.

Lemma refine_backhaul_apply : normalize_backhaul_apply p = run schema_backhaul_apply p.
Proof.
  unfold normalize_backhaul_apply, run, schema_backhaul_apply. rewrite run_from_app, refine_backhaul_head.
  apply bind_ext. intros n _. trim_segment. idioms.
Qed.

Lemma refine_backhaul_probe : normalize_backhaul_probe p = run schema_backhaul_probe p.
Proof.
  unfold normalize_backhaul_probe, run, schema_backhaul_probe. rewrite run_from_app, refine_backhaul_head.
  apply bind_ext. intros n _. trim_segment. idioms.
Qed.

Lemma refine_backhaul_cleanup : normalize_backhaul_cleanup p = run schema_backhaul_cleanup p.
Proof.
  unfold normalize_backhaul_cleanup, run, schema_backhaul_cleanup.
  rewrite run_from_app, refine_backhaul_head.
  apply bind_ext. intros n _. trim_segment. unfold opt_string_with. monad_cbn. read_case.
  destruct (_ =s "") eqn:?; monad_cbn; [idioms|]. cbv zeta.
  destruct (to_lower _ =s "disable"); monad_cbn; [idioms|done].
Qed.

Lemma refine_route_policy_apply : normalize_route_policy_apply p = run schema_route_policy_apply p.
Proof.
  unfold normalize_route_policy_apply, run, schema_route_policy_apply.
  cbn [run_from]. unfold req_string at 1. monad_cbn. read_case. idioms.
Qed.

Lemma refine_route_policy_cleanup : normalize_route_policy_cleanup p = run schema_route_policy_cleanup p.
Proof.
  unfold normalize_route_policy_cleanup, run, schema_route_policy_cleanup.
  rewrite run_from_app. unfold req_string. monad_cbn. read_case. trim_segment. idioms.
Qed.

Lemma refine_group_provision : normalize_group_provision p = run schema_group_provision p.
Proof.
  unfold normalize_group_provision, run, schema_group_provision, req_string. monad_cbn. read_case. idioms.
Qed.

Lemma refine_client_provision : normalize_client_provision p = run schema_client_provision p.
Proof.
  unfold normalize_client_provision, run, schema_client_provision, req_string. monad_cbn. read_case. idioms.
Qed.

Lemma refine_client_revoke : normalize_client_revoke p = run schema_client_revoke p.
Proof. unfold normalize_client_revoke, run, schema_client_revoke, req_string. monad_cbn. by read_case. Qed.
End cases.

(** ** Reading back a string *)

Lemma optionalString_trimmed p k s : optionalString p k = Ok s → trim_space s = s.
Proof.
  unfold optionalString. intros H. repeat case_match; simplify_eq; by rewrite ?trim_space_idemp.
Qed.

Lemma requireString_inv p k s : requireString p k = Ok s → optionalString p k = Ok s ∧ s ≠ "".
Proof.
  unfold requireString. intros H. apply bind_ok_inv in H as (v & Hv & H).
  destruct (String.eqb_spec v ""); simplify_eq. done.
Qed.

Lemma requireString_trimmed p k s : requireString p k = Ok s → trim_space s = s ∧ s ≠ "".
Proof. intros [H ?]%requireString_inv. eauto using optionalString_trimmed. Qed.

Lemma stringify_optional p k s : optionalString p k = Ok s → stringifyAny (p !! k) = s.
Proof. unfold optionalString, stringifyAny. intros. repeat case_match; simplify_eq; done. Qed.

(** The two codes as the code-or-unit check sees them after they were normalised. *)
Section code_step.
Context (p : gomap) (ok : string → R ()).

Lemma code_step_blank k n n' :
  step (Field k (opt_string_with NormalizeCode ok k)) p n = Ok n' → n !! k = p !! k →
  ∃ s, optionalString p k = Ok s ∧ (stringifyAny (n' !! k) =s "") = (s =s "").
Proof.
  cbn [step]. intros H Hn. apply bind_ok_inv in H as (a & Ha & [= <-]).
  unfold opt_string_with in Ha. apply bind_ok_inv in Ha as (s & Hs & Ha).
  exists s. split; [done|]. destruct (String.eqb_spec s "") as [->|Hne].
  - injection Ha as <-. cbn [act_apply]. rewrite Hn. erewrite stringify_optional by done. done.
  - apply bind_ok_inv in Ha as (_ & _ & [= <-]). rewrite act_apply_same. cbn [act_val stringifyAny].
    rewrite NormalizeCode_trimmed. apply String.eqb_neq, NormalizeCode_nonempty.
    by rewrite (optionalString_trimmed _ _ _ Hs).
Qed.

Lemma step_other k norm n n' k' :
  step (Field k norm) p n = Ok n' → k ≠ k' → n' !! k' = n !! k'.
Proof.
  cbn [step]. intros H Hne. apply bind_ok_inv in H as (a & _ & [= <-]). by apply act_apply_other.
Qed.
End code_step.

Lemma code_or_unit_check p ok1 ok2 n0 n1 n2 :
  step (Field "service_code" (opt_string_with NormalizeCode ok1 "service_code")) p n0 = Ok n1 →
  step (Field "runtime_service_code" (opt_string_with NormalizeCode ok2 "runtime_service_code")) p n1 = Ok n2 →
  n0 !! "service_code" = p !! "service_code" →
  n0 !! "runtime_service_code" = p !! "runtime_service_code" →
  code_or_unit p n2 = unit_check p.
Proof.
  intros Hs1 Hs2 H1 H2.
  destruct (code_step_blank _ _ _ _ _ Hs1 H1) as (s & Es & Bs).
  pose proof (step_other _ _ _ _ _ "runtime_service_code" Hs1 ltac:(done)) as O1.
  rewrite H2 in O1. destruct (code_step_blank _ _ _ _ _ Hs2 O1) as (r & Er & Br).
  pose proof (step_other _ _ _ _ _ "service_code" Hs2 ltac:(done)) as O2.
  unfold code_or_unit, unit_check. rewrite Es, Er. monad_cbn. rewrite O2, Bs, Br.
  assert (trim_space (stringifyAny (p !! "systemd_unit")) = stringifyAny (p !! "systemd_unit")) as ->; [|done].
  unfold stringifyAny. repeat case_match; rewrite ?trim_space_idemp; done.
Qed.

Section more_cases.
Context (p : gomap).

Lemma refine_emergency_cleanup : normalize_emergency_cleanup p = run schema_emergency_cleanup p.
Proof.
  unfold normalize_emergency_cleanup, run, schema_emergency_cleanup, req_string. monad_cbn.
  do 2 read_case. rewrite put_string_step. apply bind_ext. intros n1 _.
  unfold put_bool_or_false, def_bool, cleanup_scope_act. monad_cbn.
  destruct (optionalBool p "include_agent") as [[b|]|]; monad_cbn; [| |done];
    (read_case; by rewrite lookup_insert_eq).
Qed.

Lemma refine_rotate_token : normalize_rotate_token p = run schema_rotate_token p.
Proof.
  unfold normalize_rotate_token, run, schema_rotate_token, req_string, opt_string, token_check. monad_cbn.
  read_case. rename a into node. destruct (optionalString p "new_agent_token_secret_ref_id") as [ref|] eqn:Er;
    monad_cbn; [|done].
  destruct (optionalString p "new_agent_token_hash") as [hash|] eqn:Eh; monad_cbn; [|by destruct (ref =s "")].
  destruct (optionalString p "new_agent_token") as [legacy|]; monad_cbn;
    [|by destruct (ref =s ""), (hash =s "")].
  destruct (ref =s ""), (hash =s ""); monad_cbn; try done. cbn [negb orb]. monad_cbn.
  destruct (legacy =s ""); monad_cbn; [|done]. rewrite put_string_step. unfold opt_string. idioms.
Qed.

Lemma refine_artifact_build : normalize_artifact_build p = run schema_artifact_build p.
Proof.
  unfold normalize_artifact_build, run, schema_artifact_build, req_string, artifact_type_act. monad_cbn.
  read_case. unfold artifact_type, isAllowedArtifactType, ArtifactAll.
  destruct (optionalString p "artifact_type") as [s|] eqn:Es; monad_cbn; [|done].
  assert (∀ t, trim_space t = t →
    (let artifactType := to_lower (trim_space t) in
     let artifactType := if artifactType =s "" then "all" else artifactType in
     artifactType) = (if to_lower t =s "" then "all" else to_lower t)) as Ht.
  { intros t E. by rewrite E. }
  apply optionalString_trimmed in Es.
  destruct (s =s ""); monad_cbn.
  - destruct (optionalString p "type") as [t|] eqn:Et; monad_cbn; [|done].
    apply optionalString_trimmed in Et. cbv zeta in *. rewrite Ht by done.
    destruct (IsSupportedArtifactType _); monad_cbn; [idioms|done].
  - cbv zeta in *. rewrite Ht by done.
    destruct (IsSupportedArtifactType _); monad_cbn; [idioms|done].
Qed.

Lemma for_each_run (ks : list string) body (it : string → item) n :
  (∀ k n, body n k = step (it k) p n) → for_each ks body n = run_from (it <$> ks) p n.
Proof.
  intros Hb. revert n. induction ks as [|k ks IH]; intros n; [done|]. rewrite fmap_cons.
  cbn [for_each run_from]. rewrite Hb. apply bind_ext. intros n' _. apply IH.
Qed.

Lemma refine_firewall : normalize_node_firewall p = run schema_firewall p.
Proof.
  unfold normalize_node_firewall, run, schema_firewall.
  rewrite run_from_app. unfold req_string. monad_cbn. read_case. trim_segment. cbn [run_from].
  do 2 (autorewrite with schema; apply bind_ext; intros ? _).
  erewrite (for_each_run _ _ policy_field).
  - cbn [fmap list_fmap run_from]. rewrite !bind_assoc. apply bind_ext. intros ? _.
    rewrite !bind_assoc. apply bind_ext. intros ? _. rewrite bind_assoc. apply bind_ext. intros ? _.
    cbn [mbind result_bind]. idioms.
  - intros k n'. unfold policy_field, firewall_policy, enum. cbn [step]. monad_cbn.
    destruct (optionalString p k) as [v|]; monad_cbn; [|done]. cbv zeta.
    by destruct (one_of _ _).
Qed.

Lemma refine_instance jobType action :
  OperationFromJobType jobType = Some action →
  normalize_instance jobType p = run (schema_instance action) p.
Proof.
  intros Ha. unfold normalize_instance, run, schema_instance, req_string. rewrite Ha.
  rewrite run_from_app. cbn [run_from step]. monad_cbn. read_case. unfold code_field.
  rewrite !bind_assoc. rewrite put_operable_code_step. apply bind_ext. intros n1 H1.
  rewrite !bind_assoc. rewrite put_operable_code_step. apply bind_ext. intros n2 H2.
  rewrite (code_or_unit_check p _ _ _ _ _ H1 H2) by by simplify_map_eq.
  rewrite !bind_assoc. apply bind_ext. intros [] _. cbn [mbind result_bind].
  rewrite run_from_app. destruct (_ || _)%bool.
  - unfold req_map. cbn [run_from step]. destruct (requireMap p "spec"); monad_cbn; [|done].
    trim_segment. idioms.
  - monad_cbn. trim_segment. idioms.
Qed.

Lemma refine_instance_diagnose : normalize_instance_diagnose p = run schema_instance_diagnose p.
Proof.
  unfold normalize_instance_diagnose, run, schema_instance_diagnose, req_string.
  rewrite run_from_app. cbn [run_from step]. monad_cbn. read_case. unfold diagnose_code.
  rewrite !bind_assoc. rewrite put_string_with_step. apply bind_ext. intros n1 H1.
  rewrite !bind_assoc. rewrite put_string_with_step. apply bind_ext. intros n2 H2.
  rewrite (code_or_unit_check p _ _ _ _ _ H1 H2) by by simplify_map_eq.
  rewrite !bind_assoc. apply bind_ext. intros [] _. cbn [mbind result_bind].
  rewrite put_map_step, !bind_assoc. apply bind_ext. intros n3 _. cbn [mbind result_bind].
  trim_segment. idioms.
Qed.
End more_cases.

Lemma trimOptionalStrings_other n p ks k : k ∉ ks → trimOptionalStrings n p ks !! k = n !! k.
Proof.
  revert n. induction ks as [|k' ks IH]; intros n Hk; [done|].
  apply not_elem_of_cons in Hk as [Hne Hk]. cbn [trimOptionalStrings]. rewrite IH by done.
  repeat case_match; try done; by rewrite lookup_insert_ne.
Qed.

Section external_egress.
Context (p : gomap).

Lemma refine_egress_numbers n table :
  optionalString p "routing_table" = Ok table → n !! "routing_table" = Some (AString table) →
  external_egress_numbers p n = run_from (trims ["transport"; "endpoint_host"]
    ++ [req_int "route_metric"; req_int "fwmark"; Field "endpoint_port" egress_port_act;
        Ensure managed_table;
        Ensure (managed_int "route_metric" 1 32767 (Invalid "route_metric"));
        Ensure (managed_int "fwmark" 0x4d590000 0x4d59ffff (OutsideManagedRange "fwmark"));
        Field "secret_refs" secret_refs_act]) p n.
Proof.
  intros Ht Hn. unfold external_egress_numbers. trim_segment. cbv zeta.
  assert (trimOptionalStrings n p ["transport"; "endpoint_host"] !! "routing_table" = Some (AString table)) as Ht1.
  { rewrite trimOptionalStrings_other; [done|]. by rewrite list_elem_of_In; simpl; naive_solver. }
  set (t := trimOptionalStrings _ _ _) in *. clearbody t.
  unfold req_int, egress_port_act, managed_table, managed_int, secret_refs_act.
  cbn [for_each run_from step]. rewrite !bind_assoc, Ht.
  destruct (optionalInt p "route_metric") as [[metric|]|]; monad_cbn; [|done..].
  rewrite !bind_assoc.
  destruct (optionalInt p "fwmark") as [[mark|]|]; monad_cbn; [|done..].
  destruct (optionalInt p "endpoint_port") as [[port|]|]; monad_cbn; [| |done].
  1: destruct (_ || _)%bool; monad_cbn; [done|].
  all: simplify_map_eq; cbn [stringifyAny]; rewrite (optionalString_trimmed _ _ _ Ht);
    destruct (atoi table) as [z|]; monad_cbn; [|done];
    (destruct (guard_err _ (OutsideManagedRange "routing_table")) as [[]|]; monad_cbn; [|done]);
    (destruct (guard_err _ (Invalid "route_metric")) as [[]|]; monad_cbn; [|done]);
    (destruct (guard_err _ (OutsideManagedRange "fwmark")) as [[]|]; monad_cbn; [|done]);
    by destruct (p !! "secret_refs") as [[]|].
Qed.

Lemma refine_external_egress : normalize_external_egress p = run schema_external_egress p.
Proof.
  unfold normalize_external_egress, run, schema_external_egress. rewrite run_from_app.
  cbn [for_each]. unfold req_string. monad_cbn. rewrite ?bind_assoc.
  do 6 (read_case; rewrite ?bind_assoc).
  match goal with H : requireString p "protocol" = Ok ?a |- _ => rename a into protocol, H into Hp end.
  match goal with H : requireString p "routing_table" = Ok ?a |- _ => rename a into table, H into Ht end.
  destruct (requireString_inv _ _ _ Hp) as [Hpo _].
  destruct (requireString_inv _ _ _ Ht) as [Hto _].
  rewrite !(lookup_insert_ne _ _ "protocol"), lookup_insert_eq by done. cbn [stringifyAny].
  rewrite (optionalString_trimmed _ _ _ Hpo). unfold protocol_ready. rewrite Hpo. monad_cbn.
  cbv zeta. rewrite ExternalEgress.definition_normal.
  destruct (ExternalEgress.definition protocol) as [d|]; monad_cbn; [|done].
  destruct (_ =s ExternalEgress.RuntimeReady); monad_cbn; [|done].
  rewrite (refine_egress_numbers _ table) by (done || by simplify_map_eq).
  f_equal. unfold id.
  rewrite (insert_insert_ne _ "protocol" "routing_table"), (insert_insert_ne _ "protocol" "interface_name"),
    insert_insert_eq by done. done.
Qed.
End external_egress.

(** [Normalize] is the run of the schema of its trimmed job type. *)
Lemma Normalize_run jobType payload :
  Normalize jobType payload
  = match schema_of (trim_space jobType) with
    | Some its => run its (default ∅ payload)
    | None => Err (UnsupportedJobType (trim_space jobType))
    end.
Proof.
  unfold Normalize, schema_of. cbv zeta. set (p := default ∅ payload). set (t := trim_space jobType).
  destruct (t =s "platform.control_plane_tls.apply"); [done|].
  destruct (t =s "node.bootstrap"); [apply refine_bootstrap|].
  destruct (t =s "node.capability.install"); [apply refine_capability_install|].
  destruct (t =s "node.capability.verify"); [apply refine_capability_verify|].
  destruct (one_of t _); [apply refine_node_only|].
  destruct (t =s "node.emergency_cleanup"); [apply refine_emergency_cleanup|].
  destruct (t =s "node.reboot"); [apply refine_reboot|].
  destruct (t =s "node.backhaul.apply"); [apply refine_backhaul_apply|].
  destruct (t =s "node.backhaul.probe"); [apply refine_backhaul_probe|].
  destruct (t =s "node.backhaul.cleanup"); [apply refine_backhaul_cleanup|].
  destruct (one_of t _); [apply refine_external_egress|].
  destruct (t =s "node.route_policy.apply"); [apply refine_route_policy_apply|].
  destruct (t =s "node.route_policy.cleanup"); [apply refine_route_policy_cleanup|].
  destruct (one_of t _); [apply refine_firewall|].
  destruct (t =s "node.agent.rotate_token"); [apply refine_rotate_token|].
  destruct (one_of t _) eqn:Hi.
  { assert (∃ action, OperationFromJobType t = Some action) as [action Ha].
    { apply one_of_spec in Hi.
      repeat (apply elem_of_cons in Hi as [->|Hi]; [by vm_compute; eauto|]). by apply elem_of_nil in Hi. }
    rewrite Ha. by apply refine_instance. }
  destruct (t =s "instance.diagnose"); [apply refine_instance_diagnose|].
  destruct (t =s "client_access_group.provision"); [apply refine_group_provision|].
  destruct (t =s "client.provision"); [apply refine_client_provision|].
  destruct (t =s "artifact.build"); [apply refine_artifact_build|].
  destruct (t =s "client.revoke"); [apply refine_client_revoke|]. done.
Qed.
