(* ===== verification/JobSchemaProps.v ===== *)
(** * What a normalised payload satisfies

    Stability of the kinds of fields, then the theorems on [Normalize]: the
    declarative characterisation, idempotence, and the contract of the job
    types that carry addresses, credentials or ranges. *)
From S2P Require Import Prelude GoStrings Strconv GoValue Driver Backhaul ExternalEgress JobSchema JobSchemaSpec JobSchemaRefine.
From Stdlib Require Import Ascii.
From stdpp Require Import options.
Open Scope Z_scope.

(** ** Readers on a written key *)

Lemma optionalString_put n k v : n !! k = Some (AString v) → optionalString n k = Ok (trim_space v).
Proof. unfold optionalString. by intros ->. Qed.
Lemma optionalString_local n p k : n !! k = p !! k → optionalString n k = optionalString p k.
Proof. unfold optionalString. by intros ->. Qed.
Lemma requireString_put n k v :
  n !! k = Some (AString v) → trim_space v = v → v ≠ "" → requireString n k = Ok v.
Proof.
  intros H Ht Hv. unfold requireString. rewrite (optionalString_put _ _ _ H), Ht. cbn.
  by destruct (String.eqb_spec v "").
Qed.
Lemma optionalBool_local n p k : n !! k = p !! k → optionalBool n k = optionalBool p k.
Proof. unfold optionalBool. by intros ->. Qed.
Lemma optionalInt_local n p k : n !! k = p !! k → optionalInt n k = optionalInt p k.
Proof. unfold optionalInt. by intros ->. Qed.

Lemma trimmed_items l :
  trim_space <$> List.filter not_blank (trim_space <$> l) = List.filter not_blank (trim_space <$> l)
  ∧ List.filter not_blank (List.filter not_blank (trim_space <$> l)) = List.filter not_blank (trim_space <$> l).
Proof.
  induction l as [|s l [IH1 IH2]]; [done|]. rewrite fmap_cons. cbn [List.filter].
  destruct (not_blank (trim_space s)) eqn:E; [|done]. rewrite fmap_cons. cbn [List.filter].
  by rewrite IH1, E, IH2, trim_space_idemp.
Qed.

Lemma string_items_filter k l v :
  string_items k l = Ok v → ∃ ss, l = AString <$> ss ∧ v = List.filter not_blank (trim_space <$> ss).
Proof.
  revert v. induction l as [|x l IH]; intros v H; [exists []; simpl in H; by simplify_eq|].
  destruct x; try discriminate. cbn [string_items] in H.
  apply bind_ok_inv in H as (out & Ho & [= <-]). destruct (IH _ Ho) as (ss & -> & ->).
  exists (s :: ss). by rewrite !fmap_cons.
Qed.

Definition port_ok (z : Z) : Prop := 1 ≤ z ≤ 65535.

Lemma port_items_ok k l v : port_items k l = Ok v → Forall port_ok v.
Proof.
  revert v. induction l as [|x l IH]; intros v H; cbn [port_items] in H; [by simplify_eq|].
  apply bind_ok_inv in H as (z & Hz & H). apply bind_ok_inv in H as (out & Ho & [= <-]).
  constructor; [|by apply IH]. unfold port_item in Hz. apply bind_ok_inv in Hz as (y & _ & Hy).
  destruct (_ || _) eqn:E; simplify_eq. unfold port_ok. lia.
Qed.

Lemma port_items_fix k v : Forall port_ok v → port_items k (AInt <$> v) = Ok v.
Proof.
  induction 1 as [|z v Hz _ IH]; [done|]. rewrite fmap_cons. cbn [port_items].
  unfold port_item. unfold port_ok in Hz. cbn [mbind result_bind].
  replace (_ || _) with false by lia. by rewrite IH.
Qed.

Lemma object_items_maps field idx l v : object_items field idx l = Ok v → v = l ∧ ∃ ms, l = AMap <$> ms.
Proof.
  revert idx v. induction l as [|x l IH]; intros idx v H; cbn [object_items] in H.
  - simplify_eq. split; [done|]. by exists [].
  - destruct x; try discriminate. apply bind_ok_inv in H as (out & Ho & [= <-]).
    destruct (IH _ _ Ho) as (-> & ms & ->). split; [done|]. by exists (m :: ms).
Qed.

Lemma object_items_fix field idx ms : object_items field idx (AMap <$> ms) = Ok (AMap <$> ms).
Proof.
  revert idx. induction ms as [|m ms IH]; intros idx; [done|]. rewrite fmap_cons. cbn [object_items].
  by rewrite IH.
Qed.

(** ** Stable fields *)

Section stable_fields.
Context (k : string).

Lemma stable_req_string_with f ok :
  (∀ s, trim_space s = s → s ≠ "" → ok (f s) = Ok tt →
    trim_space (f s) = f s ∧ f s ≠ "" ∧ f (f s) = f s) →
  stable k (req_string_with f ok k).
Proof.
  intros Hf p n a Ha Hn. unfold req_string_with in *.
  apply bind_ok_inv in Ha as (s & Hs & Ha). apply bind_ok_inv in Ha as ([] & Hok & [= <-]).
  destruct (requireString_trimmed _ _ _ Hs) as [Ht Hne].
  destruct (Hf s Ht Hne Hok) as (E1 & E2 & E3). cbn [act_val] in *.
  rewrite (requireString_put _ _ _ Hn E1 E2). exists (Put (AString (f s))). cbn.
  by rewrite E3, Hok.
Qed.

Lemma stable_opt_string_with f ok :
  (∀ s, trim_space s = s → s ≠ "" → ok (f s) = Ok tt →
    trim_space (f s) = f s ∧ f s ≠ "" ∧ f (f s) = f s) →
  stable k (opt_string_with f ok k).
Proof.
  intros Hf p n a Ha Hn. unfold opt_string_with in *.
  apply bind_ok_inv in Ha as (s & Hs & Ha). destruct (String.eqb_spec s "") as [->|Hne].
  - injection Ha as <-. cbn [act_val] in *. rewrite (optionalString_local _ _ _ Hn), Hs.
    exists Keep. done.
  - apply bind_ok_inv in Ha as ([] & Hok & [= <-]).
    destruct (Hf s (optionalString_trimmed _ _ _ Hs) Hne Hok) as (E1 & E2 & E3). cbn [act_val] in *.
    rewrite (optionalString_put _ _ _ Hn), E1. cbn. destruct (String.eqb_spec (f s) ""); [done|].
    exists (Put (AString (f s))). by rewrite E3, Hok.
Qed.

Lemma stable_def_string f ok :
  (∀ s, trim_space s = s → ok (f s) = Ok tt → trim_space (f s) = f s ∧ f (f s) = f s) →
  stable k (def_string f ok k).
Proof.
  intros Hf p n a Ha Hn. unfold def_string in *.
  apply bind_ok_inv in Ha as (s & Hs & Ha). apply bind_ok_inv in Ha as ([] & Hok & [= <-]).
  destruct (Hf s (optionalString_trimmed _ _ _ Hs) Hok) as (E1 & E2). cbn [act_val] in *.
  rewrite (optionalString_put _ _ _ Hn), E1. cbn. exists (Put (AString (f s))). by rewrite E2, Hok.
Qed.

Lemma stable_trim : stable k (trim_act k).
Proof.
  intros p n a Ha Hn. unfold trim_act in *. injection Ha as <-.
  destruct (optionalString p k) as [s|] eqn:Hs.
  - destruct (String.eqb_spec s "") as [->|Hne]; cbn [act_val] in *.
    + rewrite (optionalString_local _ _ _ Hn), Hs. by exists Keep.
    + rewrite (optionalString_put _ _ _ Hn), (optionalString_trimmed _ _ _ Hs). eexists. split; [done|].
      by destruct (String.eqb_spec s "").
  - cbn [act_val] in *. rewrite (optionalString_local _ _ _ Hn), Hs. by exists Keep.
Qed.

(** The fields that keep an absent value and store a typed one: [c] is the
    constructor of the stored type and [read] reads it back. *)
Lemma stable_keep_or {A} (read : gomap → string → R (option A)) (c : A → any) :
  (∀ n p, n !! k = p !! k → read n k = read p k) →
  (∀ p v, read p k = Ok (Some v) → ∀ n, n !! k = Some (c v) → read n k = Ok (Some v)) →
  stable k (λ p, keep_or c <$> read p k).
Proof.
  intros Hl Hr p n a Ha Hn. destruct (read p k) as [[v|]|] eqn:E; cbn in Ha; simplify_eq; cbn [keep_or act_val] in Hn.
  - rewrite (Hr p v E n Hn). cbn. eauto.
  - rewrite (Hl _ _ Hn), E. cbn. eauto.
Qed.

Lemma stable_opt_bool : stable k (λ p, keep_or ABool <$> optionalBool p k).
Proof.
  apply (stable_keep_or optionalBool ABool); [intros ??; apply optionalBool_local|]. intros p v _ n Hn. unfold optionalBool. by rewrite Hn.
Qed.

Lemma stable_def_bool : stable k (λ p, (λ o, Put (ABool (default false o))) <$> optionalBool p k).
Proof.
  intros p n a Ha Hn. destruct (optionalBool p k); cbn in Ha; simplify_eq. cbn [act_val] in Hn.
  unfold optionalBool at 1. rewrite Hn. cbn. eauto.
Qed.

Lemma stable_opt_int : stable k (λ p, keep_or AInt <$> optionalInt p k).
Proof.
  apply (stable_keep_or optionalInt AInt); [intros ??; apply optionalInt_local|]. intros p v _ n Hn. unfold optionalInt. by rewrite Hn.
Qed.

Lemma stable_req_int :
  stable k (λ p, v ← optionalInt p k; match v with Some v => Ok (Put (AInt v)) | None => Err (Required k) end).
Proof.
  intros p n a Ha Hn. apply bind_ok_inv in Ha as ([v|] & _ & [= <-]). cbn [act_val] in Hn.
  unfold optionalInt. rewrite Hn. cbn. eauto.
Qed.

Lemma stable_opt_strings : stable k (λ p, keep_or AStrings <$> optionalStringSlice p k).
Proof.
  apply (stable_keep_or optionalStringSlice AStrings); [intros n p H; unfold optionalStringSlice; by rewrite H|].
  intros p v Hv n Hn.
  assert (∃ ss, v = List.filter not_blank (trim_space <$> ss)) as [ss ->].
  { unfold optionalStringSlice in Hv. repeat case_match; simplify_eq; [by eexists|].
    destruct (string_items k l) eqn:E; cbn in Hv; simplify_eq.
    apply string_items_filter in E as (ss & _ & ->). by exists ss. }
  unfold optionalStringSlice. rewrite Hn. destruct (trimmed_items ss) as [E1 E2]. by rewrite E1, E2.
Qed.

Lemma stable_opt_ints : stable k (λ p, keep_or AInts <$> optionalIntSlice p k).
Proof.
  apply (stable_keep_or optionalIntSlice AInts); [intros n p H; unfold optionalIntSlice; by rewrite H|].
  intros p v Hv n Hn.
  assert (Forall port_ok v) as Hok.
  { unfold optionalIntSlice in Hv. repeat case_match; simplify_eq;
      match type of Hv with context [port_items k ?x] => destruct (port_items k x) eqn:E end;
      cbn in Hv; simplify_eq; by eapply port_items_ok. }
  unfold optionalIntSlice. rewrite Hn. by rewrite port_items_fix.
Qed.

Lemma stable_opt_map : stable k (λ p, keep_or AMap <$> optionalMap p k).
Proof.
  apply (stable_keep_or optionalMap AMap); [intros n p H; unfold optionalMap; by rewrite H|].
  intros p v _ n Hn. unfold optionalMap. by rewrite Hn.
Qed.

Lemma stable_req_map : stable k (λ p, Put ∘ AMap <$> requireMap p k).
Proof.
  intros p n a Ha Hn. destruct (requireMap p k) as [m|]; cbn in Ha; simplify_eq. cbn [act_val compose] in Hn.
  unfold requireMap. rewrite Hn. cbn. eauto.
Qed.

Lemma stable_array : stable k (array_act k).
Proof.
  intros p n a Ha Hn. unfold array_act in *. repeat case_match; simplify_eq; cbn [act_val] in *; eauto.
Qed.

Lemma stable_objects : stable k (objects_act k).
Proof.
  intros p n a Ha Hn. unfold objects_act in *.
  assert (∃ ms, a = Put (ASlice (AMap <$> ms))) as [ms ->].
  { destruct (p !! k) as [raw|]; [|simplify_eq; by exists []].
    apply bind_ok_inv in Ha as (l & Hl & [= <-]). unfold normalizeObjectArray in Hl.
    destruct raw; simplify_eq; [|by eexists].
    apply object_items_maps in Hl as (-> & ms & ->). by exists ms. }
  cbn [act_val] in Hn. rewrite Hn. cbn [normalizeObjectArray]. rewrite object_items_fix. cbn. eauto.
Qed.

Lemma stable_const v : stable k (λ _, Ok (Put v)).
Proof. intros p n a [= <-] Hn. eauto. Qed.

Lemma stable_drop : stable k (λ _, Ok Drop).
Proof. intros p n a [= <-] Hn. exists Drop. by rewrite Hn. Qed.

Lemma stable_secret_refs : k = "secret_refs" → stable k secret_refs_act.
Proof.
  intros -> p n a Ha Hn. unfold secret_refs_act in *.
  repeat case_match; simplify_eq; cbn [act_val] in *; eauto.
Qed.

Lemma stable_egress_port : k = "endpoint_port" → stable k egress_port_act.
Proof.
  intros -> p n a Ha Hn. unfold egress_port_act in *. apply bind_ok_inv in Ha as (o & Ho & Ha).
  destruct o as [z|].
  - destruct (_ || _) eqn:E; simplify_eq. cbn [act_val] in Hn. unfold optionalInt. rewrite Hn. cbn.
    rewrite E. eauto.
  - simplify_eq. cbn [act_val] in Hn. rewrite (optionalInt_local _ _ _ Hn), Ho. by exists Keep.
Qed.
End stable_fields.

(** ** Items that a result of the run leaves alone *)

Definition steady (f : string → string) (ok : string → R ()) : Prop :=
  ∀ s, trim_space s = s → s ≠ "" → ok (f s) = Ok tt → trim_space (f s) = f s ∧ f s ≠ "" ∧ f (f s) = f s.

Lemma steady_id ok : steady id ok.
Proof. intros s Ht Hne _. by unfold id. Qed.

Lemma steady_lower ok : steady to_lower ok.
Proof.
  intros s Ht Hne _. split_and!; [by apply to_lower_trimmed| |apply to_lower_idemp].
  by rewrite to_lower_eq_nil.
Qed.

Lemma steady_code ok : steady NormalizeCode ok.
Proof.
  intros s Ht Hne _. split_and!; [apply NormalizeCode_trimmed| |apply NormalizeCode_idemp].
  apply NormalizeCode_nonempty. by rewrite Ht.
Qed.

Lemma steady_driver : steady Backhaul.NormalizeDriver (λ d, map_err DriverRejected (Backhaul.ValidateDriver d)).
Proof.
  intros s Ht Hne Hok. apply map_err_ok in Hok.
  apply Backhaul.ValidateDriver_code in Hok. rewrite Backhaul.NormalizeDriver_idemp in Hok.
  split_and!; [apply Backhaul.NormalizeDriver_trimmed| |apply Backhaul.NormalizeDriver_idemp].
  intros E. rewrite E in Hok. apply one_of_spec in Hok. by vm_compute in Hok.
Qed.

Lemma steady_protocol ok : steady ExternalEgress.NormalizeProtocol ok.
Proof.
  intros s Ht Hne _.
  split_and!; [apply ExternalEgress.NormalizeProtocol_trimmed| |apply ExternalEgress.NormalizeProtocol_idemp].
  apply ExternalEgress.NormalizeProtocol_nonempty. by rewrite Ht.
Qed.

#[export] Hint Resolve steady_id steady_lower steady_code steady_driver steady_protocol : schema.

Section fixed_items.
Context (n : gomap) (k : string).

Lemma fixed_req_with f ok : steady f ok → fixed n (Field k (req_string_with f ok k)).
Proof. left. by apply stable_req_string_with. Qed.
Lemma fixed_opt_with f ok : steady f ok → fixed n (Field k (opt_string_with f ok k)).
Proof. left. by apply stable_opt_string_with. Qed.
Lemma fixed_bool : fixed n (opt_bool k).
Proof. left. apply stable_opt_bool. Qed.
Lemma fixed_def_bool : fixed n (def_bool k).
Proof. left. apply stable_def_bool. Qed.
Lemma fixed_int : fixed n (opt_int k).
Proof. left. apply stable_opt_int. Qed.
Lemma fixed_req_int : fixed n (req_int k).
Proof. left. apply stable_req_int. Qed.
Lemma fixed_strings : fixed n (opt_strings k).
Proof. left. apply stable_opt_strings. Qed.
Lemma fixed_ints : fixed n (opt_ints k).
Proof. left. apply stable_opt_ints. Qed.
Lemma fixed_map : fixed n (opt_map k).
Proof. left. apply stable_opt_map. Qed.
Lemma fixed_req_map : fixed n (req_map k).
Proof. left. apply stable_req_map. Qed.
Lemma fixed_array : fixed n (array k).
Proof. left. apply stable_array. Qed.
Lemma fixed_objects : fixed n (objects k).
Proof. left. apply stable_objects. Qed.
Lemma fixed_const v : fixed n (Field k (λ _, Ok (Put v))).
Proof. left. apply stable_const. Qed.
Lemma fixed_drop : fixed n (Field k (λ _, Ok Drop)).
Proof. left. apply stable_drop. Qed.
Lemma fixed_req : fixed n (req_string k).
Proof. apply fixed_req_with, steady_id. Qed.
Lemma fixed_opt : fixed n (opt_string k).
Proof. apply fixed_opt_with, steady_id. Qed.
Lemma fixed_lower : fixed n (lower_field k).
Proof. apply fixed_req_with, steady_lower. Qed.
Lemma fixed_code runtime action : fixed n (code_field runtime action k).
Proof. apply fixed_opt_with, steady_code. Qed.
Lemma fixed_diagnose : fixed n (diagnose_code k).
Proof. apply fixed_opt_with, steady_code. Qed.

Lemma fixed_policy : fixed n (policy_field k).
Proof.
  left. apply stable_def_string. intros s Ht _. unfold firewall_policy.
  destruct (String.eqb_spec (to_lower s) "") as [E|E]; [done|].
  rewrite to_lower_idemp. split; [by apply to_lower_trimmed|]. by destruct (String.eqb_spec (to_lower s) "").
Qed.
End fixed_items.

Lemma fixed_trims n ks : Forall (fixed n) (trims ks).
Proof. apply Forall_fmap, Forall_true. intros k. left. apply stable_trim. Qed.

Lemma fixed_bootstrap_mode n : 
  fixed n (Field "bootstrap_mode" (def_string bootstrap_mode
    (enum "bootstrap_mode" ["ssh_bootstrap"; "manual_bundle"]) "bootstrap_mode")).
Proof.
  left. apply stable_def_string. intros s Ht _. unfold bootstrap_mode.
  destruct (String.eqb_spec s ""); [done|]. by destruct (String.eqb_spec s "").
Qed.

#[export] Hint Resolve fixed_req_with fixed_opt_with fixed_bool fixed_def_bool fixed_int fixed_req_int
  fixed_strings fixed_ints fixed_map fixed_req_map fixed_array fixed_objects fixed_const fixed_drop
  fixed_req fixed_opt fixed_lower fixed_code fixed_diagnose fixed_policy fixed_trims
  fixed_bootstrap_mode : schema.

(** Open a schema into its items and discharge the stable ones. *)
Ltac fixed_items :=
  repeat first [ apply fixed_trims | apply Forall_app_2 | apply Forall_cons_2 | apply Forall_nil_2 ];
  eauto with schema.

Ltac keys_nodup := apply (bool_decide_unpack _); vm_compute; exact I.

(** ** Idempotence of the runs *)

(** What the run left in one field. *)
Lemma run_field its p n k norm :
  run its p = Ok n → NoDup (keys_of its) → Field k norm ∈ its →
  ∃ a, norm p = Ok a ∧ n !! k = act_val a (p !! k).
Proof. intros Hr Hd Hin. destruct (run_from_spec _ _ _ _ Hr Hd) as (Hf & _). by apply Hf. Qed.

Lemma run_check its p n c :
  run its p = Ok n → NoDup (keys_of its) → Ensure c ∈ its → c p = Ok tt.
Proof. intros Hr Hd Hin. destruct (run_from_spec _ _ _ _ Hr Hd) as (_ & Hc & _). by apply Hc. Qed.

Ltac in_schema := repeat first [ apply list_elem_of_here | apply list_elem_of_further ].

(** The value of a string field after the run. *)
Lemma req_string_value its p n k f ok :
  run its p = Ok n → NoDup (keys_of its) → Field k (req_string_with f ok k) ∈ its →
  ∃ s, requireString p k = Ok s ∧ ok (f s) = Ok tt ∧ n !! k = Some (AString (f s)).
Proof.
  intros Hr Hd Hin. destruct (run_field _ _ _ _ _ Hr Hd Hin) as (a & Ha & Hn).
  unfold req_string_with in Ha. apply bind_ok_inv in Ha as (s & Hs & Ha).
  apply bind_ok_inv in Ha as ([] & Hok & [= <-]). eauto.
Qed.

Lemma opt_string_value its p n k f ok :
  run its p = Ok n → NoDup (keys_of its) → Field k (opt_string_with f ok k) ∈ its →
  ∃ s, optionalString p k = Ok s
    ∧ (s = "" ∧ n !! k = p !! k ∨ s ≠ "" ∧ ok (f s) = Ok tt ∧ n !! k = Some (AString (f s))).
Proof.
  intros Hr Hd Hin. destruct (run_field _ _ _ _ _ Hr Hd Hin) as (a & Ha & Hn).
  unfold opt_string_with in Ha. apply bind_ok_inv in Ha as (s & Hs & Ha). exists s. split; [done|].
  destruct (String.eqb_spec s ""); [simplify_eq; by left|].
  apply bind_ok_inv in Ha as ([] & Hok & [= <-]). by right.
Qed.

(** Blankness of an optional string survives the run. *)
Lemma opt_string_after its p n k f ok :
  run its p = Ok n → NoDup (keys_of its) → Field k (opt_string_with f ok k) ∈ its → steady f ok →
  ∃ s t, optionalString p k = Ok s ∧ optionalString n k = Ok t ∧ (t =s "") = (s =s "").
Proof.
  intros Hr Hd Hin Hf. destruct (opt_string_value _ _ _ _ _ _ Hr Hd Hin) as (s & Hs & [[-> Hn]|(Hne & Hok & Hn)]).
  - exists "", "". by rewrite (optionalString_local _ _ _ Hn).
  - destruct (Hf s (optionalString_trimmed _ _ _ Hs) Hne Hok) as (Ht & Hfs & _).
    exists s, (f s). rewrite (optionalString_put _ _ _ Hn), Ht. split_and!; [done|done|].
    by destruct (String.eqb_spec (f s) ""), (String.eqb_spec s "").
Qed.

Section idempotent_runs.
Context (p n : gomap).

Lemma idemp_emergency_cleanup :
  run schema_emergency_cleanup p = Ok n → run schema_emergency_cleanup n = Ok n.
Proof.
  intros Hr. assert (NoDup (keys_of schema_emergency_cleanup)) as Hd by keys_nodup.
  apply (run_idemp _ p); [done|done|]. unfold schema_emergency_cleanup. fixed_items.
  right.
  assert (Field "cleanup_scope" cleanup_scope_act ∈ schema_emergency_cleanup) as Hin by in_schema.
  destruct (run_field _ _ _ _ _ Hr Hd Hin) as (a & Ha & Hn). clear Hin.
  assert (def_bool "include_agent" ∈ schema_emergency_cleanup) as Hin by in_schema.
  destruct (run_field _ _ _ _ _ Hr Hd Hin) as (b & Hb & Hnb).
  unfold cleanup_scope_act in Ha. apply bind_ok_inv in Ha as (s & Hs & Ha).
  apply bind_ok_inv in Ha as (o & Ho & [= <-]). rewrite Ho in Hb. cbn in Hb. injection Hb as <-.
  cbn [act_val] in Hn, Hnb. rewrite Hn. unfold cleanup_scope_act.
  rewrite (optionalString_put _ _ _ Hn). unfold optionalBool. rewrite Hnb. cbn [mbind result_bind].
  eexists. split; [done|]. cbn [act_val default id]. do 2 f_equal.
  unfold normalizeNodeCleanupScope at 2 3.
  repeat match goal with |- context [if ?b then _ else _] => destruct b end; by vm_compute.
Qed.

Lemma protocol_ready_value s m :
  m !! "protocol" = Some (AString s) → trim_space s = s →
  protocol_ready m = match ExternalEgress.definition s with
    | Some d => guard_err (ExternalEgress.RuntimeSupport d =s ExternalEgress.RuntimeReady) ProtocolNotReady
    | None => Err ProtocolUnsupported
    end.
Proof. intros Hm Ht. unfold protocol_ready. by rewrite (optionalString_put _ _ _ Hm), Ht. Qed.

Lemma managed_int_keep k lo hi e o :
  optionalInt p k = Ok (Some o) → n !! k = Some (AInt o) →
  managed_int k lo hi e p = Ok tt → managed_int k lo hi e n = Ok tt.
Proof. intros Hp Hn. unfold managed_int. rewrite Hp. unfold optionalInt. by rewrite Hn. Qed.

Lemma req_int_value its k :
  run its p = Ok n → NoDup (keys_of its) → req_int k ∈ its →
  ∃ v, optionalInt p k = Ok (Some v) ∧ n !! k = Some (AInt v).
Proof.
  intros Hr Hd Hin. destruct (run_field _ _ _ _ _ Hr Hd Hin) as (a & Ha & Hn).
  apply bind_ok_inv in Ha as ([v|] & Hv & [= <-]). eauto.
Qed.

Lemma idemp_external_egress :
  run schema_external_egress p = Ok n → run schema_external_egress n = Ok n.
Proof.
  intros Hr. assert (NoDup (keys_of schema_external_egress)) as Hd by keys_nodup.
  apply (run_idemp _ p); [done|done|]. unfold schema_external_egress. fixed_items.
  - assert (Field "protocol" (req_string_with ExternalEgress.NormalizeProtocol anything "protocol")
      ∈ schema_external_egress) as Hin by in_schema.
    destruct (req_string_value _ _ _ _ _ _ Hr Hd Hin) as (s & Hs & _ & Hn).
    assert (Ensure protocol_ready ∈ schema_external_egress) as Hc by in_schema.
    apply (run_check _ _ _ _ Hr Hd) in Hc. unfold protocol_ready in Hc.
    apply requireString_inv in Hs as [Hs _]. rewrite Hs in Hc. cbn [mbind result_bind] in Hc.
    cbn [fixed]. rewrite (protocol_ready_value _ _ Hn (ExternalEgress.NormalizeProtocol_trimmed s)).
    by rewrite ExternalEgress.definition_normal.
  - left. by apply stable_egress_port.
  - assert (req_string "routing_table" ∈ schema_external_egress) as Hin by in_schema.
    destruct (req_string_value _ _ _ _ _ _ Hr Hd Hin) as (s & Hs & _ & Hn).
    assert (Ensure managed_table ∈ schema_external_egress) as Hc by in_schema.
    apply (run_check _ _ _ _ Hr Hd) in Hc. unfold managed_table in *. cbn [fixed].
    destruct (requireString_trimmed _ _ _ Hs) as [Ht _].
    apply requireString_inv in Hs as [Hs _]. rewrite Hs in Hc. rewrite (optionalString_put _ _ _ Hn).
    unfold id. by rewrite Ht.
  - assert (req_int "route_metric" ∈ schema_external_egress) as Hin by in_schema.
    destruct (req_int_value _ _ Hr Hd Hin) as (v & Hv & Hn).
    eapply managed_int_keep; [done|done|]. eapply run_check; [done|done|in_schema].
  - assert (req_int "fwmark" ∈ schema_external_egress) as Hin by in_schema.
    destruct (req_int_value _ _ Hr Hd Hin) as (v & Hv & Hn).
    eapply managed_int_keep; [done|done|]. eapply run_check; [done|done|in_schema].
  - left. by apply stable_secret_refs.
Qed.
End idempotent_runs.

Lemma guard_iff (b b' : bool) (e : ValidationError) :
  b = b' → guard_err b e = Ok tt → guard_err b' e = Ok tt.
Proof. by intros ->. Qed.

Lemma trim_stringify its p n k :
  run its p = Ok n → NoDup (keys_of its) → Field k (trim_act k) ∈ its →
  stringifyAny (n !! k) = stringifyAny (p !! k).
Proof.
  intros Hr Hd Hin. destruct (run_field _ _ _ _ _ Hr Hd Hin) as (a & [= <-] & Hn). rewrite Hn.
  destruct (optionalString p k) as [s|] eqn:Hs; [|done].
  destruct (String.eqb_spec s ""); [done|]. cbn [act_val stringifyAny].
  by rewrite (optionalString_trimmed _ _ _ Hs), (stringify_optional _ _ _ Hs).
Qed.

Lemma unit_check_after its p n ok1 ok2 :
  run its p = Ok n → NoDup (keys_of its) →
  Field "service_code" (opt_string_with NormalizeCode ok1 "service_code") ∈ its →
  Field "runtime_service_code" (opt_string_with NormalizeCode ok2 "runtime_service_code") ∈ its →
  Field "systemd_unit" (trim_act "systemd_unit") ∈ its → Ensure unit_check ∈ its →
  unit_check n = Ok tt.
Proof.
  intros Hr Hd H1 H2 H3 Hc. apply (run_check _ _ _ _ Hr Hd) in Hc.
  destruct (opt_string_after _ _ _ _ _ _ Hr Hd H1 (steady_code _)) as (s & s' & Hs & Hs' & Es).
  destruct (opt_string_after _ _ _ _ _ _ Hr Hd H2 (steady_code _)) as (t & t' & Ht & Ht' & Et).
  unfold unit_check in *. rewrite Hs, Ht in Hc. rewrite Hs', Ht'. cbn [mbind result_bind] in *.
  by rewrite Es, Et, (trim_stringify _ _ _ _ Hr Hd H3).
Qed.

Section more_idempotent_runs.
Context (p n : gomap).

Lemma idemp_rotate_token : run schema_rotate_token p = Ok n → run schema_rotate_token n = Ok n.
Proof.
  intros Hr. assert (NoDup (keys_of schema_rotate_token)) as Hd by keys_nodup.
  apply (run_idemp _ p); [done|done|]. unfold schema_rotate_token. fixed_items. cbn [fixed].
  assert (Ensure token_check ∈ schema_rotate_token) as Hc by in_schema.
  apply (run_check _ _ _ _ Hr Hd) in Hc.
  assert (opt_string "new_agent_token_secret_ref_id" ∈ schema_rotate_token) as H1 by in_schema.
  assert (opt_string "new_agent_token_hash" ∈ schema_rotate_token) as H2 by in_schema.
  destruct (opt_string_after _ _ _ _ _ _ Hr Hd H1 (steady_id _)) as (s & s' & Hs & Hs' & Es).
  destruct (opt_string_after _ _ _ _ _ _ Hr Hd H2 (steady_id _)) as (t & t' & Ht & Ht' & Et).
  destruct (run_from_spec _ _ _ _ Hr Hd) as (_ & _ & Ho).
  assert (n !! "new_agent_token" = p !! "new_agent_token") as Hl.
  { apply Ho. apply (bool_decide_unpack _). vm_compute. exact I. }
  unfold token_check in *. rewrite Hs, Ht in Hc. rewrite Hs', Ht', (optionalString_local _ _ _ Hl).
  cbn [mbind result_bind] in *. by rewrite Es, Et.
Qed.

Lemma idemp_artifact_build : run schema_artifact_build p = Ok n → run schema_artifact_build n = Ok n.
Proof.
  intros Hr. assert (NoDup (keys_of schema_artifact_build)) as Hd by keys_nodup.
  apply (run_idemp _ p); [done|done|]. unfold schema_artifact_build. fixed_items. right.
  assert (Field "artifact_type" artifact_type_act ∈ schema_artifact_build) as H1 by in_schema.
  destruct (run_field _ _ _ _ _ Hr Hd H1) as (a & Ha & Hn).
  unfold artifact_type_act in Ha. apply bind_ok_inv in Ha as (s & Hs & Ha).
  apply bind_ok_inv in Ha as (t & Ht & Ha). apply bind_ok_inv in Ha as ([] & Hok & [= <-]).
  cbn [act_val] in Hn.
  assert (trim_space t = t) as Htt.
  { destruct (s =s ""); [by eapply optionalString_trimmed|]. simplify_eq. by eapply optionalString_trimmed. }
  unfold artifact_type_act. rewrite (optionalString_put _ _ _ Hn).
  assert (trim_space (artifact_type t) = artifact_type t ∧ artifact_type t ≠ ""
    ∧ artifact_type (artifact_type t) = artifact_type t) as (E1 & E2 & E3).
  { unfold artifact_type. destruct (String.eqb_spec (to_lower t) "") as [|Hne]; [by vm_compute|].
    rewrite to_lower_idemp. split_and!; [by apply to_lower_trimmed|done|].
    by destruct (String.eqb_spec (to_lower t) ""). }
  rewrite E1. cbn [mbind result_bind]. destruct (String.eqb_spec (artifact_type t) ""); [done|].
  cbn [mbind result_bind]. rewrite E3, Hok. cbn [guard_err]. eexists. split; [done|]. by rewrite Hn.
Qed.

Lemma idemp_instance action :
  run (schema_instance action) p = Ok n → run (schema_instance action) n = Ok n.
Proof.
  intros Hr.
  assert (NoDup (keys_of (schema_instance action))) as Hd.
  { unfold schema_instance. destruct (_ || _)%bool; keys_nodup. }
  assert (∀ it, it ∈ trims ["name"; "slug"; "systemd_unit"; "endpoint_host"] → it ∈ schema_instance action) as Ht.
  { intros it Hin. unfold schema_instance. rewrite !elem_of_app. auto. }
  assert (∀ it, it ∈ [code_field false action "service_code"; code_field true action "runtime_service_code";
    Ensure unit_check] → it ∈ schema_instance action) as Hh.
  { intros it Hin. unfold schema_instance. rewrite elem_of_app. left. set_solver. }
  apply (run_idemp _ p); [done|done|]. unfold schema_instance.
  fixed_items; [|by destruct (_ || _)%bool; fixed_items].
  cbn [fixed]. eapply (unit_check_after _ p); [exact Hr|done|apply Hh; in_schema|apply Hh; in_schema|
    apply Ht; in_schema|apply Hh; in_schema].
Qed.

Lemma idemp_instance_diagnose :
  run schema_instance_diagnose p = Ok n → run schema_instance_diagnose n = Ok n.
Proof.
  intros Hr. assert (NoDup (keys_of schema_instance_diagnose)) as Hd by keys_nodup.
  apply (run_idemp _ p); [done|done|]. unfold schema_instance_diagnose. fixed_items.
  cbn [fixed]. eapply (unit_check_after _ p); [exact Hr|done| | | |];
    unfold schema_instance_diagnose; rewrite ?elem_of_app; cbn [trims fmap list_fmap];
    [left; in_schema|left; in_schema|right; left; in_schema|left; in_schema].
Qed.

(** The schemas whose fields are all stable. *)
Lemma idemp_plain its :
  run its p = Ok n → NoDup (keys_of its) → Forall (fixed n) its → run its n = Ok n.
Proof. intros Hr Hd Hf. by apply (run_idemp _ p). Qed.

(** One branch of the dispatch. *)
Lemma idemp_case (b : bool) its its' rest :
  (run its' p = Ok n → run its' n = Ok n) →
  (rest = Some its → run its p = Ok n → run its n = Ok n) →
  (if b then Some its' else rest) = Some its → run its p = Ok n → run its n = Ok n.
Proof. intros H1 H2. destruct b; [|done]. intros [= <-]. exact H1. Qed.

Ltac plain x := apply idemp_case;
  [intros ?; apply idemp_plain; [assumption|keys_nodup|unfold x; fixed_items]|].

Lemma idemp_schema jobType its :
  schema_of jobType = Some its → run its p = Ok n → run its n = Ok n.
Proof.
  unfold schema_of.
  apply idemp_case; [done|]. plain schema_bootstrap. plain schema_capability_install.
  plain schema_capability_verify. plain schema_node_only.
  apply idemp_case; [apply idemp_emergency_cleanup|]. plain schema_reboot.
  plain schema_backhaul_apply. plain schema_backhaul_probe. plain schema_backhaul_cleanup.
  apply idemp_case; [apply idemp_external_egress|]. plain schema_route_policy_apply.
  plain schema_route_policy_cleanup. plain schema_firewall.
  apply idemp_case; [exact idemp_rotate_token|].
  destruct (one_of jobType _).
  { destruct (OperationFromJobType jobType) as [action|]; [|done]. intros [= <-]. apply idemp_instance. }
  apply idemp_case; [exact idemp_instance_diagnose|]. plain schema_group_provision.
  plain schema_client_provision. apply idemp_case; [exact idemp_artifact_build|].
  plain schema_client_revoke. done.
Qed.
End more_idempotent_runs.

(** ** Theorems *)

(** Every schema names each key once. *)
Lemma schema_keys_nodup jobType its : schema_of jobType = Some its → NoDup (keys_of its).
Proof.
  unfold schema_of.
  repeat lazymatch goal with
  | |- (if ?b then Some _ else _) = _ → _ => destruct b; [intros [= <-]; keys_nodup|]
  | |- (if ?b then _ <$> _ else _) = _ → _ =>
      destruct b; [destruct (OperationFromJobType jobType); [|done]; intros [= <-];
        unfold schema_instance; destruct (_ || _)%bool; keys_nodup|]
  end. done.
Qed.

(** A map that carries what the items say of it is the result of the run. *)
Lemma run_complete its p n :
  NoDup (keys_of its) →
  (∀ k norm, Field k norm ∈ its → ∃ a, norm p = Ok a ∧ n !! k = act_val a (p !! k)) →
  (∀ c, Ensure c ∈ its → c p = Ok tt) →
  (∀ k, k ∉ keys_of its → n !! k = p !! k) →
  run its p = Ok n.
Proof.
  intros Hd Hf Hc Ho.
  assert (∀ its' m, (∀ k norm, Field k norm ∈ its' → ∃ a, norm p = Ok a) →
    (∀ c, Ensure c ∈ its' → c p = Ok tt) → is_ok (run_from its' p m) = true) as Hok.
  { induction its' as [|it its' IH]; intros m H1 H2; [done|]. cbn [run_from].
    destruct it as [k norm|c]; cbn [step].
    - destruct (H1 k norm) as (a & ->); [apply list_elem_of_here|]. apply IH; eauto using list_elem_of_further.
    - rewrite H2 by apply list_elem_of_here. apply IH; eauto using list_elem_of_further. }
  specialize (Hok its p). unfold run. destruct (run_from its p p) as [n'|] eqn:E.
  2:{ discriminate Hok; [|done]. intros k norm Hin. destruct (Hf k norm Hin) as (a & ? & _). eauto. }
  f_equal. apply map_eq. intros k. destruct (run_from_spec _ _ _ _ E Hd) as (Hf' & _ & Ho').
  destruct (decide (k ∈ keys_of its)) as [Hk|Hk]; [|by rewrite Ho, Ho'].
  apply list_elem_of_omap in Hk as ([k' norm|c] & Hin & [= ->]).
  destruct (Hf k norm Hin) as (a & Ha & ->), (Hf' k norm Hin) as (a' & Ha' & ->). congruence.
Qed.

(** C1: [Normalize] succeeds exactly on the payloads that satisfy the schema of
    the trimmed job type, and its result is determined key by key: each field
    holds its verdict on the payload and every other key is as it was. *)
Theorem Normalize_spec jobType payload n :
  let p := default ∅ payload in
  Normalize jobType payload = Ok n ↔
  ∃ its, schema_of (trim_space jobType) = Some its
    ∧ (∀ k norm, Field k norm ∈ its → ∃ a, norm p = Ok a ∧ n !! k = act_val a (p !! k))
    ∧ (∀ c, Ensure c ∈ its → c p = Ok tt)
    ∧ (∀ k, k ∉ keys_of its → n !! k = p !! k).
Proof.
  intros p. rewrite Normalize_run. fold p. split.
  - destruct (schema_of _) as [its|] eqn:Es; [|done]. intros Hr. exists its. split; [done|].
    by apply run_from_spec, (schema_keys_nodup _ _ Es).
  - intros (its & Es & Hf & Hc & Ho). rewrite Es.
    by apply run_complete; [apply (schema_keys_nodup _ _ Es)|..].
Qed.

(** Normalising a normalised payload changes nothing and succeeds: what is
    stored is a fixpoint of the schema. *)
Theorem Normalize_idempotent jobType payload n :
  Normalize jobType payload = Ok n → Normalize jobType (Some n) = Ok n.
Proof.
  rewrite !Normalize_run. destruct (schema_of _) as [its|] eqn:Es; [|done]. apply (idemp_schema _ _ _ _ Es).
Qed.

(** Give a name to the result of a concrete call that succeeds. *)
Ltac run_witness n E :=
  match goal with
  | |- context [Normalize ?t ?p] =>
      let H := fresh in
      assert (is_ok (Normalize t p) = true) as H by (vm_compute; reflexivity);
      destruct (Normalize t p) as [n|] eqn:E; [clear H|discriminate H]
  end.

Lemma Normalize_idempotent_witness :
  let n := <["node_id":=AString "n1"]> (<["force_reenroll":=ABool true]>
    {["bootstrap_mode":=AString "ssh_bootstrap"]}) : gomap in
  Normalize "node.bootstrap" (Some n) = Ok n.
Proof.
  apply (Normalize_idempotent " node.bootstrap"
    (Some (<["node_id":=AString " n1 "]> {["force_reenroll":=AString "YES"]}))).
  vm_compute. reflexivity.
Defined.

(** The schema of a job type given literally. *)
Lemma Normalize_literal jobType its payload n :
  schema_of (trim_space jobType) = Some its → Normalize jobType payload = Ok n →
  run its (default ∅ payload) = Ok n ∧ NoDup (keys_of its).
Proof. rewrite Normalize_run. intros Es. rewrite Es. eauto using schema_keys_nodup. Qed.

(** C34: A stored token rotation never carries the new token itself: any
    [new_agent_token] left in it is blank, and the secret reference and the
    hash are there. *)
Theorem rotate_token_no_plaintext payload n :
  Normalize "node.agent.rotate_token" payload = Ok n →
  optionalString n "new_agent_token" = Ok ""
  ∧ ∃ ref hash, n !! "new_agent_token_secret_ref_id" = Some (AString ref) ∧ ref ≠ ""
      ∧ n !! "new_agent_token_hash" = Some (AString hash) ∧ hash ≠ "".
Proof.
  intros [Hr Hd]%(Normalize_literal _ schema_rotate_token); [|done]. set (p := default ∅ payload) in *.
  assert (Ensure token_check ∈ schema_rotate_token) as Hc by in_schema.
  apply (run_check _ _ _ _ Hr Hd) in Hc.
  assert (opt_string "new_agent_token_secret_ref_id" ∈ schema_rotate_token) as H1 by in_schema.
  assert (opt_string "new_agent_token_hash" ∈ schema_rotate_token) as H2 by in_schema.
  destruct (opt_string_value _ _ _ _ _ _ Hr Hd H1) as (s & Hs & Es).
  destruct (opt_string_value _ _ _ _ _ _ Hr Hd H2) as (t & Ht & Et).
  destruct (run_from_spec _ _ _ _ Hr Hd) as (_ & _ & Ho).
  assert (n !! "new_agent_token" = p !! "new_agent_token") as Hl.
  { apply Ho. apply (bool_decide_unpack _). vm_compute. exact I. }
  unfold token_check in Hc. rewrite Hs, Ht in Hc. cbn [mbind result_bind] in Hc.
  apply bind_ok_inv in Hc as (legacy & Hleg & Hc). apply bind_ok_inv in Hc as ([] & Hg & Hc).
  apply guard_err_ok in Hg, Hc. apply negb_true_iff, orb_false_iff in Hg as [Hg1 Hg2].
  apply String.eqb_eq in Hc as ->. apply String.eqb_neq in Hg1, Hg2.
  rewrite (optionalString_local _ _ _ Hl). split; [done|].
  destruct Es as [[? _]|(_ & _ & Es)]; [done|]. destruct Et as [[? _]|(_ & _ & Et)]; [done|].
  exists s, t. done.
Qed.

Lemma rotate_token_no_plaintext_witness :
  let n := <["node_id":=AString "n1"]> (<["new_agent_token_hash":=AString "h"]>
    (<["new_agent_token":=AString " "]> {["new_agent_token_secret_ref_id":=AString "r"]})) : gomap in
  optionalString n "new_agent_token" = Ok ""
  ∧ ∃ ref hash, n !! "new_agent_token_secret_ref_id" = Some (AString ref) ∧ ref ≠ ""
      ∧ n !! "new_agent_token_hash" = Some (AString hash) ∧ hash ≠ "".
Proof.
  intros n. apply (rotate_token_no_plaintext (Some n)). vm_compute. reflexivity.
Defined.

Lemma managed_int_range p k lo hi e v :
  optionalInt p k = Ok (Some v) → managed_int k lo hi e p = Ok tt → lo ≤ v ≤ hi.
Proof.
  unfold managed_int. intros -> H. apply guard_err_ok in H. lia.
Qed.

Definition egress_types : list string :=
  ["node.external_egress.apply"; "node.external_egress.probe"; "node.external_egress.cleanup"].

(** A stored external-egress job names a ready protocol by its canonical code,
    and its routing table, metric and firewall mark lie in the ranges the
    control plane manages; a port, when there is one, is a TCP or UDP port. *)
Theorem external_egress_ranges jobType payload n :
  jobType ∈ egress_types → Normalize jobType payload = Ok n →
  (∃ protocol d, n !! "protocol" = Some (AString protocol)
     ∧ ExternalEgress.definition protocol = Some d ∧ ExternalEgress.Code d = protocol
     ∧ d ∈ ExternalEgress.AvailableCatalog)
  ∧ (∃ table z, n !! "routing_table" = Some (AString table) ∧ atoi table = Some z ∧ 40000 ≤ z ≤ 48999)
  ∧ (∃ metric, n !! "route_metric" = Some (AInt metric) ∧ 1 ≤ metric ≤ 32767)
  ∧ (∃ mark, n !! "fwmark" = Some (AInt mark) ∧ Z.shiftr mark 16 = 0x4d59)
  ∧ (∀ port, optionalInt n "endpoint_port" = Ok (Some port) → 1 ≤ port ≤ 65535).
Proof.
  intros Hin Hn. assert (schema_of (trim_space jobType) = Some schema_external_egress) as Hs.
  { unfold egress_types in Hin. repeat (apply elem_of_cons in Hin as [->|Hin]; [reflexivity|]).
    by apply elem_of_nil in Hin. }
  pose proof (Normalize_literal _ _ _ _ Hs Hn) as [Hr Hd]. clear Hs Hn Hin.
  set (p := default ∅ payload) in *. split_and!.
  - assert (Field "protocol" (req_string_with ExternalEgress.NormalizeProtocol anything "protocol")
      ∈ schema_external_egress) as Hi by in_schema.
    destruct (req_string_value _ _ _ _ _ _ Hr Hd Hi) as (s & Hs & _ & Hv).
    assert (Ensure protocol_ready ∈ schema_external_egress) as Hc by in_schema.
    apply (run_check _ _ _ _ Hr Hd) in Hc. unfold protocol_ready in Hc.
    apply requireString_inv in Hs as [Hs _]. rewrite Hs in Hc. cbn [mbind result_bind] in Hc.
    destruct (ExternalEgress.definition s) as [d|] eqn:E; [|done].
    apply guard_err_ok, String.eqb_eq in Hc. exists (ExternalEgress.NormalizeProtocol s), d.
    rewrite ExternalEgress.definition_normal. pose proof E as [Hd1 Hd2]%List.find_some.
    apply String.eqb_eq in Hd2. split_and!; [done|done|done|].
    unfold ExternalEgress.AvailableCatalog. apply list_elem_of_filter. by rewrite list_elem_of_In.
  - assert (req_string "routing_table" ∈ schema_external_egress) as Hi by in_schema.
    destruct (req_string_value _ _ _ _ _ _ Hr Hd Hi) as (s & Hs & _ & Hv).
    assert (Ensure managed_table ∈ schema_external_egress) as Hc by in_schema.
    apply (run_check _ _ _ _ Hr Hd) in Hc. unfold managed_table in Hc.
    apply requireString_inv in Hs as [Hs _]. rewrite Hs in Hc. cbn [mbind result_bind] in Hc.
    destruct (atoi s) as [z|] eqn:Ez; [|done]. apply guard_err_ok in Hc. exists s, z.
    split_and!; [done|done|lia|lia].
  - assert (req_int "route_metric" ∈ schema_external_egress) as Hi by in_schema.
    destruct (req_int_value _ _ _ _ Hr Hd Hi) as (v & Hv & Hn). exists v. split; [done|].
    eapply managed_int_range; [done|]. eapply run_check; [done|done|in_schema].
  - assert (req_int "fwmark" ∈ schema_external_egress) as Hi by in_schema.
    destruct (req_int_value _ _ _ _ Hr Hd Hi) as (v & Hv & Hn). exists v. split; [done|].
    assert (0x4d590000 ≤ v ≤ 0x4d59ffff) as Hm.
    { eapply managed_int_range; [done|]. eapply run_check; [done|done|in_schema]. }
    rewrite Z.shiftr_div_pow2 by lia. change (2 ^ 16) with 65536.
    symmetry. apply (Z.div_unique v 65536 _ (v - 0x4d590000)); lia.
  - intros port Hp. assert (Field "endpoint_port" egress_port_act ∈ schema_external_egress) as Hi by in_schema.
    destruct (run_field _ _ _ _ _ Hr Hd Hi) as (a & Ha & Hv). unfold egress_port_act in Ha.
    apply bind_ok_inv in Ha as ([z|] & Hz & Ha).
    + destruct (_ || _) eqn:Eb; simplify_eq. cbn [act_val] in Hv. unfold optionalInt in Hp.
      rewrite Hv in Hp. simplify_eq. lia.
    + simplify_eq. cbn [act_val] in Hv. rewrite (optionalInt_local _ _ _ Hv), Hz in Hp. done.
Qed.

Definition sample_egress : gomap := list_to_map [
  ("node_id", AString "n"); ("profile_id", AString "p"); ("deployment_id", AString "d");
  ("protocol", AString "WG"); ("interface_name", AString "mvx0"); ("routing_table", AString "40001");
  ("route_metric", AInt 100); ("fwmark", AInt 0x4d590001); ("endpoint_port", AInt 51820)].

Lemma external_egress_ranges_witness :
  ∃ n, Normalize "node.external_egress.apply" (Some sample_egress) = Ok n
    ∧ (∃ mark, n !! "fwmark" = Some (AInt mark) ∧ Z.shiftr mark 16 = 0x4d59).
Proof.
  run_witness n E.
  exists n. split; [reflexivity|].
  refine (proj1 (proj2 (proj2 (proj2 (external_egress_ranges _ _ n _ E))))).
  apply list_elem_of_here.
Defined.

Definition firewall_types : list string :=
  ["node.firewall.preview"; "node.firewall.apply"; "node.firewall.observe"; "node.firewall.disable"].
Definition policy_keys : list string :=
  ["default_input_policy"; "default_forward_policy"; "default_output_policy"].

(** C37: A stored firewall job names each default policy as accept, drop or
    reject, says whether to enforce it, lists its rules and address lists, and
    its SSH bootstrap ports, when given, are TCP ports. *)
Theorem firewall_payload_shape jobType payload n :
  jobType ∈ firewall_types → Normalize jobType payload = Ok n →
  (∀ k, k ∈ policy_keys → ∃ v, n !! k = Some (AString v) ∧ v ∈ ["accept"; "drop"; "reject"])
  ∧ (∃ b, n !! "enforce_default_policy" = Some (ABool b))
  ∧ (∃ rules, n !! "rules" = Some (ASlice rules))
  ∧ (∃ lists, n !! "address_lists" = Some (ASlice lists))
  ∧ (∀ ports, optionalIntSlice n "ssh_bootstrap_ports" = Ok (Some ports) → Forall port_ok ports).
Proof.
  intros Hin Hn. assert (schema_of (trim_space jobType) = Some schema_firewall) as Hs.
  { unfold firewall_types in Hin. repeat (apply elem_of_cons in Hin as [->|Hin]; [reflexivity|]).
    by apply elem_of_nil in Hin. }
  pose proof (Normalize_literal _ _ _ _ Hs Hn) as [Hr Hd]. clear Hs Hn Hin.
  set (p := default ∅ payload) in *. split_and!.
  - intros k Hk. assert (policy_field k ∈ schema_firewall) as Hi.
    { unfold policy_keys in Hk. unfold schema_firewall. cbn [app trims fmap list_fmap].
      repeat (apply elem_of_cons in Hk as [->|Hk]; [in_schema|]). by apply elem_of_nil in Hk. }
    destruct (run_field _ _ _ _ _ Hr Hd Hi) as (a & Ha & Hv). unfold def_string in Ha.
    apply bind_ok_inv in Ha as (s & Hs & Ha). apply bind_ok_inv in Ha as ([] & Hok & [= <-]).
    apply guard_err_ok, one_of_spec in Hok. eauto.
  - assert (def_bool "enforce_default_policy" ∈ schema_firewall) as Hi by in_schema.
    destruct (run_field _ _ _ _ _ Hr Hd Hi) as (a & Ha & Hv).
    destruct (optionalBool p _); cbn in Ha; simplify_eq. eauto.
  - assert (array "rules" ∈ schema_firewall) as Hi by in_schema.
    destruct (run_field _ _ _ _ _ Hr Hd Hi) as (a & Ha & Hv). unfold array_act in Ha.
    repeat case_match; simplify_eq; eauto.
  - assert (array "address_lists" ∈ schema_firewall) as Hi by in_schema.
    destruct (run_field _ _ _ _ _ Hr Hd Hi) as (a & Ha & Hv). unfold array_act in Ha.
    repeat case_match; simplify_eq; eauto.
  - intros ports Hp. unfold optionalIntSlice in Hp. repeat case_match; simplify_eq;
      match type of Hp with context [port_items ?k ?x] => destruct (port_items k x) eqn:E end;
      cbn in Hp; simplify_eq; by eapply port_items_ok.
Qed.

Lemma firewall_payload_shape_witness :
  ∃ n, Normalize "node.firewall.apply" (Some (<["node_id":=AString "n"]>
         {["default_input_policy":=AString " DROP "]})) = Ok n
    ∧ ∃ b, n !! "enforce_default_policy" = Some (ABool b).
Proof.
  run_witness n E.
  exists n. split; [reflexivity|].
  refine (proj1 (proj2 (firewall_payload_shape _ _ n _ E))).
  apply list_elem_of_further, list_elem_of_here.
Defined.

(** A stored instance job carries the operation its job type names; a service
    or runtime code it carries is canonical and its driver supports that
    operation; apply and delete carry an object as the spec; and at least one of
    the two codes and the systemd unit is not blank. *)
Theorem instance_job_operable jobType action payload n :
  OperationFromJobType jobType = Some action → action ≠ "render" → action ≠ "validate" →
  Normalize jobType payload = Ok n →
  n !! "action" = Some (AString action)
  ∧ (∀ k code, k ∈ ["service_code"; "runtime_service_code"] →
       optionalString n k = Ok code → code ≠ "" →
       NormalizeCode code = code ∧ SupportsOperation code action = true)
  ∧ ((action = "apply" ∨ action = "delete") → ∃ spec, n !! "spec" = Some (AMap spec))
  ∧ (stringifyAny (n !! "service_code") ≠ "" ∨ stringifyAny (n !! "runtime_service_code") ≠ ""
     ∨ stringifyAny (n !! "systemd_unit") ≠ "").
Proof.
  intros Ha Hnr Hnv Hn.
  assert (schema_of (trim_space jobType) = Some (schema_instance action)) as Hs.
  { unfold OperationFromJobType in Ha. set (t := trim_space jobType) in *.
    destruct (List.find _ _) as [op|] eqn:E; [|done]. injection Ha as Hop.
    apply List.find_some in E as [Hin Ht%String.eqb_eq]. rewrite <-Ht, <-Hop.
    apply list_elem_of_In in Hin. unfold baseOperations in Hin.
    repeat (apply elem_of_cons in Hin as [->|Hin];
      [first [reflexivity | by exfalso; (apply Hnr || apply Hnv); rewrite <-Hop]|]).
    by apply elem_of_nil in Hin. }
  pose proof (Normalize_literal _ _ _ _ Hs Hn) as [Hr Hd]. clear Hs Hn.
  set (p := default ∅ payload) in *.
  assert (∀ it, it ∈ [req_string "instance_id"; Field "action" (λ _, Ok (Put (AString action)));
      code_field false action "service_code"; code_field true action "runtime_service_code";
      Ensure unit_check] → it ∈ schema_instance action) as Hh.
  { intros it Hin. unfold schema_instance. rewrite elem_of_app. by left. }
  assert (Field "systemd_unit" (trim_act "systemd_unit") ∈ schema_instance action) as Hu.
  { unfold schema_instance. rewrite !elem_of_app. right; right; left. cbn [trims fmap list_fmap]. in_schema. }
  split_and!.
  - destruct (run_field _ _ _ "action" (λ _, Ok (Put (AString action))) Hr Hd) as (a & Ha' & Hv).
    { apply Hh. in_schema. }
    cbv beta in Ha'. by injection Ha' as <-.
  - intros k code Hk Hc Hne.
    assert (∃ runtime, code_field runtime action k ∈ schema_instance action) as [runtime Hi].
    { apply elem_of_cons in Hk as [->|Hk]; [exists false; apply Hh; in_schema|].
      apply list_elem_of_singleton in Hk as ->. exists true; apply Hh; in_schema. }
    destruct (opt_string_value _ _ _ _ _ _ Hr Hd Hi) as (s & Hs & [[-> Hv]|(Hs' & Hok & Hv)]).
    + rewrite (optionalString_local _ _ _ Hv), Hs in Hc. simplify_eq.
    + rewrite (optionalString_put _ _ _ Hv), NormalizeCode_trimmed in Hc. simplify_eq.
      apply guard_err_ok in Hok. split; [apply NormalizeCode_idemp|done].
  - intros Hact. assert (req_map "spec" ∈ schema_instance action) as Hi.
    { unfold schema_instance. rewrite !elem_of_app. right; left.
      destruct Hact as [->| ->]; in_schema. }
    destruct (run_field _ _ _ _ _ Hr Hd Hi) as (a & Ha' & Hv).
    destruct (requireMap p "spec"); cbn in Ha'; simplify_eq. eauto.
  - assert (unit_check n = Ok tt) as Hc.
    { eapply (unit_check_after _ p); [exact Hr|done|apply Hh; in_schema|apply Hh; in_schema|exact Hu|
        apply Hh; in_schema]. }
    unfold unit_check in Hc. apply bind_ok_inv in Hc as (s & Hs & Hc).
    apply bind_ok_inv in Hc as (t & Ht & Hc). apply guard_err_ok in Hc.
    rewrite (stringify_optional _ _ _ Hs), (stringify_optional _ _ _ Ht).
    rewrite !negb_true_iff, !andb_false_iff, !String.eqb_neq in Hc. tauto.
Qed.

Lemma instance_job_operable_witness :
  ∃ n, Normalize " instance.restart " (Some (<["instance_id":=AString "i"]>
         {["service_code":=AString " WG "]})) = Ok n
    ∧ n !! "action" = Some (AString "restart").
Proof.
  run_witness n E.
  exists n. split; [reflexivity|].
  refine (proj1 (instance_job_operable _ "restart" _ n _ _ _ E)).
  - vm_compute. reflexivity.
  - discriminate.
  - discriminate.
Defined.

Definition backhaul_types : list string :=
  ["node.backhaul.apply"; "node.backhaul.probe"; "node.backhaul.cleanup"].

(** A stored backhaul job says on which side of the link the node is and
    names a catalogued driver by its canonical code; link, transport and node
    are identified. *)
Theorem backhaul_job_sound jobType payload n :
  jobType ∈ backhaul_types → Normalize jobType payload = Ok n →
  (∃ role, n !! "role" = Some (AString role) ∧ role ∈ ["ingress"; "egress"])
  ∧ (∃ driver, n !! "driver" = Some (AString driver) ∧ driver ∈ Backhaul.SupportedDrivers
       ∧ Backhaul.NormalizeDriver driver = driver)
  ∧ (∀ k, k ∈ ["node_id"; "link_id"; "transport_id"] →
       ∃ s, n !! k = Some (AString s) ∧ s ≠ "" ∧ trim_space s = s).
Proof.
  intros Hin Hn.
  assert (∃ rest, schema_of (trim_space jobType) = Some (schema_backhaul_head ++ rest)) as [rest Hs].
  { unfold backhaul_types in Hin. repeat (apply elem_of_cons in Hin as [->|Hin]; [eexists; reflexivity|]).
    by apply elem_of_nil in Hin. }
  pose proof (Normalize_literal _ _ _ _ Hs Hn) as [Hr Hd]. clear Hs Hn Hin.
  assert (∀ it, it ∈ schema_backhaul_head → it ∈ schema_backhaul_head ++ rest) as Hh.
  { intros it Hi. rewrite elem_of_app. by left. }
  split_and!.
  - assert (Field "role" (req_string_with to_lower (enum "role" ["ingress"; "egress"]) "role")
      ∈ schema_backhaul_head) as Hi by in_schema.
    destruct (req_string_value _ _ _ _ _ _ Hr Hd (Hh _ Hi)) as (s & _ & Hok & Hv).
    apply guard_err_ok, one_of_spec in Hok. eauto.
  - assert (Field "driver" (req_string_with Backhaul.NormalizeDriver
     (λ d, map_err DriverRejected (Backhaul.ValidateDriver d)) "driver") ∈ schema_backhaul_head) as Hi by in_schema.
    destruct (req_string_value _ _ _ _ _ _ Hr Hd (Hh _ Hi)) as (s & _ & Hok & Hv).
    apply map_err_ok, Backhaul.ValidateDriver_code in Hok. rewrite Backhaul.NormalizeDriver_idemp in Hok.
    exists (Backhaul.NormalizeDriver s). by rewrite Backhaul.NormalizeDriver_idemp.
  - intros k Hk. assert (req_string k ∈ schema_backhaul_head) as Hi.
    { repeat (apply elem_of_cons in Hk as [->|Hk]; [in_schema|]). by apply elem_of_nil in Hk. }
    destruct (req_string_value _ _ _ _ _ _ Hr Hd (Hh _ Hi)) as (s & Hs & _ & Hv).
    apply requireString_trimmed in Hs as [? ?]. exists s. done.
Qed.

Lemma backhaul_job_sound_witness :
  ∃ n, Normalize "node.backhaul.probe" (Some (list_to_map [("node_id", AString "n"); ("link_id", AString "l");
         ("transport_id", AString "t"); ("role", AString "INGRESS"); ("driver", AString "openvpn-udp")])) = Ok n
    ∧ ∃ role, n !! "role" = Some (AString role) ∧ role ∈ ["ingress"; "egress"].
Proof.
  run_witness n E.
  exists n. split; [reflexivity|].
  refine (proj1 (backhaul_job_sound _ _ n _ E)). apply list_elem_of_further, list_elem_of_here.
Defined.
