(* ===== verification/Jobs.v ===== *)
(** * Creating jobs: the service and the store's preparation

    [internal/app/jobs/service.go], the gate in front of the generic job API,
    and [CreateJob], [normalizeJobForInsert] of
    [internal/infra/postgres/store.go], which prepare the row.  The service is
    written against the interface [JobStore]; [postgres] is the store that
    implements it over a database whose statements are parameters. *)
From S2P Require Import Prelude GoStrings Strconv GoValue Driver Backhaul ExternalEgress JobSchema JobSchemaSpec JobSchemaRefine JobSchemaProps.
From Stdlib Require Import Ascii.
From stdpp Require Import options.
Open Scope Z_scope.

(** ** Data: [domain.Job]; a nil pointer, map or zero time is [None] *)

Record Job := MkJob {
  ID : string; Type_ : string; ScopeType : string; Status : string;
  ScopeID : option string; NodeID : option string; InstanceID : option string;
  Priority : Z; Payload : option gomap; Result : option gomap;
  LockedBy : option string; LockedUntil : option Z;
  CreatedAt : option Z; StartedAt : option Z; FinishedAt : option Z }.

Definition with_Type (t : string) (j : Job) : Job :=
  MkJob (ID j) t (ScopeType j) (Status j) (ScopeID j) (NodeID j) (InstanceID j) (Priority j)
    (Payload j) (Result j) (LockedBy j) (LockedUntil j) (CreatedAt j) (StartedAt j) (FinishedAt j).
Definition with_ScopeType (s : string) (j : Job) : Job :=
  MkJob (ID j) (Type_ j) s (Status j) (ScopeID j) (NodeID j) (InstanceID j) (Priority j)
    (Payload j) (Result j) (LockedBy j) (LockedUntil j) (CreatedAt j) (StartedAt j) (FinishedAt j).
Definition with_Status (s : string) (j : Job) : Job :=
  MkJob (ID j) (Type_ j) (ScopeType j) s (ScopeID j) (NodeID j) (InstanceID j) (Priority j)
    (Payload j) (Result j) (LockedBy j) (LockedUntil j) (CreatedAt j) (StartedAt j) (FinishedAt j).
Definition with_ID (i : string) (j : Job) : Job :=
  MkJob i (Type_ j) (ScopeType j) (Status j) (ScopeID j) (NodeID j) (InstanceID j) (Priority j)
    (Payload j) (Result j) (LockedBy j) (LockedUntil j) (CreatedAt j) (StartedAt j) (FinishedAt j).
Definition with_Priority (z : Z) (j : Job) : Job :=
  MkJob (ID j) (Type_ j) (ScopeType j) (Status j) (ScopeID j) (NodeID j) (InstanceID j) z
    (Payload j) (Result j) (LockedBy j) (LockedUntil j) (CreatedAt j) (StartedAt j) (FinishedAt j).
Definition with_Payload (p : gomap) (j : Job) : Job :=
  MkJob (ID j) (Type_ j) (ScopeType j) (Status j) (ScopeID j) (NodeID j) (InstanceID j) (Priority j)
    (Some p) (Result j) (LockedBy j) (LockedUntil j) (CreatedAt j) (StartedAt j) (FinishedAt j).
Definition with_CreatedAt (t : Z) (j : Job) : Job :=
  MkJob (ID j) (Type_ j) (ScopeType j) (Status j) (ScopeID j) (NodeID j) (InstanceID j) (Priority j)
    (Payload j) (Result j) (LockedBy j) (LockedUntil j) (Some t) (StartedAt j) (FinishedAt j).

(** ** The three classifications of a job type *)

Definition MustUseTypedEndpoint (jobType : string) : bool :=
  one_of (trim_space jobType)
    ["platform.control_plane_tls.apply"; "node.bootstrap"; "node.agent.rotate_token";
     "node.emergency_cleanup"; "node.reboot"; "node.backhaul.apply"; "node.backhaul.probe";
     "node.backhaul.cleanup"; "node.route_policy.apply"; "node.route_policy.cleanup";
     "node.firewall.preview"; "node.firewall.apply"; "node.firewall.observe"; "node.firewall.disable";
     "node.capability.install"; "node.capability.verify"; "instance.apply"; "instance.restart";
     "instance.start"; "instance.stop"; "instance.enable"; "instance.disable"; "instance.diagnose";
     "instance.delete"].

Definition AllowedInGenericAPI (jobType : string) : bool :=
  one_of (trim_space jobType) ["artifact.build"; "client.provision"; "client.revoke"].

Definition RequiredPermissionForType (jobType : string) : string :=
  let t := trim_space jobType in
  if t =s "platform.control_plane_tls.apply" then "settings.manage"
  else if one_of t ["node.bootstrap"; "node.agent.rotate_token"; "node.emergency_cleanup"; "node.reboot"]
  then "node.bootstrap"
  else if one_of t ["node.capability.install"; "node.capability.verify"; "node.inventory";
    "node.inventory.sync"; "node.services.discover"; "node.channel.probe"; "node.backhaul.apply";
    "node.backhaul.probe"; "node.backhaul.cleanup"; "node.route_policy.apply"; "node.route_policy.cleanup"]
  then "node.write"
  else if one_of t ["node.firewall.preview"; "node.firewall.apply"; "node.firewall.observe"; "node.firewall.disable"]
  then "firewall.apply"
  else if one_of t ["instance.apply"; "instance.restart"; "instance.start"; "instance.stop";
    "instance.enable"; "instance.disable"; "instance.delete"]
  then "instance.apply"
  else if t =s "instance.diagnose" then "instance.read"
  else if one_of t ["client.provision"; "client.revoke"] then "client.provision"
  else if t =s "artifact.build" then "artifact.export"
  else "".

(** ** The store the service talks to *)

(** What a creation answers: a job or an error, and the database after it. *)
Class JobStore (db E : Type) := {
  store_CreateJob : Job → db → result E Job * db;
  store_ListJobs : Z → db → result E (option (list Job)) * db }.

Inductive service_error (E : Type) :=
| ErrTypeRequired
| ErrTypedEndpointRequired
| ErrGenericAPIUnavailable
| PermissionError (permission : string)
| StoreError (e : E).
Arguments ErrTypeRequired {E}.
Arguments ErrTypedEndpointRequired {E}.
Arguments ErrGenericAPIUnavailable {E}.
Arguments PermissionError {E} permission.
Arguments StoreError {E} e.

Section service.
Context {db E : Type} `{store : JobStore db E}.

(** [can] is [None] for the nil checker. *)
Definition Create (job : Job) (can : option (string → bool)) (st : db) : result (service_error E) Job * db :=
  let job := with_Type (trim_space (Type_ job)) job in
  if Type_ job =s "" then (Err ErrTypeRequired, st)
  else if MustUseTypedEndpoint (Type_ job) then (Err ErrTypedEndpointRequired, st)
  else if negb (AllowedInGenericAPI (Type_ job)) then (Err ErrGenericAPIUnavailable, st)
  else
    let permission := RequiredPermissionForType (Type_ job) in
    if negb (permission =s "")
       && (match can with None => true | Some can => negb (can permission) end)
    then (Err (PermissionError permission), st)
    else
      let job := with_ScopeType (trim_space (ScopeType job)) job in
      let job := if ScopeType job =s "" then with_ScopeType "system" job else job in
      let job := with_Status "queued" job in
      let '(r, st) := store_CreateJob job st in
      (map_err StoreError r, st).

(** The nil list of the store is answered as the empty one. *)
Definition List_ (limit : Z) (st : db) : result (service_error E) (list Job) * db :=
  let '(r, st) := store_ListJobs limit st in
  (match r with
   | Err e => Err (StoreError e)
   | Ok jobs => Ok (default [] jobs)
   end, st).

End service.

(** ** The PostgreSQL store's preparation of a row *)

Inductive store_error :=
| JobTypeRequired
| NewJobsMustStartQueued
| SchemaError (e : ValidationError)
| MarshalJobPayload
| ExecFailed (message : string).

Section postgres.
(** The identifier and the time of the call, [json.Marshal] on a payload
    (which fails on what JSON cannot hold), and the two statements: inserting
    the row, and the audit record whose result the code ignores. *)
Context {db : Type} (new_id : string) (now : Z) (marshal : gomap → option string)
  (exec_insert : Job → string → db → option string * db)
  (create_audit : Job → db → db).

Definition normalizeJobForInsert (j : Job) : result store_error (Job * string) :=
  let j := with_Type (trim_space (Type_ j)) j in
  if Type_ j =s "" then Err JobTypeRequired
  else
    let j := if ID j =s "" then with_ID new_id j else j in
    let j := if Status j =s "" then with_Status "queued" j else j in
    if negb (Status j =s "queued") then Err NewJobsMustStartQueued
    else
      let j := if ScopeType j =s "" then with_ScopeType "system" j else j in
      let j := if Priority j =? 0 then with_Priority 100 j else j in
      let payload := default ∅ (Payload j) in
      normalizedPayload ← map_err SchemaError (Normalize (Type_ j) (Some payload));
      let j := with_Payload normalizedPayload j in
      match marshal normalizedPayload with
      | None => Err MarshalJobPayload
      | Some b =>
          let j := match CreatedAt j with None => with_CreatedAt now j | Some _ => j end in
          Ok (j, b)
      end.

Definition CreateJob (j : Job) (st : db) : result store_error Job * db :=
  match normalizeJobForInsert j with
  | Err e => (Err e, st)
  | Ok (j, payloadJSON) =>
      match exec_insert j payloadJSON st with
      | (Some message, st) => (Err (ExecFailed message), st)
      | (None, st) => (Ok j, create_audit j st)
      end
  end.

End postgres.

(** ** Theorems *)

Section create.
Context {db E : Type} `{store : JobStore db E}.

(** What the service hands to the store for a job it lets through. *)
Definition submitted (job : Job) : Job :=
  let scope := trim_space (ScopeType job) in
  with_Status "queued"
    (with_ScopeType (if scope =s "" then "system" else scope) (with_Type (trim_space (Type_ job)) job)).

Definition generic_permission (jobType : string) : option string :=
  if jobType =s "artifact.build" then Some "artifact.export"
  else if one_of jobType ["client.provision"; "client.revoke"] then Some "client.provision"
  else None.

Lemma generic_types t :
  AllowedInGenericAPI t = true → trim_space t = t →
  MustUseTypedEndpoint t = false ∧ t ≠ "" ∧ generic_permission t = Some (RequiredPermissionForType t).
Proof.
  unfold AllowedInGenericAPI. intros Hin Ht. rewrite Ht in Hin. apply one_of_spec in Hin.
  repeat (apply elem_of_cons in Hin as [->|Hin]; [by vm_compute|]). by apply elem_of_nil in Hin.
Qed.

Lemma generic_permission_allowed t :
  trim_space t = t → AllowedInGenericAPI t = false → generic_permission t = None.
Proof.
  unfold AllowedInGenericAPI, generic_permission. intros ->. unfold one_of. simpl.
  destruct (t =s "artifact.build"), (t =s "client.provision"), (t =s "client.revoke"); done.
Qed.

(** The gate, as one equation. *)
Lemma Create_gate job can st :
  Create job can st
  = match generic_permission (trim_space (Type_ job)) with
    | Some permission =>
        if match can with Some can => can permission | None => false end
        then let '(r, st) := store_CreateJob (submitted job) st in (map_err StoreError r, st)
        else (Err (PermissionError permission), st)
    | None => (fst (Create job can st), st)
    end.
Proof.
  unfold Create. cbv zeta. set (t := trim_space (Type_ job)).
  assert (trim_space t = t) as Ht by apply trim_space_idemp.
  change (Type_ (with_Type t job)) with t.
  destruct (AllowedInGenericAPI t) eqn:Ha.
  - destruct (generic_types t Ha Ht) as (-> & Hne & Hp). rewrite Hp.
    destruct (String.eqb_spec t ""); [done|]. cbn [negb].
    assert (RequiredPermissionForType t ≠ "") as Hn.
    { unfold generic_permission in Hp. repeat case_match; simplify_eq; intros E0; rewrite E0 in Hp; done. }
    apply String.eqb_neq in Hn. rewrite Hn. cbn [negb andb].
    assert ((if ScopeType (with_ScopeType (trim_space (ScopeType (with_Type t job))) (with_Type t job)) =s ""
      then with_ScopeType "system" (with_ScopeType (trim_space (ScopeType (with_Type t job))) (with_Type t job))
      else with_ScopeType (trim_space (ScopeType (with_Type t job))) (with_Type t job))
      = with_ScopeType (if trim_space (ScopeType job) =s "" then "system" else trim_space (ScopeType job))
          (with_Type t job)) as ->.
    { cbn [ScopeType with_ScopeType with_Type]. by destruct (trim_space (ScopeType job) =s ""). }
    destruct can as [can|]; [|done]. by destruct (can _).
  - rewrite (generic_permission_allowed t Ht Ha).
    repeat case_match; done.
Qed.

Lemma generic_permission_required t p :
  trim_space t = t → generic_permission t = Some p → p = RequiredPermissionForType t.
Proof.
  intros Ht Hp. destruct (AllowedInGenericAPI t) eqn:Ha.
  - destruct (generic_types t Ha Ht) as (_ & _ & Eg). congruence.
  - by rewrite (generic_permission_allowed t Ht Ha) in Hp.
Qed.

Lemma Create_denied job can st :
  generic_permission (trim_space (Type_ job)) = None → ∃ e, Create job can st = (Err e, st).
Proof.
  intros Hp. unfold Create. cbv zeta. set (t := trim_space (Type_ job)) in *.
  assert (trim_space t = t) as Ht by apply trim_space_idemp.
  change (Type_ (with_Type t job)) with t. destruct (AllowedInGenericAPI t) eqn:Ha.
  - destruct (generic_types t Ha Ht) as (_ & _ & Eg). congruence.
  - destruct (t =s ""); [eauto|]. destruct (MustUseTypedEndpoint t); eauto.
Qed.

(** C31: The service reaches the store only for the three job types of the generic
    API, only when the caller holds the permission of that type, and then with
    the type trimmed, a scope and the status queued; in every other case the
    database is as it was and the answer is an error. *)
Theorem Create_guarded job can st :
  let t := trim_space (Type_ job) in
  (∃ permission check, generic_permission t = Some permission ∧ permission = RequiredPermissionForType t
     ∧ can = Some check ∧ check permission = true
     ∧ MustUseTypedEndpoint t = false
     ∧ Create job can st = let '(r, st') := store_CreateJob (submitted job) st in (map_err StoreError r, st'))
  ∨ (∃ e, Create job can st = (Err e, st)).
Proof.
  intros t. rewrite Create_gate. fold t. assert (trim_space t = t) as Ht by apply trim_space_idemp.
  destruct (AllowedInGenericAPI t) eqn:Ha.
  - destruct (generic_types t Ha Ht) as (Hm & Hne & Hp). rewrite Hp.
    destruct can as [can|]; [|right; eauto]. destruct (can _) eqn:Hc; [left|right; eauto].
    eexists _, can. eauto 10.
  - right. rewrite (generic_permission_allowed t Ht Ha).
    destruct (Create_denied job can st) as [e ->]; [by apply generic_permission_allowed|]. by exists e.
Qed.

End create.

Section stored.
Context {db : Type} (new_id : string) (now : Z) (marshal : gomap → option string)
  (exec_insert : Job → string → db → option string * db)
  (create_audit : Job → db → db) (list_jobs : Z → db → result store_error (option (list Job)) * db).

(** The PostgreSQL store implements the interface. *)
Definition postgres : JobStore db store_error :=
  {| store_CreateJob := CreateJob new_id now marshal exec_insert create_audit;
     store_ListJobs := list_jobs |}.

Lemma normalizeJobForInsert_ok j j' b :
  normalizeJobForInsert new_id now marshal j = Ok (j', b) →
  let t := trim_space (Type_ j) in
  Type_ j' = t ∧ t ≠ "" ∧ Status j' = "queued" ∧ ScopeType j' ≠ "" ∧ Priority j' ≠ 0
  ∧ ID j' = (if ID j =s "" then new_id else ID j) ∧ is_Some (CreatedAt j')
  ∧ ∃ n, Payload j' = Some n ∧ marshal n = Some b
      ∧ Normalize t (Payload j) = Ok n ∧ Normalize t (Some n) = Ok n.
Proof.
  unfold normalizeJobForInsert. cbv zeta. set (t := trim_space (Type_ j)). intros H.
  destruct (String.eqb_spec (Type_ (with_Type t j)) "") as [|Hne]; [done|].
  set (j1 := if ID (with_Type t j) =s "" then _ else _) in H.
  assert (Type_ j1 = t ∧ ScopeType j1 = ScopeType j ∧ Status j1 = Status j ∧ Priority j1 = Priority j
    ∧ Payload j1 = Payload j ∧ ID j1 = if ID j =s "" then new_id else ID j) as (E1 & E2 & E3 & E4 & E5 & E6).
  { subst j1. cbn [ID with_Type]. by destruct (ID j =s ""). }
  clearbody j1.
  set (j2 := if Status j1 =s "" then _ else _) in H.
  destruct (String.eqb_spec (Status j2) "queued") as [Hs|]; [|done]. cbn [negb] in H.
  set (j3 := if ScopeType j2 =s "" then _ else _) in H.
  set (j4 := if Priority j3 =? 0 then _ else _) in H.
  assert (Type_ j4 = t ∧ Payload j4 = Payload j ∧ Status j4 = "queued" ∧ ScopeType j4 ≠ "" ∧ Priority j4 ≠ 0
    ∧ ID j4 = if ID j =s "" then new_id else ID j) as (F1 & F2 & F3 & F4 & F5 & F6).
  { assert (Type_ j2 = t ∧ Payload j2 = Payload j ∧ ID j2 = ID j1) as (G1 & G2 & G3).
    { subst j2. destruct (Status j1 =s ""); done. }
    assert (Type_ j3 = t ∧ Payload j3 = Payload j ∧ Status j3 = "queued" ∧ ScopeType j3 ≠ "" ∧ ID j3 = ID j2)
      as (K1 & K2 & K3 & K4 & K5).
    { subst j3. destruct (String.eqb_spec (ScopeType j2) ""); done. }
    subst j4. destruct (Z.eqb_spec (Priority j3) 0); split_and!; try done;
      cbn [ID with_Priority]; by rewrite K5, G3. }
  clearbody j4. apply bind_ok_inv in H as (n & Hn & H). apply map_err_ok in Hn.
  destruct (marshal n) as [b'|] eqn:Hm; [|done].
  assert (Normalize t (Payload j) = Ok n) as Hn'.
  { rewrite F1, F2 in Hn. revert Hn. by rewrite !Normalize_run. }
  set (j5 := with_Payload n j4) in H.
  assert (Payload j5 = Some n) as Hp by done.
  destruct (CreatedAt j5) as [c|] eqn:Hc; injection H as <- <-;
    (split_and!; [done|done|done|done|done|done|by (rewrite Hc || eexists); eauto|]);
    exists n; (split_and!; [done|done|done|]); revert Hn'; rewrite !Normalize_run;
    (destruct (schema_of _) as [its|] eqn:Es; [|done]); apply (idemp_schema _ _ _ _ Es).
Qed.

Lemma CreateJob_ok j st j' st' :
  CreateJob new_id now marshal exec_insert create_audit j st = (Ok j', st') →
  ∃ b st1, normalizeJobForInsert new_id now marshal j = Ok (j', b)
    ∧ exec_insert j' b st = (None, st1) ∧ st' = create_audit j' st1.
Proof.
  unfold CreateJob. destruct (normalizeJobForInsert _ _ _ j) as [[j1 b]|]; [|done].
  destruct (exec_insert j1 b st) as [[message|] st1] eqn:Ex; [done|]. intros [= <- <-]. eauto.
Qed.

Lemma postgres_CreateJob j st :
  store_CreateJob (JobStore := postgres) j st = CreateJob new_id now marshal exec_insert create_audit j st.
Proof. done. Qed.

(** C17: A job the generic API stores has one of its three types, was permitted to
    the caller, is queued with a scope, a priority and an identifier of its own
    or a fresh one, and its payload is a fixpoint of the schema of its type; the
    database changed by inserting exactly that row, with exactly that payload
    encoded, and recording the creation. *)
Theorem stored_job_canonical job can st job' st' :
  Create (store := postgres) job can st = (Ok job', st') →
  let t := trim_space (Type_ job) in
  generic_permission t = Some (RequiredPermissionForType t)
  ∧ (∃ check, can = Some check ∧ check (RequiredPermissionForType t) = true)
  ∧ Type_ job' = t ∧ Status job' = "queued" ∧ ScopeType job' ≠ "" ∧ Priority job' ≠ 0
  ∧ ID job' = (if ID job =s "" then new_id else ID job)
  ∧ ∃ n b st1, Payload job' = Some n ∧ Normalize t (Some n) = Ok n ∧ marshal n = Some b
      ∧ exec_insert job' b st = (None, st1) ∧ st' = create_audit job' st1.
Proof.
  intros H. cbv zeta. assert (trim_space (trim_space (Type_ job)) = trim_space (Type_ job)) as Ht
    by apply trim_space_idemp.
  destruct (generic_permission (trim_space (Type_ job))) as [perm|] eqn:Hp.
  2:{ destruct (Create_denied (store := postgres) job can st Hp) as [e He]. rewrite He in H. done. }
  rewrite Create_gate, Hp in H. pose proof (generic_permission_required _ _ Ht Hp) as ->.
  destruct can as [can|]; [|done]. destruct (can (RequiredPermissionForType _)) eqn:Hcan; [|done].
  rewrite postgres_CreateJob in H.
  destruct (CreateJob _ _ _ _ _ (submitted job) st) as [[j1|] st1] eqn:E0; [|done].
  injection H as <- <-. apply CreateJob_ok in E0 as (b & st2 & E & Ex & ->).
  destruct (normalizeJobForInsert_ok _ _ _ E) as (H1 & H2 & H3 & H4 & H5 & H6 & _ & n & Hn1 & Hn2 & _ & Hn3).
  assert (Type_ (submitted job) = trim_space (Type_ job)) as Hs by reflexivity.
  rewrite Hs, Ht in *.
  split_and!; [done|by exists can|done..|]. exists n, b, st2. done.
Qed.

End stored.

Definition sample_job : Job :=
  MkJob "" " client.revoke " " " "" None None None 0 (Some {["client_id":=AString " c1 "]})
    None None None None None None.

Lemma stored_job_canonical_witness :
  let store := postgres (db := list (Job * string)) "fresh" 7 (λ _, Some "{}")
    (λ j b st, (None, (j, b) :: st)) (λ _ st, st) (λ _ st, (Ok None, st)) in
  ∃ job' st', Create (store := store) sample_job (Some (λ p, p =s "client.provision")) [] = (Ok job', st')
    ∧ Type_ job' = "client.revoke" ∧ Status job' = "queued".
Proof.
  intros store.
  destruct (Create (store := store) sample_job (Some (λ p, p =s "client.provision")) []) as [[job'|e] st'] eqn:E.
  2:{ assert (is_ok (fst (Create (store := store) sample_job (Some (λ p, p =s "client.provision")) [])) = true) as H
        by (vm_compute; reflexivity). rewrite E in H. discriminate H. }
  exists job', st'. split; [reflexivity|].
  destruct (stored_job_canonical _ _ _ _ _ _ _ _ _ _ _ E) as (_ & _ & H1 & H2 & _).
  split; [rewrite H1; vm_compute; reflexivity|exact H2].
Defined.
