(* ===== verification/Redaction.v ===== *)
(** * Redaction of secrets

    The two redactions of a dynamic map: before storage
    ([redactSensitiveMapForStorage] and its helpers in
    [internal/infra/postgres/store.go]) and before an API response
    ([internal/api/http/redaction.go]).  A map under a nil pointer is [None];
    the copies the code makes are fresh, so values model them. *)
From S2P Require Import Prelude GoStrings Strconv GoValue.
From Stdlib Require Import Ascii.
From stdpp Require Import options.
Open Scope Z_scope.

Definition redactedValue : string := "[redacted]".

Definition quoted (s : string) : string := String "034" s +:+ String "034" "".

(** ** Which keys and strings are secret: the response's *)

Definition normalized_key (key : string) : string := replace_char "-" "_" (to_lower (trim_space key)).

Definition isSensitiveResponseKey (key : string) : bool :=
  let normalized := normalized_key key in
  if normalized =s "" then false
  else if contains_sub "hint" normalized then false
  else if has_suffix "secret_ref_id" normalized then false
  else
    let compact := replace_char "_" "" normalized in
    if one_of normalized
      ["token"; "agent_token"; "new_agent_token"; "new_agent_token_hash"; "enrollment_token";
       "password"; "smtp_password"; "private_key"; "secret"; "psk";
       "uuid"; "xray_uuid"; "vless_uuid";
       "agent_bootstrapenv"; "agent_bootstrap_env"; "bootstrap_env";
       "content"; "json"; "config"; "config_json"; "config_content"; "privatekey"; "presharedkey";
       "reality_private_key"; "wireguard_private_key"; "openvpn_private_key"; "tls_private_key"] then true
    else if one_of compact ["privatekey"; "presharedkey"; "agentbootstrapenv"; "bootstrapenv"; "configjson"; "configcontent"]
    then true
    else if has_suffix "_token" normalized || has_suffix "_token_hash" normalized then true
    else if contains_sub "password" normalized || contains_sub "private_key" normalized
            || contains_sub "privatekey" compact then true
    else contains_sub "secret" normalized.

Definition isSensitiveInstanceSpecKey (key : string) : bool :=
  if one_of (normalized_key key) ["content"; "json"; "config"; "config_json"; "config_content"] then false
  else isSensitiveResponseKey key.

Definition containsSensitiveResponseString (value : string) : bool :=
  let normalized := to_lower (trim_space value) in
  if normalized =s "" then false
  else if contains_sub "-----begin " normalized && contains_sub " private key-----" normalized then true
  else if contains_sub "privatekey =" normalized then true
  else if contains_sub "presharedkey =" normalized then true
  else if contains_sub "megavpn_agent_enrollment_token=" normalized then true
  else contains_sub "password:" normalized || contains_sub (quoted "password") normalized.

(** ** The response's redaction *)

Section policy.
Context (sensitiveKey : string → bool).

Fixpoint redactValueWithKeyPolicy (value : any) : any :=
  match value with
  | AMap typed =>
      AMap (map_fold (λ key value out,
        <[key := if sensitiveKey key then AString redactedValue else redactValueWithKeyPolicy value]> out) ∅ typed)
  | ASlice typed => ASlice (redactValueWithKeyPolicy <$> typed)
  | AString typed => if containsSensitiveResponseString typed then AString redactedValue else AString typed
  | _ => value
  end.

Definition redactMapWithKeyPolicy (src : option gomap) : option gomap :=
  (λ m, map_fold (λ key value out,
     <[key := if sensitiveKey key then AString redactedValue else redactValueWithKeyPolicy value]> out) ∅ m) <$> src.
End policy.

Definition redactSensitiveMap : option gomap → option gomap := redactMapWithKeyPolicy isSensitiveResponseKey.

(** One of the managed clients: the loop over the four keys. *)
Definition redact_client (item : any) : any :=
  match item with
  | AMap client =>
      AMap (foldl (λ client key,
        match client !! key with Some _ => <[key := AString redactedValue]> client | None => client end)
        client ["id"; "uuid"; "xray_uuid"; "vless_uuid"])
  | _ => item
  end.

Definition redactInstanceSpec (src : option gomap) : option gomap :=
  match redactMapWithKeyPolicy isSensitiveInstanceSpecKey src with
  | Some out =>
      match out !! "managed_clients" with
      | Some (ASlice clients) => Some (<["managed_clients" := ASlice (redact_client <$> clients)]> out)
      | _ => Some out
      end
  | None => None
  end.

(** ** The storage's *)

Definition isSensitiveStorageKey (key : string) : bool :=
  let normalized := to_lower (trim_space key) in
  let normalized := replace_char "-" "_" normalized in
  if normalized =s "" then false
  else if contains_sub "hint" normalized then false
  else if has_suffix "secret_ref_id" normalized then false
  else
    let compact := replace_char "_" "" normalized in
    if one_of normalized
      ["token"; "agent_token"; "new_agent_token"; "new_agent_token_hash"; "enrollment_token";
       "password"; "smtp_password"; "private_key"; "secret"; "psk";
       "uuid"; "xray_uuid"; "vless_uuid";
       "agent_bootstrapenv"; "agent_bootstrap_env"; "bootstrap_env";
       "content"; "json"; "config"; "config_json"; "config_content"; "privatekey"; "presharedkey";
       "reality_private_key"; "wireguard_private_key"; "openvpn_private_key"; "tls_private_key"] then true
    else if one_of compact ["privatekey"; "presharedkey"; "agentbootstrapenv"; "bootstrapenv"; "configjson"; "configcontent"]
    then true
    else if has_suffix "_token" normalized || has_suffix "_token_hash" normalized then true
    else if contains_sub "password" normalized || contains_sub "private_key" normalized
            || contains_sub "privatekey" compact then true
    else if contains_sub "secret" normalized then true
    else false.

Definition containsSensitiveStorageString (value : string) : bool :=
  let normalized := to_lower (trim_space value) in
  if normalized =s "" then false
  else if contains_sub "-----begin " normalized && contains_sub " private key-----" normalized then true
  else if contains_sub "privatekey =" normalized then true
  else if contains_sub "presharedkey =" normalized then true
  else if contains_sub "megavpn_agent_enrollment_token=" normalized then true
  else if contains_sub "password:" normalized || contains_sub (quoted "password") normalized then true
  else false.

Fixpoint redactSensitiveValueForStorage (value : any) : any :=
  match value with
  | AMap typed =>
      AMap (map_fold (λ key value out,
        if isSensitiveStorageKey key then <[key := AString "[redacted]"]> out
        else <[key := redactSensitiveValueForStorage value]> out) ∅ typed)
  | ASlice typed => ASlice (redactSensitiveValueForStorage <$> typed)
  | AString typed => if containsSensitiveStorageString typed then AString "[redacted]" else AString typed
  | _ => value
  end.

Definition redactSensitiveMapForStorage (src : option gomap) : option gomap :=
  (λ m, map_fold (λ key value out,
     if isSensitiveStorageKey key then <[key := AString "[redacted]"]> out
     else <[key := redactSensitiveValueForStorage value]> out) ∅ m) <$> src.

(** ** Induction on dynamic values *)

Fixpoint any_size (v : any) : nat :=
  match v with
  | AMap m => S (map_fold (λ _ v n, any_size v + n)%nat 0%nat m)
  | ASlice l => S (foldr (λ v n, any_size v + n)%nat 0%nat l)
  | _ => 1%nat
  end.

Lemma any_size_map m k v : m !! k = Some v → (any_size v < any_size (AMap m))%nat.
Proof.
  intros H. simpl. rewrite (map_fold_delete_L _ _ k v m); [lia| |done]. intros. lia.
Qed.

Lemma any_size_slice l v : v ∈ l → (any_size v < any_size (ASlice l))%nat.
Proof.
  simpl. induction 1 as [v l|v w l Hv IH]; simpl; lia.
Qed.

(** The cases that redaction tells apart. *)
Lemma any_cases (P : any → Prop) :
  (∀ m, (∀ k v, m !! k = Some v → P v) → P (AMap m)) →
  (∀ l, (∀ v, v ∈ l → P v) → P (ASlice l)) →
  (∀ s, P (AString s)) →
  (∀ v, match v with AMap _ | ASlice _ | AString _ => False | _ => True end → P v) →
  ∀ v, P v.
Proof.
  intros Hm Hl Hs Ho. assert (∀ n v, (any_size v < n)%nat → P v) as H; [|by intros v; apply (H (S (any_size v))); lia].
  induction n as [|n IH]; intros v Hv; [lia|].
  destruct v as [| | | | | |s| | | |l|m| | |]; try (by apply Ho); [by apply Hs| |].
  - apply Hl. intros v Hin%any_size_slice. apply IH. lia.
  - apply Hm. intros k v Hk%any_size_map. apply IH. lia.
Qed.

(** ** Lookup in a redacted map *)

Lemma fold_insert_lookup (g : string → any → gomap → gomap) (f : string → any → any) (m : gomap) k :
  (∀ k v out, g k v out = <[k := f k v]> out) → map_fold g (∅ : gomap) m !! k = f k <$> m !! k.
Proof.
  intros Hg. apply (map_fold_weak_ind (λ out m, out !! k = f k <$> m !! k)).
  - by rewrite !lookup_empty.
  - intros i x m' r Hi IH. rewrite Hg. destruct (decide (k = i)) as [->|Hne].
    + by rewrite !lookup_insert_eq.
    + by rewrite !lookup_insert_ne by done.
Qed.

Section clean.
Context (sensitiveKey : string → bool).
Notation redactValue := (redactValueWithKeyPolicy sensitiveKey).

Definition redact_at (key : string) (value : any) : any :=
  if sensitiveKey key then AString redactedValue else redactValue value.

Lemma redact_map_lookup m k :
  (map_fold (λ key value out, <[key := redact_at key value]> out) (∅ : gomap) m) !! k = redact_at k <$> m !! k.
Proof. by apply fold_insert_lookup. Qed.

(** No secret is left in a value: under a sensitive key only the mark, at every
    depth that the redaction reaches, and no string that looks like a secret. *)
Inductive clean : any → Prop :=
| clean_map m :
    (∀ k v, m !! k = Some v → sensitiveKey k = true → v = AString redactedValue) →
    (∀ k v, m !! k = Some v → sensitiveKey k = false → clean v) → clean (AMap m)
| clean_slice l : (∀ v, v ∈ l → clean v) → clean (ASlice l)
| clean_string s : containsSensitiveResponseString s = false → clean (AString s)
| clean_other v : match v with AMap _ | ASlice _ | AString _ => False | _ => True end → clean v.

Lemma redacted_value_clean : clean (AString redactedValue).
Proof. by apply clean_string. Qed.

Lemma redact_clean v : clean (redactValue v).
Proof.
  revert v. apply any_cases.
  - intros m IH. simpl. apply clean_map; intros k v; rewrite redact_map_lookup;
      intros (v' & Hv' & ->)%fmap_Some Hk; unfold redact_at; rewrite Hk; [done|]. by eapply IH.
  - intros l IH. simpl. apply clean_slice. intros v (v' & -> & Hv')%list_elem_of_fmap. by apply IH.
  - intros s. simpl. destruct (containsSensitiveResponseString s) eqn:E; [apply redacted_value_clean|by apply clean_string].
  - intros v Hv. destruct v; try done; by apply clean_other.
Qed.

Lemma redact_fix v : clean v → redactValue v = v.
Proof.
  revert v. apply (any_cases (λ v, clean v → redactValue v = v)).
  - intros m IH Hc. inversion Hc as [m' Hs Hns| | |v Hv]; subst; [|done]. simpl. f_equal.
    apply map_eq. intros k. rewrite redact_map_lookup. destruct (m !! k) as [v|] eqn:E; [|done].
    simpl. unfold redact_at. destruct (sensitiveKey k) eqn:Ek; f_equal.
    + symmetry. by eapply Hs.
    + eapply IH; [done|]. by eapply Hns.
  - intros l IH Hc. inversion Hc as [|l' Hl| |v Hv]; subst; [|done]. simpl. f_equal.
    induction l as [|v l IHl]; [done|]. simpl. f_equal.
    + apply IH; [by left|]. apply Hl. by left.
    + apply IHl; [| |].
      * intros. apply IH; [by right|done].
      * apply clean_slice. intros. apply Hl. by right.
      * intros. apply Hl. by right.
  - intros s Hc. inversion Hc as [| |s' Hs|v Hv]; subst; [|done]. simpl. by rewrite Hs.
  - intros v Hv _. by destruct v.
Qed.

(** Redaction reaches and clears every secret, and changes nothing else. *)
Lemma redactMap_spec m :
  ∃ out, redactMapWithKeyPolicy sensitiveKey (Some m) = Some out
    ∧ clean (AMap out) ∧ (∀ k, is_Some (out !! k) ↔ is_Some (m !! k))
    ∧ (clean (AMap m) → out = m).
Proof.
  eexists. split; [reflexivity|]. split; [apply (redact_clean (AMap m))|]. split.
  - intros k. rewrite redact_map_lookup. destruct (m !! k); simpl; split; intros []; eauto; done.
  - intros Hc%redact_fix. by injection Hc.
Qed.
End clean.

(** ** The two redactions agree *)

Lemma storage_key key : isSensitiveStorageKey key = isSensitiveResponseKey key.
Proof.
  unfold isSensitiveStorageKey, isSensitiveResponseKey, normalized_key. repeat case_match; congruence.
Qed.

Lemma storage_string s : containsSensitiveStorageString s = containsSensitiveResponseString s.
Proof. unfold containsSensitiveStorageString, containsSensitiveResponseString. repeat case_match; congruence. Qed.

Lemma storage_value v : redactSensitiveValueForStorage v = redactValueWithKeyPolicy isSensitiveResponseKey v.
Proof.
  revert v. apply any_cases.
  - intros m IH. simpl. f_equal. apply map_eq. intros k. rewrite (redact_map_lookup isSensitiveResponseKey).
    rewrite (fold_insert_lookup _ (λ k v, if isSensitiveStorageKey k then AString "[redacted]" else redactSensitiveValueForStorage v));
      [|intros; by destruct (isSensitiveStorageKey _)].
    destruct (m !! k) as [v|] eqn:E; [|done]. simpl. unfold redact_at. rewrite storage_key.
    destruct (isSensitiveResponseKey k); [done|]. by rewrite (IH k v).
  - intros l IH. simpl. f_equal. induction l as [|v l IHl]; [done|]. simpl. f_equal; [apply IH; by left|].
    apply IHl. intros. apply IH. by right.
  - intros s. simpl. by rewrite storage_string.
  - intros v Hv. by destruct v.
Qed.

(** What the store keeps of a result or a log payload is what the API shows of
    it: the two redactions are one function. *)
Theorem storage_redaction_is_response (src : option gomap) :
  redactSensitiveMapForStorage src = redactSensitiveMap src.
Proof.
  destruct src as [m|]; [|done]. pose proof (storage_value (AMap m)) as H. simpl in H.
  injection H as H. unfold redactSensitiveMapForStorage, redactSensitiveMap, redactMapWithKeyPolicy. simpl. by rewrite H.
Qed.


(** ** Instance specifications *)

Lemma redact_client_keys keys (client : gomap) :
  let out := foldl (λ client key,
    match client !! key with Some _ => <[key := AString redactedValue]> client | None => client end) client keys in
  (∀ key v, key ∈ keys → out !! key = Some v → v = AString redactedValue)
  ∧ (∀ key, key ∉ keys → out !! key = client !! key).
Proof.
  revert client. induction keys as [|k keys IH]; intros client; simpl.
  { split; [by intros key v ?%elem_of_nil|done]. }
  set (c1 := match client !! k with Some _ => _ | None => _ end). destruct (IH c1) as [H1 H2]. split.
  - intros key v Hin Hv. destruct (decide (key ∈ keys)) as [|Hn]; [by eapply H1|].
    apply elem_of_cons in Hin as [->|]; [|done]. rewrite H2 in Hv by done. unfold c1 in Hv.
    destruct (client !! k) eqn:E; [|congruence]. by rewrite lookup_insert_eq in Hv; injection Hv.
  - intros key [Hne Hn]%not_elem_of_cons. rewrite H2 by done. unfold c1.
    destruct (client !! k); [by rewrite lookup_insert_ne|done].
Qed.

(** The instance specification an API response shows has no secret under the
    instance's key policy outside the managed clients, and no managed client in
    it shows an identifier. *)
Theorem instance_spec_redacted (spec out : gomap) :
  redactInstanceSpec (Some spec) = Some out →
  (∀ k v, out !! k = Some v → k ≠ "managed_clients" →
     if isSensitiveInstanceSpecKey k then v = AString redactedValue else clean isSensitiveInstanceSpecKey v)
  ∧ ∀ clients client key v, out !! "managed_clients" = Some (ASlice clients) → AMap client ∈ clients →
      key ∈ ["id"; "uuid"; "xray_uuid"; "vless_uuid"] → client !! key = Some v → v = AString redactedValue.
Proof.
  unfold redactInstanceSpec. destruct (redactMap_spec isSensitiveInstanceSpecKey spec) as (m & -> & Hc & _ & _).
  assert (∀ k v, m !! k = Some v →
    if isSensitiveInstanceSpecKey k then v = AString redactedValue else clean isSensitiveInstanceSpecKey v) as Hm.
  { inversion Hc as [m' Hs Hns| | |? Hv]; subst; [|done]. intros k v Hk.
    destruct (isSensitiveInstanceSpecKey k) eqn:E; eauto. }
  destruct (m !! "managed_clients") as [w|] eqn:E; [destruct w as [| | | | | | | | | |cs| | | |]|]; intros [= <-];
    split; try (intros; by apply Hm); try (intros clients client key v Hcl; rewrite E in Hcl; by discriminate Hcl).
  - intros k v Hk Hne. rewrite lookup_insert_ne in Hk by done. by apply Hm.
  - intros clients client key v Hcl Hin Hkey Hv. rewrite lookup_insert_eq in Hcl. injection Hcl as <-.
    apply list_elem_of_fmap in Hin as (item & Hi & _). destruct item as [| | | | | | | | | | |c| | |]; try done.
    simpl in Hi. injection Hi as ->. by eapply (proj1 (redact_client_keys ["id"; "uuid"; "xray_uuid"; "vless_uuid"] c)).
Qed.

Definition sample_spec : gomap :=
  {["managed_clients" := ASlice [AMap {["id" := AString "7b1"; "email" := AString "a@b"]}]; "psk" := AString "s3"]}.

Lemma instance_spec_redacted_witness :
  ∃ out, redactInstanceSpec (Some sample_spec) = Some out ∧ out !! "psk" = Some (AString redactedValue).
Proof.
  assert (match redactInstanceSpec (Some sample_spec) with
    | Some out => match out !! "psk" with Some _ => true | None => false end | None => false end = true) as H
    by (vm_compute; reflexivity).
  destruct (redactInstanceSpec (Some sample_spec)) as [out|] eqn:E; [|discriminate H]. exists out.
  split; [reflexivity|]. destruct (out !! "psk") as [v|] eqn:Ev; [|discriminate H]. f_equal.
  exact (proj1 (instance_spec_redacted sample_spec out E) "psk" v Ev ltac:(discriminate)).
Defined.
