(* ===== verification/JobQueue.v ===== *)
(** * The job queue: claiming, leases, completion

    The part of [internal/infra/postgres/store.go] that moves jobs through
    their states: [claimJob] and its two callers, [recoverStaleJobLeasesTx],
    [acquireJobResourceLockTx], [completeJob] and its callers, [CancelJob].
    The tables [jobs] and [resource_locks] are maps, the latter keyed by its
    unique triple; a transaction works on a copy that a commit puts back, and
    a statement that fails aborts it: every later statement of it fails, as in
    PostgreSQL.  Transactions run one after the other.  Times are microseconds,
    the precision of [timestamptz]; the clock readings of an operation are its
    arguments.  The rest of the database is a state [W]; the bootstrap run of a
    claimed job, the secrets of an agent's job and the side effects of a
    completion act on it through parameters.  Logs and audit records are written and never read, and their
    errors ignored, so they are not part of the state. *)
From S2P Require Import Prelude GoStrings Strconv GoValue Driver JobSchema Jobs Redaction.
From Stdlib Require Import Ascii.
From stdpp Require Import options.
Open Scope Z_scope.

(** ** Durations *)

Definition minute : Z := 60000000.
Definition jobLeaseDuration : Z := 2 * minute.
Definition longNodeJobLeaseDuration : Z := 15 * minute.
Definition legacyRunningJobRecoveryAfter : Z := 10 * minute.

Definition jobLeaseDurationForType (jobType : string) : Z :=
  if one_of jobType
    ["client_access_group.provision"; "node.capability.install"; "node.emergency_cleanup"; "node.reboot";
     "node.backhaul.apply"; "node.external_egress.apply"; "node.external_egress.cleanup"; "instance.apply";
     "instance.delete"]
  then longNodeJobLeaseDuration else jobLeaseDuration.

(** ** The lock of a job *)

(** [p != nil && *p != ""]. *)
Definition present (p : option string) : option string :=
  match p with Some s => if s =s "" then None else Some s | None => None end.

(** The resource type, its identifier and the kind of the lock. *)
Definition jobLockTarget (j : Job) : option (string * string * string) :=
  let t := Type_ j in
  if one_of t ["node.inventory"; "node.inventory.sync"; "node.services.discover"] then None
  else match present (InstanceID j) with
  | Some i =>
      let kind := "mutate" in
      let kind := if has_suffix ".apply" t then "apply" else kind in
      let kind := if has_suffix ".delete" t then "delete" else kind in
      Some ("instance", i, kind)
  | None =>
      match (if has_prefix "node." t then present (NodeID j) else None) with
      | Some n => Some ("node", n, "bootstrap")
      | None =>
          match present (ScopeID j) with
          | Some s =>
              if has_prefix "client." t then Some ("client", s, "provision")
              else if has_prefix "client_access_group." t then Some ("access_group", s, "provision")
              else if has_prefix "node." t then Some ("node", s, "bootstrap")
              else None
          | None => None
          end
      end
  end.

(** ** The tables *)

Record resource_lock := { lock_job : string; expires_at : Z }.
Notation lock_key := (string * string * string)%type.

Record queue (W : Type) := { jobs : gmap string Job; locks : gmap lock_key resource_lock; rest : W }.
Arguments jobs {W} _.
Arguments locks {W} _.
Arguments rest {W} _.

(** A running transaction: the rows as it sees them, and whether it is aborted. *)
Record tx (W : Type) := { tx_db : queue W; tx_aborted : bool }.
Arguments tx_db {W} _.
Arguments tx_aborted {W} _.

Definition begin_tx {W : Type} (st : queue W) : tx W := {| tx_db := st; tx_aborted := false |}.

Definition set_jobs {W : Type} (js : gmap string Job) (st : queue W) : queue W :=
  {| jobs := js; locks := locks st; rest := rest st |}.
Definition set_locks {W : Type} (ls : gmap lock_key resource_lock) (st : queue W) : queue W :=
  {| jobs := jobs st; locks := ls; rest := rest st |}.
Definition set_rest {W : Type} (w : W) (st : queue W) : queue W :=
  {| jobs := jobs st; locks := locks st; rest := w |}.

(** The columns the statements set. *)
Definition with_lease (status : string) (by_ : option string) (until : option Z) (started finished : option Z) (j : Job) : Job :=
  MkJob (ID j) (Type_ j) (ScopeType j) status (ScopeID j) (NodeID j) (InstanceID j) (Priority j)
    (Payload j) (Result j) by_ until (CreatedAt j) started finished.
Definition with_result (r : option gomap) (j : Job) : Job :=
  MkJob (ID j) (Type_ j) (ScopeType j) (Status j) (ScopeID j) (NodeID j) (InstanceID j) (Priority j)
    (Payload j) r (LockedBy j) (LockedUntil j) (CreatedAt j) (StartedAt j) (FinishedAt j).

(** [coalesce]. *)
Definition coalesce {A} (a b : option A) : option A := match a with Some _ => a | None => b end.

(** [insertJobRow]: the columns it leaves out are null; a used key is an error. *)
Definition insertJobRow {W : Type} (j : Job) (st : queue W) : option (queue W) :=
  match jobs st !! ID j with
  | Some _ => None
  | None =>
      Some (set_jobs (<[ID j :=
        MkJob (ID j) (Type_ j) (ScopeType j) (Status j) (ScopeID j) (NodeID j) (InstanceID j) (Priority j)
          (Payload j) None None None (CreatedAt j) None None]> (jobs st)) st)
  end.

(** ** Recovering stale leases *)

Definition stale (now : Z) (j : Job) : bool :=
  (Status j =s "running")
  && match LockedUntil j with
     | Some u => u <? now
     | None => match coalesce (StartedAt j) (CreatedAt j) with
               | Some t => t <? now - legacyRunningJobRecoveryAfter
               | None => false
               end
     end.

Definition recover_job (now : Z) (j : Job) : Job :=
  if stale now j then with_lease "retrying" None None (StartedAt j) (FinishedAt j) j else j.

Definition recoverStaleJobLeasesTx {W : Type} (now : Z) (st : queue W) : queue W :=
  set_jobs (recover_job now <$> jobs st) (set_locks (filter (λ kl, ¬ expires_at kl.2 < now) (locks st)) st).

(** The number of recovered jobs, and the state; the transaction commits. *)
Definition RecoverStaleJobLeases {W : Type} (now : Z) (st : queue W) : nat * queue W :=
  (length (filter (λ kj, stale now kj.2 = true) (map_to_list (jobs st))), recoverStaleJobLeasesTx now st).

(** ** Claiming *)

(** The insert of a lock row: a used key aborts the transaction. *)
Definition insert_lock {W : Type} (key : lock_key) (l : resource_lock) (t : tx W) : bool * tx W :=
  if tx_aborted t then (false, t)
  else match locks (tx_db t) !! key with
  | Some _ => (false, {| tx_db := tx_db t; tx_aborted := true |})
  | None => (true, {| tx_db := set_locks (<[key := l]> (locks (tx_db t))) (tx_db t); tx_aborted := false |})
  end.

Definition delete_expired_lock {W : Type} (key : lock_key) (now : Z) (t : tx W) : tx W :=
  if tx_aborted t then t
  else match locks (tx_db t) !! key with
  | Some l => if expires_at l <? now
              then {| tx_db := set_locks (delete key (locks (tx_db t))) (tx_db t); tx_aborted := false |}
              else t
  | None => t
  end.

(** True is the nil error. [pg_now] is the database's [now()], [clock] the host's. *)
Definition acquireJobResourceLockTx {W : Type} (pg_now clock : Z) (j : Job) (t : tx W) : bool * tx W :=
  match jobLockTarget j with
  | None => (true, t)
  | Some key =>
      insert_lock key {| lock_job := ID j; expires_at := clock + jobLeaseDurationForType (Type_ j) |}
        (delete_expired_lock key pg_now t)
  end.

Definition claimable (status : string) : bool := one_of status ["queued"; "retrying"].

Definition agent_job_types : list string :=
  ["node.inventory"; "node.inventory.sync"; "node.services.discover"; "node.capability.install";
   "node.capability.verify"; "node.channel.probe"; "node.agent.rotate_token"; "node.emergency_cleanup";
   "node.reboot"; "node.backhaul.apply"; "node.backhaul.probe"; "node.backhaul.cleanup";
   "node.external_egress.apply"; "node.external_egress.probe"; "node.external_egress.cleanup";
   "node.route_policy.apply"; "node.route_policy.cleanup"; "node.firewall.preview"; "node.firewall.apply";
   "node.firewall.observe"; "node.firewall.disable"; "instance.restart"; "instance.apply"; "instance.start";
   "instance.stop"; "instance.enable"; "instance.disable"; "instance.diagnose"; "instance.delete"].

(** The two [where] clauses. *)
Definition worker_where (j : Job) : bool := negb (one_of (Type_ j) agent_job_types).
Definition agent_where (nodeID : string) (j : Job) : bool :=
  match NodeID j with Some n => n =s nodeID | None => false end && one_of (Type_ j) agent_job_types.

(** [order by priority asc, created_at asc]. *)
Definition claims_before (a b : Job) : bool :=
  if Priority a =? Priority b then
    match CreatedAt a, CreatedAt b with Some x, Some y => x <? y | Some _, None => true | _, _ => false end
  else Priority a <? Priority b.

(** [scanJob]: a null payload or result reads as the empty map. *)
Definition scanJob (j : Job) : Job :=
  with_result (Some (default ∅ (Result j))) (with_Payload (default ∅ (Payload j)) j).

Inductive claim_answer := Claimed (j : Job) | NoJob | ClaimError.

Section claim.
Context {W : Type} (sprint : any → string).

(** [stringify(m[key])]; a missing key reads as nil. *)
Definition stringify (v : option any) : string :=
  match v with
  | Some (AString s) => trim_space s
  | None | Some ANil => ""
  | Some v => trim_space (sprint v)
  end.

(** The order in which a query without a total order returns equal rows is the
    database's: [scan] lists the rows of the table in some order. *)
Context (scan : gmap string Job → list Job).
(** [update node_bootstrap_runs ...] of a claimed bootstrap job; [None] is its error. *)
Context (start_bootstrap : string → Z → W → option W).

Definition candidates (where_ : Job → bool) (st : queue W) : list Job :=
  take 10 (scanJob <$> isort claims_before (List.filter (λ j, claimable (Status j) && where_ j) (scan (jobs st)))).

(** The loop over the candidates; [clock] gives the readings that are left. The
    state is the committed one, [None] for a rollback. *)
Fixpoint claim_loop (owner : string) (pg_now : Z) (clock : nat → Z) (js : list Job) (t : tx W)
  : claim_answer * option (queue W) :=
  match js with
  | [] => (NoJob, None)
  | j :: js =>
      let '(ok, t) := acquireJobResourceLockTx pg_now (clock 0%nat) j t in
      if negb ok then claim_loop owner pg_now (λ n, clock (2 + n)%nat) js t
      else
        let now := clock 1%nat in
        let lockedUntil := now + jobLeaseDurationForType (Type_ j) in
        if tx_aborted t then (ClaimError, None)
        else
          let st := tx_db t in
          let st := match jobs st !! ID j with
                    | Some row =>
                        if claimable (Status row)
                        then set_jobs (<[ID j := with_lease "running" (Some owner) (Some lockedUntil)
                               (coalesce (StartedAt row) (Some now)) (FinishedAt row) row]> (jobs st)) st
                        else st
                    | None => st
                    end in
          match (if Type_ j =s "node.bootstrap" then start_bootstrap (ID j) now (rest st) else Some (rest st)) with
          | None => (ClaimError, None)
          | Some w =>
              (Claimed (with_lease "running" (Some owner) (Some lockedUntil) (coalesce (StartedAt j) (Some now))
                 (FinishedAt j) j), Some (set_rest w st))
          end
  end.

(** The first reading of the clock recovers the stale leases, in the same transaction. *)
Definition claimJob (owner : string) (where_ : Job → bool) (pg_now : Z) (clock : nat → Z) (st : queue W)
  : claim_answer * queue W :=
  let st1 := recoverStaleJobLeasesTx (clock 0%nat) st in
  let '(a, committed) := claim_loop owner pg_now (λ n, clock (1 + n)%nat) (candidates where_ st1) (begin_tx st1) in
  (a, default st committed).

Definition ClaimJob (workerID : string) := claimJob workerID worker_where.

(** The query for the node, [ResolveSecretValue] (the metadata and the plaintext of a
    reference), and [hydrateExternalEgressJobSecrets]: reads of the rest of the database,
    [None] being their error. *)
Context (find_node : string → W → option string).
Context (resolve_secret : string → W → option (gomap * string)).
Context (hydrate_egress : string → Job → W → option Job).

Definition hydrateAgentJobSecrets (nodeID : string) (job : Job) (w : W) : option Job :=
  if has_prefix "node.external_egress." (Type_ job) then hydrate_egress nodeID job w
  else if negb (Type_ job =s "node.agent.rotate_token") then Some job
  else
    let payload := default ∅ (Payload job) in
    if negb (trim_space (stringify (payload !! "new_agent_token")) =s "") then Some job
    else
      let secretRefID := trim_space (stringify (payload !! "new_agent_token_secret_ref_id")) in
      if secretRefID =s "" then None
      else
        '(meta, rawToken) ← resolve_secret secretRefID w;
        let refNodeID := trim_space (stringify (meta !! "node_id")) in
        if negb (refNodeID =s "") && negb (refNodeID =s trim_space nodeID) then None
        else Some (with_Payload (<["new_agent_token" := AString (trim_space rawToken)]> payload) job).

(** The claim is committed before the secrets are read. *)
Definition AgentNextJob (nodeRef : string) (pg_now : Z) (clock : nat → Z) (st : queue W) : claim_answer * queue W :=
  match find_node nodeRef (rest st) with
  | None => (ClaimError, st)
  | Some nodeID =>
      match claimJob ("agent:" +:+ nodeID) (agent_where nodeID) pg_now clock st with
      | (Claimed job, st) =>
          (match hydrateAgentJobSecrets nodeID job (rest st) with Some job => Claimed job | None => ClaimError end, st)
      | answer => answer
      end
  end.
End claim.

(** ** Completing and cancelling *)

Inductive mark_error := MarkMarshal (message : string) | NoLongerInState (status : string).

Inductive queue_error :=
| UnsupportedCompletionStatus (status : string)
| MarshalFallback
| NoRows
| AlreadyFinished (status : string)
| JobNotRunning
| LeaseOwnerMismatch
| LeaseExpired
| OwnerRequired
| SideEffectUnrecorded (message : string) (reason : mark_error)
| CannotCancel (status : string).

Definition finished (status : string) : bool := one_of status ["succeeded"; "failed"; "cancelled"].

(** [delete from resource_locks where job_id = $1]. *)
Definition delete_job_locks {W : Type} (idv : string) (st : queue W) : queue W :=
  set_locks (filter (λ kl, lock_job kl.2 ≠ idv) (locks st)) st.

(** What the side effects of a completion do to the table of jobs: they queue
    follow-up jobs, and add to the payload of an installation that is pending. *)
Inductive followup :=
| QueueJob (j : Job)
| SetPayload (jobID : string) (payload : gomap).

Definition run_followup {W : Type} (f : followup) (st : queue W) : queue W :=
  match f with
  | QueueJob j => default st (insertJobRow (with_Status "queued" j) st)
  | SetPayload jobID payload =>
      match jobs st !! jobID with
      | Some row =>
          if (Type_ row =s "node.capability.install") && one_of (Status row) ["queued"; "running"; "retrying"]
          then set_jobs (<[jobID := with_Payload payload row]> (jobs st)) st else st
      | None => st
      end
  end.

Fixpoint run_followups {W : Type} (fs : list followup) (st : queue W) : queue W :=
  match fs with [] => st | f :: fs => run_followups fs (run_followup f st) end.

Section complete.
Context {W : Type}.
(** [json.Marshal] of a result: the text of its error, if any; and the side
    effects of a completion, with the text of their error and what they do to the
    jobs. *)
Context (marshal_error : gomap → option string).
Context (side_effects : string → Job → string → gomap → W → option string * list followup * W).

(** The result as stored, with the fallback. *)
Definition stored_result (result : option gomap) : option gomap :=
  let stored := default ∅ (redactSensitiveMapForStorage (Some (default ∅ result))) in
  match marshal_error stored with
  | None => Some stored
  | Some e =>
      let fallback : gomap := {[ "message" := AString "result marshal failed"; "error" := AString e ]} in
      match marshal_error fallback with None => Some fallback | Some _ => None end
  end.

(** The update of the row that the failed side effects found in [runtimeStatus]. *)
Definition markJobCompletionSideEffectFailure (pg_now : Z) (idv runtimeStatus : string) (stored : gomap) (message : string)
    (st : queue W) : option mark_error * queue W :=
  let failed : gomap :=
    <["message" := AString ("runtime completed, but control-plane reconciliation failed: " +:+ message)]>
    (<["control_plane_reconciliation_error" := AString message]>
    (<["control_plane_reconciliation_status" := AString "failed"]>
    (<["runtime_completion_status" := AString runtimeStatus]> stored))) in
  let redacted := default ∅ (redactSensitiveMapForStorage (Some failed)) in
  match marshal_error redacted with
  | Some e => (Some (MarkMarshal e), st)
  | None =>
      match jobs st !! idv with
      | Some row =>
          if Status row =s runtimeStatus
          then (None, set_jobs (<[idv := with_result (Some redacted)
                  (with_lease "failed" None None (StartedAt row) (coalesce (FinishedAt row) (Some pg_now)) row)]> (jobs st)) st)
          else (Some (NoLongerInState runtimeStatus), st)
      | None => (Some (NoLongerInState runtimeStatus), st)
      end
  end.

Definition check_lease (owner : string) (now : Z) (row : Job) : result queue_error () :=
  _ ← guard_err (Status row =s "running") JobNotRunning;
  _ ← guard_err (match LockedBy row with Some b => trim_space b =s owner | None => false end) LeaseOwnerMismatch;
  guard_err (match LockedUntil row with Some u => now <? u | None => false end) LeaseExpired.

Definition completeJob (idv owner : string) (requireLease : bool) (status : string) (res : option gomap)
    (now pg_now : Z) (st : queue W) : result queue_error () * queue W :=
  if negb (finished status) then (Err (UnsupportedCompletionStatus status), st)
  else match stored_result res with
  | None => (Err MarshalFallback, st)
  | Some stored =>
      match jobs st !! idv with
      | None => (Err NoRows, st)
      | Some row =>
          if finished (Status row) then (Err (AlreadyFinished (Status row)), st)
          else match (if requireLease then check_lease owner now row else Ok ()) with
          | Err e => (Err e, st)
          | Ok _ =>
              let st := set_jobs (<[idv := with_result (Some stored)
                          (with_lease status None None (StartedAt row) (Some pg_now) row)]> (jobs st)) st in
              let st := delete_job_locks idv st in
              let '(err, followups, w) := side_effects idv row status (default ∅ res) (rest st) in
              let st := run_followups followups (set_rest w st) in
              match err with
              | None => (Ok (), st)
              | Some message =>
                  match markJobCompletionSideEffectFailure pg_now idv status stored message st with
                  | (None, st) => (Ok (), st)
                  | (Some e, st) => (Err (SideEffectUnrecorded message e), st)
                  end
              end
          end
      end
  end.

Definition CompleteJob (idv status : string) (res : option gomap) := completeJob idv "" false status res.

Definition CompleteAgentJob (idv owner status : string) (res : option gomap) (now pg_now : Z) (st : queue W)
  : result queue_error () * queue W :=
  let owner := trim_space owner in
  if owner =s "" then (Err OwnerRequired, st) else completeJob idv owner true status res now pg_now st.

(** [now] recovers the stale leases, in a transaction of its own. *)
Definition CancelJob (jobID : string) (now pg_now : Z) (st : queue W) : result queue_error Job * queue W :=
  let st := snd (RecoverStaleJobLeases now st) in
  match jobs st !! jobID with
  | None => (Err NoRows, st)
  | Some row =>
      if negb (claimable (Status row)) then (Err (CannotCancel (Status row)), st)
      else
        let row := with_lease "cancelled" None None (StartedAt row) (Some pg_now) row in
        (Ok (scanJob row), delete_job_locks jobID (set_jobs (<[jobID := row]> (jobs st)) st))
  end.
End complete.
