(* ===== verification/JobQueueProps.v ===== *)
(** * Invariants of the job queue

    The operations of [JobQueue] as steps of a state machine with a clock, the
    invariant that ties running jobs to resource locks, and what follows:
    exclusion of two jobs on one resource, the transitions of a job's status,
    the leases an agent's completion needs, and when a claim makes progress. *)
From S2P Require Import Prelude GoStrings Strconv GoValue Jobs Redaction JobQueue.
From Stdlib Require Import Ascii.
From stdpp Require Import options.
Open Scope Z_scope.

(** ** The invariant *)

Section invariant.
Context {W : Type}.
Implicit Types st : queue W.

Record queue_ok (delta now : Z) (st : queue W) : Prop := {
  ok_id : ∀ k j, jobs st !! k = Some j → ID j = k;
  ok_running : ∀ k j, jobs st !! k = Some j → Status j = "running" → is_Some (LockedUntil j);
  ok_holder : ∀ key l, locks st !! key = Some l →
    ∃ j u, jobs st !! lock_job l = Some j ∧ Status j = "running" ∧ jobLockTarget j = Some key
      ∧ LockedUntil j = Some u ∧ expires_at l ≤ u ≤ expires_at l + delta;
  ok_lease : ∀ k j u key, jobs st !! k = Some j → Status j = "running" → LockedUntil j = Some u →
    jobLockTarget j = Some key → (∃ l, locks st !! key = Some l ∧ lock_job l = k) ∨ u < now + delta }.

Lemma queue_ok_later delta now now' st : now ≤ now' → queue_ok delta now st → queue_ok delta now' st.
Proof.
  intros Hle [H1 H2 H3 H4]. split; try done. intros k j u key Hj Hr Hu Hk.
  destruct (H4 k j u key Hj Hr Hu Hk) as [?|?]; [by left|right; lia].
Qed.

Lemma queue_ok_rest delta now st w : queue_ok delta now st → queue_ok delta now (set_rest w st).
Proof. by intros []; split. Qed.

(** A row that is replaced by one that does not run. *)
Lemma queue_ok_stop delta now st k row row' :
  queue_ok delta now st → jobs st !! k = Some row → ID row' = ID row → Status row' ≠ "running" →
  (∀ key l, locks st !! key = Some l → lock_job l ≠ k) →
  queue_ok delta now (set_jobs (<[k := row']> (jobs st)) st).
Proof.
  intros [H1 H2 H3 H4] Hrow Hid Hs Hl. split; cbn [set_jobs jobs locks].
  - intros k' j [[<- <-]|[_ ?]]%lookup_insert_Some; [rewrite Hid; by apply H1|by apply H1].
  - intros k' j [[<- <-]|[_ ?]]%lookup_insert_Some Hr; [done|by eapply H2].
  - intros key l Hk. destruct (H3 key l Hk) as (j & u & Hj & ?). exists j, u.
    rewrite lookup_insert_ne; [done|]. intros E. by eapply Hl.
  - intros k' j u key [[<- <-]|[_ ?]]%lookup_insert_Some Hr Hu Hk; [done|by eapply H4].
Qed.

(** A row that changes nothing the invariant is about. *)
Lemma queue_ok_update delta now st k row row' :
  queue_ok delta now st → jobs st !! k = Some row → ID row' = ID row → Status row' = Status row →
  LockedUntil row' = LockedUntil row → jobLockTarget row' = jobLockTarget row →
  queue_ok delta now (set_jobs (<[k := row']> (jobs st)) st).
Proof.
  intros [H1 H2 H3 H4] Hrow Hid Hs Hu Hk. split; cbn [set_jobs jobs locks].
  - intros k' j [[<- <-]|[_ ?]]%lookup_insert_Some; [rewrite Hid; by apply H1|by apply H1].
  - intros k' j [[<- <-]|[_ ?]]%lookup_insert_Some; [rewrite Hs, Hu; by eapply H2|by eapply H2].
  - intros key l Hl. destruct (H3 key l Hl) as (j & u & Hj & ?). destruct (decide (k = lock_job l)) as [->|Hne].
    + exists row', u. rewrite lookup_insert_eq, Hs, Hu, Hk. assert (j = row) as -> by congruence. done.
    + exists j, u. by rewrite lookup_insert_ne.
  - intros k' j u key [[<- <-]|[_ ?]]%lookup_insert_Some; [rewrite Hs, Hu, Hk; by eapply H4|by eapply H4].
Qed.

Lemma queue_ok_insert delta now st j :
  queue_ok delta now st → Status j = "queued" → queue_ok delta now (default st (insertJobRow j st)).
Proof.
  intros IH Ho. unfold insertJobRow. destruct (jobs st !! ID j) eqn:Hj; [done|]. cbn [from_option id].
  destruct IH as [H1 H2 H3 H4]. split; cbn [set_jobs jobs locks].
  - intros k j' [[<- <-]|[_ ?]]%lookup_insert_Some; [done|by apply H1].
  - intros k j' [[<- <-]|[_ ?]]%lookup_insert_Some Hr; [|by eapply H2].
    cbn [Status] in Hr. rewrite Ho in Hr. discriminate Hr.
  - intros key l Hl. destruct (H3 key l Hl) as (j' & u & Hj' & ?). exists j', u.
    by rewrite lookup_insert_ne by congruence.
  - intros k j' u key [[<- <-]|[_ ?]]%lookup_insert_Some Hr; [|by eapply H4].
    cbn [Status] in Hr. rewrite Ho in Hr. discriminate Hr.
Qed.

Lemma insert_lookup j st k x : jobs st !! k = Some x → jobs (default st (insertJobRow j st)) !! k = Some x.
Proof.
  intros Hx. unfold insertJobRow. destruct (jobs st !! ID j) eqn:Hj; [done|]. cbn [from_option id set_jobs jobs].
  by rewrite lookup_insert_ne by congruence.
Qed.

Lemma finish_ok delta now st k row row' :
  queue_ok delta now st → jobs st !! k = Some row → ID row' = ID row → Status row' ≠ "running" →
  queue_ok delta now (delete_job_locks k (set_jobs (<[k := row']> (jobs st)) st)).
Proof.
  intros [H1 H2 H3 H4] Hrow Hid Hs. split; cbn [delete_job_locks set_locks set_jobs jobs locks].
  - intros k' j [[<- <-]|[_ ?]]%lookup_insert_Some; [rewrite Hid; by apply H1|by apply H1].
  - intros k' j [[<- <-]|[_ ?]]%lookup_insert_Some Hr; [done|by eapply H2].
  - intros key l [Hk Hne]%map_lookup_filter_Some. destruct (H3 key l Hk) as (j & u & Hj & ?). exists j, u.
    by rewrite lookup_insert_ne by (simpl in Hne; congruence).
  - intros k' j u key [[<- <-]|[Hne Hj]]%lookup_insert_Some Hr Hu Hk; [done|].
    destruct (H4 k' j u key Hj Hr Hu Hk) as [(l & Hl & El)|]; [left|by right].
    exists l. split; [|done]. apply map_lookup_filter_Some. split; [done|]. simpl. congruence.
Qed.

(** ** Follow-ups of a completion *)

(** A row after follow-ups: a pending installation may have another payload. *)
Definition kept (j j' : Job) : Prop :=
  j' = j ∨ finished (Status j) = false ∧ ∃ payload, j' = with_Payload payload j.

Lemma kept_trans j1 j2 j3 : kept j1 j2 → kept j2 j3 → kept j1 j3.
Proof. intros [-> |(? & p & ->)] [-> |(? & p' & ->)]; [by left|right; eauto..]. Qed.

Lemma followup_ok delta now f st : queue_ok delta now st → queue_ok delta now (run_followup f st).
Proof.
  intros Hok. destruct f as [j|k payload]; cbn [run_followup]; [by apply queue_ok_insert|].
  destruct (jobs st !! k) as [row|] eqn:Hrow; [|done]. destruct (_ && _); [|done]. by eapply queue_ok_update.
Qed.

Lemma followups_ok delta now fs st : queue_ok delta now st → queue_ok delta now (run_followups fs st).
Proof. revert st. induction fs as [|f fs IH]; intros st Hok; [done|]. apply IH. by apply followup_ok. Qed.

Lemma pending_unfinished status : one_of status ["queued"; "running"; "retrying"] = true → finished status = false.
Proof.
  unfold one_of. cbn [existsb]. rewrite orb_false_r, !orb_true_iff, !String.eqb_eq. by intros [-> |[-> | ->]].
Qed.

Lemma followup_lookup f st k j :
  jobs st !! k = Some j → ∃ j', jobs (run_followup f st) !! k = Some j' ∧ kept j j'.
Proof.
  intros Hj. destruct f as [x|k' payload]; cbn [run_followup].
  - exists j. split; [by apply insert_lookup|by left].
  - destruct (jobs st !! k') as [row|] eqn:Hrow; [|by exists j; split; [|left]].
    destruct (Type_ row =s "node.capability.install") eqn:Et; [|by exists j; split; [|left]].
    destruct (one_of (Status row) _) eqn:Es; [|by exists j; split; [|left]]. cbn [andb set_jobs jobs].
    destruct (decide (k' = k)) as [->|Hne].
    + rewrite lookup_insert_eq. assert (row = j) as -> by congruence. eexists. split; [done|]. right.
      split; [by apply pending_unfinished|by eexists].
    + exists j. rewrite lookup_insert_ne by done. by split; [|left].
Qed.

Lemma followups_lookup fs st k j :
  jobs st !! k = Some j → ∃ j', jobs (run_followups fs st) !! k = Some j' ∧ kept j j'.
Proof.
  revert st j. induction fs as [|f fs IH]; intros st j Hj; [by exists j; split; [|left]|].
  destruct (followup_lookup f st k j Hj) as (j1 & H1 & K1). destruct (IH _ _ H1) as (j2 & H2 & K2).
  exists j2. split; [done|]. by eapply kept_trans.
Qed.

Lemma followups_finished fs st k j :
  jobs st !! k = Some j → finished (Status j) = true → jobs (run_followups fs st) !! k = Some j.
Proof.
  intros Hj Hf. destruct (followups_lookup fs st k j Hj) as (j' & Hj' & [-> |(Hnf & _)]); [done|congruence].
Qed.

Lemma followups_locks fs st : locks (run_followups fs st) = locks st.
Proof.
  revert st. induction fs as [|f fs IH]; intros st; [done|]. cbn [run_followups]. rewrite IH.
  destruct f as [j|k payload]; cbn [run_followup].
  - unfold insertJobRow. by destruct (jobs st !! _).
  - destruct (jobs st !! k); [|done]. by destruct (_ && _).
Qed.

(** The jobs that follow-ups add are queued. *)
Lemma followups_new fs st k j :
  jobs (run_followups fs st) !! k = Some j → (∃ j0, jobs st !! k = Some j0 ∧ kept j0 j) ∨ Status j = "queued".
Proof.
  revert st. induction fs as [|f fs IH]; intros st Hj; [left; exists j; by split; [|left]|]. cbn [run_followups] in Hj.
  destruct (IH _ Hj) as [(j0 & Hj0 & K)|]; [|by right].
  destruct (jobs st !! k) as [x|] eqn:Hx.
  - destruct (followup_lookup f st k x Hx) as (x' & Hx' & K'). assert (x' = j0) as -> by congruence.
    left. exists x. split; [done|]. by eapply kept_trans.
  - right. assert (Status j0 = "queued") as Hq.
    { destruct f as [y|k' payload]; cbn [run_followup] in Hj0.
      - unfold insertJobRow in Hj0. destruct (jobs st !! ID (with_Status "queued" y)); cbn [from_option id] in Hj0; [congruence|].
        cbn [set_jobs jobs] in Hj0. apply lookup_insert_Some in Hj0 as [[_ <-]|[_ ?]]; [done|congruence].
      - destruct (jobs st !! k') eqn:Hk'; [|congruence]. destruct (_ && _); [|congruence].
        cbn [set_jobs jobs] in Hj0. apply lookup_insert_Some in Hj0 as [[-> _]|[_ ?]]; congruence. }
    destruct K as [-> |(_ & p & ->)]; done.
Qed.

(** ** Recovery *)

Lemma recover_lookup now st k :
  jobs (recoverStaleJobLeasesTx now st) !! k = recover_job now <$> jobs st !! k.
Proof. apply lookup_fmap. Qed.

Lemma recover_job_id now j : ID (recover_job now j) = ID j.
Proof. unfold recover_job. by destruct (stale now j). Qed.

Lemma recover_job_running now j : Status (recover_job now j) = "running" → recover_job now j = j ∧ stale now j = false.
Proof. unfold recover_job. by destruct (stale now j). Qed.

Lemma stale_lease now j u : Status j = "running" → LockedUntil j = Some u → stale now j = (u <? now).
Proof. unfold stale. by intros -> ->. Qed.

Lemma recover_ok delta now0 now st :
  now ≤ now0 → queue_ok delta now0 st → queue_ok delta now0 (recoverStaleJobLeasesTx now st).
Proof.
  intros Hle [H1 H2 H3 H4]. split.
  - intros k j. rewrite recover_lookup. intros (j0 & Hj & ->)%fmap_Some. rewrite recover_job_id. by apply H1.
  - intros k j. rewrite recover_lookup. intros (j0 & Hj & ->)%fmap_Some Hr.
    destruct (recover_job_running _ _ Hr) as [E _]. rewrite E in *. by eapply H2.
  - intros key l [Hl Hlive]%map_lookup_filter_Some. cbn [snd] in Hlive.
    destruct (H3 key l Hl) as (j & u & Hj & Hr & Hk & Hu & Hb). exists j, u.
    rewrite recover_lookup, Hj. simpl. unfold recover_job. rewrite (stale_lease now j u) by done.
    replace (u <? now) with false by lia. done.
  - intros k j u key. rewrite recover_lookup. intros (j0 & Hj & ->)%fmap_Some Hr.
    destruct (recover_job_running _ _ Hr) as [E Hst]. rewrite E in *. intros Hu Hk.
    destruct (H4 k j0 u key Hj Hr Hu Hk) as [(l & Hl & Hid)|]; [|by right].
    destruct (decide (expires_at l < now)) as [Hx|Hx].
    + right. destruct (H3 key l Hl) as (j & u' & Hj' & _ & _ & Hu' & Hb). rewrite Hid in Hj'.
      assert (j = j0) as -> by congruence. assert (u' = u) as -> by congruence. lia.
    + left. exists l. split; [|done]. by apply map_lookup_filter_Some.
Qed.

(** ** Claiming *)

(** The locks after an acquisition that succeeded: an expired one may be gone,
    and the new one is there. *)
Lemma acquire_spec pg_now c j (t : tx W) ok t' :
  acquireJobResourceLockTx pg_now c j t = (ok, t') → tx_aborted t = false →
  if ok then
    tx_aborted t' = false ∧ jobs (tx_db t') = jobs (tx_db t) ∧ rest (tx_db t') = rest (tx_db t)
    ∧ match jobLockTarget j with
      | None => locks (tx_db t') = locks (tx_db t)
      | Some key =>
          (∀ l, locks (tx_db t) !! key = Some l → expires_at l < pg_now)
          ∧ locks (tx_db t') = <[key := {| lock_job := ID j; expires_at := c + jobLeaseDurationForType (Type_ j) |}]>
                                 (locks (tx_db t))
      end
  else tx_aborted t' = true ∧ ∃ key l, jobLockTarget j = Some key ∧ locks (tx_db t) !! key = Some l ∧ pg_now ≤ expires_at l.
Proof.
  unfold acquireJobResourceLockTx. destruct (jobLockTarget j) as [key|]; [|by intros [= <- <-]].
  unfold delete_expired_lock, insert_lock. intros H Ha. rewrite Ha in H.
  destruct (locks (tx_db t) !! key) as [l|] eqn:El.
  - destruct (Z.ltb_spec (expires_at l) pg_now) as [Hx|Hx]; cbn [tx_aborted tx_db set_locks locks] in H.
    + rewrite lookup_delete_eq in H. injection H as <- <-. cbn. rewrite insert_delete_eq.
      split_and!; try done. intros l' [= <-]. done.
    + rewrite Ha, El in H. injection H as <- <-. split; [done|]. by exists key, l.
  - rewrite Ha, El in H. injection H as <- <-. cbn. by split_and!.
Qed.

Lemma acquire_aborted pg_now c j (t : tx W) :
  tx_aborted t = true → (acquireJobResourceLockTx pg_now c j t).2 = t
    ∧ (acquireJobResourceLockTx pg_now c j t).1 = (match jobLockTarget j with Some _ => false | None => true end).
Proof.
  intros Ha. unfold acquireJobResourceLockTx, insert_lock, delete_expired_lock. rewrite Ha.
  destruct (jobLockTarget j); [by rewrite Ha|done].
Qed.

(** The job as a claim at [now] leaves it. *)
Definition claimed (owner : string) (now : Z) (j : Job) : Job :=
  with_lease "running" (Some owner) (Some (now + jobLeaseDurationForType (Type_ j)))
    (coalesce (StartedAt j) (Some now)) (FinishedAt j) j.

Lemma claimable_not_running status : claimable status = true → status ≠ "running".
Proof. intros H ->. discriminate H. Qed.

(** A claim of a claimable row keeps the invariant. *)
Lemma claim_ok delta e owner pg_now t0 t1 row st ls w :
  queue_ok delta e st → jobs st !! ID row = Some row → claimable (Status row) = true →
  pg_now ≤ e → t0 ≤ t1 ≤ t0 + delta →
  match jobLockTarget row with
  | None => ls = locks st
  | Some key =>
      (∀ l, locks st !! key = Some l → expires_at l < pg_now)
      ∧ ls = <[key := {| lock_job := ID row; expires_at := t0 + jobLeaseDurationForType (Type_ row) |}]> (locks st)
  end →
  queue_ok delta e {| jobs := <[ID row := claimed owner t1 row]> (jobs st); locks := ls; rest := w |}.
Proof.
  intros [H1 H2 H3 H4] Hrow Hcl Hpg Ht Hls. pose proof (claimable_not_running _ Hcl) as Hnr.
  assert (∀ key l, locks st !! key = Some l → lock_job l ≠ ID row) as Hother.
  { intros key l Hl E. destruct (H3 key l Hl) as (j & u & Hj & Hr & _). rewrite E, Hrow in Hj. congruence. }
  split; cbn [jobs locks].
  - intros k j [[<- <-]|[_ ?]]%lookup_insert_Some; [done|by apply H1].
  - intros k j [[<- <-]|[_ ?]]%lookup_insert_Some Hr; [by eexists|by eapply H2].
  - intros key l Hl. assert (locks st !! key = Some l ∨ jobLockTarget row = Some key
      ∧ l = {| lock_job := ID row; expires_at := t0 + jobLeaseDurationForType (Type_ row) |}) as [Hold|[Hk ->]].
    { destruct (jobLockTarget row) as [key'|]; [|subst; by left]. destruct Hls as [_ ->].
      apply lookup_insert_Some in Hl as [[<- <-]|[_ ?]]; auto. }
    + destruct (H3 key l Hold) as (j & u & Hj & ?). exists j, u.
      by rewrite lookup_insert_ne by (intros E; by eapply Hother).
    + eexists _, _. rewrite lookup_insert_eq. split; [done|]. split; [done|]. split; [exact Hk|]. split; [done|].
      cbn [expires_at]. lia.
  - intros k j u key [[<- <-]|[Hne Hj]]%lookup_insert_Some Hr Hu Hk.
    + left. change (jobLockTarget row = Some key) in Hk. rewrite Hk in Hls. destruct Hls as [_ ->].
      eexists. by rewrite lookup_insert_eq.
    + destruct (H4 k j u key Hj Hr Hu Hk) as [(l & Hl & El)|]; [|by right].
      destruct (jobLockTarget row) as [key'|]; [|subst ls; left; eauto]. destruct Hls as [Hx ->].
      destruct (decide (key' = key)) as [->|Hnk].
      * right. specialize (Hx l Hl). destruct (H3 key l Hl) as (j' & u' & Hj' & _ & _ & Hu' & Hb).
        assert (j' = j) as -> by congruence. assert (u' = u) as -> by congruence. lia.
      * left. exists l. by rewrite lookup_insert_ne.
Qed.

Context (start_bootstrap : string → Z → W → option W).

(** Once the transaction is aborted nothing is claimed. *)
Lemma claim_loop_aborted owner pg_now clock js (t : tx W) :
  tx_aborted t = true →
  claim_loop start_bootstrap owner pg_now clock js t
  = (if forallb (λ j, match jobLockTarget j with Some _ => true | None => false end) js then NoJob else ClaimError, None).
Proof.
  revert clock. induction js as [|j js IH]; intros clock Ha; [done|]. cbn [claim_loop].
  pose proof (acquire_aborted pg_now (clock 0%nat) j t Ha) as [E2 E1].
  destruct (acquireJobResourceLockTx pg_now (clock 0%nat) j t) as [ok t']. simpl in E1, E2. subst t' ok. simpl.
  destruct (jobLockTarget j); simpl; [by apply IH|by rewrite Ha].
Qed.

(** The head of the candidates decides the claim. *)
Lemma claim_loop_head owner pg_now clock j js st a committed :
  claim_loop start_bootstrap owner pg_now clock (j :: js) (begin_tx st) = (a, committed) →
  (∃ key l, jobLockTarget j = Some key ∧ locks st !! key = Some l ∧ pg_now ≤ expires_at l ∧ committed = None ∧ ∀ x, a ≠ Claimed x)
  ∨ (committed = None ∧ a = ClaimError ∧ Type_ j = "node.bootstrap" ∧ start_bootstrap (ID j) (clock 1%nat) (rest st) = None)
  ∨ ∃ ls w, a = Claimed (claimed owner (clock 1%nat) j)
      ∧ match jobLockTarget j with
        | None => ls = locks st
        | Some key =>
            (∀ l, locks st !! key = Some l → expires_at l < pg_now)
            ∧ ls = <[key := {| lock_job := ID j; expires_at := clock 0%nat + jobLeaseDurationForType (Type_ j) |}]> (locks st)
        end
      ∧ committed = Some {| jobs := match jobs st !! ID j with
                            | Some row => if claimable (Status row) then
                                <[ID j := with_lease "running" (Some owner) (Some (clock 1%nat + jobLeaseDurationForType (Type_ j)))
                                            (coalesce (StartedAt row) (Some (clock 1%nat))) (FinishedAt row) row]> (jobs st)
                                else jobs st
                            | None => jobs st end;
                            locks := ls; rest := w |}.
Proof.
  cbn [claim_loop]. destruct (acquireJobResourceLockTx pg_now (clock 0%nat) j (begin_tx st)) as [ok t] eqn:E.
  pose proof (acquire_spec _ _ _ _ _ _ E eq_refl) as H. destruct ok; cbn [negb].
  - destruct H as (Ha & Hj & Hw & Hl). rewrite Ha, Hj. cbn [begin_tx tx_db] in *. intros Hc. right.
    set (st1 := match jobs st !! ID j with Some _ => _ | None => _ end) in Hc.
    assert (rest st1 = rest st ∧ locks st1 = locks (tx_db t) ∧ jobs st1 = match jobs st !! ID j with
       | Some row => if claimable (Status row) then
          <[ID j := with_lease "running" (Some owner) (Some (clock 1%nat + jobLeaseDurationForType (Type_ j)))
            (coalesce (StartedAt row) (Some (clock 1%nat))) (FinishedAt row) row]> (jobs st) else jobs st
       | None => jobs st end) as (E1 & E2 & E3).
    { subst st1. destruct (jobs st !! ID j) as [row|]; [destruct (claimable _)|]; by cbn. }
    clearbody st1. rewrite E1 in Hc.
    destruct (if Type_ j =s "node.bootstrap" then _ else _) as [w|] eqn:Ew; injection Hc as <- <-.
    + right. exists (locks (tx_db t)), w. split; [done|]. split; [done|]. unfold set_rest. by rewrite E2, E3.
    + left. destruct (String.eqb_spec (Type_ j) "node.bootstrap"); [|done]. done.
  - destruct H as (Ha & key & l & Hk & Hl & Hx). intros Hc. left.
    rewrite claim_loop_aborted in Hc by done. injection Hc as <- <-. exists key, l. cbn [begin_tx tx_db] in Hl.
    split_and!; try done. intros x. by destruct (forallb _ _).
Qed.
End invariant.

(** ** The order of the candidates *)

Lemma claims_before_irrefl j : claims_before j j = false.
Proof. unfold claims_before. rewrite Z.eqb_refl. destruct (CreatedAt j); [apply Z.ltb_irrefl|done]. Qed.

Lemma claims_before_asym a b : claims_before a b = true → claims_before b a = false.
Proof.
  unfold claims_before. destruct (Z.eqb_spec (Priority a) (Priority b)), (Z.eqb_spec (Priority b) (Priority a)); try lia.
  destruct (CreatedAt a), (CreatedAt b); try done; lia.
Qed.

(** The first job was created no later than the second; a missing time comes last. *)
Definition not_younger (row j : Job) : Prop :=
  match CreatedAt row, CreatedAt j with Some x, Some y => x ≤ y | None, Some _ => False | _, None => True end.

Lemma claims_before_false a b : claims_before b a = false → Priority a ≤ Priority b ∧ (Priority a = Priority b → not_younger a b).
Proof.
  unfold claims_before, not_younger. destruct (Z.eqb_spec (Priority b) (Priority a)); [|lia].
  destruct (CreatedAt a), (CreatedAt b); try done; lia.
Qed.

Lemma claims_before_trans a b c :
  claims_before b a = false → claims_before c b = false → claims_before c a = false.
Proof.
  unfold claims_before.
  destruct (Z.eqb_spec (Priority b) (Priority a)), (Z.eqb_spec (Priority c) (Priority b)),
    (Z.eqb_spec (Priority c) (Priority a)); try lia.
  destruct (CreatedAt a), (CreatedAt b), (CreatedAt c); try done; lia.
Qed.

(** ** The lease *)

(** What the row of a job must say for its agent to complete it. *)
Definition lease_of (owner : string) (now : Z) (row : Job) : Prop :=
  Status row = "running" ∧ (∃ b, LockedBy row = Some b ∧ trim_space b = owner)
  ∧ ∃ u, LockedUntil row = Some u ∧ now < u.

Lemma check_lease_spec owner now row : check_lease owner now row = Ok () ↔ lease_of owner now row.
Proof.
  unfold check_lease, lease_of, guard_err.
  destruct (String.eqb_spec (Status row) "running") as [Hr|Hr]; cbn;
    [|split; [discriminate|by intros [? _]]].
  destruct (LockedBy row) as [b|]; [destruct (String.eqb_spec (trim_space b) owner) as [Hb|Hb]|]; cbn;
    [|split; [discriminate|naive_solver]..].
  destruct (LockedUntil row) as [u|]; [destruct (Z.ltb_spec now u)|]; cbn;
    (split; [try discriminate|]); naive_solver lia.
Qed.

(** The outcomes of a completion that has changed the queue. *)
Definition accepted (r : result queue_error ()) : bool :=
  match r with Ok _ | Err (SideEffectUnrecorded _ _) => true | _ => false end.

Lemma check_lease_refused owner now row e : check_lease owner now row = Err e → accepted (Err e) = false.
Proof.
  unfold check_lease, guard_err. destruct (Status row =s "running"); cbn; [|by intros [= <-]].
  destruct (match LockedBy row with Some _ => _ | None => _ end); cbn; [|by intros [= <-]].
  destruct (match LockedUntil row with Some _ => _ | None => _ end); cbn; by intros [= <-].
Qed.

(** What a job keeps for its life. *)
Definition same_job (j j' : Job) : Prop :=
  ID j' = ID j ∧ Type_ j' = Type_ j ∧ ScopeType j' = ScopeType j ∧ ScopeID j' = ScopeID j ∧ NodeID j' = NodeID j
  ∧ InstanceID j' = InstanceID j ∧ Priority j' = Priority j ∧ CreatedAt j' = CreatedAt j.

(** ** Steps *)

Section queue.
Context {W : Type} (sprint : any → string) (scan : gmap string Job → list Job) (start_bootstrap : string → Z → W → option W).
Context (find_node : string → W → option string) (resolve_secret : string → W → option (gomap * string))
  (hydrate_egress : string → Job → W → option Job).
Context (marshal_error : gomap → option string)
  (side_effects : string → Job → string → gomap → W → option string * list followup * W).

(** The operations, with the identity and the readings of the clocks of a call. *)
Inductive op :=
| OpInsert (j : Job)
| OpRecover (now : Z)
| OpClaimWorker (worker : string) (pg_now : Z) (clock : nat → Z)
| OpClaimAgent (node : string) (pg_now : Z) (clock : nat → Z)
| OpComplete (idv status : string) (res : option gomap) (now pg_now : Z)
| OpCompleteAgent (idv owner status : string) (res : option gomap) (now pg_now : Z)
| OpCancel (idv : string) (now pg_now : Z).

Definition run_op (o : op) (st : queue W) : queue W :=
  match o with
  | OpInsert j => default st (insertJobRow j st)
  | OpRecover now => snd (RecoverStaleJobLeases now st)
  | OpClaimWorker worker pg_now clock => snd (ClaimJob scan start_bootstrap worker pg_now clock st)
  | OpClaimAgent node pg_now clock => snd (AgentNextJob sprint scan start_bootstrap find_node resolve_secret hydrate_egress node pg_now clock st)
  | OpComplete idv status res now pg_now => snd (CompleteJob marshal_error side_effects idv status res now pg_now st)
  | OpCompleteAgent idv owner status res now pg_now =>
      snd (CompleteAgentJob marshal_error side_effects idv owner status res now pg_now st)
  | OpCancel idv now pg_now => snd (CancelJob idv now pg_now st)
  end.

(** The readings of a call that runs between [s] and [e]; within one call the
    host's clock advances by at most [delta]. *)
Definition timed (delta s : Z) (o : op) (e : Z) : Prop :=
  s ≤ e
  ∧ match o with
    | OpInsert j => Status j = "queued"
    | OpRecover now | OpCancel _ now _ => now ≤ e
    | OpClaimWorker _ pg_now clock | OpClaimAgent _ pg_now clock =>
        pg_now ≤ e ∧ (∀ n, clock n ≤ e) ∧ ∀ n, clock n ≤ clock (S n) ≤ clock n + delta
    | OpComplete _ _ _ _ _ | OpCompleteAgent _ _ _ _ _ _ => True
    end.

(** The states reached from the empty queue, and when. *)
Inductive reachable (delta : Z) : Z → queue W → Prop :=
| reach_start t w : reachable delta t {| jobs := ∅; locks := ∅; rest := w |}
| reach_step t st o t' : reachable delta t st → timed delta t o t' → reachable delta t' (run_op o st).

Hypothesis scan_rows : ∀ m, scan m ≡ₚ (map_to_list m).*2.

Lemma candidates_row where_ (st : queue W) j :
  (∀ k j, jobs st !! k = Some j → ID j = k) → j ∈ candidates scan where_ st →
  ∃ row, jobs st !! ID row = Some row ∧ j = scanJob row ∧ claimable (Status row) = true ∧ where_ row = true.
Proof using scan_rows.
  intros Hid. unfold candidates. intros Hj. apply elem_of_take in Hj as (i & Hj & _).
  apply list_elem_of_lookup_2 in Hj.
  apply list_elem_of_fmap in Hj as (row & -> & Hrow). exists row.
  rewrite elem_of_isort, list_elem_of_In, List.filter_In, <-list_elem_of_In in Hrow.
  destruct Hrow as [Hin [Hc Hw]%andb_true_iff]. rewrite scan_rows in Hin.
  apply list_elem_of_fmap in Hin as ([k row'] & -> & Hk%elem_of_map_to_list). simpl in *.
  by rewrite (Hid _ _ Hk).
Qed.

Lemma claimJob_ok delta e owner where_ pg_now clock st :
  queue_ok delta e st → pg_now ≤ e → (∀ n, clock n ≤ e) → (∀ n, clock n ≤ clock (S n) ≤ clock n + delta) →
  queue_ok delta e (snd (claimJob scan start_bootstrap owner where_ pg_now clock st)).
Proof using scan_rows.
  intros Hok Hpg Hc Hm. unfold claimJob.
  pose proof (recover_ok _ _ (clock 0%nat) _ (Hc 0%nat) Hok) as Hok1.
  set (st1 := recoverStaleJobLeasesTx (clock 0%nat) st) in *.
  destruct (claim_loop _ _ _ _ _ _) as [a committed] eqn:E. cbn [snd].
  destruct (candidates scan where_ st1) as [|j js] eqn:Ec; [by injection E as <- <-|].
  assert (j ∈ candidates scan where_ st1) as Hj by (rewrite Ec; by left).
  apply candidates_row in Hj as (row & Hrow & -> & Hcl & _); [|by apply Hok1].
  apply claim_loop_head in E as [(key & l & _ & _ & _ & -> & _)|[(-> & _)|(ls & w & _ & Hls & ->)]]; [done|done|].
  cbn [from_option id]. change (ID (scanJob row)) with (ID row). rewrite Hrow, Hcl.
  by apply (claim_ok delta e owner pg_now (clock 1%nat) (clock 2%nat) row st1 ls w).
Qed.

(** Reading the secrets of a claimed job leaves the queue as the claim left it. *)
Lemma AgentNextJob_state node pg_now clock (st : queue W) :
  let st' := snd (AgentNextJob sprint scan start_bootstrap find_node resolve_secret hydrate_egress node pg_now clock st) in
  st' = st ∨ ∃ nodeID, st' = snd (claimJob scan start_bootstrap ("agent:" +:+ nodeID) (agent_where nodeID) pg_now clock st).
Proof.
  unfold AgentNextJob. destruct (find_node node (rest st)) as [nodeID|]; [right; exists nodeID|by left].
  by destruct (claimJob _ _ _ _ _ _ _) as [[j'| |] st'].
Qed.

(** The row an accepted completion leaves. *)
Definition completed (status : string) (stored : gomap) (pg_now : Z) (row : Job) : Job :=
  with_result (Some stored) (with_lease status None None (StartedAt row) (Some pg_now) row).

(** A completion that is not refused finishes the row, releases its locks, runs the
    side effects and, when they fail, marks the row. *)
Lemma completeJob_effect idv owner lease status res now pg_now (st : queue W) r st' :
  completeJob marshal_error side_effects idv owner lease status res now pg_now st = (r, st') →
  if accepted r then
    finished status = true ∧ ∃ row row' w fs stored,
      jobs st !! idv = Some row ∧ finished (Status row) = false ∧ (if lease then check_lease owner now row else Ok ()) = Ok ()
      ∧ let row1 := completed status stored pg_now row in
        let st1 := run_followups fs (set_rest w (delete_job_locks idv (set_jobs (<[idv := row1]> (jobs st)) st))) in
        jobs st1 !! idv = Some row1 ∧ st' = set_jobs (<[idv := row']> (jobs st1)) st1
        ∧ (row' = row1 ∨ ∃ res', row' = with_result res' (with_lease "failed" None None (StartedAt row) (Some pg_now) row))
  else st' = st.
Proof.
  unfold completeJob. destruct (finished status) eqn:Hf; cbn [negb]; [|by intros [= <- <-]].
  destruct (stored_result marshal_error res) as [stored|]; [|by intros [= <- <-]].
  destruct (jobs st !! idv) as [row|] eqn:Hrow; [|by intros [= <- <-]].
  destruct (finished (Status row)) eqn:Hfr; [by intros [= <- <-]|].
  destruct (if lease then _ else _) as [[]|e] eqn:Hl.
  2: { intros [= <- <-]. destruct lease; [|done]. by rewrite (check_lease_refused _ _ _ _ Hl). }
  destruct (side_effects _ _ _ _ _) as [[err fs] w]. fold (completed status stored pg_now row).
  set (st1 := run_followups fs _). intros H.
  assert (jobs st1 !! idv = Some (completed status stored pg_now row)) as H1.
  { apply followups_finished; [|done]. apply lookup_insert_eq. }
  assert (accepted r = true ∧ (st' = st1 ∨ ∃ res', st' = set_jobs (<[idv := with_result res'
      (with_lease "failed" None None (StartedAt row) (Some pg_now) row)]> (jobs st1)) st1)) as [-> Hst].
  { destruct err as [message|]; [|injection H as <- <-; auto].
    unfold markJobCompletionSideEffectFailure in H. rewrite H1 in H. destruct (marshal_error _); [injection H as <- <-; auto|].
    destruct (Status _ =s status); injection H as <- <-; eauto. }
  split; [done|]. exists row. destruct Hst as [-> |[res' ->]].
  - exists (completed status stored pg_now row), w, fs, stored. fold st1. split_and!; try done; [|by left].
    rewrite insert_id by done. by destruct st1.
  - eexists _, w, fs, stored. fold st1. split_and!; try done. right. by exists res'.
Qed.

Lemma completeJob_ok delta e idv owner lease status res now pg_now (st : queue W) :
  queue_ok delta e st → queue_ok delta e (snd (completeJob marshal_error side_effects idv owner lease status res now pg_now st)).
Proof.
  intros Hok. destruct (completeJob _ _ _ _ _ _ _ _ _ _) as [r st'] eqn:E. apply completeJob_effect in E.
  destruct (accepted r); [|by subst]. destruct E as (Hf & row & row' & w & fs & stored & Hrow & _ & _ & H1 & -> & Hrow').
  assert (status ≠ "running") as Hs by (intros ->; discriminate Hf).
  set (st1 := run_followups _ _) in *. cbn [snd].
  assert (queue_ok delta e st1) as Hok1 by by eapply followups_ok, queue_ok_rest, finish_ok.
  eapply queue_ok_stop; [done|exact H1|by destruct Hrow' as [-> |[? ->]]..|].
  intros key l. unfold st1. rewrite followups_locks. intros [_ Hl]%map_lookup_filter_Some. done.
Qed.

(** Every reachable state satisfies the invariant. *)
Lemma reachable_ok delta t st : reachable delta t st → queue_ok delta t st.
Proof using scan_rows.
  induction 1 as [t w|t st o t' _ IH [Ht Ho]].
  - split; cbn [jobs locks]; intros *; rewrite lookup_empty; done.
  - apply (queue_ok_later _ _ t') in IH; [|done].
    destruct o as [j|now|worker pg_now clock|node pg_now clock|idv status res now pg_now|idv owner status res now pg_now|idv now pg_now];
      cbn [run_op].
    + by apply queue_ok_insert.
    + by apply recover_ok.
    + destruct Ho as (? & ? & ?). by apply claimJob_ok.
    + destruct Ho as (? & ? & ?). destruct (AgentNextJob_state node pg_now clock st) as [-> |[nodeID ->]]; [done|].
      by apply claimJob_ok.
    + by apply completeJob_ok.
    + unfold CompleteAgentJob. cbv zeta. destruct (trim_space owner =s ""); [done|by apply completeJob_ok].
    + unfold CancelJob. cbv zeta. pose proof (recover_ok _ _ now _ Ho IH) as Hok.
      change (snd (RecoverStaleJobLeases now st)) with (recoverStaleJobLeasesTx now st).
      destruct (jobs (recoverStaleJobLeasesTx now st) !! idv) as [row|] eqn:Hrow; [|done].
      destruct (negb (claimable (Status row))); [done|]. cbn [snd]. by eapply finish_ok.
Qed.

(** ** Exclusion *)

(** C2: two jobs that need the same resource lock do not run together, as long as
    both leases last: in every reachable state, one of two running jobs with one
    lock target has a lease that is over, up to the drift of the clock within one
    claim. *)
Theorem job_mutual_exclusion (delta t : Z) (st : queue W) (k1 k2 : string) (j1 j2 : Job) (key : lock_key) :
  reachable delta t st → jobs st !! k1 = Some j1 → jobs st !! k2 = Some j2 → k1 ≠ k2 →
  Status j1 = "running" → Status j2 = "running" →
  jobLockTarget j1 = Some key → jobLockTarget j2 = Some key →
  ∃ u, (LockedUntil j1 = Some u ∨ LockedUntil j2 = Some u) ∧ u < t + delta.
Proof using scan_rows.
  intros Hr Hj1 Hj2 Hne Hs1 Hs2 Hk1 Hk2. destruct (reachable_ok _ _ _ Hr) as [_ H2 _ H4].
  destruct (H2 _ _ Hj1 Hs1) as [u1 Hu1], (H2 _ _ Hj2 Hs2) as [u2 Hu2].
  destruct (H4 _ _ _ _ Hj1 Hs1 Hu1 Hk1) as [(l1 & Hl1 & E1)|]; [|exists u1; auto].
  destruct (H4 _ _ _ _ Hj2 Hs2 Hu2 Hk2) as [(l2 & Hl2 & E2)|]; [|exists u2; auto].
  congruence.
Qed.

(** ** Transitions *)

(** The edges of the status graph. *)
Definition may_become (s s' : string) : Prop :=
  s' = s ∨ claimable s = true ∧ s' = "running" ∨ s = "running" ∧ s' = "retrying"
  ∨ finished s = false ∧ finished s' = true.

Definition evolves (j j' : Job) : Prop :=
  same_job j j' ∧ may_become (Status j) (Status j') ∧ (finished (Status j) = true → j' = j).

Lemma evolves_refl j : evolves j j.
Proof. split; [|split; [by left|done]]. by split_and!. Qed.

Lemma evolves_finished j j' : same_job j j' → finished (Status j) = false → finished (Status j') = true → evolves j j'.
Proof. intros H Hf Hf'. split; [done|]. split; [by right; right; right|congruence]. Qed.

Lemma evolves_recovered_finished now j j' :
  same_job (recover_job now j) j' → finished (Status (recover_job now j)) = false → finished (Status j') = true → evolves j j'.
Proof.
  unfold recover_job. destruct (stale now j) eqn:E; [|by apply evolves_finished].
  intros H _ Hf'. unfold stale in E. apply andb_true_iff in E as [Er%String.eqb_eq _].
  apply evolves_finished; [done|by rewrite Er|done].
Qed.

Lemma recover_evolves now j : evolves j (recover_job now j).
Proof.
  unfold recover_job. destruct (stale now j) eqn:E; [|by apply evolves_refl].
  unfold stale in E. apply andb_true_iff in E as [Er%String.eqb_eq _].
  split; [done|]. rewrite Er. split; [right; right; by left|]. intros H. discriminate H.
Qed.

Lemma claim_evolves now owner c j : claimable (Status (recover_job now j)) = true → evolves j (claimed owner c (recover_job now j)).
Proof.
  unfold recover_job. destruct (stale now j) eqn:E.
  - unfold stale in E. apply andb_true_iff in E as [Er%String.eqb_eq _].
    split; [done|]. rewrite Er. split; [by left|]. intros Hf. discriminate Hf.
  - intros Hc. split; [done|]. split; [right; by left|].
    unfold claimable, one_of in Hc. cbn [existsb] in Hc. rewrite orb_false_r, orb_true_iff, !String.eqb_eq in Hc.
    destruct Hc as [-> | ->]; discriminate.
Qed.

(** A claim that commits: the head of the candidates, as it was. *)
Lemma claimJob_effect delta t owner where_ pg_now clock st :
  queue_ok delta t st → (∀ n, clock n ≤ t) →
  let st1 := recoverStaleJobLeasesTx (clock 0%nat) st in
  snd (claimJob scan start_bootstrap owner where_ pg_now clock st) = st
  ∨ ∃ row ls w, jobs st1 !! ID row = Some row ∧ claimable (Status row) = true ∧ where_ row = true
      ∧ claimJob scan start_bootstrap owner where_ pg_now clock st
        = (Claimed (claimed owner (clock 2%nat) (scanJob row)),
           {| jobs := <[ID row := claimed owner (clock 2%nat) row]> (jobs st1); locks := ls; rest := w |}).
Proof using scan_rows.
  intros Hok Hc st1. pose proof (recover_ok _ _ (clock 0%nat) _ (Hc 0%nat) Hok) as Hok1. unfold claimJob.
  fold st1 in Hok1 |- *. destruct (claim_loop _ _ _ _ _ _) as [a committed] eqn:E. cbn [snd].
  destruct (candidates scan where_ st1) as [|j js] eqn:Ec; [injection E as <- <-; by left|].
  assert (j ∈ candidates scan where_ st1) as Hj by (rewrite Ec; by left).
  apply candidates_row in Hj as (row & Hrow & -> & Hcl & Hw); [|by apply Hok1].
  apply claim_loop_head in E as [(key & l & _ & _ & _ & -> & _)|[(-> & _)|(ls & w & -> & _ & ->)]]; [by left..|].
  right. exists row, ls, w. split; [done|]. split; [done|]. split; [done|].
  cbn [from_option id]. change (ID (scanJob row)) with (ID row). by rewrite Hrow, Hcl.
Qed.

Lemma kept_evolves j j' : kept j j' → evolves j j'.
Proof.
  intros [-> |(Hf & p & ->)]; [apply evolves_refl|]. split; [done|]. split; [by left|]. rewrite Hf. discriminate.
Qed.

Lemma completeJob_evolves idv owner lease status res now pg_now (st : queue W) k j :
  jobs st !! k = Some j →
  ∃ j', jobs (snd (completeJob marshal_error side_effects idv owner lease status res now pg_now st)) !! k = Some j'
    ∧ evolves j j'.
Proof.
  intros Hj. destruct (completeJob _ _ _ _ _ _ _ _ _ _) as [r st'] eqn:E. apply completeJob_effect in E.
  destruct (accepted r); [|subst; eauto using evolves_refl].
  destruct E as (Hf & row & row' & w & fs & stored & Hrow & Hfr & _ & H1 & -> & Hrow'). cbn [snd set_jobs jobs].
  destruct (decide (idv = k)) as [->|Hne].
  - rewrite lookup_insert_eq. eexists. split; [done|]. assert (row = j) as -> by congruence.
    destruct Hrow' as [-> |[? ->]]; by apply evolves_finished.
  - rewrite lookup_insert_ne by done. destruct (followups_lookup fs (set_rest w (delete_job_locks idv
      (set_jobs (<[idv:=completed status stored pg_now row]> (jobs st)) st))) k j) as (j' & Hj' & K).
    + cbn [set_rest delete_job_locks set_jobs set_locks jobs]. by rewrite lookup_insert_ne.
    + exists j'. split; [done|]. by apply kept_evolves.
Qed.

Lemma recoverTx_evolves now (st : queue W) k j :
  jobs st !! k = Some j → ∃ j', jobs (recoverStaleJobLeasesTx now st) !! k = Some j' ∧ evolves j j'.
Proof. intros Hj. rewrite recover_lookup, Hj. eauto using recover_evolves. Qed.

Lemma claimJob_evolves delta t owner where_ pg_now clock (st : queue W) k j :
  queue_ok delta t st → (∀ n, clock n ≤ t) → jobs st !! k = Some j →
  ∃ j', jobs (snd (claimJob scan start_bootstrap owner where_ pg_now clock st)) !! k = Some j' ∧ evolves j j'.
Proof using scan_rows.
  intros Hok Hc Hj. destruct (claimJob_effect _ _ owner where_ pg_now _ _ Hok Hc) as [->|(row & ls & w & Hrow & Hcl & _ & ->)].
  - eauto using evolves_refl.
  - cbn [snd jobs]. rewrite recover_lookup in Hrow. destruct (decide (ID row = k)) as [<-|Hne].
    + rewrite Hj in Hrow. injection Hrow as E. rewrite lookup_insert_eq. eexists. split; [done|].
      rewrite <-E in Hcl |- *. by apply claim_evolves.
    + rewrite lookup_insert_ne by done. by apply recoverTx_evolves.
Qed.

(** C10: a job never leaves the queue and keeps its identity; its status only moves
    from queued or retrying to running, from running to retrying, and from any
    unfinished status to a finished one; a finished job is never changed again. *)
Theorem job_transitions (delta t t' : Z) (st : queue W) (o : op) (k : string) (j : Job) :
  reachable delta t st → timed delta t o t' → jobs st !! k = Some j →
  ∃ j', jobs (run_op o st) !! k = Some j' ∧ same_job j j' ∧ may_become (Status j) (Status j')
    ∧ (finished (Status j) = true → j' = j).
Proof using scan_rows.
  intros Hr%reachable_ok [Ht Ho] Hj. apply (queue_ok_later _ _ t') in Hr; [|done].
  destruct o as [j0|now|worker pg_now clock|node pg_now clock|idv status res now pg_now|idv owner status res now pg_now|idv now pg_now];
    cbn [run_op].
  - exists j. split; [by apply insert_lookup|apply evolves_refl].
  - by apply recoverTx_evolves.
  - destruct Ho as (_ & ? & _). by eapply claimJob_evolves.
  - destruct Ho as (_ & ? & _). destruct (AgentNextJob_state node pg_now clock st) as [-> |[nodeID ->]];
      [exists j; by split; [|apply evolves_refl]|by eapply claimJob_evolves].
  - by apply completeJob_evolves.
  - unfold CompleteAgentJob. cbv zeta. destruct (trim_space owner =s "");
      [exists j; by split; [|apply evolves_refl]|by apply completeJob_evolves].
  - unfold CancelJob. cbv zeta. change (snd (RecoverStaleJobLeases now st)) with (recoverStaleJobLeasesTx now st).
    destruct (jobs (recoverStaleJobLeasesTx now st) !! idv) as [row|] eqn:Hrow; [|by apply recoverTx_evolves].
    destruct (claimable (Status row)) eqn:Hcl; cbn [negb snd]; [|by apply recoverTx_evolves].
    cbn [delete_job_locks set_locks set_jobs jobs]. destruct (decide (idv = k)) as [->|Hne].
    + rewrite lookup_insert_eq. eexists. split; [done|]. rewrite recover_lookup, Hj in Hrow. injection Hrow as <-.
      eapply evolves_recovered_finished; [done| |done].
      unfold claimable, one_of in Hcl. cbn [existsb] in Hcl. rewrite orb_false_r, orb_true_iff, !String.eqb_eq in Hcl.
      by destruct Hcl as [-> | ->].
    + rewrite lookup_insert_ne by done. by apply recoverTx_evolves.
Qed.
(** ** Claiming in order *)

(** The first candidate is a matching row with none before it. *)
Lemma candidates_head where_ (st : queue W) k j :
  jobs st !! k = Some j → claimable (Status j) = true → where_ j = true →
  (∀ k j, jobs st !! k = Some j → ID j = k) →
  ∃ row js, candidates scan where_ st = scanJob row :: js ∧ jobs st !! ID row = Some row ∧ claimable (Status row) = true
    ∧ where_ row = true
    ∧ ∀ k j, jobs st !! k = Some j → claimable (Status j) = true → where_ j = true → claims_before j row = false.
Proof using scan_rows.
  intros Hj Hc Hw Hid. unfold candidates.
  set (rows := List.filter _ _).
  assert (∀ x, x ∈ rows ↔ jobs st !! ID x = Some x ∧ claimable (Status x) = true ∧ where_ x = true) as Hrows.
  { intros x. unfold rows. rewrite list_elem_of_In, List.filter_In, <-list_elem_of_In, andb_true_iff, scan_rows,
      list_elem_of_fmap. split.
    - intros [([k' x'] & -> & Hx%elem_of_map_to_list) ?]. simpl in *. by rewrite (Hid _ _ Hx).
    - intros [Hx ?]. split; [|done]. exists (ID x, x). split; [done|]. by apply elem_of_map_to_list. }
  pose proof (isort_ordered claims_before claims_before_trans claims_before_asym rows) as Hord.
  assert (j ∈ isort claims_before rows) as Hin.
  { rewrite elem_of_isort, Hrows. by rewrite (Hid _ _ Hj). }
  destruct (isort claims_before rows) as [|row l] eqn:E; [by apply not_elem_of_nil in Hin|].
  assert (row ∈ rows) as Hrow by (rewrite <-(elem_of_isort claims_before), E; by left).
  apply Hrows in Hrow as (? & ? & ?). exists row. eexists. split; [done|]. do 3 (split; [done|]).
  intros k' j' Hj' ? ?. assert (j' ∈ row :: l) as Hj'l.
  { rewrite <-E, elem_of_isort, Hrows. by rewrite (Hid _ _ Hj'). }
  apply elem_of_cons in Hj'l as [->|Hin']; [apply claims_before_irrefl|].
  apply StronglySorted_inv in Hord as [_ Hord]. rewrite Forall_forall in Hord. by apply Hord.
Qed.

(** The job a claim turns to first, among the rows once stale leases are recovered. *)
Definition first_claimable (where_ : Job → bool) (rows : gmap string Job) (row : Job) : Prop :=
  rows !! ID row = Some row ∧ claimable (Status row) = true ∧ where_ row = true
  ∧ ∀ k j, rows !! k = Some j → claimable (Status j) = true → where_ j = true →
      Priority row ≤ Priority j ∧ (Priority row = Priority j → not_younger row j).

(** C18: when some job can be claimed, stale ones included, a claim takes the first in
    the order of priority and age, which then runs under its owner until the lease ends;
    the claim comes back empty only when a running job holds the live resource lock of
    that first one, and then the queue is unchanged. *)
Theorem claim_takes_first (delta t : Z) (st : queue W) (owner : string) (where_ : Job → bool) (pg_now : Z)
    (clock : nat → Z) (k : string) (j : Job) :
  reachable delta t st → (∀ n, clock n ≤ t) → (∀ idv n w, is_Some (start_bootstrap idv n w)) →
  let rows := recover_job (clock 0%nat) <$> jobs st in
  rows !! k = Some j → claimable (Status j) = true → where_ j = true →
  ∃ row, first_claimable where_ rows row ∧
  match claimJob scan start_bootstrap owner where_ pg_now clock st with
  | (Claimed j', st') =>
      j' = claimed owner (clock 2%nat) (scanJob row) ∧ jobs st' = <[ID row := claimed owner (clock 2%nat) row]> rows
  | (_, st') =>
      st' = st ∧ ∃ key l holder, jobLockTarget row = Some key ∧ locks st !! key = Some l ∧ pg_now ≤ expires_at l
        ∧ jobs st !! lock_job l = Some holder ∧ Status holder = "running"
  end.
Proof using scan_rows.
  intros Hr%reachable_ok Hc Hboot rows Hj Hcl Hw.
  pose proof (recover_ok _ _ (clock 0%nat) _ (Hc 0%nat) Hr) as Hok1. unfold claimJob.
  set (st1 := recoverStaleJobLeasesTx (clock 0%nat) st) in *. change rows with (jobs st1) in Hj |- *.
  destruct (candidates_head where_ st1 k j Hj Hcl Hw (ok_id _ _ _ Hok1)) as (row & js & Ec & Hrow & Hrc & Hrw & Hmin).
  exists row. split.
  { split; [done|]. split; [done|]. split; [done|]. intros k' j' Hj' Hc' Hw'. by eapply claims_before_false, Hmin. }
  rewrite Ec. destruct (claim_loop _ _ _ _ _ _) as [a committed] eqn:E.
  apply claim_loop_head in E as [(key & l & Hk & Hl & Hx & -> & Ha)|[(_ & _ & _ & Hb)|(ls & w & -> & _ & ->)]].
  - assert (st = st ∧ ∃ key l holder, jobLockTarget row = Some key ∧ locks st !! key = Some l ∧ pg_now ≤ expires_at l
        ∧ jobs st !! lock_job l = Some holder ∧ Status holder = "running") as Hblocked.
    { split; [done|]. apply map_lookup_filter_Some in Hl as [Hl _].
      destruct (ok_holder _ _ _ Hr key l Hl) as (h & u & Hh & Hs & _). by exists key, l, h. }
    destruct a as [j'| |]; [by destruct (Ha j')|done|done].
  - exfalso. eapply is_Some_None. rewrite <-Hb. apply Hboot.
  - cbn [from_option id jobs]. change (ID (scanJob row)) with (ID row). by rewrite Hrow, Hrc.
Qed.

(** C36: the lock of the first candidate decides the whole claim: when another job holds
    it, no job is claimed, whatever the other candidates need, and the stale leases the
    claim recovered are rolled back. *)
Theorem claim_blocked_by_first (st : queue W) (owner : string) (where_ : Job → bool) (pg_now : Z)
    (clock : nat → Z) (row : Job) (js : list Job) (key : lock_key) (l : resource_lock) :
  let st1 := recoverStaleJobLeasesTx (clock 0%nat) st in
  candidates scan where_ st1 = row :: js → jobLockTarget row = Some key →
  locks st1 !! key = Some l → pg_now ≤ expires_at l →
  claimJob scan start_bootstrap owner where_ pg_now clock st
  = (if forallb (λ j, match jobLockTarget j with Some _ => true | None => false end) js then NoJob else ClaimError, st).
Proof.
  intros st1 Ec Hk Hl Hx. unfold claimJob. fold st1. rewrite Ec. cbn [claim_loop].
  destruct (acquireJobResourceLockTx _ _ _ _) as [ok tx'] eqn:E.
  pose proof (acquire_spec _ _ _ _ _ _ E eq_refl) as H. destruct ok.
  - destruct H as (_ & _ & _ & H). rewrite Hk in H. destruct H as [H _]. by destruct (Zlt_not_le _ _ (H l Hl)).
  - destruct H as [Ha _]. cbn [negb]. by rewrite claim_loop_aborted.
Qed.

(** ** Completing *)

End queue.

(** ** Sample histories *)

Module Sample.
Definition scan0 (m : gmap string Job) : list Job := (map_to_list m).*2.
Definition start0 (idv : string) (now : Z) (w : ()) : option () := Some w.
Definition marshal0 (m : gomap) : option string := None.
Definition effects0 (idv : string) (j : Job) (status : string) (m : gomap) (w : ()) : option string * list followup * () :=
  (None, [], w).
Definition sprint0 (v : any) : string := "".
Definition find0 (node : string) (w : ()) : option string := Some node.
Definition resolve0 (ref : string) (w : ()) : option (gomap * string) := None.
Definition hydrate0 (node : string) (j : Job) (w : ()) : option Job := None.
Local Notation step := (run_op sprint0 scan0 start0 find0 resolve0 hydrate0 marshal0 effects0).

Definition queued (idv type instance : string) (priority at_ : Z) : Job :=
  MkJob idv type "instance" "queued" (Some instance) (Some "n1") (Some instance) priority None None None None (Some at_) None None.

(** The readings of a call whose clock stands at [c], and at [c'] from the third one on. *)
Definition readings (c c' : Z) (n : nat) : Z := match n with 0%nat | 1%nat => c | _ => c' end.
Definition second : Z := 1000000.

Definition empty_queue : queue () := {| jobs := ∅; locks := ∅; rest := () |}.
(** Two jobs of the instance [i1], and one of [i2]. *)
Definition filled : queue () :=
  step (OpInsert (queued "c" "instance.apply" "i2" 30 3))
    (step (OpInsert (queued "b" "instance.apply" "i1" 20 2)) (step (OpInsert (queued "a" "instance.apply" "i1" 10 1)) empty_queue)).
(** The agent has claimed the first; its lease ends a second after its lock. *)
Definition running : queue () := step (OpClaimAgent "n1" 10 (readings 10 (10 + second))) filled.
(** Right after the lock has expired it claims the second, too. *)
Definition late : Z := 10 + longNodeJobLeaseDuration + 1.
Definition both_running : queue () := step (OpClaimAgent "n1" late (readings 5 5)) running.

Lemma readings_timed c c' e : c ≤ c' ≤ c + second → c' ≤ e →
  (∀ n, readings c c' n ≤ e) ∧ ∀ n, readings c c' n ≤ readings c c' (S n) ≤ readings c c' n + second.
Proof. intros H1 H2. unfold second in *. split; intros [|[|n]]; unfold readings; simpl; lia. Qed.

Lemma filled_reachable : reachable sprint0 scan0 start0 find0 resolve0 hydrate0 marshal0 effects0 second 3 filled.
Proof.
  apply (reach_step _ _ _ _ _ _ _ _ _ 2); [|by split]. apply (reach_step _ _ _ _ _ _ _ _ _ 1); [|by split].
  apply (reach_step _ _ _ _ _ _ _ _ _ 0); [|by split]. apply reach_start.
Qed.

Lemma running_reachable : reachable sprint0 scan0 start0 find0 resolve0 hydrate0 marshal0 effects0 second (10 + second) running.
Proof.
  apply (reach_step _ _ _ _ _ _ _ _ _ 3); [apply filled_reachable|]. unfold second. split; [lia|]. split; [lia|].
  by apply readings_timed.
Qed.

Lemma both_reachable : reachable sprint0 scan0 start0 find0 resolve0 hydrate0 marshal0 effects0 second late both_running.
Proof.
  apply (reach_step _ _ _ _ _ _ _ _ _ (10 + second)); [apply running_reachable|].
  split; [by apply Z.leb_le|]. split; [done|]. apply readings_timed; by vm_compute.
Qed.

Definition row (st : queue ()) (k : string) : Job := default (queued "" "" "" 0 0) (jobs st !! k).

Lemma job_mutual_exclusion_witness :
  ∃ u, (LockedUntil (row both_running "a") = Some u ∨ LockedUntil (row both_running "b") = Some u) ∧ u < late + second.
Proof.
  apply (job_mutual_exclusion sprint0 scan0 start0 find0 resolve0 hydrate0 marshal0 effects0 (λ m, Permutation_refl _) second late both_running "a" "b"
           _ _ ("instance", "i1", "apply"));
    [apply both_reachable|vm_compute; reflexivity|vm_compute; reflexivity|discriminate|vm_compute; reflexivity..].
Defined.

Lemma job_transitions_witness :
  ∃ j', jobs (step (OpCancel "a" 20 20) filled) !! "a" = Some j' ∧ same_job (row filled "a") j'
    ∧ may_become (Status (row filled "a")) (Status j') ∧ (finished (Status (row filled "a")) = true → j' = row filled "a").
Proof.
  apply (job_transitions sprint0 scan0 start0 find0 resolve0 hydrate0 marshal0 effects0 (λ m, Permutation_refl _) second 3 20);
    [apply filled_reachable|by split|vm_compute; reflexivity].
Defined.

Lemma claim_takes_first_witness :
  ∃ r, first_claimable (agent_where "n1") (recover_job 10 <$> jobs filled) r ∧
  match claimJob scan0 start0 "agent:n1" (agent_where "n1") 10 (readings 10 10) filled with
  | (Claimed j', st') =>
      j' = claimed "agent:n1" 10 (scanJob r)
      ∧ jobs st' = <[ID r := claimed "agent:n1" 10 r]> (recover_job 10 <$> jobs filled)
  | (_, st') =>
      st' = filled ∧ ∃ key l holder, jobLockTarget r = Some key ∧ locks filled !! key = Some l ∧ 10 ≤ expires_at l
        ∧ jobs filled !! lock_job l = Some holder ∧ Status holder = "running"
  end.
Proof.
  apply (claim_takes_first sprint0 scan0 start0 find0 resolve0 hydrate0 marshal0 effects0 (λ m, Permutation_refl _) second 10 filled "agent:n1"
           (agent_where "n1") 10 (readings 10 10) "b" (row filled "b"));
    [|intros n; by apply readings_timed|by eexists|vm_compute; reflexivity..].
  replace filled with (step (OpRecover 3) filled) by (vm_compute; reflexivity).
  apply (reach_step _ _ _ _ _ _ _ _ _ 3); [apply filled_reachable|by split].
Defined.

(** The job of [i2] is free, and stays queued behind the one whose instance is locked. *)
Lemma claim_blocked_by_first_witness :
  claimJob scan0 start0 "agent:n1" (agent_where "n1") 20 (readings 20 20) running = (NoJob, running).
Proof.
  apply (claim_blocked_by_first scan0 start0 running "agent:n1" (agent_where "n1") 20 (readings 20 20)
           (scanJob (row filled "b")) [scanJob (row filled "c")] ("instance", "i1", "apply")
           {| lock_job := "a"; expires_at := 10 + longNodeJobLeaseDuration |});
    vm_compute; try reflexivity; discriminate.
Defined.

(** A worker whose lease ran out completes the job another worker holds by then. *)
Lemma stale_worker_completes :
  let queued_once := step (OpInsert (queued "x" "secret.rotate" "i1" 10 1)) empty_queue in
  let st1 := step (OpClaimWorker "w1" 10 (readings 10 10)) queued_once in
  let st2 := step (OpClaimWorker "w2" (4 * minute) (readings (4 * minute) (4 * minute))) st1 in
  LockedBy (row st1 "x") = Some "w1" ∧ Status (row st2 "x") = "running" ∧ LockedBy (row st2 "x") = Some "w2"
  ∧ fst (CompleteJob marshal0 effects0 "x" "failed" None (4 * minute) (4 * minute) st2) = Ok ()
  ∧ Status (row (step (OpComplete "x" "failed" None (4 * minute) (4 * minute)) st2) "x") = "failed".
Proof. vm_compute. auto. Qed.

(** A second agent may apply an instance while another one deletes it: the kind
    of a lock is a part of its key. *)
Lemma lock_kinds_do_not_exclude :
  let st := step (OpInsert (queued "d" "instance.delete" "i1" 5 2)) running in
  let st' := step (OpClaimAgent "n1" 20 (readings 20 20)) st in
  Status (row st' "a") = "running" ∧ Status (row st' "d") = "running"
  ∧ InstanceID (row st' "a") = InstanceID (row st' "d") ∧ jobLockTarget (row st' "a") ≠ jobLockTarget (row st' "d").
Proof. vm_compute. by split_and!. Qed.
End Sample.
