(* ===== verification/AgentAuth.v ===== *)
(** * Signed agent requests

    [internal/agentauth/signature.go]: the canonical string of a request, its
    HMAC-SHA-256 signature and the verification with a time window.  Times
    are nanoseconds since the Unix epoch; [None] is Go's zero [time.Time]. *)
From S2P Require Import Prelude GoStrings Strconv Sha256.
From Stdlib Require Import Ascii.
From stdpp Require Import options.
Open Scope Z_scope.

Ltac Zify.zify_post_hook ::= Z.to_euclidean_division_equations.

Definition second : Z := 1000000000.

Definition signaturePrefix : string := "v1=".

Inductive sig_error :=
| ErrUnsigned
| ErrInvalidSignature
| ErrInvalidTimestamp
| ErrTimestampOutdated
| ErrInvalidNonce
| ErrInvalidBodyHash.

(** [newNonce]: [source] is what sixteen bytes of the reader gave, [None] its error. *)
Definition newNonce (source : option (list Z)) : option string := hex_encode <$> source.

Definition BodyHash (body : string) : string := sha256_hex body.

Definition LF : ascii := "010"%char.

Definition CanonicalString (method requestURI timestamp nonce bodyHash : string) : string :=
  to_upper (trim_space method) +:+ String LF
    (trim_space requestURI +:+ String LF
      (trim_space timestamp +:+ String LF
        (trim_space nonce +:+ String LF
          (trim_space bodyHash)))).

Definition SignBodyHash (token method requestURI timestamp nonce bodyHash : string) : string :=
  signaturePrefix +:+ hmac_sha256_hex token (CanonicalString method requestURI timestamp nonce bodyHash).

(** The signature and the body hash. *)
Definition Sign (token method requestURI timestamp nonce body : string) : string * string :=
  let bodyHash := BodyHash body in
  (SignBodyHash token method requestURI timestamp nonce bodyHash, bodyHash).

(** [time.Unix(sec, 0)]: seconds are kept since the year 1 in an int64, which
    wraps for seconds near its end. *)
Definition unix_to_internal : Z := 62135596800.
Definition time_Unix (sec : Z) : Z := (i64 (sec + unix_to_internal) - unix_to_internal) * second.

Definition default_window : Z := 300 * second.

(** [None] is the nil error; [clock] is [time.Now] for a zero [now]. *)
Definition VerifyBodyHash (token method requestURI timestamp nonce bodyHash signature actualBodyHash : string)
    (now : option Z) (window clock : Z) : option sig_error :=
  if (trim_space signature =s "") || (trim_space timestamp =s "")
     || (trim_space nonce =s "") || (trim_space bodyHash =s "")
  then Some ErrUnsigned
  else if trim_space token =s "" then Some ErrInvalidSignature
  else
    let len := String.length (trim_space nonce) in
    if (len <? 12)%nat || (128 <? len)%nat then Some ErrInvalidNonce
    else match atoi (trim_space timestamp) with
    | None => Some ErrInvalidTimestamp
    | Some ts =>
        if ts <=? 0 then Some ErrInvalidTimestamp
        else
          let window := if window <=? 0 then default_window else window in
          let issuedAt := time_Unix ts in
          let now := default clock now in
          if (issuedAt <? now - window) || (now + window <? issuedAt) then Some ErrTimestampOutdated
          else if negb (trim_space bodyHash =s actualBodyHash) then Some ErrInvalidBodyHash
          else if negb (trim_space signature =s SignBodyHash token method requestURI timestamp nonce bodyHash)
          then Some ErrInvalidSignature
          else None
    end.

Definition Verify (token method requestURI timestamp nonce bodyHash signature body : string)
    (now : option Z) (window clock : Z) : option sig_error :=
  VerifyBodyHash token method requestURI timestamp nonce bodyHash signature (BodyHash body) now window clock.

(** ** Lemmas *)

Lemma hex_no_space a : is_hex a = true → no_space a = true.
Proof.
  intros H. destruct (no_space a) eqn:E; [done|].
  assert (all_below 256 (λ z, implb (is_hex (byte_chr z)) (no_space (byte_chr z))) = true) as Hall
    by (vm_compute; reflexivity).
  pose proof (all_below_spec 256 _ (byte_val a) Hall (byte_val_range a)) as Hi. cbv beta in Hi.
  by rewrite byte_chr_val, H, E in Hi.
Qed.

Lemma trim_hex s : Forall (λ a, is_hex a = true) (bytes s) → trim_space s = s.
Proof.
  intros H. apply trim_space_no_space. eapply Forall_impl; [exact H|apply hex_no_space].
Qed.

Lemma digit_no_space a : is_digit a = true → no_space a = true.
Proof.
  intros H. apply hex_no_space. unfold is_hex. unfold is_digit in H. by rewrite H.
Qed.

Lemma trim_itoa_pos z : 0 < z → trim_space (itoa z) = itoa z.
Proof.
  intros Hz. apply trim_space_no_space. apply Forall_forall. intros c Hc.
  apply itoa_bytes in Hc as [Hd| ->]; [by apply digit_no_space|by vm_compute].
Qed.

Lemma trim_signature token m u t n h :
  trim_space (SignBodyHash token m u t n h) = SignBodyHash token m u t n h.
Proof.
  apply trim_space_no_space. unfold SignBodyHash, signaturePrefix.
  rewrite all_bytes_app. split; [by repeat constructor|].
  eapply Forall_impl; [apply hmac_hex_hex|apply hex_no_space].
Qed.

Lemma BodyHash_trimmed body : trim_space (BodyHash body) = BodyHash body ∧ BodyHash body ≠ "".
Proof.
  split; [apply trim_hex, sha256_hex_hex|]. intros E. pose proof (length_sha256_hex body) as H.
  unfold BodyHash in E. by rewrite E in H.
Qed.

Lemma time_Unix_exact sec : 0 ≤ sec → sec + unix_to_internal ≤ max_int64 → time_Unix sec = sec * second.
Proof.
  intros H1 H2. unfold time_Unix. rewrite i64_id; [lia|].
  unfold unix_to_internal, min_int64, max_int64 in *. lia.
Qed.

(** The five fields the canonical string joins. *)
Definition canonical_fields (method requestURI timestamp nonce bodyHash : string) : list string :=
  [to_upper (trim_space method); trim_space requestURI; trim_space timestamp; trim_space nonce;
   trim_space bodyHash].

Lemma CanonicalString_join m u t n h :
  CanonicalString m u t n h = join (String LF "") (canonical_fields m u t n h).
Proof. done. Qed.

(** A text of one line. *)
Definition one_line (s : string) : Prop := LF ∉ bytes s.

(** ** Theorems *)

(** Requests that differ in a field have different canonical strings, provided
    no field holds a newline: the signature covers method (up to case), URI,
    timestamp, nonce and body hash with no way to move bytes between them. *)
Theorem CanonicalString_injective m u t n h m' u' t' n' h' :
  Forall one_line (canonical_fields m u t n h) → Forall one_line (canonical_fields m' u' t' n' h') →
  CanonicalString m u t n h = CanonicalString m' u' t' n' h' →
  canonical_fields m u t n h = canonical_fields m' u' t' n' h'.
Proof.
  rewrite !CanonicalString_join. intros H H' E.
  by rewrite <-(split_join LF (canonical_fields m u t n h)), E, split_join.
Qed.

Lemma CanonicalString_injective_witness :
  canonical_fields " get" "/a" "7" "n" "h" = canonical_fields "GET" "/a " "7" "n" "h".
Proof.
  apply CanonicalString_injective; [| |vm_compute; reflexivity];
    (repeat constructor); apply (bool_decide_unpack _); vm_compute; exact I.
Defined.

(** A request signed with [Sign] verifies: with a token that is not blank, a
    positive timestamp written in decimal, a nonce of 12 to 128 bytes and the
    clock within the window of the timestamp. *)
Theorem Sign_Verify token method requestURI ts nonce body now window clock :
  let signed := Sign token method requestURI (itoa ts) nonce body in
  let w := if window <=? 0 then default_window else window in
  trim_space token ≠ "" →
  0 < ts → ts + unix_to_internal ≤ max_int64 →
  (12 ≤ String.length (trim_space nonce) ≤ 128)%nat →
  default clock now - w ≤ ts * second ≤ default clock now + w →
  Verify token method requestURI (itoa ts) nonce (snd signed) (fst signed) body now window clock = None.
Proof.
  intros signed w Htok Hts Hmax Hn Hw. unfold signed, Sign, Verify, VerifyBodyHash. cbn [fst snd].
  destruct (BodyHash_trimmed body) as [Hb Hbne].
  rewrite trim_signature, trim_itoa_pos, Hb by done.
  assert (SignBodyHash token method requestURI (itoa ts) nonce (BodyHash body) =s "" = false) as -> by done.
  destruct (String.eqb_spec (itoa ts) "") as [E|_]; [by apply itoa_nonempty in E|].
  destruct (String.eqb_spec (trim_space nonce) "") as [E|_]; [rewrite E in Hn; simpl in Hn; lia|].
  destruct (String.eqb_spec (BodyHash body) "") as [E|_]; [done|]. cbn [orb].
  destruct (String.eqb_spec (trim_space token) "") as [E|_]; [done|]. cbv zeta.
  replace (_ || _)%bool with false by (symmetry; apply orb_false_iff; split; apply Nat.ltb_ge; lia).
  rewrite atoi_itoa by (unfold in_int64, min_int64, max_int64, unix_to_internal in *; lia).
  replace (ts <=? 0) with false by lia. rewrite time_Unix_exact by lia. fold w.
  replace (_ || _)%bool with false by lia.
  by rewrite !String.eqb_refl.
Qed.

Lemma Sign_Verify_witness :
  Verify "token" "post" "/agent/jobs" (itoa 1700000000) "0123456789abcdef"
    (snd (Sign "token" "post" "/agent/jobs" (itoa 1700000000) "0123456789abcdef" "{}"))
    (fst (Sign "token" "post" "/agent/jobs" (itoa 1700000000) "0123456789abcdef" "{}"))
    "{}" (Some (1700000100 * second)) 0 0 = None.
Proof.
  apply (Sign_Verify "token" "post" "/agent/jobs" 1700000000 "0123456789abcdef" "{}"
    (Some (1700000100 * second)) 0 0).
  - vm_compute. discriminate.
  - lia.
  - vm_compute. discriminate.
  - vm_compute. lia.
  - vm_compute. split; discriminate.
Defined.

Lemma verified_facts token method requestURI timestamp nonce bodyHash signature body now window clock :
  let w := if window <=? 0 then default_window else window in
  0 ≤ default clock now → w < unix_to_internal * second →
  Verify token method requestURI timestamp nonce bodyHash signature body now window clock = None →
  trim_space token ≠ ""
  ∧ trim_space bodyHash = BodyHash body
  ∧ trim_space signature = SignBodyHash token method requestURI timestamp nonce bodyHash
  ∧ (12 ≤ String.length (trim_space nonce) ≤ 128)%nat
  ∧ ∃ ts, atoi (trim_space timestamp) = Some ts ∧ 0 < ts
      ∧ default clock now - w ≤ ts * second ≤ default clock now + w.
Proof.
  intros w Hnow Hwin. unfold Verify, VerifyBodyHash. fold w. set (c := default clock now) in *. clearbody w c.
  destruct (_ || _ || _ || _) eqn:Eu; [done|].
  destruct (String.eqb_spec (trim_space token) ""); [done|]. cbv zeta.
  destruct ((String.length (trim_space nonce) <? 12)%nat || _) eqn:En; [done|].
  apply orb_false_iff in En as [En1%Nat.ltb_ge En2%Nat.ltb_ge].
  destruct (atoi (trim_space timestamp)) as [ts|] eqn:Et; [|done].
  destruct (Z.leb_spec ts 0); [done|].
  destruct ((time_Unix ts <? c - w) || _) eqn:Ew; [done|].
  destruct (String.eqb_spec (trim_space bodyHash) (BodyHash body)) as [Eb|]; [|done]. cbn [negb].
  destruct (String.eqb_spec (trim_space signature)
    (SignBodyHash token method requestURI timestamp nonce bodyHash)) as [Es|]; [|done].
  intros _. split_and!; [done|done|exact Es|lia|lia|]. exists ts.
  apply atoi_range in Et.
  destruct (decide (ts + unix_to_internal ≤ max_int64)) as [Hfit|Hwrap].
  - rewrite time_Unix_exact in Ew by lia. split_and!; [done|lia|lia|lia].
  - exfalso. unfold time_Unix in Ew.
    assert (i64 (ts + unix_to_internal) = ts + unix_to_internal - two64) as E.
    { unfold i64. unfold two63, two64, max_int64, unix_to_internal in *.
      rewrite <-(Z.mod_unique (ts + 62135596800 + 9223372036854775808) 18446744073709551616
        1 (ts + 62135596800 + 9223372036854775808 - 18446744073709551616)); lia. }
    rewrite E in Ew. unfold two64, max_int64, unix_to_internal, second in *. lia.
Qed.

Lemma verified_window token method requestURI timestamp nonce bodyHash signature body now window clock :
  let w := if window <=? 0 then default_window else window in
  0 ≤ default clock now → w < unix_to_internal * second →
  Verify token method requestURI timestamp nonce bodyHash signature body now window clock = None →
  ∃ ts, atoi (trim_space timestamp) = Some ts ∧ 0 < ts
      ∧ default clock now - w ≤ ts * second ≤ default clock now + w.
Proof. intros w H1 H2 H3. by destruct (verified_facts _ _ _ _ _ _ _ _ _ _ _ H1 H2 H3) as (_ & _ & _ & _ & H). Qed.

(** What a verified request guarantees: the body hashes to the signed hash, the
    signature is the HMAC of the canonical string under a token that is not
    blank, the nonce has 12 to 128 bytes, and the decoded timestamp, which no
    wrap-around can fake, lies within the window of the clock. *)
Theorem Verify_sound token method requestURI timestamp nonce bodyHash signature body now window clock :
  let w := if window <=? 0 then default_window else window in
  0 ≤ default clock now → w < unix_to_internal * second →
  Verify token method requestURI timestamp nonce bodyHash signature body now window clock = None →
  trim_space token ≠ ""
  ∧ trim_space bodyHash = BodyHash body
  ∧ trim_space signature = signaturePrefix +:+ hmac_sha256_hex token
      (CanonicalString method requestURI timestamp nonce bodyHash)
  ∧ (12 ≤ String.length (trim_space nonce) ≤ 128)%nat
  ∧ ∃ ts, atoi (trim_space timestamp) = Some ts ∧ 0 < ts
      ∧ default clock now - w ≤ ts * second ≤ default clock now + w.
Proof. apply verified_facts. Qed.

Lemma Verify_sound_witness :
  let signed := Sign "token" "POST" "/x" "1700000000" "0123456789abcdef" "body" in
  Verify "token" "POST" "/x" "1700000000" "0123456789abcdef" (snd signed) (fst signed) "body"
    (Some (1700000000 * second)) 0 0 = None
  ∧ trim_space (snd signed) = BodyHash "body".
Proof.
  intros signed.
  assert (Verify "token" "POST" "/x" "1700000000" "0123456789abcdef" (snd signed) (fst signed) "body"
    (Some (1700000000 * second)) 0 0 = None) as E by (vm_compute; reflexivity).
  split; [exact E|].
  refine (proj1 (proj2 (Verify_sound _ _ _ _ _ _ _ _ _ _ _ _ _ E))).
  - vm_compute. discriminate.
  - vm_compute. reflexivity.
Defined.

(** A nonce the agent draws is long enough and not too long. *)
Lemma newNonce_length bs nonce :
  length bs = 16%nat → Forall (λ b, 0 ≤ b < 256) bs → newNonce (Some bs) = Some nonce →
  trim_space nonce = nonce ∧ String.length nonce = 32%nat.
Proof.
  intros Hl Hb [= <-]. split; [by apply trim_hex, hex_encode_hex|]. rewrite length_hex_encode. lia.
Qed.
