(* ===== verification/AgentReplay.v ===== *)
(** * Verification of agent requests and the replay cache

    [internal/api/http/agent_signature.go]: the cache of accepted nonces, the
    verification of a request against it and the description of a clock skew.
    The cache is a map from replay key to expiry time; a server's requests are
    the steps of [serve].  The mutex makes each [accept] atomic, so the steps
    are the acquisitions in order. *)
From S2P Require Import Prelude GoStrings Strconv Sha256 AgentAuth.
From Stdlib Require Import Ascii.
From stdpp Require Import options.
Open Scope Z_scope.

Ltac Zify.zify_post_hook ::= Z.to_euclidean_division_equations.

Definition defaultAgentSignatureWindow : Z := 300 * second.
Definition maxAgentSignatureReplayEntries : nat := Z.to_nat 65536.

(** ** The cache *)

Record agentSignatureReplayCache := { window : Z; entries : gmap string Z }.

Definition newAgentSignatureReplayCache (w : Z) : agentSignatureReplayCache :=
  {| window := if w <=? 0 then defaultAgentSignatureWindow else w; entries := ∅ |}.

(** [accept]; [now] is not the zero time (the caller passes [time.Now]). *)
Definition accept (c : agentSignatureReplayCache) (key : string) (now : Z) : bool * agentSignatureReplayCache :=
  let key := trim_space key in
  if key =s "" then (false, c)
  else
    let live := filter (λ e, now < snd e) (entries c) in
    match live !! key with
    | Some _ => (false, {| window := window c; entries := live |})
    | None =>
        if (maxAgentSignatureReplayEntries <=? size live)%nat
        then (false, {| window := window c; entries := live |})
        else (true, {| window := window c; entries := <[key := now + window c]> live |})
    end.

(** ** The request *)

(** The parts of an HTTP request the verification reads; [body] is [None] when
    reading it fails. *)
Record request := {
  Method : string; RequestURI : string;
  hdr_Timestamp : string; hdr_Nonce : string; hdr_BodyHash : string; hdr_Signature : string;
  body : option string }.

Inductive agent_error :=
| RequestNil
| BodyReadFailed
| SignatureError (e : sig_error)
(** the described form of [ErrTimestampOutdated]: behind or ahead, and by how much *)
| ClockSkew (behind : bool) (skew : Z)
| AgentSignatureReplay.

Record server := {
  agentSignatureEnforce : bool; agentSignatureWindow : Z;
  agentSignatureReplay : option agentSignatureReplayCache }.

Definition agentRequestHasSignature (r : request) : bool :=
  negb (trim_space (hdr_Signature r) =s "") || negb (trim_space (hdr_Timestamp r) =s "")
  || negb (trim_space (hdr_Nonce r) =s "") || negb (trim_space (hdr_BodyHash r) =s "").

(** [Duration.Round(time.Second)]: half away from zero, saturating. *)
Definition round_second (d : Z) : Z :=
  if 0 <=? d then
    let r := d mod second in
    if r + r <? second then d - r
    else if d + (second - r) <=? max_int64 then d + (second - r) else max_int64
  else
    let r := - (Z.rem d second) in
    if r + r <? second then d + r
    else if min_int64 <=? d - (second - r) then d - (second - r) else min_int64.

Definition formatClockSkew (skew : Z) : Z :=
  let skew := if skew <? 0 then i64 (- skew) else skew in
  round_second skew.

(** [now.Sub(t)] saturates to the range of a duration. *)
Definition duration_sat (d : Z) : Z := Z.max min_int64 (Z.min max_int64 d).

Definition describeAgentSignatureFailure (err : sig_error) (timestamp : string) (now : Z) : agent_error :=
  match err with
  | ErrTimestampOutdated =>
      match atoi (trim_space timestamp) with
      | Some issuedUnix =>
          if issuedUnix <=? 0 then SignatureError err
          else
            let skew := duration_sat (now - time_Unix issuedUnix) in
            ClockSkew (0 <? skew) (formatClockSkew skew)
      | None => SignatureError err
      end
  | _ => SignatureError err
  end.

Definition replay_key (scope : string) (r : request) : string :=
  trim_space scope +:+ ":" +:+ trim_space (hdr_Nonce r).

(** [verifyAgentSignatureError] at time [now]; [None] is the nil error. *)
Definition verifyAgentSignatureError (s : server) (req : option request) (scope token : string) (now : Z)
  : option agent_error * server :=
  match req with
  | None => (Some RequestNil, s)
  | Some r =>
      let signed := agentRequestHasSignature r in
      if negb signed && negb (agentSignatureEnforce s) then (None, s)
      else match body r with
      | None => (Some BodyReadFailed, s)
      | Some b =>
          let w := agentSignatureWindow s in
          let w := if w <=? 0 then defaultAgentSignatureWindow else w in
          match Verify token (Method r) (RequestURI r) (hdr_Timestamp r) (hdr_Nonce r)
                  (hdr_BodyHash r) (hdr_Signature r) b (Some now) w now with
          | Some err =>
              match err, agentSignatureEnforce s with
              | ErrUnsigned, false => (None, s)
              | _, _ => (Some (describeAgentSignatureFailure err (hdr_Timestamp r) now), s)
              end
          | None =>
              let replay := match agentSignatureReplay s with
                            | Some c => c
                            | None => newAgentSignatureReplayCache w
                            end in
              let '(ok, replay) := accept replay (replay_key scope r) now in
              let s := {| agentSignatureEnforce := agentSignatureEnforce s;
                          agentSignatureWindow := agentSignatureWindow s;
                          agentSignatureReplay := Some replay |} in
              (if ok then None else Some AgentSignatureReplay, s)
          end
      end
  end.

Definition verifyAgentSignature (s : server) (req : option request) (scope token : string) (now : Z)
  : bool * server :=
  let '(e, s) := verifyAgentSignatureError s req scope token now in
  (match e with None => true | Some _ => false end, s).

(** ** Runs of a server *)

(** One verification: its arguments, when it ran and whether it passed. *)
Record call := { call_req : option request; call_scope : string; call_token : string; call_now : Z }.

Inductive serve : server → list (call * option agent_error) → server → Prop :=
| serve_nil s : serve s [] s
| serve_cons s s1 s2 c e tr :
    verifyAgentSignatureError s (call_req c) (call_scope c) (call_token c) (call_now c) = (e, s1) →
    serve s1 tr s2 → serve s ((c, e) :: tr) s2.

(** The clock of the server does not run backwards along the run. *)
Definition clock_monotone (tr : list (call * option agent_error)) : Prop :=
  StronglySorted (λ a b, call_now (fst a) ≤ call_now (fst b)) tr.

(** ** Lemmas on the cache *)

Lemma accept_window c key now : window (snd (accept c key now)) = window c.
Proof. unfold accept. cbv zeta. repeat case_match; done. Qed.

Lemma accept_size c key now :
  (size (entries c) ≤ maxAgentSignatureReplayEntries)%nat →
  (size (entries (snd (accept c key now))) ≤ maxAgentSignatureReplayEntries)%nat.
Proof.
  intros Hs. unfold accept. cbv zeta. destruct (_ =s ""); [done|].
  set (live := filter _ (entries c)).
  assert (size live ≤ size (entries c))%nat as Hl.
  { unfold live. apply map_subseteq_size, map_filter_subseteq. }
  destruct (live !! trim_space key) eqn:E; cbn [snd entries]; [lia|].
  destruct (Nat.leb_spec maxAgentSignatureReplayEntries (size live)); cbn [snd entries]; [lia|].
  rewrite map_size_insert_None by done. lia.
Qed.

(** An accepted key expires one window later. *)
Lemma accept_true c key now :
  fst (accept c key now) = true →
  entries (snd (accept c key now)) !! trim_space key = Some (now + window c).
Proof.
  unfold accept. cbv zeta. destruct (_ =s ""); [done|].
  destruct (filter _ (entries c) !! trim_space key); [done|].
  destruct (_ <=? _)%nat; [done|]. intros _. apply lookup_insert_eq.
Qed.

(** An entry that has not expired survives, and keeps its key out. *)
Lemma accept_keep c key now k e :
  entries c !! k = Some e → now < e → entries (snd (accept c key now)) !! k = Some e
  ∧ (trim_space key = k → fst (accept c key now) = false).
Proof.
  intros Hk He. unfold accept. cbv zeta. destruct (_ =s ""); [done|].
  set (live := filter _ (entries c)).
  assert (live !! k = Some e) as Hl by by apply map_lookup_filter_Some.
  destruct (live !! trim_space key) eqn:E; cbn [fst snd entries]; [done|].
  assert (trim_space key ≠ k) as Hne by (intros Hkey; rewrite Hkey in E; congruence).
  destruct (_ <=? _)%nat; cbn [fst snd entries]; [done|].
  split; [by rewrite lookup_insert_ne|done].
Qed.

(** ** Lemmas on one verification *)

Definition effective_window (w : Z) : Z := if w <=? 0 then defaultAgentSignatureWindow else w.

Definition cache_of (s : server) : agentSignatureReplayCache :=
  match agentSignatureReplay s with
  | Some c => c
  | None => newAgentSignatureReplayCache (effective_window (agentSignatureWindow s))
  end.

(** The server was built with one window: the one its cache uses. *)
Definition consistent (s : server) : Prop := window (cache_of s) = effective_window (agentSignatureWindow s).

Lemma cache_of_None s :
  agentSignatureReplay s = None → entries (cache_of s) = ∅.
Proof. unfold cache_of. by intros ->. Qed.

Lemma verify_config s req scope token now e s' :
  verifyAgentSignatureError s req scope token now = (e, s') →
  agentSignatureEnforce s' = agentSignatureEnforce s ∧ agentSignatureWindow s' = agentSignatureWindow s
  ∧ (cache_of s' = cache_of s ∨ ∃ r, req = Some r ∧
       cache_of s' = snd (accept (cache_of s) (replay_key scope r) now)).
Proof.
  unfold verifyAgentSignatureError. intros H. destruct req as [r|]; [|simplify_eq; eauto].
  destruct (_ && _); [simplify_eq; eauto|]. destruct (body r) as [b|]; [|simplify_eq; eauto].
  destruct (Verify _ _ _ _ _ _ _ _ _ _ _) as [err|].
  - destruct err, (agentSignatureEnforce s) eqn:?; simplify_eq; eauto.
  - cbv zeta in H. fold (effective_window (agentSignatureWindow s)) in H. fold (cache_of s) in H.
    destruct (accept (cache_of s) (replay_key scope r) now) as [ok c] eqn:Ea. simplify_eq.
    split_and!; [done|done|]. right. exists r. split; [done|]. by rewrite Ea.
Qed.

(** Under enforcement a request passes only by verifying and by being accepted. *)
Lemma verify_enforced s r scope token now s' :
  agentSignatureEnforce s = true →
  verifyAgentSignatureError s (Some r) scope token now = (None, s') →
  ∃ b, body r = Some b
    ∧ Verify token (Method r) (RequestURI r) (hdr_Timestamp r) (hdr_Nonce r) (hdr_BodyHash r)
        (hdr_Signature r) b (Some now) (effective_window (agentSignatureWindow s)) now = None
    ∧ fst (accept (cache_of s) (replay_key scope r) now) = true
    ∧ cache_of s' = snd (accept (cache_of s) (replay_key scope r) now).
Proof.
  unfold verifyAgentSignatureError. intros He H. rewrite He, andb_false_r in H.
  destruct (body r) as [b|]; [|done]. exists b. split; [done|].
  fold (effective_window (agentSignatureWindow s)) in H.
  destruct (Verify _ _ _ _ _ _ _ _ _ _ _) as [err|]; [destruct err; done|].
  cbv zeta in H. fold (effective_window (agentSignatureWindow s)) in H. fold (cache_of s) in H.
  destruct (accept (cache_of s) (replay_key scope r) now) as [[] c] eqn:Ea; [|done].
  by injection H as <-.
Qed.

Lemma verify_consistent s req scope token now e s' :
  verifyAgentSignatureError s req scope token now = (e, s') → consistent s → consistent s'.
Proof.
  intros H Hc. destruct (verify_config _ _ _ _ _ _ _ H) as (_ & Hw & [E|(r & _ & E)]); unfold consistent in *;
    rewrite E, Hw; [done|]. by rewrite accept_window.
Qed.

(** ** Lemmas on runs *)

Lemma serve_app s tr1 tr2 s' :
  serve s (tr1 ++ tr2) s' → ∃ s1, serve s tr1 s1 ∧ serve s1 tr2 s'.
Proof.
  revert s. induction tr1 as [|[c e] tr1 IH]; intros s H; [exists s; split; [constructor|done]|].
  inversion H as [|? s1 ? ? ? ? Hv Hs]; subst. destruct (IH _ Hs) as (s2 & H1 & H2).
  exists s2. split; [by econstructor|done].
Qed.

(** What a run preserves. *)
Lemma serve_invariant s tr s' :
  serve s tr s' →
  agentSignatureEnforce s' = agentSignatureEnforce s ∧ agentSignatureWindow s' = agentSignatureWindow s
  ∧ (consistent s → consistent s')
  ∧ ((size (entries (cache_of s)) ≤ maxAgentSignatureReplayEntries)%nat →
     (size (entries (cache_of s')) ≤ maxAgentSignatureReplayEntries)%nat).
Proof.
  induction 1 as [s|s s1 s2 c e tr Hv Hs (IH1 & IH2 & IH3 & IH4)]; [done|].
  pose proof (verify_consistent _ _ _ _ _ _ _ Hv) as Hc.
  destruct (verify_config _ _ _ _ _ _ _ Hv) as (E1 & E2 & E3).
  split_and!; [congruence|congruence|auto|]. intros Hsize. apply IH4.
  destruct E3 as [->|(r & _ & ->)]; [done|by apply accept_size].
Qed.

(** An entry outlives the calls made before its expiry. *)
Lemma serve_keep s tr s' k e :
  serve s tr s' → entries (cache_of s) !! k = Some e →
  Forall (λ ce, call_now (fst ce) < e) tr → entries (cache_of s') !! k = Some e.
Proof.
  induction 1 as [s|s s1 s2 c er tr Hv Hs IH]; intros Hk Hf; [done|].
  inversion Hf as [|? ? Hnow Hrest]; subst. apply IH; [|done].
  destruct (verify_config _ _ _ _ _ _ _ Hv) as (_ & _ & [->|(r & _ & ->)]); [done|].
  by apply accept_keep.
Qed.

Lemma monotone_before tr1 x tr2 y tr3 :
  clock_monotone (tr1 ++ x :: tr2 ++ y :: tr3) →
  Forall (λ ce, call_now (fst ce) ≤ call_now (fst y)) tr2 ∧ call_now (fst x) ≤ call_now (fst y).
Proof.
  unfold clock_monotone. intros H. induction tr1 as [|z tr1 IH].
  - apply StronglySorted_inv in H as [H Hx]. split.
    + clear Hx. induction tr2 as [|z tr2 IH]; [constructor|].
      apply StronglySorted_inv in H as [H Hz]. constructor; [|by apply IH].
      rewrite Forall_forall in Hz. apply Hz. apply elem_of_app. right. apply list_elem_of_here.
    + rewrite Forall_forall in Hx. apply Hx. apply elem_of_app. right. apply list_elem_of_here.
  - apply StronglySorted_inv in H as [H _]. by apply IH.
Qed.

(** The key of a call, as the cache stores it. *)
Definition call_key (c : call) : option string :=
  (λ r, trim_space (replay_key (call_scope c) r)) <$> call_req c.

Lemma two_acceptances_apart s tr1 c1 tr2 c2 tr3 s' :
  serve s (tr1 ++ (c1, None) :: tr2 ++ (c2, None) :: tr3) s' →
  clock_monotone (tr1 ++ (c1, None) :: tr2 ++ (c2, None) :: tr3) →
  agentSignatureEnforce s = true → consistent s →
  call_key c1 = call_key c2 → is_Some (call_key c1) →
  call_now c1 + effective_window (agentSignatureWindow s) ≤ call_now c2.
Proof.
  intros Hs Hm He Hc Hk [k Hk1].
  pose proof (monotone_before _ _ _ _ _ Hm) as [Hmid _]. cbn [fst] in Hmid.
  apply serve_app in Hs as (sa & Ha & Hs). destruct (serve_invariant _ _ _ Ha) as (Ea & Wa & Ca & _).
  inversion Hs as [|? sb ? ? ? ? Hv1 Hs1]; subst. clear Hs.
  apply serve_app in Hs1 as (sc & Hb & Hs). inversion Hs as [|? sd ? ? ? ? Hv2 _]; subst.
  unfold call_key in *. rewrite Hk1 in Hk.
  destruct (call_req c1) as [r1|] eqn:Er1; [|done]. destruct (call_req c2) as [r2|] eqn:Er2; [|done].
  injection Hk1 as Hk1. injection Hk as Hk2.
  rewrite <-Ea in He.
  destruct (verify_enforced _ _ _ _ _ _ He Hv1) as (b1 & _ & _ & Hacc1 & Hcb).
  destruct (verify_config _ _ _ _ _ _ _ Hv1) as (Eb & _ & _).
  destruct (serve_invariant _ _ _ Hb) as (Ec & _ & _ & _).
  destruct (verify_enforced sc r2 _ _ _ _ ltac:(congruence) Hv2) as (b2 & _ & _ & Hacc2 & _).
  apply accept_true in Hacc1. rewrite <-Hcb, Hk1, (Ca Hc), Wa in Hacc1.
  destruct (decide (call_now c2 < call_now c1 + effective_window (agentSignatureWindow s))) as [Hlt|]; [|lia].
  exfalso.
  assert (entries (cache_of sc) !! k = Some (call_now c1 + effective_window (agentSignatureWindow s))) as Hk.
  { eapply serve_keep; [exact Hb|exact Hacc1|]. eapply Forall_impl; [exact Hmid|]. intros ce ?. simpl in *. lia. }
  destruct (accept_keep _ (replay_key (call_scope c2) r2) _ _ _ Hk Hlt) as [_ Hno].
  rewrite Hno in Hacc2 by congruence. done.
Qed.

(** ** Theorems *)

(** A node or job scope cannot use one nonce twice within a window: in any run
    of an enforcing server whose clock does not go back, two accepted calls with
    the same scope and nonce are at least a window apart. *)
Theorem nonce_accepted_once s tr1 c1 tr2 c2 tr3 s' :
  serve s (tr1 ++ (c1, None) :: tr2 ++ (c2, None) :: tr3) s' →
  clock_monotone (tr1 ++ (c1, None) :: tr2 ++ (c2, None) :: tr3) →
  agentSignatureEnforce s = true → consistent s →
  call_key c1 = call_key c2 → is_Some (call_key c1) →
  call_now c1 + effective_window (agentSignatureWindow s) ≤ call_now c2.
Proof. apply two_acceptances_apart. Qed.

(** Replaying one and the same signed request succeeds only if its timestamp is
    not before the moment it was first accepted: an agent whose clock is not
    ahead of the server's cannot be replayed. *)
Theorem replay_needs_future_timestamp s tr1 c1 tr2 c2 tr3 s' r ts :
  serve s (tr1 ++ (c1, None) :: tr2 ++ (c2, None) :: tr3) s' →
  clock_monotone (tr1 ++ (c1, None) :: tr2 ++ (c2, None) :: tr3) →
  agentSignatureEnforce s = true → consistent s →
  call_req c1 = Some r → call_req c2 = Some r → call_scope c1 = call_scope c2 →
  0 ≤ call_now c2 → effective_window (agentSignatureWindow s) < unix_to_internal * second →
  atoi (trim_space (hdr_Timestamp r)) = Some ts →
  call_now c1 ≤ ts * second.
Proof.
  intros Hs Hm He Hc Hr1 Hr2 Hsc Hpos Hwin Hts.
  assert (call_now c1 + effective_window (agentSignatureWindow s) ≤ call_now c2) as Hfar.
  { apply (two_acceptances_apart _ _ _ _ _ _ _ Hs Hm He Hc); unfold call_key; rewrite Hr1; [|done].
    by rewrite Hr2, Hsc. }
  apply serve_app in Hs as (sa & Ha & Hs). destruct (serve_invariant _ _ _ Ha) as (Ea & Wa & Ca & _).
  inversion Hs as [|? sb ? ? ? ? Hv1 Hs1]; subst. clear Hs.
  apply serve_app in Hs1 as (sc & Hb & Hs). inversion Hs as [|? sd ? ? ? ? Hv2 _]; subst.
  destruct (verify_config _ _ _ _ _ _ _ Hv1) as (Eb & Wb & _).
  destruct (serve_invariant _ _ _ Hb) as (Ec & Wc & _ & _). rewrite Hr2 in Hv2.
  destruct (verify_enforced sc r _ _ _ _ ltac:(congruence) Hv2) as (b2 & _ & Hver & _ & _).
  replace (agentSignatureWindow sc) with (agentSignatureWindow s) in Hver by congruence.
  assert (0 < effective_window (agentSignatureWindow s)) as Hwpos.
  { unfold effective_window, defaultAgentSignatureWindow, second. destruct (Z.leb_spec (agentSignatureWindow s) 0); lia. }
  apply verified_window in Hver as (ts' & Ets & _ & Hw); [|done|by replace (effective_window _ <=? 0) with false by lia].
  replace (effective_window (agentSignatureWindow s) <=? 0) with false in Hw by lia.
  cbn [default] in Hw. rewrite Hts in Ets. injection Ets as <-. unfold id in Hw. lia.
Qed.

(** However many requests a server started with an empty cache verifies, the
    cache never holds more than 65536 entries. *)
Theorem replay_cache_bounded s tr s' :
  entries (cache_of s) = ∅ → serve s tr s' →
  (size (entries (cache_of s')) ≤ maxAgentSignatureReplayEntries)%nat.
Proof.
  intros Hn Hs. apply (serve_invariant _ _ _ Hs). rewrite Hn, map_size_empty. lia.
Qed.

(** ** Concrete runs *)

(** A signed POST with an empty body, at a timestamp and with a nonce. *)
Definition sample_request (ts : Z) (nonce : string) : request :=
  let signed := Sign "token" "POST" "/agent/jobs" (itoa ts) nonce "" in
  {| Method := "POST"; RequestURI := "/agent/jobs"; hdr_Timestamp := itoa ts; hdr_Nonce := nonce;
     hdr_BodyHash := snd signed; hdr_Signature := fst signed; body := Some "" |}.

Definition sample_call (ts : Z) (nonce : string) (now : Z) : call :=
  {| call_req := Some (sample_request ts nonce); call_scope := "node:n1"; call_token := "token";
     call_now := now * second |}.

Definition fresh_server : server :=
  {| agentSignatureEnforce := true; agentSignatureWindow := 0;
     agentSignatureReplay := Some (newAgentSignatureReplayCache 0) |}.

(** A captured request whose timestamp is ahead of the server's clock is
    accepted a second time while its signature is still valid: the replay entry
    expires one window after the acceptance, the signature one window after the
    timestamp. *)
Lemma future_request_replayed :
  let c1 := sample_call 1700000200 "0123456789abcdef" 1700000000 in
  let c2 := sample_call 1700000200 "0123456789abcdef" 1700000300 in
  call_req c1 = call_req c2 ∧ call_scope c1 = call_scope c2 ∧ call_now c1 < call_now c2
  ∧ ∃ s', serve fresh_server [(c1, None); (c2, None)] s'.
Proof.
  intros c1 c2. split_and!; [done|done|by vm_compute|]. eexists.
  eapply serve_cons; [vm_compute; reflexivity|]. eapply serve_cons; [vm_compute; reflexivity|]. constructor.
Qed.

Lemma sample_run s' :
  let c1 := sample_call 1700000200 "0123456789abcdef" 1700000000 in
  let c2 := sample_call 1700000200 "0123456789abcdef" 1700000300 in
  verifyAgentSignatureError (snd (verifyAgentSignatureError fresh_server (call_req c1) "node:n1" "token" (call_now c1)))
    (call_req c2) "node:n1" "token" (call_now c2) = (None, s') →
  serve fresh_server ([] ++ (c1, None) :: [] ++ (c2, None) :: []) s'.
Proof.
  intros c1 c2 H. cbn [app]. eapply serve_cons; [|eapply serve_cons; [exact H|constructor]].
  etransitivity; [apply surjective_pairing|]. apply (f_equal2 pair); [vm_compute; reflexivity|reflexivity].
Qed.

Lemma nonce_accepted_once_witness :
  effective_window 0 ≤ (1700000300 - 1700000000) * second.
Proof.
  assert (∃ s', verifyAgentSignatureError (snd (verifyAgentSignatureError fresh_server
      (call_req (sample_call 1700000200 "0123456789abcdef" 1700000000)) "node:n1" "token" (1700000000 * second)))
      (call_req (sample_call 1700000200 "0123456789abcdef" 1700000300)) "node:n1" "token" (1700000300 * second)
      = (None, s')) as [s' H].
  { eexists. vm_compute. reflexivity. }
  pose proof (nonce_accepted_once fresh_server [] (sample_call 1700000200 "0123456789abcdef" 1700000000) []
    (sample_call 1700000200 "0123456789abcdef" 1700000300) [] s' (sample_run s' H)) as Hw.
  cbn [call_now sample_call agentSignatureWindow fresh_server] in Hw. 
  assert (1700000000 * second + effective_window 0 ≤ 1700000300 * second) as Hle.
  { apply Hw.
    - repeat constructor. cbn. unfold second. lia.
    - reflexivity.
    - reflexivity.
    - reflexivity.
    - eexists. reflexivity. }
  unfold second in *. lia.
Defined.

Lemma replay_needs_future_timestamp_witness :
  1700000000 * second ≤ 1700000200 * second.
Proof.
  assert (∃ s', verifyAgentSignatureError (snd (verifyAgentSignatureError fresh_server
      (call_req (sample_call 1700000200 "0123456789abcdef" 1700000000)) "node:n1" "token" (1700000000 * second)))
      (call_req (sample_call 1700000200 "0123456789abcdef" 1700000300)) "node:n1" "token" (1700000300 * second)
      = (None, s')) as [s' H].
  { eexists. vm_compute. reflexivity. }
  refine (replay_needs_future_timestamp fresh_server [] (sample_call 1700000200 "0123456789abcdef" 1700000000) []
    (sample_call 1700000200 "0123456789abcdef" 1700000300) [] s'
    (sample_request 1700000200 "0123456789abcdef") 1700000200 (sample_run s' H) _ _ _ _ _ _ _ _ _).
  - repeat constructor. cbn. unfold second. lia.
  - reflexivity.
  - reflexivity.
  - reflexivity.
  - reflexivity.
  - reflexivity.
  - vm_compute. discriminate.
  - vm_compute. reflexivity.
  - vm_compute. reflexivity.
Defined.

Lemma replay_cache_bounded_witness :
  (size (entries (cache_of fresh_server)) ≤ maxAgentSignatureReplayEntries)%nat.
Proof. refine (replay_cache_bounded fresh_server [] fresh_server _ _); [reflexivity|constructor]. Defined.

(** C4: Under enforcement a request passes only if it authenticates: its body was
    read, the body hash and the signature match under the token, its timestamp
    lies within the window of the server's clock, and its nonce was not in use. *)
Theorem enforced_request_authentic s r scope token now s' :
  agentSignatureEnforce s = true → 0 ≤ now →
  effective_window (agentSignatureWindow s) < unix_to_internal * second →
  verifyAgentSignatureError s (Some r) scope token now = (None, s') →
  ∃ b ts, body r = Some b ∧ trim_space token ≠ ""
    ∧ trim_space (hdr_BodyHash r) = BodyHash b
    ∧ trim_space (hdr_Signature r)
      = SignBodyHash token (Method r) (RequestURI r) (hdr_Timestamp r) (hdr_Nonce r) (hdr_BodyHash r)
    ∧ atoi (trim_space (hdr_Timestamp r)) = Some ts
    ∧ Z.abs (now - ts * second) ≤ effective_window (agentSignatureWindow s)
    ∧ (∀ e, entries (cache_of s) !! trim_space (replay_key scope r) = Some e → e ≤ now).
Proof.
  intros He Hnow Hwin Hv. destruct (verify_enforced _ _ _ _ _ _ He Hv) as (b & Hb & Hver & Hacc & _).
  assert (0 < effective_window (agentSignatureWindow s)) as Hwpos.
  { unfold effective_window, defaultAgentSignatureWindow, second. destruct (Z.leb_spec (agentSignatureWindow s) 0); lia. }
  apply verified_facts in Hver as (H1 & H2 & H3 & _ & ts & H4 & _ & H5);
    [|done|by replace (effective_window _ <=? 0) with false by lia].
  replace (effective_window (agentSignatureWindow s) <=? 0) with false in H5 by lia.
  exists b, ts. cbn [default] in H5. unfold id in H5. split_and!; try done; [lia|].
  intros e Hent. destruct (decide (now < e)) as [Hlt|]; [|lia].
  destruct (accept_keep _ (replay_key scope r) _ _ _ Hent Hlt) as [_ Hno]. rewrite Hno in Hacc by done. done.
Qed.

Lemma enforced_request_authentic_witness :
  ∃ b ts, body (sample_request 1700000200 "0123456789abcdef") = Some b ∧ trim_space "token" ≠ ""
    ∧ ts = 1700000200.
Proof.
  assert (∃ s', verifyAgentSignatureError fresh_server (Some (sample_request 1700000200 "0123456789abcdef"))
    "node:n1" "token" (1700000000 * second) = (None, s')) as [s' H] by (eexists; vm_compute; reflexivity).
  pose proof (enforced_request_authentic fresh_server (sample_request 1700000200 "0123456789abcdef")
    "node:n1" "token" (1700000000 * second) s' eq_refl) as Hw.
  destruct Hw as (b & ts & H1 & H2 & _ & _ & H3 & _); [unfold second; lia|vm_compute; reflexivity|exact H|].
  exists b, ts. split; [exact H1|]. split; [exact H2|].
  assert (atoi (trim_space (hdr_Timestamp (sample_request 1700000200 "0123456789abcdef"))) = Some 1700000200) as H4
    by (vm_compute; reflexivity).
  rewrite H4 in H3. injection H3 as H3. symmetry. exact H3.
Defined.
