(* ===== verification/Firewall.v ===== *)
(** * The node firewall: from a job payload to an nftables script

    [cmd/agent/firewall.go]: parsing the policies, address lists and rules of
    a firewall job, rendering them into one nft script with the safety rules
    of a strict default policy, and the job handler.  The commands and the
    script run on a host that is a parameter: a state with the functions
    [runInstallCommand] and [exec_script] on it.  [net/url.Parse] and the
    [fmt.Sprint] of a value other than a string, bool, integer or whole
    float64 are parameters too; the theorems hold for every such function. *)
From S2P Require Import Prelude GoStrings Strconv GoValue Sha256 Netip.
From Stdlib Require Import Ascii.
From stdpp Require Import options.
Open Scope Z_scope.

(** ** Constants *)

Definition firewallNFTFamily : string := "inet".
Definition firewallNFTTable : string := "megavpn_firewall".
Definition firewallLegacyNFTTable : string := "megavpn".
Definition firewallInputChain : string := "firewall_input".
Definition firewallForwardChain : string := "firewall_forward".
Definition firewallOutputChain : string := "firewall_output".
Definition firewallNFTCommentScope : string := "megavpn:firewall:".

(** ** Data *)

Record nodeFirewallRule := {
  rule_ID : string; rule_Priority : Z; rule_Chain : string; rule_Action : string; rule_Protocol : string;
  SrcListID : string; SrcListKey : string; DstListID : string; DstListKey : string;
  SrcCIDR : string; DstCIDR : string; SrcPorts : string; DstPorts : string;
  StateMatch : list string; rule_Comment : string; rule_Enabled : bool; rule_Status : string }.

Record nodeFirewallAddressList := {
  list_ID : string; list_Key : string; NameV4 : string; NameV6 : string;
  list_V4 : list string; list_V6 : list string; IgnoredDNS : Z }.

Record nodeFirewallAddressLists := {
  ByRef : gmap string nodeFirewallAddressList;
  Ordered : list nodeFirewallAddressList }.

Record nodeFirewallListElement := { elt_Family : string; elt_Value : string }.

Record nodeFirewallPlan := {
  Script : string; Count : Z; SystemRuleCount : Z; Hash : string; Warnings : list string;
  AddressListCounts : list gomap;
  AddressGroupRenderedEntryCount : Z; AddressGroupIgnoredDNSEntries : Z;
  DefaultPolicyEnforcement : string;
  SSHBootstrapPreserved : bool; ControlPlaneEgressPreserved : bool; ForwardEgressPreserved : bool }.

Record nodeFirewallDefaultPolicies := { Input : string; Forward : string; Output : string; Enforce : bool }.

Record nodeFirewallSafetyRules := {
  safety_Lines : list string; safety_Count : Z; safety_Warnings : list string;
  safety_SSH : bool; safety_ControlPlane : bool; safety_Forward : bool }.

(** Errors: a constructor per format string, the wrapped error as an argument. *)
Inductive fw_error :=
| MustBeAcceptDropReject
| InField (field : string) (e : fw_error)
| AddressListsMustBeArray
| AddressListMustBeObject (n : Z)
| EntryMustBeObject (list : string) (n : Z)
| InEntry (list : string) (n : Z) (e : fw_error)
| RulesMustBeArray
| RuleMustBeObject (n : Z)
| InRule (id : string) (e : fw_error)
| BadChain | BadAction | BadProtocol
| PortsRequireTCPOrUDP
| InvalidCIDR | InvalidEntryCIDR | InvalidAddress | ValueRequired
| RangeFormat | RangeStart | RangeEnd | RangeFamilies | RangeReversed
| BadValueType
| PortOutOfRange (value : string)
| PortRangeReversed (part : string)
| ListNotPresent (label ref : string)
| ListEmpty (label ref : string)
| FamiliesDoNotOverlap
| UnsupportedChain (chain : string)
| StrictOutputNeedsURL
| StrictOutputInvalidURL
| StrictOutputPort (e : fw_error)
| StrictOutputNeedsAllow (port host : string).

Notation R := (result fw_error).

(** ** Helpers of the agent *)

(** [first(values...)]: the first value that is not blank, trimmed. *)
Fixpoint first (values : list string) : string :=
  match values with
  | [] => ""
  | v :: values => if trim_space v =s "" then first values else trim_space v
  end.

Definition inLocal (value : string) (allowed : list string) : bool := one_of value allowed.

Definition boolFromAny (value : option any) : bool :=
  match value with
  | Some (ABool x) => x
  | Some (AString x) => one_of (to_lower (trim_space x)) ["true"; "1"; "yes"]
  | _ => false
  end.

(** [intFromAny] of one value. *)
Definition intFromAny (value : option any) : Z :=
  match value with
  | Some (AInt x) => x
  | Some (AInt64 x) => x
  | Some (AFloat64 x) => if float_is x 0 then 0 else int_of_float x
  | Some (AString x) => default 0 (atoi (trim_space x))
  | _ => 0
  end.

Definition LF : ascii := "010"%char.

Definition firstLine (s : string) : string :=
  let s := trim_space s in
  match cut_char LF s with
  | Some (l, _) => l
  | None => s
  end.

Definition truncate (s : string) (max : nat) : string :=
  if (String.length s <=? max)%nat then s else take_bytes max s +:+ "...<truncated>".

Definition slug_rune (r : Z) : bool := ((97 <=? r) && (r <=? 122)) || ((48 <=? r) && (r <=? 57)).

Definition slugifyLocal (s : string) : string :=
  let s := to_lower (trim_space s) in
  let out := trim_set "-" (dash_runs slug_rune false (runes s)) in
  if out =s "" then "instance" else out.

(** Text of a line from its words. *)
Definition words (l : list string) : string := join " " l.

Definition dquote : ascii := "034"%char.
Definition bslash : ascii := "092"%char.

Definition nftQuote (value : string) : string :=
  let value := replace_char bslash (String bslash (String bslash "")) value in
  let value := replace_char dquote (String bslash (String dquote "")) value in
  String dquote value +:+ String dquote "".

Definition clean_values (values : list string) : list string :=
  List.filter (λ v, negb (v =s "")) (trim_space <$> values).

Definition nftElementSet (values : list string) : string :=
  "{ " +:+ join ", " (clean_values values) +:+ " }".

Definition nftSet (values : list string) : string :=
  match clean_values values with
  | [v] => v
  | clean => "{ " +:+ join ", " clean +:+ " }"
  end.

Definition nftPorts (value : string) : string :=
  match split_char "," value with
  | [p] => trim_space p
  | parts => nftSet (clean_values parts)
  end.

Definition nftFamilyForAddr (addr : addr) : string := if Is6 addr then "ip6" else "ip".

Definition nftIPFamily (cidr : string) : string :=
  match ParsePrefix cidr with
  | Some prefix => if Is6 (prefix_addr prefix) then "ip6" else "ip"
  | None => "ip"
  end.

(** ** Normalisation of the fields of a rule or an entry *)

Definition parseNodeFirewallPort (value : string) : R Z :=
  match atoi (trim_space value) with
  | Some port => if (port <? 1) || (65535 <? port) then Err (PortOutOfRange value) else Ok port
  | None => Err (PortOutOfRange value)
  end.

(** The body of the loop over the comma-separated parts: nothing for a blank part. *)
Definition normalize_port_part (part : string) : R (option string) :=
  let part := trim_space part in
  if part =s "" then Ok None
  else match cut_char "-" part with
  | Some (lo, hi) =>
      from ← parseNodeFirewallPort lo;
      to ← parseNodeFirewallPort hi;
      if to <? from then Err (PortRangeReversed part)
      else Ok (Some (itoa from +:+ "-" +:+ itoa to))
  | None => port ← parseNodeFirewallPort part; Ok (Some (itoa port))
  end.

Fixpoint normalize_port_parts (parts : list string) : R (list string) :=
  match parts with
  | [] => Ok []
  | part :: parts =>
      p ← normalize_port_part part;
      out ← normalize_port_parts parts;
      Ok (match p with Some p => p :: out | None => out end)
  end.

Definition normalizeNodeFirewallPorts (value : string) : R string :=
  let value := trim_space (to_lower value) in
  if (value =s "") || (value =s "any") || (value =s "*") then Ok ""
  else out ← normalize_port_parts (split_char "," value); Ok (join "," out).

Definition normalizeNodeFirewallCIDR (value : string) : R string :=
  let value := trim_space value in
  if (value =s "") || (value =s "any") || (value =s "*") then Ok ""
  else match ParsePrefix value with
  | Some prefix => Ok (prefix_string (Masked prefix))
  | None =>
      match ParseAddr value with
      | Some addr => Ok (addr_string addr +:+ (if Is4 addr then "/32" else "/128"))
      | None => Err InvalidCIDR
      end
  end.

Definition entry_value_type (value valueType : string) : string :=
  if valueType =s "" then
    if contains_char "/" value then "cidr"
    else match ParseAddr value with
    | Some _ => "address"
    | None => if contains_char "-" value then "range" else "dns"
    end
  else valueType.

Definition ignored_dns_warning : string :=
  "DNS entries are stored but not rendered into nftables rules in this release".

(** The element, or [None] for an entry that is not rendered, and the warning. *)
Definition normalizeNodeFirewallAddressListEntry (value valueType : string)
  : R (option nodeFirewallListElement * string) :=
  let value := trim_space value in
  let valueType := to_lower (trim_space valueType) in
  if value =s "" then Err ValueRequired
  else
    let valueType := entry_value_type value valueType in
    if valueType =s "cidr" then
      match ParsePrefix value with
      | None => Err InvalidEntryCIDR
      | Some prefix =>
          let prefix := Masked prefix in
          Ok (Some {| elt_Family := nftFamilyForAddr (prefix_addr prefix); elt_Value := prefix_string prefix |}, "")
      end
    else if valueType =s "address" then
      match ParseAddr value with
      | None => Err InvalidAddress
      | Some addr => Ok (Some {| elt_Family := nftFamilyForAddr addr; elt_Value := addr_string addr |}, "")
      end
    else if valueType =s "range" then
      match cut_char "-" value with
      | None => Err RangeFormat
      | Some (lo, hi) =>
          match ParseAddr (trim_space lo) with
          | None => Err RangeStart
          | Some start =>
              match ParseAddr (trim_space hi) with
              | None => Err RangeEnd
              | Some end_ =>
                  if negb (nftFamilyForAddr start =s nftFamilyForAddr end_) then Err RangeFamilies
                  else match addr_compare start end_ with
                  | Gt => Err RangeReversed
                  | _ => Ok (Some {| elt_Family := nftFamilyForAddr start;
                                     elt_Value := addr_string start +:+ "-" +:+ addr_string end_ |}, "")
                  end
              end
          end
      end
    else if valueType =s "dns" then Ok (None, ignored_dns_warning)
    else Err BadValueType.

Definition normalizeNodeFirewallDefaultPolicy (value : string) : R string :=
  let value := to_lower (trim_space value) in
  if value =s "" then Ok "accept"
  else if negb (inLocal value ["accept"; "drop"; "reject"]) then Err MustBeAcceptDropReject
  else Ok value.

Definition nodeFirewallSetName (ref : string) : string :=
  let name := replace_char "-" "_" (slugifyLocal ref) in
  let name := if (name =s "") || (name =s "instance") then "list" else name in
  "fwlist_" +:+ name.

Definition containsNodeFirewallState (values : list string) (target : string) : bool :=
  existsb (λ value, value =s target) values.

(** The loop over the parts of [nodeFirewallPortsContain]; an unreadable part ends it. *)
Fixpoint ports_contain_parts (parts : list string) (targetPort : Z) : bool :=
  match parts with
  | [] => false
  | part :: parts =>
      let part := trim_space part in
      if part =s "" then ports_contain_parts parts targetPort
      else match cut_char "-" part with
      | Some (lo, hi) =>
          match parseNodeFirewallPort lo, parseNodeFirewallPort hi with
          | Ok from, Ok to =>
              if (from <=? targetPort) && (targetPort <=? to) then true
              else ports_contain_parts parts targetPort
          | _, _ => false
          end
      | None =>
          match parseNodeFirewallPort part with
          | Ok port => if port =? targetPort then true else ports_contain_parts parts targetPort
          | Err _ => false
          end
      end
  end.

Definition nodeFirewallPortsContain (ports target : string) : bool :=
  if trim_space ports =s "" then true
  else match parseNodeFirewallPort target with
  | Err _ => false
  | Ok targetPort => ports_contain_parts (split_char "," ports) targetPort
  end.

(** [families] as the set of "ip" and "ip6". *)
Definition families (alist : nodeFirewallAddressList) : gset string :=
  (match list_V4 alist with [] => ∅ | _ => {["ip"]} end)
  ∪ (match list_V6 alist with [] => ∅ | _ => {["ip6"]} end).

Definition setNameForFamily (alist : nodeFirewallAddressList) (family : string) : string :=
  if family =s "ip" then NameV4 alist
  else if family =s "ip6" then NameV6 alist
  else "".

Definition intersectNodeFirewallFamilies (l r : gset string) : gset string := l ∩ r.

Definition nodeFirewallListHasAnyCIDR (alist : nodeFirewallAddressList) : bool :=
  existsb (λ value,
    match ParsePrefix (trim_space value) with
    | Some prefix => prefix_bits prefix =? 0
    | None => false
    end) (list_V4 alist ++ list_V6 alist).

(** ** Default policies *)

Definition nftBasePolicy (policy : string) (enforce : bool) : string :=
  if negb enforce then "accept" else if policy =s "accept" then "accept" else "drop".

Definition renderNodeFirewallChainAddLine (chain hook policy : string) : string :=
  words ["add chain"; firewallNFTFamily; firewallNFTTable; chain; "{ type filter hook"; hook;
         "priority filter; policy"; policy +:+ "; }"].

Definition renderNodeFirewallChainResetLines (defaults : nodeFirewallDefaultPolicies) : list string :=
  [words ["delete table"; firewallNFTFamily; firewallNFTTable];
   words ["add table"; firewallNFTFamily; firewallNFTTable];
   renderNodeFirewallChainAddLine firewallInputChain "input" (nftBasePolicy (Input defaults) (Enforce defaults));
   renderNodeFirewallChainAddLine firewallForwardChain "forward" (nftBasePolicy (Forward defaults) (Enforce defaults));
   renderNodeFirewallChainAddLine firewallOutputChain "output" (nftBasePolicy (Output defaults) (Enforce defaults))].

Definition rule_line (chain : string) (rest : list string) : string :=
  words (["add rule"; firewallNFTFamily; firewallNFTTable; chain] ++ rest).

Definition renderNodeFirewallDefaultRejectRules (defaults : nodeFirewallDefaultPolicies) : list string :=
  if negb (Enforce defaults) then []
  else
    (if Input defaults =s "reject" then
       [rule_line firewallInputChain ["reject comment"; nftQuote (firewallNFTCommentScope +:+ "default-reject-input")]]
     else [])
    ++ (if Forward defaults =s "reject" then
       [rule_line firewallForwardChain ["reject comment"; nftQuote (firewallNFTCommentScope +:+ "default-reject-forward")]]
     else [])
    ++ (if Output defaults =s "reject" then
       [rule_line firewallOutputChain ["reject comment"; nftQuote (firewallNFTCommentScope +:+ "default-reject-output")]]
     else []).

(** ** Rules *)

Definition nodeFirewallRuleComment (rule : nodeFirewallRule) : string :=
  let key := slugifyLocal (first [rule_ID rule; rule_Comment rule; itoa (rule_Priority rule)]) in
  let key := if key =s "" then itoa (rule_Priority rule) else key in
  firewallNFTCommentScope +:+ key.

Definition resolveNodeFirewallList (addressLists : nodeFirewallAddressLists) (listID listKey label : string)
  : R (option nodeFirewallAddressList) :=
  let listID := trim_space listID in
  let listKey := trim_space listKey in
  if (listID =s "") && (listKey =s "") then Ok None
  else
    match (if listID =s "" then None else ByRef addressLists !! listID) with
    | Some alist => Ok (Some alist)
    | None =>
        match (if listKey =s "" then None else ByRef addressLists !! listKey) with
        | Some alist => Ok (Some alist)
        | None => Err (ListNotPresent label (first [listKey; listID]))
        end
    end.

(** One side of a rule: its list, else its CIDR, narrows the families. *)
Definition side_families (label : string) (alist : option nodeFirewallAddressList) (cidr : string)
    (allowed : gset string) : R (gset string) :=
  match alist with
  | Some alist =>
      if decide (families alist = ∅) then Err (ListEmpty label (first [list_Key alist; list_ID alist]))
      else Ok (intersectNodeFirewallFamilies allowed (families alist))
  | None =>
      Ok (if cidr =s "" then allowed else intersectNodeFirewallFamilies allowed {[nftIPFamily cidr]})
  end.

Definition is_none {A} (o : option A) : bool := match o with None => true | Some _ => false end.

Definition nodeFirewallRuleFamilies (rule : nodeFirewallRule) (srcList dstList : option nodeFirewallAddressList)
  : R (list string) :=
  allowed ← side_families "source" srcList (SrcCIDR rule) {["ip"; "ip6"]};
  allowed ← side_families "destination" dstList (DstCIDR rule) allowed;
  let allowed := if rule_Protocol rule =s "icmp" then intersectNodeFirewallFamilies allowed {["ip"]} else allowed in
  let allowed := if rule_Protocol rule =s "icmpv6" then intersectNodeFirewallFamilies allowed {["ip6"]} else allowed in
  if decide (allowed = ∅) then Err FamiliesDoNotOverlap
  else if is_none srcList && is_none dstList && (SrcCIDR rule =s "") && (DstCIDR rule =s "") then Ok [""]
  else Ok (filter (λ family, family ∈ allowed) ["ip"; "ip6"]).

Definition chain_name (chain : string) : string :=
  if chain =s "input" then firewallInputChain
  else if chain =s "forward" then firewallForwardChain
  else if chain =s "output" then firewallOutputChain
  else "".

Definition renderNodeFirewallRuleLine (rule : nodeFirewallRule) (family srcSet dstSet : string) : R string :=
  let chain := chain_name (rule_Chain rule) in
  if chain =s "" then Err (UnsupportedChain (rule_Chain rule))
  else
    let parts := ["add"; "rule"; firewallNFTFamily; firewallNFTTable; chain] in
    let parts := match StateMatch rule with
                 | [] => parts
                 | states => parts ++ ["ct"; "state"; nftSet states]
                 end in
    let parts :=
      if negb (srcSet =s "") then parts ++ [family; "saddr"; "@" +:+ srcSet]
      else if negb (SrcCIDR rule =s "") then parts ++ [nftIPFamily (SrcCIDR rule); "saddr"; SrcCIDR rule]
      else parts in
    let parts :=
      if negb (dstSet =s "") then parts ++ [family; "daddr"; "@" +:+ dstSet]
      else if negb (DstCIDR rule =s "") then parts ++ [nftIPFamily (DstCIDR rule); "daddr"; DstCIDR rule]
      else parts in
    let parts :=
      if inLocal (rule_Protocol rule) ["tcp"; "udp"] then
        let parts := if SrcPorts rule =s "" then parts
                     else parts ++ [rule_Protocol rule; "sport"; nftPorts (SrcPorts rule)] in
        if DstPorts rule =s "" then parts
        else parts ++ [rule_Protocol rule; "dport"; nftPorts (DstPorts rule)]
      else if rule_Protocol rule =s "icmp" then parts ++ ["ip"; "protocol"; "icmp"]
      else if rule_Protocol rule =s "icmpv6" then parts ++ ["ip6"; "nexthdr"; "icmpv6"]
      else parts in
    let parts := parts ++ [rule_Action rule; "comment"; nftQuote (nodeFirewallRuleComment rule)] in
    Ok (join " " parts).

Fixpoint render_families (rule : nodeFirewallRule) (srcList dstList : option nodeFirewallAddressList)
    (fams : list string) : R (list string) :=
  match fams with
  | [] => Ok []
  | family :: fams =>
      let srcSet := match srcList with Some l => setNameForFamily l family | None => "" end in
      let dstSet := match dstList with Some l => setNameForFamily l family | None => "" end in
      line ← renderNodeFirewallRuleLine rule family srcSet dstSet;
      lines ← render_families rule srcList dstList fams;
      Ok (if line =s "" then lines else line :: lines)
  end.

Definition renderNodeFirewallRule (rule : nodeFirewallRule) (addressLists : nodeFirewallAddressLists)
  : R (list string) :=
  srcList ← map_err (InRule (rule_ID rule))
    (resolveNodeFirewallList addressLists (SrcListID rule) (SrcListKey rule) "source");
  dstList ← map_err (InRule (rule_ID rule))
    (resolveNodeFirewallList addressLists (DstListID rule) (DstListKey rule) "destination");
  fams ← map_err (InRule (rule_ID rule)) (nodeFirewallRuleFamilies rule srcList dstList);
  render_families rule srcList dstList fams.

(** The sets of the address lists, declared and filled. *)
Definition list_set_lines (name type : string) (values : list string) : list string :=
  match values with
  | [] => []
  | _ =>
      [words ["add set"; firewallNFTFamily; firewallNFTTable; name; "{ type"; type +:+ "; flags interval; }"];
       words ["add element"; firewallNFTFamily; firewallNFTTable; name; nftElementSet values]]
  end.

Definition renderNodeFirewallAddressListSets (addressLists : nodeFirewallAddressLists) : list string :=
  Ordered addressLists ≫= λ alist,
    list_set_lines (NameV4 alist) "ipv4_addr" (list_V4 alist) ++ list_set_lines (NameV6 alist) "ipv6_addr" (list_V6 alist).

(** ** Parsing the payload *)

Section payload.
(** [fmt.Sprint] of the values [stringify] does not print itself, [%q] of a
    host name, and [net/url.Parse] with the scheme, host name and port of its result. *)
Context (sprint : any → string) (quote : string → string) (url_Parse : string → option (string * string * string)).

(** [stringify(m[key])]; a missing key reads as nil. *)
Definition stringify (v : option any) : string :=
  match v with
  | None | Some ANil => ""
  | Some (AString x) => trim_space x
  | Some (AStringer x) => trim_space x
  | Some (ABool b) => if b then "true" else "false"
  | Some (AInt z) => itoa z
  | Some (AInt32 z) => itoa z
  | Some (AInt64 z) => itoa z
  | Some (AFloat64 f as x) =>
      let z := int_of_float f in
      if float_is f z && (Z.abs z <? 2 ^ 53) && negb (z =? 0) then itoa z else trim_space (sprint x)
  | Some x => trim_space (sprint x)
  end.

Definition parseNodeFirewallDefaultPolicies (payload : gomap) : R (nodeFirewallDefaultPolicies * list string) :=
  input ← map_err (InField "default_input_policy")
    (normalizeNodeFirewallDefaultPolicy (stringify (payload !! "default_input_policy")));
  forward ← map_err (InField "default_forward_policy")
    (normalizeNodeFirewallDefaultPolicy (stringify (payload !! "default_forward_policy")));
  output ← map_err (InField "default_output_policy")
    (normalizeNodeFirewallDefaultPolicy (stringify (payload !! "default_output_policy")));
  let defaults := {| Input := first [input; "accept"]; Forward := first [forward; "accept"];
                     Output := first [output; "accept"];
                     Enforce := boolFromAny (payload !! "enforce_default_policy") |} in
  if Enforce defaults then Ok (defaults, [])
  else Ok (defaults,
    if negb (Input defaults =s "accept") || negb (Forward defaults =s "accept") || negb (Output defaults =s "accept")
    then ["default chain policies are present in policy metadata but not enforced for this apply; enable strict enforcement to apply them"]
    else []).

(** *** Address lists *)

Definition add_element (alist : nodeFirewallAddressList) (e : nodeFirewallListElement) : nodeFirewallAddressList :=
  {| list_ID := list_ID alist; list_Key := list_Key alist; NameV4 := NameV4 alist; NameV6 := NameV6 alist;
     list_V4 := if elt_Family e =s "ip" then list_V4 alist ++ [elt_Value e] else list_V4 alist;
     list_V6 := if elt_Family e =s "ip6" then list_V6 alist ++ [elt_Value e] else list_V6 alist;
     IgnoredDNS := IgnoredDNS alist |}.

Definition count_dns (alist : nodeFirewallAddressList) : nodeFirewallAddressList :=
  {| list_ID := list_ID alist; list_Key := list_Key alist; NameV4 := NameV4 alist; NameV6 := NameV6 alist;
     list_V4 := list_V4 alist; list_V6 := list_V6 alist; IgnoredDNS := IgnoredDNS alist + 1 |}.

Definition sort_lists (alist : nodeFirewallAddressList) : nodeFirewallAddressList :=
  {| list_ID := list_ID alist; list_Key := list_Key alist; NameV4 := NameV4 alist; NameV6 := NameV6 alist;
     list_V4 := sort_strings (list_V4 alist); list_V6 := sort_strings (list_V6 alist);
     IgnoredDNS := IgnoredDNS alist |}.

(** The loop over the entries of one list; [n] is the one-based index. *)
Fixpoint parse_entries (label : string) (n : Z) (alist : nodeFirewallAddressList) (warnings : list string)
    (entries : list any) : R (nodeFirewallAddressList * list string) :=
  match entries with
  | [] => Ok (alist, warnings)
  | AMap entry :: entries =>
      if negb (to_lower (first [stringify (entry !! "status"); "active"]) =s "active")
      then parse_entries label (n + 1) alist warnings entries
      else
        r ← map_err (InEntry label n)
          (normalizeNodeFirewallAddressListEntry (stringify (entry !! "value")) (stringify (entry !! "value_type")));
        let '(element, warning) := r in
        let warnings := if warning =s "" then warnings
          else warnings ++ ["address-alist " +:+ label +:+ " entry " +:+ itoa n +:+ ": " +:+ warning] in
        match element with
        | None =>
            let dns := negb (warning =s "")
              || equal_fold_ascii (trim_space (stringify (entry !! "value_type"))) "dns" in
            parse_entries label (n + 1) (if dns then count_dns alist else alist) warnings entries
        | Some e => parse_entries label (n + 1) (add_element alist e) warnings entries
        end
  | _ :: _ => Err (EntryMustBeObject label n)
  end.

Fixpoint parse_lists (n : Z) (out : nodeFirewallAddressLists) (warnings : list string) (items : list any)
  : R (nodeFirewallAddressLists * list string) :=
  match items with
  | [] => Ok (out, warnings)
  | AMap m :: items =>
      if negb (to_lower (first [stringify (m !! "status"); "active"]) =s "active")
      then parse_lists (n + 1) out warnings items
      else
        let listID := trim_space (stringify (m !! "id")) in
        let listKey := trim_space (stringify (m !! "key")) in
        if (listID =s "") && (listKey =s "")
        then parse_lists (n + 1) out
          (warnings ++ ["address-alist " +:+ itoa n +:+ " has no id or key and was ignored"]) items
        else
          let label := first [listKey; listID] in
          let listName := nodeFirewallSetName label in
          let alist := {| list_ID := listID; list_Key := listKey; NameV4 := listName +:+ "_v4";
                         NameV6 := listName +:+ "_v6"; list_V4 := []; list_V6 := []; IgnoredDNS := 0 |} in
          let rawEntries := match m !! "entries" with Some (ASlice l) => l | _ => [] end in
          r ← parse_entries label 1 alist warnings rawEntries;
          let '(alist, warnings) := r in
          let alist := sort_lists alist in
          let refs := ByRef out in
          let refs := if listID =s "" then refs else <[listID:=alist]> refs in
          let refs := if listKey =s "" then refs else <[listKey:=alist]> refs in
          parse_lists (n + 1) {| ByRef := refs; Ordered := Ordered out ++ [alist] |} warnings items
  | _ :: _ => Err (AddressListMustBeObject n)
  end.

Definition parseNodeFirewallAddressLists (raw : option any) : R (nodeFirewallAddressLists * list string) :=
  match raw with
  | None | Some ANil => Ok ({| ByRef := ∅; Ordered := [] |}, [])
  | Some (ASlice items) => parse_lists 1 {| ByRef := ∅; Ordered := [] |} [] items
  | _ => Err AddressListsMustBeArray
  end.

Definition stats (lists : nodeFirewallAddressLists) : list gomap :=
  (λ l, list_to_map [
    ("id", AString (list_ID l)); ("key", AString (list_Key l));
    ("rendered_entries", AInt (Z.of_nat (length (list_V4 l)) + Z.of_nat (length (list_V6 l))));
    ("rendered_ipv4", AInt (Z.of_nat (length (list_V4 l))));
    ("rendered_ipv6", AInt (Z.of_nat (length (list_V6 l))));
    ("ignored_dns_entries", AInt (IgnoredDNS l));
    ("set_v4", AString (NameV4 l)); ("set_v6", AString (NameV6 l))]) <$> Ordered lists.

(** *** Rules *)

Definition add_state (out : list string) (value : string) : list string :=
  let value := to_lower (trim_space value) in
  if negb (inLocal value ["new"; "established"; "related"; "invalid"]) || one_of value out then out
  else out ++ [value].

Definition normalizeNodeFirewallStateMatch (raw : option any) : list string :=
  let values := match raw with
                | Some (ASlice typed) => (λ item, stringify (Some item)) <$> typed
                | Some (AStrings typed) => typed
                | Some (AString typed) => split_char "," typed
                | _ => []
                end in
  foldl add_state [] values.

Definition parseNodeFirewallRule (m : gomap) (idx : Z) : R nodeFirewallRule :=
  let get := λ key, stringify (m !! key) in
  let id := first [get "id"; itoa (idx + 1)] in
  let priority := intFromAny (m !! "priority") in
  let chain := to_lower (get "chain") in
  let action := to_lower (get "action") in
  let protocol := to_lower (get "protocol") in
  let enabled := match m !! "enabled" with Some v => boolFromAny (Some v) | None => true end in
  let status := to_lower (first [get "status"; "active"]) in
  let priority := if priority <=? 0 then 1000 + idx else priority in
  _ ← guard_err (inLocal chain ["input"; "forward"; "output"]) (InRule id BadChain);
  _ ← guard_err (inLocal action ["accept"; "drop"; "reject"]) (InRule id BadAction);
  let protocol := if protocol =s "" then "any" else protocol in
  _ ← guard_err (inLocal protocol ["any"; "tcp"; "udp"; "icmp"; "icmpv6"]) (InRule id BadProtocol);
  srcCIDR ← map_err (λ e, InRule id (InField "source CIDR" e)) (normalizeNodeFirewallCIDR (get "src_cidr"));
  dstCIDR ← map_err (λ e, InRule id (InField "destination CIDR" e)) (normalizeNodeFirewallCIDR (get "dst_cidr"));
  srcPorts ← map_err (λ e, InRule id (InField "source ports" e)) (normalizeNodeFirewallPorts (get "src_ports"));
  dstPorts ← map_err (λ e, InRule id (InField "destination ports" e)) (normalizeNodeFirewallPorts (get "dst_ports"));
  _ ← guard_err (negb ((negb (srcPorts =s "") || negb (dstPorts =s ""))
                       && negb (protocol =s "tcp") && negb (protocol =s "udp"))) (InRule id PortsRequireTCPOrUDP);
  Ok {| rule_ID := id; rule_Priority := priority; rule_Chain := chain; rule_Action := action;
        rule_Protocol := protocol;
        SrcListID := trim_space (get "src_list_id"); SrcListKey := trim_space (get "src_list_key");
        DstListID := trim_space (get "dst_list_id"); DstListKey := trim_space (get "dst_list_key");
        SrcCIDR := srcCIDR; DstCIDR := dstCIDR; SrcPorts := srcPorts; DstPorts := dstPorts;
        StateMatch := normalizeNodeFirewallStateMatch (m !! "state_match");
        rule_Comment := get "comment"; rule_Enabled := enabled; rule_Status := status |}.

Fixpoint parse_rules (idx : Z) (items : list any) : R (list nodeFirewallRule) :=
  match items with
  | [] => Ok []
  | AMap m :: items =>
      rule ← parseNodeFirewallRule m idx;
      rules ← parse_rules (idx + 1) items;
      Ok (rule :: rules)
  | _ :: _ => Err (RuleMustBeObject (idx + 1))
  end.

Definition rule_less (a b : nodeFirewallRule) : bool :=
  if rule_Priority a =? rule_Priority b then string_lt (rule_ID a) (rule_ID b)
  else rule_Priority a <? rule_Priority b.

(** The rules in order of application; the warnings are always empty. *)
Definition parseNodeFirewallRules (raw : option any) : R (list nodeFirewallRule * list string) :=
  match raw with
  | None | Some ANil => Ok ([], [])
  | Some (ASlice items) => rules ← parse_rules 0 items; Ok (isort rule_less rules, [])
  | _ => Err RulesMustBeArray
  end.

(** *** Safety rules of a strict default policy *)

(** [seen] is the set of the values already in [out]. *)
Definition addNodeFirewallPortValue (out : list string) (raw : any) : list string :=
  match parseNodeFirewallPort (stringify (Some raw)) with
  | Err _ => out
  | Ok port => let value := itoa port in if one_of value out then out else out ++ [value]
  end.

Definition nodeFirewallSSHBootstrapPorts (raw : option any) : list string :=
  sort_strings (foldl addNodeFirewallPortValue []
    (match raw with
     | Some (ASlice typed) => typed
     | Some (AInts typed) => AInt <$> typed
     | Some (AStrings typed) => AString <$> typed
     | Some (AString typed) => AString <$> split_char "," typed
     | None | Some ANil => []
     | Some raw => [raw]
     end)).

Definition ssh_rule (ports : list string) (listKey : string) (alist : nodeFirewallAddressList) (family : string)
  : list string :=
  let setName := setNameForFamily alist family in
  if setName =s "" then []
  else
    let comment := firewallNFTCommentScope +:+ "system-ssh-bootstrap-" +:+ listKey +:+ "-" +:+ family in
    [rule_line firewallInputChain
       ["ct state { new, established }"; family; "saddr"; "@" +:+ setName; "tcp dport"; nftSet ports;
        "accept comment"; nftQuote comment]].

Definition renderNodeFirewallSSHBootstrapRules (payload : gomap) (addressLists : nodeFirewallAddressLists)
  : list string * bool :=
  let ports := nodeFirewallSSHBootstrapPorts (payload !! "ssh_bootstrap_ports") in
  let ports := match ports with [] => ["22"] | _ => ports end in
  let lines := ["trusted_control_plane"; "trusted_operators"] ≫= (λ listKey,
    match ByRef addressLists !! listKey with
    | None => []
    | Some alist =>
        if nodeFirewallListHasAnyCIDR alist then []
        else ["ip"; "ip6"] ≫= (λ family, ssh_rule ports listKey alist family)
    end) in
  (lines, (0 <? length lines)%nat).

Definition nodeFirewallHasForwardSourceAllow (rules : list nodeFirewallRule) (addressLists : nodeFirewallAddressLists)
  : bool :=
  existsb (λ rule,
    if negb (rule_Enabled rule) || negb (rule_Status rule =s "active")
       || negb (rule_Chain rule =s "forward") || negb (rule_Action rule =s "accept") then false
    else if match StateMatch rule with [] => false | s => negb (containsNodeFirewallState s "new") end then false
    else
      let listKey := to_lower (trim_space (SrcListKey rule)) in
      let listKey :=
        if (listKey =s "") && negb (SrcListID rule =s "") then
          match ByRef addressLists !! SrcListID rule with
          | Some alist => to_lower (trim_space (list_Key alist))
          | None => listKey
          end
        else listKey in
      if negb (listKey =s "vpn_client_sources") && negb (listKey =s "backhaul_sources") then false
      else match ByRef addressLists !! first [SrcListKey rule; SrcListID rule] with
      | Some alist => negb (bool_decide (families alist = ∅))
      | None => false
      end) rules.

(** An enabled, active output rule that accepts new TCP connections to [port]. *)
Definition hasExplicitControlPlaneOutputAllow (rules : list nodeFirewallRule) (port : string) : bool :=
  existsb (λ rule,
    if negb (rule_Enabled rule) || negb (rule_Status rule =s "active")
       || negb (rule_Chain rule =s "output") || negb (rule_Action rule =s "accept") then false
    else if negb (rule_Protocol rule =s "any") && negb (rule_Protocol rule =s "tcp") then false
    else if match StateMatch rule with [] => false | s => negb (containsNodeFirewallState s "new") end then false
    else if (rule_Protocol rule =s "tcp") && negb (nodeFirewallPortsContain (DstPorts rule) port) then false
    else if (rule_Protocol rule =s "any") && negb (trim_space (DstPorts rule) =s "") then false
    else if negb (DstCIDR rule =s "") then
      match ParsePrefix (DstCIDR rule) with
      | Some prefix => 0 <? prefix_bits prefix
      | None => false
      end
    else negb (trim_space (DstListID rule) =s "") || negb (trim_space (DstListKey rule) =s "")) rules.

Definition control_plane_line (family cidr port : string) : string :=
  rule_line firewallOutputChain [family; "daddr"; cidr; "tcp dport"; port; "accept comment";
    nftQuote (firewallNFTCommentScope +:+ "system-control-plane-output")].

(** The line, empty for none, and the warning; the third result of the code is
    true whenever it returns no error. *)
Definition renderNodeFirewallControlPlaneOutputRule (payload : gomap) (rules : list nodeFirewallRule)
  : R (string * string) :=
  let raw := trim_space (stringify (payload !! "agent_control_plane_url")) in
  if raw =s "" then Err StrictOutputNeedsURL
  else match url_Parse raw with
  | None => Err StrictOutputInvalidURL
  | Some (scheme, host, port) =>
      if host =s "" then Err StrictOutputInvalidURL
      else
        let port := if port =s "" then (if to_lower scheme =s "http" then "80" else "443") else port in
        _ ← map_err StrictOutputPort (parseNodeFirewallPort port);
        match ParseAddr host with
        | None =>
            if hasExplicitControlPlaneOutputAllow rules port
            then Ok ("", "strict default output policy relies on explicit output allow rule for control-plane TCP port "
                         +:+ port +:+ " because control-plane URL host " +:+ quote host +:+ " is DNS")
            else Err (StrictOutputNeedsAllow port host)
        | Some addr =>
            let family := if Is6 addr then "ip6" else "ip" in
            let cidr := addr_string addr +:+ (if Is6 addr then "/128" else "/32") in
            Ok (control_plane_line family cidr port, "")
        end
  end.

Definition not_accept (policy : string) : bool := negb (policy =s "accept").

Definition input_safety_lines : list string :=
  [rule_line firewallInputChain ["ct state { established, related } accept comment";
     nftQuote (firewallNFTCommentScope +:+ "system-established-input")];
   rule_line firewallInputChain ["iifname"; nftQuote "lo"; "accept comment";
     nftQuote (firewallNFTCommentScope +:+ "system-loopback-input")]].
Definition forward_safety_lines : list string :=
  [rule_line firewallForwardChain ["ct state { established, related } accept comment";
     nftQuote (firewallNFTCommentScope +:+ "system-established-forward")]].
Definition output_safety_lines : list string :=
  [rule_line firewallOutputChain ["ct state { established, related } accept comment";
     nftQuote (firewallNFTCommentScope +:+ "system-established-output")];
   rule_line firewallOutputChain ["oifname"; nftQuote "lo"; "accept comment";
     nftQuote (firewallNFTCommentScope +:+ "system-loopback-output")]].

Definition renderNodeFirewallSafetyRules (defaults : nodeFirewallDefaultPolicies) (payload : gomap)
    (rules : list nodeFirewallRule) (addressLists : nodeFirewallAddressLists) : R nodeFirewallSafetyRules :=
  if negb (Enforce defaults) then
    Ok {| safety_Lines := []; safety_Count := 0; safety_Warnings := [];
          safety_SSH := true; safety_ControlPlane := true; safety_Forward := true |}
  else
    let '(input_lines, ssh) :=
      if not_accept (Input defaults) then
        let '(sshLines, preserved) := renderNodeFirewallSSHBootstrapRules payload addressLists in
        (input_safety_lines ++ sshLines, preserved)
      else ([], true) in
    let '(forward_lines, forward) :=
      if not_accept (Forward defaults) then
        let requiresForward := boolFromAny (payload !! "node_requires_forward_preservation") in
        (forward_safety_lines, negb requiresForward || nodeFirewallHasForwardSourceAllow rules addressLists)
      else ([], true) in
    output ← (if not_accept (Output defaults) then
        r ← renderNodeFirewallControlPlaneOutputRule payload rules;
        let '(controlPlaneLine, warning) := r in
        Ok (output_safety_lines ++ (if controlPlaneLine =s "" then [] else [controlPlaneLine]),
            if warning =s "" then [] else [warning])
      else Ok ([], []) : R (list string * list string));
    let '(output_lines, warnings) := output in
    let lines := input_lines ++ forward_lines ++ output_lines in
    Ok {| safety_Lines := lines; safety_Count := Z.of_nat (length lines); safety_Warnings := warnings;
          safety_SSH := ssh; safety_ControlPlane := true; safety_Forward := forward |}.

(** *** The plan *)

(** The rendered lines of the enabled, active rules, in order. *)
Fixpoint render_rules (rules : list nodeFirewallRule) (addressLists : nodeFirewallAddressLists) : R (list string) :=
  match rules with
  | [] => Ok []
  | rule :: rules =>
      if negb (rule_Enabled rule) || negb (rule_Status rule =s "active") then render_rules rules addressLists
      else
        rendered ← renderNodeFirewallRule rule addressLists;
        lines ← render_rules rules addressLists;
        Ok (rendered ++ lines)
  end.

Definition sum_stat (key : string) (stats : list gomap) : Z :=
  foldl (λ acc stat, acc + intFromAny (stat !! key)) 0 stats.

Definition renderNodeFirewallPlan (payload : gomap) : R nodeFirewallPlan :=
  '(defaults, policyWarnings) ← parseNodeFirewallDefaultPolicies payload;
  '(addressLists, warnings) ← parseNodeFirewallAddressLists (payload !! "address_lists");
  '(rules, ruleWarnings) ← parseNodeFirewallRules (payload !! "rules");
  safety ← renderNodeFirewallSafetyRules defaults payload rules addressLists;
  rendered ← render_rules rules addressLists;
  let rejectLines := renderNodeFirewallDefaultRejectRules defaults in
  let lines := renderNodeFirewallChainResetLines defaults
    ++ renderNodeFirewallAddressListSets addressLists
    ++ safety_Lines safety ++ rendered ++ rejectLines in
  let script := join (String LF "") lines +:+ String LF "" in
  let counts := stats addressLists in
  Ok {| Script := script; Count := Z.of_nat (length rendered);
        SystemRuleCount := safety_Count safety + Z.of_nat (length rejectLines);
        Hash := sha256_hex script;
        Warnings := warnings ++ policyWarnings ++ ruleWarnings ++ safety_Warnings safety;
        AddressListCounts := counts;
        AddressGroupRenderedEntryCount := sum_stat "rendered_entries" counts;
        AddressGroupIgnoredDNSEntries := sum_stat "ignored_dns_entries" counts;
        DefaultPolicyEnforcement := if Enforce defaults then "enforced" else "observe_only";
        SSHBootstrapPreserved := safety_SSH safety;
        ControlPlaneEgressPreserved := safety_ControlPlane safety;
        ForwardEgressPreserved := safety_Forward safety |}.

End payload.
