(* ===== verification/FirewallText.v ===== *)
(** * The text of the firewall script

    What the strings of [Firewall] can contain: the bytes of a normalised
    field, of a set name, of a quoted comment.  The predicates [safe] and
    [ident] are the alphabets of a rule's text and of a name; neither has a
    line feed, a semicolon or a hash sign, so a safe text stays one command. *)
From S2P Require Import Prelude GoStrings Strconv GoValue Sha256 Netip Firewall.
From Stdlib Require Import Ascii.
From stdpp Require Import options.
Open Scope Z_scope.

Definition is_letter (a : ascii) : bool :=
  let z := byte_val a in ((97 <=? z) && (z <=? 122)) || ((65 <=? z) && (z <=? 90)).
Definition ident_byte (a : ascii) : bool := is_letter a || is_digit a || Ascii.eqb a "_".
Definition safe_byte (a : ascii) : bool :=
  ident_byte a || existsb (Ascii.eqb a) (dquote :: bytes " -:./,@{}").

Notation safe := (all_bytes safe_byte).
Notation ident := (all_bytes ident_byte).

Lemma ident_safe s : ident s → safe s.
Proof. apply all_bytes_impl. unfold safe_byte. by intros a ->. Qed.

Lemma safe_dec s : forallb safe_byte (bytes s) = true → safe s.
Proof. unfold all_bytes. rewrite forallb_forall, Forall_forall. intros H x ?. apply H. by apply list_elem_of_In. Qed.
Lemma ident_dec s : forallb ident_byte (bytes s) = true → ident s.
Proof. unfold all_bytes. rewrite forallb_forall, Forall_forall. intros H x ?. apply H. by apply list_elem_of_In. Qed.

Lemma safe_app s t : safe s → safe t → safe (s +:+ t).
Proof. intros. by rewrite all_bytes_app. Qed.

Lemma safe_cons a s : safe_byte a = true → safe s → safe (String a s).
Proof. intros. by rewrite all_bytes_cons. Qed.

Lemma safe_nil : safe "".
Proof. apply all_bytes_nil. Qed.

Lemma all_bytes_join p sep l : all_bytes p sep → Forall (all_bytes p) l → all_bytes p (join sep l).
Proof.
  intros Hsep H. induction H as [|w l Hw Hl IH]; [apply all_bytes_nil|].
  destruct l as [|w' l]; [done|]. change (join sep (w :: w' :: l)) with (w +:+ sep +:+ join sep (w' :: l)).
  by rewrite !all_bytes_app.
Qed.

Lemma safe_words l : Forall (λ s, safe s) l → safe (words l).
Proof. apply all_bytes_join. by apply safe_dec. Qed.

Lemma all_bytes_trim p s : all_bytes p s → all_bytes p (trim_space s).
Proof.
  unfold all_bytes. rewrite !Forall_forall. intros H a Ha. apply H. by apply trim_space_byte.
Qed.

Lemma is_digit_ident a : is_digit a = true → ident_byte a = true.
Proof. unfold ident_byte. intros ->. by rewrite orb_true_r. Qed.

Lemma safe_itoa z : safe (itoa z).
Proof.
  unfold all_bytes. rewrite Forall_forall. intros c Hc. apply itoa_bytes in Hc as [Hc| ->]; [|done].
  unfold safe_byte. by rewrite is_digit_ident.
Qed.

(** ** Addresses *)

Lemma addr_byte_safe : ∀ a, addr_byte a = true → safe_byte a = true.
Proof. intros [[] [] [] [] [] [] [] []]; vm_compute; congruence. Qed.

Lemma safe_addr a : addr_ok a → zone_of a = "" → safe (addr_string a).
Proof.
  intros Hok Hz. destruct a as [n|n z]; simpl in *.
  - eapply all_bytes_impl; [|by apply show_ipv4_bytes]. intros c Hc. apply addr_byte_safe.
    unfold addr_byte. apply orb_true_iff in Hc as [->| ->]; [done|apply orb_true_r].
  - subst z. rewrite sapp_nil_r. eapply all_bytes_impl; [apply addr_byte_safe|by apply addr_text_bytes].
Qed.

Lemma safe_prefix p : prefix_ok p → safe (prefix_string p).
Proof.
  intros (Ha & Hz & _). unfold prefix_string.
  apply safe_app; [by apply safe_addr|]. apply safe_app; [by apply safe_dec|apply safe_itoa].
Qed.

(** Only a percent sign introduces a zone. *)
Lemma ParseAddr_no_zone s a : ParseAddr s = Some a → "%"%char ∉ bytes s → zone_of a = "".
Proof.
  unfold ParseAddr. intros H Hp. destruct (addr_kind s) as [c|]; [|done].
  destruct (Ascii.eqb_spec c ".") as [->|].
  { apply parse_ipv4_ok in H as [_ ?]. by destruct a. }
  destruct (Ascii.eqb_spec c ":") as [->|].
  2:{ by destruct c as [[] [] [] [] [] [] [] []]. }
  unfold parse_ipv6 in H. rewrite cut_char_none in H by done.
  destruct (strip_prefix "::" s) as [[|c u]|]; simplify_eq; try done.
  - destruct (ipv6_groups _ _ _ _ ≫= _); simplify_eq/=. done.
  - destruct (ipv6_groups _ _ _ _ ≫= _); simplify_eq/=. done.
Qed.

Definition zone_free (s : string) : bool := negb (contains_char "%" s).

Lemma zone_free_spec s : zone_free s = true ↔ "%"%char ∉ bytes s.
Proof. unfold zone_free. by rewrite negb_true_iff, <-not_true_iff_false, contains_char_spec. Qed.

Lemma safe_ParseAddr s a : ParseAddr s = Some a → zone_free s = true → safe (addr_string a).
Proof.
  intros Ha Hz%zone_free_spec. apply safe_addr; [by eapply ParseAddr_ok|by eapply ParseAddr_no_zone].
Qed.

Lemma safe_ParsePrefix s p : ParsePrefix s = Some p → safe (prefix_string (Masked p)).
Proof. intros H. by apply safe_prefix, Masked_ok, (ParsePrefix_ok s). Qed.

Lemma zone_free_trim s : zone_free s = true → zone_free (trim_space s) = true.
Proof. rewrite !zone_free_spec. intros H ?%trim_space_byte. done. Qed.

Lemma cut_char_parts c s l r : cut_char c s = Some (l, r) → s = l +:+ String c r.
Proof.
  revert l. induction s as [|a s IH]; intros l; simpl; [done|].
  destruct (Ascii.eqb_spec a c) as [->|]; [intros [= <- <-]; by rewrite sapp_nil_l|].
  destruct (cut_char c s) as [[l' r']|]; [|done]. intros [= <- <-]. rewrite sapp_cons. f_equal. by apply IH.
Qed.

Lemma zone_free_cut c s l r :
  cut_char c s = Some (l, r) → zone_free s = true → zone_free l = true ∧ zone_free r = true.
Proof.
  intros ->%cut_char_parts. rewrite !zone_free_spec, bytes_app, bytes_cons. set_solver.
Qed.

(** ** Names and comments *)

Definition slug_byte (a : ascii) : bool := slug_rune (byte_val a) || (byte_val a =? 45).

Lemma slug_bytes s : all_bytes slug_byte (slugifyLocal s).
Proof.
  unfold slugifyLocal. set (out := trim_set _ _). assert (all_bytes slug_byte out) as Ho.
  { apply trim_set_bytes, dash_runs_bytes. unfold slug_rune. intros. lia. }
  destruct (out =s ""); [|done]. by repeat constructor.
Qed.

Lemma slug_byte_safe : ∀ a, slug_byte a = true → safe_byte a = true.
Proof. intros [[] [] [] [] [] [] [] []]; vm_compute; congruence. Qed.

Lemma all_bytes_replace p (q : ascii → bool) old new s :
  all_bytes q s → all_bytes p new → (∀ a, q a = true → a ≠ old → p a = true) →
  all_bytes p (replace_char old new s).
Proof.
  intros Hs Hn Hw. induction s as [|a s IH]; [apply all_bytes_nil|].
  apply all_bytes_cons in Hs as [Ha Hs]. cbn [replace_char]. rewrite all_bytes_app. split; [|by apply IH].
  destruct (Ascii.eqb_spec a old); [done|]. apply all_bytes_cons. split; [by apply Hw|apply all_bytes_nil].
Qed.

Lemma ident_set_name ref : ident (nodeFirewallSetName ref).
Proof.
  unfold nodeFirewallSetName. rewrite all_bytes_app. split; [by apply ident_dec|].
  set (name := replace_char _ _ _). assert (ident name) as Hn.
  { eapply all_bytes_replace; [apply slug_bytes|by apply ident_dec|].
    intros [[] [] [] [] [] [] [] []]; vm_compute; congruence. }
  destruct (_ || _); [by apply ident_dec|done].
Qed.

Lemma safe_quote s : safe s → dquote ∉ bytes s → safe (nftQuote s).
Proof.
  intros Hs Hd. unfold nftQuote. rewrite (replace_char_id bslash).
  2:{ by eapply all_bytes_not_in. }
  rewrite replace_char_id by done. apply safe_cons; [done|]. apply safe_app; [done|by apply safe_dec].
Qed.

Lemma dquote_not_in_slug s : dquote ∉ bytes (firewallNFTCommentScope +:+ slugifyLocal s).
Proof.
  rewrite bytes_app, not_elem_of_app. split; [by rewrite <-contains_char_spec|].
  eapply all_bytes_not_in; [apply slug_bytes|done].
Qed.

Lemma slug_nonempty s : slugifyLocal s ≠ "".
Proof.
  unfold slugifyLocal. set (out := trim_set _ _). by destruct (String.eqb_spec out "").
Qed.

Lemma rule_comment_slug rule : ∃ s, nodeFirewallRuleComment rule = firewallNFTCommentScope +:+ slugifyLocal s.
Proof.
  unfold nodeFirewallRuleComment. set (s := first _). exists s.
  destruct (String.eqb_spec (slugifyLocal s) ""); [|done]. by destruct (slug_nonempty s).
Qed.

Lemma safe_rule_comment rule : safe (nftQuote (nodeFirewallRuleComment rule)).
Proof.
  destruct (rule_comment_slug rule) as [s ->]. apply safe_quote; [|apply dquote_not_in_slug].
  apply safe_app; [by apply safe_dec|]. eapply all_bytes_impl; [apply slug_byte_safe|apply slug_bytes].
Qed.

(** ** Sets of values *)

Lemma clean_values_Forall P values :
  (∀ s, P s → P (trim_space s)) → Forall P values → Forall P (clean_values values).
Proof.
  intros Ht H. unfold clean_values. induction H as [|v l Hv Hl IH]; simpl; [constructor|].
  destruct (negb _); [constructor; auto|done].
Qed.

Lemma safe_braces l : Forall (λ s, safe s) l → safe ("{ " +:+ join ", " l +:+ " }").
Proof.
  intros H. apply safe_app; [by apply safe_dec|]. apply safe_app; [|by apply safe_dec].
  apply all_bytes_join; [by apply safe_dec|done].
Qed.

Lemma safe_element_set values : Forall (λ s, safe s) values → safe (nftElementSet values).
Proof. intros H. apply safe_braces, clean_values_Forall; [by intros; apply all_bytes_trim|done]. Qed.

Lemma safe_set values : Forall (λ s, safe s) values → safe (nftSet values).
Proof.
  intros H. apply (clean_values_Forall (λ s, safe s)) in H; [|by intros; apply all_bytes_trim].
  unfold nftSet. destruct H as [|v l Hv Hl]; [by apply safe_dec|].
  destruct Hl as [|w l Hw Hl]; [done|]. apply safe_braces. by repeat constructor.
Qed.

Lemma split_char_Forall p c s : all_bytes p s → Forall (all_bytes p) (split_char c s).
Proof.
  induction s as [|a s IH]; [by repeat constructor|]. intros [Ha Hs]%all_bytes_cons. simpl.
  specialize (IH Hs). destruct (Ascii.eqb a c); [constructor; [apply all_bytes_nil|done]|].
  destruct IH as [|w ws Hw Hws]; repeat constructor; auto; by apply all_bytes_cons.
Qed.

Lemma safe_ports value : safe value → safe (nftPorts value).
Proof.
  intros H%(split_char_Forall _ ","). unfold nftPorts.
  destruct H as [|p parts Hp Hparts]; [by apply safe_set|].
  destruct Hparts as [|q parts Hq Hparts]; [by apply all_bytes_trim|].
  apply safe_set, clean_values_Forall; [by intros; apply all_bytes_trim|by repeat constructor].
Qed.
