(* ===== verification/FirewallFields.v ===== *)
(** * The fields of a firewall rule and of an address list

    The normalisation functions of [cmd/agent/firewall.go]: what a
    normalised port expression, CIDR or address-list entry denotes, that
    normalising is idempotent, and where it is not what it reads as. *)
From S2P Require Import Prelude GoStrings Strconv GoValue Netip Firewall FirewallText.
From Stdlib Require Import Ascii.
From stdpp Require Import options.
Open Scope Z_scope.

(** ** Ports *)

(** A port expression: ports and port ranges. *)
Inductive port_item :=
| PortOne (port : Z)
| PortRange (from to : Z).

Definition port_ok (p : Z) : Prop := 1 ≤ p ≤ 65535.
Definition item_ok (i : port_item) : Prop :=
  match i with PortOne p => port_ok p | PortRange a b => port_ok a ∧ port_ok b ∧ a ≤ b end.
Definition show_item (i : port_item) : string :=
  match i with PortOne p => itoa p | PortRange a b => itoa a +:+ "-" +:+ itoa b end.
Definition item_has (p : Z) (i : port_item) : bool :=
  match i with PortOne q => q =? p | PortRange a b => (a <=? p) && (p <=? b) end.

Lemma parse_port_ok s p : parseNodeFirewallPort s = Ok p ↔ atoi (trim_space s) = Some p ∧ port_ok p.
Proof.
  unfold parseNodeFirewallPort, port_ok. destruct (atoi (trim_space s)) as [q|]; [|naive_solver].
  destruct (_ || _) eqn:E; split; try done.
  - intros [[= ->] ?]. lia.
  - intros [= ->]. split; [done|lia].
  - intros [[= ->] ?]. done.
Qed.

Definition port_byte (a : ascii) : bool := is_digit a || Ascii.eqb a "-".

Lemma port_digits p : port_ok p → all_bytes is_digit (itoa p).
Proof.
  intros Hp. unfold all_bytes. apply Forall_forall. intros c Hc.
  destruct (itoa_bytes p c Hc) as [|E]; [done|]. subst c. exfalso.
  unfold itoa in Hc. destruct (Z.ltb_spec p 0); [unfold port_ok in *; lia|].
  apply show_digits_bytes in Hc as [Hc|Hc]; [done|by apply elem_of_nil in Hc].
Qed.

Lemma parse_port_itoa p : port_ok p → parseNodeFirewallPort (itoa p) = Ok p.
Proof.
  intros Hp. apply parse_port_ok. split; [|done].
  rewrite trim_space_no_space.
  - apply atoi_itoa. unfold port_ok, min_int64, max_int64 in *. lia.
  - eapply all_bytes_impl; [|by apply port_digits]. intros [[] [] [] [] [] [] [] []]; vm_compute; congruence.
Qed.

Lemma item_bytes i : item_ok i → all_bytes port_byte (show_item i).
Proof.
  assert (∀ p, port_ok p → all_bytes port_byte (itoa p)) as H.
  { intros p Hp. eapply all_bytes_impl; [|by apply port_digits]. unfold port_byte. by intros a ->. }
  destruct i as [p|a b]; simpl; [by apply H|]. intros (Ha & Hb & _).
  rewrite !all_bytes_app. split_and!; [by apply H|by repeat constructor|by apply H].
Qed.

Lemma port_byte_no_space a : port_byte a = true → no_space a = true.
Proof. destruct a as [[] [] [] [] [] [] [] []]; vm_compute; congruence. Qed.

Lemma show_item_nonempty i : show_item i ≠ "".
Proof.
  destruct i; simpl; [apply itoa_nonempty|]. intros [E _]%sapp_eq_nil. by destruct (itoa_nonempty from).
Qed.

Lemma cut_item i :
  item_ok i →
  cut_char "-" (show_item i) = match i with PortOne _ => None | PortRange a b => Some (itoa a, itoa b) end.
Proof.
  assert (∀ p, port_ok p → "-"%char ∉ bytes (itoa p)) as H.
  { intros p Hp. by eapply all_bytes_not_in; [apply port_digits|]. }
  destruct i as [p|a b]; simpl.
  - intros. by apply cut_char_none, H.
  - intros (Ha & _ & _). apply cut_char_app, H, Ha.
Qed.

(** A shown item is its own normal form. *)
Lemma normalize_item i : item_ok i → normalize_port_part (show_item i) = Ok (Some (show_item i)).
Proof.
  intros Hi. unfold normalize_port_part.
  rewrite trim_space_no_space by (eapply all_bytes_impl; [apply port_byte_no_space|by apply item_bytes]).
  destruct (String.eqb_spec (show_item i) "") as [E|_]; [by destruct (show_item_nonempty i)|].
  rewrite cut_item by done. destruct i as [p|a b]; cbn [show_item item_ok] in *.
  - by rewrite parse_port_itoa.
  - destruct Hi as (Ha & Hb & Hab). rewrite !parse_port_itoa by done. simpl.
    by replace (b <? a) with false by lia.
Qed.

(** A part that normalises denotes what [nodeFirewallPortsContain] reads in it. *)
Lemma normalize_part_spec part o :
  normalize_port_part part = Ok o →
  match o with
  | None => ∀ parts p, ports_contain_parts (part :: parts) p = ports_contain_parts parts p
  | Some t => ∃ i, item_ok i ∧ t = show_item i
      ∧ ∀ parts p, ports_contain_parts (part :: parts) p = item_has p i || ports_contain_parts parts p
  end.
Proof.
  unfold normalize_port_part. cbn [ports_contain_parts].
  destruct (trim_space part =s ""); [by intros [= <-]|].
  destruct (cut_char "-" (trim_space part)) as [[lo hi]|].
  - intros H. apply bind_ok_inv in H as (a & Ha & H). apply bind_ok_inv in H as (b & Hb & H).
    destruct (Z.ltb_spec b a); [done|]. injection H as <-. exists (PortRange a b).
    rewrite Ha, Hb. apply parse_port_ok in Ha as [_ Ha], Hb as [_ Hb].
    split; [done|]. split; [done|]. intros. simpl. by destruct (_ && _).
  - intros H. apply bind_ok_inv in H as (a & Ha & [= <-]). exists (PortOne a). rewrite Ha.
    apply parse_port_ok in Ha as [_ Ha]. split; [done|]. split; [done|]. intros. simpl. by destruct (_ =? _).
Qed.

Lemma normalize_parts_spec parts out :
  normalize_port_parts parts = Ok out →
  ∃ items, Forall item_ok items ∧ out = show_item <$> items
    ∧ ∀ p, ports_contain_parts parts p = existsb (item_has p) items.
Proof.
  revert out. induction parts as [|part parts IH]; intros out H.
  - injection H as <-. by exists [].
  - cbn [normalize_port_parts] in H. apply bind_ok_inv in H as (o & Ho & H).
    apply bind_ok_inv in H as (out' & Hout & [= <-]).
    destruct (IH _ Hout) as (items & Hi & -> & Hc). apply normalize_part_spec in Ho.
    destruct o as [t|].
    + destruct Ho as (i & Hok & -> & Hp). exists (i :: items). split; [by constructor|].
      split; [done|]. intros p. by rewrite Hp, Hc.
    + exists items. split; [done|]. split; [done|]. intros p. by rewrite Ho.
Qed.

Lemma normalize_items items :
  Forall item_ok items → normalize_port_parts (show_item <$> items) = Ok (show_item <$> items).
Proof.
  induction 1 as [|i items Hi Hitems IH]; [done|].
  change (show_item <$> i :: items) with (show_item i :: (show_item <$> items)).
  cbn [normalize_port_parts]. by rewrite normalize_item, bind_ret_l, IH by done.
Qed.

Lemma split_items items :
  items ≠ [] → Forall item_ok items → split_char "," (join "," (show_item <$> items)) = show_item <$> items.
Proof.
  intros Hne H. apply split_join; [by destruct items|]. apply Forall_fmap.
  eapply Forall_impl; [exact H|]. intros i Hi. simpl. by eapply all_bytes_not_in; [apply item_bytes|].
Qed.

(** The text of a normalised, non-empty port expression. *)
Definition show_items (items : list port_item) : string := join "," (show_item <$> items).

Definition ports_byte (a : ascii) : bool := port_byte a || Ascii.eqb a ",".

Lemma items_bytes items : Forall item_ok items → all_bytes ports_byte (show_items items).
Proof.
  intros H. apply all_bytes_join; [by repeat constructor|]. apply Forall_fmap.
  eapply Forall_impl; [exact H|]. intros i Hi. simpl. eapply all_bytes_impl; [|by apply item_bytes].
  unfold ports_byte. by intros a ->.
Qed.

Lemma show_items_nonempty items : items ≠ [] → show_items items ≠ "".
Proof.
  destruct items as [|i [|j items]]; [done|intros _; apply show_item_nonempty|].
  intros _ E. change (show_item i +:+ "," +:+ show_items (j :: items) = "") in E.
  apply sapp_eq_nil in E as [E _]. by destruct (show_item_nonempty i).
Qed.

Lemma items_trimmed items :
  Forall item_ok items → trim_space (to_lower (show_items items)) = show_items items ∧ trim_space (show_items items) = show_items items.
Proof.
  intros H%items_bytes. assert (trim_space (show_items items) = show_items items) as Ht.
  { apply trim_space_no_space. eapply all_bytes_impl; [|exact H].
    intros [[] [] [] [] [] [] [] []]; vm_compute; congruence. }
  split; [|done]. rewrite to_lower_no_upper; [done|]. eapply all_bytes_impl; [|exact H].
  intros [[] [] [] [] [] [] [] []]; vm_compute; congruence.
Qed.

Lemma items_port_any items : items ≠ [] → Forall item_ok items → show_items items ≠ "any" ∧ show_items items ≠ "*".
Proof.
  intros Hne H%items_bytes. split; intros E; rewrite E in H; inversion H; discriminate.
Qed.

Lemma contains_item i parts p :
  item_ok i → ports_contain_parts (show_item i :: parts) p = item_has p i || ports_contain_parts parts p.
Proof.
  intros Hi. cbn [ports_contain_parts].
  rewrite trim_space_no_space by (eapply all_bytes_impl; [apply port_byte_no_space|by apply item_bytes]).
  destruct (String.eqb_spec (show_item i) "") as [E|_]; [by destruct (show_item_nonempty i)|].
  rewrite cut_item by done. destruct i as [q|a b]; cbn [show_item item_ok item_has] in *.
  - rewrite parse_port_itoa by done. by destruct (_ =? _).
  - destruct Hi as (Ha & Hb & Hab). rewrite !parse_port_itoa by done. by destruct (_ && _).
Qed.

Lemma contains_items items p :
  Forall item_ok items → items ≠ [] → port_ok p →
  nodeFirewallPortsContain (show_items items) (itoa p) = existsb (item_has p) items.
Proof.
  intros H Hne Hp. unfold nodeFirewallPortsContain. rewrite (proj2 (items_trimmed items H)).
  destruct (String.eqb_spec (show_items items) "") as [E|_]; [by destruct (show_items_nonempty items)|].
  rewrite parse_port_itoa by done. unfold show_items. rewrite split_items by done.
  clear Hne. induction H as [|i items Hi Hitems IH]; [done|].
  change (show_item <$> i :: items) with (show_item i :: (show_item <$> items)).
  rewrite contains_item by done. simpl. by rewrite IH.
Qed.

(** What a successful normalisation returns. *)
Lemma normalize_ports_cases s t :
  normalizeNodeFirewallPorts s = Ok t →
  t = "" ∨ ∃ items, items ≠ [] ∧ Forall item_ok items ∧ t = show_items items
    ∧ ∀ p, ports_contain_parts (split_char "," (trim_space (to_lower s))) p = existsb (item_has p) items.
Proof.
  unfold normalizeNodeFirewallPorts. destruct (_ || _); [intros [= <-]; by left|].
  intros H. apply bind_ok_inv in H as (out & Hout & [= <-]).
  destruct (normalize_parts_spec _ _ Hout) as (items & Hi & -> & Hc).
  destruct items as [|i items]; [by left|]. right. exists (i :: items). done.
Qed.

Lemma normalize_show_items items :
  items ≠ [] → Forall item_ok items → normalizeNodeFirewallPorts (show_items items) = Ok (show_items items).
Proof.
  intros Hne H. unfold normalizeNodeFirewallPorts. rewrite (proj1 (items_trimmed items H)).
  destruct (String.eqb_spec (show_items items) "") as [E|_]; [by destruct (show_items_nonempty items)|].
  destruct (items_port_any items Hne H) as [Ha%String.eqb_neq Hs%String.eqb_neq]. rewrite Ha, Hs. simpl.
  unfold show_items at 1. by rewrite split_items, normalize_items by done.
Qed.

Lemma normal_ports_bytes s t : normalizeNodeFirewallPorts s = Ok t → all_bytes ports_byte t.
Proof.
  intros [->|(items & _ & H & -> & _)]%normalize_ports_cases; [apply all_bytes_nil|by apply items_bytes].
Qed.

Lemma safe_normal_ports s t : normalizeNodeFirewallPorts s = Ok t → safe t.
Proof.
  intros H%normal_ports_bytes. eapply all_bytes_impl; [|exact H].
  intros [[] [] [] [] [] [] [] []]; vm_compute; congruence.
Qed.

(** normalising a port expression gives a canonical text: it normalises to
    itself, and unless it is empty it admits exactly the ports the original
    (lower-cased and trimmed) expression admits. *)
Theorem ports_normal_form (s t : string) :
  normalizeNodeFirewallPorts s = Ok t →
  normalizeNodeFirewallPorts t = Ok t
  ∧ (t ≠ "" → ∀ p, port_ok p →
       nodeFirewallPortsContain t (itoa p) = nodeFirewallPortsContain (trim_space (to_lower s)) (itoa p)).
Proof.
  intros [->|(items & Hne & Hi & -> & Hc)]%normalize_ports_cases; [done|].
  split; [by apply normalize_show_items|]. intros _ p Hp. rewrite contains_items by done.
  unfold nodeFirewallPortsContain. rewrite trim_space_idemp, parse_port_itoa by done.
  destruct (String.eqb_spec (trim_space (to_lower s)) "") as [E|_]; [|by rewrite Hc].
  rewrite E in Hc. exfalso. destruct items as [|i items]; [done|].
  apply Forall_cons in Hi as [Hi _]. destruct i as [q|a b]; simpl in Hi.
  - specialize (Hc q). simpl in Hc. by rewrite Z.eqb_refl in Hc.
  - specialize (Hc a). simpl in Hc. by replace ((a <=? a) && (a <=? b)) with true in Hc by lia.
Qed.

Lemma ports_normal_form_witness :
  normalizeNodeFirewallPorts " 0022, 1000-2000" = Ok "22,1000-2000"
  ∧ normalizeNodeFirewallPorts "22,1000-2000" = Ok "22,1000-2000".
Proof.
  split; [reflexivity|]. apply (ports_normal_form " 0022, 1000-2000" "22,1000-2000"). reflexivity.
Defined.

(** An expression of separators only admits no port, but its normal form is
    the empty expression, which admits every port. *)
Lemma ports_of_commas :
  normalizeNodeFirewallPorts "," = Ok ""
  ∧ ∀ p, port_ok p → nodeFirewallPortsContain "," (itoa p) = false ∧ nodeFirewallPortsContain "" (itoa p) = true.
Proof.
  split; [reflexivity|]. intros p Hp. split; [|reflexivity].
  unfold nodeFirewallPortsContain. rewrite parse_port_itoa by done. reflexivity.
Qed.

(** ** CIDRs *)

Lemma prefix_string_not_any p : prefix_ok p → prefix_string p ≠ "" ∧ prefix_string p ≠ "any" ∧ prefix_string p ≠ "*".
Proof.
  intros Hp%ParsePrefix_string. split_and!; intros E; by rewrite E in Hp.
Qed.

Lemma prefix_no_space p : prefix_ok p → all_bytes no_space (prefix_string p).
Proof.
  intros (Ha & Hz & Hb). unfold prefix_string. rewrite !all_bytes_app.
  assert (∀ a, addr_byte a = true → no_space a = true) as Hns.
  { intros [[] [] [] [] [] [] [] []]; vm_compute; congruence. }
  assert (0 ≤ prefix_bits p < 1000) as Hb'.
  { destruct (prefix_addr p); simpl in Hb; lia. }
  split_and!; [|by repeat constructor|].
  - destruct (prefix_addr p) as [n|n z]; simpl in *.
    + eapply all_bytes_impl; [|by apply show_ipv4_bytes]. intros c Hc. apply Hns.
      unfold addr_byte. apply orb_true_iff in Hc as [->| ->]; [done|apply orb_true_r].
    + subst z. rewrite sapp_nil_r. eapply all_bytes_impl; [apply Hns|by apply addr_text_bytes].
  - eapply all_bytes_impl; [|by apply itoa_digits]. intros a Ha'. apply Hns. unfold addr_byte. by rewrite digit_hex.
Qed.

Lemma normalize_prefix_string p :
  prefix_ok p → Masked p = p → normalizeNodeFirewallCIDR (prefix_string p) = Ok (prefix_string p).
Proof.
  intros Hp Hm. unfold normalizeNodeFirewallCIDR. rewrite trim_space_no_space by by apply prefix_no_space.
  destruct (prefix_string_not_any p Hp) as (H1%String.eqb_neq & H2%String.eqb_neq & H3%String.eqb_neq).
  rewrite H1, H2, H3, ParsePrefix_string by done. simpl. by rewrite Hm.
Qed.

(** The prefix of one address. *)
Definition host_prefix (a : addr) : prefix := Prefix a (addr_width a).

Lemma mask_value_full w n : mask_value w w n = n.
Proof. unfold mask_value. rewrite Z.sub_diag, Z.mod_1_r. lia. Qed.

Lemma host_prefix_ok a : addr_ok a → zone_of a = "" → prefix_ok (host_prefix a) ∧ Masked (host_prefix a) = host_prefix a.
Proof.
  intros Ha Hz. split.
  - split; [done|]. split; [done|]. destruct a; simpl; lia.
  - destruct a as [n|n z]; unfold Masked, host_prefix; simpl in *; rewrite mask_value_full; by subst.
Qed.

Lemma host_prefix_string a :
  addr_string a +:+ (if Is4 a then "/32" else "/128") = prefix_string (host_prefix a).
Proof. by destruct a. Qed.

(** The prefix a CIDR field denotes. *)
Definition read_cidr (s : string) : option prefix :=
  match ParsePrefix (trim_space s) with
  | Some p => Some p
  | None => host_prefix <$> ParseAddr (trim_space s)
  end.

Lemma normalize_cidr_cases s c :
  normalizeNodeFirewallCIDR s = Ok c → zone_free s = true →
  c = "" ∨ ∃ p, read_cidr s = Some p ∧ prefix_ok p ∧ c = prefix_string (Masked p).
Proof.
  unfold normalizeNodeFirewallCIDR, read_cidr. destruct (_ || _); [intros [= <-]; by left|].
  destruct (ParsePrefix (trim_space s)) as [p|] eqn:Ep.
  { intros [= <-] _. right. exists p. by eapply ParsePrefix_ok in Ep. }
  destruct (ParseAddr (trim_space s)) as [a|] eqn:Ea; [|done]. intros [= <-] Hz. right.
  exists (host_prefix a).
  destruct (host_prefix_ok a) as [Hok Hm].
  { by eapply ParseAddr_ok. }
  { eapply ParseAddr_no_zone; [done|]. by apply zone_free_spec, zone_free_trim. }
  by rewrite Hm, host_prefix_string.
Qed.

Lemma safe_normal_cidr s c : normalizeNodeFirewallCIDR s = Ok c → zone_free s = true → safe c.
Proof.
  intros H Hz. destruct (normalize_cidr_cases s c H Hz) as [->|(p & _ & Hp & ->)]; [apply safe_nil|].
  by apply safe_prefix, Masked_ok.
Qed.

Lemma Contains_Masked p a : prefix_ok p → Contains (Masked p) a = Contains p a.
Proof.
  intros _. destruct p as [[n|n z] b]; unfold Contains, Masked; simpl; destruct a; simpl; try done;
    by rewrite mask_value_idemp.
Qed.

Lemma nftIPFamily_prefix p : prefix_ok p → nftIPFamily (prefix_string p) = nftFamilyForAddr (prefix_addr p).
Proof. intros Hp. unfold nftIPFamily. by rewrite ParsePrefix_string. Qed.

Lemma Masked_family p : nftFamilyForAddr (prefix_addr (Masked p)) = nftFamilyForAddr (prefix_addr p).
Proof. by destruct p as [[n|n z] b]. Qed.

(** Without a zone, a normalised CIDR is canonical: it normalises to itself,
    has the family of the address it was read from, and contains exactly the
    addresses of the prefix, or the one address, the field denotes. *)
Theorem cidr_normal_form (s c : string) :
  normalizeNodeFirewallCIDR s = Ok c → zone_free s = true → c ≠ "" →
  normalizeNodeFirewallCIDR c = Ok c
  ∧ ∃ p q, read_cidr s = Some p ∧ ParsePrefix c = Some q
      ∧ nftIPFamily c = nftFamilyForAddr (prefix_addr p)
      ∧ ∀ a, Contains q a = Contains p a.
Proof.
  intros H Hz Hne. destruct (normalize_cidr_cases s c H Hz) as [?|(p & Hr & Hp & ->)]; [done|].
  pose proof (Masked_ok p Hp) as Hm. split; [apply normalize_prefix_string; [done|apply Masked_idemp]|].
  exists p, (Masked p). split; [done|]. split; [by apply ParsePrefix_string|].
  split; [by rewrite nftIPFamily_prefix, Masked_family|]. intros a. by apply Contains_Masked.
Qed.

Lemma cidr_normal_form_witness :
  normalizeNodeFirewallCIDR "10.1.2.3/8 " = Ok "10.0.0.0/8"
  ∧ normalizeNodeFirewallCIDR "10.0.0.0/8" = Ok "10.0.0.0/8".
Proof.
  split; [reflexivity|]. apply (cidr_normal_form "10.1.2.3/8 " "10.0.0.0/8"); [reflexivity|reflexivity|done].
Defined.

(** ** Address-list entries *)

(** What an element of a set denotes: a masked prefix, an address, or a range. *)
Inductive element_ok : nodeFirewallListElement → Prop :=
| element_prefix p :
    prefix_ok p → Masked p = p →
    element_ok {| elt_Family := nftFamilyForAddr (prefix_addr p); elt_Value := prefix_string p |}
| element_addr a :
    addr_ok a → zone_of a = "" →
    element_ok {| elt_Family := nftFamilyForAddr a; elt_Value := addr_string a |}
| element_range a b :
    addr_ok a → addr_ok b → zone_of a = "" → zone_of b = "" →
    nftFamilyForAddr a = nftFamilyForAddr b → addr_compare a b ≠ Gt →
    element_ok {| elt_Family := nftFamilyForAddr a; elt_Value := addr_string a +:+ "-" +:+ addr_string b |}.

(** The type the entry is read with. *)
Definition entry_type (value valueType : string) : string :=
  entry_value_type (trim_space value) (to_lower (trim_space valueType)).

(** The four entry types, and the element each gives. *)
Lemma normalize_entry_cases value valueType e w :
  normalizeNodeFirewallAddressListEntry value valueType = Ok (Some e, w) → zone_free value = true →
  w = "" ∧ element_ok e.
Proof.
  unfold normalizeNodeFirewallAddressListEntry. fold (entry_type value valueType).
  destruct (trim_space value =s ""); [done|]. intros H Hz%zone_free_trim.
  destruct (String.eqb_spec (entry_type value valueType) "cidr") as [Ht|_].
  { destruct (ParsePrefix (trim_space value)) as [p|] eqn:Ep; [|done]. injection H as <- <-.
    apply ParsePrefix_ok, Masked_ok in Ep. pose proof (Masked_idemp p).
    split; [done|]. by apply (element_prefix (Masked p)). }
  destruct (String.eqb_spec (entry_type value valueType) "address") as [Ht|_].
  { destruct (ParseAddr (trim_space value)) as [a|] eqn:Ea; [|done]. injection H as <- <-.
    assert (zone_of a = "") by by eapply ParseAddr_no_zone, zone_free_spec.
    apply ParseAddr_ok in Ea. split; [done|]. by apply element_addr. }
  destruct (String.eqb_spec (entry_type value valueType) "range") as [Ht|_].
  2:{ by destruct (_ =s "dns"). }
  destruct (cut_char "-" (trim_space value)) as [[lo hi]|] eqn:Ec; [|done].
  destruct (zone_free_cut _ _ _ _ Ec Hz) as [Hzl%zone_free_trim Hzh%zone_free_trim].
  destruct (ParseAddr (trim_space lo)) as [a|] eqn:Ea; [|done].
  destruct (ParseAddr (trim_space hi)) as [b|] eqn:Eb; [|done].
  assert (zone_of a = "") by by eapply ParseAddr_no_zone, zone_free_spec.
  assert (zone_of b = "") by by eapply ParseAddr_no_zone, zone_free_spec.
  apply ParseAddr_ok in Ea, Eb.
  destruct (String.eqb_spec (nftFamilyForAddr a) (nftFamilyForAddr b)) as [Ef|]; [|done]. simpl in H.
  assert (addr_compare a b ≠ Gt ∧ Ok (Some {| elt_Family := nftFamilyForAddr a;
    elt_Value := addr_string a +:+ "-" +:+ addr_string b |}, "") = (Ok (Some e, w) : R _)) as [Hc He].
  { by destruct (addr_compare a b). }
  injection He as <- <-. split; [done|]. by apply element_range.
Qed.

Lemma safe_element e : element_ok e → safe (elt_Value e).
Proof.
  intros []; simpl; [by apply safe_prefix|by apply safe_addr|].
  apply safe_app; [by apply safe_addr|]. apply safe_app; [by apply safe_dec|by apply safe_addr].
Qed.

Lemma element_family e : element_ok e → elt_Family e = "ip" ∨ elt_Family e = "ip6".
Proof. intros []; simpl; unfold nftFamilyForAddr; destruct (Is6 _); auto. Qed.

(** The type under which an element reads back. *)
Inductive element_type : nodeFirewallListElement → string → Prop :=
| type_cidr p : element_type {| elt_Family := nftFamilyForAddr (prefix_addr p); elt_Value := prefix_string p |} "cidr"
| type_address a : element_type {| elt_Family := nftFamilyForAddr a; elt_Value := addr_string a |} "address"
| type_range a b :
    element_type {| elt_Family := nftFamilyForAddr a; elt_Value := addr_string a +:+ "-" +:+ addr_string b |} "range".

Lemma normalize_cidr_entry p :
  prefix_ok p → Masked p = p →
  normalizeNodeFirewallAddressListEntry (prefix_string p) "cidr"
  = Ok (Some {| elt_Family := nftFamilyForAddr (prefix_addr p); elt_Value := prefix_string p |}, "").
Proof.
  intros Hp Hm. unfold normalizeNodeFirewallAddressListEntry.
  rewrite trim_space_no_space by by apply prefix_no_space.
  destruct (String.eqb_spec (prefix_string p) "") as [E|_]; [by destruct (prefix_string_not_any p Hp)|].
  change (entry_value_type _ _) with "cidr". simpl. by rewrite ParsePrefix_string, Hm.
Qed.

Lemma normalize_address_entry a :
  addr_ok a → zone_of a = "" →
  normalizeNodeFirewallAddressListEntry (addr_string a) "address"
  = Ok (Some {| elt_Family := nftFamilyForAddr a; elt_Value := addr_string a |}, "").
Proof.
  intros Ha Hz. unfold normalizeNodeFirewallAddressListEntry. rewrite trim_addr by done.
  pose proof (ParseAddr_string a Ha) as Hp.
  destruct (String.eqb_spec (addr_string a) "") as [E|_]; [by rewrite E in Hp|].
  change (entry_value_type _ _) with "address". simpl. by rewrite Hp.
Qed.

Lemma normalize_range_entry a b :
  addr_ok a → addr_ok b → zone_of a = "" → zone_of b = "" →
  nftFamilyForAddr a = nftFamilyForAddr b → addr_compare a b ≠ Gt →
  normalizeNodeFirewallAddressListEntry (addr_string a +:+ "-" +:+ addr_string b) "range"
  = Ok (Some {| elt_Family := nftFamilyForAddr a; elt_Value := addr_string a +:+ "-" +:+ addr_string b |}, "").
Proof.
  intros Ha Hb Hza Hzb Hf Hc. unfold normalizeNodeFirewallAddressListEntry.
  rewrite trim_space_no_space.
  2:{ rewrite !all_bytes_app. split_and!; [|by repeat constructor|];
      (eapply all_bytes_impl; [apply addr_byte_no_space|by apply addr_text]). }
  pose proof (ParseAddr_string a Ha) as Hpa. pose proof (ParseAddr_string b Hb) as Hpb.
  destruct (String.eqb_spec (addr_string a +:+ "-" +:+ addr_string b) "") as [E|_].
  { apply sapp_eq_nil in E as [E _]. by rewrite E in Hpa. }
  change (entry_value_type _ _) with "range". cbn [String.eqb].
  change ("-" +:+ addr_string b) with (String "-" (addr_string b)).
  rewrite cut_char_app by (eapply all_bytes_not_in; [by apply addr_text|done]).
  simpl. rewrite !trim_addr, Hpa, Hpb, Hf, String.eqb_refl by done. by destruct (addr_compare a b).
Qed.

(** Without a zone, an accepted entry gives a well-formed element (a masked
    prefix, an address or an ordered range of one family), with its address
    family, and the element's text normalises to the same element. *)
Theorem entry_normal_form (value valueType : string) (e : nodeFirewallListElement) (w : string) :
  normalizeNodeFirewallAddressListEntry value valueType = Ok (Some e, w) → zone_free value = true →
  element_ok e ∧ w = ""
  ∧ ∃ ty, element_type e ty ∧ normalizeNodeFirewallAddressListEntry (elt_Value e) ty = Ok (Some e, "").
Proof.
  intros H Hz. destruct (normalize_entry_cases _ _ _ _ H Hz) as [-> He].
  split; [done|]. split; [done|]. destruct He as [p Hp Hm|a Ha Hza|a b Ha Hb Hza Hzb Hf Hc].
  - exists "cidr". split; [constructor|]. by apply normalize_cidr_entry.
  - exists "address". split; [constructor|]. by apply normalize_address_entry.
  - exists "range". split; [constructor|]. by apply normalize_range_entry.
Qed.

Lemma entry_normal_form_witness :
  normalizeNodeFirewallAddressListEntry "10.0.0.1 - 10.0.0.9" ""
    = Ok (Some {| elt_Family := "ip"; elt_Value := "10.0.0.1-10.0.0.9" |}, "")
  ∧ element_ok {| elt_Family := "ip"; elt_Value := "10.0.0.1-10.0.0.9" |}.
Proof.
  split; [reflexivity|]. apply (entry_normal_form "10.0.0.1 - 10.0.0.9" "" _ ""); reflexivity.
Defined.
