(* ===== verification/FirewallScript.v ===== *)
(** * The lines of the firewall script

    What the rules and lists a payload parses to satisfy, and from it that the
    rendered script is a sequence of commands on the managed table alone, as
    long as no address of the payload carries a zone. *)
From S2P Require Import Prelude GoStrings Strconv GoValue Sha256 Netip Firewall FirewallText FirewallFields.
From Stdlib Require Import Ascii.
From stdpp Require Import options.
Open Scope Z_scope.

(** ** Commands on the managed table *)

Inductive managed_line : string → Prop :=
| managed_delete : managed_line (words ["delete table"; firewallNFTFamily; firewallNFTTable])
| managed_add : managed_line (words ["add table"; firewallNFTFamily; firewallNFTTable])
| managed_chain chain hook policy :
    chain ∈ [firewallInputChain; firewallForwardChain; firewallOutputChain] →
    hook ∈ ["input"; "forward"; "output"] → policy ∈ ["accept"; "drop"] →
    managed_line (renderNodeFirewallChainAddLine chain hook policy)
| managed_set name type :
    ident name → type ∈ ["ipv4_addr"; "ipv6_addr"] →
    managed_line (words ["add set"; firewallNFTFamily; firewallNFTTable; name; "{ type"; type +:+ "; flags interval; }"])
| managed_element name body :
    ident name → safe body →
    managed_line (words ["add element"; firewallNFTFamily; firewallNFTTable; name; body])
| managed_rule chain text :
    chain ∈ [firewallInputChain; firewallForwardChain; firewallOutputChain] → safe text →
    managed_line (rule_line chain [text]).

(** The bytes of a managed line: no line feed among them. *)
Definition line_byte (a : ascii) : bool := safe_byte a || Ascii.eqb a ";".

Lemma safe_line s : safe s → all_bytes line_byte s.
Proof. apply all_bytes_impl. unfold line_byte. by intros a ->. Qed.

Lemma line_words l : Forall (all_bytes line_byte) l → all_bytes line_byte (words l).
Proof. apply all_bytes_join. by repeat constructor. Qed.

Lemma managed_line_bytes line : managed_line line → all_bytes line_byte line.
Proof.
  assert (∀ s, forallb line_byte (bytes s) = true → all_bytes line_byte s) as Hdec.
  { intros s. unfold all_bytes. rewrite forallb_forall, Forall_forall. intros H a ?. apply H. by apply list_elem_of_In. }
  intros [| |chain hook policy Hc Hh Hp|name type Hn Ht|name body Hn Hb|chain text Hc Ht];
    try (by apply Hdec); apply line_words;
    repeat (apply Forall_cons; split; [first [by apply Hdec|by apply safe_line|by apply safe_line, ident_safe|idtac]|]);
    try apply Forall_nil_2.
  all: try (apply Hdec; set_unfold; naive_solver).
Qed.

(** ** Rules *)

Definition chains : list string := ["input"; "forward"; "output"].

(** What parsing gives a rule, for zone-free CIDRs. *)
Record rule_ok (r : nodeFirewallRule) : Prop := {
  ok_chain : rule_Chain r ∈ chains;
  ok_action : rule_Action r ∈ ["accept"; "drop"; "reject"];
  ok_protocol : rule_Protocol r ∈ ["any"; "tcp"; "udp"; "icmp"; "icmpv6"];
  ok_src : safe (SrcCIDR r);
  ok_dst : safe (DstCIDR r);
  ok_sports : safe (SrcPorts r);
  ok_dports : safe (DstPorts r);
  ok_states : Forall (λ s, s ∈ ["new"; "established"; "related"; "invalid"]) (StateMatch r);
  ok_ports : SrcPorts r ≠ "" ∨ DstPorts r ≠ "" → rule_Protocol r = "tcp" ∨ rule_Protocol r = "udp" }.

(** The names of the sets are identifiers, the elements safe. *)
Record list_ok (l : nodeFirewallAddressList) : Prop := {
  ok_v4 : ident (NameV4 l);
  ok_v6 : ident (NameV6 l);
  ok_elements4 : Forall (λ s, safe s) (list_V4 l);
  ok_elements6 : Forall (λ s, safe s) (list_V6 l) }.

(** The lists a reference can find are the ordered ones. *)
Record lists_ok (ls : nodeFirewallAddressLists) : Prop := {
  ok_lists : Forall list_ok (Ordered ls);
  ok_refs : ∀ ref l, ByRef ls !! ref = Some l → l ∈ Ordered ls }.

Lemma safe_one_of s l : s ∈ l → forallb (λ s, forallb safe_byte (bytes s)) l = true → safe s.
Proof. intros Hs H. rewrite forallb_forall in H. by apply safe_dec, H, list_elem_of_In. Qed.

(** [l] is [base] with safe words after it. *)
Definition grows (base l : list string) : Prop := ∃ rest, l = base ++ rest ∧ Forall (λ s, safe s) rest.

Lemma safe_at s : safe s → safe ("@" +:+ s).
Proof. intros. apply safe_app; [by apply safe_dec|done]. Qed.

(** A list of words, each a literal or safe by a hypothesis. *)
Ltac safe_list :=
  repeat match goal with
  | |- Forall (λ s, all_bytes _ s) (_ :: _) => apply Forall_cons; split
  | |- Forall (λ s, all_bytes _ s) [] => apply Forall_nil_2
  end; try done; try (by apply safe_dec).

Lemma grows_refl base : grows base base.
Proof. exists []. by rewrite app_nil_r. Qed.
Lemma grows_app base l m : grows base l → Forall (λ s, safe s) m → grows base (l ++ m).
Proof. intros (rest & -> & H) Hm. exists (rest ++ m). by rewrite (assoc_L (++)), Forall_app. Qed.

Lemma safe_family cidr : safe (nftIPFamily cidr).
Proof. unfold nftIPFamily. repeat case_match; by apply safe_dec. Qed.

Lemma chain_name_in chain :
  chain ∈ chains → chain_name chain ∈ [firewallInputChain; firewallForwardChain; firewallOutputChain].
Proof. unfold chains, chain_name. intros H. set_unfold in H. destruct H as [->|[->|[->|[]]]]; set_solver. Qed.

Lemma render_line_managed rule family srcSet dstSet line :
  rule_ok rule → safe family → ident srcSet → ident dstSet →
  renderNodeFirewallRuleLine rule family srcSet dstSet = Ok line → managed_line line.
Proof.
  intros Hr Hf Hs%ident_safe Hd%ident_safe. unfold renderNodeFirewallRuleLine.
  destruct (chain_name (rule_Chain rule) =s ""); [done|].
  set (base := ["add"; "rule"; firewallNFTFamily; firewallNFTTable; chain_name (rule_Chain rule)]).
  assert (safe (rule_Protocol rule)) as Hp by by eapply safe_one_of; [apply ok_protocol|].
  assert (safe (rule_Action rule)) as Ha by by eapply safe_one_of; [apply ok_action|].
  set (p1 := match StateMatch rule with [] => base | states => _ end).
  assert (grows base p1) as G1.
  { unfold p1. destruct (StateMatch rule) as [|s states] eqn:E; [apply grows_refl|].
    apply grows_app; [apply grows_refl|]. safe_list. apply safe_set.
    rewrite <-E. eapply Forall_impl; [by apply ok_states|]. simpl. intros st Hst. by eapply safe_one_of. }
  clearbody p1.
  set (p2 := if negb (srcSet =s "") then _ else _). assert (grows base p2) as G2.
  { unfold p2. repeat case_match; try apply grows_app; try done; safe_list; first [by apply safe_at|apply safe_family|by apply ok_src]. }
  clearbody p2. clear p1 G1.
  set (p3 := if negb (dstSet =s "") then _ else _). assert (grows base p3) as G3.
  { unfold p3. repeat case_match; try apply grows_app; try done; safe_list; first [by apply safe_at|apply safe_family|by apply ok_dst]. }
  clearbody p3. clear p2 G2.
  set (p4 := if inLocal _ _ then _ else _). assert (grows base p4) as G4.
  { unfold p4. repeat case_match; repeat (apply grows_app || done); safe_list; apply safe_ports; (by apply ok_sports) || (by apply ok_dports). }
  clearbody p4. clear p3 G3.
  destruct (grows_app base p4 [rule_Action rule; "comment"; nftQuote (nodeFirewallRuleComment rule)] G4) as (rest & E & Hrest).
  { safe_list. apply safe_rule_comment. }
  rewrite E. intros [= <-]. destruct rest as [|w rest].
  - exfalso. apply (f_equal length) in E. destruct G4 as (r4 & -> & _). rewrite !length_app in E. simpl in E. lia.
  - change (managed_line (rule_line (chain_name (rule_Chain rule)) [join " " (w :: rest)])). constructor; [by apply chain_name_in, ok_chain|].
    apply all_bytes_join; [by apply safe_dec|done].
Qed.

Lemma rule_families_safe rule src dst fams :
  nodeFirewallRuleFamilies rule src dst = Ok fams → Forall (λ s, safe s) fams.
Proof.
  unfold nodeFirewallRuleFamilies. intros H. apply bind_ok_inv in H as (a & _ & H).
  apply bind_ok_inv in H as (b & _ & H). cbv zeta in H.
  destruct (decide _); [done|]. destruct (_ && _).
  - injection H as <-. safe_list.
  - injection H as <-. apply Forall_forall. intros f [_ Hf]%list_elem_of_filter.
    by eapply safe_one_of.
Qed.

Definition opt_ok (l : option nodeFirewallAddressList) : Prop := match l with Some l => list_ok l | None => True end.

Lemma set_name_ident l family : opt_ok l → ident (match l with Some l => setNameForFamily l family | None => "" end).
Proof.
  destruct l as [l|]; [|intros; apply all_bytes_nil]. intros Hl. unfold setNameForFamily.
  repeat case_match; [by apply ok_v4|by apply ok_v6|apply all_bytes_nil].
Qed.

Lemma render_families_managed rule src dst fams lines :
  rule_ok rule → opt_ok src → opt_ok dst → Forall (λ s, safe s) fams →
  render_families rule src dst fams = Ok lines → Forall managed_line lines.
Proof.
  intros Hr Hs Hd Hf. revert lines. induction Hf as [|family fams Hfam Hfams IH]; intros lines H.
  - injection H as <-. constructor.
  - cbn [render_families] in H. apply bind_ok_inv in H as (line & Hline & H).
    apply bind_ok_inv in H as (lines' & Hlines & [= <-]). specialize (IH _ Hlines).
    destruct (line =s ""); [done|]. constructor; [|done].
    eapply render_line_managed; [exact Hr|exact Hfam| | |exact Hline]; by apply set_name_ident.
Qed.

(** Resolving finds one of the lists. *)
Lemma resolve_ordered ls id key label l :
  (∀ ref l, ByRef ls !! ref = Some l → l ∈ Ordered ls) →
  resolveNodeFirewallList ls id key label = Ok (Some l) → l ∈ Ordered ls.
Proof.
  intros Hr. unfold resolveNodeFirewallList. destruct (_ && _); [done|].
  destruct (trim_space id =s "").
  - destruct (trim_space key =s ""); [done|]. destruct (ByRef ls !! trim_space key) eqn:E; [|done].
    intros [= <-]. by eapply Hr.
  - destruct (ByRef ls !! trim_space id) eqn:E1; [intros [= <-]; by eapply Hr|].
    destruct (trim_space key =s ""); [done|]. destruct (ByRef ls !! trim_space key) eqn:E; [|done].
    intros [= <-]. by eapply Hr.
Qed.

Lemma resolve_ok ls id key label o :
  lists_ok ls → resolveNodeFirewallList ls id key label = Ok o → opt_ok o.
Proof.
  intros Hls H. destruct o as [l|]; [|done]. pose proof (resolve_ordered _ _ _ _ _ (ok_refs _ Hls) H) as Hl.
  pose proof (ok_lists _ Hls) as Hall. rewrite Forall_forall in Hall. by apply Hall.
Qed.

Lemma render_rule_managed rule ls lines :
  rule_ok rule → lists_ok ls → renderNodeFirewallRule rule ls = Ok lines → Forall managed_line lines.
Proof.
  intros Hr Hls H. unfold renderNodeFirewallRule in H.
  apply bind_ok_inv in H as (src & Hsrc%map_err_ok & H).
  apply bind_ok_inv in H as (dst & Hdst%map_err_ok & H).
  apply bind_ok_inv in H as (fams & Hf%map_err_ok & H).
  eapply render_families_managed; [exact Hr| | | |exact H].
  - by eapply resolve_ok.
  - by eapply resolve_ok.
  - by eapply rule_families_safe.
Qed.

Lemma render_rules_managed rules ls lines :
  Forall rule_ok rules → lists_ok ls → render_rules rules ls = Ok lines → Forall managed_line lines.
Proof.
  intros Hr Hls. revert lines. induction Hr as [|rule rules Hrule Hrules IH]; intros lines H.
  - injection H as <-. constructor.
  - cbn [render_rules] in H. destruct (_ || _); [by apply IH|].
    apply bind_ok_inv in H as (l & Hl & H). apply bind_ok_inv in H as (ls' & Hls' & [= <-]).
    apply Forall_app. split; [by eapply render_rule_managed|by apply IH].
Qed.

(** ** The fixed lines *)

Lemma rule_line_managed chain rest :
  chain ∈ [firewallInputChain; firewallForwardChain; firewallOutputChain] → rest ≠ [] →
  Forall (λ s, safe s) rest → managed_line (rule_line chain rest).
Proof.
  intros Hc Hne Hs. destruct rest as [|w rest]; [done|].
  change (managed_line (rule_line chain [words (w :: rest)])). constructor; [done|by apply safe_words].
Qed.

Ltac fixed_rule := apply rule_line_managed; [set_solver|done|safe_list].

Lemma base_policy_in policy enforce : nftBasePolicy policy enforce ∈ ["accept"; "drop"].
Proof. unfold nftBasePolicy. repeat case_match; set_solver. Qed.

Lemma reset_managed defaults : Forall managed_line (renderNodeFirewallChainResetLines defaults).
Proof.
  unfold renderNodeFirewallChainResetLines.
  apply Forall_cons; split; [apply managed_delete|]. apply Forall_cons; split; [apply managed_add|].
  repeat (apply Forall_cons; split; [apply managed_chain; [set_solver|set_solver|apply base_policy_in]|]).
  apply Forall_nil_2.
Qed.

Lemma rejects_managed defaults : Forall managed_line (renderNodeFirewallDefaultRejectRules defaults).
Proof.
  unfold renderNodeFirewallDefaultRejectRules. destruct (negb _); [constructor|].
  repeat (apply Forall_app; split); case_match; repeat constructor; fixed_rule.
Qed.

Lemma list_set_managed name type values :
  ident name → type ∈ ["ipv4_addr"; "ipv6_addr"] → Forall (λ s, safe s) values →
  Forall managed_line (list_set_lines name type values).
Proof.
  intros Hn Ht Hv. unfold list_set_lines. destruct values as [|v values]; [constructor|].
  constructor; [by constructor|]. constructor; [|constructor]. constructor; [done|by apply safe_element_set].
Qed.

Lemma sets_managed ls : Forall list_ok (Ordered ls) → Forall managed_line (renderNodeFirewallAddressListSets ls).
Proof.
  intros H. unfold renderNodeFirewallAddressListSets. apply Forall_bind. eapply Forall_impl; [exact H|].
  intros l [H4 H6 E4 E6]. apply Forall_app. split; apply list_set_managed; done || set_solver.
Qed.

(** ** Parsed payloads *)

Section parsed.
Context (sprint : any → string).
Notation stringify := (stringify sprint).

(** No CIDR of a rule, and no value of an address-list entry, has a zone. *)
Definition no_zone (v : option any) : bool := zone_free (stringify v).
Definition rule_no_zone (item : any) : bool :=
  match item with AMap m => no_zone (m !! "src_cidr") && no_zone (m !! "dst_cidr") | _ => true end.
Definition entry_no_zone (item : any) : bool :=
  match item with AMap m => no_zone (m !! "value") | _ => true end.
Definition items_of (v : option any) : list any := match v with Some (ASlice l) => l | _ => [] end.
Definition list_no_zone (item : any) : bool :=
  match item with AMap m => forallb entry_no_zone (items_of (m !! "entries")) | _ => true end.

Lemma add_state_ok out value :
  Forall (λ s, s ∈ ["new"; "established"; "related"; "invalid"]) out →
  Forall (λ s, s ∈ ["new"; "established"; "related"; "invalid"]) (add_state out value).
Proof.
  intros H. unfold add_state, inLocal. destruct (negb _ || _) eqn:E; [done|]. split_bools.
  apply Forall_app. split; [done|]. apply Forall_singleton. by apply one_of_spec.
Qed.

Lemma states_ok raw :
  Forall (λ s, s ∈ ["new"; "established"; "related"; "invalid"]) (normalizeNodeFirewallStateMatch sprint raw).
Proof.
  unfold normalizeNodeFirewallStateMatch. set (values := match raw with Some _ => _ | None => _ end).
  assert (∀ out, Forall (λ s, s ∈ ["new"; "established"; "related"; "invalid"]) out →
    Forall (λ s, s ∈ ["new"; "established"; "related"; "invalid"]) (foldl add_state out values)) as H.
  { induction values as [|v values IH]; intros out Ho; [done|]. simpl. by apply IH, add_state_ok. }
  apply H. constructor.
Qed.

Lemma parse_rule_ok m idx r :
  parseNodeFirewallRule sprint m idx = Ok r → rule_no_zone (AMap m) = true → rule_ok r.
Proof.
  intros H [Hs Hd]%andb_true_iff. unfold parseNodeFirewallRule in H. cbv zeta in H. inv_binds. subst r.
  split; cbn [rule_Chain rule_Action rule_Protocol SrcCIDR DstCIDR SrcPorts DstPorts StateMatch].
  - by apply one_of_spec.
  - by apply one_of_spec.
  - by apply one_of_spec.
  - by eapply safe_normal_cidr.
  - by eapply safe_normal_cidr.
  - by eapply safe_normal_ports.
  - by eapply safe_normal_ports.
  - apply states_ok.
  - intros Hp. match goal with H : negb (_ && _ && _) = true |- _ => rename H into Hg end.
    rewrite negb_true_iff, !andb_false_iff, orb_false_iff, !negb_false_iff, !String.eqb_eq in Hg.
    naive_solver.
Qed.

Lemma parse_rules_Forall (P : nodeFirewallRule → Prop) idx items rules :
  (∀ m i r, AMap m ∈ items → parseNodeFirewallRule sprint m i = Ok r → P r) →
  parse_rules sprint idx items = Ok rules → Forall P rules.
Proof.
  revert idx rules. induction items as [|item items IH]; intros idx rules HP H.
  - injection H as <-. constructor.
  - cbn [parse_rules] in H. destruct item; try discriminate H.
    apply bind_ok_inv in H as (r & Hr & H). apply bind_ok_inv in H as (rs & Hrs & [= <-]).
    constructor; [eapply HP; [by left|exact Hr]|].
    eapply IH; [|exact Hrs]. intros m' i r' Hm. eapply HP. by right.
Qed.

Lemma parse_rules_ok raw rules w :
  parseNodeFirewallRules sprint raw = Ok (rules, w) → forallb rule_no_zone (items_of raw) = true →
  Forall rule_ok rules.
Proof.
  intros H Hz. destruct raw as [[]|]; try discriminate H; try (injection H as <- <-; constructor).
  cbn [parseNodeFirewallRules] in H. apply bind_ok_inv in H as (rs & Hrs & [= <- <-]).
  rewrite forallb_forall in Hz. rewrite isort_perm. eapply parse_rules_Forall; [|exact Hrs].
  intros m i r Hm Hr. eapply parse_rule_ok; [exact Hr|]. apply Hz. by apply list_elem_of_In.
Qed.

Lemma sort_strings_Forall P l : Forall P l → Forall P (sort_strings l).
Proof. intros H. unfold sort_strings. by rewrite isort_perm. Qed.

(** The loop over the entries keeps the list's names and adds safe elements. *)
Lemma parse_entries_ok label n l w entries l' w' :
  list_ok l → forallb entry_no_zone entries = true →
  parse_entries sprint label n l w entries = Ok (l', w') → list_ok l'.
Proof.
  intros Hl Hz. revert n l w Hl. induction entries as [|e entries IH]; intros n l w Hl H.
  - by injection H as <- <-.
  - cbn [parse_entries] in H. destruct e as [| | | | | | | | | | |m| | |]; try discriminate H.
    apply andb_true_iff in Hz as [Hv Hz]. specialize (IH Hz).
    destruct (negb _); [by eapply IH|].
    apply bind_ok_inv in H as ([o warning] & Ho%map_err_ok & H). cbv zeta in H. destruct o as [e|].
    + destruct (normalize_entry_cases _ _ _ _ Ho Hv) as [_ He]. eapply IH; [|exact H].
      destruct Hl as [H4 H6 E4 E6]. pose proof (safe_element e He).
      split; cbn [add_element NameV4 NameV6 list_V4 list_V6]; [done|done| |];
        [destruct (elt_Family e =s "ip")|destruct (elt_Family e =s "ip6")]; try done; apply Forall_app; auto.
    + eapply IH; [|exact H]. destruct (_ || _); [|done]. by destruct Hl.
Qed.

Lemma lists_ok_add ls id key l :
  lists_ok ls → list_ok l →
  lists_ok {| ByRef := (let refs := if id =s "" then ByRef ls else <[id:=l]> (ByRef ls) in
                        if key =s "" then refs else <[key:=l]> refs);
              Ordered := Ordered ls ++ [l] |}.
Proof.
  intros [Ho Hr] Hl. split; simpl.
  - apply Forall_app. split; [done|]. by apply Forall_singleton.
  - intros ref l' H. rewrite elem_of_app, list_elem_of_singleton.
    assert (ByRef ls !! ref = Some l' ∨ l' = l) as [?%Hr|]; [|by left|by right].
    destruct (key =s ""), (id =s ""); rewrite ?lookup_insert_Some in H; naive_solver.
Qed.

Lemma parse_lists_ok n ls w items ls' w' :
  lists_ok ls → forallb list_no_zone items = true →
  parse_lists sprint n ls w items = Ok (ls', w') → lists_ok ls'.
Proof.
  intros Hls Hz. revert n ls w Hls. induction items as [|item items IH]; intros n ls w Hls H.
  - by injection H as <- <-.
  - cbn [parse_lists] in H. destruct item as [| | | | | | | | | | |m| | |]; try discriminate H.
    apply andb_true_iff in Hz as [Hv Hz]. specialize (IH Hz).
    destruct (negb _); [by eapply IH|]. cbv zeta in H.
    destruct (_ && _); [by eapply IH|].
    apply bind_ok_inv in H as ([l warnings] & Hl & H). eapply IH; [|exact H].
    apply (lists_ok_add _ _ _ (sort_lists l) Hls).
    eapply parse_entries_ok in Hl; [| |exact Hv].
    + destruct Hl. by split; simpl; try done; apply sort_strings_Forall.
    + split; cbn [NameV4 NameV6 list_V4 list_V6]; try apply Forall_nil_2; rewrite all_bytes_app;
        (split; [apply ident_set_name|by apply ident_dec]).
Qed.

Lemma empty_lists_ok : lists_ok {| ByRef := ∅; Ordered := [] |}.
Proof. split; simpl; [constructor|]. intros ref l. by rewrite lookup_empty. Qed.

Lemma parse_address_lists_ok raw ls w :
  parseNodeFirewallAddressLists sprint raw = Ok (ls, w) → forallb list_no_zone (items_of raw) = true → lists_ok ls.
Proof.
  intros H Hz. destruct raw as [[]|]; try discriminate H; try (injection H as <- <-; apply empty_lists_ok).
  eapply parse_lists_ok; [apply empty_lists_ok|exact Hz|exact H].
Qed.
Lemma add_port_safe out raw :
  Forall (λ s, safe s) out → Forall (λ s, safe s) (addNodeFirewallPortValue sprint out raw).
Proof.
  intros H. unfold addNodeFirewallPortValue. destruct (parseNodeFirewallPort _); [|done].
  destruct (one_of _ _); [done|]. apply Forall_app. split; [done|]. apply Forall_singleton, safe_itoa.
Qed.

Lemma ssh_ports_safe raw : Forall (λ s, safe s) (nodeFirewallSSHBootstrapPorts sprint raw).
Proof.
  unfold nodeFirewallSSHBootstrapPorts. apply sort_strings_Forall.
  set (values := match raw with Some _ => _ | None => _ end).
  assert (∀ out, Forall (λ s, safe s) out → Forall (λ s, safe s) (foldl (addNodeFirewallPortValue sprint) out values)) as H.
  { induction values as [|v values IH]; intros out Ho; [done|]. simpl. by apply IH, add_port_safe. }
  apply H. constructor.
Qed.

Lemma ssh_rule_managed ports key l family :
  list_ok l → Forall (λ s, safe s) ports → key ∈ ["trusted_control_plane"; "trusted_operators"] →
  family ∈ ["ip"; "ip6"] → Forall managed_line (ssh_rule ports key l family).
Proof.
  intros Hl Hp Hk Hf. unfold ssh_rule. destruct (_ =s ""); [constructor|].
  apply Forall_singleton, rule_line_managed; [set_solver|done|].
  assert (safe family) by by eapply safe_one_of.
  safe_list.
  - apply safe_at, ident_safe, (set_name_ident (Some l)), Hl.
  - by apply safe_set.
  - apply elem_of_cons in Hk as [->|Hk]; [|apply list_elem_of_singleton in Hk as ->];
      apply elem_of_cons in Hf as [->|Hf]; [|apply list_elem_of_singleton in Hf as ->| |apply list_elem_of_singleton in Hf as ->];
      by apply safe_dec.
Qed.

Lemma ssh_rules_managed payload ls :
  lists_ok ls → Forall managed_line (renderNodeFirewallSSHBootstrapRules sprint payload ls).1.
Proof.
  intros Hls. unfold renderNodeFirewallSSHBootstrapRules. cbn [fst].
  set (ports := match nodeFirewallSSHBootstrapPorts _ _ with [] => ["22"] | _ :: _ => _ end).
  assert (Forall (λ s, safe s) ports) as Hp.
  { unfold ports. pose proof (ssh_ports_safe (payload !! "ssh_bootstrap_ports")).
    destruct (nodeFirewallSSHBootstrapPorts _ _); [|done]. safe_list. }
  clearbody ports. apply Forall_bind, Forall_forall. intros key Hk. unfold compose.
  destruct (ByRef ls !! key) as [l|] eqn:El; [|constructor].
  assert (list_ok l) as Hl.
  { apply (ok_refs _ Hls) in El. pose proof (ok_lists _ Hls) as H. rewrite Forall_forall in H. by apply H. }
  destruct (nodeFirewallListHasAnyCIDR l); [constructor|].
  apply Forall_bind, Forall_forall. intros family Hf. unfold compose. by apply ssh_rule_managed.
Qed.

End parsed.

(** ** The safety rules and the plan *)

Section plan.
Context (sprint : any → string) (quote : string → string) (url_Parse : string → option (string * string * string)).
Notation stringify := (stringify sprint).
Notation render := (renderNodeFirewallPlan sprint quote url_Parse).

(** The control-plane URL's host has no zone, and its port is digits, which is
    what [URL.Port] promises. *)
Definition control_plane_plain (payload : gomap) : bool :=
  match url_Parse (trim_space (stringify (payload !! "agent_control_plane_url"))) with
  | Some (_, host, port) => zone_free host && forallb is_digit (bytes port)
  | None => true
  end.

Definition payload_no_zone (payload : gomap) : bool :=
  forallb (rule_no_zone sprint) (items_of (payload !! "rules"))
  && forallb (list_no_zone sprint) (items_of (payload !! "address_lists"))
  && control_plane_plain payload.

Lemma control_plane_line_managed payload rules line w :
  control_plane_plain payload = true →
  renderNodeFirewallControlPlaneOutputRule sprint quote url_Parse payload rules = Ok (line, w) →
  line = "" ∨ managed_line line.
Proof.
  unfold control_plane_plain, renderNodeFirewallControlPlaneOutputRule. cbv zeta.
  destruct (_ =s ""); [done|]. destruct (url_Parse _) as [[[scheme host] port]|]; [|done].
  intros [Hz Hport]%andb_true_iff. destruct (host =s ""); [done|].
  intros H. apply bind_ok_inv in H as (u & _ & H).
  destruct (ParseAddr host) as [a|] eqn:Ea; [|destruct (hasExplicitControlPlaneOutputAllow _ _); [injection H as <- <-; by left|done]].
  injection H as <- <-. right. pose proof (safe_ParseAddr _ _ Ea Hz).
  apply rule_line_managed; [set_solver|done|]. safe_list.
  - destruct (Is6 a); by apply safe_dec.
  - apply safe_app; [done|]. destruct (Is6 a); by apply safe_dec.
  - destruct (port =s ""); [destruct (_ =s "http"); by apply safe_dec|].
    apply safe_dec. rewrite forallb_forall in Hport. apply forallb_forall. intros c Hc.
    unfold safe_byte. by rewrite is_digit_ident by auto.
Qed.

Lemma safety_managed defaults payload rules ls safety :
  lists_ok ls → control_plane_plain payload = true →
  renderNodeFirewallSafetyRules sprint quote url_Parse defaults payload rules ls = Ok safety →
  Forall managed_line (safety_Lines safety) ∧ safety_Count safety = Z.of_nat (length (safety_Lines safety)).
Proof.
  intros Hls Hcp. unfold renderNodeFirewallSafetyRules.
  destruct (negb (Enforce defaults)); [intros [= <-]; by split; [constructor|]|].
  set (i := if not_accept (Input defaults) then _ else _). assert (Forall managed_line i.1) as Hi.
  { unfold i. destruct (not_accept _); [|constructor]. pose proof (ssh_rules_managed sprint payload ls Hls) as Hs.
    destruct (renderNodeFirewallSSHBootstrapRules _ _ _) as [lines p]. simpl in Hs.
    apply Forall_app. split; [|done]. repeat (apply Forall_cons; split; [fixed_rule|]). constructor. }
  destruct i as [il ssh]. simpl in Hi.
  set (f := if not_accept (Forward defaults) then _ else _). assert (Forall managed_line f.1) as Hf.
  { unfold f. destruct (not_accept _); [|constructor]. simpl. apply Forall_singleton. fixed_rule. }
  destruct f as [fl fwd]. simpl in Hf.
  intros H. apply bind_ok_inv in H as ([ol ws] & Ho & [= <-]).
  cbn [safety_Lines safety_Count]. split; [|done].
  rewrite !Forall_app. split; [done|]. split; [done|].
  destruct (not_accept (Output defaults)); [|injection Ho as <- <-; constructor].
  apply bind_ok_inv in Ho as ([line w] & Hline & [= <- <-]).
  apply (Forall_app _ output_safety_lines). split; [repeat (apply Forall_cons; split; [fixed_rule|]); constructor|].
  destruct (String.eqb_spec line "") as [|Hne]; [constructor|]. apply Forall_singleton.
  by destruct (control_plane_line_managed _ _ _ _ Hcp Hline).
Qed.
(** The parts of a plan, in the order of the script. *)
Lemma plan_inv payload plan :
  render payload = Ok plan →
  ∃ defaults ls rules safety rendered w1 w2 w3,
    parseNodeFirewallDefaultPolicies sprint payload = Ok (defaults, w1)
    ∧ parseNodeFirewallAddressLists sprint (payload !! "address_lists") = Ok (ls, w2)
    ∧ parseNodeFirewallRules sprint (payload !! "rules") = Ok (rules, w3)
    ∧ renderNodeFirewallSafetyRules sprint quote url_Parse defaults payload rules ls = Ok safety
    ∧ render_rules rules ls = Ok rendered
    ∧ Script plan = join (String LF "") (renderNodeFirewallChainResetLines defaults
        ++ renderNodeFirewallAddressListSets ls ++ safety_Lines safety ++ rendered
        ++ renderNodeFirewallDefaultRejectRules defaults) +:+ String LF ""
    ∧ Count plan = Z.of_nat (length rendered)
    ∧ SystemRuleCount plan = safety_Count safety + Z.of_nat (length (renderNodeFirewallDefaultRejectRules defaults))
    ∧ Hash plan = sha256_hex (Script plan)
    ∧ DefaultPolicyEnforcement plan = (if Enforce defaults then "enforced" else "observe_only").
Proof.
  unfold renderNodeFirewallPlan. intros H.
  apply bind_ok_inv in H as ([defaults w1] & Hd & H).
  apply bind_ok_inv in H as ([ls w2] & Hl & H).
  apply bind_ok_inv in H as ([rules w3] & Hr & H).
  apply bind_ok_inv in H as (safety & Hs & H).
  apply bind_ok_inv in H as (rendered & Hre & H).
  exists defaults, ls, rules, safety, rendered, w1, w2, w3.
  do 5 (split; [done|]). injection H as <-. done.
Qed.

(** The lines of a script that no payload text can break. *)
Definition script_lines (script : string) : list string := split_char LF script.

Lemma join_lines lines :
  Forall managed_line lines → lines ≠ [] →
  script_lines (join (String LF "") lines +:+ String LF "") = lines ++ [""].
Proof.
  intros H Hne. replace (join (String LF "") lines +:+ String LF "") with (join (String LF "") (lines ++ [""])).
  - apply split_join; [by destruct lines|]. apply Forall_app. split.
    + eapply Forall_impl; [exact H|]. intros l Hl. by eapply all_bytes_not_in; [apply managed_line_bytes|].
    + apply Forall_singleton. by intros ?%elem_of_nil.
  - clear H. induction lines as [|l lines IH]; [done|]. destruct lines as [|l' lines].
    + simpl. by rewrite sapp_nil_r.
    + change (join (String LF "") ((l :: l' :: lines) ++ [""]))
        with (l +:+ String LF "" +:+ join (String LF "") ((l' :: lines) ++ [""])).
      rewrite IH by done. change (join (String LF "") (l :: l' :: lines))
        with (l +:+ String LF "" +:+ join (String LF "") (l' :: lines)). by rewrite !sapp_assoc.
Qed.

Lemma plan_lines payload plan :
  render payload = Ok plan → payload_no_zone payload = true →
  ∃ lines, script_lines (Script plan) = lines ++ [""] ∧ Forall managed_line lines.
Proof.
  intros H Hz. destruct (plan_inv _ _ H) as
    (defaults & ls & rules & safety & rendered & w1 & w2 & w3 & Hd & Hl & Hr & Hs & Hre & -> & _).
  unfold payload_no_zone in Hz. split_bools.
  assert (lists_ok ls) as Hls by by eapply parse_address_lists_ok.
  assert (Forall rule_ok rules) as Hrules by by eapply parse_rules_ok.
  eexists. assert (Forall managed_line (renderNodeFirewallChainResetLines defaults
    ++ renderNodeFirewallAddressListSets ls ++ safety_Lines safety ++ rendered
    ++ renderNodeFirewallDefaultRejectRules defaults)) as Hm.
  { rewrite !Forall_app. split; [apply reset_managed|]. split; [by apply sets_managed, ok_lists|].
    split; [by eapply safety_managed|]. split; [by eapply render_rules_managed|apply rejects_managed]. }
  split; [by apply join_lines|exact Hm].
Qed.
End plan.
