(* ===== verification/FirewallProps.v ===== *)
(** * What the firewall plan guarantees

    The theorems on [renderNodeFirewallPlan] as a whole, and the places where
    the rendered script is not what the payload says. *)
From S2P Require Import Prelude GoStrings Strconv GoValue Sha256 Netip Firewall FirewallText FirewallFields FirewallScript.
From Stdlib Require Import Ascii.
From stdpp Require Import options.
Open Scope Z_scope.

(** ** Sample payloads *)

(** The parameters as an example needs them: plain URLs of an IPv4 host. *)
Definition sample_sprint (v : any) : string := "".
Definition sample_quote (s : string) : string := s.
Definition sample_url (s : string) : option (string * string * string) :=
  if s =s "https://192.0.2.10" then Some ("https", "192.0.2.10", "") else None.

Notation sample_render := (renderNodeFirewallPlan sample_sprint sample_quote sample_url).

Definition entry (value : string) : any := AMap {[ "value" := AString value ]}.
Definition address_list (key : string) (values : list string) : any :=
  AMap (list_to_map [("key", AString key); ("entries", ASlice (entry <$> values))]).

(** An input rule for a list, and a strict policy on the input chain. *)
Definition sample_rule : any := AMap (list_to_map [
  ("id", AString "allow-web"); ("priority", AInt 10); ("chain", AString "input"); ("action", AString "accept");
  ("protocol", AString "tcp"); ("src_list_key", AString "office"); ("dst_ports", AString "80,443")]).

Definition sample_payload : gomap := list_to_map [
  ("rules", ASlice [sample_rule]);
  ("address_lists", ASlice [address_list "office" ["198.51.100.0/24"; "2001:db8::1"]]);
  ("default_output_policy", AString "drop");
  ("enforce_default_policy", ABool true);
  ("agent_control_plane_url", AString "https://192.0.2.10")].

Section props.
Context (sprint : any → string) (quote : string → string) (url_Parse : string → option (string * string * string)).
Notation render := (renderNodeFirewallPlan sprint quote url_Parse).

(** C5: with no zone in an address of the payload, a rendered script is a list of
    commands each of which concerns the managed table only; the payload's text
    cannot add, end or extend a command. *)
Theorem script_managed (payload : gomap) (plan : nodeFirewallPlan) :
  render payload = Ok plan → payload_no_zone sprint url_Parse payload = true →
  ∃ lines, script_lines (Script plan) = lines ++ [""] ∧ Forall managed_line lines.
Proof. apply plan_lines. Qed.
End props.

Lemma script_managed_witness :
  is_ok (sample_render sample_payload) = true
  ∧ ∃ plan lines, script_lines (Script plan) = lines ++ [""] ∧ Forall managed_line lines.
Proof.
  split; [vm_compute; reflexivity|].
  destruct (sample_render sample_payload) as [plan|] eqn:E.
  - exists plan. apply (script_managed sample_sprint sample_quote sample_url sample_payload plan E).
    vm_compute. reflexivity.
  - exfalso. assert (is_ok (sample_render sample_payload) = true) as H by (vm_compute; reflexivity).
    rewrite E in H. discriminate H.
Defined.

(** A rule whose source address carries a zone with a line feed in it. *)
Definition zone_payload : gomap := {[ "rules" := ASlice [AMap (list_to_map [
  ("chain", AString "input"); ("action", AString "accept"); ("src_cidr",
   AString ("fe80::1%x" +:+ String LF "flush ruleset #"))])] ]}.

(** The zone of an IPv6 address in a rule's CIDR field reaches the script
    unchanged: a payload that the agent accepts puts a command of its own,
    [flush ruleset], on a line of the script. *)
Lemma zone_injects_line :
  ∃ plan, sample_render zone_payload = Ok plan
    ∧ "flush ruleset #/128 accept comment "
        +:+ nftQuote "megavpn:firewall:1" ∈ script_lines (Script plan).
Proof.
  assert (match sample_render zone_payload with
    | Ok plan => one_of ("flush ruleset #/128 accept comment " +:+ nftQuote "megavpn:firewall:1") (script_lines (Script plan))
    | Err _ => false end = true) as H by (vm_compute; reflexivity).
  destruct (sample_render zone_payload) as [plan|]; [|discriminate H].
  exists plan. split; [done|]. by apply one_of_spec.
Qed.

(** ** Sets *)

(** The script's sets have the one that holds [l]'s addresses of [family]. *)
Definition declared (ls : nodeFirewallAddressLists) (l : nodeFirewallAddressList) (family : string) : Prop :=
  ∃ type, words ["add set"; firewallNFTFamily; firewallNFTTable; setNameForFamily l family; "{ type";
                 type +:+ "; flags interval; }"] ∈ renderNodeFirewallAddressListSets ls.

Lemma families_declared ls l family :
  l ∈ Ordered ls → family ∈ families l → declared ls l family.
Proof.
  intros Hl Hf. unfold declared, renderNodeFirewallAddressListSets, families in *.
  rewrite elem_of_union in Hf. destruct Hf as [Hf|Hf].
  - destruct (list_V4 l) as [|v vs] eqn:E4; [set_solver|]. apply elem_of_singleton in Hf as ->.
    exists "ipv4_addr". apply list_elem_of_bind. exists l. split; [|done]. rewrite E4. simpl. by left.
  - destruct (list_V6 l) as [|v vs] eqn:E6; [set_solver|]. apply elem_of_singleton in Hf as ->.
    exists "ipv6_addr". apply list_elem_of_bind. exists l. split; [|done]. apply elem_of_app. right.
    rewrite E6. simpl. by left.
Qed.

(** A list side leaves only the list's families. *)
Lemma side_families_spec label l cidr allowed allowed' :
  side_families label l cidr allowed = Ok allowed' →
  allowed' ⊆ allowed ∧ ∀ l', l = Some l' → allowed' ⊆ families l'.
Proof.
  unfold side_families. destruct l as [l|].
  - destruct (decide _); [done|]. intros [= <-]. unfold intersectNodeFirewallFamilies. set_solver.
  - intros [= <-]. unfold intersectNodeFirewallFamilies. destruct (cidr =s ""); set_solver.
Qed.

Lemma rule_families_lists rule src dst fams family :
  nodeFirewallRuleFamilies rule src dst = Ok fams → family ∈ fams →
  ∀ l, src = Some l ∨ dst = Some l → family ∈ families l.
Proof.
  unfold nodeFirewallRuleFamilies. intros H Hin l Hl.
  apply bind_ok_inv in H as (a & Ha & H). apply bind_ok_inv in H as (b & Hb & H). cbv zeta in H.
  apply side_families_spec in Ha as [_ Ha], Hb as [Hba Hb].
  assert (is_none src && is_none dst = false) as Hn by (destruct src, dst; naive_solver).
  destruct (decide _); [done|]. rewrite Hn in H. injection H as <-.
  apply list_elem_of_filter in Hin as [Hin _].
  assert (family ∈ b) as Hfb.
  { destruct (_ =s "icmpv6"), (_ =s "icmp"); unfold intersectNodeFirewallFamilies in Hin; set_solver. }
  destruct Hl; [apply (Ha l)|apply (Hb l)]; set_solver.
Qed.

Lemma parse_lists_refs sprint n ls w items ls' w' :
  (∀ ref l, ByRef ls !! ref = Some l → l ∈ Ordered ls) →
  parse_lists sprint n ls w items = Ok (ls', w') → ∀ ref l, ByRef ls' !! ref = Some l → l ∈ Ordered ls'.
Proof.
  revert n ls w. induction items as [|item items IH]; intros n ls w Hls H.
  - by injection H as <- <-.
  - cbn [parse_lists] in H. destruct item as [| | | | | | | | | | |m| | |]; try discriminate H.
    destruct (negb _); [by eapply IH|]. cbv zeta in H. destruct (_ && _); [by eapply IH|].
    apply bind_ok_inv in H as ([l warnings] & _ & H). eapply IH; [|exact H]. cbn [ByRef Ordered].
    intros ref l' Href. rewrite elem_of_app, list_elem_of_singleton.
    assert (ByRef ls !! ref = Some l' ∨ l' = sort_lists l) as [?%Hls|]; [|by left|by right].
    destruct (trim_space (stringify sprint (m !! "key")) =s ""), (trim_space (stringify sprint (m !! "id")) =s "");
      rewrite ?lookup_insert_Some in Href; naive_solver.
Qed.

Lemma parse_address_lists_refs sprint raw ls w :
  parseNodeFirewallAddressLists sprint raw = Ok (ls, w) → ∀ ref l, ByRef ls !! ref = Some l → l ∈ Ordered ls.
Proof.
  intros H. assert (∀ ref l, (∅ : gmap string nodeFirewallAddressList) !! ref = Some l → l ∈ []) as He
    by (intros ref l; by rewrite lookup_empty).
  destruct raw as [[]|]; try discriminate H; try (injection H as <- <-; exact He).
  eapply (parse_lists_refs sprint 1 {| ByRef := ∅; Ordered := [] |}); [exact He|exact H].
Qed.

(** every set a rendered rule matches against is declared in the script: a
    rule is rendered only for the families in which the lists it names have
    entries, and the lists are those of the payload. *)
Theorem rule_sets_declared (sprint : any → string) (raw : option any) (ls : nodeFirewallAddressLists)
    (w : list string) (rule : nodeFirewallRule) (src dst : option nodeFirewallAddressList)
    (fams : list string) (family : string) (l : nodeFirewallAddressList) :
  parseNodeFirewallAddressLists sprint raw = Ok (ls, w) →
  resolveNodeFirewallList ls (SrcListID rule) (SrcListKey rule) "source" = Ok src →
  resolveNodeFirewallList ls (DstListID rule) (DstListKey rule) "destination" = Ok dst →
  nodeFirewallRuleFamilies rule src dst = Ok fams → family ∈ fams → src = Some l ∨ dst = Some l →
  declared ls l family.
Proof.
  intros Hp Hsrc Hdst Hf Hin Hl. pose proof (parse_address_lists_refs _ _ _ _ Hp) as Hr.
  apply families_declared; [|by eapply rule_families_lists].
  destruct Hl as [-> | ->]; by eapply resolve_ordered.
Qed.

(** Two lists, a rule from one to the other. *)
Definition declared_payload : option any :=
  Some (ASlice [address_list "office" ["198.51.100.0/24"; "2001:db8::1"]; address_list "branch" ["203.0.113.9"]]).
Definition declared_rule : nodeFirewallRule :=
  {| rule_ID := "1"; rule_Priority := 1; rule_Chain := "forward"; rule_Action := "accept"; rule_Protocol := "any";
     SrcListID := ""; SrcListKey := "office"; DstListID := ""; DstListKey := "branch"; SrcCIDR := ""; DstCIDR := "";
     SrcPorts := ""; DstPorts := ""; StateMatch := []; rule_Comment := ""; rule_Enabled := true; rule_Status := "active" |}.

Lemma rule_sets_declared_witness :
  ∃ ls l, declared ls l "ip" ∧ list_V4 l = ["198.51.100.0/24"].
Proof.
  destruct (parseNodeFirewallAddressLists sample_sprint declared_payload) as [[ls w]|] eqn:E.
  2:{ exfalso. apply (f_equal is_ok) in E. vm_compute in E. discriminate E. }
  assert (parseNodeFirewallAddressLists sample_sprint declared_payload = Ok (ls, w)) as E2 by exact E.
  vm_compute in E. injection E as E _.
  eexists ls, _. split.
  - eapply (rule_sets_declared sample_sprint declared_payload ls w declared_rule); [exact E2| | | | |by left];
      subst ls; try (vm_compute; reflexivity). by apply list_elem_of_here.
  - reflexivity.
Defined.

(** A strict input policy with operators reachable over IPv4 only. *)
Definition ssh_payload : gomap := list_to_map [
  ("address_lists", ASlice [address_list "trusted_operators" ["198.51.100.0/24"]]);
  ("default_input_policy", AString "drop"); ("enforce_default_policy", ABool true)].

(** The SSH bootstrap rules do not look at which families a list has: with a
    list of IPv4 addresses only, the plan reports SSH access as preserved, and its
    script matches against the set [fwlist_trusted_operators_v6] that no line of
    it declares. *)
Lemma ssh_rule_undeclared_set :
  ∃ plan, sample_render ssh_payload = Ok plan
    ∧ SSHBootstrapPreserved plan = true
    ∧ rule_line firewallInputChain
        ["ct state { new, established } ip6 saddr @fwlist_trusted_operators_v6 tcp dport 22 accept comment";
         nftQuote "megavpn:firewall:system-ssh-bootstrap-trusted_operators-ip6"] ∈ script_lines (Script plan)
    ∧ Forall (λ line, strip_prefix "add set inet megavpn_firewall fwlist_trusted_operators_v6" line = None)
        (script_lines (Script plan)).
Proof.
  assert (match sample_render ssh_payload with
    | Ok plan => SSHBootstrapPreserved plan
        && one_of (rule_line firewallInputChain
          ["ct state { new, established } ip6 saddr @fwlist_trusted_operators_v6 tcp dport 22 accept comment";
           nftQuote "megavpn:firewall:system-ssh-bootstrap-trusted_operators-ip6"]) (script_lines (Script plan))
        && forallb (λ line, is_none (strip_prefix "add set inet megavpn_firewall fwlist_trusted_operators_v6" line))
             (script_lines (Script plan))
    | Err _ => false end = true) as H by (vm_compute; reflexivity).
  destruct (sample_render ssh_payload) as [plan|]; [|discriminate H]. split_bools.
  exists plan. split; [done|]. split; [done|]. split; [by apply one_of_spec|].
  apply Forall_forall. intros line Hl. rewrite forallb_forall in *.
  match goal with H : ∀ x, _ → is_none _ = true |- _ => specialize (H line) end.
  destruct (strip_prefix _ line); [|done]. exfalso. rewrite list_elem_of_In in Hl. naive_solver.
Qed.

(** Two lists whose keys differ in a separator, a rule that names one of them. *)
Definition collision_payload : gomap := list_to_map [
  ("rules", ASlice [AMap (list_to_map [
     ("id", AString "allow"); ("chain", AString "input"); ("action", AString "accept");
     ("src_list_key", AString "office_eu")])]);
  ("address_lists", ASlice [address_list "office_eu" ["198.51.100.1"]; address_list "office.eu" ["203.0.113.9"]])].

(** The keys [office_eu] and [office.eu], both valid keys of address lists,
    have one set name: the script fills the one set with the addresses of both
    lists, so a rule that names the first list also matches the second's. *)
Lemma set_names_collide :
  ∃ plan, sample_render collision_payload = Ok plan
    ∧ Forall (λ line, line ∈ script_lines (Script plan))
        ["add element inet megavpn_firewall fwlist_office_eu_v4 { 198.51.100.1 }";
         "add element inet megavpn_firewall fwlist_office_eu_v4 { 203.0.113.9 }";
         rule_line firewallInputChain ["ip saddr @fwlist_office_eu_v4 accept comment"; nftQuote "megavpn:firewall:allow"]].
Proof.
  assert (match sample_render collision_payload with
    | Ok plan => forallb (λ line, one_of line (script_lines (Script plan)))
        ["add element inet megavpn_firewall fwlist_office_eu_v4 { 198.51.100.1 }";
         "add element inet megavpn_firewall fwlist_office_eu_v4 { 203.0.113.9 }";
         rule_line firewallInputChain ["ip saddr @fwlist_office_eu_v4 accept comment"; nftQuote "megavpn:firewall:allow"]]
    | Err _ => false end = true) as H by (vm_compute; reflexivity).
  destruct (sample_render collision_payload) as [plan|]; [|discriminate H].
  exists plan. split; [done|]. apply Forall_forall. intros line Hl. rewrite forallb_forall in H.
  apply one_of_spec, H. by apply list_elem_of_In.
Qed.

(** ** Order *)

(** The order of application: priority, then identifier. *)
Definition rule_before (a b : nodeFirewallRule) : Prop :=
  rule_Priority a < rule_Priority b
  ∨ rule_Priority a = rule_Priority b ∧ string_lt (rule_ID b) (rule_ID a) = false.

Lemma rule_less_before a b : rule_less b a = false ↔ rule_before a b.
Proof.
  unfold rule_less, rule_before. destruct (Z.eqb_spec (rule_Priority b) (rule_Priority a)) as [E|Hne].
  - rewrite E. split; [by right|]. intros [?|[_ ?]]; [lia|done].
  - destruct (Z.ltb_spec (rule_Priority b) (rule_Priority a)); split; try done; [|by left; lia].
    intros [?|[? _]]; lia.
Qed.

Lemma rule_before_trans a b c : rule_before a b → rule_before b c → rule_before a c.
Proof.
  unfold rule_before. intros [?|[E1 H1]] [?|[E2 H2]]; [left; lia..|].
  right. split; [congruence|]. by eapply string_le_trans.
Qed.

Lemma rule_less_asym a b : rule_less a b = true → rule_less b a = false.
Proof.
  unfold rule_less. rewrite (Z.eqb_sym (rule_Priority b)).
  destruct (_ =? _); [apply string_lt_asym|]. intros. lia.
Qed.

(** The rule each item of the payload parses to, in the payload's order. *)
Lemma parse_rules_items sprint idx items rules :
  parse_rules sprint idx items = Ok rules →
  Forall2 (λ item rule, ∃ m i, item = AMap m ∧ parseNodeFirewallRule sprint m i = Ok rule) items rules.
Proof.
  revert idx rules. induction items as [|item items IH]; intros idx rules H.
  - injection H as <-. constructor.
  - cbn [parse_rules] in H. destruct item; try discriminate H.
    apply bind_ok_inv in H as (r & Hr & H). apply bind_ok_inv in H as (rs & Hrs & [= <-]).
    constructor; [eauto|by eapply IH].
Qed.

(** the rules of a payload are applied in the order of their priorities and,
    at equal priority, of their identifiers; each is the parse of one item of
    the payload, and no item is dropped or repeated. *)
Theorem rules_in_order (sprint : any → string) (items : list any) (rules : list nodeFirewallRule) (w : list string) :
  parseNodeFirewallRules sprint (Some (ASlice items)) = Ok (rules, w) →
  StronglySorted rule_before rules
  ∧ ∃ parsed, rules ≡ₚ parsed
      ∧ Forall2 (λ item rule, ∃ m i, item = AMap m ∧ parseNodeFirewallRule sprint m i = Ok rule) items parsed.
Proof.
  cbn [parseNodeFirewallRules]. intros H. apply bind_ok_inv in H as (parsed & Hp & [= <- <-]). split.
  - assert (ordered rule_less (isort rule_less parsed)) as Ho.
    { apply isort_ordered; [|apply rule_less_asym]. intros x y z. rewrite !rule_less_before. apply rule_before_trans. }
    unfold ordered in Ho. clear Hp. induction Ho as [|r l Hl IH Hr]; constructor; [done|].
    eapply Forall_impl; [exact Hr|]. intros r'. simpl. by rewrite rule_less_before.
  - exists parsed. split; [apply isort_perm|]. by eapply parse_rules_items.
Qed.

Lemma rules_in_order_witness :
  ∃ rules, StronglySorted rule_before rules ∧ rule_ID <$> rules = ["first"; "allow-web"].
Proof.
  destruct (parseNodeFirewallRules sample_sprint (Some (ASlice [sample_rule;
    AMap (<["id" := AString "first"]> (<["priority" := AInt 5]> (match sample_rule with AMap m => m | _ => ∅ end)))])))
    as [[rules w]|] eqn:E.
  2:{ exfalso. apply (f_equal is_ok) in E. vm_compute in E. discriminate E. }
  exists rules. split; [by apply (rules_in_order _ _ _ _ E)|].
  vm_compute in E. injection E as <- _. reflexivity.
Defined.

(** ** The default policies *)

Section policies.
Context (sprint : any → string) (quote : string → string) (url_Parse : string → option (string * string * string)).
Notation render := (renderNodeFirewallPlan sprint quote url_Parse).
Notation control_plane := (renderNodeFirewallControlPlaneOutputRule sprint quote url_Parse).

(** The port of the control-plane URL, its scheme's default if it has none. *)
Definition effective_port (scheme port : string) : string :=
  if port =s "" then (if to_lower scheme =s "http" then "80" else "443") else port.

(** The rule lets a new TCP connection to [port] out. *)
Definition lets_out (rule : nodeFirewallRule) (port : string) : Prop :=
  rule_Enabled rule = true ∧ rule_Status rule = "active" ∧ rule_Chain rule = "output" ∧ rule_Action rule = "accept"
  ∧ (rule_Protocol rule = "any" ∧ trim_space (DstPorts rule) = ""
     ∨ rule_Protocol rule = "tcp" ∧ nodeFirewallPortsContain (DstPorts rule) port = true)
  ∧ (StateMatch rule = [] ∨ "new" ∈ StateMatch rule).

(** One [continue] guard of a loop body that ended with true. *)
Ltac guard_passed H E :=
  cbv beta in H;
  match type of H with (if ?b then false else _) = true => destruct b eqn:E; [discriminate H|] end.

Lemma explicit_allow_lets_out rules port :
  hasExplicitControlPlaneOutputAllow rules port = true → ∃ rule, rule ∈ rules ∧ lets_out rule port.
Proof.
  unfold hasExplicitControlPlaneOutputAllow. rewrite existsb_exists. intros (rule & Hin & H).
  exists rule. split; [by apply list_elem_of_In|]. unfold lets_out.
  guard_passed H E1. guard_passed H E2. guard_passed H E3. guard_passed H E4. guard_passed H E5. clear H.
  rewrite !orb_false_iff, !negb_false_iff, !String.eqb_eq in E1. destruct E1 as [[[? ?] ?] ?].
  do 4 (split; [done|]). split.
  - destruct (String.eqb_spec (rule_Protocol rule) "any") as [Ea|_].
    + left. split; [done|]. simpl in E5. by rewrite negb_false_iff, String.eqb_eq in E5.
    + destruct (String.eqb_spec (rule_Protocol rule) "tcp") as [Et|_]; [|done].
      right. split; [done|]. simpl in E4. by apply negb_false_iff in E4.
  - destruct (StateMatch rule) as [|st states]; [by left|]. right.
    apply negb_false_iff in E3. unfold containsNodeFirewallState in E3.
    apply existsb_exists in E3 as (x & Hx & ->%String.eqb_eq). by apply list_elem_of_In.
Qed.

Lemma control_plane_spec payload rules line w :
  control_plane payload rules = Ok (line, w) →
  ∃ scheme host port0, url_Parse (trim_space (stringify sprint (payload !! "agent_control_plane_url"))) = Some (scheme, host, port0)
    ∧ ((∃ a, ParseAddr host = Some a
          ∧ line = control_plane_line (nftFamilyForAddr a) (addr_string a +:+ (if Is6 a then "/128" else "/32"))
                     (effective_port scheme port0))
       ∨ line = "" ∧ ∃ rule, rule ∈ rules ∧ lets_out rule (effective_port scheme port0)).
Proof.
  unfold renderNodeFirewallControlPlaneOutputRule. cbv zeta. destruct (_ =s ""); [done|].
  destruct (url_Parse _) as [[[scheme host] port0]|]; [|done]. destruct (host =s ""); [done|].
  fold (effective_port scheme port0).
  intros H. apply bind_ok_inv in H as (u & _ & H). exists scheme, host, port0. split; [done|].
  destruct (ParseAddr host) as [a|].
  - injection H as <- <-. left. by exists a.
  - destruct (hasExplicitControlPlaneOutputAllow _ _) eqn:E; [|done]. injection H as <- <-.
    right. split; [done|]. by apply explicit_allow_lets_out.
Qed.

Lemma render_rules_in rules ls lines rule :
  render_rules rules ls = Ok lines → rule ∈ rules → rule_Enabled rule = true → rule_Status rule = "active" →
  ∃ rl, renderNodeFirewallRule rule ls = Ok rl ∧ ∀ line, line ∈ rl → line ∈ lines.
Proof.
  intros H Hin He Hs. revert lines H. induction rules as [|r rules IH]; intros lines H; [by apply elem_of_nil in Hin|].
  cbn [render_rules] in H. apply elem_of_cons in Hin as [<-|Hin].
  - rewrite He, Hs in H. simpl in H. apply bind_ok_inv in H as (rl & Hrl & H).
    apply bind_ok_inv in H as (ls' & _ & [= <-]). exists rl. split; [done|]. intros. apply elem_of_app. by left.
  - destruct (_ || _); [by apply IH|].
    apply bind_ok_inv in H as (rl & Hrl & H). apply bind_ok_inv in H as (ls' & Hls & [= <-]).
    destruct (IH Hin _ Hls) as (rl' & ? & Hsub). exists rl'. split; [done|].
    intros. apply elem_of_app. right. by apply Hsub.
Qed.

(** The safety lines of a strict output policy are those of the chain, and the
    control plane's when its host is an address. *)
Lemma safety_output defaults payload rules ls safety :
  Enforce defaults = true → Output defaults ≠ "accept" →
  renderNodeFirewallSafetyRules sprint quote url_Parse defaults payload rules ls = Ok safety →
  ∃ line w, control_plane payload rules = Ok (line, w) ∧ (line ≠ "" → line ∈ safety_Lines safety).
Proof.
  intros He Ho. unfold renderNodeFirewallSafetyRules. rewrite He. cbn [negb].
  destruct (if not_accept (Input defaults) then _ else _) as [il ssh].
  destruct (if not_accept (Forward defaults) then _ else _) as [fl fwd].
  assert (not_accept (Output defaults) = true) as -> by by apply negb_true_iff, String.eqb_neq.
  intros H. apply bind_ok_inv in H as ([ol ws] & Hol & [= <-]).
  apply bind_ok_inv in Hol as ([line w] & Hline & [= <- <-]). exists line, w. split; [done|].
  intros Hne%String.eqb_neq. cbn [safety_Lines]. rewrite Hne, !elem_of_app. right; right.
  apply (elem_of_app output_safety_lines). right. by apply list_elem_of_singleton.
Qed.


(** A plan whose default policies are not enforced never drops by default: the
    three chains accept, and beside the operator's rules the script has only the
    table, the chains and the sets. *)
Theorem observe_only_accepts (payload : gomap) (plan : nodeFirewallPlan) :
  render payload = Ok plan → boolFromAny (payload !! "enforce_default_policy") = false →
  ∃ ls rendered,
    Script plan = join (String LF "")
      ([words ["delete table"; firewallNFTFamily; firewallNFTTable];
        words ["add table"; firewallNFTFamily; firewallNFTTable];
        renderNodeFirewallChainAddLine firewallInputChain "input" "accept";
        renderNodeFirewallChainAddLine firewallForwardChain "forward" "accept";
        renderNodeFirewallChainAddLine firewallOutputChain "output" "accept"]
       ++ renderNodeFirewallAddressListSets ls ++ rendered) +:+ String LF ""
    ∧ Count plan = Z.of_nat (length rendered) ∧ SystemRuleCount plan = 0
    ∧ DefaultPolicyEnforcement plan = "observe_only".
Proof.
  intros H Hb. destruct (plan_inv _ _ _ _ _ H) as
    (defaults & ls & rules & safety & rendered & w1 & w2 & w3 & Hd & _ & _ & Hs & _ & -> & -> & -> & _ & ->).
  assert (Enforce defaults = false) as He.
  { unfold parseNodeFirewallDefaultPolicies in Hd. inv_binds. rewrite Hb in Hd. simpl in Hd.
    by injection Hd as <- _. }
  unfold renderNodeFirewallSafetyRules in Hs. rewrite He in Hs. injection Hs as <-.
  exists ls, rendered. unfold renderNodeFirewallChainResetLines, renderNodeFirewallDefaultRejectRules, nftBasePolicy.
  rewrite He. cbn [negb safety_Lines safety_Count]. rewrite app_nil_l, app_nil_r. done.
Qed.
End policies.


Lemma observe_only_accepts_witness :
  ∃ plan, sample_render collision_payload = Ok plan ∧ SystemRuleCount plan = 0.
Proof.
  destruct (sample_render collision_payload) as [plan|] eqn:E.
  2:{ exfalso. assert (is_ok (sample_render collision_payload) = true) as H by (vm_compute; reflexivity).
      rewrite E in H. discriminate H. }
  exists plan. split; [done|].
  destruct (observe_only_accepts sample_sprint sample_quote sample_url collision_payload plan E) as (_ & _ & _ & _ & Hc & _);
    [vm_compute; reflexivity|exact Hc].
Defined.
