(* ===== verification/FirewallAgent.v ===== *)
(** * The node firewall job on the host

    The rest of [cmd/agent/firewall.go]: the job handler, the commands it runs
    through [nft] and the result it reports.  The host is a state [H] with two
    operations the handler is given: [runInstallCommand] (the exit code and
    the output of one command) and [exec_script] (running [nft -f -] on a
    script).  Everything is stated for every such host; [traced] adds a log of
    the commands to one, so the theorems can speak about what was run. *)
From S2P Require Import Prelude GoStrings Strconv GoValue Sha256 Netip Firewall FirewallText FirewallFields FirewallScript.
From Stdlib Require Import Ascii.
From stdpp Require Import options.
Open Scope Z_scope.

(** ** The text of the errors *)

Section texts.
(** The [%q] verb. *)
Context (quote : string → string).

Fixpoint fw_error_text (e : fw_error) : string :=
  match e with
  | MustBeAcceptDropReject => "must be accept, drop or reject"
  | InField field e => field +:+ ": " +:+ fw_error_text e
  | AddressListsMustBeArray => "firewall address_lists payload must be an array"
  | AddressListMustBeObject n => "firewall address-list " +:+ itoa n +:+ " must be an object"
  | EntryMustBeObject l n => "firewall address-list " +:+ l +:+ " entry " +:+ itoa n +:+ " must be an object"
  | InEntry l n e => "firewall address-list " +:+ l +:+ " entry " +:+ itoa n +:+ ": " +:+ fw_error_text e
  | RulesMustBeArray => "firewall rules payload must be an array"
  | RuleMustBeObject n => "firewall rule " +:+ itoa n +:+ " must be an object"
  | InRule id ((BadChain | BadAction | BadProtocol | PortsRequireTCPOrUDP | InField _ _) as e) =>
      "firewall rule " +:+ id +:+ " " +:+ fw_error_text e
  | InRule id e => "firewall rule " +:+ id +:+ ": " +:+ fw_error_text e
  | BadChain => "chain must be input, forward or output"
  | BadAction => "action must be accept, drop or reject"
  | BadProtocol => "protocol must be any, tcp, udp, icmp or icmpv6"
  | PortsRequireTCPOrUDP => "ports require tcp or udp protocol"
  | InvalidCIDR => "must be a valid IP address or CIDR"
  | InvalidEntryCIDR => "must be a valid CIDR"
  | InvalidAddress => "must be a valid IP address"
  | ValueRequired => "value is required"
  | RangeFormat => "address range must use start-end format"
  | RangeStart => "range start must be a valid IP address"
  | RangeEnd => "range end must be a valid IP address"
  | RangeFamilies => "range start and end must use the same IP family"
  | RangeReversed => "address range is reversed"
  | BadValueType => "value_type must be cidr, address, range or dns"
  | PortOutOfRange value => "port " +:+ quote value +:+ " must be between 1 and 65535"
  | PortRangeReversed part => "port range " +:+ quote part +:+ " is reversed"
  | ListNotPresent label ref => label +:+ " address-list " +:+ quote ref +:+ " is not present in payload"
  | ListEmpty label ref => label +:+ " address-list " +:+ quote ref +:+ " has no active IP/CIDR/range entries"
  | FamiliesDoNotOverlap => "source and destination address families do not overlap"
  | UnsupportedChain chain => "unsupported firewall chain " +:+ quote chain
  | StrictOutputNeedsURL =>
      "strict default output policy requires agent_control_plane_url to keep control-plane egress reachable"
  | StrictOutputInvalidURL => "strict default output policy requires a valid agent_control_plane_url"
  | StrictOutputPort e => "strict default output policy control-plane URL port: " +:+ fw_error_text e
  | StrictOutputNeedsAllow port host =>
      "strict default output policy requires control-plane URL host to be an IP address or an explicit active output accept rule for TCP port "
      +:+ port +:+ "; " +:+ quote host +:+ " is DNS"
  end.
End texts.

(** ** The host *)

(** A computation that reads and changes the host. *)
Definition hostM (H A : Type) : Type := H → A * H.
#[export] Instance hostM_ret {H} : MRet (hostM H) := λ A a h, (a, h).
#[export] Instance hostM_bind {H} : MBind (hostM H) := λ A B f m h, let '(a, h) := m h in f a h.

(** How [cmd.CombinedOutput] ends: with no error, an exit code, or another
    error; each with the output. *)
Inductive exec_result :=
| ExecDone (out : string)
| ExecExit (code : Z) (out : string)
| ExecFailed (err out : string).

Record host_ops (H : Type) := {
  runInstallCommand : list string → hostM H (Z * string);
  exec_script : string → hostM H exec_result }.
Arguments runInstallCommand {H} _ _ _.
Arguments exec_script {H} _ _ _.

(** The fields of a job and of the agent state the handler reads. *)
Record agent_job := { job_Type : string; job_Payload : gomap }.
Record agentState := { NodeID : string; ControlPlaneURL : string }.

(** *** A host with a log *)

Inductive event :=
| Command (args : list string)
| RanScript (script : string).

(** The host [ops] with the commands and scripts it was given, in order. *)
Definition traced {H} (ops : host_ops H) : host_ops (H * list event) :=
  {| runInstallCommand := λ args '(h, log),
       let '(r, h) := runInstallCommand ops args h in (r, (h, log ++ [Command args]));
     exec_script := λ script '(h, log),
       let '(r, h) := exec_script ops script h in (r, (h, log ++ [RanScript script])) |}.

Section handler.
Context (sprint : any → string) (quote : string → string) (url_Parse : string → option (string * string * string)).
Context {H : Type} (ops : host_ops H).

Notation stringify := (stringify sprint).
Notation renderNodeFirewallPlan := (renderNodeFirewallPlan sprint quote url_Parse).
Notation error_text := (fw_error_text quote).
Notation hostM := (hostM H).
Notation run args := (runInstallCommand ops args).

Definition firewallPayloadWithAgentSafetyContext (payload : gomap) (st : agentState) : gomap :=
  if (trim_space (stringify (payload !! "agent_control_plane_url")) =s "")
     && negb (trim_space (ControlPlaneURL st) =s "")
  then <["agent_control_plane_url" := AString (ControlPlaneURL st)]> payload
  else payload.

(** The output and the error text, if any. *)
Definition runNFTScript (script : string) : hostM (string * option string) :=
  r ← exec_script ops script;
  mret match r with
       | ExecDone out => (out, None)
       | ExecExit code out =>
           (out, Some ("nft apply failed with exit code " +:+ itoa code +:+ ": " +:+ firstLine out))
       | ExecFailed err out => (out, Some err)
       end.

Definition firewall_chains : list string := [firewallInputChain; firewallForwardChain; firewallOutputChain].

(** The chain loop of [ensureFirewallNFTChains]. *)
Fixpoint ensure_chains (specs : list (string * string)) : hostM (option string) :=
  match specs with
  | [] => mret None
  | (chain, hook) :: specs =>
      '(code, _) ← run ["nft"; "list"; "chain"; firewallNFTFamily; firewallNFTTable; chain];
      if code =? 0 then ensure_chains specs
      else
        '(code, out) ← run ["nft"; "add"; "chain"; firewallNFTFamily; firewallNFTTable; chain; "{"; "type";
          "filter"; "hook"; hook; "priority"; "filter"; ";"; "policy"; "accept"; ";"; "}"];
        if code =? 0 then ensure_chains specs
        else mret (Some ("create nft chain " +:+ chain +:+ " failed: " +:+ firstLine out))
  end.

Definition ensureFirewallNFTChains : hostM (option string) :=
  let specs := [(firewallInputChain, "input"); (firewallForwardChain, "forward"); (firewallOutputChain, "output")] in
  '(code, out) ← run ["nft"; "list"; "table"; firewallNFTFamily; firewallNFTTable];
  if code =? 0 then ensure_chains specs
  else
    '(addCode, addOut) ← run ["nft"; "add"; "table"; firewallNFTFamily; firewallNFTTable];
    if addCode =? 0 then ensure_chains specs
    else mret (Some ("create nft table failed: " +:+ firstLine (first [addOut; out]))).

Fixpoint cleanup_chains (chains : list string) : hostM (option string) :=
  match chains with
  | [] => mret None
  | chain :: chains =>
      '(code, _) ← run ["nft"; "list"; "chain"; firewallNFTFamily; firewallLegacyNFTTable; chain];
      if negb (code =? 0) then cleanup_chains chains
      else
        '(code, out) ← run ["nft"; "flush"; "chain"; firewallNFTFamily; firewallLegacyNFTTable; chain];
        if negb (code =? 0) then mret (Some ("flush legacy nft chain " +:+ chain +:+ " failed: " +:+ firstLine out))
        else
          '(code, out) ← run ["nft"; "delete"; "chain"; firewallNFTFamily; firewallLegacyNFTTable; chain];
          if negb (code =? 0) then mret (Some ("delete legacy nft chain " +:+ chain +:+ " failed: " +:+ firstLine out))
          else cleanup_chains chains
  end.

Definition cleanupLegacyFirewallNFTChains : hostM (option string) := cleanup_chains firewall_chains.

(** The keys the results of a preview and of an apply share. *)
Definition plan_result (plan : nodeFirewallPlan) (applied : bool) : gomap :=
  list_to_map [
    ("applied", ABool applied);
    ("rule_count", AInt (Count plan));
    ("system_rule_count", AInt (SystemRuleCount plan));
    ("rendered_hash", AString (Hash plan));
    ("warnings", AStrings (Warnings plan));
    ("address_list_counts", AMaps (AddressListCounts plan));
    ("address_group_rendered_entry_count", AInt (AddressGroupRenderedEntryCount plan));
    ("address_group_ignored_dns_entry_count", AInt (AddressGroupIgnoredDNSEntries plan));
    ("address_group_ignored_dns_count", AInt (AddressGroupIgnoredDNSEntries plan));
    ("default_policy_enforcement", AString (DefaultPolicyEnforcement plan));
    ("ssh_bootstrap_preserved", ABool (SSHBootstrapPreserved plan));
    ("control_plane_egress_preserved", ABool (ControlPlaneEgressPreserved plan));
    ("forward_egress_preserved", ABool (ForwardEgressPreserved plan))].

Definition nodeFirewallResultPayload (plan : nodeFirewallPlan) (applied : bool) (output : string) : gomap :=
  let result := <["script" := AString (Script plan)]> (plan_result plan applied) in
  if output =s "" then result else <["output" := AString (truncate output 4000)]> result.

Definition disableNodeFirewall : hostM gomap :=
  let result : gomap := list_to_map [
    ("message", AString "managed firewall disabled");
    ("status", AString "disabled");
    ("managed_table", AString (firewallNFTFamily +:+ " " +:+ firewallNFTTable));
    ("default_policy_enforcement", AString "disabled");
    ("rule_count", AInt 0);
    ("system_rule_count", AInt 0)] in
  err ← cleanupLegacyFirewallNFTChains;
  let result := match err with
                | Some text => <["legacy_cleanup_warning" := AString text]> result
                | None => result
                end in
  '(code, out) ← run ["nft"; "list"; "table"; firewallNFTFamily; firewallNFTTable];
  if negb (code =? 0) then
    mret (<["output" := AString (truncate out 4000)]> (<["already_disabled" := ABool true]> result))
  else
    '(code, out) ← run ["nft"; "delete"; "table"; firewallNFTFamily; firewallNFTTable];
    let result := <["delete_exit_code" := AInt code]> (<["output" := AString (truncate out 4000)]> result) in
    mret (if code =? 0 then result
          else <["error" := AString ("managed firewall table delete failed: " +:+ firstLine out)]>
                 (<["status" := AString "failed"]> result)).

Definition failed_at (stage text : string) : gomap :=
  {[ "error" := AString text; "stage" := AString stage ]}.

(** The apply case. *)
Definition apply_firewall (payload : gomap) : hostM (string * gomap) :=
  match renderNodeFirewallPlan payload with
  | Err e => mret ("failed", failed_at "render" (error_text e))
  | Ok plan =>
      err ← cleanupLegacyFirewallNFTChains;
      match err with
      | Some text => mret ("failed", failed_at "legacy_cleanup" text)
      | None =>
          err ← ensureFirewallNFTChains;
          match err with
          | Some text => mret ("failed", failed_at "ensure_chains" text)
          | None =>
              '(out, err) ← runNFTScript (Script plan);
              let result := <["output" := AString (truncate out 4000)]> (plan_result plan (is_none err)) in
              mret match err with
                   | Some text => ("failed", <["error" := AString text]> result)
                   | None => ("succeeded", result)
                   end
          end
      end
  end.

Definition handleNodeFirewallJob (j : agent_job) (st : agentState) : hostM (string * gomap) :=
  let nodeID := trim_space (stringify (job_Payload j !! "node_id")) in
  if (nodeID =s "") || negb (nodeID =s NodeID st) then
    mret ("failed", {[ "error" := AString "firewall job node_id does not match agent state";
                       "node_id" := AString nodeID ]})
  else
    let payload := firewallPayloadWithAgentSafetyContext (job_Payload j) st in
    if job_Type j =s "node.firewall.preview" then
      mret match renderNodeFirewallPlan payload with
           | Err e => ("failed", failed_at "render" (error_text e))
           | Ok plan => ("succeeded", nodeFirewallResultPayload plan false "")
           end
    else if job_Type j =s "node.firewall.observe" then
      '(code, out) ← run ["nft"; "list"; "table"; firewallNFTFamily; firewallNFTTable];
      let result : gomap := {[ "observed" := ABool (code =? 0); "output" := AString (truncate out 4000) ]} in
      mret (if code =? 0 then ("succeeded", result)
            else ("failed", <["error" := AString "nft table is not available"]> result))
    else if job_Type j =s "node.firewall.disable" then
      result ← disableNodeFirewall;
      mret (if stringify (result !! "status") =s "disabled" then ("succeeded", result) else ("failed", result))
    else if job_Type j =s "node.firewall.apply" then apply_firewall payload
    else mret ("failed", {[ "error" := AString "unsupported firewall job type" ]}).
End handler.

(** ** What a job may do to the host *)

(** The commands on the managed table, and on the chains an earlier release
    kept in the legacy table. *)
Definition own_command (args : list string) : Prop :=
  match args with
  | ["nft"; "list"; "table"; f; t] | ["nft"; "add"; "table"; f; t] | ["nft"; "delete"; "table"; f; t] =>
      f = firewallNFTFamily ∧ t = firewallNFTTable
  | ["nft"; "list"; "chain"; f; t; c] =>
      f = firewallNFTFamily ∧ (t = firewallNFTTable ∨ t = firewallLegacyNFTTable) ∧ c ∈ firewall_chains
  | "nft" :: "add" :: "chain" :: f :: t :: c :: _ => f = firewallNFTFamily ∧ t = firewallNFTTable ∧ c ∈ firewall_chains
  | ["nft"; "flush"; "chain"; f; t; c] | ["nft"; "delete"; "chain"; f; t; c] =>
      f = firewallNFTFamily ∧ t = firewallLegacyNFTTable ∧ c ∈ firewall_chains
  | _ => False
  end.

Definition own_event (e : event) : Prop :=
  match e with Command args => own_command args | RanScript _ => True end.

(** An event that only reads. *)
Definition reads (e : event) : Prop :=
  match e with Command ("nft" :: "list" :: _) => True | _ => False end.

Section logs.
Context {H A : Type}.
Notation M A := (hostM (H * list event) A).

(** [m] extends the log, with events of [P] only. *)
Definition logs_only {A} (P : event → Prop) (m : M A) : Prop :=
  ∀ h log, ∃ a h' new, m (h, log) = (a, (h', log ++ new)) ∧ Forall P new.

Lemma logs_ret P (a : A) : logs_only P (mret a).
Proof. intros h log. exists a, h, []. by rewrite app_nil_r. Qed.

Lemma logs_bind {B} P (m : M A) (f : A → M B) :
  logs_only P m → (∀ a, logs_only P (f a)) → logs_only P (m ≫= f).
Proof.
  intros Hm Hf h log. destruct (Hm h log) as (a & h1 & n1 & E1 & H1).
  destruct (Hf a h1 (log ++ n1)) as (b & h2 & n2 & E2 & H2).
  exists b, h2, (n1 ++ n2). unfold mbind, hostM_bind. rewrite E1, E2, <-(assoc_L (++)).
  by rewrite Forall_app.
Qed.

Lemma logs_weaken (P Q : event → Prop) (m : M A) : (∀ e, P e → Q e) → logs_only P m → logs_only Q m.
Proof.
  intros Hw Hm h log. destruct (Hm h log) as (a & h' & n & E & Hn). exists a, h', n.
  split; [done|]. by eapply Forall_impl.
Qed.
End logs.

Lemma logs_run {H} (ops : host_ops H) (P : event → Prop) args :
  P (Command args) → logs_only P (runInstallCommand (traced ops) args).
Proof.
  intros HP h log. simpl. destruct (runInstallCommand ops args h) as [r h'] eqn:E.
  exists r, h', [Command args]. by rewrite Forall_singleton.
Qed.

Lemma logs_script {H} (ops : host_ops H) (P : event → Prop) script :
  P (RanScript script) → logs_only P (runNFTScript (traced ops) script).
Proof.
  intros HP h log. unfold runNFTScript, mbind, hostM_bind, traced. simpl.
  destruct (exec_script ops script h) as [r h'] eqn:E.
  eexists _, h', [RanScript script]. by rewrite Forall_singleton.
Qed.

#[local] Hint Resolve logs_ret logs_run logs_script : core.

(** Walk a computation: its binds, commands and branches. *)
Ltac logs_walk :=
  repeat match goal with
  | |- logs_only _ (mbind _ _) => apply logs_bind
  | |- logs_only _ (let '(_, _) := ?x in _) => destruct x
  | |- logs_only _ (match ?x with _ => _ end) => destruct x eqn:?
  | |- ∀ _, _ => intros ?
  | |- logs_only _ (mret _) => apply logs_ret
  | |- logs_only _ (runInstallCommand (traced _) _) => apply logs_run
  end.

(** The commands of the helpers, under any invariant that holds of them. *)
Lemma cleanup_logs {H} (ops : host_ops H) (P : event → Prop) chains :
  (∀ c sub, c ∈ chains → sub ∈ ["list"; "flush"; "delete"] →
     P (Command ["nft"; sub; "chain"; firewallNFTFamily; firewallLegacyNFTTable; c])) →
  logs_only P (cleanup_chains (traced ops) chains).
Proof.
  induction chains as [|c chains IH]; intros HP; cbn [cleanup_chains]; [apply logs_ret|].
  assert (logs_only P (cleanup_chains (traced ops) chains)).
  { apply IH. intros. apply HP; [by apply list_elem_of_further|done]. }
  logs_walk; auto; apply HP; set_solver.
Qed.

Definition chain_specs : list (string * string) :=
  [(firewallInputChain, "input"); (firewallForwardChain, "forward"); (firewallOutputChain, "output")].

Lemma ensure_logs {H} (ops : host_ops H) (P : event → Prop) specs :
  (∀ c hook, (c, hook) ∈ specs →
     P (Command ["nft"; "list"; "chain"; firewallNFTFamily; firewallNFTTable; c])
     ∧ P (Command ["nft"; "add"; "chain"; firewallNFTFamily; firewallNFTTable; c; "{"; "type"; "filter"; "hook";
                   hook; "priority"; "filter"; ";"; "policy"; "accept"; ";"; "}"])) →
  logs_only P (ensure_chains (traced ops) specs).
Proof.
  induction specs as [|[c hook] specs IH]; intros HP; cbn [ensure_chains]; [apply logs_ret|].
  assert (logs_only P (ensure_chains (traced ops) specs)).
  { apply IH. intros. apply HP. by apply list_elem_of_further. }
  destruct (HP c hook) as [Hl Ha]; [by left|]. by logs_walk; auto.
Qed.
Definition is_command (e : event) : Prop := match e with Command _ => True | RanScript _ => False end.

Lemma cleanup_own {H} (ops : host_ops H) :
  logs_only (λ e, own_event e ∧ is_command e) (cleanupLegacyFirewallNFTChains (traced ops)).
Proof.
  apply cleanup_logs. intros c sub Hc Hsub. split; [|done].
  repeat (apply elem_of_cons in Hsub as [->|Hsub]; [by simpl; auto|]). by apply elem_of_nil in Hsub.
Qed.

Lemma ensure_own {H} (ops : host_ops H) :
  logs_only (λ e, own_event e ∧ is_command e) (ensureFirewallNFTChains (traced ops)).
Proof.
  unfold ensureFirewallNFTChains. fold chain_specs.
  assert (logs_only (λ e, own_event e ∧ is_command e) (ensure_chains (traced ops) chain_specs)).
  { apply ensure_logs. intros c hook Hin.
    assert (c ∈ firewall_chains) by (unfold chain_specs, firewall_chains in *; set_solver). simpl. auto 10. }
  logs_walk; auto; done.
Qed.

Lemma disable_logs {H} (ops : host_ops H) :
  logs_only (λ e, own_event e ∧ is_command e) (disableNodeFirewall (traced ops)).
Proof.
  unfold disableNodeFirewall. apply logs_bind; [apply cleanup_own|]. logs_walk; done.
Qed.

Section job.
Context (sprint : any → string) (quote : string → string) (url_Parse : string → option (string * string * string)).
Context {H : Type} (ops : host_ops H).

Notation handle := (handleNodeFirewallJob sprint quote url_Parse (traced ops)).

(** [j] is for this node. *)
Definition addressed (j : agent_job) (st : agentState) : Prop :=
  let nodeID := trim_space (stringify sprint (job_Payload j !! "node_id")) in nodeID ≠ "" ∧ nodeID = NodeID st.

(** [s] is the script of the plan of [j]. *)
Definition planned (j : agent_job) (st : agentState) (plan : nodeFirewallPlan) : Prop :=
  renderNodeFirewallPlan sprint quote url_Parse
    (firewallPayloadWithAgentSafetyContext sprint (job_Payload j) st) = Ok plan.

Definition job_type_apply (j : agent_job) : bool := job_Type j =s "node.firewall.apply".

(** When an event is called for by the job. *)
Definition called_for (j : agent_job) (st : agentState) (e : event) : Prop :=
  addressed j st
  ∧ match e with
    | RanScript s => job_Type j = "node.firewall.apply" ∧ ∃ plan, planned j st plan ∧ s = Script plan
    | Command _ =>
        reads e ∨ job_Type j = "node.firewall.disable"
        ∨ job_Type j = "node.firewall.apply" ∧ ∃ plan, planned j st plan
    end.

(** Everything a job does is on the firewall's own objects, and called for. *)
Lemma job_logs j st : logs_only (λ e, own_event e ∧ called_for j st e) (handle j st).
Proof.
  unfold handleNodeFirewallJob.
  destruct (_ || _) eqn:Ea; [apply logs_ret|].
  assert (addressed j st) as Hj.
  { split_bools. unfold addressed. rewrite <-String.eqb_neq, <-String.eqb_eq. done. }
  destruct (String.eqb_spec (job_Type j) "node.firewall.preview"); [apply logs_ret|].
  destruct (String.eqb_spec (job_Type j) "node.firewall.observe") as [E|].
  { logs_walk. split; [done|]. split; [done|]. by left. }
  destruct (String.eqb_spec (job_Type j) "node.firewall.disable") as [E|].
  { apply logs_bind; [|intros; apply logs_ret]. eapply logs_weaken; [|apply disable_logs].
    intros [args|] [Ho Hc]; [|done]. split; [done|]. split; [done|]. by right; left. }
  destruct (String.eqb_spec (job_Type j) "node.firewall.apply") as [E|]; [|apply logs_ret].
  unfold apply_firewall. destruct (renderNodeFirewallPlan _ _ _ _) as [plan|] eqn:Ep; [|apply logs_ret].
  assert (∀ e, own_event e ∧ is_command e → own_event e ∧ called_for j st e) as Hcmd.
  { intros [args|] [Ho Hc]; [|done]. split; [done|]. split; [done|]. right; right. eauto. }
  apply logs_bind; [eapply logs_weaken; [exact Hcmd|apply cleanup_own]|].
  intros [?|]; [apply logs_ret|].
  apply logs_bind; [eapply logs_weaken; [exact Hcmd|apply ensure_own]|].
  intros [?|]; [apply logs_ret|].
  apply logs_bind; [|intros [? ?]; apply logs_ret].
  apply logs_script. split; [done|]. split; [done|]. split; [done|]. exists plan. done.
Qed.

(** The events of a job on a host, and its status and result. *)
Definition job_events (j : agent_job) (st : agentState) (h : H) : list event := (handle j st (h, [])).2.2.
Definition job_status (j : agent_job) (st : agentState) (h : H) : string := (handle j st (h, [])).1.1.
Definition job_result (j : agent_job) (st : agentState) (h : H) : gomap := (handle j st (h, [])).1.2.

Lemma job_events_spec j st h : Forall (λ e, own_event e ∧ called_for j st e) (job_events j st h).
Proof.
  unfold job_events. destruct (job_logs j st h []) as (r & h' & new & E & Hn). rewrite E. exact Hn.
Qed.

(** A firewall job, whatever its payload and however the host answers, only
    runs [nft] on the managed table and on the chains an earlier release kept in
    the legacy table. *)
Theorem firewall_job_own_objects (j : agent_job) (st : agentState) (h : H) :
  Forall own_event (job_events j st h).
Proof. eapply Forall_impl; [apply job_events_spec|]. by intros e [? _]. Qed.

(** C35: a firewall job changes the host only if it is addressed to this node, and
    then only to disable the firewall or to apply a plan that rendered; the only
    script it runs is that plan's. *)
Theorem firewall_job_called_for (j : agent_job) (st : agentState) (h : H) :
  Forall (called_for j st) (job_events j st h).
Proof. eapply Forall_impl; [apply job_events_spec|]. by intros e [_ ?]. Qed.

Lemma run_traced_split {A B} (m : hostM (H * list event) A) (f : A → hostM (H * list event) B) x r x' :
  (m ≫= f) x = (r, x') → ∃ a y, m x = (a, y) ∧ f a y = (r, x').
Proof. unfold mbind, hostM_bind. destruct (m x) as [a y]. eauto. Qed.

(** An apply job that reports success ran the script of its plan as its last
    act on the host, and reports it as applied under that script's hash. *)
Theorem apply_success_ran_script (j : agent_job) (st : agentState) (h : H) :
  job_type_apply j = true → job_status j st h = "succeeded" →
  ∃ plan, planned j st plan
    ∧ last (job_events j st h) = Some (RanScript (Script plan))
    ∧ job_result j st h !! "applied" = Some (ABool true)
    ∧ job_result j st h !! "rendered_hash" = Some (AString (sha256_hex (Script plan))).
Proof.
  intros Ht%String.eqb_eq. unfold job_status, job_events, job_result.
  destruct (handle j st (h, [])) as [[status result] [h' log]] eqn:E. simpl. intros ->.
  unfold handleNodeFirewallJob in E. rewrite Ht in E. destruct (_ || _); [discriminate E|].
  cbn [String.eqb Ascii.eqb Bool.eqb andb] in E. unfold apply_firewall in E.
  destruct (renderNodeFirewallPlan _ _ _ _) as [plan|] eqn:Ep; [|discriminate E]. exists plan. split; [done|].
  apply run_traced_split in E as ([?|] & y1 & _ & E); [discriminate E|].
  apply run_traced_split in E as ([?|] & y2 & _ & E); [discriminate E|].
  apply run_traced_split in E as ([out err] & [h3 log3] & Er & E).
  destruct (plan_inv _ _ _ _ _ Ep) as (? & ? & ? & ? & ? & ? & ? & ? & _ & _ & _ & _ & _ & _ & _ & _ & Hh & _).
  destruct err as [?|]; [discriminate E|]. injection E as <- <- <-.
  destruct y2 as [h2 log2]. unfold runNFTScript, mbind, hostM_bind in Er. simpl in Er.
  destruct (exec_script ops (Script plan) h2) as [r h4]. injection Er as _ <- <-.
  split; [by rewrite last_snoc|]. rewrite !lookup_insert_ne by done. by rewrite <-Hh.
Qed.
End job.

(** ** A sample host *)

(** The table exists and every command and script succeeds; the state counts the calls. *)
Definition sample_host : host_ops nat :=
  {| runInstallCommand := λ _ n, ((0, ""), S n); exec_script := λ _ n, (ExecDone "", S n) |}.

Definition sample_job : agent_job :=
  {| job_Type := "node.firewall.apply"; job_Payload := {[ "node_id" := AString "n1" ]} |}.
Definition sample_state : agentState := {| NodeID := "n1"; ControlPlaneURL := "" |}.

Lemma apply_success_ran_script_witness :
  job_type_apply sample_job = true
  ∧ job_result (λ _, "") id (λ _, None) sample_host sample_job sample_state 0%nat !! "applied" = Some (ABool true).
Proof.
  split; [reflexivity|].
  destruct (apply_success_ran_script (λ _, "") id (λ _, None) sample_host sample_job sample_state 0%nat)
    as (plan & _ & _ & Ha & _); [reflexivity|vm_compute; reflexivity|exact Ha].
Defined.
