(* ===== verification/JsonImage.v ===== *)
(** * What a receiver decodes from a payload

    A job's payload is written with [json.Marshal] and read with
    [json.Unmarshal] into a [map[string]any]: every number becomes a float64,
    every slice a [[]any], every map a [map[string]any], and text that is not
    UTF-8 is repaired rune by rune.  [json_image] is that round trip for the
    values the code builds its payloads from; the value of a type with a method
    of its own is a parameter. *)
From stdpp Require Import gmap.
From S2P Require Import Prelude GoStrings Strconv GoValue.
From Stdlib Require Import Ascii.
From stdpp Require Import options.
Open Scope Z_scope.

Definition json_string (s : string) : string := encode_all (runes s).

(** The float64 nearest to an integer, ties to even. *)
Definition float_of_Z (z : Z) : spec_float := binary_normalize 53 1024 z 0 false.

Section image.
Context (other : any → any).

Fixpoint json_image (v : any) : any :=
  match v with
  | AInt z | AInt32 z | AInt64 z => AFloat64 (float_of_Z z)
  | AString s => AString (json_string s)
  | AStrings l => ASlice ((λ s, AString (json_string s)) <$> l)
  | AInts l => ASlice ((λ z, AFloat64 (float_of_Z z)) <$> l)
  | ASlice l => ASlice (json_image <$> l)
  | AMap m => AMap (json_image <$> m)
  | AMapOfMaps m => AMap ((λ m, AMap (json_image <$> m)) <$> m)
  | AMaps l => ASlice ((λ m, AMap (json_image <$> m)) <$> l)
  | AStringer _ | AOther _ => other v
  | ANil | ABool _ | AFloat64 _ => v
  end.

Definition json_map (m : gomap) : gomap := json_image <$> m.
End image.

(** ** Text survives when it is UTF-8 *)

Lemma json_string_ascii s : all_bytes ascii_byte s → json_string s = s.
Proof. intros H. unfold json_string. by rewrite runes_ascii, encode_all_bytes. Qed.

Lemma json_string_itoa z : json_string (itoa z) = itoa z.
Proof.
  apply json_string_ascii. apply Forall_forall. intros c Hc.
  destruct (itoa_bytes z c Hc) as [Hd| ->]; [|done].
  unfold is_digit in Hd. unfold ascii_byte. lia.
Qed.

(** ** Integers below 2^53 survive *)

Lemma iter_xO m d : Z.pos (Pos.iter xO m d) = Z.pos m * 2 ^ Z.pos d.
Proof.
  induction d as [|d IH] using Pos.peano_ind; [simpl; lia|].
  rewrite Pos.iter_succ, Pos2Z.inj_succ, Z.pow_succ_r by lia.
  change (Z.pos (Pos.iter xO m d)~0) with (2 * Z.pos (Pos.iter xO m d)). rewrite IH. lia.
Qed.

Lemma digits_xO m d : digits2_pos (Pos.iter xO m d) = (digits2_pos m + d)%positive.
Proof.
  induction d as [|d IH] using Pos.peano_ind; [simpl; by rewrite Pos.add_1_r|].
  rewrite Pos.iter_succ. simpl. by rewrite IH, Pos.add_succ_r.
Qed.

Lemma digits_bound m : 2 ^ (Z.pos (digits2_pos m) - 1) ≤ Z.pos m < 2 ^ Z.pos (digits2_pos m).
Proof.
  induction m as [m IH|m IH|]; simpl; [| |done];
    rewrite Pos2Z.inj_succ, Z.pow_succ_r by lia;
    replace (Z.succ (Z.pos (digits2_pos m)) - 1) with (Z.succ (Z.pos (digits2_pos m) - 1)) by lia;
    rewrite Z.pow_succ_r by lia; lia.
Qed.

(** A mantissa whose exponent is already the right one is not rounded. *)
Lemma round_aux_exact m e :
  fexp 53 1024 (Z.pos (digits2_pos m) + e) = e → e ≤ 971 →
  binary_round_aux 53 1024 false (Z.pos m) e loc_Exact = S754_finite false m e.
Proof.
  intros Hf He. unfold binary_round_aux, shr_fexp. simpl Zdigits2. rewrite Hf, Z.sub_diag. simpl.
  rewrite Hf, Z.sub_diag. cbn [shr shr_record_of_loc shr_m].
  by replace (e <=? 1024 - 53) with true by lia.
Qed.

(** The mantissa is shifted left to 53 bits. *)
Lemma float_of_pos_cases m : Z.pos m < 2 ^ 53 →
  (∃ d, float_of_Z (Z.pos m) = S754_finite false (Pos.iter xO m d) (Z.neg d))
  ∨ float_of_Z (Z.pos m) = S754_finite false m 0.
Proof.
  intros Hm. pose proof (digits_bound m) as [Hlo _].
  assert (Z.pos (digits2_pos m) ≤ 53) as Hd.
  { apply Z.lt_succ_r, Z.nle_gt. intros H.
    assert (2 ^ 53 ≤ 2 ^ (Z.pos (digits2_pos m) - 1)) by (apply Z.pow_le_mono_r; lia). lia. }
  unfold float_of_Z, binary_normalize, binary_round, shl_align.
  rewrite Z.add_0_r, Z.sub_0_r.
  assert (fexp 53 1024 (Z.pos (digits2_pos m)) = Z.pos (digits2_pos m) - 53) as Hf.
  { unfold fexp, emin. lia. }
  rewrite Hf. destruct (Z.pos (digits2_pos m) - 53) as [|p|p] eqn:E.
  - right. apply round_aux_exact; [|lia]. by rewrite Z.add_0_r, Hf.
  - lia.
  - left. exists p. apply round_aux_exact; [|lia]. rewrite digits_xO.
    unfold fexp, emin. lia.
Qed.

Lemma float_is_Z z : 0 ≤ z < 2 ^ 53 → float_is (float_of_Z z) z = true.
Proof.
  intros [H0 Hz]. destruct z as [|m|m]; [done| |lia].
  destruct (float_of_pos_cases m Hz) as [[d ->]| ->]; unfold float_is, whole_mag, trunc_mag.
  - change (0 <=? Z.neg d) with false. cbv iota. rewrite iter_xO.
    change (- Z.neg d) with (Z.pos d).
    rewrite Z.mod_mul, Z.div_mul by (apply Z.pow_nonzero; lia). by rewrite !Z.eqb_refl.
  - change (0 <=? 0) with true. cbv iota. by rewrite Z.mul_1_r, Z.eqb_refl.
Qed.

Lemma int_of_float_Z z : 0 ≤ z < 2 ^ 53 → int_of_float (float_of_Z z) = z.
Proof.
  intros Hz. apply int_of_float_is; [|by apply float_is_Z]. unfold min_int64, max_int64. lia.
Qed.
