(* ===== verification/FirewallCatalog.v ===== *)
(** * The firewall catalogue: what the control plane accepts

    The pure part of [internal/infra/postgres/firewall.go]: the records of the
    catalogue, and the functions that bring a policy, a rule, an address list
    or an address entry into the form that is stored, or refuse it.  The
    lemmas compare each function with the one of the agent that reads its
    result ([Firewall]), so that [FirewallStoreProps] can follow a rule from
    the request to the script. *)
From S2P Require Import Prelude GoStrings Strconv GoValue Netip Firewall FirewallText FirewallFields.
From Stdlib Require Import Ascii.
From stdpp Require Import options.
Open Scope Z_scope.

(** ** Records *)

Record FirewallAddressList := MkAddressList {
  fl_ID : string; fl_Key : string; fl_Label : string; fl_Description : string; fl_Scope : string; fl_Status : string }.

Record FirewallAddressEntry := MkAddressEntry {
  fe_ID : string; fe_ListID : string; fe_Value : string; fe_ValueType : string; fe_Label : string; fe_Status : string }.

Record FirewallPolicy := MkPolicy {
  fp_ID : string; fp_Key : string; fp_Label : string; fp_Description : string; fp_Scope : string;
  fp_NodeID : option string; fp_DefaultInputPolicy : string; fp_DefaultForwardPolicy : string;
  fp_DefaultOutputPolicy : string; fp_Status : string }.

Record FirewallRule := MkRule {
  fr_ID : string; fr_PolicyID : string; fr_Priority : Z; fr_Chain : string; fr_Action : string;
  fr_Direction : string; fr_Protocol : string; fr_SrcListID : option string; fr_SrcListKey : string;
  fr_DstListID : option string; fr_DstListKey : string; fr_SrcCIDR : string; fr_DstCIDR : string;
  fr_SrcPorts : string; fr_DstPorts : string; fr_StateMatch : list string; fr_Comment : string;
  fr_Enabled : bool; fr_Log : bool; fr_Status : string; fr_Metadata : option gomap }.

(** Errors: a constructor per format string, the wrapped error as an argument. *)
Inductive cat_error :=
| MustBeAcceptDropReject
| DefaultPolicy (chain : string) (e : cat_error)
| PolicyLabelRequired | PolicyBadKey
| ListLabelRequired | ListBadKey
| BadPriority | BadChain | BadAction | BadDirection | BadProtocol
| Side (name : string) (e : cat_error)
| InvalidCIDR
| BadPort (value : string) | PortRangeReversed (part : string)
| PortsRequireTCPOrUDP
| ValueRequired | EntryCIDR | EntryAddress | RangeFormat | RangeStart | RangeEnd | EntryDNS | EntryType
| ManagementDNS (value : string) | ManagementAny.

Notation C := (result cat_error).

(** ** Keys *)

(** [regexp.MustCompile(`^[a-z0-9][a-z0-9_.-]{1,62}$`)]. *)
Definition key_alnum (c : ascii) : bool := slug_rune (byte_val c).
Definition key_byte (c : ascii) : bool :=
  key_alnum c || Ascii.eqb c "_" || Ascii.eqb c "." || Ascii.eqb c "-".
Definition firewallKeyRE (key : string) : bool :=
  match key with
  | String c rest =>
      key_alnum c && forallb key_byte (bytes rest)
      && (1 <=? String.length rest)%nat && (String.length rest <=? 62)%nat
  | EmptyString => false
  end.

(** [regexp.MustCompile(`(?i)^[0-9a-f]{8}-[0-9a-f]{4}-[0-9a-f]{4}-[0-9a-f]{4}-[0-9a-f]{12}$`)]. *)
Definition firewallUUIDRE (s : string) : bool :=
  match split_char "-" s with
  | [a; b; c; d; e] =>
      bool_decide (String.length <$> [a; b; c; d; e] = [8; 4; 4; 4; 12]%nat)
      && forallb is_hex_any (bytes (a +:+ b +:+ c +:+ d +:+ e))
  | _ => false
  end.

Definition firewallFirst (values : list string) : string := first values.

(** The loop of [slugifyFirewallKey]: every run of other runes becomes one underscore. *)
Fixpoint underscore_runs (last_sep : bool) (rs : list Z) : string :=
  match rs with
  | [] => ""
  | r :: rs =>
      if slug_rune r then encode r +:+ underscore_runs false rs
      else if last_sep then underscore_runs true rs
      else String "_" (underscore_runs true rs)
  end.

Definition slugifyFirewallKey (value : string) : string :=
  let value := to_lower (trim_space value) in
  if value =s "" then ""
  else take_bytes 63 (trim_set "_" (underscore_runs false (runes value))).

(** The suffix has at most 24 bytes, so the code's [limit < 1] does not occur. *)
Definition archivedFirewallKey (key idValue : string) : string :=
  let key := trim_space key in
  let idValue := replace_char "-" "" (trim_space idValue) in
  let idValue := if idValue =s "" then "deleted" else idValue in
  let suffix := take_bytes 24 ("_deleted_" +:+ idValue) in
  let key := take_bytes (63 - String.length suffix) key in
  let key := trim_set "_.-" key in
  let key := if key =s "" then "deleted" else key in
  key +:+ suffix.

Definition nullableFirewallID (value : option string) : option string :=
  v ← value; if trim_space v =s "" then None else Some (trim_space v).

Definition nullableFirewallLookupUUID (value : string) : option string :=
  let value := trim_space value in
  if (value =s "") || negb (firewallUUIDRE value) then None else Some value.

Definition ruleStringPtr (value : option string) : string := match value with None => "" | Some v => trim_space v end.

(** ** Enumerations *)

Definition normalizeFirewallScope (value fallback : string) : string :=
  let value := to_lower (trim_space value) in
  if one_of value ["global"; "control_plane"; "node"; "service"; "client"; "template"] then value else fallback.

Definition normalizeFirewallPolicyScope (value : string) : string :=
  let value := to_lower (trim_space value) in
  if one_of value ["control_plane"; "node"; "template"] then value else "node".

Definition normalizeFirewallDefaultPolicy (value : string) : C string :=
  let value := to_lower (trim_space value) in
  if one_of value ["accept"; "drop"; "reject"] then Ok value else Err MustBeAcceptDropReject.

Definition normalizeFirewallStatus (value : string) : string :=
  let value := to_lower (trim_space value) in
  if one_of value ["active"; "disabled"; "deleted"] then value else "active".

Definition directionFromFirewallChain (chain : string) : string :=
  if chain =s "output" then "out" else if chain =s "forward" then "forward" else "in".

Definition add_state_match (out : list string) (value : string) : list string :=
  let value := to_lower (trim_space value) in
  if negb (one_of value ["new"; "established"; "related"; "invalid"]) || one_of value out then out
  else out ++ [value].
Definition normalizeFirewallStateMatch (values : list string) : list string := foldl add_state_match [] values.

(** ** Addresses and ports *)

Definition normalizeFirewallCIDR (value : string) : C string :=
  let value := trim_space value in
  if (value =s "") || (value =s "any") || (value =s "*") then Ok ""
  else match ParsePrefix value with
  | Some prefix => Ok (prefix_string (Masked prefix))
  | None =>
      match ParseAddr value with
      | Some addr => Ok (addr_string addr +:+ (if Is4 addr then "/32" else "/128"))
      | None => Err InvalidCIDR
      end
  end.

Definition parseFirewallPort (value : string) : C Z :=
  match atoi (trim_space value) with
  | Some port => if (port <? 1) || (65535 <? port) then Err (BadPort value) else Ok port
  | None => Err (BadPort value)
  end.

(** The body of the loop over the parts: nothing for a blank part. *)
Definition firewall_port_part (part : string) : C (option string) :=
  let part := trim_space part in
  if part =s "" then Ok None
  else match cut_char "-" part with
  | Some (lo, hi) =>
      from ← parseFirewallPort lo;
      to ← parseFirewallPort hi;
      if to <? from then Err (PortRangeReversed part)
      else Ok (Some (itoa from +:+ "-" +:+ itoa to))
  | None => port ← parseFirewallPort part; Ok (Some (itoa port))
  end.

Fixpoint firewall_port_parts (parts : list string) : C (list string) :=
  match parts with
  | [] => Ok []
  | part :: parts =>
      p ← firewall_port_part part;
      out ← firewall_port_parts parts;
      Ok (match p with Some p => p :: out | None => out end)
  end.

Definition normalizeFirewallPorts (value : string) : C string :=
  let value := trim_space (to_lower value) in
  if (value =s "") || (value =s "any") || (value =s "*") then Ok ""
  else out ← firewall_port_parts (split_char "," value); Ok (join "," out).

(** The type an entry without one is given. *)
Definition inferred_type (value : string) : string :=
  if contains_char "/" value then "cidr"
  else match ParseAddr value with Some _ => "address" | None => "dns" end.

(** The value and the type that are stored. *)
Definition normalizeFirewallAddressEntry (value valueType : string) : C (string * string) :=
  let value := trim_space value in
  let valueType := to_lower (trim_space valueType) in
  if value =s "" then Err ValueRequired
  else
    let valueType := if valueType =s "" then inferred_type value else valueType in
    if valueType =s "cidr" then
      match ParsePrefix value with
      | None => Err EntryCIDR
      | Some prefix => Ok (prefix_string (Masked prefix), "cidr")
      end
    else if valueType =s "address" then
      match ParseAddr value with
      | None => Err EntryAddress
      | Some addr => Ok (addr_string addr, "address")
      end
    else if valueType =s "range" then
      match cut_char "-" value with
      | None => Err RangeFormat
      | Some (lo, hi) =>
          match ParseAddr (trim_space lo) with
          | None => Err RangeStart
          | Some start =>
              match ParseAddr (trim_space hi) with
              | None => Err RangeEnd
              | Some end_ => Ok (addr_string start +:+ "-" +:+ addr_string end_, "range")
              end
          end
      end
    else if valueType =s "dns" then
      if existsb (λ c, contains_char c value) [" "; "009"; "013"; "010"; ";"; "{"; "}"]%char
         || (253 <? String.length value)%nat
      then Err EntryDNS
      else Ok (to_lower value, "dns")
    else Err EntryType.

Definition firewallAddressValueIsAny (value valueType : string) : bool :=
  if negb (to_lower (trim_space valueType) =s "cidr") then false
  else match ParsePrefix (trim_space value) with
  | None => false
  | Some prefix => (prefix_bits prefix =? 0) && (Is4 (prefix_addr prefix) || Is6 (prefix_addr prefix))
  end.

Definition firewallAddressEntryRenderableNonAny (value valueType : string) : bool :=
  let value := trim_space value in
  let valueType := to_lower (trim_space valueType) in
  if (value =s "") || negb (one_of valueType ["cidr"; "address"; "range"]) then false
  else if firewallAddressValueIsAny value valueType then false
  else if valueType =s "cidr" then match ParsePrefix value with Some _ => true | None => false end
  else if valueType =s "address" then match ParseAddr value with Some _ => true | None => false end
  else match cut_char "-" value with
  | None => false
  | Some (lo, hi) =>
      match ParseAddr (trim_space lo) with
      | None => false
      | Some start =>
          match ParseAddr (trim_space hi) with
          | None => false
          | Some end_ =>
              Bool.eqb (Is4 start) (Is4 end_) && match addr_compare start end_ with Gt => false | _ => true end
          end
      end
  end.

(** ** Records *)

Definition normalizeFirewallPolicy (input current : FirewallPolicy) : C FirewallPolicy :=
  let key := to_lower (trim_space (firewallFirst [fp_Key input; fp_Key current])) in
  let label := trim_space (firewallFirst [fp_Label input; fp_Label current]) in
  let description := trim_space (fp_Description input) in
  let scope := normalizeFirewallPolicyScope (firewallFirst [fp_Scope input; fp_Scope current]) in
  input_policy ← map_err (DefaultPolicy "input") (normalizeFirewallDefaultPolicy
    (firewallFirst [fp_DefaultInputPolicy input; fp_DefaultInputPolicy current; "accept"]));
  forward_policy ← map_err (DefaultPolicy "forward") (normalizeFirewallDefaultPolicy
    (firewallFirst [fp_DefaultForwardPolicy input; fp_DefaultForwardPolicy current; "accept"]));
  output_policy ← map_err (DefaultPolicy "output") (normalizeFirewallDefaultPolicy
    (firewallFirst [fp_DefaultOutputPolicy input; fp_DefaultOutputPolicy current; "accept"]));
  let status := normalizeFirewallStatus (firewallFirst [fp_Status input; fp_Status current]) in
  if label =s "" then Err PolicyLabelRequired
  else
    let key := if key =s "" then slugifyFirewallKey label else key in
    if negb (firewallKeyRE key) then Err PolicyBadKey
    else
      let node := match fp_NodeID input with
                  | None => None
                  | Some n => if (trim_space n =s "") || negb (scope =s "node") then None else Some (trim_space n)
                  end in
      Ok (MkPolicy (fp_ID input) key label description scope node input_policy forward_policy output_policy status).

Definition normalizeFirewallRule (input : FirewallRule) : C FirewallRule :=
  let enabled := if (fr_Status input =s "") && negb (fr_Enabled input) then true else fr_Enabled input in
  let priority := if fr_Priority input <=? 0 then 1000 else fr_Priority input in
  _ ← guard_err (negb (65000 <? priority)) BadPriority;
  let chain := to_lower (trim_space (fr_Chain input)) in
  let chain := if chain =s "" then "input" else chain in
  _ ← guard_err (one_of chain ["input"; "forward"; "output"]) BadChain;
  let action := to_lower (trim_space (fr_Action input)) in
  _ ← guard_err (one_of action ["accept"; "drop"; "reject"]) BadAction;
  let direction := to_lower (trim_space (fr_Direction input)) in
  let direction := if direction =s "" then directionFromFirewallChain chain else direction in
  _ ← guard_err (one_of direction ["in"; "out"; "forward"]) BadDirection;
  let protocol := to_lower (trim_space (fr_Protocol input)) in
  let protocol := if protocol =s "" then "any" else protocol in
  _ ← guard_err (one_of protocol ["any"; "tcp"; "udp"; "icmp"; "icmpv6"]) BadProtocol;
  srcCIDR ← map_err (Side "source CIDR") (normalizeFirewallCIDR (fr_SrcCIDR input));
  dstCIDR ← map_err (Side "destination CIDR") (normalizeFirewallCIDR (fr_DstCIDR input));
  srcPorts ← map_err (Side "source ports") (normalizeFirewallPorts (fr_SrcPorts input));
  dstPorts ← map_err (Side "destination ports") (normalizeFirewallPorts (fr_DstPorts input));
  _ ← guard_err (negb ((negb (srcPorts =s "") || negb (dstPorts =s ""))
                       && negb (protocol =s "tcp") && negb (protocol =s "udp"))) PortsRequireTCPOrUDP;
  Ok (MkRule (fr_ID input) (fr_PolicyID input) priority chain action direction protocol
        (fr_SrcListID input) (fr_SrcListKey input) (fr_DstListID input) (fr_DstListKey input)
        srcCIDR dstCIDR srcPorts dstPorts (normalizeFirewallStateMatch (fr_StateMatch input))
        (trim_space (fr_Comment input)) enabled (fr_Log input) (normalizeFirewallStatus (fr_Status input))
        (match fr_Metadata input with None => Some ∅ | m => m end)).

(** ** Management sources *)

(** [strings.FieldsFunc] at the separators of a list of sources. *)
Definition source_separator (c : ascii) : bool :=
  existsb (Ascii.eqb c) [","; ";"; "010"; "013"; "009"; " "]%char.
Fixpoint source_fields (word : string) (s : string) : list string :=
  match s with
  | EmptyString => if word =s "" then [] else [word]
  | String c s =>
      if source_separator c then (if word =s "" then source_fields "" s else word :: source_fields "" s)
      else source_fields (word +:+ String c "") s
  end.

(** The loop over the parts, in order; [out] is what was collected, each once. *)
Fixpoint management_entries (out : list (string * string)) (parts : list string) : C (list (string * string)) :=
  match parts with
  | [] => Ok out
  | part :: parts =>
      entry ← normalizeFirewallAddressEntry part "";
      let '(value, valueType) := entry in
      if valueType =s "dns" then Err (ManagementDNS value)
      else if firewallAddressValueIsAny value valueType then Err ManagementAny
      else management_entries
             (if existsb (λ e, (valueType +:+ ":" +:+ value) =s (snd e +:+ ":" +:+ fst e)) out then out
              else out ++ [entry]) parts
  end.

Definition normalizeFirewallManagementCIDRs (values : list string) : C (list (string * string)) :=
  management_entries [] (values ≫= source_fields "").
