(* ===== verification/FirewallTables.v ===== *)
(** * The firewall catalogue: its tables

    The operations of [internal/infra/postgres/firewall.go] on the tables
    [firewall_address_lists], [firewall_address_entries], [firewall_policies],
    [firewall_rules], [firewall_revisions] and [firewall_node_state], with the
    constraints of the schema.  A table is the list of its rows in the order
    they were inserted; a query that can match several rows without an order
    takes the first.  Timestamps, audit records and the counts shown with a
    list or a policy are not part of the state; a statement that fails and one
    that returns no row are the same error.  The column [state_match] and the
    metadata hold what was written. *)
From stdpp Require Import gmap.
From S2P Require Import Prelude GoStrings Strconv GoValue Netip Firewall FirewallCatalog Jobs.
From Stdlib Require Import Ascii.
From stdpp Require Import options.
Open Scope Z_scope.

Definition firewallManagedControlPlaneLabel : string := "managed:control-plane-source".
Definition firewallManagedSSHBootstrapLabel : string := "managed:ssh-bootstrap-source".
Definition firewallManagedOperatorLabel : string := "managed:trusted-operator-source".

(** ** State *)

Record FirewallRevision := MkRevision { rv_ID : string; rv_PolicyID : string; rv_No : Z; rv_Hash : string; rv_Rules : list any }.

Record FirewallNodeState := MkNodeState {
  ns_NodeID : string; ns_PolicyID : option string; ns_RevisionID : option string; ns_DesiredRevisionID : option string;
  ns_Status : string; ns_Observed : option gomap; ns_LastJobID : string }.

Record catalog := MkCatalog {
  lists : list FirewallAddressList; entries : list FirewallAddressEntry;
  policies : list FirewallPolicy; rules : list FirewallRule;
  revisions : list FirewallRevision; node_states : list FirewallNodeState; jobs : list Job }.

Definition set_lists x st := MkCatalog x (entries st) (policies st) (rules st) (revisions st) (node_states st) (jobs st).
Definition set_entries x st := MkCatalog (lists st) x (policies st) (rules st) (revisions st) (node_states st) (jobs st).
Definition set_policies x st := MkCatalog (lists st) (entries st) x (rules st) (revisions st) (node_states st) (jobs st).
Definition set_rules x st := MkCatalog (lists st) (entries st) (policies st) x (revisions st) (node_states st) (jobs st).

Inductive fs_error :=
| Refused (e : cat_error)
| IDRequired (what : string)
| QueryFailed
| BaselinePolicy
| PolicyInUse (n : nat)
| ListReferenced (n : nat).

Notation F := (result fs_error).

(** ** Statements *)

Definition live_status (status : string) : bool := negb (status =s "deleted").
Definition active_status (status : string) : bool := status =s "active".

(** An update of the rows that match. *)
Definition update_where {A} (hit : A → bool) (f : A → A) (rows : list A) : list A :=
  (λ row, if hit row then f row else row) <$> rows.

(** What a [text] column takes: UTF-8 without NUL. *)
Definition pg_text (s : string) : bool :=
  (encode_all (runes s) =s s) && negb (contains_char "000" s).

Definition list_checks (l : FirewallAddressList) : bool :=
  pg_text (fl_Key l) && pg_text (fl_Label l) && pg_text (fl_Description l)
  && one_of (fl_Scope l) ["global"; "control_plane"; "node"; "service"; "client"; "template"]
  && one_of (fl_Status l) ["active"; "disabled"; "deleted"].

Definition entry_checks (e : FirewallAddressEntry) : bool :=
  pg_text (fe_Value e) && pg_text (fe_Label e)
  && one_of (fe_ValueType e) ["cidr"; "address"; "range"; "dns"]
  && one_of (fe_Status e) ["active"; "disabled"; "deleted"].

Definition default_policy_check (policy : string) : bool := one_of policy ["accept"; "drop"; "reject"].

Definition policy_checks (p : FirewallPolicy) : bool :=
  pg_text (fp_Key p) && pg_text (fp_Label p) && pg_text (fp_Description p)
  && one_of (fp_Scope p) ["control_plane"; "node"; "template"]
  && default_policy_check (fp_DefaultInputPolicy p) && default_policy_check (fp_DefaultForwardPolicy p)
  && default_policy_check (fp_DefaultOutputPolicy p)
  && one_of (fp_Status p) ["active"; "disabled"; "deleted"].

Definition rule_checks (r : FirewallRule) : bool :=
  (1 <=? fr_Priority r) && (fr_Priority r <=? 65000)
  && one_of (fr_Chain r) ["input"; "forward"; "output"]
  && one_of (fr_Action r) ["accept"; "drop"; "reject"]
  && one_of (fr_Direction r) ["in"; "out"; "forward"]
  && one_of (fr_Protocol r) ["any"; "tcp"; "udp"; "icmp"; "icmpv6"]
  && pg_text (fr_SrcCIDR r) && pg_text (fr_DstCIDR r) && pg_text (fr_SrcPorts r) && pg_text (fr_DstPorts r)
  && pg_text (fr_Comment r) && one_of (fr_Status r) ["active"; "disabled"; "deleted"].

Section tables.
(** The input of the type [uuid]: its canonical text; [None] is an error. *)
Context (pg_uuid : string → option string).
(** The rows of [nodes]. *)
Context (node_exists : string → bool).
(** The order of texts under the database's collation. *)
Context (text_before : string → string → bool).

Definition uuid_column (v : option string) : option (option string) :=
  match v with
  | None => Some None
  | Some v => u ← pg_uuid v; Some (Some u)
  end.

(** [($2::uuid is not null and id=$2::uuid) or key=$1]. *)
Definition by_ref (ref id key : string) : bool :=
  match nullableFirewallLookupUUID ref with
  | Some u => bool_decide (pg_uuid u = Some id)
  | None => false
  end || (key =s ref).

Definition list_exists (st : catalog) (id : option string) : bool :=
  match id with
  | None => true
  | Some id => existsb (λ l, fl_ID l =s id) (lists st)
  end.

(** ** Policies *)

Definition getFirewallPolicy (policyID : string) (st : catalog) : F FirewallPolicy :=
  let policyID := trim_space policyID in
  match List.find (λ p, by_ref policyID (fp_ID p) (fp_Key p)) (policies st) with
  | Some p => Ok p
  | None => Err QueryFailed
  end.

Definition empty_policy : FirewallPolicy := MkPolicy "" "" "" "" "" None "" "" "" "".

(** The row with its node column, if the constraints of the table accept it. *)
Definition policy_row (p : FirewallPolicy) : option FirewallPolicy :=
  node ← uuid_column (nullableFirewallID (fp_NodeID p));
  let row := MkPolicy (fp_ID p) (fp_Key p) (fp_Label p) (fp_Description p) (fp_Scope p) node
    (fp_DefaultInputPolicy p) (fp_DefaultForwardPolicy p) (fp_DefaultOutputPolicy p) (fp_Status p) in
  if policy_checks row && match node with Some n => node_exists n | None => true end then Some row else None.

Definition with_policy_ID (id : string) (p : FirewallPolicy) : FirewallPolicy :=
  MkPolicy id (fp_Key p) (fp_Label p) (fp_Description p) (fp_Scope p) (fp_NodeID p)
    (fp_DefaultInputPolicy p) (fp_DefaultForwardPolicy p) (fp_DefaultOutputPolicy p) (fp_Status p).

Definition CreateFirewallPolicy (new_id : string) (input : FirewallPolicy) (st : catalog) : F FirewallPolicy * catalog :=
  match normalizeFirewallPolicy input empty_policy with
  | Err e => (Err (Refused e), st)
  | Ok policy =>
      match policy_row (with_policy_ID new_id policy) with
      | Some row =>
          if existsb (λ p, (fp_ID p =s fp_ID row) || (fp_Key p =s fp_Key row)) (policies st)
          then (Err QueryFailed, st)
          else (Ok row, set_policies (policies st ++ [row]) st)
      | None => (Err QueryFailed, st)
      end
  end.

Definition UpdateFirewallPolicy (policyID : string) (input : FirewallPolicy) (st : catalog) : F FirewallPolicy * catalog :=
  let policyID := trim_space policyID in
  if policyID =s "" then (Err (IDRequired "policy"), st)
  else match getFirewallPolicy policyID st with
  | Err e => (Err e, st)
  | Ok current =>
      match normalizeFirewallPolicy input current with
      | Err e => (Err (Refused e), st)
      | Ok policy =>
          match policy_row (with_policy_ID (fp_ID current) policy) with
          | None => (Err QueryFailed, st)
          | Some row =>
              if negb (live_status (fp_Status current))
                 || existsb (λ p, negb (fp_ID p =s fp_ID row) && (fp_Key p =s fp_Key row)) (policies st)
              then (Err QueryFailed, st)
              else (Ok row, set_policies (update_where (λ p, fp_ID p =s fp_ID current) (λ _, row) (policies st)) st)
          end
      end
  end.

Definition retire_rule (r : FirewallRule) : FirewallRule :=
  MkRule (fr_ID r) (fr_PolicyID r) (fr_Priority r) (fr_Chain r) (fr_Action r) (fr_Direction r) (fr_Protocol r)
    (fr_SrcListID r) (fr_SrcListKey r) (fr_DstListID r) (fr_DstListKey r) (fr_SrcCIDR r) (fr_DstCIDR r)
    (fr_SrcPorts r) (fr_DstPorts r) (fr_StateMatch r) (fr_Comment r) false (fr_Log r) "deleted" (fr_Metadata r).

Definition retire_policy (p : FirewallPolicy) : FirewallPolicy :=
  MkPolicy (fp_ID p) (archivedFirewallKey (fp_Key p) (fp_ID p)) (fp_Label p) (fp_Description p) (fp_Scope p)
    (fp_NodeID p) (fp_DefaultInputPolicy p) (fp_DefaultForwardPolicy p) (fp_DefaultOutputPolicy p) "deleted".

(** The rules are retired by the same statement, also when the policy was already deleted. *)
Definition DeleteFirewallPolicy (policyID : string) (st : catalog) : F FirewallPolicy * catalog :=
  let policyID := trim_space policyID in
  if policyID =s "" then (Err (IDRequired "policy"), st)
  else match getFirewallPolicy policyID st with
  | Err e => (Err e, st)
  | Ok current =>
      if one_of (fp_Key current) ["control_plane_default"; "node_base"] then (Err BaselinePolicy, st)
      else
        let refs := length (List.filter (λ s, bool_decide (ns_PolicyID s = Some (fp_ID current))) (node_states st)) in
        if (0 <? refs)%nat then (Err (PolicyInUse refs), st)
        else
          let row := retire_policy current in
          if live_status (fp_Status current)
             && existsb (λ p, negb (fp_ID p =s fp_ID row) && (fp_Key p =s fp_Key row)) (policies st)
          then (Err QueryFailed, st)
          else
            let st := set_rules (update_where
              (λ r, (fr_PolicyID r =s fp_ID current) && live_status (fr_Status r)) retire_rule (rules st)) st in
            if live_status (fp_Status current)
            then (Ok row, set_policies (update_where (λ p, fp_ID p =s fp_ID current) (λ _, row) (policies st)) st)
            else (Err QueryFailed, st)
  end.

(** ** Address lists *)

Definition getFirewallAddressList (listID : string) (st : catalog) : F FirewallAddressList :=
  let listID := trim_space listID in
  match List.find (λ l, by_ref listID (fl_ID l) (fl_Key l) && live_status (fl_Status l)) (lists st) with
  | Some l => Ok l
  | None => Err QueryFailed
  end.

Definition CreateFirewallAddressList (new_id : string) (input : FirewallAddressList) (st : catalog)
  : F FirewallAddressList * catalog :=
  let key := to_lower (trim_space (fl_Key input)) in
  let label := trim_space (fl_Label input) in
  let scope := normalizeFirewallScope (fl_Scope input) "global" in
  let status := normalizeFirewallStatus (fl_Status input) in
  let key := if key =s "" then slugifyFirewallKey label else key in
  if negb (firewallKeyRE key) then (Err (Refused ListBadKey), st)
  else if label =s "" then (Err (Refused ListLabelRequired), st)
  else
    let row := MkAddressList new_id key label (trim_space (fl_Description input)) scope status in
    if negb (list_checks row) || existsb (λ l, (fl_ID l =s new_id) || (fl_Key l =s key)) (lists st)
    then (Err QueryFailed, st)
    else (Ok row, set_lists (lists st ++ [row]) st).

Definition UpdateFirewallAddressList (listID : string) (input : FirewallAddressList) (st : catalog)
  : F FirewallAddressList * catalog :=
  let listID := trim_space listID in
  if listID =s "" then (Err (IDRequired "address-list"), st)
  else match getFirewallAddressList listID st with
  | Err e => (Err e, st)
  | Ok current =>
      let key := to_lower (trim_space (firewallFirst [fl_Key input; fl_Key current])) in
      let label := trim_space (firewallFirst [fl_Label input; fl_Label current]) in
      let scope := normalizeFirewallScope (fl_Scope input) (fl_Scope current) in
      let status := normalizeFirewallStatus (firewallFirst [fl_Status input; fl_Status current]) in
      if negb (firewallKeyRE key) then (Err (Refused ListBadKey), st)
      else if label =s "" then (Err (Refused ListLabelRequired), st)
      else
        let row := MkAddressList (fl_ID current) key label (trim_space (fl_Description input)) scope status in
        if negb (list_checks row)
           || existsb (λ l, negb (fl_ID l =s fl_ID current) && (fl_Key l =s key)) (lists st)
        then (Err QueryFailed, st)
        else (Ok row, set_lists (update_where (λ l, fl_ID l =s fl_ID current) (λ _, row) (lists st)) st)
  end.

Definition retire_entry (e : FirewallAddressEntry) : FirewallAddressEntry :=
  MkAddressEntry (fe_ID e) (fe_ListID e) (fe_Value e) (fe_ValueType e) (fe_Label e) "deleted".

Definition retire_list (l : FirewallAddressList) : FirewallAddressList :=
  MkAddressList (fl_ID l) (archivedFirewallKey (fl_Key l) (fl_ID l)) (fl_Label l) (fl_Description l) (fl_Scope l) "deleted".

(** A rule that is not deleted and names the list. *)
Definition rule_names (listID : string) (r : FirewallRule) : bool :=
  live_status (fr_Status r)
  && (bool_decide (fr_SrcListID r = Some listID) || bool_decide (fr_DstListID r = Some listID)).

Definition DeleteFirewallAddressList (listID : string) (st : catalog) : F FirewallAddressList * catalog :=
  let listID := trim_space listID in
  if listID =s "" then (Err (IDRequired "address-list"), st)
  else match getFirewallAddressList listID st with
  | Err e => (Err e, st)
  | Ok current =>
      let refs := length (List.filter (rule_names (fl_ID current)) (rules st)) in
      if (0 <? refs)%nat then (Err (ListReferenced refs), st)
      else
        let row := retire_list current in
        if existsb (λ l, negb (fl_ID l =s fl_ID row) && (fl_Key l =s fl_Key row)) (lists st)
        then (Err QueryFailed, st)
        else
          let st := set_entries (update_where
            (λ e, (fe_ListID e =s fl_ID current) && live_status (fe_Status e)) retire_entry (entries st)) st in
          (Ok row, set_lists (update_where (λ l, fl_ID l =s fl_ID current) (λ _, row) (lists st)) st)
  end.

(** ** Address entries *)

(** The unique index on [(list_id,value)] of the rows that are not deleted. *)
Definition entry_clash (row e : FirewallAddressEntry) : bool :=
  live_status (fe_Status row) && live_status (fe_Status e) && (fe_ListID e =s fe_ListID row) && (fe_Value e =s fe_Value row).

Definition CreateFirewallAddressEntry (new_id listID : string) (input : FirewallAddressEntry) (st : catalog)
  : F FirewallAddressEntry * catalog :=
  let listID := trim_space listID in
  if listID =s "" then (Err (IDRequired "address-list"), st)
  else match normalizeFirewallAddressEntry (fe_Value input) (fe_ValueType input) with
  | Err e => (Err (Refused e), st)
  | Ok (value, valueType) =>
      match pg_uuid listID with
      | None => (Err QueryFailed, st)
      | Some list =>
          let row := MkAddressEntry new_id list value valueType (trim_space (fe_Label input))
                       (normalizeFirewallStatus (fe_Status input)) in
          if negb (entry_checks row) || negb (list_exists st (Some list))
             || existsb (λ e, (fe_ID e =s new_id) || entry_clash row e) (entries st)
          then (Err QueryFailed, st)
          else (Ok row, set_entries (entries st ++ [row]) st)
      end
  end.

(** [where id=$2 and list_id=$1 and status <> 'deleted']. *)
Definition find_entry (listID entryID : string) (st : catalog) : option FirewallAddressEntry :=
  list ← pg_uuid listID;
  entry ← pg_uuid entryID;
  List.find (λ e, (fe_ID e =s entry) && (fe_ListID e =s list) && live_status (fe_Status e)) (entries st).

Definition UpdateFirewallAddressEntry (listID entryID : string) (input : FirewallAddressEntry) (st : catalog)
  : F FirewallAddressEntry * catalog :=
  let listID := trim_space listID in
  let entryID := trim_space entryID in
  if (listID =s "") || (entryID =s "") then (Err (IDRequired "address-list and entry"), st)
  else match normalizeFirewallAddressEntry (fe_Value input) (fe_ValueType input) with
  | Err e => (Err (Refused e), st)
  | Ok (value, valueType) =>
      match find_entry listID entryID st with
      | None => (Err QueryFailed, st)
      | Some current =>
          let row := MkAddressEntry (fe_ID current) (fe_ListID current) value valueType (trim_space (fe_Label input))
                       (normalizeFirewallStatus (fe_Status input)) in
          if negb (entry_checks row)
             || existsb (λ e, negb (fe_ID e =s fe_ID row) && entry_clash row e) (entries st)
          then (Err QueryFailed, st)
          else (Ok row, set_entries (update_where (λ e, fe_ID e =s fe_ID current) (λ _, row) (entries st)) st)
      end
  end.

Definition DeleteFirewallAddressEntry (listID entryID : string) (st : catalog) : F FirewallAddressEntry * catalog :=
  let listID := trim_space listID in
  let entryID := trim_space entryID in
  if (listID =s "") || (entryID =s "") then (Err (IDRequired "address-list and entry"), st)
  else match find_entry listID entryID st with
  | None => (Err QueryFailed, st)
  | Some current =>
      (Ok (retire_entry current),
       set_entries (update_where (λ e, fe_ID e =s fe_ID current) (λ _, retire_entry current) (entries st)) st)
  end.

(** ** Rules *)

Definition list_key (st : catalog) (id : option string) : string :=
  match id with
  | None => ""
  | Some id => match List.find (λ l, fl_ID l =s id) (lists st) with Some l => fl_Key l | None => "" end
  end.

(** A row as it is read: the keys of its lists joined in. *)
Definition read_rule (st : catalog) (r : FirewallRule) : FirewallRule :=
  MkRule (fr_ID r) (fr_PolicyID r) (fr_Priority r) (fr_Chain r) (fr_Action r) (fr_Direction r) (fr_Protocol r)
    (fr_SrcListID r) (list_key st (fr_SrcListID r)) (fr_DstListID r) (list_key st (fr_DstListID r))
    (fr_SrcCIDR r) (fr_DstCIDR r) (fr_SrcPorts r) (fr_DstPorts r) (fr_StateMatch r) (fr_Comment r)
    (fr_Enabled r) (fr_Log r) (fr_Status r) (fr_Metadata r).

(** The row with its identifiers and list columns, if the table accepts it; the keys are no columns. *)
Definition rule_row (st : catalog) (id policy : string) (r : FirewallRule) : option FirewallRule :=
  src ← uuid_column (nullableFirewallID (fr_SrcListID r));
  dst ← uuid_column (nullableFirewallID (fr_DstListID r));
  let row := MkRule id policy (fr_Priority r) (fr_Chain r) (fr_Action r) (fr_Direction r) (fr_Protocol r)
    src "" dst "" (fr_SrcCIDR r) (fr_DstCIDR r) (fr_SrcPorts r) (fr_DstPorts r) (fr_StateMatch r) (fr_Comment r)
    (fr_Enabled r) (fr_Log r) (fr_Status r) (fr_Metadata r) in
  if rule_checks row && list_exists st src && list_exists st dst then Some row else None.

Definition CreateFirewallRule (new_id policyID : string) (input : FirewallRule) (st : catalog) : F FirewallRule * catalog :=
  let policyID := trim_space policyID in
  if policyID =s "" then (Err (IDRequired "policy"), st)
  else match normalizeFirewallRule input with
  | Err e => (Err (Refused e), st)
  | Ok rule =>
      match (policy ← pg_uuid policyID; rule_row st new_id policy rule) with
      | None => (Err QueryFailed, st)
      | Some row =>
          if negb (existsb (λ p, fp_ID p =s fr_PolicyID row) (policies st)) || existsb (λ r, fr_ID r =s new_id) (rules st)
          then (Err QueryFailed, st)
          else (Ok (read_rule st row), set_rules (rules st ++ [row]) st)
      end
  end.

(** [where id=$2 and policy_id=$1 and status <> 'deleted']. *)
Definition find_rule (policyID ruleID : string) (st : catalog) : option FirewallRule :=
  policy ← pg_uuid policyID;
  rule ← pg_uuid ruleID;
  List.find (λ r, (fr_ID r =s rule) && (fr_PolicyID r =s policy) && live_status (fr_Status r)) (rules st).

Definition UpdateFirewallRule (policyID ruleID : string) (input : FirewallRule) (st : catalog) : F FirewallRule * catalog :=
  let policyID := trim_space policyID in
  let ruleID := trim_space ruleID in
  if (policyID =s "") || (ruleID =s "") then (Err (IDRequired "policy and rule"), st)
  else match normalizeFirewallRule input with
  | Err e => (Err (Refused e), st)
  | Ok rule =>
      match find_rule policyID ruleID st with
      | None => (Err QueryFailed, st)
      | Some current =>
          match rule_row st (fr_ID current) (fr_PolicyID current) rule with
          | None => (Err QueryFailed, st)
          | Some row =>
              (Ok (read_rule st row), set_rules (update_where (λ r, fr_ID r =s fr_ID current) (λ _, row) (rules st)) st)
          end
      end
  end.

Definition DeleteFirewallRule (policyID ruleID : string) (st : catalog) : F FirewallRule * catalog :=
  let policyID := trim_space policyID in
  let ruleID := trim_space ruleID in
  if (policyID =s "") || (ruleID =s "") then (Err (IDRequired "policy and rule"), st)
  else match find_rule policyID ruleID st with
  | None => (Err QueryFailed, st)
  | Some current =>
      (Ok (read_rule st (retire_rule current)),
       set_rules (update_where (λ r, fr_ID r =s fr_ID current) (λ _, retire_rule current) (rules st)) st)
  end.
End tables.
