(* ===== verification/FirewallSeeds.v ===== *)
(** * The firewall catalogue: defaults and management sources

    [EnsureDefaultFirewallPolicies], which runs before the inventory and the
    management settings are read and seeds the default lists, policies and
    rules, and the management settings themselves
    ([internal/infra/postgres/firewall.go]). *)
From stdpp Require Import gmap.
From S2P Require Import Prelude GoStrings Strconv GoValue Netip Firewall FirewallCatalog FirewallTables.
From Stdlib Require Import Ascii.
From stdpp Require Import options.
Open Scope Z_scope.

(** ** Default rows *)

(** Key, label, description, scope. *)
Definition default_lists : list (string * string * string * string) :=
  [("trusted_control_plane", "Trusted control plane",
    "Control-plane hosts allowed to manage node agent and SSH access.", "control_plane");
   ("trusted_operators", "Trusted operators", "Operator source networks for privileged access.", "global");
   ("vpn_client_sources", "VPN client source ranges",
    "Default source ranges used by managed VPN clients and private overlay networks.", "global");
   ("backhaul_sources", "Backhaul source ranges",
    "Managed ingress-to-egress tunnel and backhaul source networks.", "global");
   ("public_service_sources", "Public service sources",
    "Internet or restricted source ranges allowed to reach public service listeners.", "global");
   ("blocked_destinations", "Blocked destinations",
    "Reusable destination ranges for deny or quarantine rules.", "global")].

(** Value, type, label. *)
Definition default_client_sources : list (string * string * string) :=
  [("10.0.0.0/8", "cidr", "RFC1918 private client range");
   ("172.16.0.0/12", "cidr", "RFC1918 private client range");
   ("192.168.0.0/16", "cidr", "RFC1918 private client range");
   ("100.64.0.0/10", "cidr", "CGNAT client range");
   ("fd00::/8", "cidr", "IPv6 unique local client range")].

Definition default_policies (id1 id2 : string) : list FirewallPolicy :=
  [MkPolicy id1 "control_plane_default" "Control plane baseline" "Baseline policy for control-plane host exposure."
     "control_plane" None "accept" "accept" "accept" "active";
   MkPolicy id2 "node_base" "Node baseline"
     "Baseline node firewall policy. Default accept remains until explicit enforcement is enabled."
     "node" None "accept" "accept" "accept" "active"].

Record rule_seed := MkSeed {
  sd_Priority : Z; sd_Chain : string; sd_Action : string; sd_Direction : string; sd_Protocol : string;
  sd_SrcListKey : string; sd_DstPorts : string; sd_StateMatch : list string; sd_Comment : string;
  sd_Enabled : bool; sd_Key : string }.

Definition default_rules : list rule_seed :=
  [MkSeed 50 "input" "drop" "in" "any" "" "" ["invalid"] "Drop invalid input packets." true "drop_invalid_input";
   MkSeed 55 "forward" "drop" "forward" "any" "" "" ["invalid"] "Drop invalid forwarded packets." true "drop_invalid_forward";
   MkSeed 100 "input" "accept" "in" "icmp" "" "" [] "Allow IPv4 ICMP diagnostics." true "allow_icmp_v4";
   MkSeed 105 "input" "accept" "in" "icmpv6" "" "" [] "Allow IPv6 ICMP diagnostics." true "allow_icmp_v6";
   MkSeed 120 "input" "accept" "in" "tcp" "" "80,443" ["new"; "established"]
     "Allow public HTTP and HTTPS edge entrypoints." true "allow_edge_http_https";
   MkSeed 200 "input" "accept" "in" "tcp" "trusted_operators" "22" ["new"; "established"]
     "Allow SSH management from trusted operators after the address list is populated." false "allow_ssh_trusted_operators";
   MkSeed 300 "forward" "accept" "forward" "any" "vpn_client_sources" "" ["new"; "established"]
     "Allow managed VPN client source ranges to forward through the node." true "allow_vpn_client_forward"].

Section seeds.
(** The identifiers drawn by one call, in order. *)
Context (ids : nat → string).
(** [metadata_json ->> key] of a value that is no string. *)
Context (json_text : any → string).

(** [on conflict(key) do update set label, description, scope]. *)
Definition upsert_list (seed : nat * (string * string * string * string)) (ls : list FirewallAddressList)
  : list FirewallAddressList :=
  let '(n, (key, label, description, scope)) := seed in
  if existsb (λ l, fl_Key l =s key) ls
  then update_where (λ l, fl_Key l =s key) (λ l, MkAddressList (fl_ID l) key label description scope (fl_Status l)) ls
  else ls ++ [MkAddressList (ids n) key label description scope "active"].

Definition seed_lists (st : catalog) : catalog :=
  set_lists (foldl (λ ls seed, upsert_list seed ls) (lists st) (zip (seq 0 6) default_lists)) st.

(** [select id ... where key=$1 and status <> 'deleted']. *)
Definition live_list (key : string) (st : catalog) : option string :=
  fl_ID <$> List.find (λ l, (fl_Key l =s key) && live_status (fl_Status l)) (lists st).

(** [on conflict(list_id,value) where status <> 'deleted' do nothing]. *)
Definition seed_entries (st : catalog) : catalog :=
  match live_list "vpn_client_sources" st with
  | None => st
  | Some list =>
      set_entries (foldl (λ es seed,
        let '(n, (value, valueType, label)) := seed in
        let row := MkAddressEntry (ids n) list value valueType label "active" in
        if existsb (entry_clash row) es then es else es ++ [row])
        (entries st) (zip (seq 6 5) default_client_sources)) st
  end.

(** [on conflict(key) do nothing]. *)
Definition seed_policies (st : catalog) : catalog :=
  set_policies (foldl (λ ps row, if existsb (λ p, fp_Key p =s fp_Key row) ps then ps else ps ++ [row])
    (policies st) (default_policies (ids 11) (ids 12))) st.

(** [update firewall_policies set ... where key='node_base']. *)
Definition default_node_policy (p : FirewallPolicy) : FirewallPolicy :=
  MkPolicy (fp_ID p) (fp_Key p) "Default node firewall"
    ("Default node firewall: deny unsolicited input and forwarding when strict mode is selected, "
     +:+ "keep node egress open, and allow common edge entrypoints plus managed VPN client forwarding ranges.")
    (fp_Scope p) (fp_NodeID p) "drop" "drop" "accept" (if live_status (fp_Status p) then "active" else fp_Status p).

Definition reset_node_policy (st : catalog) : catalog :=
  set_policies (update_where (λ p, fp_Key p =s "node_base") default_node_policy (policies st)) st.

(** [metadata_json->>'baseline_key']. *)
Definition baseline_key (r : FirewallRule) : option string :=
  match fr_Metadata r with
  | None => None
  | Some m =>
      match m !! "baseline_key" with
      | None | Some ANil => None
      | Some (AString s) => Some s
      | Some v => Some (json_text v)
      end
  end.

(** The rule is there: by its key or by its comment. *)
Definition has_seed (policy : string) (seed : rule_seed) (rs : list FirewallRule) : bool :=
  existsb (λ r, (fr_PolicyID r =s policy) && live_status (fr_Status r)
    && (bool_decide (baseline_key r = Some (sd_Key seed)) || (fr_Comment r =s sd_Comment seed))) rs.

Definition seed_row (st : catalog) (id policy : string) (seed : rule_seed) : FirewallRule :=
  let src := if sd_SrcListKey seed =s "trusted_operators" then live_list "trusted_operators" st
             else if sd_SrcListKey seed =s "vpn_client_sources" then live_list "vpn_client_sources" st
             else None in
  MkRule id policy (sd_Priority seed) (sd_Chain seed) (sd_Action seed) (sd_Direction seed) (sd_Protocol seed)
    src "" None "" "" "" "" (sd_DstPorts seed) (sd_StateMatch seed) (sd_Comment seed) (sd_Enabled seed) false "active"
    (Some (<["baseline" := AString "default_firewall"]> {["baseline_key" := AString (sd_Key seed)]})).

(** The rules are selected from the table as it was, then inserted. *)
Definition seed_rules (st : catalog) : catalog :=
  match List.find (λ p, (fp_Key p =s "node_base") && live_status (fp_Status p)) (policies st) with
  | None => st
  | Some policy =>
      set_rules (rules st ++
        ((λ seed : nat * rule_seed, seed_row st (ids (fst seed)) (fp_ID policy) (snd seed))
         <$> List.filter (λ seed, negb (has_seed (fp_ID policy) (snd seed) (rules st)))
               (zip (seq 13 7) default_rules))) st
  end.

Definition EnsureDefaultFirewallPolicies (st : catalog) : catalog :=
  seed_rules (reset_node_policy (seed_policies (seed_entries (seed_lists st)))).
End seeds.

(** ** Management settings *)

Record FirewallManagementSettings := MkSettings {
  ControlPlaneSourceCIDRs : list string; SSHBootstrapSourceCIDRs : list string; TrustedOperatorCIDRs : list string }.

Definition settings_specs (input : FirewallManagementSettings) : list (string * string * list string) :=
  [("trusted_control_plane", firewallManagedControlPlaneLabel, ControlPlaneSourceCIDRs input);
   ("trusted_control_plane", firewallManagedSSHBootstrapLabel, SSHBootstrapSourceCIDRs input);
   ("trusted_operators", firewallManagedOperatorLabel, TrustedOperatorCIDRs input)].

Section settings.
Context (ids : nat → string) (json_text : any → string) (text_before : string → string → bool).

(** [on conflict(list_id,value) where status <> 'deleted' do update set value_type, label, status]. *)
Definition upsert_entry (id listID label : string) (entry : string * string) (es : list FirewallAddressEntry)
  : list FirewallAddressEntry :=
  let row := MkAddressEntry id listID (fst entry) (snd entry) label "active" in
  if existsb (entry_clash row) es
  then update_where (entry_clash row)
         (λ e, MkAddressEntry (fe_ID e) (fe_ListID e) (fe_Value e) (snd entry) label "active") es
  else es ++ [row].

Fixpoint upsert_entries (n : nat) (listID label : string) (new : list (string * string)) (es : list FirewallAddressEntry)
  : list FirewallAddressEntry :=
  match new with
  | [] => es
  | entry :: new => upsert_entries (S n) listID label new (upsert_entry (ids n) listID label entry es)
  end.

(** One source group of the transaction: its entries replaced. *)
Definition write_group (replace : bool) (n : nat) (listKey label : string) (new : list (string * string)) (st : catalog)
  : F catalog :=
  if negb replace && (match new with [] => true | _ => false end) then Ok st
  else match live_list listKey st with
  | None => Err QueryFailed
  | Some listID =>
      if forallb (λ e, pg_text (fst e)) new then
        Ok (set_entries (upsert_entries n listID label new
          (update_where (λ e, (fe_ListID e =s listID) && (fe_Label e =s label) && live_status (fe_Status e)) retire_entry
             (entries st))) st)
      else Err QueryFailed
  end.

Fixpoint write_groups (replace : bool) (n : nat) (groups : list (string * string * list (string * string))) (st : catalog)
  : F catalog :=
  match groups with
  | [] => Ok st
  | (listKey, label, new) :: groups =>
      st ← write_group replace n listKey label new st;
      write_groups replace (n + length new) groups st
  end.

(** The groups with their sources in normal form. *)
Fixpoint normalize_groups (specs : list (string * string * list string))
  : C (list (string * string * list (string * string))) :=
  match specs with
  | [] => Ok []
  | (listKey, label, values) :: specs =>
      new ← map_err (Side label) (normalizeFirewallManagementCIDRs values);
      groups ← normalize_groups specs;
      Ok ((listKey, label, new) :: groups)
  end.

(** The defaults are committed first; the identifiers after theirs are for the entries. *)
Definition upsertFirewallManagementCIDRs (input : FirewallManagementSettings) (replace : bool) (st : catalog)
  : option fs_error * catalog :=
  let st := EnsureDefaultFirewallPolicies ids json_text st in
  match normalize_groups (settings_specs input) with
  | Err e => (Some (Refused e), st)
  | Ok groups =>
      match write_groups replace 20 groups st with
      | Err e => (Some e, st)
      | Ok st => (None, st)
      end
  end.

Definition SeedFirewallManagementCIDRs (controlPlaneCIDRs sshBootstrapCIDRs : list string) (st : catalog)
  : option fs_error * catalog :=
  upsertFirewallManagementCIDRs (MkSettings controlPlaneCIDRs sshBootstrapCIDRs []) false st.

(** The values of one group, in the database's order. *)
Definition group_values (listKey label : string) (st : catalog) : list string :=
  isort text_before (fe_Value <$> List.filter (λ e,
    active_status (fe_Status e) && (fe_Label e =s label)
    && existsb (λ l, (fl_ID l =s fe_ListID e) && active_status (fl_Status l) && (fl_Key l =s listKey)) (lists st))
    (entries st)).

Definition read_settings (st : catalog) : FirewallManagementSettings :=
  MkSettings (group_values "trusted_control_plane" firewallManagedControlPlaneLabel st)
    (group_values "trusted_control_plane" firewallManagedSSHBootstrapLabel st)
    (group_values "trusted_operators" firewallManagedOperatorLabel st).

Definition GetFirewallManagementSettings (st : catalog) : FirewallManagementSettings * catalog :=
  let st := EnsureDefaultFirewallPolicies ids json_text st in (read_settings st, st).
End settings.

(** The settings are read after they are written; the reading call draws its own identifiers. *)
Definition UpdateFirewallManagementSettings (ids ids' : nat → string) (json_text : any → string)
    (text_before : string → string → bool) (input : FirewallManagementSettings) (st : catalog)
  : result fs_error FirewallManagementSettings * catalog :=
  match upsertFirewallManagementCIDRs ids json_text input true st with
  | (Some e, st) => (Err e, st)
  | (None, st) =>
      let '(settings, st) := GetFirewallManagementSettings ids' json_text text_before st in (Ok settings, st)
  end.
