(* ===== verification/FirewallJobs.v ===== *)
(** * Firewall jobs: from the catalogue to a queued job and back

    The part of [internal/infra/postgres/firewall.go] that turns a policy of the
    catalogue into the payload of a job, refuses a strict job that would cut
    off the node, requires a preview before a strict apply, queues the job and
    records its result, with the SSH checks of [internal/infra/postgres/bootstrap.go]. *)
From stdpp Require Import gmap.
From S2P Require Import Prelude GoStrings Strconv GoValue Sha256 Netip Firewall JobSchema FirewallCatalog FirewallTables Jobs.
From S2P Require JobQueue.
From Stdlib Require Import Ascii.
From stdpp Require Import options.
Open Scope Z_scope.

Record NodeAccessMethod := MkMethod { nm_Method : string; nm_IsEnabled : bool; nm_SSHPort : Z }.

(** What the rest of the database says of the nodes. *)
Record node_facts := {
  (** [lower(role)] of a node that is not retired *)
  nf_role : string → option string;
  (** enabled instances of the services that forward, and backhaul links in use *)
  nf_instances : string → Z;
  nf_backhauls : string → Z;
  nf_methods : string → list NodeAccessMethod;
  nf_known : string → bool }.

Inductive job_error :=
| Store (e : fs_error)
| NodeIDRequired
| NodeUnknown
| ListNotRenderable (rule side name : string)
| NoManagementSources (policy : string)
| NoSSHRule (policy : string) (port : Z)
| NoForwardSources (policy : string)
| NoControlPlaneOutput (policy : string)
| PreviewRequired
| JobRefused (e : Jobs.store_error).

Notation J := (result job_error).

Record firewallJobPayload := MkBuilt {
  bp_policy : FirewallPolicy; bp_revisionID : string; bp_revisionNo : Z;
  bp_rulePayload : list any; bp_rules : list FirewallRule; bp_payload : gomap; bp_payloadHash : string }.

(** ** Rules and lists as payloads *)

(** The order of [sort.SliceStable]. *)
Definition payload_less (a b : FirewallRule) : bool :=
  if fr_Priority a =? fr_Priority b then string_lt (fr_ID a) (fr_ID b) else fr_Priority a <? fr_Priority b.

Definition rule_payload (rule : FirewallRule) : gomap := list_to_map [
  ("id", AString (fr_ID rule)); ("priority", AInt (fr_Priority rule)); ("chain", AString (fr_Chain rule));
  ("action", AString (fr_Action rule)); ("direction", AString (fr_Direction rule));
  ("protocol", AString (fr_Protocol rule));
  ("src_list_id", AString (ruleStringPtr (fr_SrcListID rule))); ("src_list_key", AString (fr_SrcListKey rule));
  ("dst_list_id", AString (ruleStringPtr (fr_DstListID rule))); ("dst_list_key", AString (fr_DstListKey rule));
  ("src_cidr", AString (fr_SrcCIDR rule)); ("dst_cidr", AString (fr_DstCIDR rule));
  ("src_ports", AString (fr_SrcPorts rule)); ("dst_ports", AString (fr_DstPorts rule));
  ("state_match", AStrings (fr_StateMatch rule)); ("comment", AString (fr_Comment rule));
  ("enabled", ABool (fr_Enabled rule)); ("log", ABool (fr_Log rule)); ("status", AString (fr_Status rule))].

Definition firewallRulesPayload (rules : list FirewallRule) : list any :=
  (λ rule, AMap (rule_payload rule))
    <$> List.filter (λ rule, live_status (fr_Status rule)) (isort payload_less rules).

Definition entry_payload (e : FirewallAddressEntry) : gomap := list_to_map [
  ("id", AString (fe_ID e)); ("value", AString (fe_Value e)); ("value_type", AString (fe_ValueType e));
  ("label", AString (fe_Label e)); ("status", AString (fe_Status e))].

Definition list_payload (entries : list FirewallAddressEntry) (l : FirewallAddressList) : gomap := list_to_map [
  ("id", AString (fl_ID l)); ("key", AString (fl_Key l)); ("label", AString (fl_Label l));
  ("description", AString (fl_Description l)); ("scope", AString (fl_Scope l)); ("status", AString (fl_Status l));
  ("entries", ASlice ((λ e, AMap (entry_payload e)) <$> List.filter (λ e, fe_ListID e =s fl_ID l) entries))].

Definition firewallRuleAllowsNewState (values : list string) : bool :=
  match values with
  | [] => true
  | _ => existsb (λ value, equal_fold_ascii (trim_space value) "new") values
  end.

(** The loop of [firewallPortListContains]; a part that is no number is skipped. *)
Definition port_part_contains (target : Z) (part : string) : bool :=
  let part := trim_space part in
  if part =s "" then false
  else match cut_char "-" part with
  | Some (lo, hi) =>
      match atoi (trim_space lo), atoi (trim_space hi) with
      | Some from, Some to => (from <=? target) && (target <=? to)
      | _, _ => false
      end
  | None => match atoi part with Some port => port =? target | None => false end
  end.
Definition firewallPortListContains (ports : string) (target : Z) : bool :=
  if trim_space ports =s "" then true else existsb (port_part_contains target) (split_char "," ports).

(** Each port once, in the order of the methods; 22 for an unset port. *)
Definition add_ssh_port (out : list Z) (method : NodeAccessMethod) : list Z :=
  if negb (nm_IsEnabled method) || negb (nm_Method method =s "ssh") then out
  else
    let port := if nm_SSHPort method =? 0 then 22 else nm_SSHPort method in
    if (port <? 1) || (65535 <? port) || existsb (Z.eqb port) out then out else out ++ [port].
Definition sshBootstrapPorts (methods : list NodeAccessMethod) : list Z := foldl add_ssh_port [] methods.

Definition firewallSafetyMode (enforceDefaultPolicy : bool) : string :=
  if enforceDefaultPolicy then "strict" else "observe".

Definition firewallBool (raw : option any) : bool :=
  match raw with
  | Some (ABool value) => value
  | Some (AString value) => equal_fold_ascii (trim_space value) "true" || (trim_space value =s "1")
  | _ => false
  end.

(** The store's own [stringify]. *)
#[local] Notation stringify := JobQueue.stringify.

Section jobs.
Context (pg_uuid : string → option string) (text_before : string → string → bool).
Context (facts : node_facts).
(** [fmt.Sprint] of the values [stringify] does not print itself. *)
Context (sprint : any → string).
(** [json.Marshal], and the [->>] of a value that is no string. *)
Context (marshal : gomap → option string) (json_text : any → string).

(** ** Reading the catalogue *)

(** [order by r.policy_id,r.priority,r.created_at]. *)
Definition rule_before (a b : FirewallRule) : bool :=
  if fr_PolicyID a =s fr_PolicyID b then fr_Priority a <? fr_Priority b
  else string_lt (fr_PolicyID a) (fr_PolicyID b).

Definition listFirewallRules (policyID : string) (st : catalog) : F (list FirewallRule) :=
  let all := isort rule_before (read_rule st <$> List.filter (λ r, live_status (fr_Status r)) (rules st)) in
  if trim_space policyID =s "" then Ok all
  else match pg_uuid policyID with
  | Some policy => Ok (List.filter (λ r, fr_PolicyID r =s policy) all)
  | None => Err QueryFailed
  end.

(** [order by l.scope,l.key]. *)
Definition list_before (a b : FirewallAddressList) : bool :=
  if fl_Scope a =s fl_Scope b then text_before (fl_Key a) (fl_Key b) else text_before (fl_Scope a) (fl_Scope b).
Definition listFirewallAddressLists (st : catalog) : list FirewallAddressList :=
  isort list_before (List.filter (λ l, live_status (fl_Status l)) (lists st)).

(** [order by l.key,e.value], the entries of the lists that are not deleted. *)
Definition entry_before (st : catalog) (a b : FirewallAddressEntry) : bool :=
  let ka := list_key st (Some (fe_ListID a)) in
  let kb := list_key st (Some (fe_ListID b)) in
  if ka =s kb then text_before (fe_Value a) (fe_Value b) else text_before ka kb.
Definition in_live_list (st : catalog) (e : FirewallAddressEntry) : bool :=
  existsb (λ l, (fl_ID l =s fe_ListID e) && live_status (fl_Status l)) (lists st).
Definition listFirewallAddressEntries (st : catalog) : list FirewallAddressEntry :=
  isort (entry_before st) (List.filter (λ e, live_status (fe_Status e) && in_live_list st e) (entries st)).

Definition firewallAddressListsPayload (st : catalog) : list any :=
  (λ l, AMap (list_payload (listFirewallAddressEntries st) l)) <$> listFirewallAddressLists st.

Definition nextFirewallRevisionNo (policyID : string) (st : catalog) : Z :=
  foldr Z.max 0 (rv_No <$> List.filter (λ v, rv_PolicyID v =s policyID) (revisions st)) + 1.

(** The node's own active policy, else the active baseline. *)
Definition defaultFirewallPolicyForNode (nodeID : string) (st : catalog) : F FirewallPolicy :=
  match pg_uuid nodeID with
  | None => Err QueryFailed
  | Some node =>
      let own := λ p, active_status (fp_Status p) && bool_decide (fp_NodeID p = Some node) in
      let base := λ p, active_status (fp_Status p) && bool_decide (fp_NodeID p = None) && (fp_Key p =s "node_base") in
      match List.find own (policies st) with
      | Some p => Ok p
      | None => match List.find base (policies st) with Some p => Ok p | None => Err QueryFailed end
      end
  end.

Definition nodeRequiresFirewallForwardPreservation (nodeID : string) : F bool :=
  match nf_role facts nodeID with
  | None => Err QueryFailed
  | Some role =>
      if one_of role ["ingress"; "egress"] then Ok true
      else if 0 <? nf_instances facts nodeID then Ok true
      else Ok (0 <? nf_backhauls facts nodeID)
  end.

(** ** The payload *)

Definition canonical_payload (payload : gomap) : gomap := list_to_map [
  ("policy_id", AString (trim_space (stringify sprint (payload !! "policy_id"))));
  ("policy_key", AString (trim_space (stringify sprint (payload !! "policy_key"))));
  ("default_input_policy", AString (trim_space (stringify sprint (payload !! "default_input_policy"))));
  ("default_forward_policy", AString (trim_space (stringify sprint (payload !! "default_forward_policy"))));
  ("default_output_policy", AString (trim_space (stringify sprint (payload !! "default_output_policy"))));
  ("enforce_default_policy", ABool (firewallBool (payload !! "enforce_default_policy")));
  ("rules", default ANil (payload !! "rules"));
  ("address_lists", default ANil (payload !! "address_lists"))].

Definition mustJSON (v : gomap) : string := default "{}" (marshal v).

Definition firewallStablePayloadHash (payload : gomap) : string := sha256_hex (mustJSON (canonical_payload payload)).

Definition ssh_ports (nodeID : string) : list Z :=
  match sshBootstrapPorts (nf_methods facts nodeID) with [] => [22] | ports => ports end.

Definition base_payload (nodeID : string) (policy : FirewallPolicy) (revisionID : string) (revisionNo : Z)
    (enforceDefaultPolicy : bool) (rulePayload addressListPayload : list any) (requiresForward : bool) : gomap :=
  list_to_map [
    ("node_id", AString nodeID); ("policy_id", AString (fp_ID policy)); ("policy_key", AString (fp_Key policy));
    ("revision_id", AString revisionID); ("revision_no", AInt revisionNo);
    ("default_input_policy", AString (fp_DefaultInputPolicy policy));
    ("default_forward_policy", AString (fp_DefaultForwardPolicy policy));
    ("default_output_policy", AString (fp_DefaultOutputPolicy policy));
    ("enforce_default_policy", ABool enforceDefaultPolicy);
    ("rules", ASlice rulePayload); ("address_lists", ASlice addressListPayload);
    ("ssh_bootstrap_ports", AInts (ssh_ports nodeID));
    ("node_requires_forward_preservation", ABool requiresForward)].

Definition buildFirewallJobPayload (revisionID nodeID policyID : string) (enforceDefaultPolicy : bool) (st : catalog)
  : J firewallJobPayload :=
  let nodeID := trim_space nodeID in
  let policyID := trim_space policyID in
  if nodeID =s "" then Err NodeIDRequired
  else
    policyID ← map_err Store (if policyID =s "" then fp_ID <$> defaultFirewallPolicyForNode nodeID st else Ok policyID);
    policy ← map_err Store (getFirewallPolicy pg_uuid policyID st);
    rules ← map_err Store (listFirewallRules policyID st);
    let rulePayload := firewallRulesPayload rules in
    requiresForward ← map_err Store (nodeRequiresFirewallForwardPreservation nodeID);
    let revisionNo := nextFirewallRevisionNo (fp_ID policy) st in
    let payload := base_payload nodeID policy revisionID revisionNo enforceDefaultPolicy rulePayload
                     (firewallAddressListsPayload st) requiresForward in
    let payloadHash := firewallStablePayloadHash payload in
    let payload := <["firewall_payload_version" := AInt 1]> payload in
    let payload := <["firewall_payload_hash" := AString payloadHash]> payload in
    let payload := <["safety_mode" := AString (firewallSafetyMode enforceDefaultPolicy)]> payload in
    Ok (MkBuilt policy revisionID revisionNo rulePayload (isort payload_less rules) payload payloadHash).

(** ** Safety of a strict job *)

Definition renderable_type (valueType : string) : bool := one_of valueType ["cidr"; "address"; "range"].

(** The active entries of the active lists that match. *)
Definition active_entries (hit : FirewallAddressList → bool) (st : catalog) : list FirewallAddressEntry :=
  List.filter (λ e, active_status (fe_Status e) && renderable_type (fe_ValueType e)
    && existsb (λ l, (fl_ID l =s fe_ListID e) && active_status (fl_Status l) && hit l) (lists st)) (entries st).

Definition firewallAddressListHasRenderableEntries (listID : string) (st : catalog) : F bool :=
  let listID := trim_space listID in
  if listID =s "" then Ok false
  else match pg_uuid listID with
  | None => Err QueryFailed
  | Some id => Ok (match active_entries (λ l, fl_ID l =s id) st with [] => false | _ => true end)
  end.

Definition non_any (es : list FirewallAddressEntry) : bool :=
  existsb (λ e, firewallAddressEntryRenderableNonAny (fe_Value e) (fe_ValueType e)) es.

Definition firewallAddressListHasRenderableNonAnyEntries (listID listKey : string) (st : catalog) : F bool :=
  let listID := trim_space listID in
  let listKey := trim_space listKey in
  if (listID =s "") && (listKey =s "") then Ok false
  else if negb (listID =s "") then
    match pg_uuid listID with
    | None => Err QueryFailed
    | Some id => Ok (non_any (active_entries (λ l, fl_ID l =s id) st))
    end
  else Ok (non_any (active_entries (λ l, fl_Key l =s listKey) st)).

Definition firewallHasRenderableTrustedManagementSources (st : catalog) : F bool :=
  ok ← firewallAddressListHasRenderableNonAnyEntries "" "trusted_control_plane" st;
  if (ok : bool) then Ok true else firewallAddressListHasRenderableNonAnyEntries "" "trusted_operators" st.

(** The enabled, active rules of a policy that accept in a chain, with their list keys. *)
Definition accepting_rules (policyID chain : string) (protocols : option (list string)) (st : catalog) : list FirewallRule :=
  read_rule st <$> List.filter (λ r,
    (fr_PolicyID r =s policyID) && active_status (fr_Status r) && fr_Enabled r && (fr_Chain r =s chain)
    && (fr_Action r =s "accept")
    && match protocols with Some ps => one_of (fr_Protocol r) ps | None => true end) (rules st).

(** A loop over rows that ends at the first row for which [f] says so. *)
Fixpoint any_row {A} (f : A → F bool) (rows : list A) : F bool :=
  match rows with
  | [] => Ok false
  | row :: rows => b ← f row; if (b : bool) then Ok true else any_row f rows
  end.

(** [col::text] of an identifier column. *)
Definition text_column (v : option string) : string := default "" v.

(** An address prefix that is not the whole address space. *)
Definition specific_prefix (cidr : string) : bool :=
  match ParsePrefix (trim_space cidr) with
  | Some prefix => negb (firewallAddressValueIsAny (prefix_string prefix) "cidr")
  | None => false
  end.

(** An error of the query counts as no. *)
Definition firewallRuleHasTrustedControlSource (st : catalog) (srcCIDR srcListID srcListKey : string) : bool :=
  if negb (trim_space srcCIDR =s "") then specific_prefix srcCIDR
  else if trim_space srcListID =s "" then false
  else
    let srcListKey := to_lower (trim_space srcListKey) in
    if negb (srcListKey =s "trusted_control_plane") && negb (srcListKey =s "trusted_operators") then false
    else match firewallAddressListHasRenderableNonAnyEntries srcListID srcListKey st with
    | Ok b => b
    | Err _ => false
    end.

Definition firewallPolicyAllowsStrictSSHBootstrapPort (policyID : string) (port : Z) (st : catalog) : F bool :=
  managedSources ← firewallHasRenderableTrustedManagementSources st;
  if (managedSources : bool) then Ok true
  else Ok (existsb (λ r,
    firewallRuleAllowsNewState (fr_StateMatch r)
    && negb ((fr_Protocol r =s "tcp") && negb (firewallPortListContains (fr_DstPorts r) port))
    && negb ((fr_Protocol r =s "any") && negb (trim_space (fr_DstPorts r) =s ""))
    && firewallRuleHasTrustedControlSource st (fr_SrcCIDR r) (text_column (fr_SrcListID r)) (fr_SrcListKey r))
    (accepting_rules policyID "input" (Some ["tcp"; "any"]) st)).

Definition firewallPolicyAllowsStrictForwardSources (policyID : string) (st : catalog) : F bool :=
  any_row (λ r,
    if negb (firewallRuleAllowsNewState (fr_StateMatch r)) then Ok false
    else
      let srcListKey := to_lower (trim_space (fr_SrcListKey r)) in
      if negb (srcListKey =s "vpn_client_sources") && negb (srcListKey =s "backhaul_sources") then Ok false
      else firewallAddressListHasRenderableNonAnyEntries (text_column (fr_SrcListID r)) srcListKey st)
    (accepting_rules policyID "forward" None st).

Definition firewallPolicyAllowsStrictControlPlaneOutput (policyID : string) (st : catalog) : F bool :=
  any_row (λ r,
    if negb (firewallRuleAllowsNewState (fr_StateMatch r)) then Ok false
    else if negb (trim_space (fr_DstCIDR r) =s "") then Ok (specific_prefix (fr_DstCIDR r))
    else if (trim_space (text_column (fr_DstListID r)) =s "") && (trim_space (fr_DstListKey r) =s "") then Ok false
    else firewallAddressListHasRenderableNonAnyEntries (text_column (fr_DstListID r)) (fr_DstListKey r) st)
    (accepting_rules policyID "output" (Some ["tcp"; "any"]) st).

(** One list of a rule: it has entries that are rendered. *)
Definition check_list (rule : FirewallRule) (side : string) (id : option string) (key : string) (st : catalog) : J () :=
  let listID := ruleStringPtr id in
  if listID =s "" then Ok tt
  else
    ok ← map_err Store (firewallAddressListHasRenderableEntries listID st);
    if (ok : bool) then Ok tt else Err (ListNotRenderable (fr_ID rule) side (firewallFirst [key; listID])).

Fixpoint validateFirewallStrictAddressLists (rules : list FirewallRule) (st : catalog) : J () :=
  match rules with
  | [] => Ok tt
  | rule :: rules =>
      if negb (fr_Enabled rule) || negb (active_status (fr_Status rule)) || negb (fr_Action rule =s "accept")
      then validateFirewallStrictAddressLists rules st
      else
        _ ← check_list rule "source" (fr_SrcListID rule) (fr_SrcListKey rule) st;
        _ ← check_list rule "destination" (fr_DstListID rule) (fr_DstListKey rule) st;
        validateFirewallStrictAddressLists rules st
  end.

Fixpoint check_ssh_ports (policy : FirewallPolicy) (ports : list Z) (st : catalog) : J () :=
  match ports with
  | [] => Ok tt
  | port :: ports =>
      allowed ← map_err Store (firewallPolicyAllowsStrictSSHBootstrapPort (fp_ID policy) port st);
      if (allowed : bool) then check_ssh_ports policy ports st else Err (NoSSHRule (fp_DefaultInputPolicy policy) port)
  end.

Definition validateFirewallStrictJobSafety (nodeID : string) (built : firewallJobPayload) (st : catalog) : J () :=
  let policy := bp_policy built in
  if negb (firewallBool (bp_payload built !! "enforce_default_policy")) then Ok tt
  else
    _ ← validateFirewallStrictAddressLists (bp_rules built) st;
    _ ← (if fp_DefaultInputPolicy policy =s "accept" then Ok tt
         else
           hasManagementSources ← map_err Store (firewallHasRenderableTrustedManagementSources st);
           if negb hasManagementSources then Err (NoManagementSources (fp_DefaultInputPolicy policy))
           else check_ssh_ports policy (ssh_ports nodeID) st);
    _ ← (if fp_DefaultForwardPolicy policy =s "accept" then Ok tt
         else
           requiresForward ← map_err Store (nodeRequiresFirewallForwardPreservation nodeID);
           if negb requiresForward then Ok tt
           else
             allowed ← map_err Store (firewallPolicyAllowsStrictForwardSources (fp_ID policy) st);
             if (allowed : bool) then Ok tt else Err (NoForwardSources (fp_DefaultForwardPolicy policy)));
    if fp_DefaultOutputPolicy policy =s "accept" then Ok tt
    else
      allowed ← map_err Store (firewallPolicyAllowsStrictControlPlaneOutput (fp_ID policy) st);
      if (allowed : bool) then Ok tt else Err (NoControlPlaneOutput (fp_DefaultOutputPolicy policy)).

(** [payload_json->>key]: null and a missing key read as the empty text here. *)
Definition json_field (m : option gomap) (key : string) : string :=
  match m with
  | None => ""
  | Some m =>
      match m !! key with
      | None | Some ANil => ""
      | Some (AString s) => s
      | Some v => json_text v
      end
  end.

(** A succeeded preview of the same policy, payload and mode, with a rendered script. *)
Definition matching_preview (node : string) (built : firewallJobPayload) (j : Job) : bool :=
  (Type_ j =s "node.firewall.preview") && (Status j =s "succeeded") && (ScopeType j =s "node")
  && bool_decide (ScopeID j = Some node)
  && (json_field (Payload j) "policy_id" =s fp_ID (bp_policy built))
  && (json_field (Payload j) "firewall_payload_hash" =s bp_payloadHash built)
  && (json_field (Payload j) "safety_mode" =s firewallSafetyMode true)
  && negb (json_field (Result j) "rendered_hash" =s "").

Definition requireMatchingFirewallPreview (nodeID : string) (built : firewallJobPayload) (st : catalog) : J () :=
  match pg_uuid nodeID with
  | None => Err (Store QueryFailed)
  | Some node => if existsb (matching_preview node built) (jobs st) then Ok tt else Err PreviewRequired
  end.

(** ** Queueing *)

Definition set_jobs x st :=
  MkCatalog (lists st) (entries st) (policies st) (rules st) (revisions st) (node_states st) x.

Definition firewall_job (jobType nodeID : string) (payload : gomap) : Job :=
  MkJob "" jobType "node" "" (Some nodeID) (Some nodeID) None 0 (Some payload) None None None None None None.

(** The row of a job, its columns of type [uuid] read. *)
Definition job_row (j : Job) : option Job :=
  scope ← uuid_column pg_uuid (ScopeID j);
  node ← uuid_column pg_uuid (NodeID j);
  if match node with Some n => nf_known facts n | None => true end
  then Some (MkJob (ID j) (Type_ j) (ScopeType j) (Status j) scope node (InstanceID j) (Priority j) (Payload j) (Result j)
               (LockedBy j) (LockedUntil j) (CreatedAt j) (StartedAt j) (FinishedAt j))
  else None.

Definition insertJobRow (j : Job) (st : catalog) : option catalog :=
  row ← job_row j;
  if existsb (λ x, ID x =s ID row) (jobs st) then None else Some (set_jobs (jobs st ++ [row]) st).

Definition CreateFirewallPreviewJob (revisionID jobID : string) (now : Z) (nodeID policyID : string)
    (enforceDefaultPolicy : bool) (st : catalog) : J Job * catalog :=
  let nodeID := trim_space nodeID in
  match (built ← buildFirewallJobPayload revisionID nodeID policyID enforceDefaultPolicy st;
         _ ← validateFirewallStrictJobSafety nodeID built st;
         map_err JobRefused (normalizeJobForInsert jobID now marshal
           (firewall_job "node.firewall.preview" nodeID (bp_payload built)))) with
  | Err e => (Err e, st)
  | Ok (job, _) =>
      match insertJobRow job st with
      | None => (Err (Store QueryFailed), st)
      | Some st => (Ok job, st)
      end
  end.

Definition insert_revision (v : FirewallRevision) (st : catalog) : option catalog :=
  if existsb (λ x, (rv_ID x =s rv_ID v) || ((rv_PolicyID x =s rv_PolicyID v) && (rv_No x =? rv_No v))) (revisions st)
  then None
  else Some (MkCatalog (lists st) (entries st) (policies st) (rules st) (revisions st ++ [v]) (node_states st) (jobs st)).

(** [insert ... on conflict(node_id) do update]: the row of the node, changed by [f]. *)
Definition upsert_state (fresh : FirewallNodeState) (f : FirewallNodeState → FirewallNodeState) (st : catalog) : catalog :=
  let states :=
    if existsb (λ s, ns_NodeID s =s ns_NodeID fresh) (node_states st)
    then update_where (λ s, ns_NodeID s =s ns_NodeID fresh) f (node_states st)
    else node_states st ++ [fresh] in
  MkCatalog (lists st) (entries st) (policies st) (rules st) (revisions st) states (jobs st).

Definition CreateFirewallApplyJob (revisionID jobID : string) (now : Z) (nodeID policyID : string)
    (enforceDefaultPolicy : bool) (st : catalog) : J Job * catalog :=
  let nodeID := trim_space nodeID in
  match (built ← buildFirewallJobPayload revisionID nodeID policyID enforceDefaultPolicy st;
         _ ← validateFirewallStrictJobSafety nodeID built st;
         _ ← (if enforceDefaultPolicy then requireMatchingFirewallPreview nodeID built st else Ok tt);
         job ← map_err JobRefused (normalizeJobForInsert jobID now marshal
           (firewall_job "node.firewall.apply" nodeID (bp_payload built)));
         Ok (built, job)) with
  | Err e => (Err e, st)
  | Ok (built, (job, _)) =>
      match (st' ← insert_revision (MkRevision revisionID (fp_ID (bp_policy built)) (bp_revisionNo built) ""
                      (bp_rulePayload built)) st;
             st' ← insertJobRow job st';
             node ← pg_uuid nodeID;
             Some (upsert_state
               (MkNodeState node (Some (fp_ID (bp_policy built))) None (Some revisionID) "pending" (Some ∅) (ID job))
               (λ s, MkNodeState (ns_NodeID s) (Some (fp_ID (bp_policy built))) (ns_RevisionID s) (Some revisionID)
                       "pending" (ns_Observed s) (ID job)) st')) with
      | None => (Err (Store QueryFailed), st)
      | Some st' => (Ok job, st')
      end
  end.

Definition disable_payload (nodeID : string) : gomap :=
  list_to_map [("node_id", AString nodeID); ("disable_reason", AString "operator_requested")].

Definition CreateFirewallDisableJob (jobID : string) (now : Z) (nodeID : string) (st : catalog) : J Job * catalog :=
  let nodeID := trim_space nodeID in
  if nodeID =s "" then (Err NodeIDRequired, st)
  else if negb (match pg_uuid nodeID with Some n => nf_known facts n | None => false end) then (Err NodeUnknown, st)
  else match map_err JobRefused (normalizeJobForInsert jobID now marshal
               (firewall_job "node.firewall.disable" nodeID (disable_payload nodeID))) with
  | Err e => (Err e, st)
  | Ok (job, _) =>
      match (st' ← insertJobRow job st;
             node ← pg_uuid nodeID;
             Some (upsert_state (MkNodeState node None None None "pending_disable" (Some ∅) (ID job))
               (λ s, MkNodeState (ns_NodeID s) None None None "pending_disable" (ns_Observed s) (ID job)) st')) with
      | None => (Err (Store QueryFailed), st)
      | Some st' => (Ok job, st')
      end
  end.

(** ** Results *)

Definition result_node (job : Job) : string :=
  let nodeID := match ScopeID job with Some s => trim_space s | None => "" end in
  let nodeID := if nodeID =s "" then match NodeID job with Some s => trim_space s | None => "" end else nodeID in
  if nodeID =s "" then trim_space (stringify sprint (default ∅ (Payload job) !! "node_id")) else nodeID.

(** [nullIfEmpty] of an identifier column. *)
Definition nullable_uuid (v : string) : option (option string) :=
  uuid_column pg_uuid (if trim_space v =s "" then None else Some v).

Definition known_policy (st : catalog) (id : option string) : bool :=
  match id with Some id => existsb (λ p, fp_ID p =s id) (policies st) | None => true end.
Definition known_revision (st : catalog) (id : option string) : bool :=
  match id with Some id => existsb (λ v, rv_ID v =s id) (revisions st) | None => true end.

Definition applyFirewallApplyJobResult (job : Job) (status : string) (result : gomap) (st : catalog)
  : option fs_error * catalog :=
  let nodeID := result_node job in
  if nodeID =s "" then (None, st)
  else
    let policyID := trim_space (stringify sprint (default ∅ (Payload job) !! "policy_id")) in
    let revisionID := trim_space (stringify sprint (default ∅ (Payload job) !! "revision_id")) in
    let state := if status =s "succeeded" then "applied" else "failed" in
    match (node ← pg_uuid nodeID; policy ← nullable_uuid policyID; revision ← nullable_uuid revisionID;
           Some (node, policy, revision)) with
    | None => (Some QueryFailed, st)
    | Some (node, policy, revision) =>
        if negb (nf_known facts node) || negb (known_policy st policy) || negb (known_revision st revision)
        then (Some QueryFailed, st)
        else
          let st := upsert_state (MkNodeState node policy revision revision state (Some result) (ID job))
            (λ s, MkNodeState (ns_NodeID s) policy (if state =s "applied" then revision else ns_RevisionID s) revision
                    state (Some result) (ID job)) st in
          let renderedHash := trim_space (stringify sprint (result !! "rendered_hash")) in
          if (revisionID =s "") || (renderedHash =s "") then (None, st)
          else (None, MkCatalog (lists st) (entries st) (policies st) (rules st)
            (update_where (λ v, bool_decide (revision = Some (rv_ID v)))
               (λ v, MkRevision (rv_ID v) (rv_PolicyID v) (rv_No v) renderedHash (rv_Rules v)) (revisions st))
            (node_states st) (jobs st))
    end.

Definition applyFirewallDisableJobResult (job : Job) (status : string) (result : gomap) (st : catalog)
  : option fs_error * catalog :=
  let nodeID := result_node job in
  if nodeID =s "" then (None, st)
  else
    let state := if status =s "succeeded" then "disabled" else "failed" in
    match pg_uuid nodeID with
    | None => (Some QueryFailed, st)
    | Some node =>
        if negb (nf_known facts node) then (Some QueryFailed, st)
        else (None, upsert_state (MkNodeState node None None None state (Some result) (ID job))
               (λ s, MkNodeState (ns_NodeID s) None None None state (Some result) (ID job)) st)
    end.

Definition ApplyFirewallJobResult (job : Job) (status : string) (result : gomap) (st : catalog)
  : option fs_error * catalog :=
  let t := trim_space (Type_ job) in
  if t =s "node.firewall.apply" then applyFirewallApplyJobResult job status result st
  else if t =s "node.firewall.disable" then applyFirewallDisableJobResult job status result st
  else (None, st).
End jobs.
