(* ===== verification/FirewallFlow.v ===== *)
(** * From the catalogue to the agent

    What the control plane accepts and stores ([FirewallCatalog],
    [FirewallTables]) is sent as JSON ([FirewallJobs], [JsonImage]) and read
    again by the agent ([Firewall]).  The two sides have their own copy of every
    check.  This file relates them field by field: the stored form of a rule or
    an entry is a fixed point of the agent's normalisation, except where a
    lemma here says otherwise. *)
From stdpp Require Import gmap.
From S2P Require Import Prelude GoStrings Strconv GoValue Netip Firewall FirewallText FirewallFields JsonImage FirewallCatalog FirewallTables FirewallJobs.
From Stdlib Require Import Ascii.
From stdpp Require Import options.
Open Scope Z_scope.

(** ** The same functions on both sides *)

Lemma CIDR_agree s c : normalizeFirewallCIDR s = Ok c ↔ normalizeNodeFirewallCIDR s = Ok c.
Proof.
  unfold normalizeFirewallCIDR, normalizeNodeFirewallCIDR.
  repeat case_match; naive_solver.
Qed.

Lemma port_agree s p : parseFirewallPort s = Ok p ↔ parseNodeFirewallPort s = Ok p.
Proof. unfold parseFirewallPort, parseNodeFirewallPort. repeat case_match; naive_solver. Qed.

(** Two computations that succeed on the same values. *)
Definition agrees {E F A} (m : result E A) (n : result F A) : Prop := ∀ a, m = Ok a ↔ n = Ok a.

Lemma agrees_bind {E F A B} (m : result E A) (n : result F A) (f : A → result E B) (g : A → result F B) :
  agrees m n → (∀ a, agrees (f a) (g a)) → agrees (m ≫= f) (n ≫= g).
Proof.
  intros Hm Hf b. split; intros (a & Ha%Hm & Hb%Hf)%bind_ok_inv; rewrite Ha; exact Hb.
Qed.

Lemma agrees_ok {E F A} (a : A) : agrees (Ok a : result E A) (Ok a : result F A).
Proof. intros b. split; by intros [= <-]. Qed.
#[local] Hint Resolve agrees_ok : core.

Lemma part_agree s : agrees (firewall_port_part s) (normalize_port_part s).
Proof.
  unfold firewall_port_part, normalize_port_part. destruct (_ =s ""); [auto|].
  destruct (cut_char "-" (trim_space s)) as [[lo hi]|].
  - apply agrees_bind; [intros a; apply port_agree|]. intros from.
    apply agrees_bind; [intros a; apply port_agree|]. intros to. destruct (to <? from); [|auto]. by intros a; split.
  - apply agrees_bind; [intros a; apply port_agree|]. auto.
Qed.

Lemma parts_agree l : agrees (firewall_port_parts l) (normalize_port_parts l).
Proof.
  induction l as [|s l IH]; [apply agrees_ok|]. simpl.
  apply agrees_bind; [apply part_agree|]. intros p. apply agrees_bind; [exact IH|]. auto.
Qed.

Lemma Ports_agree s t : normalizeFirewallPorts s = Ok t ↔ normalizeNodeFirewallPorts s = Ok t.
Proof.
  unfold normalizeFirewallPorts, normalizeNodeFirewallPorts. destruct (_ || _); [naive_solver|].
  apply agrees_bind; [apply parts_agree|]. auto.
Qed.

(** ** Fields that read back *)

Lemma lit_trim_lower v l :
  one_of v l = true → forallb (λ x, (trim_space x =s x) && (to_lower x =s x) && (json_string x =s x)) l = true →
  trim_space v = v ∧ to_lower v = v ∧ json_string v = v.
Proof.
  intros Hv%one_of_spec%list_elem_of_In Hl. rewrite forallb_forall in Hl. apply Hl in Hv. split_bools.
  repeat match goal with H : (_ =s _) = true |- _ => apply String.eqb_eq in H end. done.
Qed.

(** A CIDR column without a zone holds nothing or a masked prefix. *)
Definition cidr_column (c : string) : Prop := c = "" ∨ ∃ p, prefix_ok p ∧ Masked p = p ∧ c = prefix_string p.

Lemma stored_cidr s c : normalizeFirewallCIDR s = Ok c → zone_free s = true → cidr_column c.
Proof.
  intros H%CIDR_agree Hz. destruct (normalize_cidr_cases s c H Hz) as [->|(p & _ & Hp & ->)]; [by left|right].
  exists (Masked p). by rewrite Masked_idemp; split; [apply Masked_ok|].
Qed.

(** An inclusion of byte classes, by checking every byte. *)
Lemma byte_class (p q : ascii → bool) :
  all_below 256 (λ z, implb (p (byte_chr z)) (q (byte_chr z))) = true → ∀ a, p a = true → q a = true.
Proof.
  intros H a Ha. pose proof (all_below_spec _ _ (byte_val a) H) as Hb.
  cbv beta in Hb. rewrite byte_chr_val, Ha in Hb. apply Hb, byte_val_range.
Qed.
Lemma no_space_ascii a : no_space a = true → ascii_byte a = true.
Proof. unfold no_space. by intros [? _]%andb_true_iff. Qed.

Lemma prefix_json p : prefix_ok p → json_string (prefix_string p) = prefix_string p.
Proof.
  intros Hp. apply json_string_ascii. eapply all_bytes_impl; [apply no_space_ascii|by apply prefix_no_space].
Qed.

Lemma cidr_column_fixed c : cidr_column c → json_string c = c ∧ trim_space c = c ∧ normalizeNodeFirewallCIDR c = Ok c.
Proof.
  intros [->|(p & Hp & Hm & ->)]; [done|].
  split; [by apply prefix_json|]. split; [by apply trim_space_no_space, prefix_no_space|].
  by apply normalize_prefix_string.
Qed.

(** A ports column holds a normal form. *)
Definition ports_column (t : string) : Prop := ∃ s, normalizeFirewallPorts s = Ok t.

Lemma ports_byte_no_space a : ports_byte a = true → no_space a = true.
Proof. apply byte_class. by vm_compute. Qed.

Lemma ports_column_fixed t :
  ports_column t → json_string t = t ∧ trim_space t = t ∧ normalizeNodeFirewallPorts t = Ok t.
Proof.
  intros [s H%Ports_agree]. pose proof (normal_ports_bytes s t H) as Hb.
  assert (all_bytes no_space t) as Hs by (eapply all_bytes_impl; [apply ports_byte_no_space|done]).
  split; [apply json_string_ascii; eapply all_bytes_impl; [apply no_space_ascii|done]|].
  split; [by apply trim_space_no_space|].
  destruct (normalize_ports_cases s t H) as [->|(items & Hne & Hi & -> & _)]; [done|].
  by apply normalize_show_items.
Qed.

(** The states a rule matches: each once, in the agent's vocabulary. *)
Definition states : list string := ["new"; "established"; "related"; "invalid"].
Definition states_column (l : list string) : Prop := NoDup l ∧ Forall (λ s, s ∈ states) l.

Lemma stored_states l : states_column (normalizeFirewallStateMatch l).
Proof.
  unfold normalizeFirewallStateMatch.
  assert (∀ out, states_column out → states_column (foldl add_state_match out l)) as H; [|apply H; by split; constructor].
  induction l as [|v l IH]; intros out Ho; [done|]. simpl. apply IH.
  unfold add_state_match. case_match eqn:E; [done|]. apply orb_false_iff in E as [E1%negb_false_iff E2].
  apply one_of_spec in E1. apply one_of_false in E2. destruct Ho as [Hn Hf]. split.
  - apply NoDup_app. split_and!; [done| |by apply NoDup_singleton]. intros x Hx ->%list_elem_of_singleton. done.
  - apply Forall_app. by split; [|constructor].
Qed.

Lemma states_fixed sprint l : states_column l →
  normalizeNodeFirewallStateMatch sprint (Some (ASlice ((λ s, AString (json_string s)) <$> l))) = l.
Proof.
  intros [Hn Hf]. unfold normalizeNodeFirewallStateMatch.
  rewrite <-list_fmap_compose.
  assert (((λ item, stringify sprint (Some item)) ∘ (λ s, AString (json_string s))) <$> l = l) as E.
  { clear Hn. induction Hf as [|s l Hs _ IH]; [done|]. simpl. f_equal; [|done].
    unfold states in Hs. repeat (apply elem_of_cons in Hs as [->|Hs]; [done|]). by apply elem_of_nil in Hs. }
  assert (∀ out, NoDup (out ++ l) → foldl add_state out l = out ++ l) as H.
  { clear E Hn. induction Hf as [|s l Hs _ IH]; intros out Hn; [by rewrite app_nil_r|]. simpl.
    assert (add_state out s = out ++ [s]) as ->.
    { unfold add_state. assert (to_lower (trim_space s) = s) as ->.
      { unfold states in Hs. repeat (apply elem_of_cons in Hs as [->|Hs]; [done|]). by apply elem_of_nil in Hs. }
      unfold inLocal. fold states. rewrite (proj2 (one_of_spec s states) Hs). simpl.
      replace (one_of s out) with false; [done|]. symmetry. apply one_of_false. intros Hs'.
      apply NoDup_app in Hn as (_ & Hn & _). apply (Hn s Hs'). by apply elem_of_cons; left. }
    rewrite IH; by rewrite <-app_assoc. }
  transitivity (foldl add_state [] l); [|by apply (H [])].
  f_equal. rewrite <-E at 2. done.
Qed.

(** ** Rules *)

(** A row of [firewall_rules] as the normalisation leaves it. *)
Record rule_ok (r : FirewallRule) : Prop := {
  ro_checks : rule_checks r = true;
  ro_src : ∃ s, normalizeFirewallCIDR s = Ok (fr_SrcCIDR r);
  ro_dst : ∃ s, normalizeFirewallCIDR s = Ok (fr_DstCIDR r);
  ro_src_ports : ports_column (fr_SrcPorts r);
  ro_dst_ports : ports_column (fr_DstPorts r);
  ro_protocol : fr_SrcPorts r ≠ "" ∨ fr_DstPorts r ≠ "" → fr_Protocol r = "tcp" ∨ fr_Protocol r = "udp";
  ro_states : states_column (fr_StateMatch r);
  ro_comment : trim_space (fr_Comment r) = fr_Comment r }.

Lemma pg_text_json s : pg_text s = true → json_string s = s.
Proof. unfold pg_text. by intros [?%String.eqb_eq _]%andb_true_iff. Qed.

(** Identifiers and keys: text that reads back as it is. *)
Definition plain (s : string) : Prop := json_string s = s ∧ trim_space s = s.

Lemma plain_no_space s : all_bytes no_space s → plain s.
Proof.
  intros H. split; [|by apply trim_space_no_space].
  apply json_string_ascii. eapply all_bytes_impl; [apply no_space_ascii|done].
Qed.

Lemma zone_free_addr a rest : zone_free (addr_string a +:+ rest) = true → zone_of a = "".
Proof.
  rewrite zone_free_spec, bytes_app. intros H. destruct a as [n|n z]; [done|].
  unfold addr_string in H. simpl. destruct z as [|c z]; [done|]. exfalso. apply H.
  apply elem_of_app. left. repeat case_match; simplify_eq; rewrite ?bytes_app; set_solver.
Qed.

Lemma stored_cidr_column c : (∃ s, normalizeFirewallCIDR s = Ok c) → zone_free c = true → cidr_column c.
Proof.
  intros [s H] Hz. unfold normalizeFirewallCIDR in H. case_match; [injection H as <-; by left|].
  destruct (ParsePrefix (trim_space s)) as [p|] eqn:Ep.
  { injection H as <-. right. exists (Masked p). apply ParsePrefix_ok in Ep.
    by rewrite Masked_idemp; split; [apply Masked_ok|]. }
  destruct (ParseAddr (trim_space s)) as [a|] eqn:Ea; [|done]. injection H as <-. right.
  apply zone_free_addr in Hz. apply ParseAddr_ok in Ea.
  destruct (host_prefix_ok a Ea Hz). exists (host_prefix a). by rewrite host_prefix_string.
Qed.

(** What the agent makes of a stored rule. *)
Definition agent_rule (r : FirewallRule) : nodeFirewallRule :=
  {| rule_ID := fr_ID r; rule_Priority := fr_Priority r; rule_Chain := fr_Chain r; rule_Action := fr_Action r;
     rule_Protocol := fr_Protocol r; SrcListID := text_column (fr_SrcListID r); SrcListKey := fr_SrcListKey r;
     DstListID := text_column (fr_DstListID r); DstListKey := fr_DstListKey r;
     SrcCIDR := fr_SrcCIDR r; DstCIDR := fr_DstCIDR r; SrcPorts := fr_SrcPorts r; DstPorts := fr_DstPorts r;
     StateMatch := fr_StateMatch r; rule_Comment := fr_Comment r; rule_Enabled := fr_Enabled r;
     rule_Status := fr_Status r |}.

(** A text field of a payload, as the agent reads it. *)
Lemma read_text sprint other (m : gomap) k v :
  m !! k = Some (AString v) → plain v → stringify sprint (json_map other m !! k) = v.
Proof. intros Hm [Hj Ht]. unfold json_map. rewrite lookup_fmap, Hm. simpl. by rewrite Hj. Qed.

Lemma int_field z : 0 ≤ z < 2 ^ 53 → intFromAny (Some (AFloat64 (float_of_Z z))) = z.
Proof.
  intros Hz. simpl. rewrite int_of_float_Z by done.
  destruct (float_is (float_of_Z z) 0) eqn:E; [|done].
  apply int_of_float_is in E; [|by vm_compute]. rewrite int_of_float_Z in E; done.
Qed.

Lemma first_self v vs : trim_space v = v → v ≠ "" → first (v :: vs) = v.
Proof. intros Ht Hn. simpl. by rewrite Ht, (proj2 (String.eqb_neq _ _) Hn). Qed.

Lemma lit_nonempty v l : one_of v l = true → one_of "" l = false → v ≠ "".
Proof. intros H1 H2 ->. congruence. Qed.

(** Replace every text field of the payload [m] that the goal reads by its value. *)
Ltac read_fields m :=
  repeat match goal with
  | |- context [stringify ?sp (json_map ?ot m !! ?k)] =>
      erewrite (read_text sp ot m k); [|reflexivity|split; congruence]
  end.

Ltac literal_fields :=
  repeat match goal with
  | H : one_of ?v ?l = true |- _ => destruct (lit_trim_lower v l H eq_refl) as (? & ? & ?); revert H
  end; intros.

(** The agent reads a stored rule whose CIDRs have no zone as exactly that rule:
    none of its own checks refuses or changes a field the control plane accepted. *)
Theorem stored_rule_accepted (sprint : any → string) (other : any → any) (r : FirewallRule) (idx : Z) :
  rule_ok r → zone_free (fr_SrcCIDR r) = true → zone_free (fr_DstCIDR r) = true →
  plain (fr_ID r) → fr_ID r ≠ "" →
  plain (text_column (fr_SrcListID r)) → plain (fr_SrcListKey r) →
  plain (text_column (fr_DstListID r)) → plain (fr_DstListKey r) →
  parseNodeFirewallRule sprint (json_map other (rule_payload r)) idx = Ok (agent_rule r).
Proof.
  intros [Hc Hs Hd (Esj & Est & Es)%ports_column_fixed (Edj & Edt & Ed)%ports_column_fixed Hp Hst Hcm] Hzs Hzd
    [Eid Tid] Nid [Esl Tsl] [Esk Tsk] [Edl Tdl] [Edk Tdk].
  destruct (cidr_column_fixed _ (stored_cidr_column _ Hs Hzs)) as (Ecj & Ect & Ec).
  destruct (cidr_column_fixed _ (stored_cidr_column _ Hd Hzd)) as (Efj & Eft & Ef).
  unfold rule_checks in Hc. split_bools. literal_fields.
  assert (ruleStringPtr (fr_SrcListID r) = text_column (fr_SrcListID r)) as Rs by (by destruct (fr_SrcListID r)).
  assert (ruleStringPtr (fr_DstListID r) = text_column (fr_DstListID r)) as Rd by (by destruct (fr_DstListID r)).
  assert (json_map other (rule_payload r) !! "priority" = Some (AFloat64 (float_of_Z (fr_Priority r)))) as Lp by done.
  assert (json_map other (rule_payload r) !! "enabled" = Some (ABool (fr_Enabled r))) as Le by done.
  assert (json_map other (rule_payload r) !! "state_match"
    = Some (ASlice ((λ s, AString (json_string s)) <$> fr_StateMatch r))) as Ls by done.
  match goal with H : pg_text (fr_Comment r) = true |- _ => apply pg_text_json in H end.
  unfold parseNodeFirewallRule. rewrite Lp, Le, Ls, states_fixed by exact Hst. rewrite int_field by lia.
  read_fields (rule_payload r).
  assert (fr_Protocol r ≠ "") as Np by (by eapply lit_nonempty).
  assert (fr_Status r ≠ "") as Ns by (by eapply lit_nonempty).
  rewrite !first_self by done. unfold inLocal, agent_rule.
  repeat match goal with H : to_lower _ = _ |- _ => rewrite H; clear H end.
  rewrite (proj2 (String.eqb_neq _ _) Np).
  repeat match goal with H : one_of _ _ = true |- _ => rewrite H; clear H end.
  rewrite Ec, Ef, Es, Ed, Rs, Rd, Tsl, Tsk, Tdl, Tdk. simpl.
  replace (fr_Priority r <=? 0) with false by lia.
  assert ((negb (fr_SrcPorts r =s "") || negb (fr_DstPorts r =s ""))
    && negb (fr_Protocol r =s "tcp") && negb (fr_Protocol r =s "udp") = false) as ->; [|done].
  clear -Hp. revert Hp. destruct (String.eqb_spec (fr_SrcPorts r) ""), (String.eqb_spec (fr_DstPorts r) "");
    intros Hp; [done|..]; (destruct Hp as [-> | ->]; [auto..| |]; done).
Qed.

(** ** Entries *)

(** A row of [firewall_address_entries] as the normalisation leaves it. *)
Record entry_ok (e : FirewallAddressEntry) : Prop := {
  eo_checks : entry_checks e = true;
  eo_normal : ∃ v t, normalizeFirewallAddressEntry v t = Ok (fe_Value e, fe_ValueType e) }.

(** What a stored value without a zone denotes. *)
Inductive stored_value : string → string → Prop :=
| stored_prefix p : prefix_ok p → Masked p = p → stored_value (prefix_string p) "cidr"
| stored_addr a : addr_ok a → zone_of a = "" → stored_value (addr_string a) "address"
| stored_range a b : addr_ok a → addr_ok b → zone_of a = "" → zone_of b = "" →
    stored_value (addr_string a +:+ "-" +:+ addr_string b) "range"
| stored_dns s : s ≠ "" → trim_space s = s → stored_value s "dns".

Lemma zone_free_app s t : zone_free (s +:+ t) = true → zone_free s = true ∧ zone_free t = true.
Proof. rewrite !zone_free_spec, bytes_app. set_solver. Qed.

Lemma normal_value v t value valueType :
  normalizeFirewallAddressEntry v t = Ok (value, valueType) → zone_free value = true → stored_value value valueType.
Proof.
  unfold normalizeFirewallAddressEntry. intros H Hz.
  destruct (String.eqb_spec (trim_space v) "") as [|Hne]; [done|].
  set (ty := if _ =s "" then _ else _) in H.
  destruct (ty =s "cidr").
  { destruct (ParsePrefix (trim_space v)) as [p|] eqn:E; [|done]. injection H as <- <-.
    apply ParsePrefix_ok, Masked_ok in E. apply stored_prefix; [done|apply Masked_idemp]. }
  destruct (ty =s "address").
  { destruct (ParseAddr (trim_space v)) as [a|] eqn:E; [|done]. injection H as <- <-.
    apply ParseAddr_ok in E. apply stored_addr; [done|].
    apply (zone_free_addr a ""). by rewrite sapp_nil_r. }
  destruct (ty =s "range").
  { destruct (cut_char "-" (trim_space v)) as [[lo hi]|]; [|done].
    destruct (ParseAddr (trim_space lo)) as [a|] eqn:Ea; [|done].
    destruct (ParseAddr (trim_space hi)) as [b|] eqn:Eb; [|done]. injection H as <- <-.
    apply ParseAddr_ok in Ea, Eb. pose proof (zone_free_addr _ _ Hz).
    apply zone_free_app in Hz as [_ [_ Hz]%zone_free_app].
    apply stored_range; [done..|]. apply (zone_free_addr b ""). by rewrite sapp_nil_r. }
  destruct (ty =s "dns"); [|done]. case_match; [done|]. injection H as <- <-.
  apply stored_dns; [by rewrite to_lower_eq_nil|]. apply to_lower_trimmed, trim_space_idemp.
Qed.

Lemma range_no_space a b : addr_ok a → addr_ok b → zone_of a = "" → zone_of b = "" →
  all_bytes no_space (addr_string a +:+ "-" +:+ addr_string b).
Proof.
  intros. rewrite !all_bytes_app. split_and!; [|by repeat constructor|];
    (eapply all_bytes_impl; [apply addr_byte_no_space|by apply addr_text]).
Qed.

(** The store's test of a stored range. *)
Lemma range_renderable a b : addr_ok a → addr_ok b → zone_of a = "" → zone_of b = "" →
  firewallAddressEntryRenderableNonAny (addr_string a +:+ "-" +:+ addr_string b) "range"
  = Bool.eqb (Is4 a) (Is4 b) && match addr_compare a b with Gt => false | _ => true end.
Proof.
  intros Ha Hb Hza Hzb. unfold firewallAddressEntryRenderableNonAny.
  rewrite trim_space_no_space by by apply range_no_space.
  pose proof (ParseAddr_string a Ha) as Hpa. pose proof (ParseAddr_string b Hb) as Hpb.
  destruct (String.eqb_spec (addr_string a +:+ "-" +:+ addr_string b) "") as [E|_].
  { apply sapp_eq_nil in E as [E _]. by rewrite E in Hpa. }
  change (to_lower (trim_space "range")) with "range". cbn [one_of existsb negb orb String.eqb].
  change ("-" +:+ addr_string b) with (String "-" (addr_string b)). simpl.
  unfold firewallAddressValueIsAny. simpl.
  rewrite cut_char_app by (eapply all_bytes_not_in; [by apply addr_text|done]).
  by rewrite !trim_addr, Hpa, Hpb.
Qed.

Lemma family_is4 a b : nftFamilyForAddr a = nftFamilyForAddr b ↔ Is4 a = Is4 b.
Proof. destruct a, b; simpl; unfold nftFamilyForAddr; simpl; naive_solver. Qed.

(** The agent's reading of a stored range. *)
Lemma range_reading a b : addr_ok a → addr_ok b → zone_of a = "" → zone_of b = "" →
  normalizeNodeFirewallAddressListEntry (addr_string a +:+ "-" +:+ addr_string b) "range"
  = if negb (nftFamilyForAddr a =s nftFamilyForAddr b) then Err RangeFamilies
    else match addr_compare a b with
         | Gt => Err RangeReversed
         | _ => Ok (Some {| elt_Family := nftFamilyForAddr a;
                            elt_Value := addr_string a +:+ "-" +:+ addr_string b |}, "")
         end.
Proof.
  intros Ha Hb Hza Hzb. unfold normalizeNodeFirewallAddressListEntry.
  rewrite trim_space_no_space by by apply range_no_space.
  pose proof (ParseAddr_string a Ha) as Hpa. pose proof (ParseAddr_string b Hb) as Hpb.
  destruct (String.eqb_spec (addr_string a +:+ "-" +:+ addr_string b) "") as [E|_].
  { apply sapp_eq_nil in E as [E _]. by rewrite E in Hpa. }
  change (entry_value_type _ _) with "range". cbn [String.eqb].
  change ("-" +:+ addr_string b) with (String "-" (addr_string b)).
  rewrite cut_char_app by (eapply all_bytes_not_in; [by apply addr_text|done]).
  simpl. by rewrite !trim_addr, Hpa, Hpb.
Qed.

(** The agent reads a stored entry without a zone as the set element with the
    stored text, ignores a name, and refuses nothing but a range that the
    control plane's own test of renderable entries refuses too: one whose ends
    are reversed or of two families. *)
Lemma stored_entry_reading (e : FirewallAddressEntry) :
  entry_ok e → zone_free (fe_Value e) = true →
  match normalizeNodeFirewallAddressListEntry (fe_Value e) (fe_ValueType e) with
  | Ok (Some x, w) => elt_Value x = fe_Value e ∧ element_ok x ∧ w = "" ∧ fe_ValueType e ≠ "dns"
  | Ok (None, w) => fe_ValueType e = "dns" ∧ w = ignored_dns_warning
  | Err _ => fe_ValueType e = "range" ∧ firewallAddressEntryRenderableNonAny (fe_Value e) (fe_ValueType e) = false
  end.
Proof.
  intros [_ (v & t & Hn)] Hz. pose proof (normal_value _ _ _ _ Hn Hz) as Hs. clear Hn.
  destruct Hs as [p Hp Hm|a Ha Hza|a b Ha Hb Hza Hzb|s Hs Ht].
  - rewrite normalize_cidr_entry by done. split_and!; [done|by apply element_prefix|done..].
  - rewrite normalize_address_entry by done. split_and!; [done|by apply element_addr|done..].
  - rewrite range_renderable, range_reading by done.
    destruct (String.eqb_spec (nftFamilyForAddr a) (nftFamilyForAddr b)) as [Hf|Hf]; simpl.
    2:{ split; [done|]. rewrite family_is4 in Hf. by destruct (Is4 a), (Is4 b). }
    destruct (addr_compare a b) eqn:Hc; [| |by rewrite andb_false_r];
      (split_and!; [done|apply element_range; by rewrite ?Hc|done..]).
  - unfold normalizeNodeFirewallAddressListEntry. rewrite Ht, (proj2 (String.eqb_neq _ _) Hs).
    change (to_lower (trim_space "dns")) with "dns". cbn. split; reflexivity.
Qed.

(** A range without an explicit type: the agent reads it as a range, the
    control plane stores it as a name, which no rule ever sees. *)
Lemma untyped_range_is_a_name :
  normalizeFirewallAddressEntry "203.0.113.10-203.0.113.20" "" = Ok ("203.0.113.10-203.0.113.20", "dns")
  ∧ normalizeNodeFirewallAddressListEntry "203.0.113.10-203.0.113.20" ""
    = Ok (Some {| elt_Family := "ip"; elt_Value := "203.0.113.10-203.0.113.20" |}, "")
  ∧ normalizeNodeFirewallAddressListEntry "203.0.113.10-203.0.113.20" "dns" = Ok (None, ignored_dns_warning).
Proof. split_and!; reflexivity. Qed.

(** A reversed range and one across two families are stored, and refused by the agent. *)
Lemma bad_range_is_stored :
  normalizeFirewallAddressEntry "10.0.0.9-10.0.0.1" "range" = Ok ("10.0.0.9-10.0.0.1", "range")
  ∧ normalizeNodeFirewallAddressListEntry "10.0.0.9-10.0.0.1" "range" = Err RangeReversed
  ∧ normalizeFirewallAddressEntry "10.0.0.1-fe80::1" "range" = Ok ("10.0.0.1-fe80::1", "range")
  ∧ normalizeNodeFirewallAddressListEntry "10.0.0.1-fe80::1" "range" = Err RangeFamilies.
Proof. split_and!; reflexivity. Qed.

(** An address with a zone is stored as a prefix; the agent takes the prefix
    length for a part of the zone and renders a text that is no address. *)
Lemma zoned_rule_is_stored :
  normalizeFirewallCIDR "fe80::1%eth0" = Ok "fe80::1%eth0/128"
  ∧ normalizeNodeFirewallCIDR "fe80::1%eth0/128" = Ok "fe80::1%eth0/128/128".
Proof. split; reflexivity. Qed.
