(* ===== verification/FirewallStoreProps.v ===== *)
(** * The firewall catalogue: what its tables always hold

    The operations of [FirewallTables] and [FirewallSeeds] as the steps of one
    system, and the invariant of every state they reach: identifiers, keys and
    live entries are unique, references resolve, and every row is in the normal
    form that [FirewallFlow] shows the agent reads unchanged. *)
From stdpp Require Import gmap.
From S2P Require Import Prelude GoStrings Strconv GoValue Netip Firewall FirewallText FirewallFields JsonImage FirewallCatalog FirewallTables FirewallSeeds Jobs FirewallJobs FirewallFlow.
From Stdlib Require Import Ascii.
From stdpp Require Import options.
Open Scope Z_scope.

(** ** Tables *)

Lemma update_where_Forall {A} (P : A → Prop) hit f (rows : list A) :
  Forall P rows → (∀ a, P a → hit a = true → P (f a)) → Forall P (update_where hit f rows).
Proof.
  intros H Hf. unfold update_where. apply Forall_fmap. eapply Forall_impl; [done|].
  intros a Ha. simpl. destruct (hit a) eqn:E; auto.
Qed.

(** An update that keeps a column keeps it for the table. *)
Lemma update_where_column {A B} (col : A → B) hit f (rows : list A) :
  (∀ a, a ∈ rows → hit a = true → col (f a) = col a) → col <$> update_where hit f rows = col <$> rows.
Proof.
  intros H. unfold update_where. rewrite <-list_fmap_compose. apply list_fmap_ext. intros i a Ha.
  simpl. apply list_elem_of_lookup_2 in Ha. destruct (hit a) eqn:E; auto.
Qed.

(** An update of the row with an identifier to a fresh value of a unique column. *)
Lemma update_where_unique {A} (id col : A → string) i row (rows : list A) :
  NoDup (col <$> rows) → NoDup (id <$> rows) → (∀ a, a ∈ rows → id a ≠ i → col a ≠ col row) →
  NoDup (col <$> update_where (λ a, id a =s i) (λ _, row) rows).
Proof.
  intros Hn Hi H. induction rows as [|a rows IH]; [constructor|].
  simpl in *. apply NoDup_cons in Hn as [Ha Hn]. apply NoDup_cons in Hi as [Hia Hi].
  assert (∀ b, b ∈ rows → id b ≠ i → col b ≠ col row) as Hb by (intros b ? ?; apply H; [set_solver|done]).
  specialize (IH Hn Hi Hb). apply NoDup_cons. split; [|done].
  assert (∀ x, x ∈ col <$> update_where (λ a, id a =s i) (λ _, row) rows →
    (∃ b, b ∈ rows ∧ id b ≠ i ∧ x = col b) ∨ ((∃ b, b ∈ rows ∧ id b = i) ∧ x = col row)) as Hx.
  { intros x (b' & -> & (b & -> & Hb')%list_elem_of_fmap)%list_elem_of_fmap.
    destruct (String.eqb_spec (id b) i); [right|left]; eauto. }
  destruct (String.eqb_spec (id a) i) as [E|E]; intros [(b & ? & ? & Ec)|[(b & ? & Eb) Ec]]%Hx.
  - by apply (Hb b).
  - apply Hia. rewrite E, <-Eb. by apply list_elem_of_fmap_2.
  - apply Ha. rewrite Ec. by apply list_elem_of_fmap_2.
  - apply (H a); [by left|done|done].
Qed.

Lemma NoDup_snoc {A} (l : list A) x : NoDup l → x ∉ l → NoDup (l ++ [x]).
Proof. intros. apply NoDup_app. split_and!; [done|set_solver|apply NoDup_singleton]. Qed.

Lemma existsb_elem {A} (p : A → bool) l : existsb p l = true ↔ ∃ x, x ∈ l ∧ p x = true.
Proof.
  rewrite existsb_exists. split; intros (x & H & E); exists x; by rewrite list_elem_of_In in *.
Qed.

(** ** Rows *)

(** The canonical text of an identifier: hexadecimal digits in lower case and dashes. *)
Definition uuid_ok (u : string) : Prop := firewallUUIDRE u = true ∧ all_bytes key_byte u.

(** A key: bytes of its alphabet, at least one. *)
Definition key_ok (key : string) : Prop := key ≠ "" ∧ all_bytes key_byte key.

Record list_ok (l : FirewallAddressList) : Prop := {
  lo_checks : list_checks l = true;
  lo_id : uuid_ok (fl_ID l);
  lo_key : key_ok (fl_Key l) }.

Record policy_ok (p : FirewallPolicy) : Prop := {
  po_checks : policy_checks p = true;
  po_id : uuid_ok (fp_ID p);
  po_key : key_ok (fp_Key p) }.

(** Two rows of which both are live and name the same value of the same list. *)
Definition distinct_values (es : list FirewallAddressEntry) : Prop :=
  ∀ a b, a ∈ es → b ∈ es → entry_clash a b = true → fe_ID a = fe_ID b.

Record catalog_ok (st : catalog) : Prop := {
  co_lists : Forall list_ok (lists st);
  co_list_ids : NoDup (fl_ID <$> lists st);
  co_list_keys : NoDup (fl_Key <$> lists st);
  co_policies : Forall policy_ok (policies st);
  co_policy_ids : NoDup (fp_ID <$> policies st);
  co_policy_keys : NoDup (fp_Key <$> policies st);
  co_entries : Forall (λ e, entry_ok e ∧ fe_ListID e ∈ fl_ID <$> lists st) (entries st);
  co_entry_ids : NoDup (fe_ID <$> entries st);
  co_entry_values : distinct_values (entries st);
  co_rules : Forall (λ r, rule_ok r ∧ uuid_ok (fr_ID r) ∧ fr_PolicyID r ∈ fp_ID <$> policies st
    ∧ (∀ id, fr_SrcListID r = Some id ∨ fr_DstListID r = Some id → id ∈ fl_ID <$> lists st)) (rules st);
  co_rule_ids : NoDup (fr_ID <$> rules st) }.

(** ** What the normalisation establishes *)

Lemma key_RE_bytes key : firewallKeyRE key = true → key_ok key.
Proof.
  destruct key as [|c key]; [done|]. unfold firewallKeyRE. intros H. split_bools. split; [done|].
  apply all_bytes_cons. split; [unfold key_byte; by destruct (key_alnum c)|].
  apply Forall_forall. intros a Ha%list_elem_of_In.
  match goal with H : forallb _ _ = true |- _ => rewrite forallb_forall in H; by apply H end.
Qed.

Lemma one_of_choice (b : bool) v d l : one_of d l = true → one_of (if one_of v l then v else d) l = true.
Proof. by destruct (one_of v l) eqn:E. Qed.

Lemma status_normal s : one_of (normalizeFirewallStatus s) ["active"; "disabled"; "deleted"] = true.
Proof. unfold normalizeFirewallStatus. by case_match. Qed.

Lemma default_policy_normal s p : normalizeFirewallDefaultPolicy s = Ok p → default_policy_check p = true.
Proof. unfold normalizeFirewallDefaultPolicy, default_policy_check. by case_match; intros [= <-]. Qed.

Lemma normal_rule_ok r r' : normalizeFirewallRule r = Ok r' →
  (∃ s, normalizeFirewallCIDR s = Ok (fr_SrcCIDR r')) ∧ (∃ s, normalizeFirewallCIDR s = Ok (fr_DstCIDR r'))
  ∧ ports_column (fr_SrcPorts r') ∧ ports_column (fr_DstPorts r')
  ∧ (fr_SrcPorts r' ≠ "" ∨ fr_DstPorts r' ≠ "" → fr_Protocol r' = "tcp" ∨ fr_Protocol r' = "udp")
  ∧ states_column (fr_StateMatch r') ∧ trim_space (fr_Comment r') = fr_Comment r'.
Proof.
  unfold normalizeFirewallRule. intros H. inv_binds. subst r'. simpl.
  repeat match goal with H : Ok _ = Ok _ |- _ => injection H as <- end.
  split_and!; [by eexists|by eexists|by eexists|by eexists| |apply stored_states|apply trim_space_idemp].
  set (p := if to_lower (trim_space (fr_Protocol r)) =s "" then "any" else _) in *.
  match goal with H : negb _ = true |- _ => apply negb_true_iff in H; rename H into Hp end.
  intros Hne. revert Hp. destruct (String.eqb_spec p "tcp") as [->|]; [by left|].
  destruct (String.eqb_spec p "udp") as [->|]; [by right|]. intros Hp. exfalso.
  rewrite !andb_true_r in Hp. apply orb_false_iff in Hp as [Hs%negb_false_iff Hd%negb_false_iff].
  apply String.eqb_eq in Hs, Hd. by destruct Hne.
Qed.

(** ** Changes of one table *)

Lemma entry_clash_sym a b : entry_clash a b = entry_clash b a.
Proof.
  unfold entry_clash. rewrite (andb_comm (live_status (fe_Status a))), (String.eqb_sym (fe_ListID b)),
    (String.eqb_sym (fe_Value b)). done.
Qed.

Lemma Forall_keep {A} (P Q : A → Prop) l : Forall P l → (∀ a, P a → Q a) → Forall Q l.
Proof. intros H HPQ. eapply Forall_impl; eauto. Qed.

Section changes.
Context (st : catalog) (Hok : catalog_ok st).

Lemma add_list row : list_ok row → fl_ID row ∉ fl_ID <$> lists st → fl_Key row ∉ fl_Key <$> lists st →
  catalog_ok (set_lists (lists st ++ [row]) st).
Proof using Hok.
  intros Hr Hi Hk. destruct Hok. constructor; simpl; try done; rewrite ?fmap_app; simpl.
  - apply Forall_app. by split; [|constructor].
  - by apply NoDup_snoc.
  - by apply NoDup_snoc.
  - eapply Forall_keep; [done|]. intros e [? ?]. split; [done|set_solver].
  - eapply Forall_keep; [done|]. intros r (? & ? & ? & Hl). split_and!; [done..|].
    intros id Hid%Hl. set_solver.
Qed.

Lemma put_list i row : list_ok row → fl_ID row = i →
  (∀ l, l ∈ lists st → fl_ID l ≠ i → fl_Key l ≠ fl_Key row) →
  catalog_ok (set_lists (update_where (λ l, fl_ID l =s i) (λ _, row) (lists st)) st).
Proof using Hok.
  intros Hr Hi Hk. destruct Hok.
  assert (fl_ID <$> update_where (λ l, fl_ID l =s i) (λ _, row) (lists st) = fl_ID <$> lists st) as Hids.
  { apply update_where_column. intros l _ ->%String.eqb_eq. done. }
  constructor; simpl; try done; rewrite ?Hids; try done.
  - by apply update_where_Forall.
  - by apply update_where_unique.
Qed.

Lemma add_policy row : policy_ok row → fp_ID row ∉ fp_ID <$> policies st → fp_Key row ∉ fp_Key <$> policies st →
  catalog_ok (set_policies (policies st ++ [row]) st).
Proof using Hok.
  intros Hr Hi Hk. destruct Hok. constructor; simpl; try done; rewrite ?fmap_app; simpl.
  - apply Forall_app. by split; [|constructor].
  - by apply NoDup_snoc.
  - by apply NoDup_snoc.
  - eapply Forall_keep; [done|]. intros r (? & ? & ? & ?). split_and!; [done..| |done]. set_solver.
Qed.

Lemma put_policy i row : policy_ok row → fp_ID row = i →
  (∀ p, p ∈ policies st → fp_ID p ≠ i → fp_Key p ≠ fp_Key row) →
  catalog_ok (set_policies (update_where (λ p, fp_ID p =s i) (λ _, row) (policies st)) st).
Proof using Hok.
  intros Hr Hi Hk. destruct Hok.
  assert (fp_ID <$> update_where (λ p, fp_ID p =s i) (λ _, row) (policies st) = fp_ID <$> policies st) as Hids.
  { apply update_where_column. intros p _ ->%String.eqb_eq. done. }
  constructor; simpl; try done; rewrite ?Hids; try done.
  - by apply update_where_Forall.
  - by apply update_where_unique.
Qed.

(** Any change of the entries that keeps each row's list and identifier, and frees or keeps values. *)
Lemma put_entries es : 
  Forall (λ e, entry_ok e ∧ fe_ListID e ∈ fl_ID <$> lists st) es → NoDup (fe_ID <$> es) → distinct_values es →
  catalog_ok (set_entries es st).
Proof using Hok. intros H1 H2 H3. destruct Hok. by constructor. Qed.

Lemma add_entry row : entry_ok row → fe_ListID row ∈ fl_ID <$> lists st → fe_ID row ∉ fe_ID <$> entries st →
  (∀ e, e ∈ entries st → entry_clash row e = false) →
  catalog_ok (set_entries (entries st ++ [row]) st).
Proof using Hok.
  intros Hr Hl Hi Hc. destruct Hok. apply put_entries.
  - apply Forall_app. by split; [|constructor].
  - rewrite fmap_app. by apply NoDup_snoc.
  - intros a b [Ha| ->%list_elem_of_singleton]%elem_of_app [Hb| ->%list_elem_of_singleton]%elem_of_app E; auto.
    + rewrite entry_clash_sym, Hc in E; done.
    + rewrite Hc in E; done.
Qed.

Lemma put_entry current row : current ∈ entries st → entry_ok row → fe_ID row = fe_ID current →
  fe_ListID row = fe_ListID current →
  (∀ e, e ∈ entries st → fe_ID e ≠ fe_ID row → entry_clash row e = false) →
  catalog_ok (set_entries (update_where (λ e, fe_ID e =s fe_ID current) (λ _, row) (entries st)) st).
Proof using Hok.
  intros Hin Hr Hi Hl Hc. destruct Hok. 
  assert (∀ a, a ∈ update_where (λ e, fe_ID e =s fe_ID current) (λ _, row) (entries st) →
    a = row ∨ (a ∈ entries st ∧ fe_ID a ≠ fe_ID row)) as Hu.
  { intros a (e & -> & He)%list_elem_of_fmap. destruct (String.eqb_spec (fe_ID e) (fe_ID current)) as [|Hne].
    - by left.
    - right. by rewrite Hi. }
  apply put_entries.
  - apply update_where_Forall; [done|]. intros a _ _. split; [done|]. rewrite Hl.
    rewrite Forall_forall in co_entries0. by apply co_entries0.
  - rewrite update_where_column; [done|]. intros a _ ->%String.eqb_eq. done.
  - intros a b [->|[Ha Hna]]%Hu [->|[Hb Hnb]]%Hu E; [done| | |by apply co_entry_values0].
    + rewrite Hc in E; done.
    + rewrite entry_clash_sym, Hc in E; done.
Qed.

Lemma retire_entries hit : catalog_ok (set_entries (update_where hit retire_entry (entries st)) st).
Proof using Hok.
  destruct Hok. apply put_entries.
  - apply update_where_Forall; [done|]. intros e [[Hc Hn] Hl] _. split; [|done]. split; [|done].
    unfold entry_checks in *. simpl. split_bools. by rewrite !andb_true_iff.
  - by rewrite update_where_column.
  - intros a b (a' & -> & Ha)%list_elem_of_fmap (b' & -> & Hb)%list_elem_of_fmap E.
    destruct (hit a') eqn:Ea; [by unfold entry_clash in E|].
    destruct (hit b') eqn:Eb; [unfold entry_clash in E; simpl in E; by rewrite andb_false_r in E|]. auto.
Qed.

Definition rule_row_ok (r : FirewallRule) : Prop :=
  rule_ok r ∧ uuid_ok (fr_ID r) ∧ fr_PolicyID r ∈ fp_ID <$> policies st
  ∧ (∀ id, fr_SrcListID r = Some id ∨ fr_DstListID r = Some id → id ∈ fl_ID <$> lists st).

Lemma put_rules rs : Forall rule_row_ok rs → NoDup (fr_ID <$> rs) → catalog_ok (set_rules rs st).
Proof using Hok. intros H1 H2. destruct Hok. by constructor. Qed.

Lemma add_rule row : rule_row_ok row → fr_ID row ∉ fr_ID <$> rules st → catalog_ok (set_rules (rules st ++ [row]) st).
Proof using Hok.
  intros Hr Hi. destruct Hok. apply put_rules.
  - apply Forall_app. by split; [|constructor].
  - rewrite fmap_app. by apply NoDup_snoc.
Qed.

Lemma put_rule i row : rule_row_ok row → fr_ID row = i →
  catalog_ok (set_rules (update_where (λ r, fr_ID r =s i) (λ _, row) (rules st)) st).
Proof using Hok.
  intros Hr Hi. destruct Hok. apply put_rules.
  - by apply update_where_Forall.
  - rewrite update_where_column; [done|]. intros a _ ->%String.eqb_eq. done.
Qed.

Lemma retired_rule_ok r : rule_row_ok r → rule_row_ok (retire_rule r).
Proof.
  intros ([Hc Hs Hd Hsp Hdp Hp Hst Hcm] & Hid & Hpol & Hl). split_and!; try done. constructor; try done.
  unfold rule_checks in *. simpl. split_bools. by rewrite !andb_true_iff.
Qed.

Lemma retire_rules hit : catalog_ok (set_rules (update_where hit retire_rule (rules st)) st).
Proof using Hok.
  destruct Hok. apply put_rules.
  - apply update_where_Forall; [done|]. intros r Hr _. by apply retired_rule_ok.
  - by rewrite update_where_column.
Qed.
End changes.

(** ** The operations *)

Lemma normal_policy_key input current p : normalizeFirewallPolicy input current = Ok p → firewallKeyRE (fp_Key p) = true.
Proof.
  unfold normalizeFirewallPolicy. intros H. inv_binds.
  case_match; [done|]. case_match eqn:E; [done|]. injection H as <-. simpl. by apply negb_false_iff in E.
Qed.

Lemma elem_of_find {A} (p : A → bool) l x : List.find p l = Some x → x ∈ l ∧ p x = true.
Proof. intros H. pose proof (List.find_some _ _ H) as [Hx Hp]. by rewrite list_elem_of_In. Qed.

Lemma not_in_column {A} (col : A → string) (rows : list A) x :
  (∀ a, a ∈ rows → col a ≠ x) → x ∉ col <$> rows.
Proof. intros H (a & -> & Ha)%list_elem_of_fmap. by apply (H a). Qed.

Lemma in_column {A} (col : A → string) (rows : list A) x :
  existsb (λ a, col a =s x) rows = true → x ∈ col <$> rows.
Proof. intros (a & Ha & <-%String.eqb_eq)%existsb_elem. by apply list_elem_of_fmap_2. Qed.

Section operations.
Context (pg_uuid : string → option string) (node_exists : string → bool).
(** The type [uuid] prints canonical text. *)
Hypothesis uuid_canonical : ∀ s u, pg_uuid s = Some u → uuid_ok u.

Lemma uuid_column_ok v u : uuid_column pg_uuid v = Some (Some u) → uuid_ok u.
Proof using uuid_canonical.
  destruct v as [v|]; [|done]. simpl. destruct (pg_uuid v) as [w|] eqn:E; [|done]. intros [= <-]. eauto.
Qed.

Lemma policy_row_ok p row : policy_row pg_uuid node_exists p = Some row →
  fp_ID row = fp_ID p ∧ fp_Key row = fp_Key p ∧ policy_checks row = true.
Proof.
  unfold policy_row. destruct (uuid_column _ _) as [node|]; [|done]. simpl. case_match eqn:E; [|done].
  intros [= <-]. by apply andb_true_iff in E as [? _].
Qed.

Lemma CreateFirewallPolicy_ok new_id input st r st' : catalog_ok st → uuid_ok new_id →
  CreateFirewallPolicy pg_uuid node_exists new_id input st = (r, st') → catalog_ok st'.
Proof.
  intros Hok Hid. unfold CreateFirewallPolicy.
  destruct (normalizeFirewallPolicy input empty_policy) as [p|] eqn:En; [|by intros [= _ <-]].
  destruct (policy_row _ _ _) as [row|] eqn:Er; [|by intros [= _ <-]].
  destruct (existsb _ _) eqn:Ex; intros [= _ <-]; [done|].
  apply policy_row_ok in Er as (Ei & Ek & Hc). apply normal_policy_key in En. simpl in Ei, Ek.
  rewrite existsb_false in Ex.
  apply add_policy; [done|split; [done|by rewrite Ei|rewrite Ek; by apply key_RE_bytes]| |];
    apply not_in_column; intros a Ha; specialize (Ex a Ha); simpl in Ex; apply orb_false_iff in Ex as [E1 E2];
    by apply String.eqb_neq.
Qed.

Lemma getFirewallPolicy_in ref st p : getFirewallPolicy pg_uuid ref st = Ok p → p ∈ policies st.
Proof.
  unfold getFirewallPolicy. destruct (List.find _ _) as [q|] eqn:E; [|done]. intros [= <-].
  by apply elem_of_find in E as [? _].
Qed.

Lemma UpdateFirewallPolicy_ok policyID input st r st' : catalog_ok st →
  UpdateFirewallPolicy pg_uuid node_exists policyID input st = (r, st') → catalog_ok st'.
Proof.
  intros Hok. unfold UpdateFirewallPolicy. case_match; [by intros [= _ <-]|].
  destruct (getFirewallPolicy _ _ _) as [current|] eqn:Eg; [|by intros [= _ <-]].
  destruct (normalizeFirewallPolicy input current) as [p|] eqn:En; [|by intros [= _ <-]].
  destruct (policy_row _ _ _) as [row|] eqn:Er; [|by intros [= _ <-]].
  destruct (_ || _) eqn:Ex; intros [= _ <-]; [done|]. apply orb_false_iff in Ex as [_ Ex].
  apply policy_row_ok in Er as (Ei & Ek & Hc). apply normal_policy_key in En. simpl in Ei, Ek.
  apply getFirewallPolicy_in in Eg. rewrite existsb_false in Ex.
  pose proof (co_policies _ Hok) as Hp. rewrite Forall_forall in Hp.
  apply put_policy; [done| |done|].
  - split; [done|rewrite Ei; by apply po_id, Hp|rewrite Ek; by apply key_RE_bytes].
  - intros q Hq Hne E. specialize (Ex q Hq). simpl in Ex. rewrite E, String.eqb_refl, andb_true_r in Ex.
    apply negb_false_iff, String.eqb_eq in Ex. congruence.
Qed.

Lemma replace_char_bytes q old new s : all_bytes q s → all_bytes q new → all_bytes q (replace_char old new s).
Proof.
  intros Hs Hn. induction s as [|a s IH]; [done|]. apply all_bytes_cons in Hs as [Ha Hs]. simpl.
  apply all_bytes_app. split; [case_match; [done|by repeat constructor]|auto].
Qed.

Lemma archived_key key idv : key_ok key → all_bytes key_byte idv → key_ok (archivedFirewallKey key idv).
Proof.
  intros [_ Hk] Hi. unfold archivedFirewallKey.
  assert (∀ a, key_byte a = true → no_space a = true) as Hns by (apply byte_class; by vm_compute).
  assert (∀ s, all_bytes key_byte s → trim_space s = s) as Ht.
  { intros s Hs. apply trim_space_no_space. by eapply all_bytes_impl. }
  rewrite !Ht by done.
  pose proof (replace_char_bytes key_byte "-" "" idv Hi (all_bytes_nil _)) as Hr.
  split; [destruct (trim_set _ _ =s "") eqn:E; [done|apply String.eqb_neq in E; intros E2; apply E; revert E2;
    by destruct (trim_set _ _)]|].
  apply all_bytes_app. split.
  - case_match; [by repeat constructor|]. by apply trim_set_bytes, take_bytes_bytes.
  - apply take_bytes_bytes, all_bytes_app. split; [by repeat constructor|]. by case_match; [repeat constructor|].
Qed.

Lemma pg_text_key s : all_bytes key_byte s → pg_text s = true.
Proof.
  intros H. unfold pg_text. rewrite runes_ascii, encode_all_bytes, String.eqb_refl.
  2,3: eapply all_bytes_impl; [|exact H]; apply byte_class; by vm_compute.
  apply negb_true_iff, not_true_iff_false. rewrite contains_char_spec. by eapply all_bytes_not_in.
Qed.

Lemma retired_policy_ok p : policy_ok p → policy_ok (retire_policy p).
Proof.
  intros [Hc Hi Hk]. assert (key_ok (archivedFirewallKey (fp_Key p) (fp_ID p))) as Ha.
  { apply archived_key; [done|]. by destruct Hi. }
  split; [|done|done]. unfold policy_checks, retire_policy in *.
  cbn [fp_Key fp_Label fp_Description fp_Scope fp_DefaultInputPolicy fp_DefaultForwardPolicy fp_DefaultOutputPolicy fp_Status].
  rewrite pg_text_key by by destruct Ha.
  split_bools. by rewrite !andb_true_iff.
Qed.

Lemma DeleteFirewallPolicy_ok policyID st r st' : catalog_ok st →
  DeleteFirewallPolicy pg_uuid policyID st = (r, st') → catalog_ok st'.
Proof.
  intros Hok. unfold DeleteFirewallPolicy. case_match; [by intros [= _ <-]|].
  destruct (getFirewallPolicy _ _ _) as [current|] eqn:Eg; [|by intros [= _ <-]].
  case_match; [by intros [= _ <-]|]. case_match; [by intros [= _ <-]|].
  destruct (live_status _ && _) eqn:Ex; [by intros [= _ <-]|].
  pose proof (retire_rules st Hok (λ r, (fr_PolicyID r =s fp_ID current) && live_status (fr_Status r))) as Hr.
  destruct (live_status (fp_Status current)); intros [= _ <-]; [|done].
  apply getFirewallPolicy_in in Eg. simpl in Ex. rewrite existsb_false in Ex.
  pose proof (co_policies _ Hok) as Hp. rewrite Forall_forall in Hp.
  apply (put_policy _ Hr (fp_ID current)); [by apply retired_policy_ok, Hp|done|].
  intros q Hq Hne E. specialize (Ex q Hq). simpl in Ex. rewrite E, String.eqb_refl, andb_true_r in Ex.
  by apply negb_false_iff, String.eqb_eq in Ex.
Qed.

(** *** Lists *)

Lemma CreateFirewallAddressList_ok new_id input st r st' : catalog_ok st → uuid_ok new_id →
  CreateFirewallAddressList new_id input st = (r, st') → catalog_ok st'.
Proof.
  intros Hok Hid. unfold CreateFirewallAddressList. set (key := if _ =s "" then _ else _).
  destruct (firewallKeyRE key) eqn:Ek; [|by intros [= _ <-]]. cbn [negb].
  case_match; [by intros [= _ <-]|]. destruct (_ || _) eqn:Ex; intros [= _ <-]; [done|].
  apply orb_false_iff in Ex as [Hc%negb_false_iff Ex]. rewrite existsb_false in Ex.
  apply add_list; [done|split; [done|done|by apply key_RE_bytes]| |];
    apply not_in_column; intros a Ha; specialize (Ex a Ha); simpl in Ex; apply orb_false_iff in Ex as [E1 E2];
    by apply String.eqb_neq.
Qed.

Lemma getFirewallAddressList_in ref st l : getFirewallAddressList pg_uuid ref st = Ok l →
  l ∈ lists st ∧ live_status (fl_Status l) = true.
Proof.
  unfold getFirewallAddressList. destruct (List.find _ _) as [q|] eqn:E; [|done]. intros [= <-].
  apply elem_of_find in E as [? E]. by apply andb_true_iff in E as [_ ?].
Qed.

(** No other list has the key. *)
Lemma other_keys st l key : existsb (λ x, negb (fl_ID x =s fl_ID l) && (fl_Key x =s key)) (lists st) = false →
  ∀ x, x ∈ lists st → fl_ID x ≠ fl_ID l → fl_Key x ≠ key.
Proof.
  rewrite existsb_false. intros H x Hx Hne <-. specialize (H x Hx). simpl in H.
  rewrite String.eqb_refl, andb_true_r in H. by apply negb_false_iff, String.eqb_eq in H.
Qed.

Lemma UpdateFirewallAddressList_ok listID input st r st' : catalog_ok st →
  UpdateFirewallAddressList pg_uuid listID input st = (r, st') → catalog_ok st'.
Proof.
  intros Hok. unfold UpdateFirewallAddressList. case_match; [by intros [= _ <-]|].
  destruct (getFirewallAddressList _ _ _) as [current|] eqn:Eg; [|by intros [= _ <-]].
  set (key := to_lower _). destruct (firewallKeyRE key) eqn:Ek; [|by intros [= _ <-]]. cbn [negb].
  case_match; [by intros [= _ <-]|]. destruct (_ || _) eqn:Ex; intros [= _ <-]; [done|].
  apply orb_false_iff in Ex as [Hc%negb_false_iff Ex].
  apply getFirewallAddressList_in in Eg as [Hin _].
  pose proof (co_lists _ Hok) as Hl. rewrite Forall_forall in Hl.
  apply put_list; [done| |done|by apply other_keys].
  split; [done|exact (lo_id _ (Hl _ Hin))|by apply key_RE_bytes].
Qed.

Lemma retired_list_ok l : list_ok l → list_ok (retire_list l).
Proof.
  intros [Hc Hi Hk]. assert (key_ok (archivedFirewallKey (fl_Key l) (fl_ID l))) as Ha.
  { apply archived_key; [done|]. by destruct Hi. }
  split; [|done|done]. unfold list_checks, retire_list in *.
  cbn [fl_Key fl_Label fl_Description fl_Scope fl_Status].
  rewrite pg_text_key by by destruct Ha.
  split_bools. by rewrite !andb_true_iff.
Qed.

Lemma DeleteFirewallAddressList_ok listID st r st' : catalog_ok st →
  DeleteFirewallAddressList pg_uuid listID st = (r, st') → catalog_ok st'.
Proof.
  intros Hok. unfold DeleteFirewallAddressList. case_match; [by intros [= _ <-]|].
  destruct (getFirewallAddressList _ _ _) as [current|] eqn:Eg; [|by intros [= _ <-]].
  case_match; [by intros [= _ <-]|]. destruct (existsb _ _) eqn:Ex; intros [= _ <-]; [done|].
  apply getFirewallAddressList_in in Eg as [Hin _].
  pose proof (co_lists _ Hok) as Hl. rewrite Forall_forall in Hl.
  pose proof (retire_entries st Hok (λ e, (fe_ListID e =s fl_ID current) && live_status (fe_Status e))) as Hr.
  apply (put_list _ Hr (fl_ID current)); [by apply retired_list_ok, Hl|done|].
  by apply (other_keys st current).
Qed.

(** *** Entries *)

Lemma CreateFirewallAddressEntry_ok new_id listID input st r st' : catalog_ok st →
  CreateFirewallAddressEntry pg_uuid new_id listID input st = (r, st') → catalog_ok st'.
Proof.
  intros Hok. unfold CreateFirewallAddressEntry. case_match; [by intros [= _ <-]|].
  destruct (normalizeFirewallAddressEntry _ _) as [[value ty]|] eqn:En; [|by intros [= _ <-]].
  destruct (pg_uuid _) as [list|]; [|by intros [= _ <-]].
  destruct (_ || _) eqn:Ex; intros [= _ <-]; [done|].
  apply orb_false_iff in Ex as [[Hc%negb_false_iff Hl%negb_false_iff]%orb_false_iff Ex].
  rewrite existsb_false in Ex. apply add_entry; [done|split; [done|by eexists _, _]| | |].
  - by apply in_column in Hl.
  - apply not_in_column. intros a Ha. specialize (Ex a Ha). apply orb_false_iff in Ex as [E _]. by apply String.eqb_neq.
  - intros a Ha. specialize (Ex a Ha). by apply orb_false_iff in Ex as [_ ?].
Qed.

Lemma find_entry_in listID entryID st e : find_entry pg_uuid listID entryID st = Some e → e ∈ entries st.
Proof.
  unfold find_entry. destruct (pg_uuid listID); [|done]. simpl. destruct (pg_uuid entryID); [|done]. simpl.
  by intros [? _]%elem_of_find.
Qed.

Lemma UpdateFirewallAddressEntry_ok listID entryID input st r st' : catalog_ok st →
  UpdateFirewallAddressEntry pg_uuid listID entryID input st = (r, st') → catalog_ok st'.
Proof.
  intros Hok. unfold UpdateFirewallAddressEntry. destruct (_ || _); [by intros [= _ <-]|].
  destruct (normalizeFirewallAddressEntry _ _) as [[value ty]|] eqn:En; [|by intros [= _ <-]].
  destruct (find_entry _ _ _ _) as [current|] eqn:Ef; [|by intros [= _ <-]].
  destruct (_ || _) eqn:Ex; intros [= _ <-]; [done|].
  apply orb_false_iff in Ex as [Hc%negb_false_iff Ex]. rewrite existsb_false in Ex.
  apply put_entry; [done|by eapply find_entry_in|split; [done|by eexists _, _]|done|done|].
  intros e He Hne. specialize (Ex e He). simpl in Ex, Hne. apply String.eqb_neq in Hne. by rewrite Hne in Ex.
Qed.

Lemma DeleteFirewallAddressEntry_ok listID entryID st r st' : catalog_ok st →
  DeleteFirewallAddressEntry pg_uuid listID entryID st = (r, st') → catalog_ok st'.
Proof.
  intros Hok. unfold DeleteFirewallAddressEntry. destruct (_ || _); [by intros [= _ <-]|].
  destruct (find_entry _ _ _ _) as [current|] eqn:Ef; intros [= _ <-]; [|done].
  apply find_entry_in in Ef. pose proof (co_entries _ Hok) as He. rewrite Forall_forall in He.
  destruct (He _ Ef) as [[Hc Hn] _].
  apply put_entry; [done|done| |done|done|done]. split; [|done].
  unfold entry_checks in *. simpl. split_bools. by rewrite !andb_true_iff.
Qed.

(** *** Rules *)

Lemma rule_row_spec st id policy r row : uuid_ok id → policy ∈ fp_ID <$> policies st →
  (∃ r0, normalizeFirewallRule r0 = Ok r) → rule_row pg_uuid st id policy r = Some row →
  rule_row_ok st row ∧ fr_ID row = id.
Proof.
  intros Hid Hpol (r0 & Hn) H. unfold rule_row in H.
  destruct (uuid_column _ (nullableFirewallID (fr_SrcListID r))) as [src|] eqn:Es; [|done]. simpl in H.
  destruct (uuid_column _ (nullableFirewallID (fr_DstListID r))) as [dst|] eqn:Ed; [|done]. simpl in H.
  destruct (_ && _) eqn:Hc in H; [|done]. injection H as <-. split_bools.
  destruct (normal_rule_ok _ _ Hn) as (? & ? & ? & ? & ? & ? & ?).
  split; [|done]. split; [by constructor|]. split; [done|]. split; [done|].
  intros x [Hx|Hx]; simpl in Hx; subst; by apply in_column.
Qed.

Lemma rule_row_policy st id policy r row : rule_row pg_uuid st id policy r = Some row → fr_PolicyID row = policy.
Proof.
  unfold rule_row. destruct (uuid_column _ (nullableFirewallID (fr_SrcListID r))) as [src|]; [|done]. simpl.
  destruct (uuid_column _ (nullableFirewallID (fr_DstListID r))) as [dst|]; [|done]. simpl.
  destruct (_ && _); [|done]. by intros [= <-].
Qed.

Lemma CreateFirewallRule_ok new_id policyID input st r st' : catalog_ok st → uuid_ok new_id →
  CreateFirewallRule pg_uuid new_id policyID input st = (r, st') → catalog_ok st'.
Proof.
  intros Hok Hid. unfold CreateFirewallRule. case_match; [by intros [= _ <-]|].
  destruct (normalizeFirewallRule input) as [rule|] eqn:En; [|by intros [= _ <-]].
  destruct (pg_uuid _) as [policy|]; [|by intros [= _ <-]]. simpl.
  destruct (rule_row _ _ _ _ _) as [row|] eqn:Er; [|by intros [= _ <-]].
  destruct (_ || _) eqn:Ex; intros [= _ <-]; [done|].
  apply orb_false_iff in Ex as [Hp%negb_false_iff Ex].
  pose proof (rule_row_policy _ _ _ _ _ Er) as Ep.
  apply in_column in Hp. rewrite Ep in Hp.
  destruct (rule_row_spec _ _ _ _ _ Hid Hp (ex_intro _ _ En) Er) as [Hr Hi].
  apply add_rule; [done|done|]. rewrite Hi. apply not_in_column. intros a Ha.
  rewrite existsb_false in Ex. by apply String.eqb_neq, Ex.
Qed.

Lemma find_rule_in policyID ruleID st r : find_rule pg_uuid policyID ruleID st = Some r → r ∈ rules st.
Proof.
  unfold find_rule. destruct (pg_uuid policyID); [|done]. simpl. destruct (pg_uuid ruleID); [|done]. simpl.
  by intros [? _]%elem_of_find.
Qed.

Lemma UpdateFirewallRule_ok policyID ruleID input st r st' : catalog_ok st →
  UpdateFirewallRule pg_uuid policyID ruleID input st = (r, st') → catalog_ok st'.
Proof.
  intros Hok. unfold UpdateFirewallRule. destruct (_ || _); [by intros [= _ <-]|].
  destruct (normalizeFirewallRule input) as [rule|] eqn:En; [|by intros [= _ <-]].
  destruct (find_rule _ _ _ _) as [current|] eqn:Ef; [|by intros [= _ <-]].
  destruct (rule_row _ _ _ _ _) as [row|] eqn:Er; intros [= _ <-]; [|done].
  apply find_rule_in in Ef. pose proof (co_rules _ Hok) as Hr. rewrite Forall_forall in Hr.
  destruct (Hr _ Ef) as (_ & Hid & Hpol & _).
  destruct (rule_row_spec _ _ _ _ _ Hid Hpol (ex_intro _ _ En) Er) as [Hrow Hi]. by apply put_rule.
Qed.

Lemma DeleteFirewallRule_ok policyID ruleID st r st' : catalog_ok st →
  DeleteFirewallRule pg_uuid policyID ruleID st = (r, st') → catalog_ok st'.
Proof.
  intros Hok. unfold DeleteFirewallRule. destruct (_ || _); [by intros [= _ <-]|].
  destruct (find_rule _ _ _ _) as [current|] eqn:Ef; intros [= _ <-]; [|done].
  apply find_rule_in in Ef. pose proof (co_rules _ Hok) as Hr. rewrite Forall_forall in Hr.
  apply put_rule; [done| |done]. by apply retired_rule_ok, Hr.
Qed.
End operations.

(** ** Defaults *)

Section more_changes.
Context (st : catalog) (Hok : catalog_ok st).

Lemma put_lists ls : Forall list_ok ls → fl_ID <$> ls = fl_ID <$> lists st → fl_Key <$> ls = fl_Key <$> lists st →
  catalog_ok (set_lists ls st).
Proof using Hok. intros H1 H2 H3. destruct Hok. constructor; simpl; by rewrite ?H2, ?H3. Qed.

Lemma put_policies ps : Forall policy_ok ps → fp_ID <$> ps = fp_ID <$> policies st →
  fp_Key <$> ps = fp_Key <$> policies st → catalog_ok (set_policies ps st).
Proof using Hok. intros H1 H2 H3. destruct Hok. constructor; simpl; by rewrite ?H2, ?H3. Qed.

(** An update of live rows that keeps their identifier, list and value. *)
Lemma put_live_entries hit f :
  (∀ e, hit e = true → live_status (fe_Status e) = true) →
  (∀ e, entry_ok e → hit e = true → entry_ok (f e)
    ∧ fe_ID (f e) = fe_ID e ∧ fe_ListID (f e) = fe_ListID e ∧ fe_Value (f e) = fe_Value e) →
  catalog_ok (set_entries (update_where hit f (entries st)) st).
Proof using Hok.
  intros Hlive Hf. destruct Hok.
  assert (∀ e, e ∈ entries st → entry_ok e) as He.
  { intros e Hin. rewrite Forall_forall in co_entries0. by apply co_entries0. }
  apply put_entries; [done|..].
  - apply Forall_forall. intros a (e & -> & Hin)%list_elem_of_fmap. rewrite Forall_forall in co_entries0.
    destruct (co_entries0 e Hin) as [Ho Hl]. destruct (hit e) eqn:E; [|done].
    destruct (Hf e Ho E) as (? & _ & -> & _). done.
  - rewrite update_where_column; [done|]. intros e Hin E. by destruct (Hf e (He e Hin) E) as (_ & ? & _).
  - assert (∀ e e' : FirewallAddressEntry, e' ∈ entries st → e = (if hit e' then f e' else e') → live_status (fe_Status e) = true →
      fe_ID e = fe_ID e' ∧ fe_ListID e = fe_ListID e' ∧ fe_Value e = fe_Value e' ∧ live_status (fe_Status e') = true) as Hu.
    { intros e e' Hin -> Hs. destruct (hit e') eqn:E; [|done].
      destruct (Hf e' (He e' Hin) E) as (_ & -> & -> & ->). by rewrite Hlive. }
    intros a b (a' & Ea & Ha)%list_elem_of_fmap (b' & Eb & Hb)%list_elem_of_fmap E.
    unfold entry_clash in E. split_bools.
    destruct (Hu a a' Ha Ea) as (Ia & La & Va & Sa); [done|].
    destruct (Hu b b' Hb Eb) as (Ib & Lb & Vb & Sb); [done|]. rewrite Ia, Ib.
    apply (co_entry_values0 a' b'); [done..|]. unfold entry_clash.
    rewrite <-La, <-Lb, <-Va, <-Vb, !andb_true_iff. by split_and!.
Qed.
End more_changes.

(** A loop over numbered seeds. *)
Lemma foldl_seeds {A T} (step : T → nat * A → T) (Inv : nat → T → Prop) (seeds : list A) k s :
  Inv k s → (∀ n a s, k ≤ n < k + length seeds → a ∈ seeds → Inv n s → Inv (S n) (step s (n, a)))%nat →
  Inv (k + length seeds)%nat (foldl step s (zip (seq k (length seeds)) seeds)).
Proof.
  revert k s. induction seeds as [|a seeds IH]; intros k s H0 Hs; simpl; [by rewrite Nat.add_0_r|].
  rewrite Nat.add_succ_r. apply (IH (S k)).
  - apply Hs; [simpl; lia|by left|done].
  - intros n b t Hn Hb. apply Hs; [simpl; lia|by right].
Qed.

(** The [k] identifiers of a call as [id.New] draws them: canonical and each once. *)
Record supply (k : nat) (ids : nat → string) : Prop := {
  su_uuid : ∀ n, (n < k)%nat → uuid_ok (ids n);
  su_inj : ∀ n m, (n < k)%nat → (m < k)%nat → ids n = ids m → n = m }.

(** The identifiers from [n] on are not used yet. *)
Definition unused {A} (k : nat) (ids : nat → string) (n : nat) (id : A → string) (rows : list A) : Prop :=
  ∀ m, (n ≤ m < k)%nat → ids m ∉ id <$> rows.

Lemma unused_snoc {A} k ids n (id : A → string) rows row :
  supply k ids → (n < k)%nat → id row = ids n → unused k ids n id rows → unused k ids (S n) id (rows ++ [row]).
Proof.
  intros Hs Hn Hi H m Hm. rewrite fmap_app, elem_of_app. simpl. rewrite list_elem_of_singleton, Hi.
  intros [Hin|E]; [by apply (H m); [lia|]|]. apply (su_inj _ _ Hs) in E; lia.
Qed.

Lemma unused_mono {A} k ids n m (id : A → string) rows :
  (n ≤ m)%nat → unused k ids n id rows → unused k ids m id rows.
Proof. intros ? H p ?. apply H. lia. Qed.

Definition text_seed (seed : string * string * string * string) : bool :=
  let '(key, label, description, scope) := seed in
  firewallKeyRE key && pg_text label && pg_text description
  && one_of scope ["global"; "control_plane"; "node"; "service"; "client"; "template"].

Lemma default_lists_ok : forallb text_seed default_lists = true.
Proof. by vm_compute. Qed.

Section defaults.
Context (k : nat) (ids : nat → string) (json_text : any → string).

Lemma upsert_list_ok st n seed ls : supply k ids → (n < k)%nat → seed ∈ default_lists →
  catalog_ok (set_lists ls st) ∧ unused k ids n fl_ID ls →
  catalog_ok (set_lists (upsert_list ids (n, seed) ls) st) ∧ unused k ids (S n) fl_ID (upsert_list ids (n, seed) ls).
Proof.
  intros Hs Hlt Hin [Hok Hun]. pose proof default_lists_ok as Hd. rewrite forallb_forall in Hd.
  apply list_elem_of_In, Hd in Hin. destruct seed as [[[key label] desc] scope]. unfold text_seed in Hin. split_bools.
  match goal with H : firewallKeyRE key = true |- _ => pose proof (key_RE_bytes _ H) as Hkey end.
  unfold upsert_list. destruct (existsb (λ l, fl_Key l =s key) ls) eqn:Ex.
  - assert (fl_ID <$> update_where (λ l, fl_Key l =s key)
      (λ l, MkAddressList (fl_ID l) key label desc scope (fl_Status l)) ls = fl_ID <$> ls) as Hids
      by (by apply update_where_column).
    split; [|intros m ?; rewrite Hids; apply Hun; lia].
    apply (put_lists (set_lists ls st)); [done| |done|].
    + apply update_where_Forall; [by apply (co_lists _ Hok)|]. intros l [Hc Hi _] _. split; [|done|done].
      unfold list_checks in *. cbn [fl_Key fl_Label fl_Description fl_Scope fl_Status].
      rewrite pg_text_key by by destruct Hkey. split_bools. by rewrite !andb_true_iff.
    + apply update_where_column. by intros l _ ->%String.eqb_eq.
  - split; [|by apply unused_snoc].
    apply (add_list (set_lists ls st)); [done| |by apply Hun; lia|].
    + split; [|by apply (su_uuid _ _ Hs)|done]. unfold list_checks. cbn [fl_Key fl_Label fl_Description fl_Scope fl_Status].
      rewrite pg_text_key by by destruct Hkey. by rewrite !andb_true_iff.
    + apply not_in_column. intros l Hl. rewrite existsb_false in Ex. by apply String.eqb_neq, Ex.
Qed.

Lemma seed_lists_ok st : catalog_ok st → supply k ids → (20 ≤ k)%nat →
  unused k ids 0 fl_ID (lists st) → catalog_ok (seed_lists ids st).
Proof.
  intros Hok Hf Hk Hu. unfold seed_lists.
  apply (foldl_seeds (λ ls seed, upsert_list ids seed ls)
    (λ n ls, catalog_ok (set_lists ls st) ∧ unused k ids n fl_ID ls) default_lists 0).
  - destruct st. by split.
  - intros n a ls Hn Ha. simpl in Hn. apply upsert_list_ok; [done|lia|done].
Qed.

Lemma live_list_in key st id : live_list key st = Some id → id ∈ fl_ID <$> lists st.
Proof.
  unfold live_list. destruct (List.find _ _) as [l|] eqn:E; [|done]. intros [= <-].
  apply elem_of_find in E as [? _]. by apply list_elem_of_fmap_2.
Qed.

Definition source_seed (seed : string * string * string) : bool :=
  let '(value, valueType, label) := seed in
  pg_text value && pg_text label && one_of valueType ["cidr"; "address"; "range"; "dns"]
  && match normalizeFirewallAddressEntry value valueType with
     | Ok (v, t) => (v =s value) && (t =s valueType)
     | Err _ => false
     end.

Lemma default_sources_ok : forallb source_seed default_client_sources = true.
Proof. by vm_compute. Qed.

Lemma new_entry_ok id list value valueType label :
  pg_text value = true → pg_text label = true → (∃ v t, normalizeFirewallAddressEntry v t = Ok (value, valueType)) →
  entry_ok (MkAddressEntry id list value valueType label "active").
Proof.
  intros Hv Hl (v & t & Hn). split; [|by eexists _, _]. unfold entry_checks. simpl. rewrite Hv, Hl. simpl.
  rewrite andb_true_r. clear -Hn. unfold normalizeFirewallAddressEntry in Hn.
  repeat case_match; simplify_eq; done.
Qed.

Lemma seed_entries_ok st : catalog_ok st → supply k ids → (20 ≤ k)%nat → unused k ids 0 fe_ID (entries st) →
  catalog_ok (seed_entries ids st) ∧ unused k ids 11 fe_ID (entries (seed_entries ids st)).
Proof.
  intros Hok Hf Hk Hu. unfold seed_entries.
  destruct (live_list _ st) as [list|] eqn:El; [|split; [done|by eapply unused_mono, Hu; lia]].
  apply live_list_in in El. set (step := λ es seed, _).
  apply (foldl_seeds step (λ n es, catalog_ok (set_entries es st) ∧ unused k ids n fe_ID es) default_client_sources 6).
  - destruct st. split; [done|]. by eapply unused_mono, Hu; lia.
  - intros n [[value ty] label] es Hn Hin [Ho Hun]. simpl in Hn. pose proof default_sources_ok as Hd.
    rewrite forallb_forall in Hd. apply list_elem_of_In, Hd in Hin. unfold source_seed in Hin. split_bools.
    unfold step. destruct (existsb _ es) eqn:Ex; [split; [done|by eapply unused_mono, Hun; lia]|].
    rewrite existsb_false in Ex. split; [|by apply unused_snoc; [done|lia|..]].
    apply (add_entry (set_entries es st)); [done| |done|by apply Hun; lia|done].
    apply new_entry_ok; [done..|]. destruct (normalizeFirewallAddressEntry value ty) as [[v t]|] eqn:En; [|done].
    split_bools. eexists _, _. rewrite En. by rewrite ?(proj1 (String.eqb_eq v value)), ?(proj1 (String.eqb_eq t ty)).
Qed.

Definition policy_seed (p : FirewallPolicy) : bool := policy_checks p && firewallKeyRE (fp_Key p).

Lemma default_policies_ok id1 id2 : forallb policy_seed (default_policies id1 id2) = true.
Proof. by vm_compute. Qed.

Lemma seed_policies_ok st : catalog_ok st → supply k ids → (20 ≤ k)%nat → unused k ids 0 fp_ID (policies st) →
  catalog_ok (seed_policies ids st).
Proof.
  intros Hok Hf Hk Hu. unfold seed_policies.
  assert (∀ row ps, catalog_ok (set_policies ps st) → policy_seed row = true → uuid_ok (fp_ID row) →
    fp_ID row ∉ fp_ID <$> ps →
    catalog_ok (set_policies (if existsb (λ p, fp_Key p =s fp_Key row) ps then ps else ps ++ [row]) st)) as Hadd.
  { intros row ps Ho Hs Hi Hn. unfold policy_seed in Hs. split_bools. destruct (existsb _ ps) eqn:Ex; [done|].
    apply (add_policy (set_policies ps st)); [done|split; [done|done|by apply key_RE_bytes]|done|].
    apply not_in_column. intros q Hq. rewrite existsb_false in Ex. by apply String.eqb_neq, Ex. }
  pose proof (default_policies_ok (ids 11) (ids 12)) as Hd. unfold default_policies in *.
  cbn [forallb] in Hd. cbn [foldl]. apply andb_true_iff in Hd as [H1 [H2 _]%andb_true_iff].
  assert (∀ n, (n < 20)%nat → ids n ∉ fp_ID <$> policies st) as Hn by (intros; apply Hu; lia).
  apply Hadd; [apply Hadd; [by destruct st|done|apply Hf; simpl; lia|apply Hn; lia]|done|apply Hf; simpl; lia|].
  case_match; [apply Hn; lia|]. rewrite fmap_app, elem_of_app. intros [Hin|Hin]; [by apply (Hn 12%nat); [lia|]|].
  apply list_elem_of_singleton in Hin. simpl in Hin. apply (su_inj _ _ Hf) in Hin; lia.
Qed.

Lemma reset_node_policy_ok st : catalog_ok st → catalog_ok (reset_node_policy st).
Proof.
  intros Hok. apply put_policies; [done| |by apply update_where_column|by apply update_where_column].
  apply update_where_Forall; [by apply co_policies|]. intros p [Hc Hi Hk] _. split; [|done|done].
  unfold policy_checks, default_node_policy in *. 
  cbn [fp_Key fp_Label fp_Description fp_Scope fp_DefaultInputPolicy fp_DefaultForwardPolicy fp_DefaultOutputPolicy fp_Status].
  rewrite (pg_text_key (fp_Key p)) by by destruct Hk. split_bools. rewrite !andb_true_iff.
  split_and!; try done; try by vm_compute. by destruct (live_status (fp_Status p)).
Qed.

Definition rule_seed_ok (seed : rule_seed) : bool :=
  rule_checks (seed_row (MkCatalog [] [] [] [] [] [] []) "" "" seed)
  && match normalizeFirewallPorts (sd_DstPorts seed) with Ok t => t =s sd_DstPorts seed | Err _ => false end
  && ((sd_DstPorts seed =s "") || (sd_Protocol seed =s "tcp"))
  && bool_decide (NoDup (sd_StateMatch seed)) && forallb (λ s, one_of s states) (sd_StateMatch seed)
  && (trim_space (sd_Comment seed) =s sd_Comment seed).

Lemma default_rules_ok : forallb rule_seed_ok default_rules = true.
Proof. by vm_compute. Qed.

Lemma seed_row_ok st id policy seed : seed ∈ default_rules → uuid_ok id → policy ∈ fp_ID <$> policies st →
  rule_row_ok st (seed_row st id policy seed).
Proof.
  intros Hin Hid Hpol. pose proof default_rules_ok as Hd. rewrite forallb_forall in Hd.
  apply list_elem_of_In, Hd in Hin. unfold rule_seed_ok in Hin. split_bools.
  split_and!; [|done|done|].
  - constructor; try (by exists ""); cbn [fr_DstPorts fr_SrcPorts fr_Protocol fr_StateMatch fr_Comment seed_row].
    + match goal with H : rule_checks _ = true |- _ => exact H end.
    + exists (sd_DstPorts seed). destruct (normalizeFirewallPorts _) as [t|]; [|done].
      by match goal with H : (t =s _) = true |- _ => apply String.eqb_eq in H as -> end.
    + intros [|Hp]; [done|].
      match goal with H : _ || _ = true |- _ => apply orb_true_iff in H as [H%String.eqb_eq|H%String.eqb_eq] end; [done|auto].
    + split; [done|]. apply Forall_forall. intros x Hx%list_elem_of_In.
      match goal with H : forallb _ _ = true |- _ => rewrite forallb_forall in H; by apply one_of_spec, H end.
    + by match goal with H : (trim_space _ =s _) = true |- _ => apply String.eqb_eq in H end.
  - intros x [Hx|Hx]; [|done]. simpl in Hx. repeat case_match; try done; by apply live_list_in in Hx.
Qed.

Lemma seed_rules_ok st : catalog_ok st → supply k ids → (20 ≤ k)%nat → unused k ids 0 fr_ID (rules st) →
  catalog_ok (seed_rules ids json_text st).
Proof.
  intros Hok Hf Hk Hu. unfold seed_rules. destruct (List.find _ _) as [p|] eqn:Ep; [|done].
  apply elem_of_find in Ep as [Hp _].
  set (seeds := List.filter _ _).
  assert (∀ seed, seed ∈ seeds → seed ∈ zip (seq 13 7) default_rules) as Hin.
  { intros seed Hs%list_elem_of_In. apply filter_In in Hs as [Hs _]. by apply list_elem_of_In. }
  assert (∀ seed, seed ∈ seeds → (fst seed < 20)%nat) as Hlt.
  { intros [n seed] Hs%Hin%elem_of_zip_l%elem_of_seq. simpl. lia. }
  assert (NoDup (fst <$> seeds)) as Hnd.
  { unfold seeds. clear.
    assert (NoDup (fst <$> zip (seq 13 7) default_rules)) as H.
    { apply (bool_decide_unpack _). by vm_compute. }
    revert H. generalize (zip (seq 13 7) default_rules). intros l H.
    induction l as [|x l IH]; [constructor|]. simpl in *. apply NoDup_cons in H as [Hx H].
    case_match; [|auto]. simpl. apply NoDup_cons. split; [|auto]. intros (y & Hy & Hin)%list_elem_of_fmap.
    apply Hx. rewrite Hy. apply list_elem_of_fmap_2. apply list_elem_of_In, filter_In in Hin as [Hin _].
    by apply list_elem_of_In. }
  apply put_rules; [done| |].
  - apply Forall_app. split; [apply co_rules, Hok|]. apply Forall_fmap, Forall_forall. intros [n seed] Hs%Hin.
    pose proof (elem_of_zip_l _ _ _ _ Hs) as Hn%elem_of_seq.
    apply seed_row_ok; [by apply elem_of_zip_r in Hs|apply (su_uuid _ _ Hf); simpl; lia|by apply list_elem_of_fmap_2].
  - rewrite fmap_app. apply NoDup_app. split_and!; [apply co_rule_ids, Hok| |].
    + intros x Hx (r & -> & (y & -> & Hy)%list_elem_of_fmap)%list_elem_of_fmap. pose proof (Hlt _ Hy). by apply (Hu (fst y)) in Hx; [|lia].
    + rewrite <-list_fmap_compose.
      assert ((fr_ID ∘ (λ seed : nat * rule_seed, seed_row st (ids seed.1) (fp_ID p) seed.2)) <$> seeds
        = ids <$> (fst <$> seeds)) as -> by (rewrite <-list_fmap_compose; done).
      apply NoDup_fmap_2_strong; [|done].
      intros n m (x & -> & Hx)%list_elem_of_fmap (y & -> & Hy)%list_elem_of_fmap. pose proof (Hlt _ Hx).
      pose proof (Hlt _ Hy). apply Hf; lia.
Qed.
End defaults.

(** ** Management sources *)

Definition normal_entry (entry : string * string) : Prop := ∃ v t, normalizeFirewallAddressEntry v t = Ok entry.

Lemma management_entries_ok parts out new :
  Forall normal_entry out → management_entries out parts = Ok new → Forall normal_entry new.
Proof.
  revert out. induction parts as [|part parts IH]; intros out Ho H; simpl in H; [by injection H as <-|].
  apply bind_ok_inv in H as ([value ty] & Hn & H). case_match; [done|]. case_match; [done|].
  eapply IH; [|exact H]. case_match; [done|]. apply Forall_app. split; [done|]. constructor; [|constructor]. by eexists _, _.
Qed.

Lemma normalize_groups_ok specs groups : Forall (λ s, pg_text (snd (fst s)) = true) specs →
  normalize_groups specs = Ok groups → Forall (λ g, pg_text (snd (fst g)) = true ∧ Forall normal_entry (snd g)) groups.
Proof.
  intros Hs. revert groups. induction Hs as [|[[k l] vs] specs Hl _ IH]; intros groups H; simpl in H.
  { by injection H as <-. }
  apply bind_ok_inv in H as (new & Hn%map_err_ok & H). apply bind_ok_inv in H as (gs & Hg & [= <-]).
  constructor; [|auto]. split; [done|]. by eapply management_entries_ok, Hn.
Qed.

Section management.
Context (k : nat) (ids : nat → string).
Hypothesis Hids : supply k ids.

Lemma upsert_entry_ok st n listID label entry es : (n < k)%nat →
  listID ∈ fl_ID <$> lists st → pg_text label = true → normal_entry entry → pg_text (fst entry) = true →
  catalog_ok (set_entries es st) ∧ unused k ids n fe_ID es →
  catalog_ok (set_entries (upsert_entry (ids n) listID label entry es) st)
  ∧ unused k ids (S n) fe_ID (upsert_entry (ids n) listID label entry es).
Proof using Hids.
  intros Hlt Hl Hlab Hn Hv [Hok Hun]. destruct entry as [value ty]. unfold upsert_entry. cbn [fst snd] in *.
  set (row := MkAddressEntry _ _ _ _ _ _).
  assert (entry_ok row) as Hrow by (by apply new_entry_ok).
  destruct (existsb (entry_clash row) es) eqn:Ex.
  - assert (fe_ID <$> update_where (entry_clash row)
      (λ e, MkAddressEntry (fe_ID e) (fe_ListID e) (fe_Value e) ty label "active") es = fe_ID <$> es) as Hcol
      by (by apply update_where_column).
    split; [|intros m ?; rewrite Hcol; apply Hun; lia].
    apply (put_live_entries (set_entries es st)); [done|..].
    + intros e He. unfold entry_clash in He. by split_bools.
    + intros e _ He. split; [|done]. unfold entry_clash in He. split_bools.
      match goal with H : (fe_Value e =s _) = true |- _ => apply String.eqb_eq in H as -> end. by apply new_entry_ok.
  - rewrite existsb_false in Ex. split; [|by apply unused_snoc].
    apply (add_entry (set_entries es st)); [done|done|done|by apply Hun; lia|done].
Qed.

Lemma upsert_entries_ok st listID label new n es : (n + length new ≤ k)%nat →
  listID ∈ fl_ID <$> lists st → pg_text label = true → Forall normal_entry new →
  forallb (λ e, pg_text (fst e)) new = true →
  catalog_ok (set_entries es st) ∧ unused k ids n fe_ID es →
  catalog_ok (set_entries (upsert_entries ids n listID label new es) st)
  ∧ unused k ids (n + length new) fe_ID (upsert_entries ids n listID label new es).
Proof using Hids.
  intros Hlt Hl Hlab. revert n es Hlt. induction new as [|entry new IH]; intros n es Hlt Hn Hv Hok; simpl in *.
  { by rewrite Nat.add_0_r. }
  apply Forall_cons in Hn as [He Hn]. apply andb_true_iff in Hv as [Hv1 Hv].
  rewrite Nat.add_succ_r. apply (IH (S n)); [lia|done..|]. apply upsert_entry_ok; [lia|done..].
Qed.

Lemma write_group_ok st replace n listKey label new st' :
  (n + length new ≤ k)%nat → pg_text label = true → Forall normal_entry new → catalog_ok st →
  unused k ids n fe_ID (entries st) → write_group ids replace n listKey label new st = Ok st' →
  catalog_ok st' ∧ unused k ids (n + length new) fe_ID (entries st').
Proof using Hids.
  intros Hlt Hlab Hn Hok Hun. unfold write_group. destruct (_ && _).
  { intros [= <-]. split; [done|]. eapply unused_mono, Hun. lia. }
  destruct (live_list listKey st) as [listID|] eqn:El; [|done]. apply live_list_in in El.
  destruct (forallb _ new) eqn:Ev; [|done]. intros [= <-].
  apply (upsert_entries_ok st); [done..|]. split; [by apply retire_entries|].
  intros m Hm. rewrite update_where_column; [by apply Hun|done].
Qed.

(** The entries a call writes. *)
Definition entry_count (groups : list (string * string * list (string * string))) : nat :=
  foldr (λ g n, length (snd g) + n)%nat 0%nat groups.

Lemma write_groups_ok replace groups n st st' : (n + entry_count groups ≤ k)%nat →
  Forall (λ g, pg_text (snd (fst g)) = true ∧ Forall normal_entry (snd g)) groups → catalog_ok st →
  unused k ids n fe_ID (entries st) → write_groups ids replace n groups st = Ok st' → catalog_ok st'.
Proof using Hids.
  revert n st. induction groups as [|[[key l] new] groups IH]; intros n st Hlt Hg Hok Hun H; simpl in *;
    [by injection H as <-|].
  apply Forall_cons in Hg as [[Hl Hn] Hg]. apply bind_ok_inv in H as (st1 & H1 & H).
  destruct (write_group_ok st replace n key l new st1) as [Hok1 Hun1]; [lia|done..|].
  eapply IH; [|done..]. lia.
Qed.
End management.

(** ** The defaults, then the settings *)

Section ensure.
Context (k : nat) (ids : nat → string) (json_text : any → string).

Record fresh (st : catalog) : Prop := {
  fh_enough : (20 ≤ k)%nat;
  fh_supply : supply k ids;
  fh_lists : unused k ids 0 fl_ID (lists st);
  fh_entries : unused k ids 0 fe_ID (entries st);
  fh_policies : unused k ids 0 fp_ID (policies st);
  fh_rules : unused k ids 0 fr_ID (rules st) }.

Lemma seed_tables st :
  policies (seed_entries ids (seed_lists ids st)) = policies st ∧ rules (seed_entries ids (seed_lists ids st)) = rules st.
Proof. unfold seed_entries. by destruct (live_list _ _). Qed.

Lemma EnsureDefaultFirewallPolicies_ok st : catalog_ok st → fresh st →
  catalog_ok (EnsureDefaultFirewallPolicies ids json_text st)
  ∧ unused k ids 11 fe_ID (entries (EnsureDefaultFirewallPolicies ids json_text st)).
Proof.
  intros Hok [Hk Hs Hl He Hp Hr]. destruct (seed_tables st) as [Ep Er].
  destruct (seed_entries_ok k ids (seed_lists ids st)) as [H1 Hu]; [by apply (seed_lists_ok k)|done..|].
  assert (catalog_ok (seed_policies ids (seed_entries ids (seed_lists ids st)))) as H2.
  { apply (seed_policies_ok k); [done..|]. by rewrite Ep. }
  apply reset_node_policy_ok in H2. split.
  - apply (seed_rules_ok k); [done..|]. simpl. by rewrite Er.
  - unfold EnsureDefaultFirewallPolicies, seed_rules. by destruct (List.find _ _).
Qed.

(** The identifiers a change of the settings draws. *)
Definition settings_ids (input : FirewallManagementSettings) : nat :=
  match normalize_groups (settings_specs input) with Ok groups => 20 + entry_count groups | Err _ => 20 end.

Lemma upsertFirewallManagementCIDRs_ok input replace st r st' : catalog_ok st → fresh st → (settings_ids input ≤ k)%nat →
  upsertFirewallManagementCIDRs ids json_text input replace st = (r, st') → catalog_ok st'.
Proof.
  intros Hok Hf. unfold upsertFirewallManagementCIDRs, settings_ids.
  destruct (EnsureDefaultFirewallPolicies_ok st Hok Hf) as [H1 Hu].
  destruct (normalize_groups _) as [groups|] eqn:Eg; [|by intros _ [= _ <-]]. intros Hle.
  destruct (write_groups _ _ _ _ _) as [st1|] eqn:Ew; intros [= _ <-]; [|done].
  eapply write_groups_ok; [exact (fh_supply _ Hf)|exact Hle| |exact H1| |exact Ew].
  - eapply normalize_groups_ok, Eg. repeat constructor.
  - eapply unused_mono, Hu. lia.
Qed.
End ensure.

(** ** Reachable catalogues *)

(** The four tables of the catalogue are the same. *)
Definition same_tables (st st' : catalog) : Prop :=
  lists st' = lists st ∧ entries st' = entries st ∧ policies st' = policies st ∧ rules st' = rules st.

Lemma same_tables_ok st st' : same_tables st st' → catalog_ok st → catalog_ok st'.
Proof. intros (El & Ee & Ep & Er) []. constructor; by rewrite ?El, ?Ee, ?Ep, ?Er. Qed.

Lemma same_tables_trans st1 st2 st3 : same_tables st1 st2 → same_tables st2 st3 → same_tables st1 st3.
Proof. unfold same_tables. intuition congruence. Qed.

Section reachable.
Context (pg_uuid : string → option string) (node_exists : string → bool) (text_before : string → string → bool).
Context (facts : node_facts) (sprint : any → string) (marshal : gomap → option string) (json_text : any → string).

Lemma insertJobRow_tables j st st' : insertJobRow pg_uuid facts j st = Some st' → same_tables st st'.
Proof.
  unfold insertJobRow. destruct (job_row _ _ _) as [row|]; [|done]. simpl. case_match; [done|]. by intros [= <-].
Qed.

Lemma preview_tables rid jid now nodeID policyID enforce st r st' :
  CreateFirewallPreviewJob pg_uuid text_before facts sprint marshal rid jid now nodeID policyID enforce st = (r, st') →
  same_tables st st'.
Proof.
  unfold CreateFirewallPreviewJob. destruct (mbind _ _) as [[job b]|]; [|by intros [= _ <-]].
  destruct (insertJobRow _ _ _ _) as [st1|] eqn:Ei; intros [= _ <-]; [|done]. by eapply insertJobRow_tables.
Qed.

Lemma apply_tables rid jid now nodeID policyID enforce st r st' :
  CreateFirewallApplyJob pg_uuid text_before facts sprint marshal json_text rid jid now nodeID policyID enforce st
    = (r, st') → same_tables st st'.
Proof.
  unfold CreateFirewallApplyJob. destruct (mbind _ _) as [[built [job b]]|]; [|by intros [= _ <-]].
  destruct (insert_revision _ _) as [st1|] eqn:Er; [|by intros [= _ <-]]. cbn [mbind option_bind].
  destruct (insertJobRow _ _ _ _) as [st2|] eqn:Ei; [|by intros [= _ <-]]. cbn [mbind option_bind].
  destruct (pg_uuid _) as [node|]; intros [= _ <-]; [|done]. apply insertJobRow_tables in Ei.
  unfold insert_revision in Er. destruct (existsb _ _); [done|]. injection Er as <-. exact Ei.
Qed.

Lemma disable_tables jid now nodeID st r st' :
  CreateFirewallDisableJob pg_uuid facts marshal jid now nodeID st = (r, st') → same_tables st st'.
Proof.
  unfold CreateFirewallDisableJob. destruct (_ =s ""); [by intros [= _ <-]|].
  destruct (negb _); [by intros [= _ <-]|].
  destruct (map_err _ _) as [[job b]|]; [|by intros [= _ <-]].
  destruct (insertJobRow _ _ _ _) as [st2|] eqn:Ei; [|by intros [= _ <-]]. cbn [mbind option_bind].
  destruct (pg_uuid _) as [node|]; intros [= _ <-]; [|done]. by apply insertJobRow_tables in Ei.
Qed.

Lemma result_tables job status result st r st' :
  ApplyFirewallJobResult pg_uuid facts sprint job status result st = (r, st') → same_tables st st'.
Proof.
  unfold ApplyFirewallJobResult. destruct (_ =s "node.firewall.apply").
  { unfold applyFirewallApplyJobResult. destruct (_ =s ""); [by intros [= _ <-]|].
    destruct (mbind _ _) as [[[node policy] revision]|]; [|by intros [= _ <-]].
    destruct (_ || _); [by intros [= _ <-]|]. destruct (_ || _); by intros [= _ <-]. }
  destruct (_ =s "node.firewall.disable"); [|by intros [= _ <-]].
  unfold applyFirewallDisableJobResult. destruct (_ =s ""); [by intros [= _ <-]|].
  destruct (pg_uuid _) as [node|]; [|by intros [= _ <-]]. destruct (negb _); by intros [= _ <-].
Qed.

(** What the rest of the system does to the jobs: rows of other types come and go, and a firewall
    job keeps its type, scope and payload ([JobQueue] changes its status, lock and result). *)
Definition firewall_type (t : string) : bool :=
  one_of t ["node.firewall.preview"; "node.firewall.apply"; "node.firewall.disable"].
Definition queue_moves (js js' : list Job) : Prop :=
  ∀ j', j' ∈ js' → firewall_type (Type_ j') = true → ∃ j, j ∈ js ∧ Type_ j = Type_ j' ∧ ScopeType j = ScopeType j'
    ∧ ScopeID j = ScopeID j' ∧ Payload j = Payload j'.

Inductive catalog_step : catalog → catalog → Prop :=
| step_create_policy id input st : uuid_ok id →
    catalog_step st (CreateFirewallPolicy pg_uuid node_exists id input st).2
| step_update_policy ref input st : catalog_step st (UpdateFirewallPolicy pg_uuid node_exists ref input st).2
| step_delete_policy ref st : catalog_step st (DeleteFirewallPolicy pg_uuid ref st).2
| step_create_list id input st : uuid_ok id → catalog_step st (CreateFirewallAddressList id input st).2
| step_update_list ref input st : catalog_step st (UpdateFirewallAddressList pg_uuid ref input st).2
| step_delete_list ref st : catalog_step st (DeleteFirewallAddressList pg_uuid ref st).2
| step_create_entry id list input st : catalog_step st (CreateFirewallAddressEntry pg_uuid id list input st).2
| step_update_entry list id input st : catalog_step st (UpdateFirewallAddressEntry pg_uuid list id input st).2
| step_delete_entry list id st : catalog_step st (DeleteFirewallAddressEntry pg_uuid list id st).2
| step_create_rule id policy input st : uuid_ok id → catalog_step st (CreateFirewallRule pg_uuid id policy input st).2
| step_update_rule policy id input st : catalog_step st (UpdateFirewallRule pg_uuid policy id input st).2
| step_delete_rule policy id st : catalog_step st (DeleteFirewallRule pg_uuid policy id st).2
| step_defaults ids st : fresh 20 ids st → catalog_step st (EnsureDefaultFirewallPolicies ids json_text st)
| step_settings k ids input replace st : fresh k ids st → (settings_ids input ≤ k)%nat →
    catalog_step st (upsertFirewallManagementCIDRs ids json_text input replace st).2
| step_preview rid jid now node policy enforce st :
    catalog_step st (CreateFirewallPreviewJob pg_uuid text_before facts sprint marshal rid jid now node policy enforce st).2
| step_apply rid jid now node policy enforce st :
    catalog_step st
      (CreateFirewallApplyJob pg_uuid text_before facts sprint marshal json_text rid jid now node policy enforce st).2
| step_disable jid now node st : catalog_step st (CreateFirewallDisableJob pg_uuid facts marshal jid now node st).2
| step_result job status result st : catalog_step st (ApplyFirewallJobResult pg_uuid facts sprint job status result st).2
| step_queue js st : queue_moves (jobs st) js → catalog_step st (set_jobs js st).

Definition empty_catalog : catalog := MkCatalog [] [] [] [] [] [] [].
Definition reachable (st : catalog) : Prop := rtc catalog_step empty_catalog st.

(** The type [uuid] prints canonical text. *)
Hypothesis uuid_canonical : ∀ s u, pg_uuid s = Some u → uuid_ok u.

Lemma catalog_step_ok st st' : catalog_ok st → catalog_step st st' → catalog_ok st'.
Proof using uuid_canonical.
  intros Hok Hs. destruct Hs;
    try match goal with |- catalog_ok (snd ?op) => destruct op as [r st1] eqn:E; cbn [snd] end.
  - by eapply CreateFirewallPolicy_ok.
  - by eapply UpdateFirewallPolicy_ok.
  - by eapply DeleteFirewallPolicy_ok.
  - by eapply CreateFirewallAddressList_ok.
  - by eapply UpdateFirewallAddressList_ok.
  - by eapply DeleteFirewallAddressList_ok.
  - by eapply CreateFirewallAddressEntry_ok.
  - by eapply UpdateFirewallAddressEntry_ok.
  - by eapply DeleteFirewallAddressEntry_ok.
  - by eapply CreateFirewallRule_ok.
  - by eapply UpdateFirewallRule_ok.
  - by eapply DeleteFirewallRule_ok.
  - by apply (EnsureDefaultFirewallPolicies_ok 20).
  - by eapply upsertFirewallManagementCIDRs_ok.
  - by eapply same_tables_ok, Hok; eapply preview_tables.
  - by eapply same_tables_ok, Hok; eapply apply_tables.
  - by eapply same_tables_ok, Hok; eapply disable_tables.
  - by eapply same_tables_ok, Hok; eapply result_tables.
  - by eapply same_tables_ok, Hok.
Qed.

Lemma reachable_catalog_ok st : reachable st → catalog_ok st.
Proof using uuid_canonical.
  unfold reachable. intros H.
  assert (∀ a, catalog_ok a → rtc catalog_step a st → catalog_ok st) as Hr.
  { clear H. intros a Ha H. induction H as [|a b c Hab _ IH]; [done|]. by apply IH, catalog_step_ok with a. }
  apply (Hr empty_catalog); [|done]. constructor; try constructor. by intros a b ?%elem_of_nil.
Qed.

(** C16: In every state of the catalogue that its operations reach, in any order
    and with any input, the identifiers and keys of lists and policies are unique,
    no two live entries of a list have the same value, every entry and rule belongs
    to a row that exists, and every row is in the normal form of its column. *)
Theorem reachable_catalogue_ok st : reachable st → catalog_ok st.
Proof using uuid_canonical. apply reachable_catalog_ok. Qed.
End reachable.
