(* ===== verification/FirewallReads.v ===== *)
(** * The agent's sets are the catalogue's lists

    The address lists of a firewall job as [firewallAddressListsPayload] writes
    them and [parseNodeFirewallAddressLists] reads them: for every active list
    of the catalogue, the agent has a set with exactly the values of its active
    entries that are no names. *)
From stdpp Require Import gmap.
From S2P Require Import Prelude GoStrings Strconv GoValue Netip Firewall FirewallText FirewallFields FirewallProps JsonImage FirewallCatalog FirewallTables FirewallSeeds FirewallJobs FirewallFlow FirewallStoreProps.
From Stdlib Require Import Ascii.
From stdpp Require Import options.
Open Scope Z_scope.

Section reads.
Context (sprint : any → string) (other : any → any).

(** ** Entries *)

Lemma stored_value_plain value ty : pg_text value = true → stored_value value ty → plain value.
Proof.
  intros Hp Hs. split; [by apply pg_text_json|]. destruct Hs as [p Hok _|a Ha Hz|a b Ha Hb Hza Hzb|s _ Ht]; [..|done].
  - by apply trim_space_no_space, prefix_no_space.
  - by apply trim_addr.
  - by apply trim_space_no_space, range_no_space.
Qed.

Lemma status_read (m : gomap) status :
  m !! "status" = Some (AString status) → one_of status ["active"; "disabled"; "deleted"] = true →
  to_lower (first [stringify sprint (json_map other m !! "status"); "active"]) = status.
Proof.
  intros Hm Hs. destruct (lit_trim_lower _ _ Hs eq_refl) as (Ht & Hl & Hj).
  rewrite (read_text sprint other m "status" status Hm) by done.
  rewrite first_self; [done|done|by eapply lit_nonempty].
Qed.

(** The entries that are rendered. *)
Definition rendered (e : FirewallAddressEntry) : bool := active_status (fe_Status e) && negb (fe_ValueType e =s "dns").

(** The values of a list so far. *)
Definition values (alist : nodeFirewallAddressList) : list string := list_V4 alist ++ list_V6 alist.

Lemma add_element_values alist e :
  elt_Family e = "ip" ∨ elt_Family e = "ip6" → values (add_element alist e) ≡ₚ values alist ++ [elt_Value e].
Proof.
  intros [E|E]; unfold values, add_element; rewrite E; simpl.
  - rewrite <-app_assoc. rewrite (Permutation_app_comm [elt_Value e]). by rewrite app_assoc.
  - by rewrite app_assoc.
Qed.

Definition same_list (a b : nodeFirewallAddressList) : Prop :=
  list_ID a = list_ID b ∧ list_Key a = list_Key b ∧ NameV4 a = NameV4 b ∧ NameV6 a = NameV6 b.

Lemma parse_entries_values label es : ∀ n alist w alist' w',
  Forall (λ e, entry_ok e ∧ zone_free (fe_Value e) = true) es →
  parse_entries sprint label n alist w ((λ e, AMap (json_map other (entry_payload e))) <$> es) = Ok (alist', w') →
  same_list alist' alist ∧ values alist' ≡ₚ values alist ++ (fe_Value <$> List.filter rendered es).
Proof.
  induction es as [|e es IH]; intros n alist w alist' w' Hes H; cbn [fmap list_fmap parse_entries] in H.
  { injection H as <- _. by rewrite app_nil_r. }
  apply Forall_cons in Hes as [[He Hz] Hes]. pose proof (stored_entry_reading e He Hz) as Hr.
  destruct He as [Hc (v & t & Hn)]. pose proof (normal_value _ _ _ _ Hn Hz) as Hsv.
  unfold entry_checks in Hc. split_bools.
  match goal with H : pg_text (fe_Value e) = true |- _ => pose proof (stored_value_plain _ _ H Hsv) as Hpl end.
  match goal with H : one_of (fe_ValueType e) _ = true |- _ => destruct (lit_trim_lower _ _ H eq_refl) as (Tt & _ & Tj) end.
  rewrite (status_read (entry_payload e) (fe_Status e)) in H by done.
  rewrite (read_text sprint other (entry_payload e) "value" (fe_Value e)) in H by done.
  rewrite (read_text sprint other (entry_payload e) "value_type" (fe_ValueType e)) in H by done.
  cbn [List.filter]. unfold rendered at 1, active_status.
  destruct (fe_Status e =s "active"); cbn [negb andb] in H |- *; [|by eapply IH].
  destruct (normalizeNodeFirewallAddressListEntry _ _) as [[[x|] warning]|]; [..|done];
    cbn [map_err mbind result_bind] in H.
  - destruct Hr as (Ev & Hel & -> & Hd%String.eqb_neq). rewrite Hd. cbn [negb].
    apply IH in H as [Hs Hp]; [|done]. split; [exact Hs|]. rewrite Hp.
    rewrite add_element_values by (by apply element_family). rewrite Ev, <-app_assoc. done.
  - destruct Hr as [-> ->]. change (ignored_dns_warning =s "") with false in H.
    change ("dns" =s "dns") with true. cbn [negb orb] in H |- *. by apply IH in H.
Qed.

(** ** Lists *)

Definition list_entries (es : list FirewallAddressEntry) (l : FirewallAddressList) : list FirewallAddressEntry :=
  List.filter (λ e, fe_ListID e =s fl_ID l) es.

(** What the agent has of a list of the catalogue. *)
Definition reads_list (es : list FirewallAddressEntry) (l : FirewallAddressList) (alist : nodeFirewallAddressList) : Prop :=
  list_ID alist = fl_ID l ∧ list_Key alist = fl_Key l
  ∧ NameV4 alist = nodeFirewallSetName (fl_Key l) +:+ "_v4" ∧ NameV6 alist = nodeFirewallSetName (fl_Key l) +:+ "_v6"
  ∧ values alist ≡ₚ fe_Value <$> List.filter rendered (list_entries es l).

Lemma key_plain key : all_bytes key_byte key → plain key.
Proof.
  intros H. apply plain_no_space. eapply all_bytes_impl; [|exact H]. apply byte_class. by vm_compute.
Qed.

Lemma uuid_nonempty u : uuid_ok u → u ≠ "".
Proof. by intros [H _] ->. Qed.

Lemma sort_lists_values alist : values (sort_lists alist) ≡ₚ values alist.
Proof. unfold values, sort_lists, sort_strings. simpl. by rewrite !isort_perm. Qed.
(** The list fields of a payload as the agent reads them. *)
Lemma list_fields es l : list_ok l →
  to_lower (first [stringify sprint (json_map other (list_payload es l) !! "status"); "active"]) = fl_Status l
  ∧ stringify sprint (json_map other (list_payload es l) !! "id") = fl_ID l
  ∧ stringify sprint (json_map other (list_payload es l) !! "key") = fl_Key l
  ∧ json_map other (list_payload es l) !! "entries"
    = Some (ASlice ((λ e, AMap (json_map other (entry_payload e))) <$> list_entries es l)).
Proof.
  intros [Hc [Hu Hi] [_ Hk]]. unfold list_checks in Hc. split_bools. split_and!.
  - by apply status_read.
  - apply read_text; [done|by apply key_plain].
  - apply read_text; [done|by apply key_plain].
  - unfold json_map at 1. rewrite lookup_fmap. change (list_payload es l !! "entries") with
      (Some (ASlice ((λ e, AMap (entry_payload e)) <$> list_entries es l))).
    cbn [fmap option_fmap option_map json_image]. by rewrite <-list_fmap_compose.
Qed.

Definition refs_of (ls : list FirewallAddressList) : list string := (fl_ID <$> ls) ++ (fl_Key <$> ls).

Lemma refs_cons l ls : NoDup (refs_of (l :: ls)) → NoDup (refs_of ls) ∧ fl_ID l ∉ refs_of ls ∧ fl_Key l ∉ refs_of ls.
Proof.
  unfold refs_of. rewrite !fmap_cons, <-app_comm_cons, NoDup_cons.
  rewrite <-Permutation_middle, NoDup_cons, not_elem_of_app, not_elem_of_cons, not_elem_of_app. tauto.
Qed.

(** The agent's lists agree with the active ones of [ls], and keep every other reference of [before]. *)
Definition reads_lists (es : list FirewallAddressEntry) (ls : list FirewallAddressList)
    (before after : nodeFirewallAddressLists) : Prop :=
  (∀ ref, (∀ l, l ∈ ls → active_status (fl_Status l) = true → ref ≠ fl_ID l ∧ ref ≠ fl_Key l) →
     ByRef after !! ref = ByRef before !! ref)
  ∧ ∀ l, l ∈ ls → active_status (fl_Status l) = true →
     ∃ alist, ByRef after !! fl_ID l = Some alist ∧ ByRef after !! fl_Key l = Some alist ∧ reads_list es l alist.

Lemma parse_lists_reads es ls : ∀ n out w out' w',
  Forall list_ok ls → Forall (λ e, entry_ok e ∧ zone_free (fe_Value e) = true) es → NoDup (refs_of ls) →
  parse_lists sprint n out w ((λ l, AMap (json_map other (list_payload es l))) <$> ls) = Ok (out', w') →
  reads_lists es ls out out'.
Proof.
  induction ls as [|l ls IH]; intros n out w out' w' Hls Hes Hnd H.
  { injection H as <- _. split; [done|]. by intros l ?%elem_of_nil. }
  apply Forall_cons in Hls as [Hl Hls]. destruct (list_fields es l Hl) as (Fs & Fi & Fk & Fe).
  assert (NoDup (refs_of ls) ∧ fl_ID l ∉ refs_of ls ∧ fl_Key l ∉ refs_of ls) as (Hnd' & Hni & Hnk).
  { by apply refs_cons. }
  assert (∀ m, m ∈ ls → m ≠ l) as Hml.
  { intros m Hm ->. apply Hni. unfold refs_of. apply elem_of_app. left. by apply list_elem_of_fmap_2. }
  cbn [fmap list_fmap parse_lists] in H. rewrite Fs, Fi, Fk, Fe in H.
  destruct (fl_Status l =s "active") eqn:Ea; cbn [negb] in H.
  2:{ apply IH in H as [Hk Hr]; [|done..]. split.
      - intros ref Hx. apply Hk. intros m Hm. apply Hx. by right.
      - intros m [-> |Hm]%elem_of_cons Hma; [|by apply Hr]. unfold active_status in Hma. congruence. }
  destruct (lo_key _ Hl) as [Hne Hkb]. destruct (key_plain _ Hkb) as [_ Tk]. destruct (lo_id _ Hl) as [Hu Hui].
  destruct (key_plain _ Hui) as [_ Ti]. rewrite Tk, Ti in H.
  assert (fl_ID l =s "" = false) as Ei by (apply String.eqb_neq; intros E; rewrite E in Hu; done).
  pose proof (proj2 (String.eqb_neq _ _) Hne) as Ek.
  rewrite Ei, Ek in H. cbn [andb] in H.
  apply bind_ok_inv in H as ([alist w1] & Hp & H).
  assert (first [fl_Key l; fl_ID l] = fl_Key l) as Ef by (by apply first_self).
  rewrite Ef in Hp. apply parse_entries_values in Hp as [(Sid & Skey & Sn4 & Sn6) Hv];
    [|unfold list_entries; apply Forall_forall; intros e [He _]%list_elem_of_In%filter_In;
      rewrite Forall_forall in Hes; by apply Hes, list_elem_of_In].
  apply IH in H as [Hk Hr]; [|done..]. cbn [ByRef] in Hk, Hr. split.
  - intros ref Hx. rewrite Hk by (intros m Hm; apply Hx; by right).
    destruct (Hx l) as [H1 H2]; [by left|done|]. by rewrite !lookup_insert_ne by congruence.
  - intros m [-> |Hm]%elem_of_cons Hma; [|by apply Hr].
    assert (∀ ref, ref ∉ refs_of ls →
      ByRef out' !! ref = <[fl_Key l:=sort_lists alist]> (<[fl_ID l:=sort_lists alist]> (ByRef out)) !! ref) as Hk'.
    { intros ref Hx. apply Hk. intros m Hm _. unfold refs_of in Hx. rewrite elem_of_app in Hx. split; intros ->; apply Hx;
        [left|right]; by apply list_elem_of_fmap_2. }
    exists (sort_lists alist). split_and!.
    + rewrite Hk' by done. destruct (decide (fl_ID l = fl_Key l)) as [-> |]; [by rewrite lookup_insert_eq|].
      by rewrite lookup_insert_ne, lookup_insert_eq by done.
    + rewrite Hk' by done. by rewrite lookup_insert_eq.
    + split_and!; [done..|]. by rewrite sort_lists_values, Hv.
Qed.

(** ** The lists of a payload *)

Context (text_before : string → string → bool).
Context (st : catalog) (Hok : catalog_ok st).
(** No key of a list is the identifier of a list: the agent has one name space for both. *)
Hypothesis keys_apart : NoDup (refs_of (lists st)).
Hypothesis entries_zone_free : Forall (λ e, zone_free (fe_Value e) = true) (entries st).

(** The values of the active entries of a list that are no names. *)
Definition list_values (l : FirewallAddressList) : list string :=
  fe_Value <$> List.filter rendered (list_entries (entries st) l).

Lemma filter_perm {A} (p : A → bool) l l' : l ≡ₚ l' → List.filter p l ≡ₚ List.filter p l'.
Proof.
  induction 1 as [|x l l' _ IH|x y l|l l' l'' _ IH1 _ IH2]; simpl; [done|..|by rewrite IH1].
  - by destruct (p x); rewrite ?IH.
  - destruct (p x), (p y); done || apply Permutation_swap.
Qed.

Lemma filter_through {A} (p q r : A → bool) l : (∀ x, x ∈ l → p x = true → q x = true → r x = true) →
  List.filter p (List.filter q (List.filter r l)) = List.filter p (List.filter q l).
Proof.
  intros H. induction l as [|x l IH]; [done|].
  assert (List.filter p (List.filter q (List.filter r l)) = List.filter p (List.filter q l)) as IH'.
  { apply IH. intros y Hy. apply H. by right. }
  simpl. destruct (r x) eqn:Er; simpl; destruct (q x) eqn:Eq; simpl; rewrite ?IH'; [done..| |done].
  destruct (p x) eqn:Ep; [|done]. rewrite (H x) in Er; [done|by left|done..].
Qed.

(** The query for the entries of the lists that are not deleted finds every one that is rendered. *)
Lemma listed_values l : l ∈ lists st → active_status (fl_Status l) = true →
  fe_Value <$> List.filter rendered (list_entries (listFirewallAddressEntries text_before st) l) ≡ₚ list_values l.
Proof using Type.
  intros Hl Ha. unfold list_values, list_entries, listFirewallAddressEntries.
  apply fmap_Permutation. rewrite (filter_perm rendered); [|apply filter_perm, isort_perm].
  rewrite filter_through; [done|]. intros e _ Hr El%String.eqb_eq. unfold rendered in Hr.
  apply andb_true_iff in Hr as [Hr%String.eqb_eq _].
  unfold live_status at 1. rewrite Hr. cbn [negb andb]. unfold in_live_list. apply existsb_elem. exists l.
  rewrite El, String.eqb_refl. split; [done|]. apply String.eqb_eq in Ha. unfold live_status. by rewrite Ha.
Qed.

Lemma listed_lists_perm : listFirewallAddressLists text_before st ≡ₚ List.filter (λ l, live_status (fl_Status l)) (lists st).
Proof using Type. unfold listFirewallAddressLists. apply isort_perm. Qed.

Lemma column_inj {A} (col : A → string) (rows : list A) x y :
  NoDup (col <$> rows) → x ∈ rows → y ∈ rows → col x = col y → x = y.
Proof.
  intros Hn Hx Hy E. induction rows as [|r rows IH]; [by apply elem_of_nil in Hx|].
  cbn [fmap list_fmap] in Hn. apply NoDup_cons in Hn as [Hr Hn].
  apply elem_of_cons in Hx as [-> |Hx]; apply elem_of_cons in Hy as [-> |Hy]; [done| | |auto];
    exfalso; apply Hr; [rewrite E|rewrite <-E]; by apply list_elem_of_fmap_2.
Qed.

Lemma refs_filter p ls : NoDup (refs_of ls) → NoDup (refs_of (List.filter p ls)).
Proof.
  assert (∀ x, x ∈ refs_of (List.filter p ls) → x ∈ refs_of ls) as Hin.
  { intros x. unfold refs_of. rewrite !elem_of_app. intros [(l & -> & Hl)%list_elem_of_fmap|(l & -> & Hl)%list_elem_of_fmap];
      [left|right]; apply list_elem_of_fmap_2; apply list_elem_of_In, filter_In in Hl as [Hl _]; by apply list_elem_of_In. }
  revert Hin. unfold refs_of. rewrite !NoDup_app. intros _ (Hi & Hd & Hk).
  assert (∀ col : FirewallAddressList → string, NoDup (col <$> ls) → NoDup (col <$> List.filter p ls)) as Hf.
  { intros col. clear. induction ls as [|l ls IH]; [done|]. simpl. intros [Hx H]%NoDup_cons.
    destruct (p l); [|auto]. simpl. apply NoDup_cons. split; [|auto].
    intros (m & E & Hm%list_elem_of_In)%list_elem_of_fmap. apply filter_In in Hm as [Hm%list_elem_of_In _].
    apply Hx. rewrite E. by apply list_elem_of_fmap_2. }
  split_and!; [auto| |auto]. intros x (l & -> & Hl%list_elem_of_In)%list_elem_of_fmap (m & E & Hm%list_elem_of_In)%list_elem_of_fmap.
  apply filter_In in Hl as [Hl%list_elem_of_In _]. apply filter_In in Hm as [Hm%list_elem_of_In _].
  apply (Hd (fl_ID l)); [by apply list_elem_of_fmap_2|]. rewrite E. by apply list_elem_of_fmap_2.
Qed.

(** What the agent has for a reference: the set of the active list with that
    identifier or key, and nothing else. *)
Lemma stored_lists_reading out w :
  parseNodeFirewallAddressLists sprint (json_map other (list_to_map [("address_lists",
    ASlice (firewallAddressListsPayload text_before st))]) !! "address_lists") = Ok (out, w) →
  ∀ ref,
    match List.find (λ l, active_status (fl_Status l) && ((fl_ID l =s ref) || (fl_Key l =s ref))) (lists st) with
    | Some l => ∃ alist, ByRef out !! ref = Some alist ∧ alist ∈ Ordered out ∧ list_ID alist = fl_ID l ∧ list_Key alist = fl_Key l
        ∧ NameV4 alist = nodeFirewallSetName (fl_Key l) +:+ "_v4" ∧ NameV6 alist = nodeFirewallSetName (fl_Key l) +:+ "_v6"
        ∧ values alist ≡ₚ list_values l
    | None => ByRef out !! ref = None
    end.
Proof using Hok keys_apart entries_zone_free.
  intros H ref.
  assert (json_map other (list_to_map [("address_lists", ASlice (firewallAddressListsPayload text_before st))])
    !! "address_lists" = Some (ASlice ((λ l, AMap (json_map other
      (list_payload (listFirewallAddressEntries text_before st) l))) <$> listFirewallAddressLists text_before st))) as E.
  { unfold json_map at 1. rewrite lookup_fmap. cbn [list_to_map foldr fst snd uncurry]. rewrite lookup_insert_eq.
    cbn [fmap option_fmap option_map json_image]. unfold firewallAddressListsPayload. by rewrite <-list_fmap_compose. }
  rewrite E in H. cbn [parseNodeFirewallAddressLists] in H. clear E.
  assert (∀ l, l ∈ listFirewallAddressLists text_before st ↔ l ∈ lists st ∧ live_status (fl_Status l) = true) as Hin.
  { intros l. rewrite listed_lists_perm. rewrite list_elem_of_In, filter_In, <-list_elem_of_In. done. }
  assert (∀ ref l, ByRef out !! ref = Some l → l ∈ Ordered out) as Hord.
  { eapply (parse_lists_refs sprint 1 {| ByRef := ∅; Ordered := [] |}); [|exact H]. intros r l. cbn [ByRef]. by rewrite lookup_empty. }
  apply parse_lists_reads in H as [Hk Hr].
  - destruct (List.find _ _) as [l|] eqn:Ef.
    + apply elem_of_find in Ef as [Hl [Ha Href]%andb_true_iff].
      destruct (Hr l) as (alist & H1 & H2 & H3 & H4 & H5 & H6 & H7); [apply Hin; split; [done|]|done|].
      { apply String.eqb_eq in Ha. unfold live_status. by rewrite Ha. }
      exists alist. assert (ByRef out !! ref = Some alist) as Eref
        by (by apply orb_true_iff in Href as [<-%String.eqb_eq|<-%String.eqb_eq]).
      split_and!; [done|by eapply Hord|done..|by rewrite H7, listed_values].
    + rewrite Hk; [apply lookup_empty|]. intros l [Hl _]%Hin Ha.
      pose proof (List.find_none _ _ Ef l) as Hn. rewrite <-list_elem_of_In in Hn. specialize (Hn Hl). simpl in Hn.
      rewrite Ha in Hn. apply orb_false_iff in Hn as [?%String.eqb_neq ?%String.eqb_neq]. by split; congruence.
  - apply Forall_forall. intros l [Hl _]%Hin. pose proof (co_lists _ Hok) as Hc. rewrite Forall_forall in Hc. auto.
  - unfold listFirewallAddressEntries. rewrite isort_perm. apply Forall_forall.
    intros e [He _]%list_elem_of_In%filter_In. apply list_elem_of_In in He.
    pose proof (co_entries _ Hok) as Hc. rewrite Forall_forall in Hc. rewrite Forall_forall in entries_zone_free.
    split; [by apply Hc|by apply entries_zone_free].
  - unfold refs_of. rewrite listed_lists_perm. by apply refs_filter.
Qed.

(** ** The rules of a payload *)

Lemma listed_key id : key_ok (list_key st id) ∨ list_key st id = "".
Proof using Hok.
  unfold list_key. destruct id as [id|]; [|by right]. destruct (List.find _ _) as [l|] eqn:E; [|by right].
  apply elem_of_find in E as [Hl _]. left. pose proof (co_lists _ Hok) as H. rewrite Forall_forall in H. by apply H.
Qed.

Lemma plain_empty : plain "".
Proof. done. Qed.

Lemma list_column_plain id : (∀ i, id = Some i → i ∈ fl_ID <$> lists st) → plain (text_column id).
Proof using Hok.
  intros H. destruct id as [i|]; [|apply plain_empty]. destruct (list_elem_of_fmap_1 _ _ _ (H i eq_refl)) as (l & -> & Hl).
  pose proof (co_lists _ Hok) as Hc. rewrite Forall_forall in Hc. destruct (Hc l Hl) as [_ [_ Hi] _]. by apply key_plain.
Qed.

(** A row as the queries read it is accepted by the agent. *)
Lemma read_rule_accepted r idx : r ∈ rules st → zone_free (fr_SrcCIDR r) = true → zone_free (fr_DstCIDR r) = true →
  parseNodeFirewallRule sprint (json_map other (rule_payload (read_rule st r))) idx = Ok (agent_rule (read_rule st r)).
Proof using Hok.
  intros Hr Hs Hd. pose proof (co_rules _ Hok) as Hc. rewrite Forall_forall in Hc.
  destruct (Hc r Hr) as (Hro & [Hu Hid] & _ & Hl).
  assert (rule_ok (read_rule st r)) as Hro' by (by destruct Hro; constructor).
  assert (∀ id, plain (list_key st id)) as Hk.
  { intros id. destruct (listed_key id) as [[_ H]| ->]; [by apply key_plain|apply plain_empty]. }
  apply stored_rule_accepted; try done.
  - by apply key_plain.
  - by apply uuid_nonempty.
  - apply list_column_plain. auto.
  - apply Hk.
  - apply list_column_plain. auto.
  - apply Hk.
Qed.

Lemma parse_rules_stored rs : ∀ idx,
  Forall (λ r, r ∈ rules st ∧ zone_free (fr_SrcCIDR r) = true ∧ zone_free (fr_DstCIDR r) = true) rs →
  parse_rules sprint idx ((λ r, AMap (json_map other (rule_payload (read_rule st r)))) <$> rs)
  = Ok ((λ r, agent_rule (read_rule st r)) <$> rs).
Proof using Hok.
  induction rs as [|r rs IH]; intros idx H; [done|]. apply Forall_cons in H as [(Hr & Hs & Hd) H].
  rewrite fmap_cons. cbn [parse_rules]. rewrite read_rule_accepted by done. cbn [mbind result_bind].
  by rewrite IH.
Qed.
End reads.
