(* ===== verification/FirewallStrict.v ===== *)
(** * Strict firewall jobs: what the control plane checked is what the agent does

    The payload of a firewall job from the catalogue to the plan of the agent:
    what [Normalize] stores of it, the hash it carries of its own content, and
    the two gates in front of a strict apply, the management sources and the
    matching preview. *)
From stdpp Require Import gmap.
From S2P Require Import Prelude GoStrings Strconv GoValue Sha256 Netip JobSchema JobSchemaSpec JobSchemaRefine JobSchemaProps Firewall FirewallText FirewallFields FirewallProps JsonImage FirewallCatalog FirewallTables FirewallSeeds Jobs FirewallJobs FirewallFlow FirewallStoreProps FirewallReads.
From Stdlib Require Import Ascii.
From stdpp Require Import options.
Open Scope Z_scope.

(** ** The stored payload *)

(** What the schema of a firewall job leaves of values already in their normal form. *)
Section normal_fields.
Context (p n : gomap) (Hr : run schema_firewall p = Ok n) (Hd : NoDup (keys_of schema_firewall)).

Lemma kept_text k v : Field k (trim_act k) ∈ schema_firewall →
  p !! k = Some (AString v) → trim_space v = v → n !! k = Some (AString v).
Proof using Hr Hd.
  intros Hin Hp Ht. destruct (run_field _ _ _ _ _ Hr Hd Hin) as (a & Ha & Hn). unfold trim_act in Ha.
  rewrite (optionalString_put _ _ _ Hp), Ht in Ha. injection Ha as <-.
  destruct (String.eqb_spec v "") as [->|]; cbn [act_val] in Hn; congruence.
Qed.

Lemma kept_policy k v : policy_field k ∈ schema_firewall →
  p !! k = Some (AString v) → one_of v ["accept"; "drop"; "reject"] = true → n !! k = Some (AString v).
Proof using Hr Hd.
  intros Hin Hp Hv. destruct (run_field _ _ _ _ _ Hr Hd Hin) as (a & Ha & Hn). unfold def_string in Ha.
  destruct (lit_trim_lower _ _ Hv eq_refl) as (Ht & Hl & _).
  rewrite (optionalString_put _ _ _ Hp), Ht in Ha. cbn [mbind result_bind] in Ha.
  unfold firewall_policy in Ha. rewrite Hl in Ha.
  rewrite (proj2 (String.eqb_neq v "")) in Ha by by eapply lit_nonempty.
  apply bind_ok_inv in Ha as ([] & _ & [= <-]). done.
Qed.

Lemma kept_bool k b : def_bool k ∈ schema_firewall → p !! k = Some (ABool b) → n !! k = Some (ABool b).
Proof using Hr Hd.
  intros Hin Hp. destruct (run_field _ _ _ _ _ Hr Hd Hin) as (a & Ha & Hn).
  unfold optionalBool in Ha. rewrite Hp in Ha. cbn in Ha. by injection Ha as <-.
Qed.

Lemma kept_array k l : array k ∈ schema_firewall → p !! k = Some (ASlice l) → n !! k = Some (ASlice l).
Proof using Hr Hd.
  intros Hin Hp. destruct (run_field _ _ _ _ _ Hr Hd Hin) as (a & Ha & Hn).
  unfold array_act in Ha. rewrite Hp in Ha. by injection Ha as <-.
Qed.

Lemma port_items_ints k l v : JobSchema.port_items k (AInt <$> l) = Ok v → v = l ∧ Forall port_ok l.
Proof.
  intros H. pose proof (JobSchemaProps.port_items_ok _ _ _ H) as Hv. revert v H Hv.
  induction l as [|z l IH]; intros v H Hv; cbn [fmap list_fmap JobSchema.port_items] in H; [by injection H as <-|].
  apply bind_ok_inv in H as (y & Hy & H). apply bind_ok_inv in H as (out & Ho & [= <-]).
  apply Forall_cons in Hv as [Hy' Hv]. unfold JobSchema.port_item in Hy. cbn [mbind result_bind] in Hy.
  destruct (_ || _); [done|]. injection Hy as ->. destruct (IH _ Ho Hv) as [-> ?]. by split; [|constructor].
Qed.

Lemma kept_ports k l : opt_ints k ∈ schema_firewall → p !! k = Some (AInts l) →
  n !! k = Some (AInts l) ∧ Forall port_ok l.
Proof using Hr Hd.
  intros Hin Hp. destruct (run_field _ _ _ _ _ Hr Hd Hin) as (a & Ha & Hn).
  unfold optionalIntSlice in Ha. rewrite Hp in Ha.
  destruct (JobSchema.port_items k (AInt <$> l)) as [v|] eqn:E; [|done]. apply port_items_ints in E as [-> Hl].
  cbn in Ha. by injection Ha as <-.
Qed.
End normal_fields.

(** The fields a stored firewall job has from the catalogue. *)
Record stored_payload (policy : FirewallPolicy) (hash mode : string) (enforce : bool) (rules lists : list any)
    (ports : list Z) (n : gomap) : Prop := {
  sp_policy_id : n !! "policy_id" = Some (AString (fp_ID policy));
  sp_policy_key : n !! "policy_key" = Some (AString (fp_Key policy));
  sp_input : n !! "default_input_policy" = Some (AString (fp_DefaultInputPolicy policy));
  sp_forward : n !! "default_forward_policy" = Some (AString (fp_DefaultForwardPolicy policy));
  sp_output : n !! "default_output_policy" = Some (AString (fp_DefaultOutputPolicy policy));
  sp_enforce : n !! "enforce_default_policy" = Some (ABool enforce);
  sp_rules : n !! "rules" = Some (ASlice rules);
  sp_lists : n !! "address_lists" = Some (ASlice lists);
  sp_ports : n !! "ssh_bootstrap_ports" = Some (AInts ports) ∧ Forall port_ok ports;
  sp_hash : n !! "firewall_payload_hash" = Some (AString hash);
  sp_mode : n !! "safety_mode" = Some (AString mode) }.

Lemma sha256_hex_trim s : trim_space (sha256_hex s) = sha256_hex s.
Proof.
  apply trim_space_no_space. eapply all_bytes_impl; [|apply sha256_hex_hex].
  apply byte_class. by vm_compute.
Qed.

Lemma id_trim u : uuid_ok u → trim_space u = u.
Proof. intros [_ H]. by destruct (key_plain u H). Qed.

Section jobs.
Context (pg_uuid : string → option string) (node_exists : string → bool) (text_before : string → string → bool).
Context (facts : node_facts) (sprint : any → string) (marshal : gomap → option string) (json_text : any → string).

Notation build := (buildFirewallJobPayload pg_uuid text_before facts sprint marshal).
Notation stable_hash := (firewallStablePayloadHash sprint marshal).

Lemma build_inv rid node pol enforce st built : build rid node pol enforce st = Ok built →
  ∃ rules forward,
    let base := base_payload facts (trim_space node) (bp_policy built) rid (bp_revisionNo built) enforce
                  (firewallRulesPayload rules) (firewallAddressListsPayload text_before st) forward in
    bp_policy built ∈ policies st ∧ bp_rulePayload built = firewallRulesPayload rules
    ∧ bp_rules built = isort payload_less rules
    ∧ bp_payloadHash built = stable_hash base
    ∧ bp_payload built = <["safety_mode" := AString (firewallSafetyMode enforce)]>
        (<["firewall_payload_hash" := AString (stable_hash base)]> (<["firewall_payload_version" := AInt 1]> base)).
Proof.
  unfold buildFirewallJobPayload. destruct (_ =s ""); [done|]. intros H.
  apply bind_ok_inv in H as (policyID & _ & H). apply bind_ok_inv in H as (policy & Hp%map_err_ok & H).
  apply bind_ok_inv in H as (rules & _ & H). apply bind_ok_inv in H as (forward & _ & [= <-]).
  exists rules, forward. split_and!; try done. by eapply getFirewallPolicy_in.
Qed.

(** The canonical form of a stored payload. *)
Definition canonical_of (policy : FirewallPolicy) (enforce : bool) (rules lists : list any) : gomap := list_to_map [
  ("policy_id", AString (fp_ID policy)); ("policy_key", AString (fp_Key policy));
  ("default_input_policy", AString (fp_DefaultInputPolicy policy));
  ("default_forward_policy", AString (fp_DefaultForwardPolicy policy));
  ("default_output_policy", AString (fp_DefaultOutputPolicy policy));
  ("enforce_default_policy", ABool enforce); ("rules", ASlice rules); ("address_lists", ASlice lists)].

Lemma policy_texts p : policy_ok p →
  trim_space (fp_ID p) = fp_ID p ∧ trim_space (fp_Key p) = fp_Key p
  ∧ Forall (λ v, one_of v ["accept"; "drop"; "reject"] = true)
      [fp_DefaultInputPolicy p; fp_DefaultForwardPolicy p; fp_DefaultOutputPolicy p].
Proof.
  intros [Hc Hi [_ Hk]]. unfold policy_checks in Hc. split_bools. split_and!.
  - by apply id_trim.
  - by destruct (key_plain _ Hk).
  - repeat constructor; done.
Qed.

Lemma canonical_fields policy enforce rules lists (m : gomap) : policy_ok policy →
  m !! "policy_id" = Some (AString (fp_ID policy)) → m !! "policy_key" = Some (AString (fp_Key policy)) →
  m !! "default_input_policy" = Some (AString (fp_DefaultInputPolicy policy)) →
  m !! "default_forward_policy" = Some (AString (fp_DefaultForwardPolicy policy)) →
  m !! "default_output_policy" = Some (AString (fp_DefaultOutputPolicy policy)) →
  m !! "enforce_default_policy" = Some (ABool enforce) →
  m !! "rules" = Some (ASlice rules) → m !! "address_lists" = Some (ASlice lists) →
  canonical_payload sprint m = canonical_of policy enforce rules lists.
Proof.
  intros Hp H1 H2 H3 H4 H5 H6 H7 H8. destruct (policy_texts _ Hp) as (Ti & Tk & Hl).
  apply Forall_cons in Hl as [Li Hl]. apply Forall_cons in Hl as [Lf Hl]. apply Forall_cons in Hl as [Lo _].
  destruct (lit_trim_lower _ _ Li eq_refl) as (Tin & _). destruct (lit_trim_lower _ _ Lf eq_refl) as (Tf & _).
  destruct (lit_trim_lower _ _ Lo eq_refl) as (To & _).
  unfold canonical_payload, canonical_of. rewrite H1, H2, H3, H4, H5, H6, H7, H8.
  unfold JobQueue.stringify. by rewrite !Ti, !Tk, !Tin, !Tf, !To.
Qed.

Definition queued_type (jobType : string) : Prop := jobType = "node.firewall.preview" ∨ jobType = "node.firewall.apply".

(** What is stored of a built payload, and that its hash is the hash of what is stored. *)
Lemma built_stored rid node pol enforce st built jobType n : catalog_ok st →
  build rid node pol enforce st = Ok built → queued_type jobType →
  Normalize jobType (Some (bp_payload built)) = Ok n →
  stored_payload (bp_policy built) (bp_payloadHash built) (firewallSafetyMode enforce) enforce (bp_rulePayload built)
    (firewallAddressListsPayload text_before st) (ssh_ports facts (trim_space node)) n
  ∧ bp_payloadHash built = stable_hash n.
Proof.
  intros Hok Hb Ht Hn. apply build_inv in Hb as (rules & forward & Hin & Er & _ & Eh & Ep).
  pose proof (co_policies _ Hok) as Hp. rewrite Forall_forall in Hp. specialize (Hp _ Hin).
  destruct (policy_texts _ Hp) as (Ti & Tk & Hl).
  apply Forall_cons in Hl as [Li Hl]. apply Forall_cons in Hl as [Lf Hl]. apply Forall_cons in Hl as [Lo _].
  assert (schema_of (trim_space jobType) = Some schema_firewall) as Hs by (by destruct Ht as [-> | ->]).
  destruct (Normalize_literal _ _ _ _ Hs Hn) as [Hr Hd]. cbn [default] in Hr. clear Hs Hn.
  set (base := base_payload _ _ _ _ _ _ _ _ _) in *.
  assert (stored_payload (bp_policy built) (bp_payloadHash built) (firewallSafetyMode enforce) enforce (bp_rulePayload built)
    (firewallAddressListsPayload text_before st) (ssh_ports facts (trim_space node)) n) as Hst.
  { rewrite Ep in Hr. rewrite Er, Eh. constructor.
    1,2,10,11: eapply kept_text; [exact Hr|exact Hd|in_schema|reflexivity|try done].
    1: apply sha256_hex_trim. 1: by destruct enforce.
    1,2,3: eapply kept_policy; [exact Hr|exact Hd|in_schema|reflexivity|done].
    - eapply kept_bool; [exact Hr|exact Hd|in_schema|reflexivity].
    - eapply kept_array; [exact Hr|exact Hd|in_schema|reflexivity].
    - eapply kept_array; [exact Hr|exact Hd|in_schema|reflexivity].
    - eapply kept_ports; [exact Hr|exact Hd|in_schema|reflexivity]. }
  split; [done|]. rewrite Eh. unfold firewallStablePayloadHash. do 2 f_equal.
  rewrite (canonical_fields (bp_policy built) enforce (bp_rulePayload built) (firewallAddressListsPayload text_before st) base);
    [|done|reflexivity..|by rewrite Er|reflexivity].
  symmetry. by destruct Hst; apply canonical_fields.
Qed.

(** ** Every firewall job carries the hash of its own content *)

Definition carries_hash (j : Job) : Prop :=
  queued_type (Type_ j) →
  ∃ n, Payload j = Some n ∧ n !! "firewall_payload_hash" = Some (AString (stable_hash n)).

Definition hashes_ok (st : catalog) : Prop := ∀ j, j ∈ jobs st → carries_hash j.

Lemma insertJobRow_jobs j st st' : insertJobRow pg_uuid facts j st = Some st' →
  ∃ row, jobs st' = jobs st ++ [row] ∧ Type_ row = Type_ j ∧ Payload row = Payload j.
Proof.
  unfold insertJobRow, job_row. intros H.
  destruct (uuid_column pg_uuid (ScopeID j)) as [scope|]; cbn [mbind option_bind] in H; [|done].
  destruct (uuid_column pg_uuid (NodeID j)) as [nd|]; cbn [mbind option_bind] in H; [|done].
  destruct (match nd with Some _ => _ | None => _ end); [|done]. cbn [mbind option_bind] in H.
  destruct (existsb _ _); [done|]. injection H as <-. by eexists.
Qed.

Lemma normal_job_payload jid now jobType node payload job b :
  normalizeJobForInsert jid now marshal (firewall_job jobType node payload) = Ok (job, b) →
  Type_ job = trim_space jobType ∧ ∃ n, Payload job = Some n ∧ Normalize (trim_space jobType) (Some payload) = Ok n.
Proof.
  unfold normalizeJobForInsert. cbn. intros H. destruct (_ =s ""); [done|]. cbn in H.
  apply bind_ok_inv in H as (n & Hn%map_err_ok & H). destruct (marshal n); [|done]. injection H as <- _.
  split; [done|]. by exists n.
Qed.

Lemma add_hashed st row : hashes_ok st → carries_hash row → ∀ j, j ∈ jobs st ++ [row] → carries_hash j.
Proof. intros Hh Hr j [Hj| ->%list_elem_of_singleton]%elem_of_app; auto. Qed.

Lemma built_hashed rid node pol enforce st built jid now jobType scope job b row : catalog_ok st →
  build rid node pol enforce st = Ok built → queued_type jobType →
  normalizeJobForInsert jid now marshal (firewall_job jobType scope (bp_payload built)) = Ok (job, b) →
  Type_ row = Type_ job → Payload row = Payload job → carries_hash row.
Proof.
  intros Hok Hb Ht (Et & n & Ep & Hn)%normal_job_payload Er Hp _.
  exists n. split; [congruence|]. assert (trim_space jobType = jobType) as E by (by destruct Ht as [-> | ->]).
  rewrite E in Hn. destruct (built_stored _ _ _ _ _ _ _ _ Hok Hb Ht Hn) as [Hs <-]. apply Hs.
Qed.

Lemma preview_hashes rid jid now node pol enforce st : catalog_ok st → hashes_ok st →
  hashes_ok (CreateFirewallPreviewJob pg_uuid text_before facts sprint marshal rid jid now node pol enforce st).2.
Proof.
  intros Hok Hh. unfold CreateFirewallPreviewJob. destruct (mbind _ _) as [[job b]|] eqn:E; [|done].
  destruct (insertJobRow _ _ _ _) as [st1|] eqn:Ei; [|done]. cbn [snd].
  apply bind_ok_inv in E as (built & Hb & E). apply bind_ok_inv in E as ([] & _ & Hn%map_err_ok).
  apply insertJobRow_jobs in Ei as (row & Ej & Et & Ep). intros j Hj. rewrite Ej in Hj.
  eapply add_hashed; [exact Hh| |exact Hj]. by eapply built_hashed; [exact Hok|exact Hb|left|exact Hn|..].
Qed.

Lemma apply_inv rid jid now node pol enforce st job st' :
  CreateFirewallApplyJob pg_uuid text_before facts sprint marshal json_text rid jid now node pol enforce st = (Ok job, st') →
  ∃ built b row,
    build rid (trim_space node) pol enforce st = Ok built
    ∧ validateFirewallStrictJobSafety pg_uuid facts (trim_space node) built st = Ok tt
    ∧ (enforce = true → requireMatchingFirewallPreview pg_uuid json_text (trim_space node) built st = Ok tt)
    ∧ normalizeJobForInsert jid now marshal (firewall_job "node.firewall.apply" (trim_space node) (bp_payload built)) = Ok (job, b)
    ∧ jobs st' = jobs st ++ [row] ∧ Type_ row = Type_ job ∧ Payload row = Payload job.
Proof.
  unfold CreateFirewallApplyJob. intros H. destruct (mbind _ _) as [[built [job' b]]|] eqn:E; [|done].
  apply bind_ok_inv in E as (built' & Hb & E). apply bind_ok_inv in E as ([] & Hv & E).
  apply bind_ok_inv in E as ([] & Hm & E). apply bind_ok_inv in E as (j' & Hn%map_err_ok & E). injection E as -> ->.
  destruct (insert_revision _ _) as [st1|] eqn:Er; [|done]. cbn [mbind option_bind] in H.
  destruct (insertJobRow _ _ _ _) as [st2|] eqn:Ei; [|done]. cbn [mbind option_bind] in H.
  destruct (pg_uuid _) as [nd|]; [|done]. injection H as <- <-.
  apply insertJobRow_jobs in Ei as (row & Ej & Et & Ep).
  exists built, b, row. repeat (split; [first [eassumption|by intros ->]|]). split; [|by split].
  unfold insert_revision in Er. destruct (existsb _ _); [done|]. injection Er as <-. exact Ej.
Qed.

Lemma apply_hashes rid jid now node pol enforce st : catalog_ok st → hashes_ok st →
  hashes_ok (CreateFirewallApplyJob pg_uuid text_before facts sprint marshal json_text rid jid now node pol enforce st).2.
Proof.
  intros Hok Hh. destruct (CreateFirewallApplyJob _ _ _ _ _ _ _ _ _ _ _ _ _) as [[job|e] st'] eqn:E; cbn [snd].
  - apply apply_inv in E as (built & b & row & Hb & _ & _ & Hn & Ej & Et & Ep). intros j Hj. rewrite Ej in Hj.
    eapply add_hashed; [exact Hh| |exact Hj]. by eapply built_hashed; [exact Hok|exact Hb|right|exact Hn|..].
  - unfold CreateFirewallApplyJob in E. destruct (mbind _ _) as [[built [job b]]|]; [|by injection E as _ <-].
    destruct (insert_revision _ _) as [st1|]; cbn [mbind option_bind] in E; [|by injection E as _ <-].
    destruct (insertJobRow _ _ _ _) as [st2|]; cbn [mbind option_bind] in E; [|by injection E as _ <-].
    destruct (pg_uuid _); [done|by injection E as _ <-].
Qed.

Lemma disable_hashes jid now node st : hashes_ok st →
  hashes_ok (CreateFirewallDisableJob pg_uuid facts marshal jid now node st).2.
Proof.
  intros Hh. unfold CreateFirewallDisableJob. destruct (_ =s ""); [done|]. destruct (negb _); [done|].
  destruct (map_err _ _) as [[job b]|] eqn:En; [|done]. apply map_err_ok in En.
  destruct (insertJobRow _ _ _ _) as [st2|] eqn:Ei; [|done]. cbn [mbind option_bind].
  destruct (pg_uuid _) as [nd|]; [|done]. cbn [snd].
  apply insertJobRow_jobs in Ei as (row & Ej & Et & _). apply normal_job_payload in En as [En _].
  intros j Hj. unfold upsert_state in Hj. cbn [jobs] in Hj. rewrite Ej in Hj.
  eapply add_hashed; [exact Hh| |exact Hj]. intros [Hq|Hq]; rewrite Et, En in Hq; done.
Qed.

(** The operations on the tables leave the jobs alone. *)
Ltac same_jobs := repeat match goal with
  | |- context [match ?x with _ => _ end] => destruct x
  end; reflexivity.

Lemma write_groups_jobs ids replace groups : ∀ n st st', write_groups ids replace n groups st = Ok st' → jobs st' = jobs st.
Proof.
  induction groups as [|[[key label] new] groups IH]; intros n st st' H; simpl in H; [by injection H as <-|].
  apply bind_ok_inv in H as (st1 & H1 & H). rewrite (IH _ _ _ H). unfold write_group in H1.
  destruct (_ && _); [by injection H1 as <-|]. destruct (live_list _ _); [|done]. destruct (forallb _ _); [|done].
  by injection H1 as <-.
Qed.

Lemma defaults_jobs ids st : jobs (EnsureDefaultFirewallPolicies ids json_text st) = jobs st.
Proof.
  unfold EnsureDefaultFirewallPolicies, seed_rules, seed_entries. destruct (List.find _ _), (live_list _ _); done.
Qed.

Lemma settings_jobs ids input replace st : jobs (upsertFirewallManagementCIDRs ids json_text input replace st).2 = jobs st.
Proof.
  unfold upsertFirewallManagementCIDRs. cbv zeta. rewrite <-(defaults_jobs ids st).
  destruct (normalize_groups _); [|done]. destruct (write_groups _ _ _ _ _) eqn:E; [|done].
  by apply write_groups_jobs in E.
Qed.

Lemma result_jobs job status result st : jobs (ApplyFirewallJobResult pg_uuid facts sprint job status result st).2 = jobs st.
Proof.
  unfold ApplyFirewallJobResult, applyFirewallApplyJobResult, applyFirewallDisableJobResult. same_jobs.
Qed.

(** The type [uuid] prints canonical text. *)
Hypothesis uuid_canonical : ∀ s u, pg_uuid s = Some u → uuid_ok u.

Notation catalog_step := (catalog_step pg_uuid node_exists text_before facts sprint marshal json_text).
Notation reachable := (reachable pg_uuid node_exists text_before facts sprint marshal json_text).

Ltac table_op op := unfold op; same_jobs.

Lemma step_hashes st st' : catalog_ok st → hashes_ok st → catalog_step st st' → hashes_ok st'.
Proof using Type.
  intros Hok Hh Hs.
  assert (∀ st1, jobs st1 = jobs st → hashes_ok st1) as Hsame by (intros st1 E j; rewrite E; apply Hh).
  destruct Hs.
  1-12: apply Hsame.
  - table_op CreateFirewallPolicy.
  - table_op UpdateFirewallPolicy.
  - table_op DeleteFirewallPolicy.
  - table_op CreateFirewallAddressList.
  - table_op UpdateFirewallAddressList.
  - table_op DeleteFirewallAddressList.
  - table_op CreateFirewallAddressEntry.
  - table_op UpdateFirewallAddressEntry.
  - table_op DeleteFirewallAddressEntry.
  - table_op CreateFirewallRule.
  - table_op UpdateFirewallRule.
  - table_op DeleteFirewallRule.
  - apply Hsame, defaults_jobs.
  - apply Hsame, settings_jobs.
  - by apply preview_hashes.
  - by apply apply_hashes.
  - by apply disable_hashes.
  - apply Hsame, result_jobs.
  - intros j' Hj' Hq. destruct (H j' Hj') as (j & Hj & Et & _ & _ & Ep).
    { destruct Hq as [-> | ->]; done. }
    rewrite <-Ep. apply (Hh j Hj). by rewrite Et.
Qed.

Lemma reachable_hashes st : reachable st → hashes_ok st.
Proof using uuid_canonical.
  unfold FirewallStoreProps.reachable. intros H.
  assert (∀ a, catalog_ok a → hashes_ok a → rtc catalog_step a st → hashes_ok st) as Hr.
  { clear H. intros a Ha Hh H. induction H as [|a b c Hab _ IH]; [done|].
    apply IH; [by eapply catalog_step_ok|by eapply step_hashes]. }
  apply (Hr empty_catalog); [apply (reachable_catalog_ok pg_uuid node_exists text_before facts sprint marshal json_text);
    [done|apply rtc_refl]|by intros j ?%elem_of_nil|done].
Qed.
End jobs.
