(* ===== verification/FirewallGates.v ===== *)
(** * The gates in front of a strict apply, seen from the agent

    A strict firewall job replaces the default policy of a chain, so the control
    plane lets it through only behind two gates: management sources that a
    rendered rule can match, and a succeeded preview of the same content.  The
    theorems say what each gate gives: the script the agent renders from the
    queued job accepts SSH from a management source, and the previewed payload
    has the text of the applied one. *)
From stdpp Require Import gmap.
From S2P Require Import Prelude GoStrings Strconv GoValue Sha256 Netip JobSchema Firewall FirewallText FirewallFields FirewallProps FirewallAgent JsonImage FirewallCatalog FirewallTables FirewallSeeds Jobs FirewallJobs FirewallFlow FirewallStoreProps FirewallReads FirewallStrict.
From Stdlib Require Import Ascii.
From stdpp Require Import options.
Open Scope Z_scope.

(** ** Ports *)

Section ports.
Context (sprint : any → string).

Lemma stringify_port z : port_ok z → Firewall.stringify sprint (Some (AFloat64 (float_of_Z z))) = itoa z.
Proof.
  unfold port_ok. intros Hz. cbn [Firewall.stringify]. rewrite int_of_float_Z, float_is_Z by lia.
  by replace (true && (Z.abs z <? 2 ^ 53) && negb (z =? 0)) with true by lia.
Qed.

Lemma add_port_keeps out raw : out ⊆ addNodeFirewallPortValue sprint out raw.
Proof. unfold addNodeFirewallPortValue. repeat case_match; set_solver. Qed.

Lemma add_ports_spec zs : ∀ out, Forall port_ok zs →
  let after := foldl (addNodeFirewallPortValue sprint) out ((λ z, AFloat64 (float_of_Z z)) <$> zs) in
  out ⊆ after ∧ ∀ z, z ∈ zs → itoa z ∈ after.
Proof.
  induction zs as [|z zs IH]; intros out Hz; simpl.
  { split; [done|]. by intros z ?%elem_of_nil. }
  apply Forall_cons in Hz as [Hz Hzs].
  destruct (IH (addNodeFirewallPortValue sprint out (AFloat64 (float_of_Z z))) Hzs) as [Hk Hi].
  split; [etransitivity; [apply add_port_keeps|exact Hk]|].
  intros y [-> |Hy]%elem_of_cons; [|auto]. apply Hk. unfold addNodeFirewallPortValue.
  rewrite stringify_port, parse_port_itoa by done. destruct (one_of _ _) eqn:E; [by apply one_of_spec|set_solver].
Qed.

(** Every port of a stored job is a port of the agent's rules. *)
Lemma ssh_ports_read zs : Forall port_ok zs → ∀ z, z ∈ zs →
  itoa z ∈ nodeFirewallSSHBootstrapPorts sprint (Some (ASlice ((λ z, AFloat64 (float_of_Z z)) <$> zs))).
Proof.
  intros Hz z Hin. unfold nodeFirewallSSHBootstrapPorts, sort_strings. rewrite isort_perm. by apply add_ports_spec.
Qed.
End ports.

Section gates.
Context (pg_uuid : string → option string) (node_exists : string → bool) (text_before : string → string → bool).
Context (facts : node_facts) (sprint : any → string) (marshal : gomap → option string) (json_text : any → string).
Context (other : any → any) (quote : string → string) (url_Parse : string → option (string * string * string)).

Notation reachable := (reachable pg_uuid node_exists text_before facts sprint marshal json_text).
Notation queue_apply := (CreateFirewallApplyJob pg_uuid text_before facts sprint marshal json_text).

(** ** The management sources *)

Definition management_keys : list string := ["trusted_control_plane"; "trusted_operators"].

(** An active entry of an active management list, narrower than a whole family. *)
Definition management_source (st : catalog) (l : FirewallAddressList) (e : FirewallAddressEntry) : Prop :=
  l ∈ lists st ∧ fl_Key l ∈ management_keys ∧ active_status (fl_Status l) = true
  ∧ e ∈ entries st ∧ fe_ListID e = fl_ID l ∧ rendered e = true
  ∧ firewallAddressEntryRenderableNonAny (fe_Value e) (fe_ValueType e) = true.

Lemma renderable_management_source st :
  firewallHasRenderableTrustedManagementSources pg_uuid st = Ok true → ∃ l e, management_source st l e.
Proof using Type.
  unfold firewallHasRenderableTrustedManagementSources. intros H.
  assert (∀ key, key ∈ management_keys →
    firewallAddressListHasRenderableNonAnyEntries pg_uuid "" key st = Ok true → ∃ l e, management_source st l e) as Hk.
  { intros key Hin Hb. unfold firewallAddressListHasRenderableNonAnyEntries in Hb.
    change (trim_space "" =s "") with true in Hb. cbn [andb negb] in Hb.
    assert (trim_space key = key) as Et by (repeat (apply elem_of_cons in Hin as [->|Hin]; [done|]); by apply elem_of_nil in Hin).
    rewrite Et in Hb. destruct (key =s ""); [done|]. injection Hb as Hb. unfold non_any in Hb.
    apply existsb_elem in Hb as (e & He & Hr). unfold active_entries in He.
    apply list_elem_of_In, filter_In in He as [He%list_elem_of_In Hc]. split_bools.
    match goal with H : existsb _ _ = true |- _ => apply existsb_elem in H as (l & Hl & Hlc) end. split_bools.
    repeat match goal with H : (_ =s _) = true |- _ => apply String.eqb_eq in H end.
    exists l, e. split_and!; [done|by subst key|done|done|congruence| |done].
    unfold rendered. apply andb_true_iff. split; [done|]. apply negb_true_iff, String.eqb_neq. intros E.
    by rewrite E in *. }
  apply bind_ok_inv in H as ([] & H1 & H2); [|by apply (Hk "trusted_operators"); [set_solver|]].
  apply (Hk "trusted_control_plane"); [set_solver|done].
Qed.

(** No entry of a management list opens a whole address family. *)
Definition no_open_management (st : catalog) : Prop :=
  ∀ l e, l ∈ lists st → fl_Key l ∈ management_keys → active_status (fl_Status l) = true →
    e ∈ entries st → fe_ListID e = fl_ID l → rendered e = true →
    match ParsePrefix (trim_space (fe_Value e)) with Some p => prefix_bits p ≠ 0 | None => True end.

Lemma closed_list st l alist : no_open_management st → l ∈ lists st → fl_Key l ∈ management_keys →
  active_status (fl_Status l) = true → values alist ≡ₚ list_values st l → nodeFirewallListHasAnyCIDR alist = false.
Proof using Type.
  intros Hno Hl Hk Ha Hv. unfold nodeFirewallListHasAnyCIDR. apply existsb_false. intros v Hin.
  change (v ∈ values alist) in Hin. rewrite Hv in Hin. unfold list_values in Hin.
  apply list_elem_of_fmap in Hin as (e & -> & He%list_elem_of_In). apply filter_In in He as [He Hr].
  unfold list_entries in He. apply filter_In in He as [He%list_elem_of_In El%String.eqb_eq].
  specialize (Hno l e Hl Hk Ha He El Hr). destruct (ParsePrefix _); [by apply Z.eqb_neq|done].
Qed.

(** ** The agent's SSH rules *)

Notation render := (renderNodeFirewallPlan sprint quote url_Parse).

(** A set of the script with a value, and a rule that lets its members in. *)
Definition lines_accept (lines : list string) (value : string) (ports : list Z) : Prop :=
  ∃ set type values family tcp comment, value ∈ values
    ∧ words ["add set"; firewallNFTFamily; firewallNFTTable; set; "{ type"; type +:+ "; flags interval; }"] ∈ lines
    ∧ words ["add element"; firewallNFTFamily; firewallNFTTable; set; nftElementSet values] ∈ lines
    ∧ rule_line firewallInputChain ["ct state { new, established }"; family; "saddr"; "@" +:+ set; "tcp dport";
        nftSet tcp; "accept comment"; comment] ∈ lines
    ∧ ∀ port, port ∈ ports → itoa port ∈ tcp.

Definition accepts_ssh (plan : nodeFirewallPlan) (value : string) (ports : list Z) : Prop :=
  ∃ lines, Script plan = join (String LF "") lines +:+ String LF "" ∧ lines_accept lines value ports.

Lemma set_lines_in name type vs v : v ∈ vs →
  words ["add set"; firewallNFTFamily; firewallNFTTable; name; "{ type"; type +:+ "; flags interval; }"] ∈ list_set_lines name type vs
  ∧ words ["add element"; firewallNFTFamily; firewallNFTTable; name; nftElementSet vs] ∈ list_set_lines name type vs.
Proof.
  intros Hv. destruct vs as [|x vs]; [by apply elem_of_nil in Hv|]. unfold list_set_lines.
  split; [apply list_elem_of_here|apply list_elem_of_further, list_elem_of_here].
Qed.

Lemma safety_ssh_lines defaults payload rules ls safety : Enforce defaults = true → Firewall.Input defaults ≠ "accept" →
  renderNodeFirewallSafetyRules sprint quote url_Parse defaults payload rules ls = Ok safety →
  ∀ line, line ∈ (renderNodeFirewallSSHBootstrapRules sprint payload ls).1 → line ∈ safety_Lines safety.
Proof.
  intros He Hi H line Hl. unfold renderNodeFirewallSafetyRules in H. rewrite He in H. cbn [negb] in H.
  assert (not_accept (Firewall.Input defaults) = true) as Hn by (by apply negb_true_iff, String.eqb_neq).
  rewrite Hn in H. destruct (renderNodeFirewallSSHBootstrapRules _ _ _) as [sshLines preserved]. simpl in Hl.
  destruct (if not_accept (Forward defaults) then _ else _) as [forward_lines forward].
  apply bind_ok_inv in H as ([output_lines warnings] & _ & [= <-]). cbn [safety_Lines].
  do 2 apply list_elem_of_further. apply elem_of_app. by left.
Qed.

(** The ports of the agent's SSH rules. *)
Definition ssh_tcp (payload : gomap) : list string :=
  let ports := nodeFirewallSSHBootstrapPorts sprint (payload !! "ssh_bootstrap_ports") in
  match ports with [] => ["22"] | _ => ports end.

(** The rules of a list of management sources. *)
Lemma ssh_lines payload ls key alist family : key ∈ management_keys → ByRef ls !! key = Some alist →
  nodeFirewallListHasAnyCIDR alist = false → one_of family ["ip"; "ip6"] = true → setNameForFamily alist family ≠ "" →
  rule_line firewallInputChain ["ct state { new, established }"; family; "saddr"; "@" +:+ setNameForFamily alist family;
    "tcp dport"; nftSet (ssh_tcp payload); "accept comment";
    nftQuote (firewallNFTCommentScope +:+ "system-ssh-bootstrap-" +:+ key +:+ "-" +:+ family)]
  ∈ (renderNodeFirewallSSHBootstrapRules sprint payload ls).1.
Proof.
  intros Hk Hr Ha Hf Hs. unfold renderNodeFirewallSSHBootstrapRules. cbn [fst]. fold (ssh_tcp payload).
  apply list_elem_of_bind. exists key. split; [|exact Hk]. rewrite Hr, Ha.
  apply list_elem_of_bind. exists family. split; [|by apply one_of_spec].
  unfold ssh_rule. rewrite (proj2 (String.eqb_neq _ _) Hs). by apply list_elem_of_here.
Qed.

(** The JSON of a stored payload with the agent's address of the control plane. *)
Definition received (agent : agentState) (n : gomap) : gomap :=
  firewallPayloadWithAgentSafetyContext sprint (json_map other n) agent.

Lemma received_field agent n k : k ≠ "agent_control_plane_url" → received agent n !! k = json_map other n !! k.
Proof.
  intros Hk. unfold received, firewallPayloadWithAgentSafetyContext. destruct (_ && _); [|done].
  by rewrite lookup_insert_ne.
Qed.

Lemma received_policy agent n k v : k ≠ "agent_control_plane_url" → n !! k = Some (AString v) →
  one_of v ["accept"; "drop"; "reject"] = true →
  normalizeNodeFirewallDefaultPolicy (Firewall.stringify sprint (received agent n !! k)) = Ok v ∧ first [v; "accept"] = v.
Proof.
  intros Hk Hn Hv. destruct (lit_trim_lower _ _ Hv eq_refl) as (Ht & Hl & Hj). rewrite received_field by done.
  rewrite (read_text sprint other n k v) by done. unfold normalizeNodeFirewallDefaultPolicy. rewrite Ht, Hl.
  assert (v ≠ "") as Hne by by eapply lit_nonempty. rewrite (proj2 (String.eqb_neq _ _) Hne).
  unfold inLocal. rewrite Hv. split; [done|by apply first_self].
Qed.

(** A value of a set of a management list is let in. *)
Lemma list_accepts payload ls key alist value ports lines : key ∈ management_keys → ByRef ls !! key = Some alist →
  alist ∈ Ordered ls → nodeFirewallListHasAnyCIDR alist = false → value ∈ values alist →
  NameV4 alist ≠ "" → NameV6 alist ≠ "" → (∀ port, port ∈ ports → itoa port ∈ ssh_tcp payload) →
  (∀ line, line ∈ renderNodeFirewallAddressListSets ls → line ∈ lines) →
  (∀ line, line ∈ (renderNodeFirewallSSHBootstrapRules sprint payload ls).1 → line ∈ lines) →
  lines_accept lines value ports.
Proof.
  intros Hk Hr Hin Hc Hv Hn4 Hn6 Hp Hsets Hssh.
  assert (∀ family type vs, one_of family ["ip"; "ip6"] = true → setNameForFamily alist family ≠ "" → value ∈ vs →
    (∀ line, line ∈ list_set_lines (setNameForFamily alist family) type vs → line ∈ renderNodeFirewallAddressListSets ls) →
    lines_accept lines value ports) as Hgo.
  { intros family type vs Hf Hs Hvs Hsub. destruct (set_lines_in (setNameForFamily alist family) type vs value Hvs) as [H1 H2].
    exists (setNameForFamily alist family), type, vs, family, (ssh_tcp payload).
    eexists. split_and!; [exact Hvs|by apply Hsets, Hsub|by apply Hsets, Hsub|by apply Hssh; eapply ssh_lines|exact Hp]. }
  unfold values in Hv. apply elem_of_app in Hv as [Hv|Hv].
  - apply (Hgo "ip" "ipv4_addr" (list_V4 alist)); [done..|]. intros line Hl. unfold renderNodeFirewallAddressListSets.
    apply list_elem_of_bind. exists alist. split; [|done]. apply elem_of_app. by left.
  - apply (Hgo "ip6" "ipv6_addr" (list_V6 alist)); [done..|]. intros line Hl. unfold renderNodeFirewallAddressListSets.
    apply list_elem_of_bind. exists alist. split; [|done]. apply elem_of_app. by right.
Qed.

(** What the agent reads of the default policies of a stored strict job. *)
Lemma received_defaults agent policy hash mode enforce rules als ports n : policy_ok policy →
  stored_payload policy hash mode enforce rules als ports n →
  ∃ warnings, parseNodeFirewallDefaultPolicies sprint (received agent n) = Ok
    ({| Firewall.Input := fp_DefaultInputPolicy policy; Forward := fp_DefaultForwardPolicy policy;
        Output := fp_DefaultOutputPolicy policy; Enforce := enforce |}, warnings).
Proof.
  intros Hp [_ _ Hi Hf Ho He _ _ _ _ _]. destruct (policy_texts _ Hp) as (_ & _ & Hl).
  apply Forall_cons in Hl as [Li Hl]. apply Forall_cons in Hl as [Lf Hl]. apply Forall_cons in Hl as [Lo _].
  destruct (received_policy agent n "default_input_policy" _ ltac:(done) Hi Li) as [Ri Fi].
  destruct (received_policy agent n "default_forward_policy" _ ltac:(done) Hf Lf) as [Rf Ff].
  destruct (received_policy agent n "default_output_policy" _ ltac:(done) Ho Lo) as [Ro Fo].
  unfold parseNodeFirewallDefaultPolicies. rewrite Ri, Rf, Ro. cbn [map_err mbind result_bind]. rewrite Fi, Ff, Fo.
  rewrite received_field by done. unfold json_map. rewrite lookup_fmap, He. cbn [fmap option_fmap option_map json_image boolFromAny].
  cbn [Enforce]. destruct enforce; by eexists.
Qed.

Lemma received_ports agent n ports : n !! "ssh_bootstrap_ports" = Some (AInts ports) →
  received agent n !! "ssh_bootstrap_ports" = Some (ASlice ((λ z, AFloat64 (float_of_Z z)) <$> ports)).
Proof. intros Hn. rewrite received_field by done. unfold json_map. by rewrite lookup_fmap, Hn. Qed.

Lemma stored_lists_field st policy hash mode enforce rules als ports n :
  stored_payload policy hash mode enforce rules als ports n →
  als = firewallAddressListsPayload text_before st →
  json_map other n !! "address_lists" = json_map other (list_to_map [("address_lists",
    ASlice (firewallAddressListsPayload text_before st))]) !! "address_lists".
Proof. intros Hs ->. unfold json_map. rewrite !lookup_fmap. by rewrite (sp_lists _ _ _ _ _ _ _ _ Hs). Qed.

(** The plan of a strict job whose input policy is not accept lets the
    management source in. *)
Lemma plan_accepts_ssh st agent policy hash mode rules ports n plan l e : catalog_ok st →
  NoDup (refs_of (lists st)) → Forall (λ e, zone_free (fe_Value e) = true) (entries st) →
  no_open_management st → management_source st l e → policy_ok policy → fp_DefaultInputPolicy policy ≠ "accept" →
  stored_payload policy hash mode true rules (firewallAddressListsPayload text_before st) ports n →
  render (received agent n) = Ok plan → accepts_ssh plan (fe_Value e) ports.
Proof.
  intros Hok Hnd Hz Hno (Hl & Hk & Ha & He & El & Hr & Hna) Hp Hi Hs H. unfold renderNodeFirewallPlan in H.
  destruct (received_defaults agent _ _ _ _ _ _ _ _ Hp Hs) as (w1 & Hd). rewrite Hd in H. cbn [mbind result_bind] in H.
  apply bind_ok_inv in H as ([ls w2] & Hls & H). apply bind_ok_inv in H as ([rs w3] & _ & H).
  apply bind_ok_inv in H as (safety & Hsafe & H). apply bind_ok_inv in H as (rendered_lines & _ & H).
  apply (f_equal (λ r, match r with Ok p => Script p | Err _ => EmptyString end)) in H. cbn [Script] in H.
  rewrite received_field in Hls by done.
  rewrite (stored_lists_field st _ _ _ _ _ _ _ _ Hs eq_refl) in Hls. pose proof (stored_lists_reading sprint other text_before st Hok Hnd Hz ls w2 Hls (fl_Key l)) as Href.
  destruct (List.find _ (lists st)) as [l'|] eqn:Ef.
  2:{ pose proof (List.find_none _ _ Ef l (proj1 (list_elem_of_In _ _) Hl)) as Hn. simpl in Hn.
      by rewrite Ha, String.eqb_refl, orb_true_r in Hn. }
  assert (l' = l) as ->.
  { apply elem_of_find in Ef as [Hl' [_ Hor]%andb_true_iff]. unfold refs_of in Hnd. apply NoDup_app in Hnd as (_ & Hx & Hkeys).
    apply orb_true_iff in Hor as [Ei%String.eqb_eq|Ek%String.eqb_eq].
    - exfalso. apply (Hx (fl_ID l')); [by apply list_elem_of_fmap_2|]. rewrite Ei. by apply list_elem_of_fmap_2.
    - by apply (column_inj fl_Key (lists st)). }
  destruct Href as (alist & Hby & Hord & _ & _ & N4 & N6 & Hv).
  pose proof (closed_list st l alist Hno Hl Hk Ha Hv) as Hc.
  assert (fe_Value e ∈ values alist) as Hin.
  { rewrite Hv. unfold list_values. apply list_elem_of_fmap_2, list_elem_of_In, filter_In. split; [|done].
    unfold list_entries. apply filter_In. split; [by apply list_elem_of_In|]. by rewrite El, String.eqb_refl. }
  pose proof (λ He Hi', safety_ssh_lines _ _ _ _ _ He Hi' Hsafe) as Hss. specialize (Hss eq_refl Hi).
  eexists. split; [symmetry; exact H|]. destruct (sp_ports _ _ _ _ _ _ _ _ Hs) as [Hps Hpo].
  apply (list_accepts (received agent n) ls (fl_Key l) alist); try done.
  - by rewrite N4; destruct (nodeFirewallSetName _).
  - by rewrite N6; destruct (nodeFirewallSetName _).
  - intros port Hport. pose proof (ssh_ports_read sprint _ Hpo _ Hport) as Ht. unfold ssh_tcp.
    rewrite (received_ports _ _ _ Hps). revert Ht. generalize (nodeFirewallSSHBootstrapPorts sprint (Some
      (ASlice ((λ z, AFloat64 (float_of_Z z)) <$> ports)))). intros [|p ps] Ht; [by apply elem_of_nil in Ht|exact Ht].
  - intros line Hline. rewrite !elem_of_app. auto.
  - intros line Hline%Hss. rewrite !elem_of_app. auto.
Qed.

(** The type [uuid] prints canonical text. *)
Hypothesis uuid_canonical : ∀ s u, pg_uuid s = Some u → uuid_ok u.


(** The type [uuid] reads its canonical text as itself. *)
Hypothesis uuid_reads : ∀ u, uuid_ok u → pg_uuid u = Some u.

(** The rows of a policy that are not deleted. *)
Definition live_rules (st : catalog) (policy : string) : list FirewallRule :=
  List.filter (λ r, (fr_PolicyID r =s policy) && live_status (fr_Status r)) (rules st).

(** No policy's key is the identifier of a policy: a reference may be either. *)
Definition policy_refs_apart (st : catalog) : Prop := NoDup ((fp_ID <$> policies st) ++ (fp_Key <$> policies st)).

Lemma get_policy_id st p policy : catalog_ok st → policy_refs_apart st → p ∈ policies st →
  getFirewallPolicy pg_uuid (fp_ID p) st = Ok policy → policy = p.
Proof using uuid_reads.
  intros Hok Hap Hp H. pose proof (co_policies _ Hok) as Hc. rewrite Forall_forall in Hc.
  destruct (Hc p Hp) as [_ Hu _]. pose proof (id_trim _ Hu) as Ht. destruct Hu as [Hre Hb].
  unfold getFirewallPolicy in H. rewrite Ht in H. destruct (List.find _ _) as [q|] eqn:E; [|done]. injection H as <-.
  apply elem_of_find in E as [Hq E]. unfold by_ref, nullableFirewallLookupUUID in E. rewrite Ht, Hre in E.
  assert (fp_ID p ≠ "") as Hne by (intros E0; by rewrite E0 in Hre).
  rewrite (proj2 (String.eqb_neq _ _) Hne) in E. cbn [negb orb] in E. rewrite uuid_reads in E by done.
  unfold policy_refs_apart in Hap. apply NoDup_app in Hap as (Hi & Hx & _).
  apply orb_true_iff in E as [E%bool_decide_eq_true|E%String.eqb_eq].
  - injection E as E. by apply (column_inj fp_ID (policies st)).
  - exfalso. apply (Hx (fp_ID p)); [by apply list_elem_of_fmap_2|]. rewrite <-E. by apply list_elem_of_fmap_2.
Qed.

Lemma default_policy_in node st p : defaultFirewallPolicyForNode pg_uuid node st = Ok p → p ∈ policies st.
Proof.
  unfold defaultFirewallPolicyForNode. destruct (pg_uuid node); [|done].
  destruct (List.find _ _) as [q|] eqn:E; [intros [= <-]; by apply elem_of_find in E as [? _]|].
  clear E. destruct (List.find _ _) as [q|] eqn:E; [|done]. intros [= <-]. by apply elem_of_find in E as [? _].
Qed.

(** The rules of a payload built for the default policy or for a policy by its identifier. *)
Lemma built_rules rid node pol enforce st built : catalog_ok st → policy_refs_apart st →
  pol = "" ∨ pol ∈ fp_ID <$> policies st →
  buildFirewallJobPayload pg_uuid text_before facts sprint marshal rid node pol enforce st = Ok built →
  ∃ rules, bp_rulePayload built = firewallRulesPayload (List.filter (λ r, fr_PolicyID r =s fp_ID (bp_policy built))
    (isort rule_before (read_rule st <$> List.filter (λ r, live_status (fr_Status r)) rules))) ∧ rules = FirewallTables.rules st.
Proof using uuid_reads.
  intros Hok Hap Hpol H. pose proof (co_policies _ Hok) as Hc. rewrite Forall_forall in Hc.
  unfold buildFirewallJobPayload in H. destruct (_ =s ""); [done|].
  apply bind_ok_inv in H as (ref & Href%map_err_ok & H).
  assert (∃ p, p ∈ policies st ∧ ref = fp_ID p) as (p & Hp & ->).
  { destruct Hpol as [-> |(p & -> & Hp)%list_elem_of_fmap].
    - change (trim_space "" =s "") with true in Href. cbv iota in Href.
      destruct (defaultFirewallPolicyForNode _ _ _) as [p|] eqn:E; [|done]. injection Href as <-.
      exists p. split; [|done]. by eapply default_policy_in.
    - destruct (Hc p Hp) as [_ Hu _]. rewrite (id_trim _ Hu) in Href. destruct Hu as [Hre _].
      rewrite (proj2 (String.eqb_neq _ _)) in Href by (intros E0; by rewrite E0 in Hre). injection Href as <-. by exists p. }
  apply bind_ok_inv in H as (policy & Hg%map_err_ok & H). apply get_policy_id in Hg as ->; [|done..].
  apply bind_ok_inv in H as (rs & Hl%map_err_ok & H). apply bind_ok_inv in H as (forward & _ & [= <-]).
  destruct (Hc p Hp) as [_ Hu _]. unfold listFirewallRules in Hl. rewrite (id_trim _ Hu), uuid_reads in Hl by done.
  destruct Hu as [Hre _]. rewrite (proj2 (String.eqb_neq _ _)) in Hl by (intros E0; by rewrite E0 in Hre).
  injection Hl as <-. by eexists.
Qed.

Lemma live_rules_perm st policy :
  List.filter (λ r, live_status (fr_Status r)) (isort payload_less (List.filter (λ r, fr_PolicyID r =s policy)
    (isort (rule_before) (read_rule st <$> List.filter (λ r, live_status (fr_Status r)) (rules st)))))
  ≡ₚ read_rule st <$> live_rules st policy.
Proof.
  transitivity (List.filter (λ r, live_status (fr_Status r)) (List.filter (λ r, fr_PolicyID r =s policy)
    (read_rule st <$> List.filter (λ r, live_status (fr_Status r)) (rules st)))).
  { apply filter_perm. rewrite isort_perm. by apply filter_perm, isort_perm. }
  unfold live_rules. induction (rules st) as [|r rs IH]; [done|]. simpl.
  destruct (live_status (fr_Status r)) eqn:E; simpl; [|by rewrite andb_false_r].
  rewrite andb_true_r. destruct (fr_PolicyID r =s policy); simpl; [|done]. rewrite E. by apply Permutation_skip.
Qed.

(** C30: The agent's sets of a queued job are the catalogue's active lists: a
    reference (identifier or key) finds the set of the active list it names, with
    exactly the values of the list's active entries that are no names, and a
    reference to anything else finds nothing. *)
Theorem stored_lists_read rid jid now node pol enforce st job st' n agent out w :
  reachable st → NoDup (refs_of (lists st)) → Forall (λ e, zone_free (fe_Value e) = true) (entries st) →
  queue_apply rid jid now node pol enforce st = (Ok job, st') → Payload job = Some n →
  parseNodeFirewallAddressLists sprint (received agent n !! "address_lists") = Ok (out, w) →
  ∀ ref,
    match List.find (λ l, active_status (fl_Status l) && ((fl_ID l =s ref) || (fl_Key l =s ref))) (lists st) with
    | Some l => ∃ alist, ByRef out !! ref = Some alist ∧ alist ∈ Ordered out ∧ list_ID alist = fl_ID l
        ∧ list_Key alist = fl_Key l ∧ values alist ≡ₚ list_values st l
    | None => ByRef out !! ref = None
    end.
Proof using uuid_canonical.
  intros Hreach Hnd Hz Hq Hn Hp ref.
  pose proof (reachable_catalog_ok _ _ _ _ _ _ _ uuid_canonical st Hreach) as Hok.
  apply apply_inv in Hq as (built & b & row & Hb & _ & _ & Hnorm & _).
  apply normal_job_payload in Hnorm as (_ & n' & Hn' & Hnorm). rewrite Hn in Hn'. injection Hn' as <-.
  destruct (built_stored _ _ _ _ _ _ _ _ _ _ _ _ _ Hok Hb (or_intror eq_refl) Hnorm) as [Hs _].
  rewrite received_field, (stored_lists_field st _ _ _ _ _ _ _ _ Hs eq_refl) in Hp by done.
  pose proof (stored_lists_reading sprint other text_before st Hok Hnd Hz out w Hp ref) as H.
  destruct (List.find _ _) as [l|]; [|done]. destruct H as (alist & H1 & H2 & H3 & H4 & _ & _ & H5).
  exists alist. exact (conj H1 (conj H2 (conj H3 (conj H4 H5)))).
Qed.

(** C22: The agent reads the rules of a queued job as exactly the rules of its
    policy that are not deleted: none of the agent's own checks refuses, drops or
    changes what the control plane stored, when the CIDRs carry no zone. *)
Theorem stored_rules_read rid jid now node pol enforce st job st' n agent :
  reachable st → policy_refs_apart st → pol = "" ∨ pol ∈ fp_ID <$> policies st →
  Forall (λ r, zone_free (fr_SrcCIDR r) = true ∧ zone_free (fr_DstCIDR r) = true) (rules st) →
  queue_apply rid jid now node pol enforce st = (Ok job, st') → Payload job = Some n →
  ∃ policy rs, policy ∈ policies st ∧ n !! "policy_id" = Some (AString (fp_ID policy))
    ∧ parseNodeFirewallRules sprint (received agent n !! "rules") = Ok (rs, [])
    ∧ rs ≡ₚ (λ r, agent_rule (read_rule st r)) <$> live_rules st (fp_ID policy).
Proof using uuid_canonical uuid_reads.
  intros Hreach Hap Hpol Hz Hq Hn.
  pose proof (reachable_catalog_ok _ _ _ _ _ _ _ uuid_canonical st Hreach) as Hok.
  apply apply_inv in Hq as (built & b & row & Hb & _ & _ & Hnorm & _).
  apply normal_job_payload in Hnorm as (_ & n' & Hn' & Hnorm). rewrite Hn in Hn'. injection Hn' as <-.
  destruct (built_stored _ _ _ _ _ _ _ _ _ _ _ _ _ Hok Hb (or_intror eq_refl) Hnorm) as [Hs _].
  destruct (built_rules _ _ _ _ _ _ Hok Hap Hpol Hb) as (rules0 & Er & ->).
  pose proof (live_rules_perm st (fp_ID (bp_policy built))) as Hperm.
  set (L := List.filter (λ r, live_status (fr_Status r)) (isort payload_less _)) in Hperm.
  exists (bp_policy built).
  destruct (Permutation_map_inv _ _ Hperm) as (L' & EL & HL).
  exists (isort rule_less ((λ r, agent_rule (read_rule st r)) <$> L')).
  split; [apply build_inv in Hb as (rules & forward & Hin & _); exact Hin|]. split; [apply Hs|].
  split; [|by rewrite isort_perm, HL].
  rewrite received_field by done. unfold json_map. rewrite lookup_fmap, (sp_rules _ _ _ _ _ _ _ _ Hs), Er.
  unfold firewallRulesPayload. fold L. rewrite EL. cbn [fmap option_fmap option_map json_image].
  change (map (read_rule st) L') with (read_rule st <$> L'). rewrite <-!list_fmap_compose.
  cbn [parseNodeFirewallRules].
  assert (Forall (λ r, r ∈ FirewallTables.rules st ∧ zone_free (fr_SrcCIDR r) = true ∧ zone_free (fr_DstCIDR r) = true) L') as HF.
  { apply Forall_forall. intros r Hr. rewrite <-HL in Hr. unfold live_rules in Hr.
    apply list_elem_of_In, filter_In in Hr as [Hr%list_elem_of_In _]. rewrite Forall_forall in Hz. by split; [|apply Hz]. }
  pose proof (parse_rules_stored sprint other st Hok L' 0 HF) as Hp. unfold json_map in Hp.
  match goal with |- context [parse_rules sprint 0 ?l] => replace l with
    ((λ r, AMap (json_image other <$> rule_payload (read_rule st r))) <$> L') by done end.
  rewrite Hp. done.
Qed.

(** Two texts are equal, or they are different texts of the same hash. *)
Definition same_text_or_collision (a b : string) : Prop := a = b ∨ a ≠ b ∧ sha256_hex a = sha256_hex b.

(** C15: A strict apply is queued only after a preview of the same content: the
    jobs hold a succeeded preview of the same node and of the same policy whose
    result has a rendered script, and whose own canonical payload (policy, default
    policies, mode, rules and address lists) has the JSON text of the queued
    one's, up to a collision of SHA-256. *)
Theorem strict_apply_previewed rid jid now node pol st job st' n :
  reachable st → queue_apply rid jid now node pol true st = (Ok job, st') → Payload job = Some n →
  ∃ preview m scope, preview ∈ jobs st ∧ Type_ preview = "node.firewall.preview" ∧ Status preview = "succeeded"
    ∧ pg_uuid (trim_space node) = Some scope ∧ ScopeID preview = Some scope
    ∧ Payload preview = Some m ∧ json_field json_text (Payload preview) "policy_id" = json_field json_text (Some n) "policy_id"
    ∧ json_field json_text (Result preview) "rendered_hash" ≠ ""
    ∧ same_text_or_collision (mustJSON marshal (canonical_payload sprint m)) (mustJSON marshal (canonical_payload sprint n)).
Proof using uuid_canonical.
  intros Hreach Hq Hn.
  pose proof (reachable_catalog_ok _ _ _ _ _ _ _ uuid_canonical st Hreach) as Hok.
  pose proof (reachable_hashes _ _ _ _ _ _ _ uuid_canonical st Hreach) as Hh.
  apply apply_inv in Hq as (built & b & row & Hb & _ & Hm & Hnorm & _). specialize (Hm eq_refl).
  apply normal_job_payload in Hnorm as (_ & n' & Hn' & Hnorm). rewrite Hn in Hn'. injection Hn' as <-.
  destruct (built_stored _ _ _ _ _ _ _ _ _ _ _ _ _ Hok Hb (or_intror eq_refl) Hnorm) as [Hs Eh].
  unfold requireMatchingFirewallPreview in Hm. destruct (pg_uuid (trim_space node)) as [scope|] eqn:En; [|discriminate Hm].
  destruct (existsb _ _) eqn:Ex; [|discriminate Hm]. apply existsb_elem in Ex as (preview & Hin & Hp). unfold matching_preview in Hp.
  split_bools. repeat match goal with H : (_ =s _) = true |- _ => apply String.eqb_eq in H end.
  destruct (Hh preview Hin) as (m & Hpay & Hhash); [by left|].
  assert (json_field json_text (Some n) "policy_id" = fp_ID (bp_policy built)) as Ei.
  { unfold json_field. by rewrite (sp_policy_id _ _ _ _ _ _ _ _ Hs). }
  exists preview, m, scope. rewrite Ei. repeat (split; [first [eassumption|reflexivity]|]). split.
  - by apply String.eqb_neq.
  - unfold same_text_or_collision. destruct (decide (mustJSON marshal (canonical_payload sprint m)
      = mustJSON marshal (canonical_payload sprint n))) as [?|?]; [by left|right]. split; [done|].
    change (firewallStablePayloadHash sprint marshal m = firewallStablePayloadHash sprint marshal n). rewrite <-Eh.
    match goal with H : json_field _ _ "firewall_payload_hash" = _ |- _ => rewrite <-H end.
    rewrite Hpay. unfold json_field. by rewrite Hhash.
Qed.
End gates.
