(* ===== verification/FirewallSamples.v ===== *)
(** * A firewall catalogue at work

    One database as a witness: the defaults and the management sources are
    written, a strict preview is queued and succeeds, the apply is queued, and
    the agent renders it.  The theorems on the catalogue are applied to it, and
    the behaviours that surprise are shown on it. *)
From stdpp Require Import gmap.
From S2P Require Import Prelude GoStrings Strconv GoValue Sha256 Netip JobSchema Firewall FirewallText FirewallFields FirewallProps FirewallAgent JsonImage FirewallCatalog FirewallTables FirewallSeeds Jobs FirewallJobs FirewallFlow FirewallStoreProps FirewallReads FirewallStrict FirewallGates.
From Stdlib Require Import Ascii.
From stdpp Require Import options.
Open Scope Z_scope.

(** ** The parameters, as functions *)

(** A text that is already canonical is its identifier. *)
Definition demo_uuid (s : string) : option string :=
  if firewallUUIDRE s && forallb key_byte (bytes s) then Some s else None.
Definition demo_id (n : nat) : string := "00000000-0000-4000-8000-" +:+ itoa (100000000000 + Z.of_nat n).
Definition demo_node : string := demo_id 900.
Definition demo_facts : node_facts := {|
  nf_role := λ n, if n =s demo_node then Some "edge" else None;
  nf_instances := λ _, 0; nf_backhauls := λ _, 0;
  nf_methods := λ _, [MkMethod "ssh" true 2222; MkMethod "ssh" true 0; MkMethod "ssh" false 23];
  nf_known := λ n, n =s demo_node |}.
Definition demo_before (a b : string) : bool := string_lt a b.
(** A text of the fields of a policy. *)
Definition demo_marshal (m : gomap) : option string :=
  Some (join "," ((λ k, Firewall.stringify sample_sprint (m !! k))
    <$> ["policy_key"; "default_input_policy"; "default_forward_policy"; "default_output_policy"; "enforce_default_policy"])).
Definition demo_text (v : any) : string := "".

Lemma demo_canonical s u : demo_uuid s = Some u → uuid_ok u.
Proof.
  unfold demo_uuid. destruct (_ && _) eqn:E; [|done]. intros [= <-]. split_bools. split; [done|].
  apply Forall_forall. intros a Ha%list_elem_of_In.
  match goal with H : forallb _ _ = true |- _ => rewrite forallb_forall in H; by apply H end.
Qed.

(** A text that is canonical is read as itself. *)
Lemma demo_reads u : uuid_ok u → demo_uuid u = Some u.
Proof.
  intros [Hre Hb]. unfold demo_uuid. rewrite Hre. cbn [andb].
  destruct (forallb key_byte (bytes u)) eqn:E; [done|]. exfalso. apply not_true_iff_false in E. apply E.
  apply forallb_forall. intros a Ha. unfold all_bytes in Hb. rewrite Forall_forall in Hb. apply Hb. by apply list_elem_of_In.
Qed.

(** ** The states *)

Definition demo_settings : FirewallManagementSettings := MkSettings ["198.51.100.0/24"] ["198.51.100.7"] ["2001:db8::/48"].
Definition demo_1 : catalog := (upsertFirewallManagementCIDRs demo_id demo_text demo_settings false empty_catalog).2.
Definition demo_preview : J Job * catalog :=
  CreateFirewallPreviewJob demo_uuid demo_before demo_facts sample_sprint demo_marshal (demo_id 100) (demo_id 101) 5 demo_node "" true demo_1.
Definition succeed (j : Job) : Job :=
  MkJob (ID j) (Type_ j) (ScopeType j) "succeeded" (ScopeID j) (NodeID j) (InstanceID j) (Priority j) (Payload j)
    (Some {["rendered_hash" := AString "h"]}) (LockedBy j) (LockedUntil j) (CreatedAt j) (StartedAt j) (FinishedAt j).
Definition demo_2 : catalog := set_jobs (succeed <$> jobs demo_preview.2) demo_preview.2.
Definition demo_apply : J Job * catalog :=
  CreateFirewallApplyJob demo_uuid demo_before demo_facts sample_sprint demo_marshal demo_text (demo_id 102) (demo_id 103) 6
    demo_node "" true demo_2.

(** ** They are reachable *)

Notation demo_step := (catalog_step demo_uuid (λ n, n =s demo_node) demo_before demo_facts sample_sprint demo_marshal demo_text).
Notation demo_reachable := (reachable demo_uuid (λ n, n =s demo_node) demo_before demo_facts sample_sprint demo_marshal demo_text).

Lemma demo_id_inj n m : (n < 1000)%nat → (m < 1000)%nat → demo_id n = demo_id m → n = m.
Proof.
  intros Hn Hm E. assert (itoa (100000000000 + Z.of_nat n) = itoa (100000000000 + Z.of_nat m)) as E2.
  { unfold demo_id in E. cbn [String.append] in E. by injection E. }
  apply itoa_inj in E2; unfold min_int64, max_int64; lia.
Qed.

Lemma demo_ids_ok : forallb (λ n, firewallUUIDRE (demo_id n) && forallb key_byte (bytes (demo_id n))) (seq 0 40) = true.
Proof. by vm_compute. Qed.

Lemma demo_supply : supply 40 demo_id.
Proof.
  split; [|intros n m ? ?; apply demo_id_inj; lia]. intros n Hn. apply (demo_canonical (demo_id n)). unfold demo_uuid.
  pose proof demo_ids_ok as H. rewrite forallb_forall in H. rewrite H; [done|]. apply in_seq. lia.
Qed.

Lemma demo_fresh : fresh 40 demo_id empty_catalog.
Proof. constructor; [lia|apply demo_supply|..]; by intros m _ ?%elem_of_nil. Qed.

Lemma demo_1_step : demo_step empty_catalog demo_1.
Proof. apply (step_settings _ _ _ _ _ _ _ 40); [apply demo_fresh|]. by vm_compute; lia. Qed.

Lemma demo_1_reachable : demo_reachable demo_1.
Proof. eapply rtc_l; [apply demo_1_step|apply rtc_refl]. Qed.

Lemma demo_2_reachable : demo_reachable demo_2.
Proof.
  eapply rtc_r; [eapply rtc_r; [apply demo_1_reachable|apply (step_preview _ _ _ _ _ _ _ (demo_id 100) (demo_id 101) 5 demo_node "" true)]|].
  apply step_queue. intros j' (j & -> & Hj)%list_elem_of_fmap _. by exists j.
Qed.

Definition queued_ok (r : J Job * catalog) : bool :=
  match r.1 with Ok job => match Payload job with Some _ => true | None => false end | Err _ => false end.
Definition queued_payload (r : J Job * catalog) : gomap := match r.1 with Ok job => default ∅ (Payload job) | Err _ => ∅ end.

Lemma queued_spec r : queued_ok r = true → ∃ job st', r = (Ok job, st') ∧ Payload job = Some (queued_payload r).
Proof.
  destruct r as [[job|] st']; [|done]. unfold queued_ok, queued_payload. simpl. intros H. exists job, st'.
  split; [done|]. by destruct (Payload job).
Qed.

Definition demo_payload : gomap := queued_payload demo_apply.

Lemma demo_apply_ok : queued_ok demo_apply = true.
Proof. by vm_compute. Qed.

Lemma demo_applied : ∃ job st',
  CreateFirewallApplyJob demo_uuid demo_before demo_facts sample_sprint demo_marshal demo_text (demo_id 102) (demo_id 103) 6
    demo_node "" true demo_2 = (Ok job, st') ∧ Payload job = Some demo_payload.
Proof. exact (queued_spec demo_apply demo_apply_ok). Qed.

(** The states are evaluated, never unfolded by unification. *)
#[local] Opaque demo_1 demo_preview demo_2 demo_apply demo_payload demo_id demo_uuid.

(** ** The gates *)

Definition closed_management (st : catalog) : bool :=
  forallb (λ l, negb (one_of (fl_Key l) management_keys && active_status (fl_Status l))
    || forallb (λ e, negb ((fe_ListID e =s fl_ID l) && rendered e)
         || match ParsePrefix (trim_space (fe_Value e)) with Some p => negb (prefix_bits p =? 0) | None => true end)
         (entries st)) (lists st).

Lemma closed_management_spec st : closed_management st = true → no_open_management st.
Proof.
  unfold closed_management. rewrite forallb_forall. intros H l e Hl Hk Ha He El Hr.
  specialize (H l (proj1 (list_elem_of_In _ _) Hl)). apply one_of_spec in Hk. rewrite Hk, Ha in H. cbn [andb negb orb] in H.
  rewrite forallb_forall in H. specialize (H e (proj1 (list_elem_of_In _ _) He)). rewrite El, String.eqb_refl, Hr in H.
  cbn [andb negb orb] in H. destruct (ParsePrefix _); [|done]. by apply negb_true_iff, Z.eqb_neq in H.
Qed.

Definition demo_agent : agentState := {| FirewallAgent.NodeID := demo_node; ControlPlaneURL := "https://192.0.2.10" |}.
Definition demo_received (n : gomap) : gomap := received sample_sprint id demo_agent n.

Lemma demo_2_zone_free : Forall (λ e, zone_free (fe_Value e) = true) (entries demo_2).
Proof.
  assert (forallb (λ e, zone_free (fe_Value e)) (entries demo_2) = true) as H by (by vm_compute).
  apply Forall_forall. intros x Hx%list_elem_of_In. rewrite forallb_forall in H. by apply H.
Qed.
Lemma demo_2_closed : closed_management demo_2 = true.
Proof. by vm_compute. Qed.
Lemma demo_ports : ssh_ports demo_facts (trim_space demo_node) = [2222; 22].
Proof. by vm_compute. Qed.
Lemma demo_2_refs : bool_decide (NoDup (refs_of (lists demo_2))) = true.
Proof. by vm_compute. Qed.

Lemma demo_input : match demo_payload !! "default_input_policy" with Some (AString s) => s =s "drop" | _ => false end = true.
Proof. by vm_compute. Qed.

Lemma demo_drops : demo_payload !! "default_input_policy" ≠ Some (AString "accept").
Proof. intros E. pose proof demo_input as H. by rewrite E in H. Qed.

Lemma demo_renders : is_ok (sample_render (demo_received demo_payload)) = true.
Proof. by vm_compute. Qed.

Definition demo_source (l : FirewallAddressList) (e : FirewallAddressEntry) : bool :=
  one_of (fl_Key l) management_keys && active_status (fl_Status l) && (fe_ListID e =s fl_ID l) && rendered e
  && firewallAddressEntryRenderableNonAny (fe_Value e) (fe_ValueType e) && (fe_Value e =s "198.51.100.0/24").

Lemma demo_has_source : existsb (λ l, existsb (demo_source l) (entries demo_2)) (lists demo_2) = true.
Proof. by vm_compute. Qed.

Lemma demo_source_spec : ∃ l e, management_source demo_2 l e ∧ fe_Value e = "198.51.100.0/24".
Proof.
  pose proof demo_has_source as H. apply existsb_elem in H as (l & Hl & H). apply existsb_elem in H as (e & He & H).
  unfold demo_source in H. split_bools. repeat match goal with H : (_ =s _) = true |- _ => apply String.eqb_eq in H end.
  exists l, e. split; [|done]. split_and!; try done. by apply one_of_spec.
Qed.


Lemma strict_apply_previewed_witness :
  ∃ preview m, preview ∈ jobs demo_2 ∧ Type_ preview = "node.firewall.preview" ∧ Payload preview = Some m
    ∧ same_text_or_collision (mustJSON demo_marshal (canonical_payload sample_sprint m))
        (mustJSON demo_marshal (canonical_payload sample_sprint demo_payload)).
Proof.
  destruct demo_applied as (job & st' & Ha & Hp).
  destruct (strict_apply_previewed _ _ _ _ _ _ _ demo_canonical (demo_id 102) (demo_id 103) 6 demo_node "" demo_2 job st'
    demo_payload demo_2_reachable Ha Hp) as (preview & m & scope & H1 & H2 & _ & _ & _ & H3 & _ & _ & H4).
  exists preview, m. exact (conj H1 (conj H2 (conj H3 H4))).
Defined.

Lemma reachable_catalogue_ok_witness : demo_reachable demo_2 ∧ NoDup (fl_Key <$> lists demo_2).
Proof.
  split; [exact demo_2_reachable|].
  exact (co_list_keys _ (reachable_catalogue_ok _ _ _ _ _ _ _ demo_canonical demo_2 demo_2_reachable)).
Defined.

Lemma demo_no_list : List.find (λ l, active_status (fl_Status l) && ((fl_ID l =s "no_such_list") || (fl_Key l =s "no_such_list")))
  (lists demo_2) = None.
Proof. by vm_compute. Qed.

Lemma stored_lists_read_witness :
  ∃ out w, parseNodeFirewallAddressLists sample_sprint (demo_received demo_payload !! "address_lists") = Ok (out, w)
    ∧ ByRef out !! "no_such_list" = None.
Proof.
  destruct demo_applied as (job & st' & Ha & Hp).
  destruct (parseNodeFirewallAddressLists sample_sprint (demo_received demo_payload !! "address_lists")) as [[out w]|] eqn:E.
  2:{ exfalso. pose proof demo_renders as H. unfold renderNodeFirewallPlan in H. rewrite E in H.
      by destruct (parseNodeFirewallDefaultPolicies _ _) as [[? ?]|]. }
  exists out, w. split; [reflexivity|].
  pose proof (stored_lists_read demo_uuid (λ n, n =s demo_node) demo_before demo_facts sample_sprint demo_marshal demo_text id
    demo_canonical (demo_id 102) (demo_id 103) 6 demo_node "" true demo_2 job st' demo_payload demo_agent out w
    demo_2_reachable (bool_decide_eq_true_1 _ demo_2_refs) demo_2_zone_free Ha Hp E "no_such_list") as H.
  rewrite demo_no_list in H. exact H.
Defined.

Lemma demo_2_rules_zone_free :
  Forall (λ r, zone_free (fr_SrcCIDR r) = true ∧ zone_free (fr_DstCIDR r) = true) (FirewallTables.rules demo_2).
Proof.
  assert (forallb (λ r, zone_free (fr_SrcCIDR r) && zone_free (fr_DstCIDR r)) (FirewallTables.rules demo_2) = true) as H
    by (by vm_compute).
  apply Forall_forall. intros x Hx%list_elem_of_In. rewrite forallb_forall in H. by apply andb_true_iff, H.
Qed.
Lemma demo_2_policy_refs : bool_decide (policy_refs_apart demo_2) = true.
Proof. by vm_compute. Qed.

Lemma stored_rules_read_witness :
  ∃ policy rs, policy ∈ policies demo_2
    ∧ parseNodeFirewallRules sample_sprint (demo_received demo_payload !! "rules") = Ok (rs, [])
    ∧ rs ≡ₚ (λ r, agent_rule (read_rule demo_2 r)) <$> live_rules demo_2 (fp_ID policy).
Proof.
  destruct demo_applied as (job & st' & Ha & Hp).
  destruct (stored_rules_read demo_uuid (λ n, n =s demo_node) demo_before demo_facts sample_sprint demo_marshal demo_text id
    demo_canonical demo_reads (demo_id 102) (demo_id 103) 6 demo_node "" true demo_2 job st' demo_payload demo_agent
    demo_2_reachable (bool_decide_eq_true_1 _ demo_2_policy_refs) (or_introl eq_refl) demo_2_rules_zone_free Ha Hp)
    as (policy & rs & H1 & _ & H3 & H4).
  exists policy, rs. exact (conj H1 (conj H3 H4)).
Defined.

(** ** What the catalogue allows *)

Definition policy_patch (status input : string) : FirewallPolicy := MkPolicy "" "" "" "" "" None input "" "" status.
Definition list_patch (status : string) : FirewallAddressList := MkAddressList "" "" "" "" "" status.

(** Deleting a baseline policy is refused, and updating its status to deleted is
    not: the node then has no default policy, and no job can be queued for it. *)
Lemma baseline_deleted_by_update :
  fst (DeleteFirewallPolicy demo_uuid "node_base" demo_1) = Err BaselinePolicy
  ∧ match UpdateFirewallPolicy demo_uuid (λ n, n =s demo_node) "node_base" (policy_patch "deleted" "") demo_1 with
    | (Ok row, st) => fp_Status row = "deleted"
        ∧ CreateFirewallPreviewJob demo_uuid demo_before demo_facts sample_sprint demo_marshal (demo_id 100) (demo_id 101) 5
            demo_node "" false st = (Err (Store QueryFailed), st)
    | _ => False
    end.
Proof. split; [by vm_compute|]. vm_compute. by split. Qed.

(** Deleting an address list that a rule names is refused, and updating its
    status to deleted is not: the rule keeps the list's identifier, and the agent
    refuses every job with it, since the list is not in the payload. *)
Lemma referenced_list_deleted_by_update :
  match DeleteFirewallAddressList demo_uuid "vpn_client_sources" demo_1 with (Err (ListReferenced _), _) => True | _ => False end
  ∧ match UpdateFirewallAddressList demo_uuid "vpn_client_sources" (list_patch "deleted") demo_1 with
    | (Ok _, st) =>
        match CreateFirewallPreviewJob demo_uuid demo_before demo_facts sample_sprint demo_marshal (demo_id 100) (demo_id 101) 5
                demo_node "" false st with
        | (Ok job, _) =>
            match sample_render (demo_received (default ∅ (Payload job))) with
            | Err (InRule _ (ListNotPresent side name)) => (side, name) = ("source", "vpn_client_sources")
            | _ => False
            end
        | _ => False
        end
    | _ => False
    end.
Proof. split; by vm_compute. Qed.

(** Every read of the inventory or of the settings overwrites the default
    policies of [node_base]: an operator's accept is drop again after it. *)
Lemma inventory_resets_the_node_policy :
  match UpdateFirewallPolicy demo_uuid (λ n, n =s demo_node) "node_base" (policy_patch "active" "accept") demo_1 with
  | (Ok row, st) => fp_DefaultInputPolicy row = "accept"
      ∧ fp_DefaultInputPolicy <$> List.filter (λ p, fp_Key p =s "node_base")
          (policies (snd (GetFirewallManagementSettings (λ n, demo_id (200 + n)) demo_text demo_before st))) = ["drop"]
  | _ => False
  end.
Proof. vm_compute. by split. Qed.

(** A source that is both a control-plane source and an SSH source is stored once,
    with the label of the group written last: it is no longer a control-plane source. *)
Lemma shared_source_changes_group :
  fst (UpdateFirewallManagementSettings demo_id (λ n, demo_id (200 + n)) demo_text demo_before
    (MkSettings ["198.51.100.0/24"] ["198.51.100.0/24"] []) empty_catalog)
  = Ok (MkSettings [] ["198.51.100.0/24"] []).
Proof. by vm_compute. Qed.

(** The strict gate asks for one narrow entry in a management list; the agent
    skips a list that has any open one.  With both, the job is queued, the script
    has no rule for the list, and the plan still reports SSH as preserved, for the
    sake of the other list, which is empty. *)
Definition open_0 : catalog := snd (upsertFirewallManagementCIDRs demo_id demo_text (MkSettings ["198.51.100.0/24"] [] []) false empty_catalog).
Definition open_1 : catalog :=
  snd (CreateFirewallAddressEntry demo_uuid (demo_id 300) (default "" (live_list "trusted_control_plane" open_0))
    (MkAddressEntry "" "" "0.0.0.0/0" "cidr" "everyone" "active") open_0).

Lemma open_entry_passes_the_gate :
  match CreateFirewallPreviewJob demo_uuid demo_before demo_facts sample_sprint demo_marshal (demo_id 100) (demo_id 101) 5
          demo_node "" true open_1 with
  | (Ok job, _) =>
      match sample_render (demo_received (default ∅ (Payload job))) with
      | Ok plan => SSHBootstrapPreserved plan = true
          ∧ contains_sub "@fwlist_trusted_control_plane" (Script plan) = false
          ∧ contains_sub "@fwlist_trusted_operators_v4" (Script plan) = true
          ∧ contains_sub "add set inet megavpn_firewall fwlist_trusted_operators_v4" (Script plan) = false
      | Err _ => False
      end
  | _ => False
  end.
Proof. vm_compute. by split_and!. Qed.

(** The result of an apply is written over whatever came after it: an apply that
    ends after the firewall of the node was disabled makes it applied again. *)
Lemma late_result_undoes_disable :
  let job := match fst demo_apply with Ok j => j | Err _ => MkJob "" "" "" "" None None None 0 None None None None None None None end in
  let disabled := snd (CreateFirewallDisableJob demo_uuid demo_facts demo_marshal (demo_id 104) 7 demo_node (snd demo_apply)) in
  let disable_job := MkJob (demo_id 104) "node.firewall.disable" "node" "" (Some demo_node) None None 0 None None None None None None None in
  let st := snd (ApplyFirewallJobResult demo_uuid demo_facts sample_sprint disable_job "succeeded" ∅ disabled) in
  ns_Status <$> node_states st = ["disabled"]
  ∧ ns_Status <$> node_states (snd (ApplyFirewallJobResult demo_uuid demo_facts sample_sprint job "succeeded" ∅ st)) = ["applied"].
Proof. split; by vm_compute. Qed.
