(* ===== verification/Shell.v ===== *)
(** * Text for the shell: quoting, tokens and how the shell reads them

    The agent configures the host through shell scripts it renders.  This file
    has the helpers of [cmd/agent/netpolicy.go] that every renderer shares
    ([shellQuote], [nftStringLiteral], [isSafeNetworkToken], [isSafeSysctlKey])
    with [strconv.Quote], and a reader for the commands they write: [sh_words]
    splits a simple command into its words by the POSIX rules for blanks, single
    and double quotes, and refuses any text in which the shell would see an
    operator, an expansion, a pattern or an unterminated quote.  A command whose
    [sh_words] are known does exactly what those words say. *)
From S2P Require Import Prelude GoStrings Strconv Netip Firewall FirewallText.
From Stdlib Require Import Ascii.
From stdpp Require Import options.
Open Scope Z_scope.

Definition squote : ascii := "039"%char.
Definition NUL : ascii := "000"%char.

(** ** The helpers *)

(** A single quote, inside a single-quoted text. *)
Definition requote : string :=
  String squote (String dquote (String squote (String dquote (String squote "")))).

Definition shellQuote (value : string) : string :=
  String squote "" +:+ replace_char squote requote value +:+ String squote "".

Definition token_rune (r : Z) : bool :=
  ((97 <=? r) && (r <=? 122)) || ((65 <=? r) && (r <=? 90)) || ((48 <=? r) && (r <=? 57))
  || existsb (λ c, r =? byte_val c) (bytes ".:/_-@").

Definition isSafeNetworkToken (value : string) : bool :=
  negb (value =s "") && forallb token_rune (runes value).

Definition sysctl_rune (r : Z) : bool :=
  ((97 <=? r) && (r <=? 122)) || ((65 <=? r) && (r <=? 90)) || ((48 <=? r) && (r <=? 57))
  || existsb (λ c, r =? byte_val c) (bytes "._-").

Definition isSafeSysctlKey (value : string) : bool :=
  negb (value =s "") && forallb sysctl_rune (runes value).

(** [strconv.Quote]; [is_print] is [strconv.IsPrint] beyond ASCII. *)
Section quote.
Context (is_print : Z → bool).

(** [width] lower-case hexadecimal digits. *)
Fixpoint hex_digits (width : nat) (r : Z) : string :=
  match width with
  | O => ""
  | S width => hex_digits width (r / 16) +:+ String (hex_chr (r mod 16)) ""
  end.

Definition escape (c : ascii) (rest : string) : string := String bslash (String c rest).

Definition quote_rune (r : Z) : string :=
  if (r =? byte_val dquote) || (r =? byte_val bslash) then escape (byte_chr r) ""
  else if (if r <? 128 then (32 <=? r) && (r <=? 126) else is_print r) then encode r
  else if r =? 7 then escape "a" ""
  else if r =? 8 then escape "b" ""
  else if r =? 12 then escape "f" ""
  else if r =? 10 then escape "n" ""
  else if r =? 13 then escape "r" ""
  else if r =? 9 then escape "t" ""
  else if r =? 11 then escape "v" ""
  else if (r <? 32) || (r =? 127) then escape "x" (hex_digits 2 r)
  else if r <? 65536 then escape "u" (hex_digits 4 r)
  else escape "U" (hex_digits 8 r).

(** The bytes of [s]; [n] bounds them.  An invalid byte decodes to the error rune
    with width one. *)
Fixpoint quote_fuel (n : nat) (s : string) : string :=
  match n, s with
  | S n, String a t =>
      match decode1 s with
      | Some (r, s') =>
          (if (r =? rune_error) && (String.length s' =? String.length t)%nat
           then escape "x" (hex_digits 2 (byte_val a)) else quote_rune r) +:+ quote_fuel n s'
      | None => ""
      end
  | _, _ => ""
  end.

Definition Quote (s : string) : string :=
  String dquote "" +:+ quote_fuel (String.length s) s +:+ String dquote "".

Definition nftStringLiteral (value : string) : string := shellQuote (Quote value).
End quote.

(** ** The shell's reading of a simple command *)

(** A byte that stands for itself outside quotes, wherever it occurs in a word
    other than the first. *)
Definition plain_byte (a : ascii) : bool :=
  ident_byte a || existsb (Ascii.eqb a) (bytes "-:./,@{}%+^").

Definition blank (a : ascii) : bool := Ascii.eqb a " " || Ascii.eqb a "009".

Inductive sh_mode := Plain | Single | Double.

Definition add_word (w : option string) (ws : list string) : list string :=
  match w with Some w => w :: ws | None => ws end.

(** Prepend a byte, or nothing, to the word the text continues. *)
Definition extend (t : string) (r : option string * list string) : option string * list string :=
  (Some (t +:+ default "" r.1), r.2).

(** The piece of the current word the text starts with, if it does, and the
    words after it. *)
Fixpoint sh_lex (m : sh_mode) (s : string) : option (option string * list string) :=
  match s with
  | EmptyString => match m with Plain => Some (None, []) | _ => None end
  | String a s =>
      if Ascii.eqb a NUL then None
      else match m with
      | Plain =>
          if blank a then (λ r, (None, add_word r.1 r.2)) <$> sh_lex Plain s
          else if Ascii.eqb a squote then extend "" <$> sh_lex Single s
          else if Ascii.eqb a dquote then extend "" <$> sh_lex Double s
          else if plain_byte a then extend (String a "") <$> sh_lex Plain s
          else None
      | Single =>
          if Ascii.eqb a squote then extend "" <$> sh_lex Plain s
          else extend (String a "") <$> sh_lex Single s
      | Double =>
          if Ascii.eqb a dquote then extend "" <$> sh_lex Plain s
          else if existsb (Ascii.eqb a) (bslash :: bytes "$`") then None
          else extend (String a "") <$> sh_lex Double s
      end
  end.

Definition sh_words (s : string) : option (list string) := (λ r, add_word r.1 r.2) <$> sh_lex Plain s.

Example sh_words_plain : sh_words "ip rule add 'a b' c" = Some ["ip"; "rule"; "add"; "a b"; "c"].
Proof. reflexivity. Qed.
Example sh_words_operator : sh_words "ip rule; reboot" = None.
Proof. reflexivity. Qed.
Example sh_words_quote : sh_words ("echo " +:+ shellQuote "it's; $x") = Some ["echo"; "it's; $x"].
Proof. reflexivity. Qed.

(** ** What a text contributes *)

(** Before any text, [t] contributes the piece [v] to the current word. *)
Definition reads_as (t v : string) : Prop :=
  ∀ rest r, sh_lex Plain rest = Some r → sh_lex Plain (t +:+ rest) = Some (extend v r).

Lemma extend_app t u r : extend t (extend u r) = extend (t +:+ u) r.
Proof. unfold extend. simpl. by rewrite sapp_assoc. Qed.

Lemma reads_as_app t u v w : reads_as t v → reads_as u w → reads_as (t +:+ u) (v +:+ w).
Proof.
  intros Ht Hu rest r Hr. rewrite sapp_assoc. rewrite (Ht _ _ (Hu _ _ Hr)). by rewrite extend_app.
Qed.

Definition has_nul (s : string) : bool := contains_char NUL s.

Lemma has_nul_cons a s : has_nul (String a s) = false → Ascii.eqb a NUL = false ∧ has_nul s = false.
Proof.
  unfold has_nul, contains_char. rewrite bytes_cons. cbn [existsb]. rewrite orb_false_iff.
  intros [H ?]. split; [|done]. rewrite Ascii.eqb_sym. done.
Qed.

Lemma single_quoted v rest r :
  has_nul v = false → sh_lex Plain rest = Some r →
  sh_lex Single (replace_char squote requote v +:+ String squote rest) = Some (extend v r).
Proof.
  intros Hn Hr. induction v as [|a v IH]; [simpl; by rewrite Hr|].
  apply has_nul_cons in Hn as [Ha Hn]. specialize (IH Hn). cbn [replace_char].
  destruct (Ascii.eqb_spec a squote) as [->|Hq].
  - rewrite sapp_assoc. revert IH. generalize (replace_char squote requote v +:+ String squote rest).
    intros x Hx. unfold requote. rewrite !sapp_cons, sapp_nil_l. cbn. by rewrite Hx.
  - rewrite sapp_cons, sapp_nil_l, sapp_cons. cbn [sh_lex]. rewrite Ha.
    apply Ascii.eqb_neq in Hq. rewrite Hq, IH. cbn [fmap option_fmap option_map].
    by rewrite extend_app.
Qed.

(** The shell reads a quoted value back as the value, whatever it holds. *)
Lemma reads_quoted v : has_nul v = false → reads_as (shellQuote v) v.
Proof.
  intros Hn rest r Hr. unfold shellQuote. rewrite !sapp_assoc, sapp_cons, sapp_nil_l. cbn [sh_lex].
  change (Ascii.eqb squote NUL) with false. change (blank squote) with false.
  rewrite Ascii.eqb_refl. cbv iota. rewrite sapp_cons, sapp_nil_l, (single_quoted _ _ _ Hn Hr).
  cbn [fmap option_fmap option_map]. rewrite extend_app. done.
Qed.

Lemma plain_not_special a :
  plain_byte a = true →
  Ascii.eqb a NUL = false ∧ blank a = false ∧ Ascii.eqb a squote = false ∧ Ascii.eqb a dquote = false.
Proof. destruct a as [[] [] [] [] [] [] [] []]; vm_compute; intuition congruence. Qed.

(** A non-empty text of plain bytes reads as itself. *)
Lemma reads_plain v : v ≠ "" → all_bytes plain_byte v → reads_as v v.
Proof.
  intros Hne Hp. destruct v as [|a v]; [done|]. clear Hne. revert a Hp.
  assert (∀ a, plain_byte a = true → reads_as (String a "") (String a "")) as H1.
  { intros a Ha rest r Hr. destruct (plain_not_special a Ha) as (E1 & E2 & E3 & E4).
    rewrite sapp_cons, sapp_nil_l. cbn [sh_lex]. by rewrite E1, E2, E3, E4, Ha, Hr. }
  induction v as [|b v IH]; intros a [Ha Hv]%all_bytes_cons; [by apply H1|].
  exact (reads_as_app (String a "") _ (String a "") _ (H1 a Ha) (IH b Hv)).
Qed.

(** A command is the words its parts contribute. *)
Lemma sh_words_join ts vs :
  Forall2 reads_as ts vs → sh_words (words ts) = Some vs.
Proof.
  intros H.
  assert (match vs with
          | [] => sh_lex Plain (words ts) = Some (None, [])
          | v :: vs => sh_lex Plain (words ts) = Some (Some v, vs)
          end) as Hl.
  2:{ unfold sh_words. destruct vs; rewrite Hl; done. }
  induction H as [|t v ts vs Ht Hts IH]; [done|].
  destruct ts as [|t' ts].
  - inversion Hts; subst. pose proof (Ht "" (None, []) eq_refl) as E. rewrite sapp_nil_r in E.
    change (words [t]) with t. rewrite E. unfold extend. cbn. by rewrite sapp_nil_r.
  - destruct vs as [|v' vs]; [by inversion Hts|].
    change (words (t :: t' :: ts)) with (t +:+ String " " (words (t' :: ts))).
    rewrite (Ht _ (None, v' :: vs)); [unfold extend; cbn; by rewrite sapp_nil_r|].
    cbn [sh_lex]. change (Ascii.eqb " " NUL) with false. change (blank " ") with true. cbv iota.
    rewrite IH. done.
Qed.

(** ** Safe tokens *)

Definition token_byte (a : ascii) : bool := token_rune (byte_val a).

(** A text whose runes are all ASCII of a kind has only such bytes. *)
Lemma runes_all_bytes (p : Z → bool) s :
  (∀ r, p r = true → 0 ≤ r < 128) → forallb p (runes s) = true → all_bytes (λ a, p (byte_val a)) s.
Proof.
  intros Hp. induction s as [|s r s' E IH] using rune_ind; [intros _; apply all_bytes_nil|].
  rewrite (runes_decode1 _ _ _ E). cbn [forallb]. intros [Hr Hs]%andb_true_iff.
  destruct (decode1_inv _ _ _ E) as [_ [-> | ->]]; [apply Hp in Hr; unfold rune_error in Hr; lia|].
  rewrite all_bytes_app. split; [|by apply IH]. rewrite encode_ascii by by apply Hp.
  rewrite all_bytes_cons. split; [|apply all_bytes_nil]. rewrite byte_val_chr; [done|]. apply Hp in Hr. lia.
Qed.

Lemma token_rune_ascii r : token_rune r = true → 0 ≤ r < 128.
Proof.
  unfold token_rune. intros H. apply orb_true_iff in H as [H|H]; [lia|].
  apply existsb_exists in H as (c & Hc & ->%Z.eqb_eq). revert Hc. vm_compute. intuition; subst; vm_compute; intuition congruence.
Qed.

Lemma safe_token_bytes s : isSafeNetworkToken s = true → s ≠ "" ∧ all_bytes token_byte s.
Proof.
  unfold isSafeNetworkToken. intros H. split_bools. split; [by apply String.eqb_neq|].
  apply runes_all_bytes; [apply token_rune_ascii|done].
Qed.

Lemma token_byte_plain : ∀ a, token_byte a = true → plain_byte a = true.
Proof. intros [[] [] [] [] [] [] [] []]; vm_compute; congruence. Qed.

Lemma token_byte_ascii : ∀ a, token_byte a = true → ascii_byte a = true.
Proof. intros [[] [] [] [] [] [] [] []]; vm_compute; congruence. Qed.

(** Conversely, bytes decide it. *)
Lemma safe_token_intro s : s ≠ "" → all_bytes token_byte s → isSafeNetworkToken s = true.
Proof.
  intros Hne H. unfold isSafeNetworkToken. apply andb_true_iff. split; [by apply negb_true_iff, String.eqb_neq|].
  rewrite runes_ascii by by eapply all_bytes_impl; [apply token_byte_ascii|].
  apply forallb_forall. intros r Hr%list_elem_of_In. apply list_elem_of_fmap in Hr as (a & -> & Ha).
  unfold all_bytes in H. rewrite Forall_forall in H. by apply H.
Qed.

Lemma no_nul p s : p NUL = false → all_bytes p s → has_nul s = false.
Proof.
  intros Hp Hs. unfold has_nul. apply not_true_iff_false. rewrite contains_char_spec. by eapply all_bytes_not_in.
Qed.

Lemma token_no_nul s : isSafeNetworkToken s = true → has_nul s = false.
Proof. intros [_ H]%safe_token_bytes. by eapply no_nul; [|exact H]. Qed.

(** ** Printable text keeps its spelling under [strconv.Quote] *)

Definition quote_plain (a : ascii) : bool :=
  (32 <=? byte_val a) && (byte_val a <=? 126) && negb (Ascii.eqb a dquote) && negb (Ascii.eqb a bslash).

Lemma quote_fuel_plain is_print n s :
  (String.length s <= n)%nat → all_bytes quote_plain s → quote_fuel is_print n s = s.
Proof.
  revert s. induction n as [|n IH]; intros [|a s] Hl H; simpl in Hl; try done; [lia|].
  apply all_bytes_cons in H as [Ha H]. unfold quote_plain in Ha. split_bools.
  cbn [quote_fuel decode1]. replace (byte_val a <? 128) with true by lia.
  replace (byte_val a =? rune_error) with false by (unfold rune_error; lia). cbn [andb].
  unfold quote_rune. assert (∀ c, Ascii.eqb a c = false → (byte_val a =? byte_val c) = false) as Hne.
  { intros c Hc%Ascii.eqb_neq. apply Z.eqb_neq. by intros ?%byte_val_inj. }
  rewrite !Hne by done. cbn [orb]. bool_lia. cbn [andb].
  rewrite encode_ascii, byte_chr_val by (split; lia). rewrite IH by (done || lia). done.
Qed.

Lemma Quote_plain is_print s :
  all_bytes quote_plain s → Quote is_print s = String dquote "" +:+ s +:+ String dquote "".
Proof. intros H. unfold Quote. by rewrite quote_fuel_plain. Qed.
