(* ===== verification/NetHost.v ===== *)
(** * Hosts with ports: [net.SplitHostPort] and [netip.ParseAddrPort]

    The parts of Go's [net] and [net/netip] that read [host:port] texts. *)
From S2P Require Import Prelude GoStrings Strconv Netip.
From Stdlib Require Import Ascii.
From stdpp Require Import options.
Open Scope Z_scope.

(** [strings.Count] of one byte. *)
Definition count_char (c : ascii) (s : string) : nat := length (List.filter (Ascii.eqb c) (bytes s)).

(** The text between a leading "[" and its first "]", with what follows. *)
Definition bracketed (s : string) : option (string * string) :=
  match s with String a s => if Ascii.eqb a "[" then cut_char "]" s else None | EmptyString => None end.

(** [netip.splitAddrPort]: the address, the port and whether it was in brackets. *)
Definition splitAddrPort (s : string) : option (string * string * bool) :=
  match cut_last ":" s with
  | None => None
  | Some (ip, port) =>
      match ip, port with
      | EmptyString, _ | _, EmptyString => None
      | String a inner, _ =>
          if Ascii.eqb a "[" then
            match cut_last "]" inner with
            | Some (ip, EmptyString) => Some (ip, port, true)
            | _ => None
            end
          else Some (ip, port, false)
      end
  end.

(** [netip.ParseAddrPort]. *)
Definition ParseAddrPort (s : string) : option (addr * Z) :=
  '(ip, port, v6) ← splitAddrPort s;
  port ← parse_unsigned port;
  if 65535 <? port then None
  else
    ip ← ParseAddr ip;
    if (v6 && Is4 ip) || (negb v6 && Is6 ip) then None else Some (ip, port).

(** [net.SplitHostPort]; every error is [None]. *)
Definition SplitHostPort (hostport : string) : option (string * string) :=
  match cut_last ":" hostport with
  | None => None
  | Some (before, port) =>
      match hostport with
      | String "["%char inner =>
          match cut_char "]" inner with
          | Some (host, String ":"%char port') =>
              if contains_char ":" port' then None
              else if contains_char "[" host || contains_char "[" port' || contains_char "]" port' then None
              else Some (host, port')
          | _ => None
          end
      | _ =>
          if contains_char ":" before then None
          else if contains_char "[" hostport || contains_char "]" hostport then None
          else Some (before, port)
      end
  end.

Example SplitHostPort_v6 : SplitHostPort "[::1]:80" = Some ("::1", "80").
Proof. reflexivity. Qed.
Example SplitHostPort_many : SplitHostPort "::1:80" = None.
Proof. reflexivity. Qed.
Example ParseAddrPort_v4 : ParseAddrPort "10.0.0.1:443" = Some (V4 167772161, 443).
Proof. reflexivity. Qed.
Example ParseAddrPort_bare_v6 : ParseAddrPort "::1:443" = None.
Proof. reflexivity. Qed.
