(* ===== verification/AgentPaths.v ===== *)
(** * The agent's file policy: which files and units a job may touch

    The pure half of [cmd/agent/instance_render.go] and
    [cmd/agent/instance_runtime.go]: cleaning a path, the roots and units of a
    service, and what a managed systemd unit file may contain.  Every write and
    removal of an instance job goes through these predicates. *)
From stdpp Require Import gmap.
From S2P Require Import Prelude GoStrings Strconv GoValue Driver Firewall.
From Stdlib Require Import Ascii.
From stdpp Require Import options.
Open Scope Z_scope.

(** ** Payload of an instance job *)

Record instanceJobPayload := {
  InstanceID : string; Action : string; ServiceCode : string; RuntimeServiceCode : string; pl_Name : string;
  Slug : string; SystemdUnit : string; EndpointHost : string; EndpointPort : Z; Enabled : bool; Spec : gomap }.

Record managedFileSpec := { file_Path : string; file_Content : string; file_Mode : string }.

(** ** Go's path functions *)

(** [filepath.IsAbs] *)
Definition is_abs (path : string) : bool := has_prefix "/" path.

(** [filepath.Clean] of an absolute path: [stack] has the elements so far, last first. *)
Fixpoint clean_parts (stack : list string) (parts : list string) : list string :=
  match parts with
  | [] => rev stack
  | p :: parts =>
      if (p =s "") || (p =s ".") then clean_parts stack parts
      else if p =s ".." then clean_parts (tail stack) parts
      else clean_parts (p :: stack) parts
  end.
Definition path_parts (path : string) : list string := clean_parts [] (split_char "/" path).
Definition abs_path (parts : list string) : string := "/" +:+ join "/" parts.
Definition clean (path : string) : string := abs_path (path_parts path).

Example clean_dots : clean "//etc/./megavpn/../x//y/" = "/etc/x/y".
Proof. reflexivity. Qed.
Example clean_root : clean "/../.." = "/".
Proof. reflexivity. Qed.

(** [filepath.Dir] and [filepath.Base] of a cleaned absolute path. *)
Definition path_dir (path : string) : string :=
  match cut_last "/" path with
  | Some (EmptyString, _) | None => "/"
  | Some (dir, _) => dir
  end.
Definition path_base (path : string) : string :=
  match cut_last "/" path with
  | Some (_, EmptyString) => "/"
  | Some (_, base) => base
  | None => path
  end.

(** [strings.TrimSuffix] and [strings.TrimPrefix]. *)
Definition trim_suffix (e s : string) : string :=
  if has_suffix e s then take_bytes (String.length s - String.length e) s else s.
Definition trim_prefix (p s : string) : string := default s (strip_prefix p s).

(** [strings.TrimRight(s, "/")] *)
Definition trim_slashes (s : string) : string := trim_right_set (Ascii.eqb "/") s.

(** [strings.Fields]. *)
Fixpoint cut_word (n : nat) (s : string) : string * string :=
  match n with
  | O => ("", s)
  | S n =>
      match decode1 s with
      | None => ("", "")
      | Some (r, s') =>
          if is_space r then ("", s)
          else let '(w, rest) := cut_word n s' in
               (take_bytes (String.length s - String.length s') s +:+ w, rest)
      end
  end.
Fixpoint fields_fuel (n : nat) (s : string) : list string :=
  match n with
  | O => []
  | S n =>
      let s := trim_left s in
      match s with
      | EmptyString => []
      | String _ _ => let '(w, rest) := cut_word (String.length s) s in w :: fields_fuel n rest
      end
  end.
Definition fields (s : string) : list string := fields_fuel (S (String.length s)) s.

Example fields_some : fields "  /usr/bin/env  xray	run " = ["/usr/bin/env"; "xray"; "run"].
Proof. reflexivity. Qed.

(** [unicode.IsControl] *)
Definition is_control (r : Z) : bool := ((0 <=? r) && (r <? 32)) || ((127 <=? r) && (r <? 160)).

(** ** Paths *)

Definition NUL_text : string := String "000" "".

Definition cleanAbsPath (path : string) : string :=
  let path := trim_space path in
  if (path =s "") || contains_sub NUL_text path || negb (is_abs path) then "" else clean path.

Definition hasUnsafePathToken (path : string) : bool :=
  contains_sub "/../" path || has_suffix "/.." path
  || existsb (λ r, (r =? 0) || is_control r || is_space r) (runes path).

Definition pathWithinRoot (path root : string) : bool :=
  let path := cleanAbsPath path in
  let root := cleanAbsPath root in
  if (path =s "") || (root =s "") then false
  else (path =s root) || has_prefix (trim_slashes root +:+ "/") path.

Definition parse_octal_digit (c : ascii) : option Z :=
  let z := byte_val c - 48 in if (0 <=? z) && (z <? 8) then Some z else None.
Fixpoint parse_octal (acc : Z) (s : string) : option Z :=
  match s with
  | EmptyString => Some acc
  | String c s =>
      match parse_octal_digit c with
      | Some d => if acc * 8 + d <? two32 then parse_octal (acc * 8 + d) s else None
      | None => None
      end
  end.

(** The bits of the mode, or no mode for a text [strconv.ParseUint] rejects. *)
Definition parseFileMode (raw : string) : option Z :=
  let raw := trim_space raw in if raw =s "" then Some 416 else parse_octal 0 raw.

Example mode_640 : parseFileMode "0640" = Some 416 ∧ parseFileMode "" = Some 416 ∧ parseFileMode "8" = None.
Proof. repeat split. Qed.

(** ** Roots and units of a service *)

Definition allowedInstancePathRoots (payload : instanceJobPayload) : list string :=
  let code := NormalizeCode (ServiceCode payload) in
  if one_of code [XrayCore; MTProto] then ["/usr/local/etc/xray"; "/etc/megavpn/certs"]
  else if code =s OpenVPN then ["/etc/openvpn/server"; "/etc/megavpn/certs"]
  else if code =s WireGuard then ["/etc/wireguard"]
  else if code =s IPSec then ["/etc/megavpn/certs"]
  else if code =s XL2TPD then ["/etc/xl2tpd"]
  else if code =s HTTPProxy then ["/etc/squid"]
  else if code =s Shadowsocks then ["/etc/shadowsocks-libev"]
  else if code =s Nginx then ["/etc/nginx/conf.d"; "/etc/megavpn/certs"]
  else [].

Definition allowedInstanceExactPaths (payload : instanceJobPayload) : list string :=
  let code := NormalizeCode (ServiceCode payload) in
  if code =s IPSec then ["/etc/ipsec.conf"; "/etc/ipsec.secrets"]
  else if code =s XL2TPD then ["/etc/ppp/options.xl2tpd"; "/etc/ppp/chap-secrets"]
  else [].

Definition systemd_dir : string := "/etc/systemd/system/".

Definition isAllowedInstanceManagedPath (payload : instanceJobPayload) (path : string) : bool :=
  let path := cleanAbsPath path in
  if path =s "" then false
  else if has_prefix systemd_dir path then has_suffix ".service" path
  else existsb (pathWithinRoot path) (allowedInstancePathRoots payload)
       || existsb (λ allowed, path =s cleanAbsPath allowed) (allowedInstanceExactPaths payload).

Definition isSafeSystemdUnitToken (unit : string) : bool :=
  let unit := trim_space unit in
  if (unit =s "") || contains_sub "/" unit || contains_sub ".." unit then false
  else negb (existsb (λ r, is_control r || is_space r) (runes unit)).

Section units.
(** [fmt.Sprint] of the values [stringify] does not print itself. *)
Context (sprint : any → string).

Definition isAllowedInstanceUnit (payload : instanceJobPayload) (unit : string) : bool :=
  let unit := trim_suffix ".service" (trim_space unit) in
  if (unit =s "") || negb (isSafeSystemdUnitToken unit) then false
  else
    let serviceCode := NormalizeCode (ServiceCode payload) in
    let serviceCode := if serviceCode =s "" then NormalizeCode (RuntimeServiceCode payload) else serviceCode in
    if serviceCode =s WireGuard then
      let declared := trim_space (SystemdUnit payload) in
      let expectedIface := WireGuardInterfaceName (first [Slug payload; pl_Name payload; InstanceID payload; "wg0"]) in
      let expectedIface := if has_prefix "wg-quick@" declared
                           then WireGuardInterfaceName (trim_prefix "wg-quick@" declared) else expectedIface in
      let iface := stringify sprint (Spec payload !! "interface_name") in
      let expectedIface := if iface =s "" then expectedIface else WireGuardInterfaceName iface in
      unit =s "wg-quick@" +:+ expectedIface
    else
      let expected := trim_suffix ".service" (DefaultSystemdUnit serviceCode (Slug payload)) in
      negb (expected =s "") && (unit =s expected).

Definition isInstanceOwnedRuntimeUnit (payload : instanceJobPayload) (unit : string) : bool :=
  isAllowedInstanceUnit payload unit
  && one_of (NormalizeCode (ServiceCode payload)) [XrayCore; MTProto; HTTPProxy; Shadowsocks; OpenVPN; WireGuard].

Definition managedInstanceUnitFilePath (payload : instanceJobPayload) : string :=
  let unit := trim_space (SystemdUnit payload) in
  if (unit =s "") || negb (isAllowedInstanceUnit payload unit) then ""
  else if one_of (NormalizeCode (ServiceCode payload)) [XrayCore; MTProto; HTTPProxy; Shadowsocks]
  then systemd_dir +:+ trim_suffix ".service" unit +:+ ".service"
  else "".
End units.

Definition systemdArgsForOperation (operation unit : string) : option (list string) :=
  let unit := trim_space unit in
  if negb (isSafeSystemdUnitToken unit) then None
  else if operation =s OperationRestart then Some ["restart"; unit]
  else if operation =s OperationStart then Some ["start"; unit]
  else if operation =s OperationStop then Some ["stop"; unit]
  else if operation =s OperationEnable then Some ["enable"; "--now"; unit]
  else if operation =s OperationDisable then Some ["disable"; "--now"; unit]
  else None.

Definition legacyManagedDeletePaths (payload : instanceJobPayload) : list string :=
  if NormalizeCode (ServiceCode payload) =s WireGuard then
    let slug := trim_space (first [Slug payload; pl_Name payload; InstanceID payload]) in
    if slug =s "" then []
    else
      let legacyPath := cleanAbsPath ("/etc/wireguard/" +:+ slug +:+ ".conf") in
      let currentPath := cleanAbsPath (DefaultConfigPath WireGuard slug) in
      if (legacyPath =s "") || (legacyPath =s currentPath) then [] else [legacyPath]
  else [].

(** ** The content of a managed unit file *)

Definition containsShellCommandExecution (content : string) : bool :=
  let normalized := to_lower (replace_char "009" " " content) in
  existsb (λ token, contains_sub token normalized)
    ["/bin/sh"; "/bin/bash"; "/usr/bin/sh"; "/usr/bin/bash"; " sh -c "; " bash -c "; "env sh -c "; "env bash -c "].

Definition isAllowedExactExecFields (command : string) (pre pathRoots suf : list string) : bool :=
  let fs := fields command in
  if negb (length fs =? length pre + 1 + length suf)%nat then false
  else if negb (bool_decide (take (length pre) fs = pre)) then false
  else
    let quotes := String "039" (String dquote "") in
    let path := cleanAbsPath (trim_set quotes (nth (length pre) fs "")) in
    if (path =s "") || hasUnsafePathToken path then false
    else existsb (pathWithinRoot path) pathRoots && bool_decide (drop (length pre + 1) fs = suf).

(** The [Exec...] directives of a unit, in order of the lines; [None] when a line is refused. *)
Fixpoint exec_lines (lines : list string) (acc : gmap string (list string)) : option (gmap string (list string)) :=
  match lines with
  | [] => Some acc
  | line :: lines =>
      let line := trim_space line in
      if (line =s "") || has_prefix "#" line then exec_lines lines acc
      else if negb (has_prefix "Exec" line) then exec_lines lines acc
      else
        match cut_char "=" line with
        | None => None
        | Some (key, value) =>
            let key := trim_space key in
            let value := trim_space value in
            if (key =s "") || (value =s "") then None
            else exec_lines lines (<[key := default [] (acc !! key) ++ [value]]> acc)
        end
  end.

Definition onlyAllowedExecDirectives (execLines : gmap string (list string)) (allowed : list string) : bool :=
  forallb (λ kv, one_of kv.1 allowed && (length kv.2 <=? 1)%nat) (map_to_list execLines)
  && (0 <? size execLines)%nat.

(** [len(execLines[key]) == 1] and its value. *)
Definition single_exec (execLines : gmap string (list string)) (key : string) : option string :=
  match execLines !! key with Some [v] => Some v | _ => None end.

Definition exec_is (execLines : gmap string (list string)) (key : string) (pre pathRoots suf : list string) : bool :=
  match single_exec execLines key with
  | Some v => isAllowedExactExecFields v pre pathRoots suf
  | None => false
  end.

Definition isAllowedManagedServiceFile (payload : instanceJobPayload) (content : string) : bool :=
  if contains_sub NUL_text content || contains_sub (String bslash (String LF "")) content
     || containsShellCommandExecution content then false
  else match exec_lines (split_char LF content) ∅ with
  | None => false
  | Some execLines =>
      let code := NormalizeCode (ServiceCode payload) in
      if one_of code [XrayCore; MTProto] then
        onlyAllowedExecDirectives execLines ["ExecStart"]
        && exec_is execLines "ExecStart" ["/usr/bin/env"; "xray"; "run"; "-config"] ["/usr/local/etc/xray"] []
      else if code =s HTTPProxy then
        onlyAllowedExecDirectives execLines ["ExecStart"; "ExecReload"; "ExecStop"]
        && exec_is execLines "ExecStart" ["/usr/bin/env"; "squid"; "-f"] ["/etc/squid"] ["-N"]
        && exec_is execLines "ExecReload" ["/usr/bin/env"; "squid"; "-k"; "reconfigure"; "-f"] ["/etc/squid"] []
        && exec_is execLines "ExecStop" ["/usr/bin/env"; "squid"; "-k"; "shutdown"; "-f"] ["/etc/squid"] []
      else if code =s Shadowsocks then
        onlyAllowedExecDirectives execLines ["ExecStart"]
        && exec_is execLines "ExecStart" ["/usr/bin/env"; "ss-server"; "-c"] ["/etc/shadowsocks-libev"] []
      else false
  end.
