(* ===== verification/AgentPathsProps.v ===== *)
(** * The file policy: no path leaves its root, no unit runs another command *)
From stdpp Require Import gmap.
From S2P Require Import Prelude GoStrings Strconv GoValue Driver Firewall FirewallText AgentPaths.
From Stdlib Require Import Ascii.
From stdpp Require Import options.
Open Scope Z_scope.

(** ** Clean paths *)

(** An element of a path: neither empty nor a dot, and without a slash. *)
Definition plain_part (p : string) : Prop := p ≠ "" ∧ p ≠ "." ∧ p ≠ ".." ∧ "/"%char ∉ bytes p.

Lemma split_char_parts c s w : w ∈ split_char c s → c ∉ bytes w.
Proof.
  revert w. induction s as [|a s IH]; intros w; cbn [split_char].
  - intros ->%list_elem_of_singleton. apply not_elem_of_nil.
  - destruct (Ascii.eqb_spec a c) as [->|Hne].
    + intros [->|Hw]%elem_of_cons; [apply not_elem_of_nil|by apply IH].
    + destruct (split_char c s) as [|x xs] eqn:E; [by destruct (split_char_nonempty c s)|].
      intros [->|Hw]%elem_of_cons.
      * rewrite bytes_cons. apply not_elem_of_cons. split; [done|]. apply IH. by left.
      * apply IH. by right.
Qed.

Lemma clean_parts_plain stack parts :
  Forall plain_part stack → Forall (λ p, "/"%char ∉ bytes p) parts → Forall plain_part (clean_parts stack parts).
Proof.
  intros Hs Hp. revert stack Hs. induction Hp as [|p parts Hp Hparts IH]; intros stack Hs; cbn [clean_parts].
  - by apply Forall_rev.
  - destruct (String.eqb_spec p "") as [|H1]; [by apply IH|]. destruct (String.eqb_spec p ".") as [|H2]; [by apply IH|].
    destruct (String.eqb_spec p "..") as [|H3]; [apply IH; by destruct Hs|].
    apply IH. by constructor.
Qed.

Lemma path_parts_plain path : Forall plain_part (path_parts path).
Proof. apply clean_parts_plain; [constructor|]. apply Forall_forall. intros w. apply split_char_parts. Qed.

Lemma clean_parts_id stack parts : Forall plain_part parts → clean_parts stack parts = rev stack ++ parts.
Proof.
  intros H. revert stack. induction H as [|p parts (H1 & H2 & H3 & _) Hp IH]; intros stack; cbn [clean_parts].
  - by rewrite app_nil_r.
  - apply String.eqb_neq in H1, H2, H3. rewrite H1, H2, H3. cbn [orb]. rewrite IH. simpl. by rewrite <-app_assoc.
Qed.

Lemma path_parts_abs parts : Forall plain_part parts → path_parts (abs_path parts) = parts.
Proof.
  intros H. unfold path_parts, abs_path. change ("/" +:+ ?x) with (String "/" x).
  cbn [split_char]. rewrite Ascii.eqb_refl. cbn [clean_parts].
  destruct parts as [|p parts]; [done|]. change ("/"%char) with ("/"%char).
  change "/" with (String "/" "") at 1. rewrite split_join.
  - change ((?x =s "") || _) with (("" =s "") || ("" =s ".")). cbn [String.eqb orb]. by rewrite clean_parts_id.
  - done.
  - eapply Forall_impl; [exact H|]. by intros q (_ & _ & _ & ?).
Qed.

Lemma clean_idemp path : clean (clean path) = clean path.
Proof. unfold clean. by rewrite path_parts_abs by apply path_parts_plain. Qed.

Lemma abs_path_is_abs parts : is_abs (abs_path parts) = true.
Proof. done. Qed.

(** A path with no blank or control byte is not changed by trimming. *)
Lemma trim_of_safe_path path : hasUnsafePathToken path = false → trim_space path = path.
Proof.
  unfold hasUnsafePathToken. intros H. split_bools. apply trim_space_fix.
  rewrite existsb_false in *. unfold no_lead_space, no_trail_space.
  assert (∀ r, r ∈ runes path → is_space r = false) as Hs by (intros r Hr; specialize (H0 r Hr); by split_bools).
  split.
  - destruct (runes path) as [|r rs]; simpl; [done|]. apply Hs. by left.
  - destruct (last (runes path)) as [r|] eqn:E; simpl; [|done]. apply Hs. by apply last_Some_elem_of.
Qed.

Lemma strip_prefix_spec p s r : strip_prefix p s = Some r ↔ s = p +:+ r.
Proof.
  revert s. induction p as [|a p IH]; intros s; cbn [strip_prefix]; [rewrite sapp_nil_l; naive_solver|].
  rewrite sapp_cons. destruct s as [|b s]; [done|]. destruct (Ascii.eqb_spec a b) as [->|Hne].
  - rewrite IH. naive_solver.
  - naive_solver.
Qed.

Lemma has_prefix_spec p s : has_prefix p s = true ↔ ∃ r, s = p +:+ r.
Proof.
  unfold has_prefix. destruct (strip_prefix p s) as [r|] eqn:E.
  - apply strip_prefix_spec in E. naive_solver.
  - split; [done|]. intros [r Hr%strip_prefix_spec]. congruence.
Qed.

(** Cleaning brings no byte into a path but slashes. *)
Lemma split_char_sub c s w x : w ∈ split_char c s → x ∈ bytes w → x ∈ bytes s.
Proof.
  revert w. induction s as [|a s IH]; intros w; cbn [split_char].
  - by intros ->%list_elem_of_singleton.
  - rewrite bytes_cons. destruct (Ascii.eqb a c).
    + intros [->|Hw]%elem_of_cons; [by intros ?%elem_of_nil|]. right. by eapply IH.
    + destruct (split_char c s) as [|y ys] eqn:E; [by destruct (split_char_nonempty c s)|].
      intros [->|Hw]%elem_of_cons.
      * rewrite bytes_cons. intros [->|Hx]%elem_of_cons; [by left|]. right. eapply (IH y); [by left|done].
      * right. eapply (IH w); [by right|done].
Qed.

Lemma clean_parts_sub stack parts p : p ∈ clean_parts stack parts → p ∈ stack ∨ p ∈ parts.
Proof.
  revert stack. induction parts as [|q parts IH]; intros stack; cbn [clean_parts].
  - rewrite list_elem_of_In, <-in_rev, <-list_elem_of_In. auto.
  - destruct (_ || _); [intros [?|?]%IH; [by left|right; by right]|]. destruct (_ =s "..").
    + intros [H|?]%IH; [left; destruct stack; [done|by right]|right; by right].
    + intros [[->|?]%elem_of_cons|?]%IH; [right; by left|by left|right; by right].
Qed.

Lemma clean_byte c s : c ∈ bytes (clean s) → c = "/"%char ∨ c ∈ bytes s.
Proof.
  unfold clean, abs_path. rewrite bytes_app, elem_of_app. intros [H|H].
  - left. by apply list_elem_of_singleton in H.
  - apply join_byte in H as [H|(w & Hw & Hc)]; [left; by apply list_elem_of_singleton in H|].
    right. apply clean_parts_sub in Hw as [[]%elem_of_nil|Hw]. by eapply split_char_sub.
Qed.

Lemma contains_NUL s : contains_sub NUL_text s = true ↔ "000"%char ∈ bytes s.
Proof.
  induction s as [|a s IH]; [split; [done|by intros ?%elem_of_nil]|].
  cbn [contains_sub NUL_text strip_prefix]. rewrite bytes_cons, elem_of_cons.
  destruct (Ascii.eqb_spec "000" a) as [<-|Hne]; [split; auto|]. rewrite IH. naive_solver.
Qed.

(** A cleaned path that is safe cleans to itself. *)
Lemma clean_fixed raw :
  let path := cleanAbsPath raw in
  path ≠ "" → hasUnsafePathToken path = false →
  cleanAbsPath path = path ∧ path = abs_path (path_parts path) ∧ Forall plain_part (path_parts path).
Proof.
  intros path Hne Hu.
  assert (path = clean (trim_space raw)) as Hc.
  { unfold path, cleanAbsPath in *. cbv zeta in *. by destruct (_ || _). }
  assert (clean path = path) as Hf by (rewrite Hc; apply clean_idemp).
  split; [|split; [by symmetry|apply path_parts_plain]].
  unfold cleanAbsPath. rewrite trim_of_safe_path by done. cbv zeta.
  assert (is_abs path = true) as -> by (rewrite Hc; done).
  assert (contains_sub NUL_text path = false) as ->.
  { apply not_true_iff_false. rewrite contains_NUL, Hc. intros [|Hn]%clean_byte; [done|].
    apply contains_NUL in Hn. revert Hne. unfold path, cleanAbsPath. cbv zeta. rewrite Hn.
    by rewrite orb_true_r. }
  apply String.eqb_neq in Hne. by rewrite Hne.
Qed.

(** A constant root, and what lies within it. *)
Lemma within_root path root :
  cleanAbsPath path = path → cleanAbsPath root = root → trim_slashes root = root →
  pathWithinRoot path root = true → path = root ∨ ∃ rest, path = root +:+ "/" +:+ rest.
Proof.
  intros Hp Hr Ht. unfold pathWithinRoot. rewrite Hp, Hr, Ht. destruct (_ || _); [done|].
  intros [->%String.eqb_eq|[rest ->]%has_prefix_spec]%orb_true_iff; [by left|].
  right. exists rest. by rewrite sapp_assoc.
Qed.

Lemma roots_are_clean payload root :
  root ∈ allowedInstancePathRoots payload → cleanAbsPath root = root ∧ trim_slashes root = root.
Proof.
  unfold allowedInstancePathRoots. repeat case_match; intros Hr; set_unfold; destruct_or?; try done; subst; done.
Qed.

Lemma exact_paths_are_clean payload p : p ∈ allowedInstanceExactPaths payload → cleanAbsPath p = p.
Proof.
  unfold allowedInstanceExactPaths. repeat case_match; intros Hr; set_unfold; destruct_or?; try done; subst; done.
Qed.

(** An absolute path of plain names, in a root of the service, one of its exact
    files, or a [.service] file of the systemd directory. *)
Definition confined (payload : instanceJobPayload) (path : string) : Prop :=
  path = abs_path (path_parts path) ∧ Forall plain_part (path_parts path)
  ∧ ((∃ root, root ∈ allowedInstancePathRoots payload ∧ (path = root ∨ ∃ rest, path = root +:+ "/" +:+ rest))
     ∨ path ∈ allowedInstanceExactPaths payload
     ∨ (∃ name, path = systemd_dir +:+ name) ∧ has_suffix ".service" path = true).

Lemma allowed_confined (payload : instanceJobPayload) (raw : string) :
  let path := cleanAbsPath raw in
  path ≠ "" → hasUnsafePathToken path = false → isAllowedInstanceManagedPath payload path = true → confined payload path.
Proof.
  intros path Hne Hu. destruct (clean_fixed raw Hne Hu) as (Hf & Ha & Hp). fold path in Hf, Ha, Hp.
  unfold isAllowedInstanceManagedPath. rewrite Hf. intros H. split; [done|]. split; [done|].
  apply String.eqb_neq in Hne. rewrite Hne in H.
  destruct (has_prefix systemd_dir path) eqn:Es.
  - right; right. apply has_prefix_spec in Es. done.
  - apply orb_true_iff in H as [H|H]; apply existsb_exists in H as (x & Hx%list_elem_of_In & H).
    + left. exists x. split; [done|]. destruct (roots_are_clean payload x Hx). by apply within_root.
    + right; left. apply String.eqb_eq in H. rewrite (exact_paths_are_clean payload x Hx) in H. by subst x.
Qed.


(** ** Managed unit files *)

(** The commands a unit of a service may run: directive, words before the
    configuration path, roots of that path, words after it. *)
Definition exec_specs (payload : instanceJobPayload) : list (string * list string * list string * list string) :=
  let code := NormalizeCode (ServiceCode payload) in
  if one_of code [XrayCore; MTProto] then
    [("ExecStart", ["/usr/bin/env"; "xray"; "run"; "-config"], ["/usr/local/etc/xray"], [])]
  else if code =s HTTPProxy then
    [("ExecStart", ["/usr/bin/env"; "squid"; "-f"], ["/etc/squid"], ["-N"]);
     ("ExecReload", ["/usr/bin/env"; "squid"; "-k"; "reconfigure"; "-f"], ["/etc/squid"], []);
     ("ExecStop", ["/usr/bin/env"; "squid"; "-k"; "shutdown"; "-f"], ["/etc/squid"], [])]
  else if code =s Shadowsocks then
    [("ExecStart", ["/usr/bin/env"; "ss-server"; "-c"], ["/etc/shadowsocks-libev"], [])]
  else [].

(** The words of [command] are those of the specification around one path below its root. *)
Definition runs_spec (pre roots suf : list string) (command : string) : Prop :=
  ∃ arg, fields command = pre ++ [arg] ++ suf
    ∧ let path := cleanAbsPath (trim_set (String "039" (String dquote "")) arg) in
      path ≠ "" ∧ hasUnsafePathToken path = false ∧ ∃ root, root ∈ roots ∧ pathWithinRoot path root = true.

Lemma exact_exec_spec command pre roots suf :
  isAllowedExactExecFields command pre roots suf = true → runs_spec pre roots suf command.
Proof.
  unfold isAllowedExactExecFields. set (fs := fields command).
  destruct (Nat.eqb_spec (length fs) (length pre + 1 + length suf)) as [El|]; [|done]. cbn [negb].
  case_bool_decide as Epre; [|done]. cbn [negb]. cbv zeta.
  destruct (_ || hasUnsafePathToken _) eqn:E; [done|]. intros [Hr Hs%bool_decide_eq_true]%andb_true_iff.
  apply orb_false_iff in E as [E1%String.eqb_neq E2]. apply existsb_exists in Hr as (root & Hroot%list_elem_of_In & Hin).
  assert (∃ x, drop (length pre) fs = x :: suf ∧ nth (length pre) fs "" = x) as (x & Ed & En).
  { destruct (drop (length pre) fs) as [|x xs] eqn:Ed.
    - apply (f_equal length) in Ed. rewrite length_drop in Ed. simpl in Ed. lia.
    - exists x. rewrite <-drop_drop, Ed in Hs. simpl in Hs. split; [by rewrite <-Hs|].
      rewrite nth_lookup, <-(Nat.add_0_r (length pre)), <-lookup_drop, Ed. done. }
  rewrite En in *. exists x. split; [|split; [done|split; [done|by exists root]]].
  change (fields command) with fs. rewrite <-(take_drop (length pre) fs), Epre, Ed. done.
Qed.

(** The directives collected from the lines are exactly those of the [Exec] lines. *)
Definition exec_line (line : string) : bool := has_prefix "Exec" (trim_space line).

Lemma exec_lines_collects lines acc m :
  exec_lines lines acc = Some m →
  (∀ k v, v ∈ default [] (acc !! k) → v ∈ default [] (m !! k))
  ∧ ∀ line, line ∈ lines → exec_line line = true →
      ∃ k v, cut_char "=" (trim_space line) = Some (k, v) ∧ trim_space v ∈ default [] (m !! trim_space k).
Proof.
  revert acc. induction lines as [|line lines IH]; intros acc H; cbn [exec_lines] in H.
  { injection H as <-. split; [done|]. by intros ? ?%elem_of_nil. }
  destruct (_ || has_prefix "#" _) eqn:Ec.
  { destruct (IH _ H) as [Ha Hl]. split; [done|]. intros l [->|Hin]%elem_of_cons Hx; [|by apply Hl]. exfalso.
    unfold exec_line in Hx. apply has_prefix_spec in Hx as [r Hx]. rewrite Hx in Ec. done. }
  destruct (has_prefix "Exec" (trim_space line)) eqn:Ex; cbn [negb] in H.
  2:{ destruct (IH _ H) as [Ha Hl]. split; [done|]. intros l [->|Hin]%elem_of_cons Hx; [|by apply Hl].
      unfold exec_line in Hx. congruence. }
  destruct (cut_char "=" (trim_space line)) as [[k v]|] eqn:Ecut; [|done].
  destruct (_ || _) in H; [done|]. destruct (IH _ H) as [Ha Hl].
  assert (∀ k' v', v' ∈ default [] (acc !! k') ∨ (k' = trim_space k ∧ v' = trim_space v) → v' ∈ default [] (m !! k')) as Hm.
  { intros k' v' Hv. apply Ha. destruct (decide (k' = trim_space k)) as [->|Hk].
    - rewrite lookup_insert. destruct (decide _); [|done]. simpl. rewrite elem_of_app, list_elem_of_singleton. naive_solver.
    - rewrite lookup_insert_ne by done. naive_solver. }
  split; [intros; apply Hm; by left|]. intros l [->|Hin]%elem_of_cons Hx; [|by apply Hl].
  exists k, v. split; [done|]. apply Hm. by right.
Qed.

(** With at most one value per directive, the checked one is the only one. *)
Lemma only_directives m allowed key v :
  onlyAllowedExecDirectives m allowed = true → v ∈ default [] (m !! key) → key ∈ allowed ∧ m !! key = Some [v].
Proof.
  unfold onlyAllowedExecDirectives. intros [H _]%andb_true_iff Hv.
  destruct (m !! key) as [vs|] eqn:E; simpl in Hv; [|by apply elem_of_nil in Hv].
  rewrite forallb_forall in H. specialize (H (key, vs)).
  rewrite <-list_elem_of_In, elem_of_map_to_list in H. specialize (H E). simpl in H. split_bools.
  split; [by apply one_of_spec|].
  destruct vs as [|w [|? ?]]; [by apply elem_of_nil in Hv| |done]. by apply list_elem_of_singleton in Hv as ->.
Qed.

Lemma exec_is_spec m key v pre roots suf :
  m !! key = Some [v] → exec_is m key pre roots suf = true → runs_spec pre roots suf v.
Proof. unfold exec_is, single_exec. intros ->. apply exact_exec_spec. Qed.


(** ** Samples *)

Definition sample_payload (code slug unit : string) : instanceJobPayload :=
  {| InstanceID := "i1"; Action := "apply"; ServiceCode := code; RuntimeServiceCode := code; pl_Name := slug;
     Slug := slug; SystemdUnit := unit; EndpointHost := ""; EndpointPort := 0; Enabled := true; Spec := ∅ |}.


Definition sample_unit : string :=
  join (String LF "")
    ["[Service]"; "Environment=PATH=/usr/local/etc/xray";
     " ExecStart = /usr/bin/env xray run -config '/usr/local/etc/xray/office.json'"; ""].


(** ** Findings *)

(** Only the [Exec] lines are checked, and the program is looked up by
    [/usr/bin/env]: a unit may set PATH to a root its files may be written to, so
    an executable of that name there is what runs. *)
Lemma unit_may_choose_its_program :
  let payload := sample_payload "xray-core" "office" "" in
  isAllowedManagedServiceFile payload sample_unit = true
  ∧ contains_sub "Environment=PATH=/usr/local/etc/xray" sample_unit = true
  ∧ isAllowedInstanceManagedPath payload "/usr/local/etc/xray/xray" = true
  ∧ parseFileMode "0755" = Some 493.
Proof. vm_compute. repeat split. Qed.

(** The unit a WireGuard instance may control is derived from the unit its own
    payload declares, so any [wg-quick] unit passes, whatever the instance. *)
Lemma wireguard_unit_is_its_own_policy :
  isAllowedInstanceUnit (λ _, "") (sample_payload "wireguard" "office" "wg-quick@backhaul7") "wg-quick@backhaul7" = true.
Proof. vm_compute. reflexivity. Qed.
