(* ===== verification/AgentHost.v ===== *)
(** * The host as the agent sees it: commands and files

    The agent changes its host through commands ([runInstallCommand],
    [runOutput]) and through the file system calls of [writeManagedFile] and
    [removeManagedPath].  The host is a state [H] with one operation per call;
    everything is stated for every such host, and [traced] adds a log of the
    calls to one.  The helpers of [cmd/agent/instance_render.go], [system.go] and
    [backhaul.go] that wrap these calls are below. *)
From stdpp Require Import gmap.
From S2P Require Import Prelude GoStrings Strconv GoValue Netip Firewall FirewallAgent Shell AgentPaths.
From Stdlib Require Import Ascii.
From stdpp Require Import options.
Open Scope Z_scope.

(** ** System calls *)

(** An error and whether [os.IsNotExist] holds of it. *)
Inductive io_error :=
| NotExist (text : string)
| IOError (text : string).

Definition error_text (e : io_error) : string := match e with NotExist t | IOError t => t end.
Definition isNotExist (e : io_error) : bool := match e with NotExist _ => true | IOError _ => false end.

(** What [os.Lstat] tells of a file. *)
Record file_info := { is_symlink : bool; is_dir : bool; perm : Z }.

Notation io A := (result io_error A).

Record host_sys (H : Type) := {
  (** exit code and combined output of a command *)
  sys_run : list string → hostM H (Z * string);
  (** standard output of a command, empty when it fails *)
  sys_output : list string → hostM H string;
  sys_lstat : string → hostM H (io file_info);
  sys_read : string → hostM H (io string);
  sys_mkdir_all : string → Z → hostM H (io ());
  (** the name of the new file *)
  sys_create_temp : string → string → hostM H (io string);
  sys_fchmod : string → Z → hostM H (io ());
  sys_write : string → string → hostM H (io ());
  sys_close : string → hostM H (io ());
  sys_chmod : string → Z → hostM H (io ());
  sys_rename : string → string → hostM H (io ());
  sys_remove : string → hostM H (io ());
  sys_remove_all : string → hostM H (io ());
  (** the current time, formatted *)
  sys_now : hostM H string }.
Arguments sys_run {H} _ _ _.
Arguments sys_output {H} _ _ _.
Arguments sys_lstat {H} _ _ _.
Arguments sys_read {H} _ _ _.
Arguments sys_mkdir_all {H} _ _ _ _.
Arguments sys_create_temp {H} _ _ _ _.
Arguments sys_fchmod {H} _ _ _ _.
Arguments sys_write {H} _ _ _ _.
Arguments sys_close {H} _ _ _.
Arguments sys_chmod {H} _ _ _ _.
Arguments sys_rename {H} _ _ _ _.
Arguments sys_remove {H} _ _ _.
Arguments sys_remove_all {H} _ _ _.
Arguments sys_now {H} _ _.

(** ** A host with a log of the calls that can change it *)

Inductive sys_event :=
| Ran (args : list string)
| Queried (args : list string)
| MadeDirs (path : string)
| CreatedTemp (dir name : string)
| ChangedMode (path : string) (mode : Z)
| Wrote (path content : string)
| Renamed (from to : string)
| Removed (path : string)
| RemovedAll (path : string).

Definition logged {H A} (m : hostM H A) (f : A → list sys_event) : hostM (H * list sys_event) A :=
  λ '(h, log), let '(a, h) := m h in (a, (h, log ++ f a)).

Definition traced_sys {H} (s : host_sys H) : host_sys (H * list sys_event) :=
  {| sys_run := λ args, logged (sys_run s args) (λ _, [Ran args]);
     sys_output := λ args, logged (sys_output s args) (λ _, [Queried args]);
     sys_lstat := λ p, logged (sys_lstat s p) (λ _, []);
     sys_read := λ p, logged (sys_read s p) (λ _, []);
     sys_mkdir_all := λ p m, logged (sys_mkdir_all s p m) (λ _, [MadeDirs p]);
     sys_create_temp := λ d pat, logged (sys_create_temp s d pat)
       (λ r, match r with Ok name => [CreatedTemp d name] | Err _ => [] end);
     sys_fchmod := λ p m, logged (sys_fchmod s p m) (λ _, [ChangedMode p m]);
     sys_write := λ p c, logged (sys_write s p c) (λ _, [Wrote p c]);
     sys_close := λ p, logged (sys_close s p) (λ _, []);
     sys_chmod := λ p m, logged (sys_chmod s p m) (λ _, [ChangedMode p m]);
     sys_rename := λ p q, logged (sys_rename s p q) (λ _, [Renamed p q]);
     sys_remove := λ p, logged (sys_remove s p) (λ _, [Removed p]);
     sys_remove_all := λ p, logged (sys_remove_all s p) (λ _, [RemovedAll p]);
     sys_now := logged (sys_now s) (λ _, []) |}.

(** ** The wrappers *)

Section wrappers.
(** [strconv.IsPrint] beyond ASCII, for the [%q] of an error. *)
Context (is_print : Z → bool) {H : Type} (sys : host_sys H).
Notation hostM := (hostM H).

(** The loop over the parents of [path]: the first that is a symlink is refused,
    the first that does not exist ends it. *)
Fixpoint reject_parents (current : list string) (parts : list string) : hostM (io ()) :=
  match parts with
  | [] => mret (Ok ())
  | part :: parts =>
      let current := current ++ [part] in
      r ← sys_lstat sys (abs_path current);
      match r with
      | Err (NotExist _) => mret (Ok ())
      | Err e => mret (Err e)
      | Ok info =>
          if is_symlink info
          then mret (Err (IOError ("managed file parent must not be a symlink: " +:+ abs_path current)))
          else reject_parents current parts
      end
  end.

(** [path] is absolute here: every caller cleans it first. *)
Definition rejectSymlinkPath (path : string) : hostM (io ()) :=
  let path := clean path in
  if path =s "/" then mret (Err (IOError "managed file path must not be root"))
  else
    r ← reject_parents [] (path_parts (path_dir path));
    match r with
    | Err e => mret (Err e)
    | Ok _ =>
        r ← sys_lstat sys path;
        mret match r with
             | Ok info => if is_symlink info then Err (IOError ("managed file path must not be a symlink: " +:+ path)) else Ok ()
             | Err (NotExist _) => Ok ()
             | Err e => Err e
             end
    end.

(** Run [f] when the call succeeded. *)
Definition then_io {A B} (m : hostM (io A)) (f : A → hostM (io B)) : hostM (io B) :=
  r ← m; match r with Ok a => f a | Err e => mret (Err e) end.

(** [m], and then the deferred [os.Remove] of the temporary file. *)
Definition with_remove {A} (tmp : string) (m : hostM A) : hostM A :=
  a ← m; _ ← sys_remove sys tmp; mret a.

(** A failed step on the open temporary file closes it. *)
Definition or_close (tmp : string) (m : hostM (io ())) (k : hostM (io ())) : hostM (io ()) :=
  r ← m; match r with Ok _ => k | Err e => _ ← sys_close sys tmp; mret (Err e) end.

Definition temp_pattern (path : string) : string := "." +:+ path_base path +:+ ".*.megavpn.tmp".

Definition writeManagedFile (file : managedFileSpec) : hostM (io ()) :=
  let path := cleanAbsPath (file_Path file) in
  if path =s "" then mret (Err (IOError "managed file path is empty"))
  else if hasUnsafePathToken path
  then mret (Err (IOError ("managed file path contains unsafe characters: " +:+ file_Path file)))
  else
    match parseFileMode (file_Mode file) with
    | None => mret (Err (IOError ("invalid file mode " +:+ Quote is_print (trim_space (file_Mode file)))))
    | Some mode =>
        then_io (rejectSymlinkPath path) (λ _,
        then_io (sys_mkdir_all sys (path_dir path) 493) (λ _,
        then_io (rejectSymlinkPath path) (λ _,
        then_io (sys_create_temp sys (path_dir path) (temp_pattern path)) (λ tmp,
        with_remove tmp
          (or_close tmp (sys_fchmod sys tmp mode)
          (or_close tmp (sys_write sys tmp (file_Content file))
          (then_io (sys_close sys tmp) (λ _,
           then_io (sys_chmod sys tmp mode) (λ _,
           sys_rename sys tmp path)))))))))
    end.

(** Whether something was removed. *)
Definition removeManagedPath (path : string) (recursive : bool) : hostM (io bool) :=
  let path := cleanAbsPath path in
  if path =s "" then mret (Err (IOError "managed path must be absolute"))
  else
    r ← rejectSymlinkPath path;
    match r with
    | Err e => mret (if isNotExist e then Ok false else Err e)
    | Ok _ =>
        r ← sys_lstat sys path;
        match r with
        | Err e => mret (if isNotExist e then Ok false else Err e)
        | Ok _ =>
            r ← (if recursive then sys_remove_all sys path else sys_remove sys path);
            mret match r with Ok _ => Ok true | Err e => Err e end
        end
    end.

End wrappers.

(** ** The operations of a job handler

    What the handlers call: commands, managed files, queries and the clock. *)
Record agent_ops (H : Type) := {
  op_run : list string → hostM H (Z * string);
  op_output : list string → hostM H string;
  op_write : managedFileSpec → hostM H (io ());
  op_remove : string → bool → hostM H (io bool);
  op_lstat : string → hostM H (io file_info);
  op_read : string → hostM H (io string);
  op_now : hostM H string }.
Arguments op_run {H} _ _ _.
Arguments op_output {H} _ _ _.
Arguments op_write {H} _ _ _.
Arguments op_remove {H} _ _ _ _.
Arguments op_lstat {H} _ _ _.
Arguments op_read {H} _ _ _.
Arguments op_now {H} _ _.

(** The agent's own: the wrappers over the system calls. *)
Definition sys_ops (is_print : Z → bool) {H} (sys : host_sys H) : agent_ops H :=
  {| op_run := sys_run sys; op_output := sys_output sys; op_write := writeManagedFile is_print sys;
     op_remove := removeManagedPath sys; op_lstat := sys_lstat sys; op_read := sys_read sys; op_now := sys_now sys |}.

Inductive op_event :=
| OpRan (args : list string)
| OpQueried (args : list string)
| OpWrote (file : managedFileSpec) (done : bool)
| OpRemoved (path : string) (recursive : bool).

Definition logged_op {H A} (m : hostM H A) (f : A → op_event) : hostM (H * list op_event) A :=
  λ '(h, log), let '(a, h) := m h in (a, (h, log ++ [f a])).
Definition unlogged_op {H A} (m : hostM H A) : hostM (H * list op_event) A :=
  λ '(h, log), let '(a, h) := m h in (a, (h, log)).

Definition traced_ops {H} (o : agent_ops H) : agent_ops (H * list op_event) :=
  {| op_run := λ args, logged_op (op_run o args) (λ _, OpRan args);
     op_output := λ args, logged_op (op_output o args) (λ _, OpQueried args);
     op_write := λ f, logged_op (op_write o f) (λ r, OpWrote f (is_ok r));
     op_remove := λ p rec, logged_op (op_remove o p rec) (λ _, OpRemoved p rec);
     op_lstat := λ p, unlogged_op (op_lstat o p);
     op_read := λ p, unlogged_op (op_read o p);
     op_now := unlogged_op (op_now o) |}.

(** [m] extends the log, with events of [P] only. *)
Definition logs {H A} (P : op_event → Prop) (m : hostM (H * list op_event) A) : Prop :=
  ∀ h log, ∃ a h' new, m (h, log) = (a, (h', log ++ new)) ∧ Forall P new.

Lemma logs_mret {H A} P (a : A) : logs P (mret a : hostM (H * list op_event) A).
Proof. intros h log. exists a, h, []. by rewrite app_nil_r. Qed.

Lemma logs_mbind {H A B} P (m : hostM (H * list op_event) A) (f : A → hostM (H * list op_event) B) :
  logs P m → (∀ a, logs P (f a)) → logs P (m ≫= f).
Proof.
  intros Hm Hf h log. destruct (Hm h log) as (a & h1 & n1 & E1 & H1).
  destruct (Hf a h1 (log ++ n1)) as (b & h2 & n2 & E2 & H2). exists b, h2, (n1 ++ n2).
  unfold mbind, hostM_bind. rewrite E1, E2, <-(assoc_L (++)). by rewrite Forall_app.
Qed.

Lemma logs_impl {H A} (P Q : op_event → Prop) (m : hostM (H * list op_event) A) :
  (∀ e, P e → Q e) → logs P m → logs Q m.
Proof.
  intros Hi Hm h log. destruct (Hm h log) as (a & h' & n & E & Hn). exists a, h', n.
  split; [done|by eapply Forall_impl].
Qed.

Lemma logs_logged {H A} P (m : hostM H A) f : (∀ a, P (f a)) → logs P (logged_op m f).
Proof.
  intros HP h log. unfold logged_op. destruct (m h) as [a h'] eqn:E. exists a, h', [f a].
  by rewrite Forall_singleton.
Qed.

Lemma logs_unlogged {H A} P (m : hostM H A) : logs P (unlogged_op m).
Proof.
  intros h log. unfold unlogged_op. destruct (m h) as [a h'] eqn:E. exists a, h', [].
  by rewrite app_nil_r.
Qed.

Section op_logs.
Context {H : Type} (o : agent_ops H) (P : op_event → Prop).
Lemma logs_run_op args : P (OpRan args) → logs P (op_run (traced_ops o) args).
Proof. intros. by apply logs_logged. Qed.
Lemma logs_output args : P (OpQueried args) → logs P (op_output (traced_ops o) args).
Proof. intros. by apply logs_logged. Qed.
Lemma logs_write f : (∀ b, P (OpWrote f b)) → logs P (op_write (traced_ops o) f).
Proof. intros. by apply logs_logged. Qed.
Lemma logs_remove p rec : P (OpRemoved p rec) → logs P (op_remove (traced_ops o) p rec).
Proof. intros. by apply logs_logged. Qed.
Lemma logs_lstat p : logs P (op_lstat (traced_ops o) p).
Proof. apply logs_unlogged. Qed.
Lemma logs_read p : logs P (op_read (traced_ops o) p).
Proof. apply logs_unlogged. Qed.
Lemma logs_now : logs P (op_now (traced_ops o)).
Proof. apply logs_unlogged. Qed.
End op_logs.

(** Walk a computation: its binds, calls and branches; the goals left are [P] of
    the events. *)
Ltac walk_ops :=
  repeat match goal with
  | |- logs _ (mbind _ _) => apply logs_mbind
  | |- logs _ (mret _) => apply logs_mret
  | |- logs _ (op_run (traced_ops _) _) => apply logs_run_op
  | |- logs _ (op_output (traced_ops _) _) => apply logs_output
  | |- logs _ (op_write (traced_ops _) _) => apply logs_write; intros ?
  | |- logs _ (op_remove (traced_ops _) _ _) => apply logs_remove
  | |- logs _ (op_lstat (traced_ops _) _) => apply logs_lstat
  | |- logs _ (op_read (traced_ops _) _) => apply logs_read
  | |- logs _ (op_now (traced_ops _)) => apply logs_now
  | |- logs _ (let '(_, _) := ?x in _) => destruct x
  | |- logs _ (match ?x with _ => _ end) => destruct x eqn:?
  | |- ∀ _, _ => intros ?
  end.

(** The events of a computation started with an empty log. *)
Definition events_of {H A} (m : hostM (H * list op_event) A) (h : H) : list op_event := (m (h, [])).2.2.

Lemma events_of_logs {H A} P (m : hostM (H * list op_event) A) h : logs P m → Forall P (events_of m h).
Proof. intros Hm. unfold events_of. destruct (Hm h []) as (a & h' & n & E & Hn). by rewrite E. Qed.

(** ** Commands shared by the handlers *)

Definition commandExitError (pre output : string) : string :=
  let detail := firstLine output in if detail =s "" then pre else pre +:+ ": " +:+ detail.

(** The result and the error text, if any. *)
Definition runSystemdDaemonReload {H} (ops : agent_ops H) : hostM H (gomap * option string) :=
  '(code, out) ← op_run ops ["systemctl"; "daemon-reload"];
  let result : gomap := {[ "command" := AStrings ["systemctl"; "daemon-reload"]; "exit_code" := AInt code;
                           "output" := AString (truncate (trim_space out) 2000) ]} in
  mret (result, if code =? 0 then None else Some (commandExitError "systemctl daemon-reload failed" out)).

Definition isMissingSystemdUnitOutput (out : string) : bool :=
  let out := to_lower out in
  contains_sub "does not exist" out || contains_sub "not loaded" out || contains_sub "not-found" out
  || contains_sub "not found" out || contains_sub "could not be found" out || contains_sub "no such file" out.
