(* ===== verification/AgentHostProps.v ===== *)
(** * Managed files are replaced whole

    The system calls of [writeManagedFile] and [removeManagedPath]: a file is
    written under a temporary name beside its target, with its content and mode,
    and only then renamed over the target. *)
From stdpp Require Import gmap.
From S2P Require Import Prelude GoStrings Strconv GoValue Netip Firewall FirewallAgent Shell AgentPaths AgentHost.
From Stdlib Require Import Ascii.
From stdpp Require Import options.
Open Scope Z_scope.

Section calls.
Context (is_print : Z → bool) {H : Type} (sys : host_sys H).

Notation M A := (hostM (H * list sys_event) A).
Notation tsys := (traced_sys sys).

(** [m] logs [new] and gives a result of [Q]. *)
Definition steps {A} (m : M A) (log : list sys_event) (Q : A → list sys_event → Prop) : Prop :=
  ∀ h, ∃ a h' new, m (h, log) = (a, (h', log ++ new)) ∧ Q a new.

Lemma steps_ret {A} (a : A) log (Q : A → list sys_event → Prop) : Q a [] → steps (mret a) log Q.
Proof. intros HQ h. exists a, h, []. by rewrite app_nil_r. Qed.

Lemma steps_bind {A B} (m : M A) (f : A → M B) log (Q : A → list sys_event → Prop) (R : B → list sys_event → Prop) :
  steps m log Q → (∀ a new, Q a new → steps (f a) (log ++ new) (λ b new', R b (new ++ new'))) → steps (m ≫= f) log R.
Proof.
  intros Hm Hf h. destruct (Hm h) as (a & h1 & n1 & E1 & HQ). destruct (Hf a n1 HQ h1) as (b & h2 & n2 & E2 & HR).
  exists b, h2, (n1 ++ n2). unfold mbind, hostM_bind. rewrite E1, E2, <-(assoc_L (++)). done.
Qed.

Lemma steps_logged {A} (m : hostM H A) f log (Q : A → list sys_event → Prop) :
  (∀ a, Q a (f a)) → steps (logged m f) log Q.
Proof. intros HQ h. unfold logged. destruct (m h) as [a h'] eqn:E. by exists a, h', (f a). Qed.

Lemma steps_weaken {A} (m : M A) log (Q R : A → list sys_event → Prop) :
  (∀ a new, Q a new → R a new) → steps m log Q → steps m log R.
Proof. intros HQR Hm h. destruct (Hm h) as (a & h' & new & E & HQ). exists a, h', new. auto. Qed.

(** Looking at files logs nothing. *)
Lemma reject_parents_silent current parts log :
  steps (reject_parents tsys current parts) log (λ _ new, new = []).
Proof.
  revert current log. induction parts as [|p ps IH]; intros current log; cbn [reject_parents]; [by apply steps_ret|].
  eapply steps_bind; [by apply (steps_logged _ _ _ (λ _ new, new = []))|]. intros [info|[]] new ->; [|by apply steps_ret..].
  destruct (is_symlink info); [by apply steps_ret|]. apply IH.
Qed.

Lemma reject_symlink_silent path log : steps (rejectSymlinkPath tsys path) log (λ _ new, new = []).
Proof.
  unfold rejectSymlinkPath. cbv zeta. destruct (_ =s "/"); [by apply steps_ret|].
  eapply steps_bind; [apply reject_parents_silent|]. intros [[]|e] new ->; [|by apply steps_ret].
  eapply steps_bind; [by apply (steps_logged _ _ _ (λ _ new, new = []))|]. intros r new ->. by apply steps_ret.
Qed.

(** The calls on the temporary file and the rename, in order. *)
Definition body_events (tmp path content : string) (mode : Z) : list sys_event :=
  [ChangedMode tmp mode; Wrote tmp content; ChangedMode tmp mode; Renamed tmp path].

(** What a write may log, and when it may report success. *)
Definition write_log (file : managedFileSpec) (r : io ()) (new : list sys_event) : Prop :=
  let path := cleanAbsPath (file_Path file) in
  (is_ok r = false ∧ (new = [] ∨ new = [MadeDirs (path_dir path)]))
  ∨ ∃ tmp mode k,
      parseFileMode (file_Mode file) = Some mode
      ∧ new = [MadeDirs (path_dir path); CreatedTemp (path_dir path) tmp]
              ++ take k (body_events tmp path (file_Content file) mode) ++ [Removed tmp]
      ∧ (is_ok r = true → k = 4%nat).

Lemma body_steps tmp path content mode log :
  steps (or_close tsys tmp (sys_fchmod tsys tmp mode)
        (or_close tsys tmp (sys_write tsys tmp content)
        (then_io (sys_close tsys tmp) (λ _, then_io (sys_chmod tsys tmp mode) (λ _, sys_rename tsys tmp path)))))
    log (λ r new, ∃ k, new = take k (body_events tmp path content mode) ∧ (is_ok r = true → k = 4%nat)).
Proof.
  assert (∀ log e k, steps (_ ← sys_close tsys tmp; mret (Err e : io ())) log
            (λ r new, new = [] ∧ (is_ok r = true → k = 4%nat))) as Hclose.
  { intros log' e k. eapply steps_bind; [by apply (steps_logged _ _ _ (λ _ new, new = []))|].
    intros ? ? ->. by apply steps_ret. }
  unfold or_close, then_io.
  eapply steps_bind; [by apply (steps_logged _ _ _ (λ _ new, new = [ChangedMode tmp mode]))|].
  intros [[]|e] new ->; [|eapply steps_weaken; [|apply (Hclose _ e 1%nat)]; intros ? ? [-> ?]; by exists 1%nat].
  eapply steps_bind; [by apply (steps_logged _ _ _ (λ _ new, new = [Wrote tmp content]))|].
  intros [[]|e] new ->; [|eapply steps_weaken; [|apply (Hclose _ e 2%nat)]; intros ? ? [-> ?]; by exists 2%nat].
  eapply steps_bind; [by apply (steps_logged _ _ _ (λ _ new, new = []))|].
  intros [[]|e] new ->; [|apply steps_ret; by exists 2%nat].
  eapply steps_bind; [by apply (steps_logged _ _ _ (λ _ new, new = [ChangedMode tmp mode]))|].
  intros [[]|e] new ->; [|apply steps_ret; by exists 3%nat].
  apply steps_logged. intros r. by exists 4%nat.
Qed.

Lemma write_steps file log : steps (writeManagedFile is_print tsys file) log (write_log file).
Proof.
  unfold writeManagedFile. cbv zeta. set (path := cleanAbsPath (file_Path file)).
  assert (∀ e new, new = [] ∨ new = [MadeDirs (path_dir path)] → write_log file (Err e) new) as Hearly.
  { intros e new Hn. left. by split. }
  destruct (path =s ""); [apply steps_ret, Hearly; by left|].
  destruct (hasUnsafePathToken path); [apply steps_ret, Hearly; by left|].
  destruct (parseFileMode (file_Mode file)) as [mode|] eqn:Em; [|apply steps_ret, Hearly; by left].
  unfold then_io at 1. eapply steps_bind; [apply reject_symlink_silent|].
  intros [[]|e] new ->; [|apply steps_ret, Hearly; by left].
  unfold then_io at 1. eapply steps_bind; [by apply (steps_logged _ _ _ (λ _ new, new = [MadeDirs (path_dir path)]))|].
  intros [[]|e] new ->; [|apply steps_ret, Hearly; by right].
  unfold then_io at 1. eapply steps_bind; [apply reject_symlink_silent|].
  intros [[]|e] new ->; [|apply steps_ret, Hearly; by right].
  unfold then_io at 1. eapply steps_bind.
  { apply (steps_logged _ _ _ (λ r new, match r with Ok tmp => new = [CreatedTemp (path_dir path) tmp] | Err _ => new = [] end)).
    by intros [|]. }
  intros [tmp|e] new; intros ->; [|apply steps_ret, Hearly; by right].
  unfold with_remove. eapply steps_bind; [apply body_steps|]. intros r new (k & -> & Hk).
  eapply steps_bind; [by apply (steps_logged _ _ _ (λ _ new, new = [Removed tmp]))|]. intros ? ? ->.
  apply steps_ret. right. exists tmp, mode, k. split; [done|]. split; [|done]. simpl. by rewrite ?app_nil_r.
Qed.

(** A managed file is replaced as a whole or not at all.  Whatever the host
    answers, the only call of a write that concerns the target is a rename of a
    temporary file of the same directory over it, made after that file was given
    the whole content and the mode, and always followed by the removal of the
    temporary name; a write that reports success made every one of these calls. *)
Theorem managed_write_replaces (file : managedFileSpec) (h : H) :
  let r := writeManagedFile is_print (traced_sys sys) file (h, []) in write_log file r.1 r.2.2.
Proof.
  destruct (write_steps file [] h) as (r & h' & new & E & HQ). cbv zeta. rewrite E. exact HQ.
Qed.
End calls.
