(* ===== verification/RoutePolicy.v ===== *)
(** * Route policies of a node: rules, cleanup targets and scripts

    [cmd/agent/route_policy_enforcement.go].  The control plane sends the node
    its routes: client routes (which client may reach which destination over
    which egress) and system routes.  The agent turns the active ones into
    kernel rules (a packet mark, an [ip rule] for the mark, the routes of the
    table), computes which destinations to clear, and renders a shell script;
    a second renderer makes the script that removes everything. *)
From stdpp Require Import gmap.
From S2P Require Import Prelude GoStrings Strconv GoValue Netip NetHost Firewall FirewallText Shell.
From Stdlib Require Import Ascii.
From stdpp Require Import options.
Open Scope Z_scope.

(** ** Constants and data *)

Definition routePolicyScriptPath : string := "/usr/local/lib/megavpn/route-policy/client-access-routes.sh".
Definition routePolicyCleanupScriptPath : string := "/usr/local/lib/megavpn/route-policy/client-access-routes-cleanup.sh".
Definition routePolicyUnitName : string := "megavpn-route-policy.service".
Definition routePolicyUnitPath : string := "/etc/systemd/system/" +:+ routePolicyUnitName.
Definition routePolicyTimerName : string := "megavpn-route-policy.timer".
Definition routePolicyTimerPath : string := "/etc/systemd/system/" +:+ routePolicyTimerName.
Definition routePolicySystemPriority : Z := 21900.
Definition routePolicySystemPriorityTo : Z := 21949.
Definition routePolicyPriority : Z := 22000.
Definition routePolicyPriorityTo : Z := 22999.

Record routePolicyKernelCandidate := {
  cand_Dev : string; cand_Via : string; cand_Table : string; cand_Metric : Z; cand_Peer : string }.

Record routePolicyKernelRule := {
  RouteID : string; rp_Source : string; rp_Destination : string; rp_Protocol : string; rp_Ports : string;
  rp_Table : string; Candidates : list routePolicyKernelCandidate; Priority : Z; Mark : string;
  rp_Comment : string }.

Record routePolicyKernelPlan := {
  kernel_Script : string; RuleCount : Z; kernel_SystemRuleCount : Z; MarkedCount : Z; SkippedCount : Z;
  Reasons : list string }.

Record routePolicyCleanupSnapshot := { snap_Routes : list any; snap_SystemRoutes : list any }.

Record routePolicyCleanupTarget := { target_Destination : string; target_Table : string }.

(** The errors, which fail the job; a skipped route only gives a reason. *)
Inductive rp_error :=
| UnsafeSystemTable
| UnsafeTable
| UnsafeDev
| UnsafeNextHop
| UnsafePeer
| TooManySystemRules
| TooManyRules
| InvalidPortRange (part : string)
| RoutePortOutOfRange (raw : string).

Notation RP := (result rp_error).

(** What becomes of a route that is no error. *)
Inductive rule_outcome :=
| Made (rule : routePolicyKernelRule)
| Skipped (reason : string).

(** ** Values of the payload *)

(** [item.(map[string]any)], nil for anything else. *)
Definition as_map (item : any) : option gomap :=
  match item with AMap m => Some m | _ => None end.

Definition nestedMap (parent : gomap) (key : string) : gomap :=
  match parent !! key with Some (AMap child) => child | _ => ∅ end.

(** [m[key].([]any)] *)
Definition slice_at (m : gomap) (key : string) : option (list any) :=
  match m !! key with Some (ASlice l) => Some l | _ => None end.

(** The variadic [intFromAny]: the first value that is not zero. *)
Fixpoint intFromAnyOf (values : list (option any)) : Z :=
  match values with
  | [] => 0
  | v :: values => let z := intFromAny v in if z =? 0 then intFromAnyOf values else z
  end.

(** ** Normalised fields *)

Definition normalizeRoutePolicyIPPrefix (value : string) : string :=
  let value := trim_space value in
  if value =s "" then ""
  else
    let from_addr :=
      match ParseAddr value with
      | Some addr => if Is4 addr then addr_string addr +:+ "/32" else ""
      | None => ""
      end in
    match ParsePrefix value with
    | Some prefix => if Is4 (prefix_addr prefix) then prefix_string (Masked prefix) else from_addr
    | None => from_addr
    end.

Definition valid_port_text (port : string) : bool :=
  match atoi port with Some port => (1 <=? port) && (port <=? 65535) | None => false end.

Definition endpointHostLocal (destination : string) : string :=
  let host := trim_space destination in
  match ParseAddrPort host with
  | Some (addr, _) => addr_string addr
  | None =>
      let by_cut :=
        if (count_char ":" host =? 1)%nat then
          match cut_char ":" host with
          | Some (splitHost, splitPort) => if valid_port_text splitPort then trim_space splitHost else host
          | None => host
          end
        else host in
      match SplitHostPort host with
      | Some (splitHost, splitPort) => if valid_port_text splitPort then trim_set "[]" splitHost else by_cut
      | None => by_cut
      end
  end.

Definition normalizeRoutePolicyDestination (destinationType destination : string) : string :=
  let t := to_lower (trim_space destinationType) in
  if t =s "cidr" then normalizeRoutePolicyIPPrefix destination
  else if t =s "endpoint" then normalizeRoutePolicyIPPrefix (endpointHostLocal destination)
  else "".

Definition routePolicyPeerAddress (value : string) : string :=
  let value := trim_space value in
  if value =s "" then ""
  else
    let from_addr :=
      match ParseAddr value with
      | Some addr => if Is4 addr then addr_string addr else ""
      | None => ""
      end in
    match ParsePrefix value with
    | Some prefix => if Is4 (prefix_addr prefix) then addr_string (prefix_addr prefix) else from_addr
    | None => from_addr
    end.

Definition parseRoutePolicyPort (raw : string) : RP Z :=
  match atoi (trim_space raw) with
  | Some port => if (port <? 1) || (65535 <? port) then Err (RoutePortOutOfRange raw) else Ok port
  | None => Err (RoutePortOutOfRange raw)
  end.

(** The body of the loop over the parts: nothing for a blank part. *)
Definition route_port_part (part : string) : RP (option string) :=
  let part := trim_space part in
  if part =s "" then Ok None
  else match cut_char "-" part with
  | Some (lo, hi) =>
      from ← parseRoutePolicyPort lo;
      to ← parseRoutePolicyPort hi;
      if to <? from then Err (InvalidPortRange part) else Ok (Some (itoa from +:+ "-" +:+ itoa to))
  | None => port ← parseRoutePolicyPort part; Ok (Some (itoa port))
  end.

Fixpoint route_port_parts (parts : list string) : RP (list string) :=
  match parts with
  | [] => Ok []
  | part :: parts =>
      p ← route_port_part part;
      out ← route_port_parts parts;
      Ok (match p with Some p => p :: out | None => out end)
  end.

(** The set expression of a list of ports. *)
Definition port_set (out : list string) : string :=
  match out with
  | [] => ""
  | [p] => p
  | out => "{ " +:+ join ", " out +:+ " }"
  end.

Definition normalizeRoutePolicyPorts (raw : string) : RP string :=
  let raw := trim_space (to_lower raw) in
  if (raw =s "") || (raw =s "any") || (raw =s "*") then Ok ""
  else out ← route_port_parts (split_char "," raw); Ok (port_set out).

(** [fmt.Sprintf("0x%08x", n)] of a number below [2^32]. *)
Definition mark_text (n : Z) : string := "0x" +:+ hex_digits 8 n.

Section payload.
(** [fmt.Sprint] of the values [stringify] does not print itself. *)
Context (sprint : any → string).

Notation text m key := (stringify sprint (m !! key)).

(** ** Candidates *)

Definition routePolicyKernelCandidateFromMap (raw : option gomap) (table : string)
  : RP (option routePolicyKernelCandidate) :=
  match raw with
  | None => Ok None
  | Some raw =>
      let dev := trim_space (text raw "interface") in
      let dev := if dev =s "" then trim_space (text raw "dev") else dev in
      if dev =s "" then Ok None
      else if negb (isSafeNetworkToken dev) then Err UnsafeDev
      else
        let via := trim_space (first [text raw "next_hop"; text raw "via"]) in
        if negb (via =s "") && negb (isSafeNetworkToken via) then Err UnsafeNextHop
        else
          let metric := intFromAnyOf [raw !! "route_metric"; raw !! "metric"] in
          let metric := if metric <=? 0 then 50 else metric in
          let peer := routePolicyPeerAddress (first [text raw "peer"; text raw "peer_address"; text raw "egress_address"]) in
          if negb (peer =s "") && negb (isSafeNetworkToken peer) then Err UnsafePeer
          else Ok (Some {| cand_Dev := dev; cand_Via := via; cand_Table := table; cand_Metric := metric;
                           cand_Peer := peer |})
  end.

Fixpoint candidates_from_list (items : list any) (table : string) : RP (list routePolicyKernelCandidate) :=
  match items with
  | [] => Ok []
  | item :: items =>
      candidate ← routePolicyKernelCandidateFromMap (as_map item) table;
      candidates ← candidates_from_list items table;
      Ok (match candidate with Some c => c :: candidates | None => candidates end)
  end.

(** The single candidate of an egress without managed backhauls. *)
Definition egress_as_candidate (egress : gomap) : gomap :=
  <["interface" := default ANil (egress !! "interface")]>
  (<["next_hop" := default ANil (egress !! "next_hop")]>
  (<["route_metric" := default ANil (nestedMap egress "managed_backhaul" !! "route_metric")]>
  {[ "peer" := AString (first [text (nestedMap egress "managed_backhaul") "egress_address"; text egress "peer";
                               text egress "peer_address"]) ]})).

Definition routePolicyKernelCandidatesFromEgress (egress : gomap) (table : string)
  : RP (list routePolicyKernelCandidate) :=
  candidates ← (match slice_at egress "managed_backhauls" with
                | Some rawList => candidates_from_list rawList table
                | None => Ok []
                end);
  match candidates with
  | _ :: _ => Ok candidates
  | [] =>
      returned ← routePolicyKernelCandidateFromMap (Some (egress_as_candidate egress)) table;
      Ok (match returned with Some c => [c] | None => [] end)
  end.

(** ** Rules *)

Definition is_main (table : string) : bool := (table =s "") || equal_fold_ascii table "main".

Definition routePolicyKernelRuleFromSystemRoute (route : option gomap) (idx : Z) : RP rule_outcome :=
  match route with
  | None => Ok (Skipped "system route is empty")
  | Some route =>
      if negb (equal_fold_ascii (text route "status") "active") then Ok (Skipped "system route is not active")
      else
      let source := normalizeRoutePolicyIPPrefix (first [text route "source"; text route "source_address"]) in
      if source =s "" then Ok (Skipped "system route source is not an IPv4 address or prefix")
      else
      let destination := normalizeRoutePolicyIPPrefix (first [text route "destination"; "0.0.0.0/0"]) in
      if destination =s "" then Ok (Skipped "system route destination is not an IPv4 prefix")
      else
      let table := trim_space (text route "table") in
      if is_main table then Ok (Skipped "system route requires a non-main table")
      else if negb (isSafeNetworkToken table) then Err UnsafeSystemTable
      else
      candidates ← routePolicyKernelCandidatesFromEgress route table;
      match candidates with
      | [] => Ok (Skipped "system route requires a managed backhaul candidate or explicit interface")
      | _ :: _ =>
          let priority := routePolicySystemPriority + idx in
          if routePolicySystemPriorityTo <? priority then Err TooManySystemRules
          else Ok (Made {|
            RouteID := text route "system_route_id"; rp_Source := source; rp_Destination := destination;
            rp_Protocol := "any"; rp_Ports := ""; rp_Table := table; Candidates := candidates;
            Priority := priority; Mark := mark_text (1297416192 + idx + 1);
            rp_Comment := "megavpn:route-policy:system:"
              +:+ slugifyLocal (first [text route "system_route_id"; text route "kind"; itoa idx]) |})
      end
  end.

Definition route_protocol (route : gomap) : string :=
  let protocol := to_lower (trim_space (text route "protocol")) in
  if protocol =s "" then "any" else protocol.

Definition routePolicyKernelRuleFromRoute (route : gomap) (idx : Z) : RP rule_outcome :=
  if negb (equal_fold_ascii (text route "status") "active") || negb (equal_fold_ascii (text route "action") "allow")
  then Ok (Skipped "route is not an active allow policy")
  else
  let source := normalizeRoutePolicyIPPrefix (text (nestedMap route "source_identity") "value") in
  if source =s "" then Ok (Skipped "route source identity is not an IPv4 address or prefix")
  else
  let destination := normalizeRoutePolicyDestination (text route "destination_type") (text route "destination") in
  if destination =s "" then Ok (Skipped "route destination is not an IPv4 prefix or endpoint")
  else
  let egress := nestedMap route "egress" in
  if negb (equal_fold_ascii (text egress "status") "candidate") then Ok (Skipped "route egress output is not candidate")
  else
  let table := trim_space (text egress "table") in
  if is_main table then Ok (Skipped "route egress requires a non-main interface and table")
  else if negb (isSafeNetworkToken table) then Err UnsafeTable
  else
  candidates ← routePolicyKernelCandidatesFromEgress egress table;
  match candidates with
  | [] => Ok (Skipped "route egress requires a managed backhaul candidate or explicit interface")
  | _ :: _ =>
      let protocol := route_protocol route in
      if negb (one_of protocol ["any"; "tcp"; "udp"; "icmp"]) then Ok (Skipped "route protocol is not enforceable")
      else
      ports ← normalizeRoutePolicyPorts (text route "ports");
      if negb (ports =s "") && negb (protocol =s "tcp") && negb (protocol =s "udp")
      then Ok (Skipped "route ports require tcp or udp protocol")
      else
      let priority := routePolicyPriority + idx in
      if routePolicyPriorityTo <? priority then Err TooManyRules
      else Ok (Made {|
        RouteID := text route "route_id"; rp_Source := source; rp_Destination := destination;
        rp_Protocol := protocol; rp_Ports := ports; rp_Table := table; Candidates := candidates;
        Priority := priority; Mark := mark_text (1297481728 + idx + 1);
        rp_Comment := "megavpn:route-policy:"
          +:+ slugifyLocal (first [text route "route_id"; text route "client_id"; itoa idx]) |})
  end.

(** The state of the two loops: the rules made, the routes skipped, the reasons. *)
Record collected := { made : list routePolicyKernelRule; skipped : Z; reasons : list string }.

Definition collect_outcome (c : collected) (o : rule_outcome) : collected :=
  match o with
  | Made rule => {| made := made c ++ [rule]; skipped := skipped c; reasons := reasons c |}
  | Skipped reason =>
      {| made := made c; skipped := skipped c + 1;
         reasons := reasons c ++ (if reason =s "" then [] else [reason]) |}
  end.

(** A rule's index is the number of rules before it. *)
Definition next_index (c : collected) : Z := Z.of_nat (length (made c)).

Fixpoint collect_system (items : list any) (c : collected) : RP collected :=
  match items with
  | [] => Ok c
  | item :: items =>
      o ← routePolicyKernelRuleFromSystemRoute (as_map item) (next_index c);
      collect_system items (collect_outcome c o)
  end.

(** A client route the kernel enforces. *)
Definition enforced_route (item : any) : option gomap :=
  route ← as_map item;
  if text (nestedMap route "enforcement") "mode" =s "l3_l4_candidate" then Some route else None.

Fixpoint collect_routes (items : list any) (c : collected) : RP collected :=
  match items with
  | [] => Ok c
  | item :: items =>
      match enforced_route item with
      | None => collect_routes items c
      | Some route =>
          o ← routePolicyKernelRuleFromRoute route (next_index c);
          collect_routes items (collect_outcome c o)
      end
  end.

(** ** Cleanup targets *)

Definition target_of_rule (rule : routePolicyKernelRule) : routePolicyCleanupTarget :=
  {| target_Destination := rp_Destination rule; target_Table := rp_Table rule |}.

Definition routePolicyCleanupTargetsFromRules (systemRules rules : list routePolicyKernelRule)
  : list routePolicyCleanupTarget :=
  (target_of_rule <$> systemRules) ++ (target_of_rule <$> rules).

(** The closure [add]: a target or the reason why there is none. *)
Definition cleanup_target (destination table label : string) : routePolicyCleanupTarget + string :=
  let destination := trim_space destination in
  let table := trim_space table in
  if (destination =s "") || is_main table then inr (label +:+ " cleanup skipped: destination or table is empty")
  else if negb (isSafeNetworkToken table) || negb (isSafeNetworkToken destination)
  then inr (label +:+ " cleanup skipped: unsafe destination or table token")
  else inl {| target_Destination := destination; target_Table := table |}.

Definition system_target (item : any) : option (routePolicyCleanupTarget + string) :=
  route ← as_map item;
  if negb (equal_fold_ascii (text route "status") "active") then None
  else Some (cleanup_target (normalizeRoutePolicyIPPrefix (first [text route "destination"; "0.0.0.0/0"]))
                            (text route "table") "system route").

Definition client_target (item : any) : option (routePolicyCleanupTarget + string) :=
  route ← as_map item;
  if negb (equal_fold_ascii (text route "status") "active")
     || negb (equal_fold_ascii (text route "action") "allow")
     || negb (text (nestedMap route "enforcement") "mode" =s "l3_l4_candidate")
  then None
  else
    let egress := nestedMap route "egress" in
    if negb (equal_fold_ascii (text egress "status") "candidate") then None
    else Some (cleanup_target
                 (normalizeRoutePolicyDestination (text route "destination_type") (text route "destination"))
                 (text egress "table") "client route").

Definition target_part (o : routePolicyCleanupTarget + string) : option routePolicyCleanupTarget :=
  match o with inl t => Some t | inr _ => None end.
Definition reason_part (o : routePolicyCleanupTarget + string) : option string :=
  match o with inl _ => None | inr r => Some r end.

Definition routePolicyCleanupTargetsFromSnapshot (snapshot : routePolicyCleanupSnapshot)
  : list routePolicyCleanupTarget * list string :=
  let out := omap system_target (snap_SystemRoutes snapshot) ++ omap client_target (snap_Routes snapshot) in
  (omap target_part out, omap reason_part out).

Definition target_key (target : routePolicyCleanupTarget) : string :=
  target_Destination target +:+ "|" +:+ target_Table target.

Fixpoint dedupe_targets (seen : gset string) (targets : list routePolicyCleanupTarget)
  : list routePolicyCleanupTarget :=
  match targets with
  | [] => []
  | target :: targets =>
      if (target_Destination target =s "") || (target_Table target =s "") || bool_decide (target_key target ∈ seen)
      then dedupe_targets seen targets
      else target :: dedupe_targets ({[ target_key target ]} ∪ seen) targets
  end.
Definition dedupeRoutePolicyCleanupTargets (targets : list routePolicyCleanupTarget)
  : list routePolicyCleanupTarget := dedupe_targets ∅ targets.
End payload.

(** ** The scripts *)

(** A line of the script, with its double quotes written as tildes. *)
Definition sh (line : string) : string := replace_char "~" (String dquote "") line.

Definition script_head (revision : string) : list string :=
  ["#!/usr/bin/env sh";
   "set -eu";
   "";
   "# Generated by megavpn-agent. Do not edit manually.";
   "# Revision: " +:+ trim_space revision;
   "if ! command -v ip >/dev/null 2>&1; then echo 'iproute2 is required for route policy enforcement' >&2; exit 1; fi"].

Definition clear_priorities : list string :=
  ["";
   "# Remove old MegaVPN system source-route rules from the reserved priority range.";
   "p=" +:+ itoa routePolicySystemPriority;
   sh "while [ ~$p~ -le " +:+ itoa routePolicySystemPriorityTo +:+ " ]; do";
   sh "  while ip rule delete priority ~$p~ >/dev/null 2>&1; do :; done";
   "  p=$((p + 1))";
   "done";
   "";
   "# Remove old MegaVPN route-policy rules from the reserved priority range.";
   "p=" +:+ itoa routePolicyPriority;
   sh "while [ ~$p~ -le " +:+ itoa routePolicyPriorityTo +:+ " ]; do";
   sh "  while ip rule delete priority ~$p~ >/dev/null 2>&1; do :; done";
   "  p=$((p + 1))";
   "done"].

Definition rebuild_chains : list string :=
  ["";
   "# Rebuild MegaVPN nftables marking chains for route policy.";
   "if ! command -v nft >/dev/null 2>&1; then echo 'nft is required for route policy enforcement' >&2; exit 1; fi";
   "nft list table inet megavpn >/dev/null 2>&1 || nft add table inet megavpn";
   "nft list chain inet megavpn route_policy_prerouting >/dev/null 2>&1 || nft add chain inet megavpn route_policy_prerouting '{ type filter hook prerouting priority mangle; policy accept; }'";
   "nft list chain inet megavpn route_policy_output >/dev/null 2>&1 || nft add chain inet megavpn route_policy_output '{ type route hook output priority mangle; policy accept; }'";
   "nft flush chain inet megavpn route_policy_prerouting";
   "nft flush chain inet megavpn route_policy_output"].

Definition flush_chains : list string :=
  ["";
   "# Flush stale MegaVPN nftables marking chains when nft is present.";
   "if command -v nft >/dev/null 2>&1; then";
   "  nft list chain inet megavpn route_policy_prerouting >/dev/null 2>&1 && nft flush chain inet megavpn route_policy_prerouting || true";
   "  nft list chain inet megavpn route_policy_output >/dev/null 2>&1 && nft flush chain inet megavpn route_policy_output || true";
   "fi"].

Definition script_functions : list string :=
  ["";
   "route_policy_delete_route() {";
   sh "  dst=~$1~; table=~$2~; metric=~$3~; dev=~$4~; via=~$5~";
   sh "  if [ -n ~$via~ ]; then";
   sh "    ip route delete ~$dst~ via ~$via~ dev ~$dev~ table ~$table~ metric ~$metric~ >/dev/null 2>&1 || true";
   "  else";
   sh "    ip route delete ~$dst~ dev ~$dev~ table ~$table~ metric ~$metric~ >/dev/null 2>&1 || true";
   "  fi";
   "}";
   "";
   "route_policy_flush_destination() {";
   sh "  dst=~$1~; table=~$2~";
   sh "  while ip route delete ~$dst~ table ~$table~ >/dev/null 2>&1; do :; done";
   "}";
   "";
   "route_policy_probe_cache='|'";
   "route_policy_candidate_ready() {";
   sh "  dev=~$1~; peer=~$2~";
   sh "  if ! ip link show dev ~$dev~ >/dev/null 2>&1; then return 1; fi";
   sh "  if [ -z ~$peer~ ] || ! command -v ping >/dev/null 2>&1; then return 0; fi";
   sh "  key=~$dev,$peer~";
   sh "  case ~$route_policy_probe_cache~ in";
   sh "    *~|$key=1|~*) return 0 ;;";
   sh "    *~|$key=0|~*) return 1 ;;";
   "  esac";
   sh "  if ping -I ~$dev~ -c 1 -W 1 ~$peer~ >/dev/null 2>&1; then";
   sh "    route_policy_probe_cache=~${route_policy_probe_cache}${key}=1|~";
   "    return 0";
   "  fi";
   sh "  route_policy_probe_cache=~${route_policy_probe_cache}${key}=0|~";
   "  return 1";
   "}";
   "";
   "route_policy_replace_route() {";
   sh "  dst=~$1~; table=~$2~; metric=~$3~; dev=~$4~; via=~$5~; peer=~$6~";
   sh "  if ! route_policy_candidate_ready ~$dev~ ~$peer~; then";
   sh "    route_policy_delete_route ~$dst~ ~$table~ ~$metric~ ~$dev~ ~$via~";
   "    return 1";
   "  fi";
   sh "  if [ -n ~$via~ ]; then";
   sh "    ip route replace ~$dst~ via ~$via~ dev ~$dev~ table ~$table~ metric ~$metric~";
   "  else";
   sh "    ip route replace ~$dst~ dev ~$dev~ table ~$table~ metric ~$metric~";
   "  fi";
   "}";
   "";
   "# Route tables and policy rules."].

Definition routePolicyRequiresNFT (systemRules rules : list routePolicyKernelRule) : bool :=
  (0 <? length systemRules + length rules)%nat.

Definition ipRoutePolicyRouteCommands (rule : routePolicyKernelRule) : list string :=
  (λ candidate,
     words ["route_policy_replace_route"; shellQuote (rp_Destination rule);
            shellQuote (first [cand_Table candidate; rp_Table rule]); itoa (cand_Metric candidate);
            shellQuote (cand_Dev candidate); shellQuote (cand_Via candidate); shellQuote (cand_Peer candidate)])
  <$> Candidates rule.

Section script.
(** [fmt.Sprint], as above, and [strconv.IsPrint] beyond ASCII. *)
Context (sprint : any → string) (is_print : Z → bool).

(** What a rule matches beside its addresses. *)
Definition protocol_match (rule : routePolicyKernelRule) : list string :=
  if (rp_Protocol rule =s "tcp") || (rp_Protocol rule =s "udp") then
    if rp_Ports rule =s "" then ["ip"; "protocol"; rp_Protocol rule]
    else [rp_Protocol rule; "dport"; rp_Ports rule]
  else if rp_Protocol rule =s "icmp" then ["ip"; "protocol"; "icmp"]
  else [].

Definition nftRoutePolicyMarkCommand (rule : routePolicyKernelRule) (chain : string) : string :=
  words (["nft"; "add"; "rule"; "inet"; "megavpn"; chain; "ip"; "saddr"; rp_Source rule;
          "ip"; "daddr"; rp_Destination rule]
         ++ protocol_match rule
         ++ ["meta"; "mark"; "set"; Mark rule; "comment"; nftStringLiteral is_print (rp_Comment rule)]).

Definition ip_rule_command (rule : routePolicyKernelRule) : string :=
  words ["ip"; "rule"; "add"; "fwmark"; Mark rule; "table"; shellQuote (rp_Table rule); "priority";
         itoa (Priority rule)].

Definition not_ready_text (rule : routePolicyKernelRule) : string :=
  "route policy rule " +:+ first [RouteID rule; rp_Comment rule; Mark rule]
  +:+ " has no ready managed backhaul candidate".

Definition routePolicyRuleCommands (rule : routePolicyKernelRule) (chain : string) : list string :=
  ["route_policy_rule_ready=0"]
  ++ ((λ command, "if " +:+ command +:+ "; then route_policy_rule_ready=1; fi") <$> ipRoutePolicyRouteCommands rule)
  ++ [sh "if [ ~$route_policy_rule_ready~ -eq 1 ]; then";
      "  " +:+ nftRoutePolicyMarkCommand rule chain;
      "  " +:+ ip_rule_command rule;
      "else";
      "  echo " +:+ shellQuote (not_ready_text rule) +:+ " >&2";
      "  exit 1";
      "fi"].

Definition flush_command (target : routePolicyCleanupTarget) : string :=
  words ["route_policy_flush_destination"; shellQuote (target_Destination target); shellQuote (target_Table target)].

(** What [renderRoutePolicyKernelScript] computes before it writes the script. *)
Record kernel_input := {
  in_system : list routePolicyKernelRule; in_rules : list routePolicyKernelRule;
  in_targets : list routePolicyCleanupTarget; in_skipped : Z; in_reasons : list string }.

Definition kernel_rules (routes systemRoutes : list any) (cleanupSnapshots : list routePolicyCleanupSnapshot)
  : RP kernel_input :=
  system ← collect_system sprint systemRoutes {| made := []; skipped := 0; reasons := [] |};
  client ← collect_routes sprint routes {| made := []; skipped := skipped system; reasons := reasons system |};
  let snaps := routePolicyCleanupTargetsFromSnapshot sprint <$> cleanupSnapshots in
  Ok {| in_system := made system; in_rules := made client;
        in_targets := dedupeRoutePolicyCleanupTargets
          (routePolicyCleanupTargetsFromRules (made system) (made client) ++ concat snaps.*1);
        in_skipped := skipped client + Z.of_nat (length (concat snaps.*2));
        in_reasons := reasons client ++ concat snaps.*2 |}.

Definition kernel_script_lines (i : kernel_input) (revision : string) : list string :=
  script_head revision
  ++ (if (0 <? length (in_rules i))%nat then ["sysctl -w net.ipv4.ip_forward=1 >/dev/null"] else [])
  ++ clear_priorities
  ++ (if routePolicyRequiresNFT (in_system i) (in_rules i) then rebuild_chains else flush_chains)
  ++ script_functions
  ++ (flush_command <$> in_targets i)
  ++ (in_system i ≫= λ rule, routePolicyRuleCommands rule "route_policy_output")
  ++ (in_rules i ≫= λ rule, routePolicyRuleCommands rule "route_policy_prerouting").

Definition renderRoutePolicyKernelScript (routes systemRoutes : list any) (revision : string)
    (cleanupSnapshots : list routePolicyCleanupSnapshot) : RP routePolicyKernelPlan :=
  i ← kernel_rules routes systemRoutes cleanupSnapshots;
  Ok {| kernel_Script := join (String LF "") (kernel_script_lines i revision) +:+ String LF "";
        RuleCount := Z.of_nat (length (in_rules i));
        kernel_SystemRuleCount := Z.of_nat (length (in_system i));
        MarkedCount := Z.of_nat (length (in_system i) + length (in_rules i));
        SkippedCount := in_skipped i;
        Reasons := in_reasons i |}.

Definition cleanup_head (revision : string) : list string :=
  ["#!/usr/bin/env sh";
   "set -eu";
   "";
   "# Generated by megavpn-agent. Do not edit manually.";
   "# Route policy cleanup revision: " +:+ trim_space revision;
   "if command -v ip >/dev/null 2>&1; then";
   "  p=" +:+ itoa routePolicySystemPriority;
   sh "  while [ ~$p~ -le " +:+ itoa routePolicySystemPriorityTo +:+ " ]; do";
   sh "    while ip rule delete priority ~$p~ >/dev/null 2>&1; do :; done";
   "    p=$((p + 1))";
   "  done";
   "  p=" +:+ itoa routePolicyPriority;
   sh "  while [ ~$p~ -le " +:+ itoa routePolicyPriorityTo +:+ " ]; do";
   sh "    while ip rule delete priority ~$p~ >/dev/null 2>&1; do :; done";
   "    p=$((p + 1))";
   "  done"].

Definition delete_command (target : routePolicyCleanupTarget) : string :=
  words ["ip"; "route"; "delete"; shellQuote (target_Destination target); "table"; shellQuote (target_Table target)].

Definition cleanup_tail : list string :=
  ["fi";
   "if command -v nft >/dev/null 2>&1; then";
   "  nft list chain inet megavpn route_policy_prerouting >/dev/null 2>&1 && nft flush chain inet megavpn route_policy_prerouting || true";
   "  nft list chain inet megavpn route_policy_output >/dev/null 2>&1 && nft flush chain inet megavpn route_policy_output || true";
   "fi";
   ""].

Definition renderRoutePolicyCleanupScript (snapshot : routePolicyCleanupSnapshot) (revision : string)
  : routePolicyKernelPlan :=
  let '(targets, reasons) := routePolicyCleanupTargetsFromSnapshot sprint snapshot in
  let targets := dedupeRoutePolicyCleanupTargets targets in
  {| kernel_Script := join (String LF "")
       (cleanup_head revision
        ++ ((λ target, "  while " +:+ delete_command target +:+ " >/dev/null 2>&1; do :; done") <$> targets)
        ++ cleanup_tail);
     RuleCount := 0; kernel_SystemRuleCount := 0;
     MarkedCount := Z.of_nat (length targets);
     SkippedCount := Z.of_nat (length reasons);
     Reasons := reasons |}.
End script.

Definition renderRoutePolicyUnit : string :=
  join (String LF "")
    ["[Unit]"; "Description=MegaVPN route policy enforcement"; "After=network-online.target";
     "Wants=network-online.target"; ""; "[Service]"; "Type=oneshot"; "ExecStart=" +:+ routePolicyScriptPath; "";
     "[Install]"; "WantedBy=multi-user.target"; ""].

Definition renderRoutePolicyTimer : string :=
  join (String LF "")
    ["[Unit]"; "Description=MegaVPN route policy refresh"; ""; "[Timer]"; "OnBootSec=20s"; "OnUnitActiveSec=20s";
     "AccuracySec=5s"; "Unit=" +:+ routePolicyUnitName; ""; "[Install]"; "WantedBy=timers.target"; ""].
