(* ===== verification/RoutePolicyProps.v ===== *)
(** * Route policies: what the rules and the scripts are

    The rules a payload gives ([rule_ok]), how the shell reads the commands of
    their script, the priorities and marks they take, and the destinations the
    next apply and the cleanup clear. *)
From stdpp Require Import gmap.
From S2P Require Import Prelude GoStrings Strconv GoValue Netip NetHost Firewall FirewallText FirewallFields Shell RoutePolicy.
From Stdlib Require Import Ascii.
From stdpp Require Import options.
Open Scope Z_scope.

(** ** Bytes *)

Lemma addr_byte_token : ∀ a, addr_byte a = true → token_byte a = true.
Proof. intros [[] [] [] [] [] [] [] []]; vm_compute; congruence. Qed.

Lemma digit_token : ∀ a, is_digit a = true → token_byte a = true.
Proof. intros [[] [] [] [] [] [] [] []]; vm_compute; congruence. Qed.

Lemma token_no_space : ∀ a, token_byte a = true → no_space a = true.
Proof. intros [[] [] [] [] [] [] [] []]; vm_compute; congruence. Qed.

Lemma token_itoa z : all_bytes token_byte (itoa z).
Proof.
  unfold all_bytes. rewrite Forall_forall. intros c Hc. apply itoa_bytes in Hc as [Hc| ->]; [|done].
  by apply digit_token.
Qed.

Lemma token_addr a : addr_ok a → zone_of a = "" → all_bytes token_byte (addr_string a).
Proof. intros. eapply all_bytes_impl; [apply addr_byte_token|by apply addr_text]. Qed.

Lemma token_prefix p : prefix_ok p → all_bytes token_byte (prefix_string p).
Proof.
  intros (Ha & Hz & _). unfold prefix_string. rewrite !all_bytes_app. split_and!.
  - by apply token_addr.
  - by repeat constructor.
  - apply token_itoa.
Qed.

Lemma prefix_string_nonempty p : prefix_string p ≠ "".
Proof. unfold prefix_string. intros [_ [??]%sapp_eq_nil]%sapp_eq_nil. done. Qed.

Lemma trim_token s : all_bytes token_byte s → trim_space s = s.
Proof. intros. apply trim_space_no_space. eapply all_bytes_impl; [apply token_no_space|done]. Qed.

Lemma safe_token_trim s : isSafeNetworkToken s = true → trim_space s = s.
Proof. intros [_ ?]%safe_token_bytes. by apply trim_token. Qed.

(** ** Addresses *)

(** A masked IPv4 prefix. *)
Definition ipv4_prefix (p : prefix) : Prop := prefix_ok p ∧ Is4 (prefix_addr p) = true ∧ Masked p = p.

Lemma addr_prefix_text a : addr_string a +:+ "/32" = prefix_string (Prefix a 32).
Proof. done. Qed.

Lemma Masked_is4 p : Is4 (prefix_addr (Masked p)) = Is4 (prefix_addr p).
Proof. by destruct p as [[]]. Qed.

Lemma host_prefix a : addr_ok a → Is4 a = true → ipv4_prefix (Prefix a 32).
Proof.
  intros Ha H4. destruct a as [n|]; [|done]. split; [|split; [done|]].
  - split; [done|split; [done|simpl; lia]].
  - unfold Masked, mask_value. simpl. by rewrite Z.mod_1_r, Z.sub_0_r.
Qed.

(** What the normal form of an IP prefix denotes. *)
Lemma normalize_prefix_cases value :
  normalizeRoutePolicyIPPrefix value = ""
  ∨ ∃ p, ipv4_prefix p ∧ normalizeRoutePolicyIPPrefix value = prefix_string p
      ∧ ((∃ q, ParsePrefix (trim_space value) = Some q ∧ p = Masked q)
         ∨ ∃ a, ParseAddr (trim_space value) = Some a ∧ p = Prefix a 32).
Proof.
  unfold normalizeRoutePolicyIPPrefix. set (v := trim_space value).
  destruct (v =s ""); [by left|].
  assert ((match ParseAddr v with Some addr => if Is4 addr then addr_string addr +:+ "/32" else "" | None => "" end) = ""
    ∨ ∃ a, ParseAddr v = Some a ∧ Is4 a = true
        ∧ (match ParseAddr v with Some addr => if Is4 addr then addr_string addr +:+ "/32" else "" | None => "" end)
          = prefix_string (Prefix a 32)) as Haddr.
  { destruct (ParseAddr v) as [a|]; [|by left]. destruct (Is4 a) eqn:E4; [|by left]. right. by exists a. }
  assert (∀ a, ParseAddr v = Some a → Is4 a = true → ipv4_prefix (Prefix a 32)) as Hp.
  { intros a Ea H4. apply host_prefix; [by eapply ParseAddr_ok|done]. }
  destruct (ParsePrefix v) as [q|] eqn:Eq.
  - destruct (Is4 (prefix_addr q)) eqn:E4.
    + right. exists (Masked q). split; [split; [|split]|split; [done|left; by exists q]].
      * by apply Masked_ok, (ParsePrefix_ok v).
      * by rewrite Masked_is4.
      * apply Masked_idemp.
    + destruct Haddr as [->|(a & Ea & H4 & ->)]; [by left|]. right. exists (Prefix a 32). eauto 8.
  - destruct Haddr as [->|(a & Ea & H4 & ->)]; [by left|]. right. exists (Prefix a 32). eauto 8.
Qed.

Lemma normalize_prefix_text p : ipv4_prefix p → normalizeRoutePolicyIPPrefix (prefix_string p) = prefix_string p.
Proof.
  intros (Hok & H4 & Hm). unfold normalizeRoutePolicyIPPrefix. rewrite trim_token by by apply token_prefix.
  destruct (String.eqb_spec (prefix_string p) "") as [E|_]; [by apply prefix_string_nonempty in E|].
  rewrite ParsePrefix_string by done. by rewrite H4, Hm.
Qed.

(** A destination or source of a rule is the text of a masked IPv4 prefix. *)
Definition prefix_text (s : string) : Prop := ∃ p, ipv4_prefix p ∧ s = prefix_string p.

Lemma normalize_prefix_result value :
  normalizeRoutePolicyIPPrefix value ≠ "" → prefix_text (normalizeRoutePolicyIPPrefix value).
Proof. destruct (normalize_prefix_cases value) as [E|(p & Hp & E & _)]; [done|]. intros _. by exists p. Qed.

Lemma normalize_destination_result t value :
  normalizeRoutePolicyDestination t value ≠ "" → prefix_text (normalizeRoutePolicyDestination t value).
Proof.
  unfold normalizeRoutePolicyDestination. repeat case_match; try done; apply normalize_prefix_result.
Qed.

Lemma prefix_text_token s : prefix_text s → isSafeNetworkToken s = true.
Proof.
  intros (p & (Hp & _) & ->). apply safe_token_intro; [apply prefix_string_nonempty|by apply token_prefix].
Qed.


Lemma Contains_masked p a : Contains (Masked p) a = Contains p a.
Proof.
  destruct p as [[n|n z] b], a as [m|m z']; unfold Contains, Masked; simpl; rewrite ?andb_false_l; try done;
    by rewrite mask_value_idemp.
Qed.

Lemma Contains_host n a : Contains (Prefix (V4 n) 32) a = true ↔ a = V4 n.
Proof.
  unfold Contains, mask_value. simpl. destruct a as [m|m z]; simpl; [|done].
  rewrite !Z.mod_1_r, !Z.sub_0_r, Z.eqb_eq. naive_solver.
Qed.

(** Normalising an address or a prefix gives nothing, or the text of a masked
    IPv4 prefix, which parses back to it and covers exactly the addresses that
    were written: those of the prefix, or the one address; and normalising twice
    changes nothing. *)
Theorem route_prefix_canonical (value : string) :
  let s := normalizeRoutePolicyIPPrefix value in
  normalizeRoutePolicyIPPrefix s = s
  ∧ (s = ""
     ∨ ∃ p, ParsePrefix s = Some p ∧ Is4 (prefix_addr p) = true ∧ Masked p = p
         ∧ ((∃ q, ParsePrefix (trim_space value) = Some q ∧ ∀ a, Contains p a = Contains q a)
            ∨ ∃ a, ParseAddr (trim_space value) = Some a ∧ ∀ b, Contains p b = true ↔ b = a)).
Proof.
  cbv zeta. destruct (normalize_prefix_cases value) as [->|(p & Hp & -> & Hc)]; [by split; [|left]|].
  split; [by apply normalize_prefix_text|]. right. exists p. pose proof Hp as (Hok & H4 & Hm).
  split_and!; [by apply ParsePrefix_string|done|done|].
  destruct Hc as [(q & Eq & ->)|(a & Ea & ->)].
  - left. exists q. split; [done|]. intros. by rewrite Contains_masked.
  - right. exists a. split; [done|]. intros b. destruct a as [n|]; [|done]. apply Contains_host.
Qed.

(** ** Ports *)

Lemma route_port_ok raw p : parseRoutePolicyPort raw = Ok p → port_ok p.
Proof.
  unfold parseRoutePolicyPort, port_ok. destruct (atoi _) as [q|]; [|done].
  destruct (_ || _) eqn:E; [done|]. intros [= ->]. lia.
Qed.

Lemma route_port_part_ok part o : route_port_part part = Ok o → ∀ t, o = Some t → ∃ i, item_ok i ∧ t = show_item i.
Proof.
  unfold route_port_part. intros H t ->. destruct (_ =s ""); [done|].
  destruct (cut_char _ _) as [[lo hi]|]; inv_binds.
  - destruct (_ <? _) eqn:E; [done|]. inv_binds. simplify_eq.
    exists (PortRange a a0). split; [|done]. apply route_port_ok in H0, H1. simpl. split_and!; [done..|lia].
  - simplify_eq. exists (PortOne a). split; [by eapply route_port_ok|done].
Qed.

Lemma route_port_parts_ok parts out :
  route_port_parts parts = Ok out → ∃ items, Forall item_ok items ∧ out = show_item <$> items.
Proof.
  revert out. induction parts as [|part parts IH]; intros out H; cbn [route_port_parts] in H.
  - inv_binds. simplify_eq. by exists [].
  - inv_binds. simplify_eq. destruct (IH _ H1) as (items & Hi & ->).
    destruct a as [t|]; [|by exists items].
    destruct (route_port_part_ok _ _ H0 t eq_refl) as (i & ? & ->). exists (i :: items). by split; [constructor|].
Qed.

Lemma route_ports_cases raw t :
  normalizeRoutePolicyPorts raw = Ok t →
  t = "" ∨ ∃ items, items ≠ [] ∧ Forall item_ok items ∧ t = port_set (show_item <$> items).
Proof.
  unfold normalizeRoutePolicyPorts. destruct (_ || _); [intros [= <-]; by left|]. intros H. inv_binds. subst t.
  destruct (route_port_parts_ok _ _ H0) as ([|i items] & Hi & ->); [by left|]. right. by exists (i :: items).
Qed.

(** The words of a set of ports: an element keeps the comma after it. *)
Fixpoint with_commas (l : list string) : list string :=
  match l with
  | [] => []
  | [x] => [x]
  | x :: l => (x +:+ ",") :: with_commas l
  end.
Definition port_words (out : list string) : list string :=
  match out with
  | [] | [_] => out
  | out => "{" :: with_commas out ++ ["}"]
  end.

Lemma words_cons x l : l ≠ [] → words (x :: l) = x +:+ String " " (words l).
Proof. by destruct l. Qed.

Lemma words_app l m : l ≠ [] → m ≠ [] → words (l ++ m) = words l +:+ String " " (words m).
Proof.
  intros Hl Hm. induction l as [|x l IH]; [done|]. destruct l as [|y l].
  - simpl. by rewrite words_cons.
  - change ((x :: y :: l) ++ m) with (x :: (y :: l) ++ m). rewrite !words_cons by done.
    rewrite IH by done. by rewrite sapp_assoc, sapp_cons.
Qed.

(** Words within a word of a longer text. *)
Lemma words_flat l m r : m ≠ [] → words (l ++ words m :: r) = words (l ++ m ++ r).
Proof.
  intros Hm. assert (words (words m :: r) = words (m ++ r)) as E.
  { destruct r as [|x r]; [by rewrite app_nil_r|]. by rewrite words_cons, words_app. }
  destruct l as [|x l]; [done|]. rewrite words_app by done. rewrite E.
  rewrite (words_app (x :: l) (m ++ r)); [done|done|by destruct m].
Qed.

Lemma with_commas_words l : words (with_commas l) = join ", " l.
Proof.
  induction l as [|x [|y l] IH]; [done..|].
  change (with_commas (x :: y :: l)) with ((x +:+ ",") :: with_commas (y :: l)).
  rewrite words_cons, IH by (by destruct l). by rewrite sapp_assoc.
Qed.

Lemma port_words_text out : words (port_words out) = port_set out.
Proof.
  destruct out as [|x [|y l]]; [done..|]. unfold port_words, port_set.
  rewrite words_cons by (destruct l; done). rewrite words_app by (destruct l; done).
  by rewrite with_commas_words.
Qed.

(** ** Rules *)

Record candidate_ok (table : string) (c : routePolicyKernelCandidate) : Prop := {
  ok_dev : isSafeNetworkToken (cand_Dev c) = true;
  ok_via : cand_Via c = "" ∨ isSafeNetworkToken (cand_Via c) = true;
  ok_peer : cand_Peer c = "" ∨ isSafeNetworkToken (cand_Peer c) = true;
  ok_metric : 0 < cand_Metric c;
  ok_cand_table : cand_Table c = table }.

Record rule_ok (comment_scope : string) (rule : routePolicyKernelRule) : Prop := {
  ok_source : prefix_text (rp_Source rule);
  ok_destination : prefix_text (rp_Destination rule);
  ok_rp_protocol : rp_Protocol rule ∈ ["any"; "tcp"; "udp"; "icmp"];
  ok_rp_ports : rp_Ports rule = ""
    ∨ (rp_Protocol rule = "tcp" ∨ rp_Protocol rule = "udp")
      ∧ ∃ items, items ≠ [] ∧ Forall item_ok items ∧ rp_Ports rule = port_set (show_item <$> items);
  ok_table : isSafeNetworkToken (rp_Table rule) = true ∧ is_main (rp_Table rule) = false;
  ok_candidates : Candidates rule ≠ [] ∧ Forall (candidate_ok (rp_Table rule)) (Candidates rule);
  ok_comment : ∃ s, rp_Comment rule = comment_scope +:+ slugifyLocal s }.

Definition system_scope : string := "megavpn:route-policy:system:".
Definition client_scope : string := "megavpn:route-policy:".

(** Whether the field the code tests next is empty. *)
Ltac case_empty H :=
  match goal with |- context [if ?s =s "" then _ else _] => destruct (String.eqb_spec s "") as [|H] end.

Section parsed.
Context (sprint : any → string).

Lemma candidate_from_map_ok raw table c :
  routePolicyKernelCandidateFromMap sprint raw table = Ok (Some c) → candidate_ok table c.
Proof.
  unfold routePolicyKernelCandidateFromMap. destruct raw as [raw|]; [|done]. cbv zeta.
  set (dev := if trim_space _ =s "" then trim_space _ else trim_space _). destruct (dev =s ""); [done|].
  destruct (isSafeNetworkToken dev) eqn:Ed; [|done]. cbn [negb].
  set (via := trim_space (first _)). set (peer := routePolicyPeerAddress _). set (metric := intFromAnyOf _).
  destruct (negb (via =s "") && _) eqn:Ev; [done|]. destruct (negb (peer =s "") && _) eqn:Ep; [done|].
  intros [= <-]. split; simpl; try done.
  - apply andb_false_iff in Ev as [Ev%negb_false_iff%String.eqb_eq|Ev%negb_false_iff]; auto.
  - apply andb_false_iff in Ep as [Ep%negb_false_iff%String.eqb_eq|Ep%negb_false_iff]; auto.
  - destruct (Z.leb_spec metric 0); lia.
Qed.

Lemma candidates_from_list_ok items table cs :
  candidates_from_list sprint items table = Ok cs → Forall (candidate_ok table) cs.
Proof.
  revert cs. induction items as [|item items IH]; intros cs H; cbn [candidates_from_list] in H; inv_binds;
    simplify_eq; [done|].
  destruct a as [c|]; [|by apply IH]. constructor; [by eapply candidate_from_map_ok|by apply IH].
Qed.

Lemma candidates_ok egress table cs :
  routePolicyKernelCandidatesFromEgress sprint egress table = Ok cs → Forall (candidate_ok table) cs.
Proof.
  unfold routePolicyKernelCandidatesFromEgress. intros H. inv_binds.
  assert (Forall (candidate_ok table) a) as Ha.
  { destruct (slice_at egress _); [by eapply candidates_from_list_ok|by simplify_eq]. }
  destruct a as [|c a]; inv_binds; simplify_eq; [|done].
  destruct a as [c|]; [|done]. constructor; [by eapply candidate_from_map_ok|done].
Qed.

Lemma system_rule_ok route idx rule :
  routePolicyKernelRuleFromSystemRoute sprint route idx = Ok (Made rule) → rule_ok system_scope rule.
Proof.
  unfold routePolicyKernelRuleFromSystemRoute. destruct route as [route|]; [|done]. cbv zeta.
  destruct (negb (equal_fold_ascii _ _)); [done|].
  case_empty Hs; [done|].
  case_empty Hd; [done|].
  destruct (is_main _) eqn:Em; [done|]. destruct (isSafeNetworkToken _) eqn:Et; [|done]. cbn [negb]. intros H. inv_binds.
  apply candidates_ok in H0. destruct a as [|c cs]; [done|]. destruct (_ <? _); [done|]. simplify_eq.
  split; simpl; try done.
  - by apply normalize_prefix_result.
  - by apply normalize_prefix_result.
  - set_solver.
  - by left.
  - by eexists.
Qed.

Lemma client_rule_ok route idx rule :
  routePolicyKernelRuleFromRoute sprint route idx = Ok (Made rule) → rule_ok client_scope rule.
Proof.
  unfold routePolicyKernelRuleFromRoute. cbv zeta. destruct (_ || _); [done|].
  case_empty Hs; [done|]. case_empty Hd; [done|].
  destruct (negb (equal_fold_ascii _ _)); [done|]. destruct (is_main _) eqn:Em; [done|].
  destruct (isSafeNetworkToken _) eqn:Et; [|done]. cbn [negb]. intros H. inv_binds.
  apply candidates_ok in H0. destruct a as [|c cs]; [done|].
  destruct (one_of _ _) eqn:Ep; [|done]. cbn [negb] in H. inv_binds. apply one_of_spec in Ep.
  destruct (_ && _) eqn:Epp in H; [done|]. destruct (_ <? _); [done|]. simplify_eq.
  split; simpl; try done.
  - by apply normalize_prefix_result.
  - by apply normalize_destination_result.
  - destruct (route_ports_cases _ _ H1) as [->|(items & Hne & Hi & E)]; [by left|]. right. split; [|by exists items].
    destruct (String.eqb_spec a "") as [E0|_].
    + exfalso. subst a. symmetry in E0.
      destruct items as [|i [|j items]]; [done| |done]. by destruct (show_item_nonempty i).
    + cbn [negb andb] in Epp. apply andb_false_iff in Epp as [H2%negb_false_iff%String.eqb_eq|H2%negb_false_iff%String.eqb_eq]; auto.
  - by eexists.
Qed.
End parsed.

(** ** The commands, as the shell reads them *)

Definition route_words (rule : routePolicyKernelRule) (c : routePolicyKernelCandidate) : list string :=
  ["route_policy_replace_route"; rp_Destination rule; rp_Table rule; itoa (cand_Metric c); cand_Dev c; cand_Via c;
   cand_Peer c].

(** The words of a port expression, split at its blanks. *)
Definition protocol_words (rule : routePolicyKernelRule) : list string :=
  protocol_match rule ≫= split_char " ".

Definition mark_words (rule : routePolicyKernelRule) (chain : string) : list string :=
  ["nft"; "add"; "rule"; "inet"; "megavpn"; chain; "ip"; "saddr"; rp_Source rule; "ip"; "daddr"; rp_Destination rule]
  ++ protocol_words rule
  ++ ["meta"; "mark"; "set"; Mark rule; "comment"; String dquote "" +:+ rp_Comment rule +:+ String dquote ""].

Definition rule_words (rule : routePolicyKernelRule) : list string :=
  ["ip"; "rule"; "add"; "fwmark"; Mark rule; "table"; rp_Table rule; "priority"; itoa (Priority rule)].

(** What the shell does with the commands of a rule. *)
Definition commands_read (is_print : Z → bool) (rule : routePolicyKernelRule) (chain : string) : Prop :=
  sh_words <$> ipRoutePolicyRouteCommands rule = (λ c, Some (route_words rule c)) <$> Candidates rule
  ∧ sh_words (nftRoutePolicyMarkCommand is_print rule chain) = Some (mark_words rule chain)
  ∧ sh_words (ip_rule_command rule) = Some (rule_words rule)
  ∧ (has_nul (RouteID rule) = false →
     sh_words (words ["echo"; shellQuote (not_ready_text rule)]) = Some ["echo"; not_ready_text rule]).

(** A literal word of a command. *)
Lemma reads_literal v : negb (v =s "") && forallb plain_byte (bytes v) = true → reads_as v v.
Proof. intros H. split_bools. apply reads_plain; [by apply String.eqb_neq|by apply all_bytes_dec]. Qed.

Lemma reads_token v : isSafeNetworkToken v = true → reads_as v v.
Proof.
  intros [Hne H]%safe_token_bytes. apply reads_plain; [done|]. eapply all_bytes_impl; [apply token_byte_plain|done].
Qed.

Lemma reads_itoa z : reads_as (itoa z) (itoa z).
Proof. apply reads_token, safe_token_intro; [apply itoa_nonempty|apply token_itoa]. Qed.

Lemma reads_quoted_token v : isSafeNetworkToken v = true → reads_as (shellQuote v) v.
Proof. intros H. by apply reads_quoted, token_no_nul. Qed.

Lemma reads_quoted_optional v : v = "" ∨ isSafeNetworkToken v = true → reads_as (shellQuote v) v.
Proof. intros [->|H]; [by apply reads_quoted|by apply reads_quoted_token]. Qed.

Lemma hex_digits_token n r : all_bytes token_byte (hex_digits n r).
Proof.
  revert r. induction n as [|n IH]; intros r; [apply all_bytes_nil|]. cbn [hex_digits]. rewrite all_bytes_app.
  split; [apply IH|]. rewrite all_bytes_cons. split; [|apply all_bytes_nil].
  apply addr_byte_token. unfold addr_byte. rewrite hex_chr_any by (apply Z.mod_pos_bound; lia). done.
Qed.

Lemma reads_mark n : reads_as (mark_text n) (mark_text n).
Proof.
  apply reads_token, safe_token_intro; [done|]. unfold mark_text. rewrite all_bytes_app.
  split; [by apply all_bytes_dec|apply hex_digits_token].
Qed.

Lemma comment_plain scope s : scope ∈ [system_scope; client_scope] → all_bytes quote_plain (scope +:+ slugifyLocal s).
Proof.
  intros Hs. rewrite all_bytes_app. split.
  - apply all_bytes_dec. set_unfold. naive_solver.
  - eapply all_bytes_impl; [|apply slug_bytes]. intros [[] [] [] [] [] [] [] []]; vm_compute; congruence.
Qed.

Lemma reads_comment is_print c :
  all_bytes quote_plain c →
  reads_as (nftStringLiteral is_print c) (String dquote "" +:+ c +:+ String dquote "").
Proof.
  intros Hc. unfold nftStringLiteral. rewrite Quote_plain by done. apply reads_quoted.
  apply (no_nul (λ a, quote_plain a || Ascii.eqb a dquote)); [done|]. rewrite !all_bytes_app. split_and!; try by repeat constructor.
  eapply all_bytes_impl; [|exact Hc]. by intros a ->.
Qed.

(** The words of a port expression hold no blank. *)
Lemma with_commas_Forall (P : string → Prop) l :
  (∀ s, s ∈ l → P s ∧ P (s +:+ ",")) → Forall P (with_commas l).
Proof.
  induction l as [|x [|y l] IH]; intros H; [constructor| |].
  - constructor; [by apply H; left|constructor].
  - change (with_commas (x :: y :: l)) with ((x +:+ ",") :: with_commas (y :: l)).
    constructor; [by apply H; left|]. apply IH. intros. by apply H; right.
Qed.

Lemma port_words_Forall (P : string → Prop) items :
  P "{" → P "}" → (∀ s, s ≠ "" → all_bytes ports_byte s → P s) →
  Forall item_ok items → Forall P (port_words (show_item <$> items)).
Proof.
  intros Hl Hr H Hi.
  assert (∀ s, s ∈ show_item <$> items → P s ∧ P (s +:+ ",")) as Hs.
  { rewrite Forall_forall in Hi. intros s (i & -> & Hin)%list_elem_of_fmap.
    assert (all_bytes ports_byte (show_item i)) as Hb.
    { eapply all_bytes_impl; [|by apply item_bytes, Hi]. unfold ports_byte. by intros a ->. }
    split; apply H; try done; [apply show_item_nonempty|by intros [_ ?]%sapp_eq_nil|].
    rewrite all_bytes_app. split; [done|]. by repeat constructor. }
  unfold port_words. destruct (show_item <$> items) as [|x [|y l]] eqn:E; [constructor|..].
  - constructor; [by apply Hs; left|constructor].
  - constructor; [done|]. apply Forall_app. split; [by apply with_commas_Forall|by repeat constructor].
Qed.

Lemma ports_byte_plain : ∀ a, ports_byte a = true → plain_byte a = true.
Proof. intros [[] [] [] [] [] [] [] []]; vm_compute; congruence. Qed.

Lemma port_set_words items :
  items ≠ [] → Forall item_ok items →
  split_char " " (port_set (show_item <$> items)) = port_words (show_item <$> items)
  ∧ Forall2 reads_as (port_words (show_item <$> items)) (port_words (show_item <$> items)).
Proof.
  intros Hne Hi. split.
  - rewrite <-port_words_text. unfold words. apply split_join.
    + unfold port_words. by destruct items as [|i [|j items]].
    + apply port_words_Forall; try done; [by intros H%contains_char_spec..|].
      intros s _ Hs. by eapply all_bytes_not_in.
  - apply Forall_Forall2_diag, port_words_Forall; try done; [by apply reads_literal..|].
    intros s Hs Hb. apply reads_plain; [done|]. eapply all_bytes_impl; [apply ports_byte_plain|done].
Qed.

Ltac read_words :=
  repeat (apply Forall2_cons; split;
    [first [by apply reads_literal | by apply reads_token | apply reads_itoa | by apply reads_quoted_token
           | by apply reads_quoted_optional]|]);
  try apply Forall2_nil_2.

Lemma protocol_reads scope rule l r :
  rule_ok scope rule →
  words (l ++ protocol_match rule ++ r) = words (l ++ protocol_words rule ++ r)
  ∧ Forall2 reads_as (protocol_words rule) (protocol_words rule).
Proof.
  intros H. pose proof (ok_rp_protocol _ _ H) as Hp. pose proof (ok_rp_ports _ _ H) as Hports.
  unfold protocol_words, protocol_match.
  assert (∀ p, p ∈ ["tcp"; "udp"; "icmp"] → "ip" :: "protocol" :: [p] = (["ip"; "protocol"; p] ≫= split_char " ")
            ∧ Forall2 reads_as (["ip"; "protocol"; p] ≫= split_char " ") (["ip"; "protocol"; p] ≫= split_char " ")) as Hip.
  { intros p Hin. assert (p = "tcp" ∨ p = "udp" ∨ p = "icmp") as [-> | [-> | ->]] by set_solver;
      (split; [done|]; cbn; read_words). }
  assert ((rp_Protocol rule =s "tcp") || (rp_Protocol rule =s "udp") = true ∨
          (rp_Protocol rule =s "tcp") || (rp_Protocol rule =s "udp") = false) as [E|E] by (by destruct (_ || _); auto).
  - rewrite E. apply orb_true_iff in E. rewrite !String.eqb_eq in E.
    case_empty Hne.
    + destruct (Hip (rp_Protocol rule)) as [<- ?]; [set_solver|]. done.
    + destruct Hports as [?|(_ & items & Hi1 & Hi2 & ->)]; [done|].
      destruct (port_set_words items Hi1 Hi2) as [Es Hr].
      assert (split_char " " (rp_Protocol rule) = [rp_Protocol rule]) as Ep by (by destruct E as [-> | ->]).
      cbn [mbind list_bind]. rewrite Ep, Es. split.
      * transitivity (words ((l ++ [rp_Protocol rule; "dport"]) ++ words (port_words (show_item <$> items)) :: r)).
        { by rewrite port_words_text, <-app_assoc. }
        rewrite words_flat by (by destruct items as [|? [|]]). rewrite <-!app_assoc. done.
      * cbn [app]. repeat (apply Forall2_cons; split); [|by apply reads_literal|by rewrite ?app_nil_r].
        destruct E as [-> | ->]; by apply reads_literal.
  - rewrite E. destruct (rp_Protocol rule =s "icmp"); [|done].
    destruct (Hip "icmp") as [<- ?]; [set_solver|done].
Qed.


Lemma has_nul_app s t : has_nul (s +:+ t) = has_nul s || has_nul t.
Proof. unfold has_nul, contains_char. by rewrite bytes_app, existsb_app. Qed.

Lemma has_nul_trim s : has_nul s = false → has_nul (trim_space s) = false.
Proof.
  unfold has_nul. rewrite <-!not_true_iff_false, !contains_char_spec. intros H ?%trim_space_byte. done.
Qed.

Lemma has_nul_first l : Forall (λ s, has_nul s = false) l → has_nul (first l) = false.
Proof. induction 1; [done|]. cbn [first]. case_match; [done|by apply has_nul_trim]. Qed.

Lemma rule_comment_plain scope rule :
  rule_ok scope rule → scope ∈ [system_scope; client_scope] → all_bytes quote_plain (rp_Comment rule).
Proof. intros H Hs. destruct (ok_comment _ _ H) as [s ->]. by apply comment_plain. Qed.

(** The commands of a rule that is well formed and marked are read as meant. *)
Lemma rule_commands_read is_print scope rule chain :
  rule_ok scope rule → scope ∈ [system_scope; client_scope] → reads_as (Mark rule) (Mark rule) →
  isSafeNetworkToken (Mark rule) = true → isSafeNetworkToken chain = true →
  commands_read is_print rule chain.
Proof.
  intros H Hs Hm Hmt Hc. destruct (ok_table _ _ H) as [Ht _]. pose proof (ok_candidates _ _ H) as [_ Hcand].
  pose proof (prefix_text_token _ (ok_source _ _ H)) as Hsrc.
  pose proof (prefix_text_token _ (ok_destination _ _ H)) as Hdst.
  split_and!.
  - unfold ipRoutePolicyRouteCommands. rewrite <-list_fmap_compose. apply list_fmap_ext. intros i c Hi. unfold compose. cbv beta.
    rewrite Forall_lookup in Hcand. destruct (Hcand i c Hi) as [Hdev Hvia Hpeer _ Htab].
    apply sh_words_join. rewrite Htab. unfold route_words.
    assert (first [rp_Table rule; rp_Table rule] = rp_Table rule) as ->.
    { cbn [first]. rewrite safe_token_trim by done. destruct (String.eqb_spec (rp_Table rule) "") as [->|]; done. }
    read_words.
  - destruct (protocol_reads scope rule
      ["nft"; "add"; "rule"; "inet"; "megavpn"; chain; "ip"; "saddr"; rp_Source rule; "ip"; "daddr"; rp_Destination rule]
      ["meta"; "mark"; "set"; Mark rule; "comment"; nftStringLiteral is_print (rp_Comment rule)] H) as [E Hp].
    unfold nftRoutePolicyMarkCommand. rewrite E. apply sh_words_join.
    apply Forall2_app; [read_words|]. apply Forall2_app; [done|]. read_words.
    apply Forall2_cons. split; [by eapply reads_comment, rule_comment_plain|done].
  - apply sh_words_join. read_words.
  - intros Hn. apply sh_words_join. repeat (apply Forall2_cons; split); [by apply reads_literal| |done].
    apply reads_quoted. unfold not_ready_text. rewrite !has_nul_app. rewrite has_nul_first; [done|].
    repeat (apply Forall_cons; split); [done| |by apply token_no_nul|done].
    eapply no_nul; [|by eapply rule_comment_plain]. done.
Qed.

(** ** Priorities and marks *)

Lemma hex_chr_inj a b : 0 ≤ a < 16 → 0 ≤ b < 16 → hex_chr a = hex_chr b → a = b.
Proof.
  intros Ha Hb. unfold hex_chr. intros E%(f_equal byte_val). revert E.
  destruct (Z.ltb_spec a 10), (Z.ltb_spec b 10); rewrite !byte_val_chr; lia.
Qed.

Lemma hex_digits_inj w a b : hex_digits w a = hex_digits w b → a mod 16 ^ Z.of_nat w = b mod 16 ^ Z.of_nat w.
Proof.
  revert a b. induction w as [|w IH]; intros a b H; [by rewrite !Z.mod_1_r|].
  cbn [hex_digits] in H. apply (f_equal bytes) in H. rewrite !bytes_app in H.
  apply app_inj_2 in H as [H1 H2]; [|done]. apply bytes_inj, IH in H1. injection H2 as H2.
  apply hex_chr_inj in H2; try (apply Z.mod_pos_bound; lia).
  replace (16 ^ Z.of_nat (S w)) with (16 * 16 ^ Z.of_nat w) by (rewrite Nat2Z.inj_succ, Z.pow_succ_r; lia).
  rewrite !Z.rem_mul_r by (try apply Z.pow_pos_nonneg; lia). lia.
Qed.

Lemma mark_text_inj a b : 0 ≤ a < two32 → 0 ≤ b < two32 → mark_text a = mark_text b → a = b.
Proof.
  intros Ha Hb H. apply (f_equal bytes) in H. unfold mark_text in H. rewrite !bytes_app in H.
  apply app_inv_head, bytes_inj, hex_digits_inj in H.
  change (16 ^ Z.of_nat 8) with two32 in H. by rewrite !Z.mod_small in H by done.
Qed.

(** The rules made so far, in order, from the base priority and mark. *)
Definition indexed (scope : string) (base top mark : Z) (rules : list routePolicyKernelRule) : Prop :=
  ∀ k rule, rules !! k = Some rule →
    rule_ok scope rule ∧ Priority rule = base + Z.of_nat k ∧ Priority rule ≤ top
    ∧ Mark rule = mark_text (mark + Z.of_nat k + 1).

Lemma indexed_nil scope base top mark : indexed scope base top mark [].
Proof. by intros k rule H. Qed.

Lemma indexed_snoc scope base top mark rules rule :
  indexed scope base top mark rules → rule_ok scope rule → Priority rule = base + Z.of_nat (length rules) →
  Priority rule ≤ top → Mark rule = mark_text (mark + Z.of_nat (length rules) + 1) →
  indexed scope base top mark (rules ++ [rule]).
Proof.
  intros H Hr Hp Ht Hm k r [Hk|[Hk Hr']]%lookup_app_Some; [by apply H|].
  destruct (k - length rules)%nat eqn:E; [|done]. injection Hr' as <-.
  replace k with (length rules) by lia. done.
Qed.

Section collected.
Context (sprint : any → string).

Notation system_indexed := (indexed system_scope routePolicySystemPriority routePolicySystemPriorityTo 1297416192).
Notation client_indexed := (indexed client_scope routePolicyPriority routePolicyPriorityTo 1297481728).

Lemma system_rule_index route idx rule :
  routePolicyKernelRuleFromSystemRoute sprint route idx = Ok (Made rule) →
  Priority rule = routePolicySystemPriority + idx ∧ Priority rule ≤ routePolicySystemPriorityTo
  ∧ Mark rule = mark_text (1297416192 + idx + 1).
Proof.
  unfold routePolicyKernelRuleFromSystemRoute. destruct route as [route|]; [|done]. cbv zeta.
  repeat (case_match; try done); intros H'; inv_binds; try done; repeat (case_match; try done); simplify_eq; simpl;
    (split_and!; [done|lia|done]).
Qed.

Lemma client_rule_index route idx rule :
  routePolicyKernelRuleFromRoute sprint route idx = Ok (Made rule) →
  Priority rule = routePolicyPriority + idx ∧ Priority rule ≤ routePolicyPriorityTo
  ∧ Mark rule = mark_text (1297481728 + idx + 1).
Proof.
  unfold routePolicyKernelRuleFromRoute. cbv zeta. repeat (case_match; try done); intros H'; inv_binds; try done;
    repeat (case_match; try done); inv_binds; repeat (case_match; try done); simplify_eq; simpl;
    (split_and!; [done|lia|done]).
Qed.

Lemma collect_system_ok items c c' :
  collect_system sprint items c = Ok c' → system_indexed (made c) → system_indexed (made c').
Proof.
  revert c. induction items as [|item items IH]; intros c H Hc; cbn [collect_system] in H; inv_binds; [by simplify_eq|].
  apply IH in H; [done|]. destruct a as [rule|reason]; [|done]. simpl.
  pose proof (system_rule_ok _ _ _ _ H0). pose proof (system_rule_index _ _ _ H0) as (? & ? & ?).
  by apply indexed_snoc.
Qed.

Lemma collect_routes_ok items c c' :
  collect_routes sprint items c = Ok c' → client_indexed (made c) → client_indexed (made c').
Proof.
  revert c. induction items as [|item items IH]; intros c H Hc; cbn [collect_routes] in H; [by simplify_eq|].
  destruct (enforced_route sprint item) as [route|]; [|by eapply IH]. inv_binds.
  apply IH in H; [done|]. destruct a as [rule|reason]; [|done]. simpl.
  pose proof (client_rule_ok _ _ _ _ H0). pose proof (client_rule_index _ _ _ H0) as (? & ? & ?).
  by apply indexed_snoc.
Qed.

Lemma kernel_rules_indexed routes systemRoutes snaps i :
  kernel_rules sprint routes systemRoutes snaps = Ok i → system_indexed (in_system i) ∧ client_indexed (in_rules i).
Proof.
  unfold kernel_rules. intros H. inv_binds. simplify_eq. simpl. split.
  - eapply collect_system_ok; [done|apply indexed_nil].
  - eapply collect_routes_ok; [done|apply indexed_nil].
Qed.
End collected.

(** ** The theorems on the rules *)

(** A number of [fmt] after a base in the range of marks reads as itself. *)
Lemma mark_token n : isSafeNetworkToken (mark_text n) = true.
Proof.
  apply safe_token_intro; [done|]. unfold mark_text. rewrite all_bytes_app.
  split; [by apply all_bytes_dec|apply hex_digits_token].
Qed.

Lemma indexed_read is_print scope base top mark rules rule chain :
  indexed scope base top mark rules → scope ∈ [system_scope; client_scope] → rule ∈ rules →
  isSafeNetworkToken chain = true → commands_read is_print rule chain.
Proof.
  intros H Hs (k & Hk)%list_elem_of_lookup Hc. destruct (H k rule Hk) as (Hr & _ & _ & Hm).
  eapply rule_commands_read; try done; rewrite Hm; [apply reads_mark|apply mark_token].
Qed.

(** C38: whatever the payload, the shell reads the commands of every rule as the
    agent means them: one route per candidate with exactly the rule's destination,
    table, device, gateway and peer, the marking rule, and the [ip rule] for the
    mark.  No field of a route can add a word, an operator or a second command; a
    route id without a NUL byte is only ever the text of a message. *)
Theorem route_commands_read (sprint : any → string) (is_print : Z → bool) (routes systemRoutes : list any)
    (snaps : list routePolicyCleanupSnapshot) (i : kernel_input) :
  kernel_rules sprint routes systemRoutes snaps = Ok i →
  Forall (λ rule, commands_read is_print rule "route_policy_output") (in_system i)
  ∧ Forall (λ rule, commands_read is_print rule "route_policy_prerouting") (in_rules i).
Proof.
  intros [Hs Hc]%kernel_rules_indexed. split; apply Forall_forall; intros rule Hr.
  - by eapply indexed_read; [exact Hs|set_solver|exact Hr|].
  - by eapply indexed_read; [exact Hc|set_solver|exact Hr|].
Qed.

(** The marks of an indexed list are below those of its end. *)
Lemma indexed_bounds scope base top mark rules rule k :
  indexed scope base top mark rules → rules !! k = Some rule →
  base ≤ Priority rule ≤ top ∧ Z.of_nat k ≤ top - base.
Proof. intros H Hk. destruct (H k rule Hk) as (_ & Hp & ? & _). lia. Qed.

Lemma indexed_no_dup scope base top mark rules :
  indexed scope base top mark rules → 0 ≤ mark → mark + (top - base) + 1 < two32 →
  NoDup (Priority <$> rules) ∧ NoDup (Mark <$> rules).
Proof.
  intros H Hm Ht. split; apply NoDup_alt; intros j k x; rewrite !list_lookup_fmap, !fmap_Some;
    intros (r & Hj & ->) (r' & Hk & E);
    destruct (H j r Hj) as (_ & Hp1 & ? & Hm1), (H k r' Hk) as (_ & Hp2 & ? & Hm2).
  - lia.
  - rewrite Hm1, Hm2 in E. apply mark_text_inj in E; lia.
Qed.

(** C39: the rules of a plan take their priorities from the two ranges the script
    clears first, and no two rules of a plan share a priority or a mark, so a
    packet of one route is never sent to the table of another. *)
Theorem route_rules_distinct (sprint : any → string) (routes systemRoutes : list any)
    (snaps : list routePolicyCleanupSnapshot) (i : kernel_input) :
  kernel_rules sprint routes systemRoutes snaps = Ok i →
  Forall (λ rule, routePolicySystemPriority ≤ Priority rule ≤ routePolicySystemPriorityTo) (in_system i)
  ∧ Forall (λ rule, routePolicyPriority ≤ Priority rule ≤ routePolicyPriorityTo) (in_rules i)
  ∧ NoDup (Priority <$> in_system i ++ in_rules i)
  ∧ NoDup (Mark <$> in_system i ++ in_rules i).
Proof.
  intros [Hs Hc]%kernel_rules_indexed.
  destruct (indexed_no_dup _ _ _ _ _ Hs) as [Ps Ms]; [done|done|].
  destruct (indexed_no_dup _ _ _ _ _ Hc) as [Pc Mc]; [done|done|].
  assert (∀ r, r ∈ in_system i → ∃ k, in_system i !! k = Some r) as Es by (intros r; apply list_elem_of_lookup).
  assert (∀ r, r ∈ in_rules i → ∃ k, in_rules i !! k = Some r) as Ec by (intros r; apply list_elem_of_lookup).
  unfold routePolicySystemPriority, routePolicySystemPriorityTo, routePolicyPriority, routePolicyPriorityTo in *.
  split_and!.
  - apply Forall_forall. intros r Hr. destruct (Es r Hr) as [k Hk]. by destruct (indexed_bounds _ _ _ _ _ _ _ Hs Hk).
  - apply Forall_forall. intros r Hr. destruct (Ec r Hr) as [k Hk]. by destruct (indexed_bounds _ _ _ _ _ _ _ Hc Hk).
  - rewrite fmap_app. apply NoDup_app. split_and!; [done| |done]. intros x (r & -> & Hr)%list_elem_of_fmap.
    intros (r' & E & Hr')%list_elem_of_fmap. destruct (Es r Hr) as [k Hk], (Ec r' Hr') as [k' Hk'].
    destruct (indexed_bounds _ _ _ _ _ _ _ Hs Hk), (indexed_bounds _ _ _ _ _ _ _ Hc Hk'). lia.
  - rewrite fmap_app. apply NoDup_app. split_and!; [done| |done]. intros x (r & -> & Hr)%list_elem_of_fmap.
    intros (r' & E & Hr')%list_elem_of_fmap. destruct (Es r Hr) as [k Hk], (Ec r' Hr') as [k' Hk'].
    destruct (indexed_bounds _ _ _ _ _ _ _ Hs Hk), (indexed_bounds _ _ _ _ _ _ _ Hc Hk').
    destruct (Hs k r Hk) as (_ & _ & _ & M), (Hc k' r' Hk') as (_ & _ & _ & M').
    rewrite M, M' in E. apply mark_text_inj in E; unfold two32; lia.
Qed.

(** ** What is cleared *)

Section targets.
Context (sprint : any → string).

Notation targets_of s := (routePolicyCleanupTargetsFromSnapshot sprint s).1.

Definition target_ok (t : routePolicyCleanupTarget) : Prop :=
  isSafeNetworkToken (target_Destination t) = true ∧ isSafeNetworkToken (target_Table t) = true
  ∧ is_main (target_Table t) = false.

Lemma cleanup_target_ok d t label x : cleanup_target d t label = inl x → target_ok x.
Proof.
  unfold cleanup_target. cbv zeta. destruct (_ || is_main _) eqn:E1; [done|]. destruct (negb _ || _) eqn:E2; [done|].
  intros [= <-]. split_bools. done.
Qed.

Lemma elem_of_targets s t :
  t ∈ targets_of s ↔
  (∃ item, item ∈ snap_SystemRoutes s ∧ system_target sprint item = Some (inl t))
  ∨ ∃ item, item ∈ snap_Routes s ∧ client_target sprint item = Some (inl t).
Proof.
  unfold routePolicyCleanupTargetsFromSnapshot. simpl. rewrite list_elem_of_omap. setoid_rewrite elem_of_app.
  setoid_rewrite list_elem_of_omap. split.
  - intros (o & Ho & Et). destruct o as [t'|]; [|done]. injection Et as <-. naive_solver.
  - intros [(item & ? & ?)|(item & ? & ?)]; exists (inl t); naive_solver.
Qed.

Lemma targets_ok s : Forall target_ok (targets_of s).
Proof.
  apply Forall_forall. intros t Ht. apply elem_of_targets in Ht as [(item & _ & E)|(item & _ & E)]; revert E.
  - unfold system_target. destruct (as_map item); [|done]. simpl. case_match; [done|].
    intros [= E]. by eapply cleanup_target_ok.
  - unfold client_target. destruct (as_map item); [|done]. simpl. repeat (case_match; try done).
    intros [= E]. by eapply cleanup_target_ok.
Qed.

(** Deduplication keeps each target once. *)
Lemma elem_of_dedupe seen l t :
  t ∈ dedupe_targets seen l → t ∈ l ∧ target_key t ∉ seen.
Proof.
  revert seen. induction l as [|x l IH]; intros seen; cbn [dedupe_targets]; [by intros ?%elem_of_nil|].
  case_match; [intros [? ?]%IH; split; [by right|done]|]. split_bools.
  intros [-> | [? ?]%IH]%elem_of_cons; [split; [by left|done]|]. split; [by right|set_solver].
Qed.

Lemma dedupe_no_dup seen l : NoDup (target_key <$> dedupe_targets seen l).
Proof.
  revert seen. induction l as [|x l IH]; intros seen; cbn [dedupe_targets]; [constructor|].
  case_match; [apply IH|]. simpl. constructor; [|apply IH].
  intros (y & E & [_ Hy]%elem_of_dedupe)%list_elem_of_fmap. set_solver.
Qed.

Lemma safe_nonempty s : isSafeNetworkToken s = true → (s =s "") = false.
Proof. intros [? _]%safe_token_bytes. by apply String.eqb_neq. Qed.

Lemma target_key_inj t u : target_ok t → target_ok u → target_key t = target_key u → t = u.
Proof.
  intros (Hd & Ht & _) (Hd' & Ht' & _) E. apply safe_token_bytes in Hd as [_ Hd], Hd' as [_ Hd'].
  assert (∀ v, target_key v = target_Destination v +:+ String "|" (target_Table v)) as Ek by done.
  rewrite !Ek in E. apply (f_equal (cut_char "|")) in E.
  rewrite !cut_char_app in E by (by eapply all_bytes_not_in). destruct t, u; simpl in *. by simplify_eq.
Qed.

Lemma dedupe_complete seen l t :
  Forall target_ok l → t ∈ l → target_key t ∉ seen → t ∈ dedupe_targets seen l.
Proof.
  intros H. revert seen. induction H as [|x l Hx Hl IH]; intros seen Ht Hs; [by apply elem_of_nil in Ht|].
  cbn [dedupe_targets]. pose proof Hx as (Hd & Htab & _). rewrite !safe_nonempty by done. cbn [orb].
  case_bool_decide.
  - apply IH; [|done]. apply elem_of_cons in Ht as [->|]; done.
  - destruct (decide (target_key t = target_key x)) as [E|].
    + assert (target_ok t) as Hok by (rewrite Forall_forall in Hl; apply elem_of_cons in Ht as [->|]; auto).
      rewrite (target_key_inj t x) by done. by left.
    + right. apply IH; [|set_solver]. apply elem_of_cons in Ht as [->|]; done.
Qed.

(** A rule's destination and table are the cleanup target of its route. *)
Lemma rule_target d table label :
  prefix_text d → isSafeNetworkToken table = true → is_main table = false →
  cleanup_target d table label = inl {| target_Destination := d; target_Table := table |}.
Proof.
  intros Hd%prefix_text_token Ht Hm. unfold cleanup_target. cbv zeta.
  rewrite (safe_token_trim d), (safe_token_trim table) by done. by rewrite Hm, Hd, Ht, (safe_nonempty d).
Qed.

Lemma trim_in_cleanup d table label : cleanup_target d (trim_space table) label = cleanup_target d table label.
Proof. unfold cleanup_target. by rewrite trim_space_idemp. Qed.

Lemma system_rule_target item idx rule :
  routePolicyKernelRuleFromSystemRoute sprint (as_map item) idx = Ok (Made rule) →
  system_target sprint item = Some (inl (target_of_rule rule)).
Proof.
  intros H. pose proof (system_rule_ok _ _ _ _ H) as Hok. revert H.
  unfold system_target. destruct (as_map item) as [route|]; [|done]. cbn [mbind option_bind].
  unfold routePolicyKernelRuleFromSystemRoute. cbv zeta. destruct (negb (equal_fold_ascii _ _)); [done|].
  case_empty Hs; [done|]. case_empty Hd'; [done|].
  destruct (is_main _); [done|]. destruct (isSafeNetworkToken _); [|done]. cbn [negb]. intros H. inv_binds.
  destruct a as [|c cs]; [done|]. destruct (_ <? _); [done|]. simplify_eq.
  destruct Hok as [_ Hd _ _ [Ht Hm] _ _]. simpl in Hd, Ht, Hm.
  rewrite <-trim_in_cleanup. by rewrite rule_target.
Qed.

Lemma client_rule_target item route idx rule :
  enforced_route sprint item = Some route → routePolicyKernelRuleFromRoute sprint route idx = Ok (Made rule) →
  client_target sprint item = Some (inl (target_of_rule rule)).
Proof.
  intros He H. pose proof (client_rule_ok _ _ _ _ H) as Hok. revert He H.
  unfold enforced_route, client_target. destruct (as_map item) as [route'|]; [|done]. cbn [mbind option_bind].
  destruct (_ =s "l3_l4_candidate"); [|done]. intros [= ->].
  unfold routePolicyKernelRuleFromRoute. cbv zeta. destruct (_ || _); [done|]. cbn [negb orb].
  case_empty Hs; [done|]. case_empty Hd'; [done|]. destruct (negb (equal_fold_ascii _ _)); [done|].
  destruct (is_main _); [done|]. destruct (isSafeNetworkToken _); [|done]. cbn [negb]. intros H. inv_binds.
  destruct a as [|c cs]; [done|]. destruct (negb (one_of _ _)); [done|]. inv_binds.
  destruct (_ && _) in H; [done|]. destruct (_ <? _); [done|]. simplify_eq.
  destruct Hok as [_ Hd _ _ [Ht Hm] _ _]. simpl in Hd, Ht, Hm.
  rewrite <-trim_in_cleanup. by rewrite rule_target.
Qed.

Lemma collect_system_from items c c' rule :
  collect_system sprint items c = Ok c' → rule ∈ made c' →
  rule ∈ made c ∨ ∃ item, item ∈ items ∧ system_target sprint item = Some (inl (target_of_rule rule)).
Proof.
  revert c. induction items as [|item items IH]; intros c H Hr; cbn [collect_system] in H; inv_binds;
    [simplify_eq; by left|].
  destruct (IH _ H Hr) as [Hm|(item' & ? & ?)]; [|right; exists item'; split; [by right|done]].
  destruct a as [r|reason]; [|by left]. apply elem_of_app in Hm as [Hm| ->%list_elem_of_singleton]; [by left|].
  right. exists item. split; [by left|]. by eapply system_rule_target.
Qed.

Lemma collect_routes_from items c c' rule :
  collect_routes sprint items c = Ok c' → rule ∈ made c' →
  rule ∈ made c ∨ ∃ item, item ∈ items ∧ client_target sprint item = Some (inl (target_of_rule rule)).
Proof.
  revert c. induction items as [|item items IH]; intros c H Hr; cbn [collect_routes] in H; [simplify_eq; by left|].
  destruct (enforced_route sprint item) as [route|] eqn:He.
  - inv_binds. destruct (IH _ H Hr) as [Hm|(item' & ? & ?)]; [|right; exists item'; split; [by right|done]].
    destruct a as [r|reason]; [|by left]. apply elem_of_app in Hm as [Hm| ->%list_elem_of_singleton]; [by left|].
    right. exists item. split; [by left|]. by eapply client_rule_target.
  - destruct (IH _ H Hr) as [Hm|(item' & ? & ?)]; [by left|right; exists item'; split; [by right|done]].
Qed.

(** The snapshot of a payload names the target of every rule the payload gives. *)
Lemma rules_in_snapshot routes systemRoutes snaps i rule :
  kernel_rules sprint routes systemRoutes snaps = Ok i → rule ∈ in_system i ++ in_rules i →
  target_of_rule rule ∈ targets_of {| snap_Routes := routes; snap_SystemRoutes := systemRoutes |}.
Proof.
  unfold kernel_rules. intros H Hr. inv_binds. simplify_eq. simpl in Hr. apply elem_of_targets. simpl.
  apply elem_of_app in Hr as [Hr|Hr].
  - left. destruct (collect_system_from _ _ _ _ H0 Hr) as [[]%elem_of_nil|?]; [done].
  - right. destruct (collect_routes_from _ _ _ _ H1 Hr) as [[]%elem_of_nil|?]; [done].
Qed.

Lemma in_targets_ok routes systemRoutes snaps i :
  kernel_rules sprint routes systemRoutes snaps = Ok i → NoDup (in_targets i) ∧
  ∀ t, t ∈ in_targets i ↔
    (∃ rule, rule ∈ in_system i ++ in_rules i ∧ t = target_of_rule rule) ∨ ∃ s, s ∈ snaps ∧ t ∈ targets_of s.
Proof.
  intros H. destruct (kernel_rules_indexed _ _ _ _ _ H) as [Hs Hc]. revert H.
  unfold kernel_rules. intros H. inv_binds. simplify_eq. simpl in *.
  set (l := routePolicyCleanupTargetsFromRules _ _ ++ _).
  assert (∀ t, t ∈ l ↔ (∃ rule, rule ∈ made a ++ made a0 ∧ t = target_of_rule rule) ∨ ∃ s, s ∈ snaps ∧ t ∈ targets_of s) as Hl.
  { intros t. unfold l, routePolicyCleanupTargetsFromRules. rewrite <-fmap_app, elem_of_app. apply Morphisms_Prop.or_iff_morphism.
    - rewrite list_elem_of_fmap. naive_solver.
    - rewrite list_elem_of_In, in_concat. setoid_rewrite <-list_elem_of_In. setoid_rewrite list_elem_of_fmap.
      setoid_rewrite list_elem_of_fmap. naive_solver. }
  assert (Forall target_ok l) as Hok.
  { apply Forall_forall. intros t [(rule & Hr & ->)|(s & _ & Ht)]%Hl.
    - assert (∃ scope, rule_ok scope rule) as [scope Hro].
      { apply elem_of_app in Hr as [[k Hk]%list_elem_of_lookup|[k Hk]%list_elem_of_lookup];
          [destruct (Hs k rule Hk)|destruct (Hc k rule Hk)]; eauto. }
      destruct (ok_table _ _ Hro) as [??]. pose proof (prefix_text_token _ (ok_destination _ _ Hro)). done.
    - pose proof (targets_ok s) as H. rewrite Forall_forall in H. by apply H. }
  split; [by eapply NoDup_fmap_1, dedupe_no_dup|]. intros t. rewrite <-Hl. split.
  - intros Ht. by apply elem_of_dedupe in Ht as [? _].
  - intros Ht. apply dedupe_complete; [done|done|set_solver].
Qed.
End targets.

(** Nothing a policy installed survives the next apply or a cleanup.  The
    script of an apply clears each destination at most once, and exactly those of
    its own rules and of the snapshots it is given; the snapshot of a payload
    names the destination and table of every rule that payload gave, so the apply
    that follows it, and the cleanup script, clear them all. *)
Theorem route_targets_covered (sprint : any → string) (routes systemRoutes : list any)
    (snaps : list routePolicyCleanupSnapshot) (i : kernel_input) :
  kernel_rules sprint routes systemRoutes snaps = Ok i →
  let snapshot := {| snap_Routes := routes; snap_SystemRoutes := systemRoutes |} in
  let cleared s := dedupeRoutePolicyCleanupTargets (routePolicyCleanupTargetsFromSnapshot sprint s).1 in
  NoDup (in_targets i)
  ∧ (∀ t, t ∈ in_targets i ↔
       (∃ rule, rule ∈ in_system i ++ in_rules i ∧ t = target_of_rule rule) ∨ ∃ s, s ∈ snaps ∧ t ∈ cleared s)
  ∧ (∀ rule, rule ∈ in_system i ++ in_rules i → target_of_rule rule ∈ cleared snapshot)
  ∧ ∀ routes' systemRoutes' i' rule,
      kernel_rules sprint routes' systemRoutes' [snapshot] = Ok i' →
      rule ∈ in_system i ++ in_rules i → target_of_rule rule ∈ in_targets i'.
Proof.
  intros H snapshot cleared.
  assert (∀ s t, t ∈ cleared s ↔ t ∈ (routePolicyCleanupTargetsFromSnapshot sprint s).1) as Hcl.
  { intros s t. split; [by intros [? _]%elem_of_dedupe|].
    intros Ht. apply dedupe_complete; [apply targets_ok|done|set_solver]. }
  destruct (in_targets_ok _ _ _ _ _ H) as [Hnd Hin]. split; [done|]. split; [|split].
  - intros t. rewrite Hin. by setoid_rewrite Hcl.
  - intros rule Hr. apply Hcl. by eapply rules_in_snapshot.
  - intros routes' systemRoutes' i' rule H' Hr. apply (in_targets_ok _ _ _ _ _ H'). right.
    exists snapshot. split; [by left|]. by eapply rules_in_snapshot.
Qed.

(** ** A sample policy *)

Definition sample_egress : gomap :=
  {[ "status" := AString "candidate"; "table" := AString "vpn-1"; "interface" := AString "wg0";
     "next_hop" := AString "10.9.0.1"; "peer" := AString "10.9.0.1/30" ]}.

Definition sample_route : gomap :=
  {[ "status" := AString "Active"; "action" := AString "allow"; "route_id" := AString "R'1; reboot";
     "source_identity" := AMap {[ "value" := AString "10.8.0.2" ]}; "destination_type" := AString "endpoint";
     "destination" := AString "1.2.3.4:443"; "protocol" := AString "TCP"; "ports" := AString "443, 80-90";
     "egress" := AMap sample_egress; "enforcement" := AMap {[ "mode" := AString "l3_l4_candidate" ]} ]}.

Definition sample_system_route : gomap :=
  {[ "status" := AString "active"; "source" := AString "10.8.0.7/16"; "table" := AString "vpn-2";
     "interface" := AString "wg1" ]}.

Definition sample_input : kernel_input :=
  match kernel_rules (λ _, "") [AMap sample_route] [AMap sample_system_route] [] with
  | Ok i => i
  | Err _ => {| in_system := []; in_rules := []; in_targets := []; in_skipped := 0; in_reasons := [] |}
  end.

Lemma sample_rules : kernel_rules (λ _, "") [AMap sample_route] [AMap sample_system_route] [] = Ok sample_input.
Proof. vm_compute. reflexivity. Qed.

Lemma route_commands_read_witness :
  length (in_rules sample_input) = 1%nat ∧ length (in_system sample_input) = 1%nat
  ∧ Forall (λ rule, commands_read (λ _, false) rule "route_policy_prerouting") (in_rules sample_input).
Proof.
  split; [vm_compute; reflexivity|]. split; [vm_compute; reflexivity|].
  apply (route_commands_read (λ _, "") (λ _, false) [AMap sample_route] [AMap sample_system_route] [] sample_input).
  vm_compute. reflexivity.
Defined.

Lemma route_rules_distinct_witness :
  length (Mark <$> in_system sample_input ++ in_rules sample_input) = 2%nat
  ∧ NoDup (Mark <$> in_system sample_input ++ in_rules sample_input).
Proof.
  split; [vm_compute; reflexivity|].
  apply (route_rules_distinct (λ _, "") [AMap sample_route] [AMap sample_system_route] [] sample_input).
  vm_compute. reflexivity.
Defined.

Lemma route_targets_covered_witness :
  length (in_targets sample_input) = 2%nat ∧ NoDup (in_targets sample_input).
Proof.
  split; [vm_compute; reflexivity|].
  apply (route_targets_covered (λ _, "") [AMap sample_route] [AMap sample_system_route] [] sample_input).
  vm_compute. reflexivity.
Defined.

(** ** Findings *)

(** A list of ports with separators only is the empty expression: the rule then
    matches every port of the protocol. *)
Lemma separators_match_any_port : normalizeRoutePolicyPorts " , ," = Ok "".
Proof. reflexivity. Qed.

(** The revision is written into a comment line with blanks trimmed at its ends
    only: a line feed in it ends the comment, and what follows is a command of
    the script. *)
Lemma revision_line_feed_is_a_command :
  let revision := "1" +:+ String LF "reboot" in
  match renderRoutePolicyKernelScript (λ _, "") (λ _, false) [] [] revision [] with
  | Ok plan => split_char LF (kernel_Script plan) !! 5%nat
  | Err _ => None
  end = Some "reboot".
Proof. vm_compute. reflexivity. Qed.
