(* ===== verification/RoutePolicyAgent.v ===== *)
(** * The route policy jobs on the host

    [cmd/agent/route_policy.go]: the handlers that write the snapshot and the
    script of a policy, run it through its systemd unit, and clean everything up
    again, over the operations of [AgentHost]. *)
From stdpp Require Import gmap.
From S2P Require Import Prelude GoStrings Strconv GoValue Netip NetHost Firewall FirewallAgent FirewallText Shell AgentPaths AgentHost RoutePolicy RoutePolicyProps.
From Stdlib Require Import Ascii.
From stdpp Require Import options.
Open Scope Z_scope.

Definition defaultRoutePolicyPath : string := "/etc/megavpn/client-access-routes.json".

(** ** Paths *)

Definition isSafeRoutePolicyPath (path : string) : bool :=
  let path := trim_space path in
  if path =s "" then false
  else if contains_sub NUL_text path || contains_sub ".." path then false
  else (path =s defaultRoutePolicyPath) || has_prefix "/etc/megavpn/" path.

Definition isSafeRoutePolicyManagedPath (path : string) : bool :=
  let path := trim_space path in
  if (path =s "") || contains_sub NUL_text path || contains_sub ".." path then false
  else if has_prefix "/usr/local/lib/megavpn/route-policy/" path && has_suffix ".sh" path then true
  else (path =s routePolicyUnitPath) || (path =s routePolicyTimerPath).

Definition routePolicyExecutionError (pre output : string) : string :=
  let detail := firstLine (trim_space output) in if detail =s "" then pre else pre +:+ ": " +:+ detail.

(** ** Telemetry tables *)

Definition telemetry_table (table : string) : bool :=
  negb ((table =s "") || equal_fold_ascii table "main" || negb (isSafeNetworkToken table)).

Fixpoint safe_tables (seen : gset string) (tables : list string) : list string :=
  match tables with
  | [] => []
  | table :: tables =>
      let table := trim_space table in
      if negb (telemetry_table table) || bool_decide (table ∈ seen) then safe_tables seen tables
      else table :: safe_tables ({[ table ]} ∪ seen) tables
  end.
Definition routePolicySafeSortedTables (tables : list string) : list string :=
  take 20 (sort_strings (safe_tables ∅ tables)).

(** A route, or an empty one with nothing in it for what is no object. *)
Definition route_of (item : any) : gomap := default ∅ (as_map item).

Section handlers.
(** [fmt.Sprint], [strconv.IsPrint] beyond ASCII, and [encoding/json]: the
    indented text of a value, and the object a text decodes to (nil for null). *)
Context (sprint : any → string) (is_print : Z → bool).
Context (marshal_indent : gomap → result string string) (unmarshal : string → result string (option gomap)).

Notation text m key := (stringify sprint (m !! key)).

Definition routePolicyTelemetryTables (routes systemRoutes : list any) (snapshots : list routePolicyCleanupSnapshot)
  : list string :=
  let add table := let table := trim_space table in if telemetry_table table then Some table else None in
  routePolicySafeSortedTables
    (omap (λ item, route ← as_map item; add (text route "table")) systemRoutes
     ++ omap (λ item, route ← as_map item; add (text (nestedMap route "egress") "table")) routes
     ++ omap (λ t, add (target_Table t))
          (snapshots ≫= λ s, (routePolicyCleanupTargetsFromSnapshot sprint s).1)).

Definition routePolicySnapshotFromPayload (payload : gomap) : routePolicyCleanupSnapshot :=
  {| snap_Routes := default [] (slice_at payload "routes");
     snap_SystemRoutes := default [] (slice_at payload "system_routes") |}.

Definition validateRoutePolicyPayload (payload : gomap) : option string :=
  match slice_at payload "routes" with
  | None => Some "route policy routes must be an array"
  | Some _ =>
      match payload !! "system_routes" with
      | None | Some (ASlice _) => None
      | Some _ => Some "route policy system_routes must be an array"
      end
  end.

(** ** The handlers *)

Context {H : Type} (ops : agent_ops H).
Notation hostM := (hostM H).

(** One telemetry step. *)
Definition telemetry_step (label : string) (command : list string) : hostM any :=
  '(code, out) ← op_run ops command;
  mret (AMap {[ "label" := AString label; "command" := AStrings command; "exit_code" := AInt code;
                "output" := AString (truncate (trim_space out) 4000) ]}).

Fixpoint telemetry_steps (steps : list (string * list string)) : hostM (list any) :=
  match steps with
  | [] => mret []
  | (label, command) :: steps => s ← telemetry_step label command; rest ← telemetry_steps steps; mret (s :: rest)
  end.

Definition telemetry_commands (tables : list string) : list (string * list string) :=
  [("route_policy_unit_active", ["systemctl"; "is-active"; routePolicyUnitName]);
   ("route_policy_timer_active", ["systemctl"; "is-active"; routePolicyTimerName]);
   ("ip_rule_show", ["ip"; "rule"; "show"]);
   ("nft_route_policy_output", ["nft"; "list"; "chain"; "inet"; "megavpn"; "route_policy_output"]);
   ("nft_route_policy_prerouting", ["nft"; "list"; "chain"; "inet"; "megavpn"; "route_policy_prerouting"])]
  ++ ((λ table, ("ip_route_show_table_" +:+ table, ["ip"; "route"; "show"; "table"; table]))
      <$> routePolicySafeSortedTables tables).

Definition collectRoutePolicyKernelTelemetry (tables : list string) : hostM any :=
  steps ← telemetry_steps (telemetry_commands tables);
  now ← op_now ops;
  mret (AMap {[ "collected_at" := AString now; "steps" := ASlice steps ]}).

Definition readRoutePolicySnapshot (path : string) : hostM (routePolicyCleanupSnapshot * gomap) :=
  let none := {| snap_Routes := []; snap_SystemRoutes := [] |} in
  let result : gomap := {[ "path" := AString path; "found" := ABool false; "loaded" := ABool false ]} in
  if negb (isSafeRoutePolicyPath path) then
    mret (none, <["error" := AString "unsafe route policy snapshot path"]> result)
  else
    r ← op_read ops path;
    mret match r with
    | Err (NotExist _) => (none, result)
    | Err (IOError e) => (none, <["error" := AString e]> result)
    | Ok b =>
        let result := <["found" := ABool true]> result in
        match unmarshal b with
        | Err e => (none, <["error" := AString e]> result)
        | Ok payload =>
            let snapshot := match payload with Some p => routePolicySnapshotFromPayload p | None => none end in
            (snapshot,
             <["system_route_count" := AInt (Z.of_nat (length (snap_SystemRoutes snapshot)))]>
             (<["route_count" := AInt (Z.of_nat (length (snap_Routes snapshot)))]>
             (<["loaded" := ABool true]> result)))
        end
    end.

(** The node a job is for: its own, or the agent's when it names none; and the
    check that they agree. *)
Definition job_node (payload : gomap) (st : agentState) : string :=
  let nodeID := text payload "node_id" in if nodeID =s "" then NodeID st else nodeID.
Definition node_mismatch (payload : gomap) (st : agentState) : bool :=
  let nodeID := job_node payload st in
  negb (NodeID st =s "") && negb (nodeID =s "") && negb (nodeID =s NodeID st).
Definition output_path (payload : gomap) : string :=
  let outputPath := text payload "output_path" in if outputPath =s "" then defaultRoutePolicyPath else outputPath.

Definition mismatch_result (message : string) (payload : gomap) (st : agentState) : gomap :=
  {[ "error" := AString message; "payload_node_id" := AString (job_node payload st);
     "agent_node_id" := AString (NodeID st) ]}.

(** [fmt.Errorf] texts of the rule errors. *)
Definition rp_error_text (e : rp_error) : string :=
  match e with
  | UnsafeSystemTable => "system route contains unsafe table token"
  | UnsafeTable => "route policy egress contains unsafe table token"
  | UnsafeDev => "route policy egress contains unsafe dev token"
  | UnsafeNextHop => "route policy egress contains unsafe next-hop token"
  | UnsafePeer => "route policy egress contains unsafe peer token"
  | TooManySystemRules => "too many system route policy rules for reserved priority range"
  | TooManyRules => "too many route policy rules for reserved priority range"
  | InvalidPortRange part => "invalid route policy port range " +:+ Quote is_print part
  | RoutePortOutOfRange raw => "route policy port " +:+ Quote is_print raw +:+ " must be between 1 and 65535"
  end.

Definition failed (r : gomap) : string * gomap := ("failed", r).
Definition stage_error (error stage : string) : gomap := {[ "error" := AString error; "stage" := AString stage ]}.

(** Write a file of the enforcement, or fail with its stage. *)
Definition write_or_fail (path content mode stage key : string) (k : hostM (string * gomap)) : hostM (string * gomap) :=
  r ← op_write ops {| file_Path := path; file_Content := content; file_Mode := mode |};
  match r with
  | Err e => mret (failed (<[key := AString path]> (stage_error (error_text e) stage)))
  | Ok _ => k
  end.

(** A failed enforcement: the error and the telemetry in the kernel result. *)
Definition enforcement_failed (error : string) (kernelResult : gomap) (tables : list string) : hostM (string * gomap) :=
  telemetry ← collectRoutePolicyKernelTelemetry tables;
  let kernelResult := <["telemetry" := telemetry]> (<["error" := AString error]> kernelResult) in
  mret (failed {[ "error" := AString error; "kernel" := AMap kernelResult ]}).

(** Install and run the script; [k] continues with the kernel result. *)
Definition enforce (script : string) (kernelResult : gomap) (tables : list string)
    (k : gomap → hostM (string * gomap)) : hostM (string * gomap) :=
  if negb (isSafeRoutePolicyManagedPath routePolicyScriptPath) || negb (isSafeRoutePolicyManagedPath routePolicyUnitPath)
     || negb (isSafeRoutePolicyManagedPath routePolicyTimerPath)
  then mret (failed (stage_error "route policy managed path is not allowed" "route_policy_enforcement_paths"))
  else
  write_or_fail routePolicyScriptPath script "0700" "write_route_policy_script" "path" (
  write_or_fail routePolicyUnitPath renderRoutePolicyUnit "0644" "write_route_policy_unit" "path" (
  write_or_fail routePolicyTimerPath renderRoutePolicyTimer "0644" "write_route_policy_timer" "path" (
  '(reloadResult, err) ← runSystemdDaemonReload ops;
  match err with
  | Some e => enforcement_failed e (<["systemd_reload" := AMap reloadResult]> kernelResult) tables
  | None =>
      '(timerCode, timerOut) ← op_run ops ["systemctl"; "enable"; "--now"; routePolicyTimerName];
      '(code, out) ← op_run ops ["systemctl"; "restart"; routePolicyUnitName];
      let kernelResult :=
        <["enforced" := ABool ((code =? 0) && (timerCode =? 0))]>
        (<["timer_output" := AString (truncate timerOut 2000)]>
        (<["output" := AString (truncate out 2000)]>
        (<["systemd_reload" := AMap reloadResult]>
        (<["script_path" := AString routePolicyScriptPath]>
        (<["timer" := AString routePolicyTimerName]>
        (<["unit" := AString routePolicyUnitName]> kernelResult)))))) in
      if negb (timerCode =? 0) then
        enforcement_failed (routePolicyExecutionError "route policy refresh timer failed" timerOut) kernelResult tables
      else if negb (code =? 0) then
        enforcement_failed (routePolicyExecutionError "route policy kernel enforcement failed" out) kernelResult tables
      else
        telemetry ← collectRoutePolicyKernelTelemetry tables;
        k (<["telemetry" := telemetry]> kernelResult)
  end))).

(** The number of routes that satisfy [p]. *)
Definition count_routes (p : gomap → bool) (items : list any) : Z :=
  Z.of_nat (length (List.filter (λ item, p (route_of item)) items)).
Definition is_active (route : gomap) : bool := equal_fold_ascii (text route "status") "active".

Definition applyRoutePolicy (payload : gomap) (st : agentState) : hostM (string * gomap) :=
  if node_mismatch payload st
  then mret (failed (mismatch_result "route policy node_id does not match enrolled agent" payload st))
  else
  let outputPath := output_path payload in
  if negb (isSafeRoutePolicyPath outputPath)
  then mret (failed {[ "error" := AString "route policy output_path is outside /etc/megavpn"; "output_path" := AString outputPath ]})
  else
  match slice_at payload "routes" with
  | None => mret (failed {[ "error" := AString "route policy routes payload must be an array" ]})
  | Some routes =>
      let systemRoutes := default [] (slice_at payload "system_routes") in
      '(previousSnapshot, previousSnapshotResult) ← readRoutePolicySnapshot outputPath;
      let snapshot := <["output_path" := AString outputPath]> (<["node_id" := AString (job_node payload st)]> payload) in
      match marshal_indent snapshot with
      | Err e => mret (failed (stage_error e "marshal_route_policy"))
      | Ok b =>
      write_or_fail outputPath (b +:+ String LF "") "0640" "write_route_policy" "output_path" (
      match renderRoutePolicyKernelScript sprint is_print routes systemRoutes (text payload "revision") [previousSnapshot] with
      | Err e => mret (failed (<["output_path" := AString outputPath]>
                                 (stage_error (rp_error_text e) "render_route_policy_enforcement")))
      | Ok kernelPlan =>
          let kernelResult : gomap := list_to_map [
            ("enforced", ABool false); ("rule_count", AInt (RuleCount kernelPlan));
            ("system_rule_count", AInt (kernel_SystemRuleCount kernelPlan));
            ("marked_count", AInt (MarkedCount kernelPlan)); ("skipped_count", AInt (SkippedCount kernelPlan));
            ("skipped_reasons", AStrings (Reasons kernelPlan));
            ("previous_snapshot", AMap previousSnapshotResult)] in
          let tables := routePolicyTelemetryTables routes systemRoutes [previousSnapshot] in
          let finish kernelResult :=
            let enforced := default ANil (kernelResult !! "enforced") in
            let message :=
              if 0 <? RuleCount kernelPlan + kernel_SystemRuleCount kernelPlan
              then "route policy snapshot and kernel egress enforcement applied"
              else match enforced with
                   | ABool true => "route policy snapshot and kernel egress cleanup applied"
                   | _ => "route policy snapshot applied"
                   end in
            let candidate := count_routes (λ r, text (nestedMap r "egress") "status" =s "candidate") routes in
            let enforceable := count_routes (λ r, text (nestedMap r "enforcement") "mode" =s "l3_l4_candidate") routes in
            let n := Z.of_nat (length routes) in
            mret ("succeeded", (list_to_map [
              ("message", AString message); ("node_id", AString (job_node payload st));
              ("output_path", AString outputPath); ("revision", AString (text payload "revision"));
              ("enforcement_mode", AString (first [text payload "enforcement_mode"; "snapshot"]));
              ("enforced", enforced); ("kernel", AMap kernelResult);
              ("enforceable_routes", AInt enforceable); ("observe_only_routes", AInt (n - enforceable));
              ("egress_candidate_routes", AInt candidate); ("egress_blocked_routes", AInt (n - candidate));
              ("route_count", AInt n); ("active_route_count", AInt (count_routes is_active routes));
              ("system_route_count", AInt (Z.of_nat (length systemRoutes)));
              ("active_system_route_count", AInt (count_routes is_active systemRoutes))] : gomap)) in
          if trim_space (kernel_Script kernelPlan) =s "" then finish kernelResult
          else enforce (kernel_Script kernelPlan) kernelResult tables finish
      end)
      end
  end.

(** *** Cleanup *)

(** The removal loop: removed, skipped and warned paths. *)
Fixpoint remove_paths (paths : list string) : hostM (list string * list string * list string) :=
  match paths with
  | [] => mret ([], [], [])
  | path :: paths =>
      r ← op_remove ops path false;
      '(removed, skipped, warnings) ← remove_paths paths;
      mret match r with
           | Err e => (removed, skipped, (path +:+ ": " +:+ error_text e) :: warnings)
           | Ok true => (path :: removed, skipped, warnings)
           | Ok false => (removed, (path +:+ ": not found") :: skipped, warnings)
           end
  end.

Definition cleanup_paths (outputPath : string) : list string :=
  [outputPath; routePolicyScriptPath; routePolicyCleanupScriptPath; routePolicyUnitPath; routePolicyTimerPath].

(** What follows the cleanup script: remove the files, reload and reset systemd. *)
Definition finish_cleanup (outputPath : string) (code : Z) (tables : list string) (result : gomap)
  : hostM (string * gomap) :=
  '(removed, skipped, warnings) ← remove_paths (cleanup_paths outputPath);
  '(reloadResult, err) ← runSystemdDaemonReload ops;
  let result := <["systemd_reload" := AMap reloadResult]> result in
  match err with
  | Some e =>
      telemetry ← collectRoutePolicyKernelTelemetry tables;
      mret (failed (<["telemetry_after" := telemetry]> (<["error" := AString e]> result)))
  | None =>
      '(resetCode, resetOut) ← op_run ops ["systemctl"; "reset-failed"; routePolicyUnitName; routePolicyTimerName];
      let warnings := warnings ++ (if negb (resetCode =? 0) && negb (isMissingSystemdUnitOutput resetOut)
                                   then ["systemd reset-failed warning: " +:+ firstLine resetOut] else []) in
      let result := <["skipped_paths" := AStrings skipped]> (<["removed_paths" := AStrings removed]>
        (<["reset_failed_output" := AString (truncate (trim_space resetOut) 2000)]> result)) in
      let result := match warnings with [] => result | _ => <["warnings" := AStrings warnings]> result end in
      telemetry ← collectRoutePolicyKernelTelemetry tables;
      let result := <["telemetry_after" := telemetry]> result in
      mret (if code =? 0 then ("succeeded", result)
            else failed (<["error" := AString "route policy cleanup script failed"]> result))
  end.

(** The snapshots a cleanup works from: the payload's and the file's. *)
Definition combined_snapshot (payload : gomap) (fileSnapshot : routePolicyCleanupSnapshot) : routePolicyCleanupSnapshot :=
  let payloadSnapshot := routePolicySnapshotFromPayload payload in
  {| snap_Routes := snap_Routes payloadSnapshot ++ snap_Routes fileSnapshot;
     snap_SystemRoutes := snap_SystemRoutes payloadSnapshot ++ snap_SystemRoutes fileSnapshot |}.

Definition cleanupRoutePolicy (payload : gomap) (st : agentState) : hostM (string * gomap) :=
  if node_mismatch payload st
  then mret (failed (mismatch_result "route policy cleanup node_id does not match enrolled agent" payload st))
  else
  let outputPath := output_path payload in
  if negb (isSafeRoutePolicyPath outputPath)
  then mret (failed {[ "error" := AString "route policy output_path is outside /etc/megavpn"; "output_path" := AString outputPath ]})
  else
  '(fileSnapshot, fileSnapshotResult) ← readRoutePolicySnapshot outputPath;
  let combined := combined_snapshot payload fileSnapshot in
  let plan := renderRoutePolicyCleanupScript sprint combined (text payload "revision") in
  let tables := routePolicyTelemetryTables (snap_Routes combined) (snap_SystemRoutes combined) [] in
  telemetry ← collectRoutePolicyKernelTelemetry tables;
  '(stopCode, stopOut) ← op_run ops ["systemctl"; "disable"; "--now"; routePolicyTimerName; routePolicyUnitName];
  let result : gomap := list_to_map [
    ("message", AString "route policy cleanup completed"); ("node_id", AString (job_node payload st));
    ("output_path", AString outputPath); ("unit", AString routePolicyUnitName); ("timer", AString routePolicyTimerName);
    ("script_path", AString routePolicyCleanupScriptPath); ("cleanup_targets", AInt (MarkedCount plan));
    ("skipped_count", AInt (SkippedCount plan)); ("skipped_reasons", AStrings (Reasons plan));
    ("previous_snapshot", AMap fileSnapshotResult); ("telemetry_before", telemetry);
    ("stop_output", AString (truncate (trim_space stopOut) 2000))] in
  let result := if negb (stopCode =? 0) && negb (isMissingSystemdUnitOutput stopOut)
                then <["stop_warning" := AString "route policy unit/timer stop returned non-zero"]> result else result in
  if negb (isSafeRoutePolicyManagedPath routePolicyCleanupScriptPath)
  then mret (failed (stage_error "route policy cleanup script path is not allowed" "route_policy_cleanup_path"))
  else
  write_or_fail routePolicyCleanupScriptPath (kernel_Script plan) "0700" "write_route_policy_cleanup_script" "path" (
  '(code, out) ← op_run ops [routePolicyCleanupScriptPath];
  finish_cleanup outputPath code tables
    (<["cleanup_exit_code" := AInt code]> (<["cleanup_output" := AString (truncate (trim_space out) 4000)]> result))).
End handlers.

(** ** What a job may do to the host *)

(** The commands: systemd on the policy's own unit and timer, the cleanup script,
    and read-only queries. *)
Definition policy_command (args : list string) : Prop :=
  match args with
  | ["systemctl"; "daemon-reload"] => True
  | ["systemctl"; "is-active"; u] | ["systemctl"; "restart"; u] | ["systemctl"; "enable"; "--now"; u] =>
      u ∈ [routePolicyUnitName; routePolicyTimerName]
  | ["systemctl"; "disable"; "--now"; u; v] | ["systemctl"; "reset-failed"; u; v] =>
      u ∈ [routePolicyUnitName; routePolicyTimerName] ∧ v ∈ [routePolicyUnitName; routePolicyTimerName]
  | ["ip"; "rule"; "show"] => True
  | ["ip"; "route"; "show"; "table"; t] => isSafeNetworkToken t = true
  | "nft" :: "list" :: _ => True
  | [script] => script = routePolicyCleanupScriptPath
  | _ => False
  end.

(** The files: the snapshot, and the scripts, unit and timer of the policy. *)
Definition policy_file (path : string) : Prop :=
  isSafeRoutePolicyPath path = true ∨ isSafeRoutePolicyManagedPath path = true.

Definition policy_event (e : op_event) : Prop :=
  match e with
  | OpRan args => policy_command args
  | OpQueried _ => False
  | OpWrote file _ => policy_file (file_Path file)
  | OpRemoved path recursive => policy_file path ∧ recursive = false
  end.

Lemma safe_tables_ok seen tables : Forall (λ t, isSafeNetworkToken t = true) (safe_tables seen tables).
Proof.
  revert seen. induction tables as [|t ts IH]; intros seen; cbn [safe_tables]; [constructor|].
  destruct (negb (telemetry_table _) || _) eqn:E; [apply IH|]. constructor; [|apply IH].
  unfold telemetry_table in E. by split_bools.
Qed.

Lemma sorted_tables_ok tables : Forall (λ t, isSafeNetworkToken t = true) (routePolicySafeSortedTables tables).
Proof.
  unfold routePolicySafeSortedTables. apply Forall_take. apply Forall_forall. intros t Ht%elem_of_isort.
  pose proof (safe_tables_ok ∅ tables) as H. rewrite Forall_forall in H. by apply H.
Qed.

Lemma own_units : routePolicyUnitName ∈ [routePolicyUnitName; routePolicyTimerName]
  ∧ routePolicyTimerName ∈ [routePolicyUnitName; routePolicyTimerName].
Proof. set_solver. Qed.

(** *** The steps of the handlers *)

Section steps.
Context {H : Type} (ops : agent_ops H).

Lemma telemetry_logs tables : logs policy_event (collectRoutePolicyKernelTelemetry (traced_ops ops) tables).
Proof.
  unfold collectRoutePolicyKernelTelemetry. apply logs_mbind; [|intros; by walk_ops].
  assert (Forall (λ step, policy_command step.2) (telemetry_commands tables)) as Hc.
  { unfold telemetry_commands. repeat (apply Forall_cons; split; [simpl; first [done|set_solver]|]).
    apply Forall_fmap. eapply Forall_impl; [apply sorted_tables_ok|]. done. }
  induction Hc as [|[label command] steps Hs Hsteps IH]; cbn [telemetry_steps]; [walk_ops|].
  apply logs_mbind; [unfold telemetry_step; by walk_ops|]. intros. apply logs_mbind; [done|]. intros. walk_ops.
Qed.

Lemma reload_logs : logs policy_event (runSystemdDaemonReload (traced_ops ops)).
Proof. unfold runSystemdDaemonReload. by walk_ops. Qed.

Lemma write_or_fail_logs path content mode stage key k :
  policy_file path → logs policy_event k → logs policy_event (write_or_fail (traced_ops ops) path content mode stage key k).
Proof. intros. unfold write_or_fail. by walk_ops. Qed.

Lemma enforcement_failed_logs e r tables : logs policy_event (enforcement_failed (traced_ops ops) e r tables).
Proof. unfold enforcement_failed. apply logs_mbind; [apply telemetry_logs|]. intros. walk_ops. Qed.

Lemma enforce_logs script r tables k :
  (∀ r, logs policy_event (k r)) → logs policy_event (enforce (traced_ops ops) script r tables k).
Proof.
  intros Hk. unfold enforce.
  destruct (_ || negb (isSafeRoutePolicyManagedPath routePolicyTimerPath)); [walk_ops|].
  do 3 (apply write_or_fail_logs; [by right|]).
  apply logs_mbind; [apply reload_logs|]. intros [reload [e|]]; [apply enforcement_failed_logs|].
  apply logs_mbind; [apply logs_run_op; simpl; destruct own_units; done|]. intros [tc to].
  apply logs_mbind; [apply logs_run_op; simpl; destruct own_units; done|]. intros [c o].
  destruct (negb (tc =? 0)); [apply enforcement_failed_logs|].
  destruct (negb (c =? 0)); [apply enforcement_failed_logs|].
  apply logs_mbind; [apply telemetry_logs|]. intros. apply Hk.
Qed.

Lemma remove_paths_logs paths : Forall policy_file paths → logs policy_event (remove_paths (traced_ops ops) paths).
Proof. induction 1 as [|p ps Hp Hps IH]; cbn [remove_paths]; [walk_ops|]. by walk_ops. Qed.

End steps.

Section job.
Context (sprint : any → string) (is_print : Z → bool).
Context (marshal_indent : gomap → result string string) (unmarshal : string → result string (option gomap)).
Context {H : Type} (ops : agent_ops H).

Notation apply := (applyRoutePolicy sprint is_print marshal_indent unmarshal (traced_ops ops)).
Notation cleanup := (cleanupRoutePolicy sprint unmarshal (traced_ops ops)).

Lemma read_snapshot_logs path : logs policy_event (readRoutePolicySnapshot unmarshal (traced_ops ops) path).
Proof. unfold readRoutePolicySnapshot. walk_ops. Qed.

Lemma route_apply_logs payload st : logs policy_event (apply payload st).
Proof.
  unfold applyRoutePolicy. destruct (node_mismatch sprint payload st); [apply logs_mret|]. cbv zeta.
  destruct (negb (isSafeRoutePolicyPath (output_path sprint payload))) eqn:Ep; [walk_ops|]. apply negb_false_iff in Ep.
  destruct (slice_at payload "routes") as [routes|]; [|walk_ops].
  apply logs_mbind; [apply read_snapshot_logs|]. intros [prev prevResult].
  destruct (marshal_indent _) as [b|e]; [|walk_ops].
  apply write_or_fail_logs; [by left|]. destruct (renderRoutePolicyKernelScript _ _ _ _ _ _) as [plan|e]; [|walk_ops].
  destruct (_ =s ""); [walk_ops|]. apply enforce_logs. intros. walk_ops.
Qed.

Lemma route_cleanup_logs payload st : logs policy_event (cleanup payload st).
Proof.
  unfold cleanupRoutePolicy. destruct (node_mismatch sprint payload st); [apply logs_mret|]. cbv zeta.
  destruct (negb (isSafeRoutePolicyPath (output_path sprint payload))) eqn:Ep; [walk_ops|]. apply negb_false_iff in Ep.
  apply logs_mbind; [apply read_snapshot_logs|]. intros [prev prevResult].
  apply logs_mbind; [apply telemetry_logs|]. intros t.
  apply logs_mbind; [apply logs_run_op; simpl; destruct own_units; done|]. intros [c o].
  destruct (negb (isSafeRoutePolicyManagedPath _)); [walk_ops|].
  apply write_or_fail_logs; [by right|]. apply logs_mbind; [by apply logs_run_op|]. intros [code out].
  unfold finish_cleanup. apply logs_mbind.
  { apply remove_paths_logs. unfold cleanup_paths. apply Forall_cons. split; [by left|].
    repeat (apply Forall_cons; split; [by right|]). constructor. }
  intros [[removed skipped] warnings]. apply logs_mbind; [apply reload_logs|]. intros [reload [e|]].
  - apply logs_mbind; [apply telemetry_logs|]. intros. walk_ops.
  - apply logs_mbind; [apply logs_run_op; simpl; destruct own_units; done|]. intros [rc ro].
    apply logs_mbind; [apply telemetry_logs|]. intros. walk_ops.
Qed.

(** A route policy job, whatever its payload and however the host answers,
    writes and removes only the snapshot under /etc/megavpn and the policy's own
    scripts, unit and timer, removes nothing recursively, and runs only systemd on
    that unit and timer, the cleanup script, and queries. *)
Theorem route_job_own_objects (payload : gomap) (st : agentState) (h : H) :
  Forall policy_event (events_of (apply payload st) h) ∧ Forall policy_event (events_of (cleanup payload st) h).
Proof. split; [apply events_of_logs, route_apply_logs|apply events_of_logs, route_cleanup_logs]. Qed.
End job.

(** ** The script an apply installs *)

Section script.
Context (sprint : any → string) (is_print : Z → bool).
Context (marshal_indent : gomap → result string string) (unmarshal : string → result string (option gomap)).
Context {H : Type} (ops : agent_ops H).

Notation apply := (applyRoutePolicy sprint is_print marshal_indent unmarshal (traced_ops ops)).
Notation text m key := (stringify sprint (m !! key)).

(** An event that writes the script writes the one of the plan. *)
Definition script_event (payload : gomap) (prev : routePolicyCleanupSnapshot) (e : op_event) : Prop :=
  match e with
  | OpWrote file _ =>
      file_Path file = routePolicyScriptPath →
      ∃ routes plan, slice_at payload "routes" = Some routes
        ∧ renderRoutePolicyKernelScript sprint is_print routes (default [] (slice_at payload "system_routes"))
            (text payload "revision") [prev] = Ok plan
        ∧ file_Content file = kernel_Script plan
  | _ => True
  end.

Lemma policy_not_script payload prev e :
  policy_event e → (∀ f b, e ≠ OpWrote f b) → script_event payload prev e.
Proof. destruct e; try done. intros _ He. by destruct (He file done). Qed.

Lemma query_logs {A} payload prev (m : hostM (H * list op_event) A) :
  logs (λ e, ∀ f b, e ≠ OpWrote f b) m → logs (script_event payload prev) m.
Proof. apply logs_impl. intros [] He; try done. by destruct (He file done). Qed.

Lemma telemetry_queries tables :
  logs (λ e, ∀ f b, e ≠ OpWrote f b) (collectRoutePolicyKernelTelemetry (traced_ops ops) tables).
Proof.
  unfold collectRoutePolicyKernelTelemetry. apply logs_mbind; [|intros; by walk_ops].
  induction (telemetry_commands tables) as [|[label command] steps IH]; cbn [telemetry_steps]; [walk_ops|].
  apply logs_mbind; [unfold telemetry_step; by walk_ops|]. intros. apply logs_mbind; [done|]. intros. walk_ops.
Qed.

Lemma failed_queries e r tables :
  logs (λ e, ∀ f b, e ≠ OpWrote f b) (enforcement_failed (traced_ops ops) e r tables).
Proof. unfold enforcement_failed. apply logs_mbind; [apply telemetry_queries|]. intros. walk_ops. Qed.

Lemma enforce_script payload prev plan routes r tables k :
  slice_at payload "routes" = Some routes →
  renderRoutePolicyKernelScript sprint is_print routes (default [] (slice_at payload "system_routes"))
    (text payload "revision") [prev] = Ok plan →
  (∀ r, logs (script_event payload prev) (k r)) →
  logs (script_event payload prev) (enforce (traced_ops ops) (kernel_Script plan) r tables k).
Proof.
  intros Hr Hp Hk. unfold enforce.
  destruct (_ || negb (isSafeRoutePolicyManagedPath routePolicyTimerPath)); [walk_ops|].
  unfold write_or_fail. do 3 (apply logs_mbind; [apply logs_write; intros b; try done; simpl; eauto|intros [|]; [|walk_ops]]).
  apply logs_mbind; [unfold runSystemdDaemonReload; by walk_ops|].
  intros [reload [e|]]; [apply query_logs, failed_queries|].
  apply logs_mbind; [by apply logs_run_op|]. intros [tc to].
  apply logs_mbind; [by apply logs_run_op|]. intros [c o].
  destruct (negb (tc =? 0)); [apply query_logs, failed_queries|].
  destruct (negb (c =? 0)); [apply query_logs, failed_queries|].
  apply logs_mbind; [apply query_logs, telemetry_queries|]. intros. apply Hk.
Qed.

(** The snapshot a host holds for a payload. *)
Definition held_snapshot (payload : gomap) (h : H) : routePolicyCleanupSnapshot :=
  (readRoutePolicySnapshot unmarshal ops (output_path sprint payload) h).1.1.

Lemma read_snapshot_traced path h log :
  let r := readRoutePolicySnapshot unmarshal ops path h in
  readRoutePolicySnapshot unmarshal (traced_ops ops) path (h, log) = (r.1, (r.2, log)).
Proof.
  unfold readRoutePolicySnapshot. destruct (negb _); [done|]. unfold mbind, hostM_bind. simpl.
  unfold unlogged_op. destruct (op_read ops path h) as [r h1]. reflexivity.
Qed.

Lemma safe_path_not_script path : isSafeRoutePolicyPath path = true → path ≠ routePolicyScriptPath.
Proof. intros E ->. vm_compute in E. done. Qed.

Lemma apply_script payload st h :
  Forall (script_event payload (held_snapshot payload h)) (events_of (apply payload st) h).
Proof.
  unfold applyRoutePolicy. destruct (node_mismatch sprint payload st); [apply events_of_logs, logs_mret|]. cbv zeta.
  destruct (negb (isSafeRoutePolicyPath (output_path sprint payload))) eqn:Ep; [apply events_of_logs, logs_mret|].
  apply negb_false_iff, safe_path_not_script in Ep.
  destruct (slice_at payload "routes") as [routes|] eqn:Er; [|apply events_of_logs, logs_mret].
  unfold events_of. unfold mbind at 1, hostM_bind at 1. rewrite read_snapshot_traced. unfold held_snapshot.
  destruct (readRoutePolicySnapshot _ _ _ h) as [[prev prevResult] h1]. simpl.
  apply (events_of_logs (script_event payload prev)).
  destruct (marshal_indent _) as [b|e]; [|walk_ops]. unfold write_or_fail.
  apply logs_mbind; [apply logs_write; intros ? Hpath; by destruct Ep|]. intros [|]; [|walk_ops].
  destruct (renderRoutePolicyKernelScript _ _ _ _ _ _) as [plan|e] eqn:Eplan; [|walk_ops].
  destruct (_ =s ""); [walk_ops|]. eapply enforce_script; [done|done|]. intros. walk_ops.
Qed.

(** Nothing is written for an unsafe output path. *)
Lemma written_needs_path payload st h e :
  e ∈ events_of (apply payload st) h → isSafeRoutePolicyPath (output_path sprint payload) = true.
Proof.
  intros He. destruct (isSafeRoutePolicyPath _) eqn:Ep; [done|]. exfalso. revert He.
  unfold applyRoutePolicy. destruct (node_mismatch sprint payload st); [by intros ?%elem_of_nil|]. cbv zeta.
  rewrite Ep. by intros ?%elem_of_nil.
Qed.

End script.

(** ** A sample host *)

Module RouteSample.
(** The files by path; every command succeeds. *)
Definition host : agent_ops (gmap string string) :=
  {| op_run := λ _ h, ((0, ""), h); op_output := λ _ h, ("", h);
     op_write := λ f h, (Ok (), <[file_Path f := file_Content f]> h);
     op_remove := λ p _ h, (Ok (bool_decide (is_Some (h !! p))), delete p h);
     op_lstat := λ p h, (Err (NotExist p), h);
     op_read := λ p h, (match h !! p with Some c => Ok c | None => Err (NotExist p) end, h);
     op_now := λ h, ("", h) |}.

Definition policy (revision : string) (routes : list any) : gomap :=
  {[ "revision" := AString revision; "routes" := ASlice routes ]}.
Definition policy1 : gomap := policy "1" [AMap sample_route].
(** A later policy whose only route has a table the renderer refuses. *)
Definition policy2 : gomap :=
  policy "2" [AMap (<["egress" := AMap (<["table" := AString "a b"]> sample_egress)]> sample_route)].
Definition policy3 : gomap := policy "3" [].

(** Texts that name the revision stand for the JSON of the three policies. *)
Definition marshal (p : gomap) : result string string := Ok (stringify (λ _, "") (p !! "revision")).
Definition unmarshal (b : string) : result string (option gomap) :=
  if has_prefix "1" b then Ok (Some policy1) else if has_prefix "2" b then Ok (Some policy2) else Ok None.
Definition state : agentState := {| NodeID := "n1"; ControlPlaneURL := "" |}.

Definition apply (p : gomap) (h : gmap string string) : (string * gomap) * gmap string string :=
  applyRoutePolicy (λ _, "") (λ _, false) marshal unmarshal host p state h.
Definition script (h : gmap string string) : string := default "" (h !! routePolicyScriptPath).

Definition held : gmap string string := {[ defaultRoutePolicyPath := "1" ]}.
Definition events : list op_event :=
  events_of (applyRoutePolicy (λ _, "") (λ _, false) marshal unmarshal (traced_ops host) policy3 state) held.
Definition script_file : managedFileSpec :=
  match events !! 1%nat with
  | Some (OpWrote file _) => file
  | _ => {| file_Path := ""; file_Content := ""; file_Mode := "" |}
  end.
Definition input1 : kernel_input :=
  match kernel_rules (λ _, "") [AMap sample_route] [] [] with
  | Ok i => i
  | Err _ => {| in_system := []; in_rules := []; in_targets := []; in_skipped := 0; in_reasons := [] |}
  end.
Definition rule1 : routePolicyKernelRule :=
  match in_rules input1 with
  | r :: _ => r
  | [] => {| RouteID := ""; rp_Source := ""; rp_Destination := ""; rp_Protocol := ""; rp_Ports := ""; rp_Table := "";
             Candidates := []; Priority := 0; Mark := ""; rp_Comment := "" |}
  end.
End RouteSample.


(** ** Finding: a refused policy loses the snapshot of the one in force

    The snapshot file is written before the script is rendered.  When rendering
    refuses the new policy, the job fails and the old rules stay in the kernel,
    but the file now names the refused policy: the next apply no longer flushes
    the routes of the one that was in force. *)
Lemma refused_policy_loses_the_snapshot :
  let h1 := (RouteSample.apply RouteSample.policy1 ∅).2 in
  let '((status2, _), h2) := RouteSample.apply RouteSample.policy2 h1 in
  let '((status3, _), h3) := RouteSample.apply RouteSample.policy3 h2 in
  let flushed := "route_policy_flush_destination '1.2.3.4/32' 'vpn-1'" in
  (status2, status3) = ("failed", "succeeded")
  ∧ contains_sub flushed (RouteSample.script h1) = true
  ∧ contains_sub flushed (RouteSample.script (RouteSample.apply RouteSample.policy3 h1).2) = true
  ∧ contains_sub flushed (RouteSample.script h3) = false.
Proof. vm_compute. repeat split. Qed.
