(* ===== verification/NetPolicy.v ===== *)
(** * The network policy of an instance

    [cmd/agent/netpolicy.go]: an instance specification may ask for kernel
    parameters, nftables rules, NAT rules and routes.  The agent parses each part,
    renders one shell script for them and runs it through a systemd unit of the
    instance; removing the instance deletes what the script added. *)
From stdpp Require Import gmap.
From S2P Require Import Prelude GoStrings Strconv GoValue Netip Driver Firewall FirewallAgent FirewallText Shell AgentPaths AgentHost RoutePolicy.
From Stdlib Require Import Ascii.
From stdpp Require Import options.
Open Scope Z_scope.

(** ** Data *)

Record firewallRuleSpec := {
  fw_Direction : string; fw_Action : string; fw_Protocol : string; fw_Port : Z; fw_Source : string;
  fw_Interface : string; fw_Comment : string }.

Record routeSpec := {
  rt_Destination : string; rt_Via : string; rt_Dev : string; rt_Source : string; rt_Table : string; rt_Metric : Z }.

Record natRuleSpec := {
  nat_Type : string; nat_Family : string; nat_Source : string; nat_OutInterface : string; nat_Comment : string }.

Notation E := (result string).

(** ** Names *)

Definition policy_slug (payload : instanceJobPayload) : string :=
  slugifyLocal (first [Slug payload; InstanceID payload; pl_Name payload; "instance"]).

Definition nftVerdict (action : string) : string := if action =s "allow" then "accept" else action.

Definition firewallRuleComment (payload : instanceJobPayload) (rule : firewallRuleSpec) : string :=
  "megavpn:" +:+ policy_slug payload +:+ ":" +:+ fw_Direction rule +:+ ":" +:+ fw_Protocol rule +:+ ":"
  +:+ itoa (fw_Port rule) +:+ ":" +:+ fw_Action rule.

Definition natRuleCommentPrefix (payload : instanceJobPayload) : string :=
  "megavpn:" +:+ policy_slug payload +:+ ":nat:".

Definition natRuleComment (payload : instanceJobPayload) (rule : natRuleSpec) : string :=
  natRuleCommentPrefix payload +:+ nat_Type rule +:+ ":" +:+ replace_char "/" "_" (nat_Source rule)
  +:+ (if nat_OutInterface rule =s "" then "" else ":" +:+ nat_OutInterface rule).

Section parse.
(** [fmt.Sprint], [strconv.IsPrint] beyond ASCII, and the order in which a range
    over a map visits its entries. *)
Context (sprint : any → string) (is_print : Z → bool) (order : gomap → list (string * any)).

Notation text m key := (stringify sprint (m !! key)).

(** [firstAny]: the first value whose text is not empty, as its text. *)
Fixpoint firstAny (values : list (option any)) : option any :=
  match values with
  | [] => None
  | v :: values => if stringify sprint v =s "" then firstAny values else v
  end.

Fixpoint object_items (idx : Z) (field : string) (items : list any) : E (list gomap) :=
  match items with
  | [] => Ok []
  | AMap m :: items => out ← object_items (idx + 1) field items; Ok (m :: out)
  | _ :: _ => Err (field +:+ "[" +:+ itoa idx +:+ "] must be an object")
  end.

Definition objectList (raw : option any) (field : string) : E (list gomap) :=
  match raw with
  | None | Some ANil => Ok []
  | Some (ASlice items) => object_items 0 field items
  | Some _ => Err (field +:+ " must be an array")
  end.

Fixpoint sysctl_entries (entries : list (string * any)) (out : gmap string string) : E (gmap string string) :=
  match entries with
  | [] => Ok out
  | (key, value) :: entries =>
      let key := trim_space key in
      if negb (isSafeSysctlKey key) then Err ("invalid sysctl key " +:+ Quote is_print key)
      else
        let text := stringify sprint (Some value) in
        if text =s "" then Err ("sysctl " +:+ key +:+ " value is empty")
        else sysctl_entries entries (<[key := text]> out)
  end.

Definition parseSysctlSpec (raw : option any) : E (gmap string string) :=
  match raw with
  | None | Some ANil => Ok ∅
  | Some (AMap m) => sysctl_entries (order m) ∅
  | Some _ => Err "spec.sysctl must be an object"
  end.

(** A guard of the parsers: the message of item [idx]. *)
Definition at_item (field : string) (idx : Z) (message : string) : string :=
  "spec." +:+ field +:+ "[" +:+ itoa idx +:+ "]" +:+ message.

Definition optional_token (s : string) : bool := (s =s "") || isSafeNetworkToken s.

Definition parse_firewall_rule (idx : Z) (item : gomap) : E firewallRuleSpec :=
  let rule := {|
    fw_Direction := to_lower (first [text item "direction"; "input"]);
    fw_Action := to_lower (first [text item "action"; "allow"]);
    fw_Protocol := to_lower (first [text item "protocol"; text item "proto"]);
    fw_Port := intFromAnyOf [item !! "port"; item !! "dport"; item !! "listen_port"];
    fw_Source := stringify sprint (firstAny [item !! "source"; item !! "src"]);
    fw_Interface := stringify sprint (firstAny [item !! "interface"; item !! "iifname"; item !! "dev"]);
    fw_Comment := text item "comment" |} in
  let err message := at_item "firewall_rules" idx message in
  _ ← guard_err (one_of (fw_Direction rule) ["input"; "forward"]) (err ".direction must be input or forward");
  _ ← guard_err (one_of (fw_Action rule) ["allow"; "drop"; "reject"]) (err ".action must be allow, drop or reject");
  _ ← guard_err (one_of (fw_Protocol rule) ["tcp"; "udp"]) (err ".protocol must be tcp or udp");
  _ ← guard_err (negb ((fw_Port rule <=? 0) || (65535 <? fw_Port rule))) (err ".port must be between 1 and 65535");
  _ ← guard_err (optional_token (fw_Source rule)) (err ".source is invalid");
  _ ← guard_err (optional_token (fw_Interface rule)) (err ".interface is invalid");
  Ok rule.

Definition parse_nat_rule (idx : Z) (item : gomap) : E natRuleSpec :=
  let err message := at_item "nat_rules" idx message in
  let type := to_lower (first [text item "type"; "masquerade"]) in
  let family := to_lower (first [text item "family"; "ip"]) in
  let out := stringify sprint (firstAny [item !! "out_interface"; item !! "oifname"; item !! "interface"]) in
  _ ← guard_err (type =s "masquerade") (err ".type must be masquerade");
  _ ← guard_err (one_of family ["ip"; "ip6"]) (err ".family must be ip or ip6");
  match ParsePrefix (first [text item "source"; text item "src"; text item "cidr"]) with
  | None => Err (err ".source must be a CIDR prefix")
  | Some prefix =>
      let prefix := Masked prefix in
      _ ← guard_err (negb ((family =s "ip") && negb (Is4 (prefix_addr prefix)))) (err ".source must be IPv4 for family ip");
      _ ← guard_err (negb ((family =s "ip6") && negb (Is6 (prefix_addr prefix)))) (err ".source must be IPv6 for family ip6");
      _ ← guard_err (optional_token out) (err ".out_interface is invalid");
      Ok {| nat_Type := type; nat_Family := family; nat_Source := prefix_string prefix; nat_OutInterface := out;
            nat_Comment := text item "comment" |}
  end.

(** The loop over the tokens of a route. *)
Fixpoint check_tokens (idx : Z) (tokens : list string) : E () :=
  match tokens with
  | [] => Ok ()
  | token :: tokens =>
      if optional_token token then check_tokens idx tokens
      else Err (at_item "routes" idx (" contains invalid token " +:+ Quote is_print token))
  end.

Definition parse_route (idx : Z) (item : gomap) : E routeSpec :=
  let route := {|
    rt_Destination := first [text item "destination"; text item "dst"; text item "cidr"; text item "to"];
    rt_Via := first [text item "via"; text item "gateway"];
    rt_Dev := first [text item "dev"; text item "interface"];
    rt_Source := first [text item "source"; text item "src"];
    rt_Table := text item "table";
    rt_Metric := intFromAnyOf [item !! "metric"] |} in
  _ ← guard_err (negb (rt_Destination route =s "")) (at_item "routes" idx ".destination is required");
  _ ← check_tokens idx [rt_Destination route; rt_Via route; rt_Dev route; rt_Source route; rt_Table route];
  Ok route.

(** The loops of the parsers: item by item, the first error ends them. *)
Fixpoint parse_items {A} (parse : Z → gomap → E A) (idx : Z) (items : list gomap) : E (list A) :=
  match items with
  | [] => Ok []
  | item :: items => a ← parse idx item; out ← parse_items parse (idx + 1) items; Ok (a :: out)
  end.

Definition parseFirewallRules (raw : option any) : E (list firewallRuleSpec) :=
  items ← objectList raw "spec.firewall_rules"; parse_items parse_firewall_rule 0 items.
Definition parseNATRules (raw : option any) : E (list natRuleSpec) :=
  items ← objectList raw "spec.nat_rules"; parse_items parse_nat_rule 0 items.
Definition parseRoutes (raw : option any) : E (list routeSpec) :=
  items ← objectList raw "spec.routes"; parse_items parse_route 0 items.

(** ** The script *)

(** The distinct texts of a list, in order of appearance, then sorted. *)
Fixpoint distinct_texts (seen : list string) (l : list string) : list string :=
  match l with
  | [] => []
  | x :: l => if one_of x seen then distinct_texts seen l else x :: distinct_texts (x :: seen) l
  end.
Definition requiredNATFamilies (rules : list natRuleSpec) : list string :=
  sort_strings (distinct_texts [] (nat_Family <$> rules)).
Definition requiredFirewallChains (rules : list firewallRuleSpec) : list string :=
  sort_strings (distinct_texts [] (fw_Direction <$> rules)).

Definition in_dquotes (s : string) : string := String dquote s +:+ String dquote "".

Definition nftRuleExpression (rule : firewallRuleSpec) (comment : string) : string :=
  words (["nft"; "add"; "rule"; "inet"; "megavpn"; fw_Direction rule]
    ++ (if fw_Interface rule =s "" then [] else ["iifname"; in_dquotes (fw_Interface rule)])
    ++ (if fw_Source rule =s "" then [] else ["ip"; "saddr"; fw_Source rule])
    ++ [fw_Protocol rule; "dport"; itoa (fw_Port rule); nftVerdict (fw_Action rule); "comment";
        nftStringLiteral is_print comment]).

Definition nftNATRuleExpression (rule : natRuleSpec) (comment : string) : string :=
  words (["nft"; "add"; "rule"; nat_Family rule; "megavpn_nat"; "postrouting"]
    ++ (if nat_OutInterface rule =s "" then [] else ["oifname"; in_dquotes (nat_OutInterface rule)])
    ++ (if nat_Family rule =s "ip6" then ["ip6"; "saddr"; nat_Source rule] else ["ip"; "saddr"; nat_Source rule])
    ++ ["masquerade"; "comment"; nftStringLiteral is_print comment]).

Definition nftDeleteRulesByCommentPrefixLines (family table chain pre : string) : list string :=
  ["handles=$(nft -a list chain " +:+ family +:+ " " +:+ table +:+ " " +:+ chain +:+ " 2>/dev/null | awk -v c="
     +:+ shellQuote pre +:+ " 'index($0, c) > 0 {print $NF}')";
   "for handle in $handles; do nft delete rule " +:+ family +:+ " " +:+ table +:+ " " +:+ chain
     +:+ sh " handle ~$handle~ >/dev/null 2>&1 || true; done"].

Definition ipRouteReplaceCommand (route : routeSpec) : string :=
  words (["ip"; "route"; "replace"; shellQuote (rt_Destination route)]
    ++ (if rt_Via route =s "" then [] else ["via"; shellQuote (rt_Via route)])
    ++ (if rt_Dev route =s "" then [] else ["dev"; shellQuote (rt_Dev route)])
    ++ (if rt_Source route =s "" then [] else ["src"; shellQuote (rt_Source route)])
    ++ (if 0 <? rt_Metric route then ["metric"; itoa (rt_Metric route)] else [])
    ++ (if rt_Table route =s "" then [] else ["table"; shellQuote (rt_Table route)])).

Definition ipRouteDeleteArgs (route : routeSpec) : list string :=
  ["route"; "delete"; rt_Destination route]
  ++ (if rt_Via route =s "" then [] else ["via"; rt_Via route])
  ++ (if rt_Dev route =s "" then [] else ["dev"; rt_Dev route])
  ++ (if rt_Source route =s "" then [] else ["src"; rt_Source route])
  ++ (if 0 <? rt_Metric route then ["metric"; itoa (rt_Metric route)] else [])
  ++ (if rt_Table route =s "" then [] else ["table"; rt_Table route]).

Definition sysctl_command (kv : string * string) : string :=
  words ["sysctl"; "-w"; shellQuote (kv.1 +:+ "=" +:+ kv.2)].

(** The four parts of a specification. *)
Record network_spec := {
  sysctls : gmap string string; fw_rules : list firewallRuleSpec; ip_routes : list routeSpec;
  nat_rules : list natRuleSpec }.

Definition parse_network_spec (spec : gomap) : E network_spec :=
  sysctlValues ← parseSysctlSpec (spec !! "sysctl");
  firewallRules ← parseFirewallRules (spec !! "firewall_rules");
  routes ← parseRoutes (spec !! "routes");
  natRules ← parseNATRules (spec !! "nat_rules");
  Ok {| sysctls := sysctlValues; fw_rules := firewallRules; ip_routes := routes; nat_rules := natRules |}.

(** The keys in order, each with its value. *)
Definition sorted_sysctls (values : gmap string string) : list (string * string) :=
  (λ key, (key, default "" (values !! key))) <$> sort_strings (map_to_list values).*1.

Definition firewall_rule_line (payload : instanceJobPayload) (rule : firewallRuleSpec) : string :=
  let comment := firewallRuleComment payload rule in
  "if ! nft list chain inet megavpn " +:+ fw_Direction rule +:+ " | grep -Fq " +:+ shellQuote comment
  +:+ "; then " +:+ nftRuleExpression rule comment +:+ "; fi".

Definition chain_line (chain : string) : string :=
  "nft list chain inet megavpn " +:+ chain +:+ " >/dev/null 2>&1 || nft add chain inet megavpn " +:+ chain
  +:+ " '{ type filter hook " +:+ chain +:+ " priority 0; policy accept; }'".

Definition nat_table_lines (family : string) : list string :=
  ["nft list table " +:+ family +:+ " megavpn_nat >/dev/null 2>&1 || nft add table " +:+ family +:+ " megavpn_nat";
   "nft list chain " +:+ family +:+ " megavpn_nat postrouting >/dev/null 2>&1 || nft add chain " +:+ family
   +:+ " megavpn_nat postrouting '{ type nat hook postrouting priority srcnat; policy accept; }'"].

Definition sysctl_lines (s : network_spec) : list string :=
  if (size (sysctls s) =? 0)%nat then []
  else ["" ; "# Kernel networking policy"] ++ (sysctl_command <$> sorted_sysctls (sysctls s)).

Definition firewall_lines (payload : instanceJobPayload) (s : network_spec) : list string :=
  match fw_rules s with
  | [] => []
  | rules =>
      [""; "# nftables ingress policy";
       "if ! command -v nft >/dev/null 2>&1; then echo 'nft is required for firewall_rules' >&2; exit 1; fi";
       "nft list table inet megavpn >/dev/null 2>&1 || nft add table inet megavpn"]
      ++ (chain_line <$> requiredFirewallChains rules)
      ++ (firewall_rule_line payload <$> rules)
  end.

Definition nat_lines (payload : instanceJobPayload) (s : network_spec) : list string :=
  match nat_rules s with
  | [] => []
  | rules =>
      [""; "# nftables NAT policy";
       "if ! command -v nft >/dev/null 2>&1; then echo 'nft is required for nat_rules' >&2; exit 1; fi"]
      ++ (requiredNATFamilies rules ≫= nat_table_lines)
      ++ (requiredNATFamilies rules ≫= λ family,
            nftDeleteRulesByCommentPrefixLines family "megavpn_nat" "postrouting" (natRuleCommentPrefix payload))
      ++ ((λ rule, nftNATRuleExpression rule (natRuleComment payload rule)) <$> rules)
  end.

Definition route_lines (s : network_spec) : list string :=
  match ip_routes s with
  | [] => []
  | routes =>
      [""; "# Kernel route policy";
       "if ! command -v ip >/dev/null 2>&1; then echo 'iproute2 is required for routes' >&2; exit 1; fi"]
      ++ (ipRouteReplaceCommand <$> routes)
  end.

Definition network_script_lines (payload : instanceJobPayload) (s : network_spec) : list string :=
  ["#!/usr/bin/env sh"; "set -eu"; ""; "# Generated by megavpn-agent. Do not edit manually."]
  ++ sysctl_lines s ++ firewall_lines payload s ++ nat_lines payload s ++ route_lines s.

Definition policy_counts (s : network_spec) : gmap string Z :=
  list_to_map [("sysctl", Z.of_nat (size (sysctls s))); ("firewall", Z.of_nat (length (fw_rules s)));
               ("nat", Z.of_nat (length (nat_rules s))); ("routes", Z.of_nat (length (ip_routes s)))].

(** The script, or nothing when the specification asks for none. *)
Definition renderNetworkPolicyScript (payload : instanceJobPayload) : E (option string * gmap string Z) :=
  s ← parse_network_spec (Spec payload);
  let counts := policy_counts s in
  if (size (sysctls s) =? 0)%nat && (length (fw_rules s) =? 0)%nat && (length (nat_rules s) =? 0)%nat
     && (length (ip_routes s) =? 0)%nat
  then Ok (None, counts)
  else Ok (Some (join (String LF "") (network_script_lines payload s) +:+ String LF ""), counts).
End parse.

(** ** Paths and the unit *)

Definition isSafeNetworkPolicyUnit (unit : string) : bool :=
  let unit := trim_space unit in
  has_prefix "megavpn-netpolicy-" unit && has_suffix ".service" unit && negb (contains_sub "/" unit)
  && negb (contains_sub ".." unit)
  && negb (existsb (λ c, contains_char c unit) (bytes (String "009" (String "010" (String "013" " ;{}"))))).

Definition isSafeNetworkPolicyManagedPath (path : string) : bool :=
  let path := cleanAbsPath path in
  if (path =s "") || hasUnsafePathToken path then false
  else if has_prefix "/usr/local/lib/megavpn/netpolicy/" path && has_suffix ".sh" path then true
  else if has_prefix "/etc/systemd/system/megavpn-netpolicy-" path && has_suffix ".service" path
  then isSafeNetworkPolicyUnit (trim_prefix systemd_dir path)
  else false.

(** [filepath.Join] of a constant directory and a name. *)
Definition join_path (dir name : string) : string := clean (dir +:+ "/" +:+ name).

Definition policy_script_path (payload : instanceJobPayload) : string :=
  join_path "/usr/local/lib/megavpn/netpolicy" (policy_slug payload +:+ ".sh").
Definition policy_unit (payload : instanceJobPayload) : string :=
  "megavpn-netpolicy-" +:+ policy_slug payload +:+ ".service".
Definition policy_unit_path (payload : instanceJobPayload) : string :=
  join_path "/etc/systemd/system" (policy_unit payload).

Definition paths_allowed (payload : instanceJobPayload) : bool :=
  isSafeNetworkPolicyManagedPath (policy_script_path payload) && isSafeNetworkPolicyManagedPath (policy_unit_path payload)
  && isSafeNetworkPolicyUnit (policy_unit payload).

Definition renderNetworkPolicyUnit (unitName scriptPath : string) (payload : instanceJobPayload) : string :=
  join (String LF "")
    ["[Unit]";
     "Description=RTIS MegaVPN network policy for "
       +:+ first [pl_Name payload; Slug payload; InstanceID payload; unitName];
     "After=network-online.target"; "Wants=network-online.target"; ""; "[Service]"; "Type=oneshot";
     "ExecStart=" +:+ scriptPath; "RemainAfterExit=yes"; ""; "[Install]"; "WantedBy=multi-user.target"; ""].

(** ** The nftables rules of a comment *)

(** [strings.LastIndex(line, needle)], as what follows the needle. *)
Fixpoint after_last (needle s : string) : option string :=
  match s with
  | EmptyString => match needle with EmptyString => Some "" | _ => None end
  | String _ s' =>
      match after_last needle s' with
      | Some r => Some r
      | None => strip_prefix needle s
      end
  end.

Definition handle_of_line (comment line : string) : option string :=
  if negb (contains_sub comment line) then None
  else
    rest ← after_last " handle " line;
    match fields rest with
    | [] => None
    | f :: _ => match atoi f with Some _ => Some f | None => None end
    end.

Definition nftHandlesForComment (output comment : string) : list string :=
  omap (handle_of_line comment) (split_char LF output).

(** ** Applying and cleaning up *)

Section host.
Context (sprint : any → string) (is_print : Z → bool) (order : gomap → list (string * any)).
Context {H : Type} (ops : agent_ops H).
Notation hostM := (hostM H).

Definition count (counts : gmap string Z) (key : string) : any := AInt (default 0 (counts !! key)).

(** The result and the error text, if any. *)
Definition applyNetworkPolicy (payload : instanceJobPayload) : hostM (gomap * option string) :=
  match renderNetworkPolicyScript sprint is_print order payload with
  | Err e => mret (∅, Some e)
  | Ok (None, _) => mret ({[ "applied" := ABool false ]}, None)
  | Ok (Some script, counts) =>
      let unitName := policy_unit payload in
      let scriptPath := policy_script_path payload in
      let unitPath := policy_unit_path payload in
      if negb (paths_allowed payload) then mret (∅, Some "network policy managed path is not allowed")
      else
      r ← op_write ops {| file_Path := scriptPath; file_Content := script; file_Mode := "0700" |};
      match r with
      | Err e => mret (∅, Some (error_text e))
      | Ok _ =>
      r ← op_write ops {| file_Path := unitPath; file_Content := renderNetworkPolicyUnit unitName scriptPath payload;
                          file_Mode := "0644" |};
      match r with
      | Err e => mret (∅, Some (error_text e))
      | Ok _ =>
      '(reloadResult, err) ← runSystemdDaemonReload ops;
      let result : gomap := list_to_map [
        ("unit", AString unitName); ("unit_path", AString unitPath); ("script_path", AString scriptPath);
        ("sysctl_count", count counts "sysctl"); ("firewall_count", count counts "firewall");
        ("nat_count", count counts "nat"); ("route_count", count counts "routes");
        ("systemd_reload", AMap reloadResult)] in
      match err with
      | Some e => mret (<["error" := AString e]> (<["applied" := ABool false]> result), Some e)
      | None =>
          '(code, out) ← op_run ops ["systemctl"; "enable"; "--now"; unitName];
          let result := <["output" := AString (truncate out 2000)]> (<["applied" := ABool (code =? 0)]> result) in
          mret (if code =? 0 then (result, None)
                else (<["error" := AString "network policy apply failed"]> result,
                      Some ("network policy apply failed: " +:+ truncate out 2000)))
      end
      end
      end
  end.

Definition missing_output (out : string) : bool :=
  let text := to_lower out in
  contains_sub "no such file" text || contains_sub "does not exist" text || contains_sub "not found" text.

(** The deletion loop: the rules removed, and the warning that ended it. *)
Fixpoint delete_handles (family table chain : string) (handles : list string) (removed : Z) : hostM (Z * string) :=
  match handles with
  | [] => mret (removed, "")
  | handle :: handles =>
      '(code, deleteOut) ← op_run ops ["nft"; "delete"; "rule"; family; table; chain; "handle"; handle];
      if negb (code =? 0)
      then mret (removed, "nft delete warning for " +:+ chain +:+ " handle " +:+ handle +:+ ": " +:+ firstLine deleteOut)
      else delete_handles family table chain handles (removed + 1)
  end.

Definition deleteNFTRulesByCommentIn (family table chain comment : string) : hostM (Z * string) :=
  if trim_space comment =s "" then mret (0, "")
  else
    '(code, out) ← op_run ops ["nft"; "-a"; "list"; "chain"; family; table; chain];
    if negb (code =? 0) then
      mret (0, if missing_output out then "" else "nft list warning for " +:+ chain +:+ ": " +:+ firstLine out)
    else delete_handles family table chain (nftHandlesForComment out comment) 0.

(** Delete the rules of each comment; the removed rules and the warnings. *)
Fixpoint delete_rules (rules : list (string * string * string * string)) (removed : Z) (warnings : list string)
  : hostM (Z * list string) :=
  match rules with
  | [] => mret (removed, warnings)
  | (family, table, chain, comment) :: rules =>
      '(n, warning) ← deleteNFTRulesByCommentIn family table chain comment;
      delete_rules rules (removed + n) (if warning =s "" then warnings else warnings ++ [warning])
  end.

Fixpoint delete_routes (routes : list routeSpec) (removed : Z) (warnings : list string) : hostM (Z * list string) :=
  match routes with
  | [] => mret (removed, warnings)
  | route :: routes =>
      '(code, out) ← op_run ops ("ip" :: ipRouteDeleteArgs route);
      if code =? 0 then delete_routes routes (removed + 1) warnings
      else
        let out := to_lower out in
        if contains_sub "no such process" out || contains_sub "not found" out then delete_routes routes removed warnings
        else delete_routes routes removed
               (warnings ++ ["route cleanup warning for " +:+ rt_Destination route +:+ ": " +:+ firstLine out])
  end.

Definition networkPolicyUnitNotFound (unit : string) : hostM bool :=
  let unit := trim_space unit in
  if negb (isSafeNetworkPolicyUnit unit) then mret false
  else
    out ← op_output ops ["systemctl"; "show"; unit; "-p"; "LoadState"; "--value"];
    let state := to_lower (trim_space out) in mret ((state =s "") || (state =s "not-found")).

(** One part of the cleanup: parse it, or warn that it is skipped. *)
Definition cleanup_part {A} (parsed : E (list A)) (skipped key : string)
    (delete : list A → list string → hostM (Z * list string)) (result : gomap) (warnings : list string)
  : hostM (gomap * list string) :=
  match parsed with
  | Err e => mret (result, warnings ++ [skipped +:+ e])
  | Ok items => '(n, warnings) ← delete items warnings; mret (<[key := AInt n]> result, warnings)
  end.

Fixpoint remove_policy_files (paths : list string) (removed skipped warnings : list string)
  : hostM (list string * list string * list string) :=
  match paths with
  | [] => mret (removed, skipped, warnings)
  | path :: paths =>
      r ← op_remove ops path false;
      match r with
      | Err e => remove_policy_files paths removed skipped (warnings ++ [path +:+ ": " +:+ error_text e])
      | Ok true => remove_policy_files paths (removed ++ [path]) skipped warnings
      | Ok false => remove_policy_files paths removed (skipped ++ [path +:+ ": not found - skip"]) warnings
      end
  end.

(** [" · "] of the joined warnings, in UTF-8. *)
Definition warning_separator : string := String " " (String "194" (String "183" " ")).

Definition cleanupNetworkPolicy (payload : instanceJobPayload) : hostM gomap :=
  let unitName := policy_unit payload in
  let scriptPath := policy_script_path payload in
  let unitPath := policy_unit_path payload in
  let result : gomap :=
    {[ "unit" := AString unitName; "unit_path" := AString unitPath; "script_path" := AString scriptPath ]} in
  if negb (paths_allowed payload)
  then mret (<["error" := AString "network policy managed path is not allowed"]> result)
  else
  '(code, out) ← op_run ops ["systemctl"; "disable"; "--now"; unitName];
  '(result, skipped, warnings) ←
    (if negb (code =? 0) then
       missing ← (if isMissingSystemdUnitOutput out then mret true else networkPolicyUnitNotFound unitName);
       let result := <["systemd_disable_output" := AString (truncate out 2000)]> result in
       mret (if missing : bool then (result, [unitName +:+ ": unit not found - skip"], [])
             else (result, [], ["systemd disable warning for " +:+ unitName +:+ ": " +:+ firstLine out]))
     else mret (<["systemd_disable_output" := AString "disabled"]> result, [], []));
  '(result, warnings) ← cleanup_part (parseFirewallRules sprint (Spec payload !! "firewall_rules"))
    "firewall cleanup skipped: " "removed_firewall_rules"
    (λ rules, delete_rules ((λ r, ("inet", "megavpn", fw_Direction r, firewallRuleComment payload r)) <$> rules) 0)
    result warnings;
  '(result, warnings) ← cleanup_part (parseNATRules sprint (Spec payload !! "nat_rules"))
    "nat cleanup skipped: " "removed_nat_rules"
    (λ rules, delete_rules ((λ r, (nat_Family r, "megavpn_nat", "postrouting", natRuleComment payload r)) <$> rules) 0)
    result warnings;
  '(result, warnings) ← cleanup_part (parseRoutes sprint is_print (Spec payload !! "routes"))
    "route cleanup skipped: " "removed_routes" (λ routes, delete_routes routes 0) result warnings;
  '(removed, skipped, warnings) ← remove_policy_files [unitPath; scriptPath] [] skipped warnings;
  let result := <["warnings" := AStrings warnings]> (<["skipped_items" := AStrings skipped]>
                (<["removed_paths" := AStrings removed]> result)) in
  mret match warnings with
       | [] => result
       | _ => <["error" := AString (join warning_separator warnings)]> result
       end.
End host.
