(* ===== verification/NetPolicyProps.v ===== *)
(** * Network policies: the parsed specification, its commands, and the jobs

    What an accepted specification holds ([spec_ok]), how the shell reads every
    command of the script it gives, and what applying and removing a policy may
    do to the host. *)
From stdpp Require Import gmap.
From S2P Require Import Prelude GoStrings Strconv GoValue Netip Driver Firewall FirewallAgent FirewallText Shell AgentPaths AgentPathsProps AgentHost RoutePolicy RoutePolicyProps RoutePolicyAgent NetPolicy.
From Stdlib Require Import Ascii.
From stdpp Require Import options.
Open Scope Z_scope.

(** ** What the parsers accept *)

Definition optional (s : string) : Prop := s = "" ∨ isSafeNetworkToken s = true.

Record firewall_rule_ok (rule : firewallRuleSpec) : Prop := {
  fr_direction : fw_Direction rule ∈ ["input"; "forward"];
  fr_action : fw_Action rule ∈ ["allow"; "drop"; "reject"];
  fr_protocol : fw_Protocol rule ∈ ["tcp"; "udp"];
  fr_port : 1 ≤ fw_Port rule ≤ 65535;
  fr_source : optional (fw_Source rule);
  fr_interface : optional (fw_Interface rule) }.

Record nat_rule_ok (rule : natRuleSpec) : Prop := {
  nr_type : nat_Type rule = "masquerade";
  nr_family : nat_Family rule ∈ ["ip"; "ip6"];
  nr_source : ∃ p, prefix_ok p ∧ Masked p = p ∧ nat_Source rule = prefix_string p
                ∧ (nat_Family rule = "ip" ↔ Is4 (prefix_addr p) = true);
  nr_out : optional (nat_OutInterface rule) }.

Record route_ok (route : routeSpec) : Prop := {
  ro_destination : isSafeNetworkToken (rt_Destination route) = true;
  ro_via : optional (rt_Via route);
  ro_dev : optional (rt_Dev route);
  ro_source : optional (rt_Source route);
  ro_table : optional (rt_Table route) }.

Record spec_ok (s : network_spec) : Prop := {
  so_sysctls : map_Forall (λ k v, isSafeSysctlKey k = true ∧ v ≠ "") (sysctls s);
  so_firewall : Forall firewall_rule_ok (fw_rules s);
  so_nat : Forall nat_rule_ok (nat_rules s);
  so_routes : Forall route_ok (ip_routes s) }.

Lemma optional_spec s : optional_token s = true → optional s.
Proof. unfold optional_token. intros [H%String.eqb_eq|H]%orb_true_iff; [by left|by right]. Qed.

Section parsed.
Context (sprint : any → string).

Lemma firewall_rule_parsed idx item rule : parse_firewall_rule sprint idx item = Ok rule → firewall_rule_ok rule.
Proof.
  unfold parse_firewall_rule. cbv zeta. intros H. inv_binds. subst rule.
  repeat match goal with H : one_of _ _ = true |- _ => apply one_of_spec in H end. split_bools.
  split; try done; try (by apply optional_spec). match goal with H : (65535 <? ?n) = false |- _ => change (1 ≤ n ≤ 65535) end. lia.
Qed.

Lemma nat_rule_parsed idx item rule : parse_nat_rule sprint idx item = Ok rule → nat_rule_ok rule.
Proof.
  unfold parse_nat_rule. cbv zeta.
  generalize (to_lower (first [stringify sprint (item !! "family"); "ip"])) as family.
  generalize (to_lower (first [stringify sprint (item !! "type"); "masquerade"])) as type. intros type family H. inv_binds. destruct (ParsePrefix _) as [p|] eqn:Ep; [|done]. inv_binds.
  subst rule. apply ParsePrefix_ok in Ep.
  repeat match goal with H : one_of _ _ = true |- _ => apply one_of_spec in H end.
  split; simpl; [by apply String.eqb_eq|done| |by apply optional_spec].
  exists (Masked p). split; [by apply Masked_ok|]. split; [apply Masked_idemp|]. split; [done|].
  match goal with H : family ∈ _ |- _ => apply elem_of_cons in H as [-> | H] end.
  - split; [|done]. intros _. by destruct (Is4 _).
  - match goal with H : family ∈ _ |- _ => apply list_elem_of_singleton in H as -> end.
    split; [done|]. destruct (prefix_addr (Masked p)); done.
Qed.

Context (is_print : Z → bool) (order : gomap → list (string * any)).

Lemma tokens_checked idx tokens : check_tokens is_print idx tokens = Ok () → Forall optional tokens.
Proof.
  induction tokens as [|t ts IH]; cbn [check_tokens]; [constructor|].
  destruct (optional_token t) eqn:E; [|done]. intros. constructor; [by apply optional_spec|auto].
Qed.

Lemma route_parsed idx item route : parse_route sprint is_print idx item = Ok route → route_ok route.
Proof.
  unfold parse_route. cbv zeta. intros H. inv_binds. subst route. destruct a0. apply tokens_checked in H1.
  repeat match goal with H : Forall _ (_ :: _) |- _ => apply Forall_cons in H as [? H] end.
  split; try done. destruct H as [E|]; [|done]. rewrite E in *. done.
Qed.

Lemma items_parsed {A} (P : A → Prop) parse idx items (out : list A) :
  (∀ i m a, parse i m = Ok a → P a) → parse_items parse idx items = Ok out → Forall P out.
Proof.
  intros HP. revert idx out. induction items as [|m items IH]; intros idx out H; cbn [parse_items] in H; inv_binds;
    subst out; constructor; eauto.
Qed.

Lemma firewall_rules_parsed raw rules : parseFirewallRules sprint raw = Ok rules → Forall firewall_rule_ok rules.
Proof. unfold parseFirewallRules. intros H. inv_binds. eapply items_parsed; [apply firewall_rule_parsed|done]. Qed.
Lemma nat_rules_parsed raw rules : parseNATRules sprint raw = Ok rules → Forall nat_rule_ok rules.
Proof. unfold parseNATRules. intros H. inv_binds. eapply items_parsed; [apply nat_rule_parsed|done]. Qed.
Lemma routes_parsed raw routes : parseRoutes sprint is_print raw = Ok routes → Forall route_ok routes.
Proof. unfold parseRoutes. intros H. inv_binds. eapply items_parsed; [apply route_parsed|done]. Qed.

Lemma sysctls_parsed entries out m :
  map_Forall (λ k v, isSafeSysctlKey k = true ∧ v ≠ "") out → sysctl_entries sprint is_print entries out = Ok m →
  map_Forall (λ k v, isSafeSysctlKey k = true ∧ v ≠ "") m.
Proof.
  revert out. induction entries as [|[k v] es IH]; intros out Ho H; cbn [sysctl_entries] in H; [by simplify_eq|].
  destruct (isSafeSysctlKey _) eqn:Ek; [|done]. cbn [negb] in H.
  destruct (String.eqb_spec (stringify sprint (Some v)) "") as [|Hv]; [done|].
  eapply IH; [|done]. by apply map_Forall_insert_2.
Qed.

Lemma spec_parsed spec s : parse_network_spec sprint is_print order spec = Ok s → spec_ok s.
Proof.
  unfold parse_network_spec. intros H. inv_binds. subst s.
  split; simpl.
  - revert H0. unfold parseSysctlSpec. destruct (spec !! "sysctl") as [[]|]; try done.
    all: try (intros [= <-]; apply map_Forall_empty).
    apply sysctls_parsed, map_Forall_empty.
  - by eapply firewall_rules_parsed.
  - by eapply nat_rules_parsed.
  - by eapply routes_parsed.
Qed.
End parsed.

(** ** The commands of the script *)

(** What a command of the script is meant to say. *)
Definition nft_rule_words (rule : firewallRuleSpec) (comment : string) : list string :=
  ["nft"; "add"; "rule"; "inet"; "megavpn"; fw_Direction rule]
  ++ (if fw_Interface rule =s "" then [] else ["iifname"; fw_Interface rule])
  ++ (if fw_Source rule =s "" then [] else ["ip"; "saddr"; fw_Source rule])
  ++ [fw_Protocol rule; "dport"; itoa (fw_Port rule); nftVerdict (fw_Action rule); "comment"; in_dquotes comment].

Definition nft_nat_words (rule : natRuleSpec) (comment : string) : list string :=
  ["nft"; "add"; "rule"; nat_Family rule; "megavpn_nat"; "postrouting"]
  ++ (if nat_OutInterface rule =s "" then [] else ["oifname"; nat_OutInterface rule])
  ++ [nat_Family rule; "saddr"; nat_Source rule; "masquerade"; "comment"; in_dquotes comment].

Definition planned (is_print : Z → bool) (payload : instanceJobPayload) (s : network_spec) : list (string * list string) :=
  ((λ kv, (sysctl_command kv, ["sysctl"; "-w"; kv.1 +:+ "=" +:+ kv.2])) <$> sorted_sysctls (sysctls s))
  ++ ((λ rule, let comment := firewallRuleComment payload rule in
               (nftRuleExpression is_print rule comment, nft_rule_words rule comment)) <$> fw_rules s)
  ++ ((λ rule, let comment := natRuleComment payload rule in
               (nftNATRuleExpression is_print rule comment, nft_nat_words rule comment)) <$> nat_rules s)
  ++ ((λ route, (ipRouteReplaceCommand route, ["ip"; "route"; "replace"] ++ drop 2 (ipRouteDeleteArgs route))) <$> ip_routes s).

(** The other lines, which hold nothing of the specification. *)
Definition fixed_lines (payload : instanceJobPayload) : list string :=
  ["#!/usr/bin/env sh"; "set -eu"; ""; "# Generated by megavpn-agent. Do not edit manually.";
   "# Kernel networking policy"; "# nftables ingress policy"; "# nftables NAT policy"; "# Kernel route policy";
   "if ! command -v nft >/dev/null 2>&1; then echo 'nft is required for firewall_rules' >&2; exit 1; fi";
   "if ! command -v nft >/dev/null 2>&1; then echo 'nft is required for nat_rules' >&2; exit 1; fi";
   "if ! command -v ip >/dev/null 2>&1; then echo 'iproute2 is required for routes' >&2; exit 1; fi";
   "nft list table inet megavpn >/dev/null 2>&1 || nft add table inet megavpn"; chain_line "input"; chain_line "forward"]
  ++ nat_table_lines "ip" ++ nat_table_lines "ip6"
  ++ nftDeleteRulesByCommentPrefixLines "ip" "megavpn_nat" "postrouting" (natRuleCommentPrefix payload)
  ++ nftDeleteRulesByCommentPrefixLines "ip6" "megavpn_nat" "postrouting" (natRuleCommentPrefix payload).

(** *** Comments *)

Lemma slug_byte_token : ∀ a, slug_byte a = true → token_byte a = true.
Proof. intros [[] [] [] [] [] [] [] []]; vm_compute; congruence. Qed.

Lemma token_byte_quote : ∀ a, token_byte a = true → quote_plain a = true.
Proof. intros [[] [] [] [] [] [] [] []]; vm_compute; congruence. Qed.

Lemma token_slug payload : all_bytes token_byte (policy_slug payload).
Proof. eapply all_bytes_impl; [apply slug_byte_token|apply slug_bytes]. Qed.

Lemma optional_bytes s : optional s → all_bytes token_byte s.
Proof. intros [->|[_ ?]%safe_token_bytes]; [apply all_bytes_nil|done]. Qed.

(** One of a few literals, each of token bytes. *)
Lemma token_literal s l : s ∈ l → forallb (λ t, forallb token_byte (bytes t)) l = true → all_bytes token_byte s.
Proof.
  intros Hs Hl. rewrite forallb_forall in Hl. apply all_bytes_dec, Hl. by apply list_elem_of_In.
Qed.

Lemma firewall_comment_token payload rule : firewall_rule_ok rule → all_bytes token_byte (firewallRuleComment payload rule).
Proof.
  intros []. unfold firewallRuleComment. rewrite !all_bytes_app.
  repeat split; try (by apply all_bytes_dec); [apply token_slug|by eapply token_literal..|apply token_itoa|by eapply token_literal].
Qed.

Lemma nat_comment_token payload rule : nat_rule_ok rule → all_bytes token_byte (natRuleComment payload rule).
Proof.
  intros [Ht _ (p & Hp & _ & Es & _) Ho]. unfold natRuleComment, natRuleCommentPrefix. rewrite Ht, Es, !all_bytes_app.
  repeat split; try (by apply all_bytes_dec); [apply token_slug| |].
  - eapply all_bytes_replace; [by apply token_prefix|by apply all_bytes_dec|done].
  - destruct (_ =s ""); [apply all_bytes_nil|]. rewrite all_bytes_app. split; [by apply all_bytes_dec|by apply optional_bytes].
Qed.

(** *** Their words *)

Lemma reads_dquoted v : all_bytes token_byte v → reads_as (in_dquotes v) v.
Proof.
  intros Hv rest r Hr. unfold in_dquotes. rewrite sapp_assoc, !sapp_cons, sapp_nil_l. cbn [sh_lex].
  change (Ascii.eqb dquote NUL) with false. change (blank dquote) with false.
  change (Ascii.eqb dquote squote) with false. rewrite Ascii.eqb_refl. cbv iota.
  assert (sh_lex Double (v +:+ String dquote rest) = Some (extend v r)) as ->; [|cbn; by rewrite extend_app].
  induction v as [|a v IH]; [rewrite sapp_nil_l; cbn [sh_lex]; by rewrite Hr|].
  apply all_bytes_cons in Hv as [Ha Hv]. rewrite sapp_cons. cbn [sh_lex].
  assert (Ascii.eqb a NUL = false ∧ Ascii.eqb a dquote = false
          ∧ existsb (Ascii.eqb a) (bslash :: bytes "$`") = false) as (-> & -> & ->).
  { clear -Ha. revert Ha. destruct a as [[] [] [] [] [] [] [] []]; vm_compute; intuition congruence. }
  rewrite (IH Hv). cbn. by rewrite extend_app.
Qed.

Lemma reads_comment_literal is_print c :
  all_bytes token_byte c → reads_as (nftStringLiteral is_print c) (in_dquotes c).
Proof. intros. apply (reads_comment is_print). eapply all_bytes_impl; [apply token_byte_quote|done]. Qed.

(** An optional part of a command: nothing, or the words [f s]. *)
Lemma reads_optional (s : string) (ts vs : list string) :
  (isSafeNetworkToken s = true → Forall2 reads_as ts vs) → optional s →
  Forall2 reads_as (if s =s "" then [] else ts) (if s =s "" then [] else vs).
Proof. intros H Ho. destruct (String.eqb_spec s "") as [|Hs]; [constructor|]. destruct Ho; [done|auto]. Qed.

Lemma reads_one_of s l :
  s ∈ l → forallb (λ t, negb (t =s "") && forallb plain_byte (bytes t)) l = true → reads_as s s.
Proof. intros Hs Hl. rewrite forallb_forall in Hl. apply reads_literal, Hl. by apply list_elem_of_In. Qed.

Ltac reads_words :=
  repeat first
    [ apply Forall2_app
    | apply Forall2_cons; split
    | apply Forall2_nil
    | apply reads_optional; [intros|]
    | done
    | by apply reads_literal
    | apply reads_itoa
    | by apply reads_quoted_token
    | by apply reads_token
    | by eapply reads_one_of ].

Lemma route_command_reads route :
  route_ok route →
  sh_words (ipRouteReplaceCommand route) = Some (["ip"; "route"; "replace"] ++ drop 2 (ipRouteDeleteArgs route)).
Proof.
  intros []. unfold ipRouteReplaceCommand. apply sh_words_join. unfold ipRouteDeleteArgs. cbn [drop app].
  reads_words. destruct (0 <? _); reads_words.
Qed.

Lemma firewall_command_reads is_print payload rule (comment := firewallRuleComment payload rule) :
  firewall_rule_ok rule → sh_words (nftRuleExpression is_print rule comment) = Some (nft_rule_words rule comment).
Proof.
  intros Hr. pose proof (firewall_comment_token payload _ Hr) as Hc. destruct Hr. unfold nftRuleExpression, nft_rule_words.
  apply sh_words_join. reads_words; try by apply reads_comment_literal.
  - by apply reads_dquoted, safe_token_bytes.
  - unfold nftVerdict. destruct (_ =s "allow") eqn:E; reads_words.
Qed.

Lemma nat_command_reads is_print payload rule (comment := natRuleComment payload rule) :
  nat_rule_ok rule → sh_words (nftNATRuleExpression is_print rule comment) = Some (nft_nat_words rule comment).
Proof.
  intros Hr. pose proof (nat_comment_token payload _ Hr) as Hc. destruct Hr as [_ Hf (p & Hp & _ & Es & _) Ho].
  assert (reads_as (nat_Source rule) (nat_Source rule)) as Hs.
  { rewrite Es. apply reads_token, safe_token_intro; [apply prefix_string_nonempty|by apply token_prefix]. }
  unfold nftNATRuleExpression, nft_nat_words. apply sh_words_join.
  assert ((if nat_Family rule =s "ip6" then ["ip6"; "saddr"; nat_Source rule] else ["ip"; "saddr"; nat_Source rule])
          = [nat_Family rule; "saddr"; nat_Source rule]) as ->.
  { apply elem_of_cons in Hf as [E|E%list_elem_of_singleton]; by rewrite E. }
  change [nat_Family rule; "saddr"; nat_Source rule; "masquerade"; "comment"; in_dquotes comment]
    with ([nat_Family rule; "saddr"; nat_Source rule] ++ ["masquerade"; "comment"; in_dquotes comment]).
  reads_words; try by apply reads_comment_literal. by apply reads_dquoted, safe_token_bytes.
Qed.

Lemma sorted_sysctls_elem values kv : kv ∈ sorted_sysctls values → values !! kv.1 = Some kv.2.
Proof.
  unfold sorted_sysctls. intros (k & -> & Hk%elem_of_isort)%list_elem_of_fmap. simpl.
  apply list_elem_of_fmap in Hk as ([k' v] & -> & Hk%elem_of_map_to_list). simpl. by rewrite Hk.
Qed.

Lemma sysctl_key_no_nul k : isSafeSysctlKey k = true → has_nul k = false.
Proof.
  unfold isSafeSysctlKey. intros H. split_bools. apply (no_nul (λ a, sysctl_rune (byte_val a))); [done|].
  apply runes_all_bytes; [|done]. intros r Hr. unfold sysctl_rune in Hr. apply orb_true_iff in Hr as [Hr|Hr]; [lia|].
  apply existsb_exists in Hr as (c & Hc & ->%Z.eqb_eq). revert Hc. vm_compute. intuition; subst; vm_compute; intuition congruence.
Qed.

Lemma planned_read is_print payload s :
  spec_ok s → map_Forall (λ _ v, has_nul v = false) (sysctls s) →
  Forall (λ c, sh_words c.1 = Some c.2) (planned is_print payload s).
Proof.
  intros [Hs Hf Hn Hr] Hnul. unfold planned. rewrite !Forall_app, !Forall_fmap. split_and!.
  - apply Forall_forall. intros kv E%sorted_sysctls_elem. simpl. apply sh_words_join. reads_words.
    apply reads_quoted. rewrite !has_nul_app. destruct (Hs _ _ E) as [?%sysctl_key_no_nul _].
    rewrite (Hnul _ _ E). by rewrite H.
  - eapply Forall_impl; [exact Hf|]. intros. by apply firewall_command_reads.
  - eapply Forall_impl; [exact Hn|]. intros. by apply nat_command_reads.
  - eapply Forall_impl; [exact Hr|]. intros. by apply route_command_reads.
Qed.

(** *** The lines of the script *)

Lemma distinct_texts_elem seen l x : x ∈ distinct_texts seen l → x ∈ l.
Proof.
  revert seen. induction l as [|y l IH]; intros seen; cbn [distinct_texts]; [done|].
  destruct (one_of y seen); [intros ?%IH; by right|]. intros [-> | ?%IH]%elem_of_cons; [by left|by right].
Qed.

Definition guarded (payload : instanceJobPayload) (rule : firewallRuleSpec) (command : string) : string :=
  "if ! nft list chain inet megavpn " +:+ fw_Direction rule +:+ " | grep -Fq "
  +:+ shellQuote (firewallRuleComment payload rule) +:+ "; then " +:+ command +:+ "; fi".

Definition line_accounted (is_print : Z → bool) (payload : instanceJobPayload) (s : network_spec) (line : string) : Prop :=
  line ∈ fixed_lines payload
  ∨ ∃ c, c ∈ planned is_print payload s
      ∧ (line = c.1 ∨ ∃ rule, rule ∈ fw_rules s ∧ c.1 = nftRuleExpression is_print rule (firewallRuleComment payload rule)
                         ∧ line = guarded payload rule c.1).

Lemma families_fixed rules f : Forall nat_rule_ok rules → f ∈ requiredNATFamilies rules → f ∈ ["ip"; "ip6"].
Proof.
  unfold requiredNATFamilies. intros Hr (r & -> & Hin)%elem_of_isort%distinct_texts_elem%list_elem_of_fmap.
  rewrite Forall_forall in Hr. by apply Hr.
Qed.

(** Find a line among the fixed ones. *)
Ltac find_line := first [apply list_elem_of_here | apply list_elem_of_further; find_line].

Section accounted.
Context (is_print : Z → bool) (payload : instanceJobPayload) (s : network_spec).
Notation accounted := (line_accounted is_print payload s).

Lemma fixed_accounted l : Forall (λ x, x ∈ fixed_lines payload) l → Forall accounted l.
Proof. intros H. eapply Forall_impl; [exact H|]. intros x Hx. by left. Qed.

Lemma planned_accounted {A} (f : A → string * list string) (l : list A) :
  f <$> l ⊆ planned is_print payload s → Forall accounted ((λ a, (f a).1) <$> l).
Proof.
  intros Hl. apply Forall_fmap, Forall_forall. intros a Ha. right. exists (f a).
  split; [apply Hl; by apply list_elem_of_fmap_2|by left].
Qed.

Ltac fixed := apply fixed_accounted; unfold fixed_lines; unfold nat_table_lines, nftDeleteRulesByCommentPrefixLines; cbn [app];
  repeat (apply Forall_cons; split; [find_line|]); by apply Forall_nil.

Lemma sysctl_accounted : Forall accounted (sysctl_lines s).
Proof.
  unfold sysctl_lines. destruct (_ =? 0)%nat; [constructor|]. apply Forall_app. split; [fixed|].
  apply (planned_accounted (λ kv, (sysctl_command kv, ["sysctl"; "-w"; kv.1 +:+ "=" +:+ kv.2]))).
  unfold planned. apply list_subseteq_app_l. reflexivity.
Qed.

Lemma firewall_accounted : Forall firewall_rule_ok (fw_rules s) → Forall accounted (firewall_lines is_print payload s).
Proof.
  intros Hf. unfold firewall_lines. destruct (fw_rules s) as [|r0 rules0] eqn:E; [constructor|].
  rewrite <-E in *. clear E. rewrite !Forall_app. split_and!; [fixed| |].
  - apply fixed_accounted, Forall_fmap, Forall_forall. intros chain Hc.
    apply elem_of_isort, distinct_texts_elem, list_elem_of_fmap in Hc as (rule & -> & Hin).
    rewrite Forall_forall in Hf. pose proof (fr_direction _ (Hf _ Hin)) as Hd.
    apply elem_of_cons in Hd as [E|E%list_elem_of_singleton]; cbn [compose]; rewrite E; unfold fixed_lines; find_line.
  - apply Forall_fmap, Forall_forall. intros rule Hin. right.
    pose (c := let comment := firewallRuleComment payload rule in
               (nftRuleExpression is_print rule comment, nft_rule_words rule comment)).
    exists c. split; [|right; by exists rule]. unfold planned. apply elem_of_app. right. apply elem_of_app. left.
    apply list_elem_of_fmap. by exists rule.
Qed.

Lemma nat_accounted : Forall nat_rule_ok (nat_rules s) → Forall accounted (nat_lines is_print payload s).
Proof.
  intros Hn. unfold nat_lines. destruct (nat_rules s) as [|r0 rules0] eqn:E; [constructor|].
  rewrite <-E in *. clear E.
  assert (∀ lines : string → list string, (∀ f, f ∈ ["ip"; "ip6"] → Forall (λ x, x ∈ fixed_lines payload) (lines f)) →
    Forall accounted (requiredNATFamilies (nat_rules s) ≫= lines)) as Hfam.
  { intros lines Hl. apply fixed_accounted, Forall_bind, Forall_forall. intros f Hf. by apply Hl, (families_fixed (nat_rules s)). }
  rewrite !Forall_app. split_and!; [fixed|apply Hfam..|].
  1,2: intros f [-> | ->%list_elem_of_singleton]%elem_of_cons; unfold fixed_lines;
    unfold nat_table_lines, nftDeleteRulesByCommentPrefixLines; cbn [app];
  repeat (apply Forall_cons; split; [find_line|]); by apply Forall_nil.
  apply (planned_accounted (λ rule, let comment := natRuleComment payload rule in
    (nftNATRuleExpression is_print rule comment, nft_nat_words rule comment))).
  unfold planned. do 2 apply list_subseteq_app_r. by apply list_subseteq_app_l.
Qed.

Lemma route_accounted : Forall accounted (route_lines s).
Proof.
  unfold route_lines. destruct (ip_routes s) as [|r0 rules0] eqn:E; [constructor|]. rewrite <-E. clear E.
  apply Forall_app. split; [fixed|].
  apply (planned_accounted (λ route, (ipRouteReplaceCommand route,
    ["ip"; "route"; "replace"] ++ drop 2 (ipRouteDeleteArgs route)))).
  unfold planned. do 3 apply list_subseteq_app_r. reflexivity.
Qed.

Lemma script_accounted : spec_ok s → Forall accounted (network_script_lines is_print payload s).
Proof.
  intros []. unfold network_script_lines. rewrite !Forall_app.
  split_and!; [fixed|apply sysctl_accounted|by apply firewall_accounted|by apply nat_accounted|apply route_accounted].
Qed.
End accounted.


(** ** The policy's own paths *)

Lemma contains_sub_spec n s : contains_sub n s = true ↔ ∃ l r, s = l +:+ n +:+ r.
Proof.
  induction s as [|a s IH]; cbn [contains_sub].
  - destruct n as [|b n]; cbn; [split; [by exists "", ""|done]|]. split; [done|].
    intros ([|] & r & E); [rewrite sapp_nil_l in E|]; rewrite sapp_cons in E; done.
  - destruct (strip_prefix n (String a s)) as [r|] eqn:E.
    + apply strip_prefix_spec in E. split; [intros _; by exists "", r|done].
    + rewrite IH. split; [intros (l & r & ->); by exists (String a l), r|].
      intros ([|b l] & r & El); [rewrite sapp_nil_l in El; apply strip_prefix_spec in El; congruence|].
      rewrite sapp_cons in El. injection El as -> ->. by exists l, r.
Qed.

(** A needle's first byte does not occur in what is skipped. *)
Lemma contains_sub_skip c n w s : c ∉ bytes w → contains_sub (String c n) (w +:+ s) = contains_sub (String c n) s.
Proof.
  induction w as [|a w IH]; [by rewrite sapp_nil_l|]. rewrite bytes_cons, not_elem_of_cons. intros [Ha Hw].
  rewrite sapp_cons. cbn [contains_sub strip_prefix]. destruct (Ascii.eqb_spec c a); [done|]. by apply IH.
Qed.

(** A path of token bytes, absolute, clean and without two dots in a row. *)
Lemma token_path path :
  all_bytes token_byte path → is_abs path = true → clean path = path → contains_sub ".." path = false →
  cleanAbsPath path = path ∧ hasUnsafePathToken path = false.
Proof.
  intros Hb Ha Hc Hd. split.
  - unfold cleanAbsPath. rewrite trim_token by done. cbv zeta. rewrite Ha, Hc.
    assert (contains_sub NUL_text path = false) as ->.
    { apply not_true_iff_false. rewrite contains_NUL. by eapply all_bytes_not_in. }
    by destruct path.
  - unfold hasUnsafePathToken. apply orb_false_iff. split; [apply orb_false_iff; split|].
    + apply not_true_iff_false. intros (l & r & ->)%contains_sub_spec. apply not_true_iff_false in Hd. apply Hd, contains_sub_spec.
      exists (l +:+ "/"), ("/" +:+ r). by rewrite sapp_assoc.
    + apply not_true_iff_false. intros Hs. apply not_true_iff_false in Hd. apply Hd, contains_sub_spec.
      clear -Hs. induction path as [|a path IH]; cbn [has_suffix] in Hs; [by rewrite orb_false_r in Hs|].
      apply orb_true_iff in Hs as [->%String.eqb_eq|(l & r & ->)%IH]; [by exists "/", ""|by exists (String a l), r].
    + rewrite runes_ascii by by eapply all_bytes_impl; [apply token_byte_ascii|].
      apply existsb_false. intros r (a & -> & Hin)%list_elem_of_fmap. unfold all_bytes in Hb. rewrite Forall_forall in Hb.
      apply Hb in Hin. clear -Hin. revert Hin. destruct a as [[] [] [] [] [] [] [] []]; vm_compute; congruence.
Qed.

Lemma slug_plain payload : plain_part (policy_slug payload) ∧ ∀ c, slug_byte c = false → c ∉ bytes (policy_slug payload).
Proof.
  pose proof (slug_bytes (first [Slug payload; InstanceID payload; pl_Name payload; "instance"])) as Hb.
  assert (∀ c, slug_byte c = false → c ∉ bytes (policy_slug payload)) as Hc by (intros c Hc; by eapply all_bytes_not_in).
  split; [|done]. split_and!; [apply slug_nonempty| | |by apply Hc];
    intros E; apply (Hc "."%char); [done|rewrite E; set_solver+|done|rewrite E; set_solver+].
Qed.

Lemma not_in_dec c s : contains_char c s = false → c ∉ bytes s.
Proof. intros H. rewrite <-contains_char_spec. congruence. Qed.

Ltac solve_literal :=
  lazymatch goal with
  | |- _ ∉ _ => apply not_in_dec; vm_compute; reflexivity
  | |- all_bytes _ _ => apply all_bytes_dec; vm_compute; reflexivity
  | |- Forall plain_part _ => repeat (apply Forall_cons; split; [split_and!; [done|done|done|solve_literal]|]); by apply Forall_nil
  | |- (_ < _)%nat => simpl; lia
  | |- _ ≠ _ => done
  | |- _ = _ => vm_compute; reflexivity
  end.

(** A file named after the slug, in a constant directory. *)
Lemma slug_file payload dir parts before suf (name := before +:+ policy_slug payload +:+ suf) path :
  path = dir +:+ "/" +:+ name → dir = abs_path parts → Forall plain_part parts → parts ≠ [] →
  all_bytes token_byte dir → all_bytes token_byte before → all_bytes token_byte suf →
  "."%char ∉ bytes dir → "."%char ∉ bytes before → contains_sub ".." suf = false →
  "/"%char ∉ bytes before → "/"%char ∉ bytes suf → (1 < String.length suf)%nat →
  join_path dir name = path ∧ cleanAbsPath path = path ∧ hasUnsafePathToken path = false.
Proof.
  intros Epath Hdir Hp Hne Td Tb Ts Dd Db Ds Sb Ss Hl. destruct (slug_plain payload) as [_ Hs].
  assert (plain_part name) as Hn.
  { assert (1 < String.length name)%nat as Hlen by (unfold name; rewrite !length_sapp; lia).
    split_and!; [by intros E; rewrite E in Hlen; simpl in Hlen; lia..| | ].
    - intros E. assert (contains_sub ".." name = false) as Hf; [|by rewrite E in Hf].
      unfold name. rewrite !contains_sub_skip by (done || by apply Hs). done.
    - unfold name. rewrite !bytes_app, !not_elem_of_app. split_and!; [done|by apply Hs|done]. }
  assert (path = abs_path (parts ++ [name])) as Hpath.
  { rewrite Epath, Hdir. unfold abs_path. rewrite sapp_assoc. f_equal. clear -Hne.
    induction parts as [|q [|q' parts] IH]; [done|done|]. change (join "/" ((q :: q' :: parts) ++ [name]))
      with (q +:+ "/" +:+ join "/" ((q' :: parts) ++ [name])). rewrite <-IH by done.
    change (join "/" (q :: q' :: parts)) with (q +:+ "/" +:+ join "/" (q' :: parts)). by rewrite !sapp_assoc. }
  assert (clean path = path) as Hc.
  { unfold clean. rewrite Hpath, path_parts_abs; [done|]. apply Forall_app. split; [done|by apply Forall_singleton]. }
  split; [unfold join_path; by rewrite <-Epath|]. apply token_path; [|by rewrite Hpath|done|].
  - rewrite Epath. unfold name. rewrite !all_bytes_app. repeat split; try done; [by apply all_bytes_dec|apply token_slug].
  - rewrite Epath. unfold name. rewrite !contains_sub_skip by (done || (by apply Hs) || set_solver+). done.
Qed.

Lemma has_suffix_app s e : has_suffix e (s +:+ e) = true.
Proof.
  induction s as [|a s IH]; [rewrite sapp_nil_l; destruct e; cbn [has_suffix]; by rewrite String.eqb_refl|].
  rewrite sapp_cons. cbn [has_suffix]. by rewrite IH, orb_true_r.
Qed.

(** The unit's name passes its own test. *)
Lemma policy_unit_safe payload : isSafeNetworkPolicyUnit (policy_unit payload) = true.
Proof.
  destruct (slug_plain payload) as [_ Hs]. unfold isSafeNetworkPolicyUnit.
  assert (∀ c, slug_byte c = false → c ≠ "."%char → c ∉ bytes (policy_unit payload)) as Hc.
  { intros c Hc Hd. apply (all_bytes_not_in (λ a, slug_byte a || Ascii.eqb a ".")).
    - unfold policy_unit. rewrite !all_bytes_app. split_and!; [by apply all_bytes_dec| |by apply all_bytes_dec].
      eapply all_bytes_impl; [|apply slug_bytes]. intros a Ha. by rewrite Ha.
    - rewrite Hc. by apply Ascii.eqb_neq. }
  rewrite trim_token.
  2:{ unfold policy_unit. rewrite !all_bytes_app. split_and!; [by apply all_bytes_dec|apply token_slug|by apply all_bytes_dec]. }
  cbv zeta. assert (has_prefix "megavpn-netpolicy-" (policy_unit payload) = true) as -> by (apply has_prefix_spec; by eexists).
  assert (has_suffix ".service" (policy_unit payload) = true) as ->.
  { unfold policy_unit. rewrite <-sapp_assoc. apply has_suffix_app. }
  assert (contains_sub "/" (policy_unit payload) = false) as ->.
  { apply not_true_iff_false. intros (l & r & E)%contains_sub_spec. apply (Hc "/"%char); [done|done|].
    rewrite E, !bytes_app. set_solver+. }
  assert (contains_sub ".." (policy_unit payload) = false) as ->.
  { unfold policy_unit. rewrite !contains_sub_skip by ((by apply Hs) || set_solver+). done. }
  cbn [andb negb]. apply negb_true_iff, existsb_false. intros c Hin. apply not_true_iff_false. rewrite contains_char_spec.
  revert c Hin. apply Forall_forall. repeat (apply Forall_cons; split; [by apply Hc|]). by apply Forall_nil.
Qed.

(** Whatever the payload, the script and the unit are named after its slug in the
    two managed directories, and the guard on the paths lets them through. *)
Lemma policy_paths payload :
  policy_script_path payload = "/usr/local/lib/megavpn/netpolicy/" +:+ policy_slug payload +:+ ".sh"
  ∧ policy_unit_path payload = systemd_dir +:+ policy_unit payload
  ∧ paths_allowed payload = true.
Proof.
  unfold paths_allowed, isSafeNetworkPolicyManagedPath, policy_script_path, policy_unit_path.
  set (script := "/usr/local/lib/megavpn/netpolicy/" +:+ policy_slug payload +:+ ".sh").
  assert (join_path "/usr/local/lib/megavpn/netpolicy" (policy_slug payload +:+ ".sh") = script
          ∧ cleanAbsPath script = script ∧ hasUnsafePathToken script = false) as (Es & Cs & Us).
  { apply (slug_file payload _ ["usr"; "local"; "lib"; "megavpn"; "netpolicy"] "" ".sh"); [|solve_literal..].
    unfold script. rewrite sapp_nil_l. generalize (policy_slug payload). reflexivity. }
  assert (join_path "/etc/systemd/system" (policy_unit payload) = systemd_dir +:+ policy_unit payload
          ∧ cleanAbsPath (systemd_dir +:+ policy_unit payload) = systemd_dir +:+ policy_unit payload
          ∧ hasUnsafePathToken (systemd_dir +:+ policy_unit payload) = false) as (Eu & Cu & Uu).
  { apply (slug_file payload _ ["etc"; "systemd"; "system"] "megavpn-netpolicy-" ".service"); [|solve_literal..].
    unfold policy_unit. generalize (policy_slug payload). reflexivity. }
  rewrite policy_unit_safe, andb_true_r, Es, Eu. split; [reflexivity|]. split; [reflexivity|]. cbv zeta. rewrite Cs, Us, Cu, Uu.
  apply andb_true_iff. split.
  - assert (has_prefix "/usr/local/lib/megavpn/netpolicy/" script = true) as -> by (apply has_prefix_spec; by eexists).
    assert (has_suffix ".sh" script = true) as -> by (unfold script; rewrite <-sapp_assoc; apply has_suffix_app).
    unfold script. generalize (policy_slug payload). reflexivity.
  - assert (has_prefix "/etc/systemd/system/megavpn-netpolicy-" (systemd_dir +:+ policy_unit payload) = true) as ->.
    { apply has_prefix_spec. exists (policy_slug payload +:+ ".service"). unfold policy_unit. generalize (policy_slug payload). reflexivity. }
    assert (has_suffix ".service" (systemd_dir +:+ policy_unit payload) = true) as ->.
    { unfold policy_unit. rewrite <-!sapp_assoc. apply has_suffix_app. }
    assert (trim_prefix systemd_dir (systemd_dir +:+ policy_unit payload) = policy_unit payload) as ->.
    { unfold trim_prefix. by rewrite (proj2 (strip_prefix_spec _ _ _) eq_refl). }
    rewrite policy_unit_safe. generalize (policy_unit payload). reflexivity.
Qed.

(** ** What a job may do to the host *)

(** The commands: systemd on the policy's own unit, nft on the two tables of the
    network policies, and the deletion of routes. *)
Definition net_command (payload : instanceJobPayload) (args : list string) : Prop :=
  match args with
  | ["systemctl"; "daemon-reload"] => True
  | ["systemctl"; "enable"; "--now"; u] | ["systemctl"; "disable"; "--now"; u] => u = policy_unit payload
  | ["nft"; "-a"; "list"; "chain"; family; table; chain] =>
      (family, table) ∈ [("inet", "megavpn"); ("ip", "megavpn_nat"); ("ip6", "megavpn_nat")]
      ∧ chain ∈ ["input"; "forward"; "postrouting"]
  | ["nft"; "delete"; "rule"; family; table; chain; "handle"; handle] =>
      (family, table) ∈ [("inet", "megavpn"); ("ip", "megavpn_nat"); ("ip6", "megavpn_nat")]
      ∧ chain ∈ ["input"; "forward"; "postrouting"]
  | "ip" :: "route" :: "delete" :: destination :: _ => isSafeNetworkToken destination = true
  | _ => False
  end.

(** The two files of the policy, named after the slug of the instance. *)
Definition own_files (payload : instanceJobPayload) : list string :=
  ["/usr/local/lib/megavpn/netpolicy/" +:+ policy_slug payload +:+ ".sh";
   "/etc/systemd/system/" +:+ policy_unit payload].

Lemma own_paths payload : policy_script_path payload ∈ own_files payload ∧ policy_unit_path payload ∈ own_files payload.
Proof. destruct (policy_paths payload) as (-> & -> & _). split; [apply list_elem_of_here|apply list_elem_of_further, list_elem_of_here]. Qed.

Definition net_event (payload : instanceJobPayload) (e : op_event) : Prop :=
  match e with
  | OpRan args => net_command payload args
  | OpQueried args => args = ["systemctl"; "show"; trim_space (policy_unit payload); "-p"; "LoadState"; "--value"]
  | OpWrote file _ => file_Path file ∈ own_files payload
  | OpRemoved path recursive => path ∈ own_files payload ∧ recursive = false
  end.

Section steps.
Context {H : Type} (ops : agent_ops H) (payload : instanceJobPayload).
Notation logs_own m := (logs (H:=H) (net_event payload) m).

Lemma delete_handles_logs family table chain handles n :
  (family, table) ∈ [("inet", "megavpn"); ("ip", "megavpn_nat"); ("ip6", "megavpn_nat")] →
  chain ∈ ["input"; "forward"; "postrouting"] →
  logs_own (delete_handles (traced_ops ops) family table chain handles n).
Proof.
  intros Ht Hc. revert n. induction handles as [|h hs IH]; intros n; cbn [delete_handles]; [walk_ops|].
  apply logs_mbind; [by apply logs_run_op|]. intros [code out]. destruct (negb _); [walk_ops|apply IH].
Qed.

Lemma delete_rules_logs rules n warnings :
  Forall (λ '(family, table, chain, _),
    (family, table) ∈ [("inet", "megavpn"); ("ip", "megavpn_nat"); ("ip6", "megavpn_nat")]
    ∧ chain ∈ ["input"; "forward"; "postrouting"]) rules →
  logs_own (delete_rules (traced_ops ops) rules n warnings).
Proof.
  intros Hr. revert n warnings. induction Hr as [|[[[family table] chain] comment] rules [Ht Hc] Hr IH];
    intros n warnings; cbn [delete_rules]; [walk_ops|].
  apply logs_mbind; [|intros [m w]; apply IH]. unfold deleteNFTRulesByCommentIn.
  destruct (_ =s ""); [walk_ops|]. apply logs_mbind; [by apply logs_run_op|]. intros [code out].
  destruct (negb _); [walk_ops|]. by apply delete_handles_logs.
Qed.

Lemma delete_routes_logs routes n warnings :
  Forall route_ok routes → logs_own (delete_routes (traced_ops ops) routes n warnings).
Proof.
  intros Hr. revert n warnings. induction Hr as [|route routes Hok Hr IH]; intros n warnings; cbn [delete_routes]; [walk_ops|].
  apply logs_mbind; [apply logs_run_op; by destruct Hok|]. intros [code out].
  destruct (code =? 0); [apply IH|]. destruct (_ || _); apply IH.
Qed.

Lemma cleanup_part_logs {A} (P : A → Prop) (parsed : result string (list A)) skipped key delete (r : gomap) warnings :
  (∀ items, parsed = Ok items → Forall P items) →
  (∀ items w, Forall P items → logs_own (delete items w)) →
  logs_own (cleanup_part parsed skipped key delete r warnings).
Proof.
  intros Hp Hd. unfold cleanup_part. destruct parsed as [items|e]; [|walk_ops].
  apply logs_mbind; [by apply Hd, Hp|]. intros [n w]. walk_ops.
Qed.

Lemma remove_files_logs paths removed skipped warnings :
  Forall (λ p, p ∈ own_files payload) paths →
  logs_own (remove_policy_files (traced_ops ops) paths removed skipped warnings).
Proof.
  intros Hp. revert removed skipped warnings. induction Hp as [|p ps Hp Hps IH]; intros; cbn [remove_policy_files]; [walk_ops|].
  apply logs_mbind; [by apply logs_remove|]. intros [[]|e]; apply IH.
Qed.
End steps.

Section job.
Context (sprint : any → string) (is_print : Z → bool) (order : gomap → list (string * any)).
Context {H : Type} (ops : agent_ops H).

Lemma network_apply_logs payload :
  logs (net_event payload) (applyNetworkPolicy sprint is_print order (traced_ops ops) payload).
Proof.
  unfold applyNetworkPolicy. destruct (renderNetworkPolicyScript _ _ _ _) as [[[script|] counts]|e]; [|walk_ops..].
  cbv zeta. destruct (negb (paths_allowed payload)); [walk_ops|].
  apply logs_mbind; [apply logs_write; intros; apply own_paths|]. intros [|]; [|walk_ops].
  apply logs_mbind; [apply logs_write; intros; apply own_paths|]. intros [|]; [|walk_ops].
  apply logs_mbind; [unfold runSystemdDaemonReload; by walk_ops|]. intros [reload [e|]]; [walk_ops|].
  apply logs_mbind; [by apply logs_run_op|]. intros [code out]. walk_ops.
Qed.

Lemma network_cleanup_logs payload :
  logs (net_event payload) (cleanupNetworkPolicy sprint is_print (traced_ops ops) payload).
Proof.
  unfold cleanupNetworkPolicy. cbv zeta. destruct (negb (paths_allowed payload)); [walk_ops|].
  apply logs_mbind; [by apply logs_run_op|]. intros [code out]. apply logs_mbind.
  { destruct (negb _); [|walk_ops]. apply logs_mbind; [|intros; walk_ops].
    destruct (isMissingSystemdUnitOutput out); [walk_ops|]. unfold networkPolicyUnitNotFound. by walk_ops. }
  intros [[result skipped] warnings]. apply logs_mbind.
  { apply (cleanup_part_logs _ firewall_rule_ok); [intros; by eapply firewall_rules_parsed|].
    intros items w Hi. apply delete_rules_logs, Forall_fmap. eapply Forall_impl; [exact Hi|].
    intros rule [Hd]. simpl. split; [apply list_elem_of_here|]. apply elem_of_cons in Hd as [-> | ->%list_elem_of_singleton]; set_solver+. }
  intros [result' warnings']. apply logs_mbind.
  { apply (cleanup_part_logs _ nat_rule_ok); [intros; by eapply nat_rules_parsed|].
    intros items w Hi. apply delete_rules_logs, Forall_fmap. eapply Forall_impl; [exact Hi|].
    intros rule [_ Hf]. simpl. split; [|set_solver+]. apply elem_of_cons in Hf as [-> | ->%list_elem_of_singleton]; set_solver+. }
  intros [result2 warnings2]. apply logs_mbind.
  { apply (cleanup_part_logs _ route_ok); [intros; by eapply routes_parsed|].
    intros. by apply delete_routes_logs. }
  intros [result3 warnings3]. apply logs_mbind.
  { apply remove_files_logs. apply Forall_cons; split; [apply own_paths|]. apply Forall_cons; split; [apply own_paths|constructor]. }
  intros [[removed skipped'] warnings4]. walk_ops.
Qed.

(** Applying and removing a network policy, whatever the payload and however
    the host answers, writes and removes only the script and the unit named
    after the instance's slug in the two managed directories, nothing recursively, and runs
    only systemd on that unit, nft on the chains of the two policy tables, and the
    deletion of the routes specified; the guard on the paths refuses no name. *)
Theorem network_job_own_objects (payload : instanceJobPayload) (h : H) :
  Forall (net_event payload) (events_of (applyNetworkPolicy sprint is_print order (traced_ops ops) payload) h)
  ∧ Forall (net_event payload) (events_of (cleanupNetworkPolicy sprint is_print (traced_ops ops) payload) h)
  ∧ paths_allowed payload = true.
Proof.
  split_and!; [apply events_of_logs, network_apply_logs|apply events_of_logs, network_cleanup_logs|apply policy_paths].
Qed.
End job.

(** ** Witnesses and findings *)

Module NetSample.
Definition payload : instanceJobPayload :=
  {| InstanceID := "i-1"; Action := "apply"; ServiceCode := "openvpn"; RuntimeServiceCode := ""; pl_Name := "Office VPN";
     Slug := "office"; SystemdUnit := ""; EndpointHost := ""; EndpointPort := 1194; Enabled := true;
     Spec := {[ "sysctl" := AMap {[ "net.ipv4.ip_forward" := AString "1" ]};
                "firewall_rules" := ASlice [AMap {[ "protocol" := AString "udp"; "port" := AString "1194";
                                                    "source" := AString "10.0.0.1" ]};
                                            AMap {[ "protocol" := AString "udp"; "port" := AString "1194";
                                                    "source" := AString "10.0.0.2" ]}];
                "nat_rules" := ASlice [AMap {[ "source" := AString "10.8.0.7/24"; "out_interface" := AString "eth0" ]}];
                "routes" := ASlice [AMap {[ "to" := AString "10.9.0.0/24"; "via" := AString "10.8.0.1" ]}] ]} |}.

Definition rule (source : string) : firewallRuleSpec :=
  {| fw_Direction := "input"; fw_Action := "allow"; fw_Protocol := "udp"; fw_Port := 1194; fw_Source := source;
     fw_Interface := ""; fw_Comment := "" |}.
Definition spec : network_spec :=
  {| sysctls := {[ "net.ipv4.ip_forward" := "1" ]}; fw_rules := [rule "10.0.0.1"; rule "10.0.0.2"];
     ip_routes := [{| rt_Destination := "10.9.0.0/24"; rt_Via := "10.8.0.1"; rt_Dev := ""; rt_Source := ""; rt_Table := "";
                      rt_Metric := 0 |}];
     nat_rules := [{| nat_Type := "masquerade"; nat_Family := "ip"; nat_Source := "10.8.0.0/24"; nat_OutInterface := "eth0";
                      nat_Comment := "" |}] |}.

Lemma parsed : parse_network_spec (λ _, "") (λ _, true) map_to_list (Spec payload) = Ok spec.
Proof. vm_compute. reflexivity. Qed.
End NetSample.


(** The comment of a rule has neither its source nor its interface: of two rules
    for one port, the second is guarded by a search for the comment the first one
    has just added, so it is never installed. *)
Lemma same_comment_rule_skipped :
  let line r := guarded NetSample.payload r (nftRuleExpression (λ _, true) r (firewallRuleComment NetSample.payload r)) in
  firewall_lines (λ _, true) NetSample.payload NetSample.spec
  = take 5 (firewall_lines (λ _, true) NetSample.payload NetSample.spec)
    ++ [line (NetSample.rule "10.0.0.1"); line (NetSample.rule "10.0.0.2")]
  ∧ firewallRuleComment NetSample.payload (NetSample.rule "10.0.0.1")
    = firewallRuleComment NetSample.payload (NetSample.rule "10.0.0.2").
Proof. split; vm_compute; reflexivity. Qed.

(** An instance name with a line feed adds directives to the unit file. *)
Lemma unit_name_injects :
  let payload := {| InstanceID := "i-1"; Action := "apply"; ServiceCode := "openvpn"; RuntimeServiceCode := "";
                    pl_Name := "x" +:+ String LF ("[Service]" +:+ String LF "ExecStartPre=/tmp/x"); Slug := "office"; SystemdUnit := "";
                    EndpointHost := ""; EndpointPort := 1194; Enabled := true; Spec := ∅ |} in
  "ExecStartPre=/tmp/x" ∈ split_char LF (renderNetworkPolicyUnit (policy_unit payload) (policy_script_path payload) payload).
Proof. vm_compute. find_line. Qed.
