(* ===== verification/InstanceFiles.v ===== *)
(** * The managed files of an instance: rendering, policy, backup and rollback

    [cmd/agent/instance_render.go] and [executable.go]: the files an instance
    specification asks for, the checks each one passes before it is written or
    removed, and the backup taken before a job writes them, from which a failed
    job restores them. *)
From stdpp Require Import gmap.
From S2P Require Import Prelude GoStrings Strconv GoValue Driver Firewall FirewallAgent Shell AgentPaths AgentHost.
From Stdlib Require Import Ascii.
From stdpp Require Import options.
Open Scope Z_scope.

Notation T := (result string).

(** ** The host of an instance job

    The operations of the other handlers, and those only the instance jobs use. *)
Record runtime_ops (H : Type) := {
  base : agent_ops H;
  (** [rejectSymlinkPath] *)
  op_reject : string → hostM H (io ());
  (** [os.Remove] *)
  op_unlink : string → hostM H (io ());
  (** [exec.LookPath] *)
  op_look_path : string → hostM H (option string);
  (** whether [os.Stat] finds an executable file *)
  op_is_executable : string → hostM H bool;
  (** [filepath.Glob] *)
  op_glob : string → hostM H (T (list string));
  (** the milliseconds since the job started *)
  op_elapsed : hostM H Z }.
Arguments base {H} _.
Arguments op_reject {H} _ _ _.
Arguments op_unlink {H} _ _ _.
Arguments op_look_path {H} _ _ _.
Arguments op_is_executable {H} _ _ _.
Arguments op_glob {H} _ _ _.
Arguments op_elapsed {H} _ _.

Definition traced_runtime {H} (o : runtime_ops H) : runtime_ops (H * list op_event) :=
  {| base := traced_ops (base o);
     op_reject := λ p, unlogged_op (op_reject o p);
     op_unlink := λ p, logged_op (op_unlink o p) (λ _, OpRemoved p false);
     op_look_path := λ n, unlogged_op (op_look_path o n);
     op_is_executable := λ p, unlogged_op (op_is_executable o p);
     op_glob := λ p, unlogged_op (op_glob o p);
     op_elapsed := unlogged_op (op_elapsed o) |}.

(** ** The files of a specification *)

Definition defaultConfigPath (payload : instanceJobPayload) : string :=
  DefaultConfigPath (ServiceCode payload) (Slug payload).
Definition defaultConfigMode (payload : instanceJobPayload) : string := DefaultConfigMode (ServiceCode payload).
Definition defaultInstanceSystemdUnit (payload : instanceJobPayload) : string :=
  DefaultSystemdUnit (ServiceCode payload) (Slug payload).

Definition with_newline (content : string) : string :=
  if has_suffix (String LF "") content then content else content +:+ String LF "".

Section render.
(** [fmt.Sprint] and [json.MarshalIndent] of a value, with two blanks. *)
Context (sprint : any → string) (marshal_value : any → T string).

Notation text m key := (stringify sprint (m !! key)).

(** The JSON text of a value, with its line feed; [wrap] is the error around it. *)
Definition json_text (wrap : string → string) (v : any) : T string :=
  match marshal_value v with Ok b => Ok (b +:+ String LF "") | Err e => Err (wrap e) end.

Definition decode_file (fileMap : gomap) : T managedFileSpec :=
  let path := trim_space (text fileMap "path") in
  _ ← guard_err (negb (path =s "")) "spec.files item path is required";
  let content := text fileMap "content" in
  content ← (if content =s "" then
               match fileMap !! "json" with
               | Some rawJSON => json_text (λ e, "spec.files json render failed for " +:+ path +:+ ": " +:+ e) rawJSON
               | None => Ok content
               end
             else Ok content);
  _ ← guard_err (negb (content =s "")) ("spec.files item content/json is required for " +:+ path);
  Ok {| file_Path := path; file_Content := content; file_Mode := text fileMap "mode" |}.

Fixpoint decode_files (items : list any) : T (list managedFileSpec) :=
  match items with
  | [] => Ok []
  | AMap fileMap :: items => file ← decode_file fileMap; out ← decode_files items; Ok (file :: out)
  | _ :: _ => Err "spec.files items must be objects"
  end.

Definition decodeManagedFiles (raw : option any) : T (list managedFileSpec) :=
  match raw with
  | None | Some ANil => Ok []
  | Some (ASlice items) => decode_files items
  | Some _ => Err "spec.files must be an array"
  end.

(** The content, or none. *)
Definition singleConfigContent (spec : gomap) : T (option string) :=
  let content := text spec "config_content" in
  if negb (content =s "") then Ok (Some (with_newline content))
  else match spec !! "config_json" with
  | Some rawJSON => content ← json_text id rawJSON; Ok (Some content)
  | None =>
      match spec !! "config" with
      | Some (AString cfg) => Ok (if cfg =s "" then None else Some (with_newline cfg))
      | Some cfg => content ← json_text id cfg; Ok (Some content)
      | None => Ok None
      end
  end.

Definition materializeInstanceSpec (payload : instanceJobPayload) : T (list managedFileSpec) :=
  let spec := Spec payload in
  files ← decodeManagedFiles (spec !! "files");
  match files with
  | _ :: _ => Ok files
  | [] =>
      let path := trim_space (text spec "config_path") in
      let path := if path =s "" then defaultConfigPath payload else path in
      content ← singleConfigContent spec;
      match content with
      | None => Ok []
      | Some content =>
          let mode := text spec "config_mode" in
          let mode := if mode =s "" then defaultConfigMode payload else mode in
          Ok [{| file_Path := path; file_Content := content; file_Mode := mode |}]
      end
  end.

(** ** The file policy *)

(** The unit a path below the systemd directory names. *)
Definition unit_of_path (path : string) : string := trim_suffix ".service" (trim_prefix systemd_dir path).

(** What the two policies check of the path alone; [raw] is the text they quote. *)
Definition path_policy (payload : instanceJobPayload) (raw : string) : T string :=
  let path := cleanAbsPath raw in
  _ ← guard_err (negb (path =s "")) "managed file path must be absolute";
  _ ← guard_err (negb (hasUnsafePathToken path)) ("managed file path contains unsafe characters: " +:+ raw);
  _ ← guard_err (isAllowedInstanceManagedPath payload path)
        ("managed file path is outside allowed roots for " +:+ ServiceCode payload +:+ ": " +:+ path);
  _ ← guard_err (negb (has_prefix systemd_dir path) || isAllowedInstanceUnit sprint payload (unit_of_path path))
        ("managed systemd unit is not allowed for " +:+ ServiceCode payload +:+ ": " +:+ unit_of_path path);
  Ok path.

Section host.
Context (is_print : Z → bool) {H : Type} (ops : runtime_ops H).
Notation hostM := (hostM H).
Notation agent := (base ops).

(** The check of both policies that ends them. *)
Definition not_symlink (path : string) : hostM (T ()) :=
  r ← op_lstat agent path;
  mret match r with
       | Ok info => guard_err (negb (is_symlink info)) ("managed file path must not be a symlink: " +:+ path)
       | Err _ => Ok ()
       end.

Definition validateManagedFilePolicy (payload : instanceJobPayload) (file : managedFileSpec) : hostM (T ()) :=
  match path_policy payload (file_Path file) with
  | Err e => mret (Err e)
  | Ok path =>
      if has_prefix systemd_dir path && negb (isAllowedManagedServiceFile payload (file_Content file))
      then mret (Err ("managed systemd unit content is not allowed for " +:+ ServiceCode payload +:+ ": " +:+ unit_of_path path))
      else not_symlink path
  end.

Definition validateManagedDeletePathPolicy (payload : instanceJobPayload) (rawPath : string) : hostM (T ()) :=
  match path_policy payload rawPath with
  | Err e => mret (Err e)
  | Ok path => not_symlink path
  end.

(** ** Backup and rollback *)

Record managedFileBackup := { bk_Path : string; bk_Existed : bool; bk_Content : string; bk_Mode : Z }.

(** The backup of one file that has none yet. *)
Definition snapshot_file (raw path : string) : hostM (T managedFileBackup) :=
  if hasUnsafePathToken path then mret (Err ("managed file path contains unsafe characters: " +:+ raw))
  else
    r ← op_reject ops path;
    match r with
    | Err e => mret (Err (error_text e))
    | Ok _ =>
        r ← op_lstat agent path;
        match r with
        | Err (NotExist _) => mret (Ok {| bk_Path := path; bk_Existed := false; bk_Content := ""; bk_Mode := 0 |})
        | Err e => mret (Err (error_text e))
        | Ok info =>
            if is_dir info then mret (Err ("managed file path is a directory: " +:+ path))
            else
              r ← op_read agent path;
              mret match r with
                   | Err e => Err (error_text e)
                   | Ok content => Ok {| bk_Path := path; bk_Existed := true; bk_Content := content; bk_Mode := perm info |}
                   end
        end
    end.

Fixpoint snapshot_files (seen : list string) (files : list managedFileSpec) : hostM (T (list managedFileBackup)) :=
  match files with
  | [] => mret (Ok [])
  | file :: files =>
      let path := cleanAbsPath (file_Path file) in
      if path =s "" then mret (Err "managed file path is empty")
      else if one_of path seen then snapshot_files seen files
      else
        r ← snapshot_file (file_Path file) path;
        match r with
        | Err e => mret (Err e)
        | Ok backup =>
            r ← snapshot_files (path :: seen) files;
            mret match r with Ok backups => Ok (backup :: backups) | Err e => Err e end
        end
  end.

Definition snapshotManagedFiles (files : list managedFileSpec) : hostM (T (list managedFileBackup)) := snapshot_files [] files.

(** The digits of [%04o] of the permission bits. *)
Fixpoint octal_digits (width : nat) (z : Z) : string :=
  match width with
  | O => ""
  | S width => octal_digits width (z / 8) +:+ String (byte_chr (48 + z mod 8)) ""
  end.
Definition octal_mode (mode : Z) : string := octal_digits 4 (mode mod 512).

Record rollback_state := { rb_restored : list string; rb_removed : list string; rb_errors : list string }.
Definition add_error (st : rollback_state) (e : string) : rollback_state :=
  {| rb_restored := rb_restored st; rb_removed := rb_removed st; rb_errors := rb_errors st ++ [e] |}.
Definition add_restored (st : rollback_state) (path : string) : rollback_state :=
  {| rb_restored := rb_restored st ++ [path]; rb_removed := rb_removed st; rb_errors := rb_errors st |}.
Definition add_removed (st : rollback_state) (path : string) : rollback_state :=
  {| rb_restored := rb_restored st; rb_removed := rb_removed st ++ [path]; rb_errors := rb_errors st |}.

Definition rollback_file (backup : managedFileBackup) (st : rollback_state) : hostM rollback_state :=
  let path := cleanAbsPath (bk_Path backup) in
  if path =s "" then mret (add_error st "backup path is empty")
  else if bk_Existed backup then
    r ← op_write agent {| file_Path := path; file_Content := bk_Content backup; file_Mode := octal_mode (bk_Mode backup) |};
    mret match r with
         | Err e => add_error st (path +:+ ": " +:+ error_text e)
         | Ok _ => add_restored st path
         end
  else
    r ← op_reject ops path;
    match r with
    | Err e => mret (add_error st (path +:+ ": " +:+ error_text e))
    | Ok _ =>
        r ← op_unlink ops path;
        mret match r with
             | Err (NotExist _) => st
             | Err e => add_error st (path +:+ ": " +:+ error_text e)
             | Ok _ => add_removed st path
             end
    end.

(** From the last backup to the first. *)
Fixpoint rollback_files (backups : list managedFileBackup) (st : rollback_state) : hostM rollback_state :=
  match backups with
  | [] => mret st
  | backup :: backups => st ← rollback_file backup st; rollback_files backups st
  end.

Definition rollback_result (backups : list managedFileBackup) (st : rollback_state) : gomap :=
  list_to_map [
    ("attempted", ABool (0 <? length backups)%nat); ("restored", AStrings (rb_restored st));
    ("removed", AStrings (rb_removed st)); ("errors", AStrings (rb_errors st));
    ("ok", ABool (length (rb_errors st) =? 0)%nat)].

Definition rollbackManagedFiles (backups : list managedFileBackup) : hostM gomap :=
  st ← rollback_files (rev backups) {| rb_restored := []; rb_removed := []; rb_errors := [] |};
  mret (rollback_result backups st).

(** ** Executables *)

Definition defaultExecutableCandidates (name : string) : list string :=
  let n := trim_space name in
  if n =s "nginx" then ["/usr/sbin/nginx"; "/usr/bin/nginx"; "/usr/local/sbin/nginx"; "/usr/local/bin/nginx";
                        "/usr/local/nginx/sbin/nginx"; "/opt/nginx/sbin/nginx"]
  else if n =s "systemctl" then ["/usr/bin/systemctl"; "/bin/systemctl"]
  else if n =s "xray" then ["/usr/local/bin/xray"; "/usr/bin/xray"; "/opt/xray/xray"]
  else if n =s "openvpn" then ["/usr/sbin/openvpn"; "/usr/bin/openvpn"; "/usr/local/sbin/openvpn"; "/usr/local/bin/openvpn"]
  else if one_of n ["wg"; "wg-quick"]
  then ["/usr/bin/" +:+ name; "/usr/sbin/" +:+ name; "/usr/local/bin/" +:+ name; "/usr/local/sbin/" +:+ name]
  else if n =s "ss-server"
  then ["/usr/bin/ss-server"; "/usr/local/bin/ss-server"; "/usr/sbin/ss-server"; "/usr/local/sbin/ss-server"]
  else if n =s "squid" then ["/usr/sbin/squid"; "/usr/bin/squid"; "/usr/local/sbin/squid"; "/usr/local/bin/squid"]
  else if one_of n ["ip"; "ss"; "iptables"; "nft"; "ipsec"; "strongswan"; "pppd"; "xl2tpd"]
  then ["/usr/sbin/" +:+ name; "/usr/bin/" +:+ name; "/sbin/" +:+ name; "/bin/" +:+ name; "/usr/local/sbin/" +:+ name;
        "/usr/local/bin/" +:+ name]
  else [].

Fixpoint first_executable (candidates : list string) : hostM (option string) :=
  match candidates with
  | [] => mret None
  | candidate :: candidates =>
      let candidate := trim_space candidate in
      if candidate =s "" then first_executable candidates
      else
        ok ← op_is_executable ops candidate;
        if ok : bool then mret (Some candidate) else first_executable candidates
  end.

(** The path, and whether it was found. *)
Definition resolveExecutable (name : string) (candidates : list string) : hostM (string * bool) :=
  let name := trim_space name in
  found ← (if name =s "" then mret None else op_look_path ops name);
  match found with
  | Some path => if negb (path =s "") then mret (path, true) else
      r ← first_executable (candidates ++ defaultExecutableCandidates name);
      mret match r with Some p => (p, true) | None => (name, false) end
  | None =>
      r ← first_executable (candidates ++ defaultExecutableCandidates name);
      mret match r with Some p => (p, true) | None => (name, false) end
  end.

Definition findExecutable (name : string) (candidates : list string) : hostM string :=
  '(path, _) ← resolveExecutable name candidates; mret path.
End host.
End render.

Example octal_mode_some : octal_mode 416 = "0640" ∧ parseFileMode (octal_mode 416) = Some 416.
Proof. repeat split. Qed.
