(* ===== verification/InstanceRuntime.v ===== *)
(** * Instance jobs on the node

    [cmd/agent/instance_runtime.go], [instance_validate.go], [instance_driver.go]
    and the end of [node_cleanup.go]: decoding an instance job, applying an
    instance (files, configuration check, network policy, unit), its systemd
    operations, and its removal. *)
From stdpp Require Import gmap.
From S2P Require Import Prelude GoStrings Strconv GoValue Driver Firewall FirewallAgent Shell AgentPaths AgentHost NetPolicy InstanceFiles.
From Stdlib Require Import Ascii.
From stdpp Require Import options.
Open Scope Z_scope.

(** ** The payload *)

(** What [decodeInstanceJobPayload] does with the decoded record. *)
Definition normalize_payload (p : instanceJobPayload) : instanceJobPayload :=
  let code := NormalizeCode (first [RuntimeServiceCode p; ServiceCode p]) in
  let runtime := if RuntimeServiceCode p =s "" then code else RuntimeServiceCode p in
  let action := NormalizeOperation (Action p) in
  let action := if action =s "" then OperationApply else action in
  let slug := if Slug p =s "" then slugifyLocal (first [pl_Name p; InstanceID p; "instance"]) else Slug p in
  let unit := if (code =s "ipsec") && (trim_space (SystemdUnit p) =s "strongswan") then "strongswan-starter" else SystemdUnit p in
  let unit := if unit =s "" then DefaultSystemdUnit code slug else unit in
  {| InstanceID := InstanceID p; Action := action; ServiceCode := code; RuntimeServiceCode := runtime; pl_Name := pl_Name p;
     Slug := slug; SystemdUnit := unit; EndpointHost := EndpointHost p; EndpointPort := EndpointPort p;
     Enabled := Enabled p; Spec := Spec p |}.

(** [json_payload] is [json.Marshal] of the map and [json.Unmarshal] into the record. *)
Definition decodeInstanceJobPayload (json_payload : gomap → T instanceJobPayload) (raw : gomap) : T instanceJobPayload :=
  p ← json_payload raw; Ok (normalize_payload p).

(** The command line of an operation, or why there is none. *)
Definition systemdArgs (is_print : Z → bool) (operation unit : string) : T (list string) :=
  match systemdArgsForOperation operation unit with
  | Some args => Ok args
  | None =>
      Err (if negb (isSafeSystemdUnitToken (trim_space unit)) then "invalid systemd unit " +:+ Quote is_print (trim_space unit)
           else "unsupported systemd action " +:+ Quote is_print operation)
  end.

Definition normalizeSystemctlState (s : string) : string :=
  let s := trim_space s in
  if (s =s "") || contains_sub "could not be found" s || contains_sub "not-found" s then "unknown" else s.

(** [runtimeBinary]: the name and its candidates. *)
Definition required_binaries (code : string) : list (string * list string) :=
  if one_of code [XrayCore; MTProto] then [("xray", ["/usr/local/bin/xray"; "/usr/bin/xray"; "/opt/xray/xray"])]
  else if code =s WireGuard then [("wg-quick", ["/usr/bin/wg-quick"; "/usr/sbin/wg-quick"]); ("wg", ["/usr/bin/wg"; "/usr/sbin/wg"])]
  else if code =s OpenVPN then [("openvpn", ["/usr/sbin/openvpn"; "/usr/bin/openvpn"])]
  else if code =s Shadowsocks then [("ss-server", ["/usr/bin/ss-server"; "/usr/local/bin/ss-server"])]
  else if code =s HTTPProxy then [("squid", ["/usr/sbin/squid"; "/usr/bin/squid"])]
  else if code =s Nginx then [("nginx", ["/usr/sbin/nginx"; "/usr/bin/nginx"])]
  else [].

(** *** The files a validator looks at *)

Definition filterConfigFiles (files : list managedFileSpec) : list managedFileSpec :=
  List.filter (λ file, negb (has_suffix ".service" (file_Path file))) files.

Definition firstConfigFile (files : list managedFileSpec) (fallback : string) : option managedFileSpec :=
  match List.find (λ file, negb (trim_space (file_Path file) =s "")) files with
  | Some file => Some file
  | None => if trim_space fallback =s "" then None else Some {| file_Path := fallback; file_Content := ""; file_Mode := "" |}
  end.

Definition firstConfigPath (files : list managedFileSpec) (fallback : string) : string :=
  match firstConfigFile files fallback with Some file => file_Path file | None => "" end.

Section runtime.
(** [fmt.Sprint], [strconv.IsPrint] beyond ASCII, the order of map ranges,
    [json.MarshalIndent] of a value, [json.Valid], and [installNginx] of
    [capability.go], which installs packages through commands of its own. *)
Context (sprint : any → string) (is_print : Z → bool) (order : gomap → list (string * any)).
Context (marshal_value : any → T string) (json_valid : string → bool).
Context {H : Type} (ops : runtime_ops H) (install_nginx : hostM H gomap).
Notation hostM := (hostM H).
Notation agent := (base ops).

Definition currentUnitState (unit : string) : hostM string :=
  if trim_space unit =s "" then mret "unknown"
  else out ← op_output agent ["systemctl"; "is-active"; unit]; mret (normalizeSystemctlState (trim_space out)).

Definition instanceUnitNotFound (payload : instanceJobPayload) (unit : string) : hostM bool :=
  let unit := trim_space unit in
  if negb (isAllowedInstanceUnit sprint payload unit) then mret false
  else
    out ← op_output agent ["systemctl"; "show"; unit; "-p"; "LoadState"; "--value"];
    let state := to_lower (trim_space out) in mret ((state =s "") || (state =s "not-found")).

(** ** The configuration check: an error text, or none *)

Definition check_command (args : list string) (message : string) : hostM (option string) :=
  '(code, out) ← op_run agent args;
  mret (if code =? 0 then None else Some (message +:+ truncate out 3000)).

Definition config_path (payload : instanceJobPayload) (files : list managedFileSpec) : string :=
  firstConfigPath (filterConfigFiles files) (defaultConfigPath payload).

Definition validateNginxConfig : hostM (option string) := check_command ["nginx"; "-t"] "nginx config validation failed: ".

Definition validateHTTPProxyConfig (payload : instanceJobPayload) (files : list managedFileSpec) : hostM (option string) :=
  let configPath := config_path payload files in
  if configPath =s "" then mret None
  else check_command ["squid"; "-k"; "parse"; "-f"; configPath] "http proxy config validation failed: ".

Definition validateWireGuardConfig (payload : instanceJobPayload) (files : list managedFileSpec) : hostM (option string) :=
  let configPath := config_path payload files in
  if configPath =s "" then mret None
  else check_command ["wg-quick"; "strip"; configPath] "wireguard config validation failed: ".

Definition xrayExecutablePath : hostM string :=
  findExecutable ops "xray" ["/usr/local/bin/xray"; "/usr/bin/xray"; "/opt/xray/xray"].

Definition validateXrayConfig (payload : instanceJobPayload) (files : list managedFileSpec) : hostM (option string) :=
  let configPath := config_path payload files in
  if configPath =s "" then mret None
  else
    xrayPath ← xrayExecutablePath;
    '(code, out) ← op_run agent [xrayPath; "run"; "-test"; "-config"; configPath];
    if code =? 0 then mret None
    else check_command [xrayPath; "-test"; "-config"; configPath] "xray config validation failed: ".

Definition validateConfigPresence (payload : instanceJobPayload) (files : list managedFileSpec) : option string :=
  match firstConfigFile (filterConfigFiles files) "" with
  | Some file =>
      if negb (file_Path file =s "") && (trim_space (file_Content file) =s "")
      then Some (ServiceCode payload +:+ " config validation failed: config content is empty") else None
  | None => None
  end.

Definition validateShadowsocksConfig (payload : instanceJobPayload) (files : list managedFileSpec) : option string :=
  match firstConfigFile (filterConfigFiles files) "" with
  | Some file =>
      if (file_Path file =s "") || (trim_space (file_Content file) =s "") then None
      else if json_valid (file_Content file) then None
      else Some (ServiceCode payload +:+ " config validation failed: config content must be valid JSON")
  | None => None
  end.

Definition validateRenderedConfig (payload : instanceJobPayload) (files : list managedFileSpec) : hostM (option string) :=
  let code := NormalizeCode (ServiceCode payload) in
  if code =s Nginx then validateNginxConfig
  else if code =s HTTPProxy then validateHTTPProxyConfig payload files
  else if code =s WireGuard then validateWireGuardConfig payload files
  else if one_of code [XrayCore; MTProto] then validateXrayConfig payload files
  else if one_of code [OpenVPN; IPSec] then mret (validateConfigPresence payload files)
  else if code =s Shadowsocks then mret (validateShadowsocksConfig payload files)
  else mret None.

(** ** The runtime of the service *)

Fixpoint check_binaries (required : list (string * list string)) : hostM (option string) :=
  match required with
  | [] => mret None
  | (name, candidates) :: required =>
      '(_, ok) ← resolveExecutable ops name candidates;
      if ok : bool then check_binaries required
      else mret (Some ("capability missing: " +:+ name +:+ " binary is not installed or not executable"))
  end.

Definition preflightInstanceRuntime (payload : instanceJobPayload) : hostM (option string) :=
  check_binaries (required_binaries (NormalizeCode (ServiceCode payload))).

(** The recovery's result, empty when there was none, and the error text. *)
Definition ensureInstanceRuntime (payload : instanceJobPayload) : hostM (gomap * option string) :=
  err ← preflightInstanceRuntime payload;
  match err with
  | None => mret (∅, None)
  | Some e =>
      if negb (NormalizeCode (ServiceCode payload) =s Nginx) then mret (∅, Some e)
      else
        recovery ← install_nginx;
        let recovery := <["recovered_capability" := AString "nginx"]>
                        (<["trigger" := AString "instance_apply_preflight"]> (recovery : gomap)) in
        errAfterInstall ← preflightInstanceRuntime payload;
        mret match errAfterInstall with
        | None =>
            let recovery := <["binary_available_after_install" := ABool true]> recovery in
            (match recovery !! "ok" with
             | Some (ABool true) => recovery
             | _ => <["warning" := AString "nginx installer verification did not fully pass, but the nginx binary is available; continuing to rendered config validation"]> recovery
             end, None)
        | Some _ =>
            let recoveryMessage := stringify sprint (recovery !! "message") in
            (recovery, Some (if recoveryMessage =s "" then e
                             else e +:+ "; managed nginx recovery failed: " +:+ recoveryMessage))
        end
  end.

(** ** Systemd operations *)

Definition job_failed (fields : list (string * any)) : string * gomap := ("failed", list_to_map fields).
Definition identity_fields (payload : instanceJobPayload) : list (string * any) :=
  [("instance_id", AString (InstanceID payload)); ("service_code", AString (ServiceCode payload))].

Definition Systemd (payload : instanceJobPayload) (operation : string) : hostM (string * gomap) :=
  if negb (isAllowedInstanceUnit sprint payload (SystemdUnit payload)) then
    mret (job_failed [("error", AString "systemd_unit is not allowed for instance"); ("action", AString operation);
                      ("systemd_unit", AString (SystemdUnit payload)); ("service_code", AString (ServiceCode payload))])
  else
  match systemdArgs is_print operation (SystemdUnit payload) with
  | Err e => mret (job_failed [("error", AString e); ("action", AString operation)])
  | Ok args =>
      if SystemdUnit payload =s "" then
        mret (job_failed [("error", AString "systemd_unit is required for action"); ("action", AString operation)])
      else
        '(code, out) ← op_run agent ("systemctl" :: args);
        elapsed ← op_elapsed ops;
        state ← currentUnitState (SystemdUnit payload);
        let result : gomap := list_to_map (identity_fields payload ++
          [("systemd_unit", AString (SystemdUnit payload)); ("action", AString operation); ("duration_ms", AInt64 elapsed);
           ("output", AString (truncate out 4000)); ("active_state", AString state)]) in
        mret (if code =? 0 then ("succeeded", <["message" := AString "systemd action applied"]> result)
              else ("failed", <["error" := AString "systemd action failed"]> result))
  end.

(** ** Applying an instance *)

(** The loop over the files before anything is written: the error and its file. *)
Fixpoint validate_files (payload : instanceJobPayload) (files : list managedFileSpec) : hostM (option (string * string)) :=
  match files with
  | [] => mret None
  | file :: files =>
      r ← validateManagedFilePolicy sprint ops payload file;
      match r with
      | Err e => mret (Some (e, file_Path file))
      | Ok _ => validate_files payload files
      end
  end.

(** The loop that writes: the changed files, and the error and file that ended it. *)
Fixpoint write_files (changed : list string) (files : list managedFileSpec)
  : hostM (list string * option (string * string)) :=
  match files with
  | [] => mret (changed, None)
  | file :: files =>
      r ← op_write agent file;
      match r with
      | Err e => mret (changed, Some (error_text e, file_Path file))
      | Ok _ => write_files (changed ++ [file_Path file]) files
      end
  end.

(** The closure [rollback]: the files, then a reload of systemd. *)
Definition rollback (backups : list managedFileBackup) : hostM gomap :=
  result ← rollbackManagedFiles ops backups;
  '(reloadResult, err) ← runSystemdDaemonReload agent;
  let result := <["systemd_reload" := AMap reloadResult]> result in
  mret match err with
       | Some e => <["systemd_reload_warning" := AString e]> result
       | None => result
       end.

(** A failure after the backup: roll back and report it. *)
Definition fail_rolled_back (backups : list managedFileBackup) (fields : list (string * any)) : hostM (string * gomap) :=
  r ← rollback backups; mret (job_failed (fields ++ [("rollback", AMap r)])).

(** The unit of an applied instance: restarted or enabled when the instance is
    enabled, with a rollback on failure; otherwise disabled. *)
Definition apply_unit (payload : instanceJobPayload) (backups : list managedFileBackup) (changed : list string)
    (networkPolicy result : gomap) : hostM (string * gomap) :=
  let unit := SystemdUnit payload in
  state ← op_output agent ["systemctl"; "is-active"; unit];
  let action := if normalizeSystemctlState (trim_space state) =s "unknown" then OperationEnable else OperationRestart in
  if Enabled payload then
    '(status, result) ← Systemd payload action;
    elapsed ← op_elapsed ops;
    let result := <["network_policy" := AMap networkPolicy]> (<["duration_ms" := AInt64 elapsed]>
      (<["config_applied" := ABool (0 <? length changed)%nat]> (<["changed_files" := AStrings changed]> (result : gomap)))) in
    if negb (status =s "succeeded") then r ← rollback backups; mret (status, <["rollback" := AMap r]> result)
    else mret (status, result)
  else if negb (isAllowedInstanceUnit sprint payload unit) then
    mret (job_failed (("error", AString "systemd_unit is not allowed for disabled instance apply") :: identity_fields payload
                      ++ [("systemd_unit", AString unit)]))
  else
    '(disableCode, disableOut) ← op_run agent ["systemctl"; "disable"; unit];
    let result := <["systemd_disable_output" := AString (truncate (trim_space disableOut) 2000)]> result in
    if negb (disableCode =? 0) && negb (isMissingSystemdUnitOutput disableOut) then
      mret ("failed", <["error" := AString (commandExitError "systemd disable failed for disabled instance apply" disableOut)]> result)
    else
      state ← currentUnitState unit;
      mret ("succeeded", <["active_state" := AString state]> result).

Definition with_preflight (runtimePreflight : gomap) (result : gomap) : gomap :=
  if (size runtimePreflight =? 0)%nat then result else <["runtime_preflight" := AMap runtimePreflight]> result.

(** The files are in place: check the configuration, apply the network policy, and
    bring the unit to the state asked for. *)
Definition apply_written (payload : instanceJobPayload) (files : list managedFileSpec) (backups : list managedFileBackup)
    (changed : list string) (runtimePreflight : gomap) : hostM (string * gomap) :=
  let changed_field := ("changed_files", AStrings changed) in
  '(reloadResult, err) ← runSystemdDaemonReload agent;
  match err with
  | Some e =>
      fail_rolled_back backups (("error", AString e) :: ("stage", AString "systemd_daemon_reload") :: identity_fields payload
                                ++ [changed_field; ("systemd_reload", AMap reloadResult)])
  | None =>
  err ← validateRenderedConfig payload files;
  match err with
  | Some e => fail_rolled_back backups (("error", AString e) :: identity_fields payload ++ [changed_field])
  | None =>
  '(networkPolicy, err) ← applyNetworkPolicy sprint is_print order agent payload;
  match err with
  | Some e =>
      fail_rolled_back backups (("error", AString e) :: identity_fields payload
                                ++ [changed_field; ("network_policy", AMap networkPolicy)])
  | None =>
  elapsed ← op_elapsed ops;
  let result := with_preflight runtimePreflight (list_to_map (identity_fields payload ++
    [("message", AString "instance applied"); ("systemd_unit", AString (SystemdUnit payload)); changed_field;
     ("duration_ms", AInt64 elapsed); ("config_applied", ABool (0 <? length changed)%nat);
     ("endpoint_host", AString (EndpointHost payload)); ("endpoint_port", AInt (EndpointPort payload));
     ("enabled_desired", ABool (Enabled payload)); ("network_policy", AMap networkPolicy);
     ("systemd_reload", AMap reloadResult)])) in
  if SystemdUnit payload =s "" then
    state ← currentUnitState (SystemdUnit payload);
    mret ("succeeded", <["active_state" := AString state]> result)
  else apply_unit payload backups changed networkPolicy result
  end
  end
  end.

Definition Apply (payload : instanceJobPayload) : hostM (string * gomap) :=
  let action_field := ("action", AString (Action payload)) in
  '(runtimePreflight, err) ← ensureInstanceRuntime payload;
  match err with
  | Some e =>
      elapsed ← op_elapsed ops;
      mret ("failed", with_preflight runtimePreflight
                        (list_to_map (("error", AString e) :: identity_fields payload ++ [action_field; ("duration_ms", AInt64 elapsed)])))
  | None =>
  match materializeInstanceSpec sprint marshal_value payload with
  | Err e => mret (job_failed (("error", AString e) :: identity_fields payload ++ [action_field]))
  | Ok files =>
  invalid ← validate_files payload files;
  match invalid with
  | Some (e, path) => mret (job_failed (("error", AString e) :: identity_fields payload ++ [("path", AString path)]))
  | None =>
  backups ← snapshotManagedFiles ops files;
  match backups with
  | Err e => mret (job_failed (("error", AString e) :: identity_fields payload ++ [action_field]))
  | Ok backups =>
  '(changed, err) ← write_files [] files;
  match err with
  | Some (e, path) => fail_rolled_back backups (("error", AString e) :: identity_fields payload ++ [("path", AString path)])
  | None => apply_written payload files backups changed runtimePreflight
  end
  end
  end
  end
  end.

(** ** Removing an instance *)

Definition nginx_pattern : string := "/etc/nginx/conf.d/megavpn-*.conf".

Definition finalizeSharedNginxRuntime : hostM gomap :=
  matches ← op_glob ops nginx_pattern;
  match matches with
  | Err e => mret {[ "error" := AString e; "pattern" := AString nginx_pattern ]}
  | Ok matches =>
      let result : gomap := {[ "remaining_managed_configs" := AInt (Z.of_nat (length matches)); "unit" := AString "nginx" ]} in
      if (0 <? length matches)%nat then
        '(code, out) ← op_run agent ["nginx"; "-t"];
        let result := <["test_output" := AString (truncate (trim_space out) 2000)]> (<["test_exit_code" := AInt code]> result) in
        if negb (code =? 0) then
          state ← currentUnitState "nginx";
          mret (<["active_state" := AString state]>
                (<["error" := AString "nginx config validation failed after managed cleanup"]> result))
        else
          '(reloadCode, reloadOut) ← op_run agent ["systemctl"; "reload"; "nginx"];
          state ← currentUnitState "nginx";
          let result := <["active_state" := AString state]>
            (<["reload_output" := AString (truncate (trim_space reloadOut) 2000)]>
            (<["reload_exit_code" := AInt reloadCode]> (<["action" := AString "reload"]> result))) in
          mret (if negb (reloadCode =? 0) && negb (isMissingSystemdUnitOutput reloadOut)
                then <["error" := AString "nginx reload failed after managed cleanup"]> result else result)
      else
        '(code, out) ← op_run agent ["systemctl"; "disable"; "--now"; "nginx"];
        '(resetCode, resetOut) ← op_run agent ["systemctl"; "reset-failed"; "nginx"];
        state ← currentUnitState "nginx";
        let result := <["active_state" := AString state]>
          (<["reset_failed_output" := AString (truncate (trim_space resetOut) 2000)]>
          (<["reset_failed_exit_code" := AInt resetCode]>
          (<["stop_output" := AString (truncate (trim_space out) 2000)]>
          (<["stop_exit_code" := AInt code]> (<["action" := AString "stop"]> result))))) in
        mret (if negb (code =? 0) && negb (isMissingSystemdUnitOutput out)
              then <["error" := AString "nginx stop failed after all managed configs were removed"]> result
              else if negb (resetCode =? 0) && negb (isMissingSystemdUnitOutput resetOut)
              then <["reset_failed_warning" := AString "nginx reset-failed failed after managed cleanup"]> result
              else result)
  end.

(** What a deletion has collected so far. *)
Record delete_state := {
  del_seen : list string; del_removed : list string; del_skipped : list string; del_stopped : list string;
  del_warnings : list string }.
Definition del_skip (st : delete_state) (item : string) : delete_state :=
  {| del_seen := del_seen st; del_removed := del_removed st; del_skipped := del_skipped st ++ [item];
     del_stopped := del_stopped st; del_warnings := del_warnings st |}.
Definition del_stop (st : delete_state) (unit : string) : delete_state :=
  {| del_seen := del_seen st; del_removed := del_removed st; del_skipped := del_skipped st;
     del_stopped := del_stopped st ++ [unit]; del_warnings := del_warnings st |}.
Definition del_warn (st : delete_state) (warning : string) : delete_state :=
  {| del_seen := del_seen st; del_removed := del_removed st; del_skipped := del_skipped st;
     del_stopped := del_stopped st; del_warnings := del_warnings st ++ [warning] |}.
Definition del_see (st : delete_state) (path : string) : delete_state :=
  {| del_seen := path :: del_seen st; del_removed := del_removed st; del_skipped := del_skipped st;
     del_stopped := del_stopped st; del_warnings := del_warnings st |}.
(** A removed path, or one that was not there. *)
Definition del_path (st : delete_state) (path : string) (removed : bool) : delete_state :=
  if removed
  then {| del_seen := del_seen st; del_removed := del_removed st ++ [path]; del_skipped := del_skipped st;
          del_stopped := del_stopped st; del_warnings := del_warnings st |}
  else del_skip st (path +:+ ": not found - skip").

(** The unit: its fields of the result, and whether the deletion goes on. *)
Definition delete_unit (payload : instanceJobPayload) (st : delete_state) : hostM (gomap * delete_state * bool) :=
  let unit := trim_space (SystemdUnit payload) in
  if unit =s "" then mret (∅, st, true)
  else if negb (isAllowedInstanceUnit sprint payload unit)
  then mret (∅, del_skip st (unit +:+ ": unit is not allowed for managed stop - skip"), true)
  else if negb (isInstanceOwnedRuntimeUnit sprint payload unit)
  then mret (∅, del_skip st (unit +:+ ": shared runtime unit not stopped"), true)
  else
    '(code, out) ← op_run agent ["systemctl"; "disable"; "--now"; unit];
    let fields : gomap := {[ "systemd_disable_output" := AString (truncate out 2000) ]} in
    if code =? 0 then mret (fields, del_stop st unit, true)
    else
      missing ← (if isMissingSystemdUnitOutput out then mret true else instanceUnitNotFound payload unit);
      if missing : bool then mret (fields, del_skip st (unit +:+ ": unit not found - skip"), true)
      else
        state ← currentUnitState unit;
        mret (<["active_state" := AString state]> (<["error" := AString "systemd disable failed"]> fields), st, false).

(** The loop over the files of the specification; an error ends the deletion, with
    the path it names. *)
Fixpoint delete_files (payload : instanceJobPayload) (files : list managedFileSpec) (st : delete_state)
  : hostM (delete_state * option (string * string)) :=
  match files with
  | [] => mret (st, None)
  | file :: files =>
      r ← validateManagedDeletePathPolicy sprint ops payload (file_Path file);
      match r with
      | Err e => mret (st, Some (e, file_Path file))
      | Ok _ =>
          let path := cleanAbsPath (file_Path file) in
          if (path =s "") || one_of path (del_seen st) then delete_files payload files st
          else
            let st := del_see st path in
            r ← op_remove agent path false;
            match r with
            | Err e => mret (st, Some (error_text e, path))
            | Ok removed => delete_files payload files (del_path st path removed)
            end
      end
  end.

(** The loop over the legacy paths, where an error is a warning. *)
Fixpoint delete_legacy (payload : instanceJobPayload) (paths : list string) (st : delete_state) : hostM delete_state :=
  match paths with
  | [] => mret st
  | path :: paths =>
      if (path =s "") || one_of path (del_seen st) then delete_legacy payload paths st
      else
        r ← validateManagedDeletePathPolicy sprint ops payload path;
        match r with
        | Err e => delete_legacy payload paths (del_warn st ("legacy cleanup path skipped: " +:+ e))
        | Ok _ =>
            let st := del_see st path in
            r ← op_remove agent path false;
            delete_legacy payload paths
              match r with Err e => del_warn st (path +:+ ": " +:+ error_text e) | Ok removed => del_path st path removed end
        end
  end.

Definition delete_unit_file (payload : instanceJobPayload) (st : delete_state) : hostM (delete_state * option (string * string)) :=
  let unitFile := managedInstanceUnitFilePath sprint payload in
  if (unitFile =s "") || one_of unitFile (del_seen st) then mret (st, None)
  else
    r ← op_remove agent unitFile false;
    mret match r with
         | Err e => (st, Some (error_text e, unitFile))
         | Ok removed => (del_path st unitFile removed, None)
         end.

Definition add_warning (st : delete_state) (pre : string) (r : gomap) : delete_state :=
  let errText := stringify sprint (r !! "error") in if errText =s "" then st else del_warn st (pre +:+ errText).

(** The files are gone: the network policy, the shared runtime, and systemd. *)
Definition delete_finish (payload : instanceJobPayload) (result : gomap) (st : delete_state) : hostM (string * gomap) :=
  networkPolicy ← cleanupNetworkPolicy sprint is_print agent payload;
  let st := add_warning st "network policy cleanup warning: " networkPolicy in
  '(result, st) ← (if NormalizeCode (ServiceCode payload) =s Nginx then
                     nginxRuntime ← finalizeSharedNginxRuntime;
                     mret (<["nginx_runtime" := AMap nginxRuntime]> result, add_warning st "nginx cleanup warning: " nginxRuntime)
                   else mret (result, st));
  '(reloadResult, err) ← runSystemdDaemonReload agent;
  let result := <["systemd_reload" := AMap reloadResult]> (result : gomap) in
  match err with
  | Some e => elapsed ← op_elapsed ops; mret ("failed", <["duration_ms" := AInt64 elapsed]> (<["error" := AString e]> result))
  | None =>
      state ← currentUnitState (trim_space (SystemdUnit payload));
      elapsed ← op_elapsed ops;
      mret ("succeeded", <["duration_ms" := AInt64 elapsed]> (<["active_state" := AString state]>
        (<["network_policy" := AMap networkPolicy]> (<["warnings" := AStrings (del_warnings st)]>
        (<["stopped_units" := AStrings (del_stopped st)]> (<["skipped_items" := AStrings (del_skipped st)]>
        (<["removed_paths" := AStrings (del_removed st)]>
        (<["message" := AString "instance runtime cleanup completed"]> result))))))))
  end.

(** An error of the deletion, at a path or not. *)
Definition delete_failed (result : gomap) (e : string) (path : option string) : hostM (string * gomap) :=
  elapsed ← op_elapsed ops;
  let result := <["error" := AString e]> result in
  let result := match path with Some p => <["path" := AString p]> result | None => result end in
  mret ("failed", <["duration_ms" := AInt64 elapsed]> result).

Definition Delete (payload : instanceJobPayload) : hostM (string * gomap) :=
  let result : gomap := list_to_map (identity_fields payload ++
    [("systemd_unit", AString (SystemdUnit payload)); ("action", AString OperationDelete)]) in
  let st := {| del_seen := []; del_removed := []; del_skipped := []; del_stopped := []; del_warnings := [] |} in
  '(fields, st, go_on) ← delete_unit payload st;
  let result := fields ∪ result in
  if negb go_on then elapsed ← op_elapsed ops; mret ("failed", <["duration_ms" := AInt64 elapsed]> result)
  else
  match materializeInstanceSpec sprint marshal_value payload with
  | Err e => delete_failed result e None
  | Ok files =>
  '(st, err) ← delete_files payload files st;
  match err with
  | Some (e, path) => delete_failed result e (Some path)
  | None =>
  st ← delete_legacy payload (legacyManagedDeletePaths payload) st;
  '(st, err) ← delete_unit_file payload st;
  match err with
  | Some (e, path) => delete_failed result e (Some path)
  | None => delete_finish payload result st
  end
  end
  end.

(** ** The job *)

Definition Execute (payload : instanceJobPayload) : hostM (string * gomap) :=
  let unsupported fields := mret (job_failed (fields ++ [("action", AString (Action payload))])) in
  match OperationFor (ServiceCode payload) (Action payload) with
  | None => unsupported [("error", AString "unsupported instance operation for driver"); ("service_code", AString (ServiceCode payload))]
  | Some op =>
      if negb (op_AgentExecutable op)
      then unsupported [("error", AString "unsupported instance operation for driver"); ("service_code", AString (ServiceCode payload))]
      else if op_Code op =s OperationApply then Apply payload
      else if one_of (op_Code op) [OperationRestart; OperationStart; OperationStop; OperationEnable; OperationDisable]
      then Systemd payload (op_Code op)
      else if op_Code op =s OperationDelete then Delete payload
      else unsupported [("error", AString "unsupported instance operation")]
  end.

Definition handleInstanceJob (json_payload : gomap → T instanceJobPayload) (jobType : string) (raw : gomap)
  : hostM (string * gomap) :=
  match decodeInstanceJobPayload json_payload raw with
  | Err e => mret (job_failed [("error", AString e); ("job_type", AString jobType)])
  | Ok payload => Execute payload
  end.
End runtime.
