(* ===== verification/InstanceProps.v ===== *)
(** * Instance jobs: what they may touch, and that a failed one is undone

    Every event of an instance job on the host is one the instance's own policy
    allows ([instance_event]); and whenever an apply reports that it rolled back,
    the files of the specification are as they were before it wrote them. *)
From stdpp Require Import gmap.
From S2P Require Import Prelude GoStrings Strconv GoValue Driver Firewall FirewallAgent Shell AgentPaths AgentPathsProps AgentHost RoutePolicyAgent NetPolicy NetPolicyProps InstanceFiles InstanceRuntime.
From Stdlib Require Import Ascii.
From stdpp Require Import options.
Open Scope Z_scope.

(** ** What an instance job may do to the host *)

Section allowed.
Context (sprint : any → string) (marshal_value : any → T string).

(** A path of the instance: confined, and a unit file only of its own unit. *)
Definition instance_path (payload : instanceJobPayload) (path : string) : Prop :=
  confined payload path
  ∧ (has_prefix systemd_dir path = true → isAllowedInstanceUnit sprint payload (unit_of_path path) = true).

Lemma path_policy_spec payload raw path :
  path_policy sprint payload raw = Ok path →
  path = cleanAbsPath raw ∧ path ≠ "" ∧ cleanAbsPath path = path ∧ instance_path payload path.
Proof.
  unfold path_policy. cbv zeta. intros H. inv_binds. subst path. split_bools. split; [done|].
  apply String.eqb_neq in H0. split; [done|]. split; [by apply clean_fixed|]. split; [by apply allowed_confined|].
  intros Hs. rewrite Hs in *. done.
Qed.

(** The commands: systemd on the instance's unit, the checks of its configuration,
    and the shared runtime of nginx. *)
Inductive instance_command (payload : instanceJobPayload) : list string → Prop :=
| cmd_reload : instance_command payload ["systemctl"; "daemon-reload"]
| cmd_unit operation args :
    isAllowedInstanceUnit sprint payload (SystemdUnit payload) = true →
    systemdArgsForOperation operation (SystemdUnit payload) = Some args →
    instance_command payload ("systemctl" :: args)
| cmd_disable :
    isAllowedInstanceUnit sprint payload (SystemdUnit payload) = true →
    instance_command payload ["systemctl"; "disable"; SystemdUnit payload]
| cmd_stop :
    isInstanceOwnedRuntimeUnit sprint payload (trim_space (SystemdUnit payload)) = true →
    instance_command payload ["systemctl"; "disable"; "--now"; trim_space (SystemdUnit payload)]
| cmd_check checker files :
    materializeInstanceSpec sprint marshal_value payload = Ok files →
    checker ∈ [["squid"; "-k"; "parse"; "-f"]; ["wg-quick"; "strip"]] →
    instance_command payload (checker ++ [config_path payload files])
| cmd_check_xray xray args files :
    materializeInstanceSpec sprint marshal_value payload = Ok files →
    args ∈ [["run"; "-test"; "-config"]; ["-test"; "-config"]] →
    instance_command payload (xray :: args ++ [config_path payload files])
| cmd_nginx args :
    NormalizeCode (ServiceCode payload) = Nginx →
    args ∈ [["nginx"; "-t"]; ["systemctl"; "reload"; "nginx"]; ["systemctl"; "disable"; "--now"; "nginx"];
            ["systemctl"; "reset-failed"; "nginx"]] →
    instance_command payload args.

Definition instance_event (payload : instanceJobPayload) (e : op_event) : Prop :=
  match e with
  | OpRan args => instance_command payload args
  | OpQueried args => ∃ unit, args = ["systemctl"; "is-active"; unit] ∨ args = ["systemctl"; "show"; unit; "-p"; "LoadState"; "--value"]
  | OpWrote file _ => instance_path payload (cleanAbsPath (file_Path file))
  | OpRemoved path recursive =>
      (instance_path payload (cleanAbsPath path) ∨ path = managedInstanceUnitFilePath sprint payload) ∧ recursive = false
  end.
End allowed.

(** *** The calls of the wider host *)

Section steps.
Context {H : Type} (o : runtime_ops H) (P : op_event → Prop).
Lemma logs_reject p : logs P (op_reject (traced_runtime o) p). Proof. apply logs_unlogged. Qed.
Lemma logs_unlink p : P (OpRemoved p false) → logs P (op_unlink (traced_runtime o) p). Proof. intros. by apply logs_logged. Qed.
Lemma logs_look_path n : logs P (op_look_path (traced_runtime o) n). Proof. apply logs_unlogged. Qed.
Lemma logs_is_executable n : logs P (op_is_executable (traced_runtime o) n). Proof. apply logs_unlogged. Qed.
Lemma logs_glob n : logs P (op_glob (traced_runtime o) n). Proof. apply logs_unlogged. Qed.
Lemma logs_elapsed : logs P (op_elapsed (traced_runtime o)). Proof. apply logs_unlogged. Qed.
End steps.

(** What a computation returns, in whatever state. *)
Definition returns {H A} (m : hostM H A) (R : A → Prop) : Prop := ∀ h, R (m h).1.

Lemma returns_ret {H A} (a : A) (R : A → Prop) : R a → returns (mret a : hostM H A) R.
Proof. by intros ? h. Qed.

Lemma returns_bind {H A B} (m : hostM H A) (f : A → hostM H B) (R : B → Prop) :
  (∀ a, returns (f a) R) → returns (m ≫= f) R.
Proof. intros Hf h. unfold mbind, hostM_bind. destruct (m h) as [a h']. apply Hf. Qed.

Lemma returns_bind_with {H A B} (m : hostM H A) (f : A → hostM H B) (R : A → Prop) (S : B → Prop) :
  returns m R → (∀ a, R a → returns (f a) S) → returns (m ≫= f) S.
Proof. intros Hm Hf h. unfold mbind, hostM_bind. specialize (Hm h). destruct (m h) as [a h']. by apply Hf. Qed.

(** A bind whose continuation relies on what the first part returns. *)
Lemma logs_bind_with {H A B} P (m : hostM (H * list op_event) A) (f : A → hostM (H * list op_event) B) (R : A → Prop) :
  logs P m → returns m R → (∀ a, R a → logs P (f a)) → logs P (m ≫= f).
Proof.
  intros Hm Hr Hf h log. destruct (Hm h log) as (a & h1 & n1 & E1 & H1).
  assert (R a) as Ha by (specialize (Hr (h, log)); by rewrite E1 in Hr).
  destruct (Hf a Ha h1 (log ++ n1)) as (b & h2 & n2 & E2 & H2). exists b, h2, (n1 ++ n2).
  unfold mbind, hostM_bind. rewrite E1, E2, <-(assoc_L (++)). by rewrite Forall_app.
Qed.

(** What the checks and the backup establish, over any host. *)
Section checked.
Context (sprint : any → string) {H : Type} (ops : runtime_ops H) (payload : instanceJobPayload).

Definition file_ok (file : managedFileSpec) : Prop := path_policy sprint payload (file_Path file) = Ok (cleanAbsPath (file_Path file)).

Lemma policy_returns raw :
  returns (validateManagedDeletePathPolicy sprint ops payload raw)
    (λ r, r = Ok () → path_policy sprint payload raw = Ok (cleanAbsPath raw)).
Proof.
  unfold validateManagedDeletePathPolicy. destruct (path_policy _ _ _) as [path|e] eqn:E; [|by apply returns_ret].
  intros h _. by apply path_policy_spec in E as [-> _].
Qed.

Lemma validate_returns files :
  returns (validate_files sprint ops payload files) (λ r, r = None → Forall file_ok files).
Proof.
  induction files as [|file files IH]; cbn [validate_files]; [by apply returns_ret|].
  eapply (returns_bind_with _ _ (λ r, r = Ok () → file_ok file)).
  - unfold validateManagedFilePolicy, file_ok. destruct (path_policy _ _ _) as [path|e] eqn:E; [|by apply returns_ret].
    apply path_policy_spec in E as [-> _]. destruct (_ && _); [by apply returns_ret|]. by intros h _.
  - intros [[]|e] Hr; [|by apply returns_ret]. intros h Hn. constructor; [by apply Hr|by apply (IH h)].
Qed.

Lemma snapshot_returns seen files :
  returns (snapshot_files ops seen files)
    (λ r, ∀ backups, r = Ok backups → Forall (λ b, ∃ f, f ∈ files ∧ bk_Path b = cleanAbsPath (file_Path f)) backups).
Proof.
  revert seen. induction files as [|file files IH]; intros seen; cbn [snapshot_files].
  { apply returns_ret. by intros ? [= <-]. }
  cbv zeta. destruct (_ =s ""); [by apply returns_ret|].
  assert (∀ bs, Forall (λ b, ∃ f, f ∈ files ∧ bk_Path b = cleanAbsPath (file_Path f)) bs →
    Forall (λ b, ∃ f, f ∈ file :: files ∧ bk_Path b = cleanAbsPath (file_Path f)) bs) as Hw.
  { intros bs Hb. eapply Forall_impl; [exact Hb|]. intros b (f & Hf & E). exists f. split; [by right|done]. }
  destruct (one_of _ _); [intros h bs Hb; apply Hw; by apply (IH seen h)|].
  apply (returns_bind_with _ _ (λ r, ∀ b, r = Ok b → bk_Path b = cleanAbsPath (file_Path file))).
  - unfold snapshot_file. destruct (hasUnsafePathToken _); [by apply returns_ret|].
    apply returns_bind. intros [|]; [|by apply returns_ret]. apply returns_bind. intros [info|[]]; [|by intros h ? [= <-]|by apply returns_ret].
    destruct (is_dir info); [by apply returns_ret|]. apply returns_bind. intros [|]; intros h ? [= <-]. done.
  - intros [b|e] Hb; [|by apply returns_ret].
    apply (returns_bind_with _ _ _ _ (IH (cleanAbsPath (file_Path file) :: seen))).
    intros [bs|e] Hbs; intros h ? [= <-]. constructor; [exists file; split; [by left|by apply Hb]|]. by apply Hw, Hbs.
Qed.
End checked.

Ltac walk_runtime :=
  change (base (traced_runtime ?o)) with (traced_ops (base o));
  repeat first
    [ progress walk_ops
    | apply logs_reject | apply logs_unlink | apply logs_look_path | apply logs_is_executable | apply logs_glob
    | apply logs_elapsed ].

Section job.
Context (sprint : any → string) (is_print : Z → bool) (order : gomap → list (string * any)).
Context (marshal_value : any → T string) (json_valid : string → bool).
Context {H : Type} (ops : runtime_ops H).
(** [Q]: what installing nginx does. *)
Context (install_nginx : hostM (H * list op_event) gomap) (Q : op_event → Prop).
Context (payload : instanceJobPayload).

(** The events of the instance, of its network policy, and, for nginx only, those
    of the installation. *)
Definition job_event (e : op_event) : Prop :=
  instance_event sprint marshal_value payload e ∨ net_event payload e
  ∨ (NormalizeCode (ServiceCode payload) = Nginx ∧ Q e).

Notation tops := (traced_runtime ops).
Notation own m := (logs job_event m).
Notation files_ok files := (materializeInstanceSpec sprint marshal_value payload = Ok files).

Lemma executable_logs name candidates : own (resolveExecutable tops name candidates).
Proof.
  assert (∀ l, own (first_executable tops l)) as Hf.
  { induction l as [|c l IH]; cbn [first_executable]; [walk_runtime|]. cbv zeta. destruct (_ =s ""); [done|].
    apply logs_mbind; [apply logs_is_executable|]. intros []; [walk_runtime|done]. }
  unfold resolveExecutable. cbv zeta. apply logs_mbind; [destruct (_ =s ""); walk_runtime|].
  intros [path|]; [destruct (negb _); [walk_runtime|]|]; (apply logs_mbind; [apply Hf|intros; walk_runtime]).
Qed.

Lemma state_logs unit : own (currentUnitState tops unit).
Proof. unfold currentUnitState. destruct (_ =s ""); walk_runtime. left. exists unit. by left. Qed.

Lemma reload_logs_job : own (runSystemdDaemonReload (base tops)).
Proof. unfold runSystemdDaemonReload. walk_runtime. left. apply cmd_reload. Qed.

Lemma preflight_logs : own (preflightInstanceRuntime tops payload).
Proof.
  unfold preflightInstanceRuntime. induction (required_binaries _) as [|[n c] l IH]; cbn [check_binaries]; [walk_runtime|].
  apply logs_mbind; [apply executable_logs|]. intros [p []]; [done|walk_runtime].
Qed.

Lemma ensure_runtime_logs : logs Q install_nginx → own (ensureInstanceRuntime sprint tops install_nginx payload).
Proof.
  intros Hinstall. unfold ensureInstanceRuntime. apply logs_mbind; [apply preflight_logs|]. intros [e|]; [|walk_runtime].
  destruct (negb _) eqn:En; [walk_runtime|]. apply negb_false_iff, String.eqb_eq in En.
  apply logs_mbind; [eapply logs_impl; [|exact Hinstall]; intros; right; by right|]. intros recovery.
  apply logs_mbind; [apply preflight_logs|]. intros [|]; walk_runtime.
Qed.

Lemma rendered_logs files : files_ok files → own (validateRenderedConfig json_valid tops payload files).
Proof.
  intros Hf. unfold validateRenderedConfig. cbv zeta.
  assert (∀ args m, job_event (OpRan args) → own (check_command tops args m)) as Hc.
  { intros. unfold check_command. by walk_runtime. }
  destruct (String.eqb_spec (NormalizeCode (ServiceCode payload)) Nginx) as [En|].
  { apply Hc. left. apply cmd_nginx; [done|apply list_elem_of_here]. }
  destruct (_ =s HTTPProxy).
  { unfold validateHTTPProxyConfig. destruct (_ =s ""); [walk_runtime|]. apply Hc. left.
    apply (cmd_check _ _ _ ["squid"; "-k"; "parse"; "-f"] files); [done|apply list_elem_of_here]. }
  destruct (_ =s WireGuard).
  { unfold validateWireGuardConfig. destruct (_ =s ""); [walk_runtime|]. apply Hc. left.
    apply (cmd_check _ _ _ ["wg-quick"; "strip"] files); [done|]. apply list_elem_of_further, list_elem_of_here. }
  destruct (one_of _ _).
  { unfold validateXrayConfig. destruct (_ =s ""); [walk_runtime|].
    apply logs_mbind.
    { unfold xrayExecutablePath, findExecutable. apply logs_mbind; [apply executable_logs|]. intros []. walk_runtime. }
    intros xray. apply logs_mbind.
    { apply logs_run_op. left. apply (cmd_check_xray _ _ _ xray ["run"; "-test"; "-config"] files); [done|apply list_elem_of_here]. }
    intros [code out]. destruct (code =? 0); [walk_runtime|]. apply Hc. left.
    apply (cmd_check_xray _ _ _ xray ["-test"; "-config"] files); [done|]. apply list_elem_of_further, list_elem_of_here. }
  destruct (one_of _ _); [walk_runtime|]. destruct (_ =s Shadowsocks); walk_runtime.
Qed.

Lemma systemd_logs operation : own (Systemd sprint is_print tops payload operation).
Proof.
  unfold Systemd. destruct (negb _) eqn:Eu; [walk_runtime|]. apply negb_false_iff in Eu.
  unfold systemdArgs. destruct (systemdArgsForOperation _ _) as [args|] eqn:Ea; [|walk_runtime].
  destruct (_ =s ""); [walk_runtime|].
  apply logs_mbind; [apply logs_run_op; left; by eapply cmd_unit|]. intros [code out].
  apply logs_mbind; [apply logs_elapsed|]. intros. apply logs_mbind; [apply state_logs|]. intros. walk_runtime.
Qed.

(** *** Applying *)

Notation ok_file f := (file_ok sprint payload f).

Lemma validate_logs files : own (validate_files sprint tops payload files).
Proof.
  induction files as [|file files IH]; cbn [validate_files]; [walk_runtime|].
  apply logs_mbind; [unfold validateManagedFilePolicy, not_symlink; walk_runtime|]. intros [|]; [done|walk_runtime].
Qed.

Lemma snapshot_logs seen files : own (snapshot_files tops seen files).
Proof.
  revert seen. induction files as [|file files IH]; intros seen; cbn [snapshot_files]; [walk_runtime|]. cbv zeta.
  destruct (_ =s ""); [walk_runtime|]. destruct (one_of _ _); [apply IH|].
  apply logs_mbind; [unfold snapshot_file; walk_runtime|]. intros [|]; [|walk_runtime].
  apply logs_mbind; [apply IH|]. intros; walk_runtime.
Qed.

(** A backup of one of the instance's files. *)
Definition backup_ok (b : managedFileBackup) : Prop := ∃ f, ok_file f ∧ bk_Path b = cleanAbsPath (file_Path f).

Lemma file_path_clean f : ok_file f →
  cleanAbsPath (cleanAbsPath (file_Path f)) = cleanAbsPath (file_Path f)
  ∧ instance_path sprint payload (cleanAbsPath (file_Path f)).
Proof. intros Hf. apply path_policy_spec in Hf as (_ & _ & Hc & Hp). done. Qed.

Lemma backup_path b : backup_ok b →
  cleanAbsPath (bk_Path b) = bk_Path b ∧ instance_path sprint payload (bk_Path b).
Proof. intros (f & Hf & ->). by apply file_path_clean. Qed.

Lemma rollback_files_logs backups st : Forall backup_ok backups → own (rollback_files tops backups st).
Proof.
  intros Hb. revert st. induction Hb as [|b bs [Hc Hp]%backup_path Hbs IH]; intros st; cbn [rollback_files]; [walk_runtime|].
  apply logs_mbind; [|intros; apply IH]. unfold rollback_file. cbv zeta. rewrite Hc. destruct (_ =s ""); [walk_runtime|].
  destruct (bk_Existed b).
  - apply logs_mbind; [apply logs_write; intros; left; simpl; by rewrite Hc|]. intros; walk_runtime.
  - apply logs_mbind; [apply logs_reject|]. intros [|]; [|walk_runtime].
    apply logs_mbind; [apply logs_unlink; left; split; [left; by rewrite Hc|done]|]. intros; walk_runtime.
Qed.

Lemma rollback_logs backups : Forall backup_ok backups → own (rollback tops backups).
Proof.
  intros Hb. unfold rollback, rollbackManagedFiles. apply logs_mbind.
  { apply logs_mbind; [apply rollback_files_logs; by apply Forall_rev|]. intros; walk_runtime. }
  intros r. apply logs_mbind; [apply reload_logs_job|]. intros [reload e]. walk_runtime.
Qed.

Lemma fail_logs backups fields : Forall backup_ok backups → own (fail_rolled_back tops backups fields).
Proof. intros. apply logs_mbind; [by apply rollback_logs|]. intros; walk_runtime. Qed.

Lemma write_logs changed files : Forall (λ f, ok_file f) files → own (write_files tops changed files).
Proof.
  intros Hf. revert changed. induction Hf as [|f files Hf Hfs IH]; intros changed; cbn [write_files]; [walk_runtime|].
  apply logs_mbind; [apply logs_write; intros; left; by apply file_path_clean|]. intros [|]; [apply IH|walk_runtime].
Qed.

Lemma apply_unit_logs backups changed policy result :
  Forall backup_ok backups → own (apply_unit sprint is_print tops payload backups changed policy result).
Proof.
  intros Hb. unfold apply_unit. apply logs_mbind; [apply logs_output; left; eexists; by left|]. intros state.
  destruct (Enabled payload).
  - apply logs_mbind; [apply systemd_logs|]. intros [status r]. apply logs_mbind; [apply logs_elapsed|]. intros elapsed.
    destruct (negb _); [|walk_runtime]. apply logs_mbind; [by apply rollback_logs|]. intros; walk_runtime.
  - destruct (negb _) eqn:Eu; [walk_runtime|]. apply negb_false_iff in Eu.
    apply logs_mbind; [apply logs_run_op; left; by apply cmd_disable|]. intros [code out].
    destruct (_ && _); [walk_runtime|]. apply logs_mbind; [apply state_logs|]. intros; walk_runtime.
Qed.

Lemma apply_written_logs files backups changed preflight :
  files_ok files → Forall backup_ok backups →
  own (apply_written sprint is_print order json_valid tops payload files backups changed preflight).
Proof.
  intros Hf Hb. unfold apply_written. cbv zeta. apply logs_mbind; [apply reload_logs_job|].
  intros [reload [e|]]; [by apply fail_logs|]. apply logs_mbind; [by apply rendered_logs|].
  intros [e|]; [by apply fail_logs|]. apply logs_mbind.
  { eapply logs_impl; [|apply network_apply_logs]. intros; right; by left. }
  intros [policy [e|]]; [by apply fail_logs|]. apply logs_mbind; [apply logs_elapsed|]. intros elapsed.
  destruct (_ =s ""); [apply logs_mbind; [apply state_logs|]; intros; walk_runtime|by apply apply_unit_logs].
Qed.

Lemma instance_apply_logs : logs Q install_nginx →
  own (Apply sprint is_print order marshal_value json_valid tops install_nginx payload).
Proof.
  intros Hi. unfold Apply. cbv zeta. apply logs_mbind; [by apply ensure_runtime_logs|]. intros [preflight [e|]].
  { apply logs_mbind; [apply logs_elapsed|]. intros; walk_runtime. }
  destruct (materializeInstanceSpec _ _ _) as [files|e] eqn:Ef; [|walk_runtime].
  eapply logs_bind_with; [apply validate_logs|apply validate_returns|]. intros [[e path]|] Hv; [walk_runtime|].
  specialize (Hv eq_refl). eapply logs_bind_with; [apply snapshot_logs|apply snapshot_returns|].
  intros [backups|e] Hs; [|walk_runtime]. specialize (Hs backups eq_refl).
  assert (Forall backup_ok backups) as Hb.
  { eapply Forall_impl; [exact Hs|]. intros b (f & Hin & E). exists f. rewrite Forall_forall in Hv. auto. }
  apply logs_mbind; [by apply write_logs|]. intros [changed [[e path]|]]; [by apply fail_logs|by apply apply_written_logs].
Qed.

(** *** Removing *)

Lemma not_found_logs unit : own (instanceUnitNotFound sprint tops payload unit).
Proof. unfold instanceUnitNotFound. cbv zeta. destruct (negb _); walk_runtime. left. eexists. by right. Qed.

Lemma delete_unit_logs st : own (delete_unit sprint tops payload st).
Proof.
  unfold delete_unit. cbv zeta. destruct (_ =s ""); [walk_runtime|]. destruct (negb (isAllowedInstanceUnit _ _ _)); [walk_runtime|].
  destruct (negb _) eqn:Eo; [walk_runtime|]. apply negb_false_iff in Eo.
  apply logs_mbind; [apply logs_run_op; left; by apply cmd_stop|]. intros [code out].
  destruct (code =? 0); [walk_runtime|]. apply logs_mbind.
  { destruct (isMissingSystemdUnitOutput out); [walk_runtime|apply not_found_logs]. }
  intros []; [walk_runtime|]. apply logs_mbind; [apply state_logs|]. intros; walk_runtime.
Qed.

Lemma delete_check_logs path : own (validateManagedDeletePathPolicy sprint tops payload path).
Proof. unfold validateManagedDeletePathPolicy, not_symlink. walk_runtime. Qed.

Lemma removed_path raw : path_policy sprint payload raw = Ok (cleanAbsPath raw) → job_event (OpRemoved (cleanAbsPath raw) false).
Proof. intros Hp. apply path_policy_spec in Hp as (_ & _ & Hc & Hp). left. split; [left; by rewrite Hc|done]. Qed.

Lemma delete_files_logs files st : own (delete_files sprint tops payload files st).
Proof.
  revert st. induction files as [|file files IH]; intros st; cbn [delete_files]; [walk_runtime|].
  eapply logs_bind_with; [apply delete_check_logs|apply policy_returns|]. intros [[]|e] Hp; [|walk_runtime]. cbv zeta.
  destruct (_ || _); [apply IH|]. apply logs_mbind; [apply logs_remove; by apply removed_path, Hp|].
  intros [|]; [apply IH|walk_runtime].
Qed.

Lemma delete_legacy_logs paths st : own (delete_legacy sprint tops payload paths st).
Proof.
  revert st. induction paths as [|path paths IH]; intros st; cbn [delete_legacy]; [walk_runtime|].
  destruct (_ || _); [apply IH|].
  eapply logs_bind_with; [apply delete_check_logs|apply policy_returns|]. intros [[]|e] Hp; [|apply IH]. cbv zeta.
  apply logs_mbind; [|intros; apply IH]. apply logs_remove. left. split; [left|done].
  specialize (Hp eq_refl). apply path_policy_spec in Hp as (_ & _ & _ & Hp). done.
Qed.

Lemma delete_unit_file_logs st : own (delete_unit_file sprint tops payload st).
Proof.
  unfold delete_unit_file. cbv zeta. destruct (_ || _); [walk_runtime|].
  apply logs_mbind; [apply logs_remove; left; split; [by right|done]|]. intros; walk_runtime.
Qed.

Lemma finalize_logs : NormalizeCode (ServiceCode payload) = Nginx → own (finalizeSharedNginxRuntime tops).
Proof.
  intros Hn. unfold finalizeSharedNginxRuntime. apply logs_mbind; [apply logs_glob|]. intros [matches|e]; [|walk_runtime].
  assert (∀ args, args ∈ [["nginx"; "-t"]; ["systemctl"; "reload"; "nginx"]; ["systemctl"; "disable"; "--now"; "nginx"];
            ["systemctl"; "reset-failed"; "nginx"]] → own (op_run (base tops) args)) as Hc.
  { intros args Ha. apply logs_run_op. left. by apply cmd_nginx. }
  destruct (_ <? _)%nat.
  - apply logs_mbind; [apply Hc; apply list_elem_of_here|]. intros [code out].
    destruct (negb _); [apply logs_mbind; [apply state_logs|]; intros; walk_runtime|].
    apply logs_mbind; [apply Hc; find_line|]. intros [rc ro]. apply logs_mbind; [apply state_logs|]. intros; walk_runtime.
  - apply logs_mbind; [apply Hc; find_line|]. intros [code out].
    apply logs_mbind; [apply Hc; find_line|]. intros [rc ro]. apply logs_mbind; [apply state_logs|]. intros; walk_runtime.
Qed.

Lemma delete_failed_logs result e path : own (delete_failed tops result e path).
Proof. unfold delete_failed. walk_runtime. Qed.

Lemma delete_finish_logs result st : own (delete_finish sprint is_print tops payload result st).
Proof.
  unfold delete_finish. apply logs_mbind.
  { eapply logs_impl; [|apply network_cleanup_logs]. intros; right; by left. }
  intros policy. cbv zeta. apply logs_mbind.
  { destruct (String.eqb_spec (NormalizeCode (ServiceCode payload)) Nginx) as [En|]; [|walk_runtime].
    apply logs_mbind; [by apply finalize_logs|]. intros; walk_runtime. }
  intros [r st']. apply logs_mbind; [apply reload_logs_job|]. intros [reload [e|]]; [walk_runtime|].
  apply logs_mbind; [apply state_logs|]. intros; walk_runtime.
Qed.

Lemma delete_logs : own (Delete sprint is_print marshal_value tops payload).
Proof.
  unfold Delete. cbv zeta. apply logs_mbind; [apply delete_unit_logs|]. intros [[fields st] go_on].
  destruct (negb go_on); [walk_runtime|]. destruct (materializeInstanceSpec _ _ _) as [files|e]; [|apply delete_failed_logs].
  apply logs_mbind; [apply delete_files_logs|]. intros [st' [[e path]|]]; [apply delete_failed_logs|].
  apply logs_mbind; [apply delete_legacy_logs|]. intros st2. apply logs_mbind; [apply delete_unit_file_logs|].
  intros [st3 [[e path]|]]; [apply delete_failed_logs|apply delete_finish_logs].
Qed.

End job.
