(* ===== verification/InstanceRollback.v ===== *)
(** * A failed apply is undone

    [FileView] states what the file operations of a host do to the files it holds,
    as far as the agent relies on it while nothing else writes them.  Over every
    such host, rolling back restores the files the backup was taken of, and an
    apply that reports a complete rollback has changed none of them. *)
From stdpp Require Import gmap.
From S2P Require Import Prelude GoStrings Strconv GoValue Netip Driver Firewall FirewallAgent Shell AgentPaths AgentPathsProps AgentHost NetPolicy InstanceFiles InstanceRuntime InstanceProps.
From Stdlib Require Import Ascii.
From stdpp Require Import options.
Open Scope Z_scope.

(** ** The interface to the files *)

(** A file: its content and its permission bits. *)
Notation file_view := (option (string * Z)).

Class FileView {H : Type} (ops : runtime_ops H) (view : H → string → file_view) : Prop := {
  (** a managed write replaces its file or changes nothing *)
  view_write : ∀ f h r h', op_write (base ops) f h = (r, h') →
    ∀ p, view h' p = if is_ok r && (p =s cleanAbsPath (file_Path f))
                     then (λ mode, (file_Content f, mode mod 512)) <$> parseFileMode (file_Mode f) else view h p;
  view_write_mode : ∀ f h h', op_write (base ops) f h = (Ok (), h') → is_Some (parseFileMode (file_Mode f));
  (** [os.Remove] removes its file, finds none, or changes nothing *)
  view_unlink : ∀ q h r h', op_unlink ops q h = (r, h') →
    ∀ p, view h' p = if is_ok r && (p =s q) then None else view h p;
  view_unlink_missing : ∀ q h e h', op_unlink ops q h = (Err (NotExist e), h') → view h q = None;
  (** looking changes nothing and tells the truth *)
  view_lstat : ∀ q h r h', op_lstat (base ops) q h = (r, h') → ∀ p, view h' p = view h p;
  view_lstat_missing : ∀ q h e h', op_lstat (base ops) q h = (Err (NotExist e), h') → view h q = None;
  view_lstat_found : ∀ q h info h', op_lstat (base ops) q h = (Ok info, h') → is_symlink info = false → is_dir info = false →
    ∃ content, view h q = Some (content, perm info) ∧ 0 ≤ perm info < 512;
  view_read : ∀ q h r h', op_read (base ops) q h = (r, h') → ∀ p, view h' p = view h p;
  view_read_content : ∀ q h content h' c m, op_read (base ops) q h = (Ok content, h') → view h q = Some (c, m) → c = content;
  view_reject : ∀ q h r h', op_reject ops q h = (r, h') → ∀ p, view h' p = view h p;
  (** a path that is not rejected is no symlink *)
  view_reject_link : ∀ q h h' info h'', op_reject ops q h = (Ok (), h') → op_lstat (base ops) q h' = (Ok info, h'') →
    is_symlink info = false;
  (** reloading systemd changes no file *)
  view_reload : ∀ h r h', op_run (base ops) ["systemctl"; "daemon-reload"] h = (r, h') → ∀ p, view h' p = view h p }.

(** ** The permission bits survive their text *)

Lemma octal_digit_value d : 0 ≤ d < 8 → parse_octal_digit (byte_chr (48 + d)) = Some d.
Proof.
  intros Hd. unfold parse_octal_digit. rewrite byte_val_chr by lia. replace (48 + d - 48) with d by lia.
  replace (0 <=? d) with true by lia. by replace (d <? 8) with true by lia.
Qed.

Lemma parse_octal_app acc s t z : parse_octal acc s = Some z → parse_octal acc (s +:+ t) = parse_octal z t.
Proof.
  revert acc. induction s as [|c s IH]; intros acc; cbn [parse_octal]; [intros [= ->]; by rewrite sapp_nil_l|].
  rewrite sapp_cons. cbn [parse_octal]. destruct (parse_octal_digit c); [|done]. destruct (_ <? _); [apply IH|done].
Qed.

Lemma parse_octal_digits w z : 0 ≤ z < 8 ^ Z.of_nat w → z < two32 → parse_octal 0 (octal_digits w z) = Some z.
Proof.
  revert z. induction w as [|w IH]; intros z Hz Ht.
  { cbn [octal_digits parse_octal]. f_equal. change (8 ^ Z.of_nat 0) with 1 in Hz. lia. }
  cbn [octal_digits]. rewrite Nat2Z.inj_succ, Z.pow_succ_r in Hz by lia.
  rewrite (parse_octal_app _ _ _ (z / 8)).
  2:{ apply IH; [split; [apply Z.div_pos; lia|apply Z.div_lt_upper_bound; lia]|].
      apply Z.div_lt_upper_bound; [lia|]. unfold two32 in *. lia. }
  cbn [parse_octal]. rewrite octal_digit_value by (apply Z.mod_pos_bound; lia).
  replace (z / 8 * 8 + z mod 8) with z by (rewrite (Z.div_mod z 8) at 1; lia).
  by apply Z.ltb_lt in Ht as ->.
Qed.

Lemma octal_digits_bytes w z : all_bytes no_space (octal_digits w z).
Proof.
  revert z. induction w as [|w IH]; intros z; [apply all_bytes_nil|]. cbn [octal_digits]. rewrite all_bytes_app.
  split; [apply IH|]. rewrite all_bytes_cons. split; [|apply all_bytes_nil].
  assert (0 ≤ z mod 8 < 8) as Hd by (apply Z.mod_pos_bound; lia). revert Hd. generalize (z mod 8). intros d Hd.
  assert (d = 0 ∨ d = 1 ∨ d = 2 ∨ d = 3 ∨ d = 4 ∨ d = 5 ∨ d = 6 ∨ d = 7) as Hc by lia.
  destruct_or! Hc; subst d; done.
Qed.

Lemma octal_mode_roundtrip mode : 0 ≤ mode < 512 → parseFileMode (octal_mode mode) = Some mode.
Proof.
  intros Hm. unfold parseFileMode, octal_mode. rewrite Z.mod_small by done.
  rewrite trim_space_no_space by apply octal_digits_bytes. cbv zeta.
  destruct (String.eqb_spec (octal_digits 4 mode) "") as [E|_].
  - exfalso. cbn [octal_digits] in E. apply sapp_eq_nil in E as [_ E]. done.
  - apply parse_octal_digits; [change (8 ^ Z.of_nat 4) with 4096; lia|unfold two32; lia].
Qed.

Lemma paths_rev (backups : list managedFileBackup) : bk_Path <$> rev backups = rev (bk_Path <$> backups).
Proof. apply map_rev. Qed.

(** ** Backup and rollback *)

Section still.
Context {H : Type} (view : H → string → file_view).

(** A computation that leaves the files alone. *)
Definition still {A} (m : hostM H A) : Prop := ∀ h p, view (m h).2 p = view h p.

Lemma still_ret {A} (a : A) : still (mret a).
Proof. done. Qed.
Lemma still_bind {A B} (m : hostM H A) (f : A → hostM H B) : still m → (∀ a, still (f a)) → still (m ≫= f).
Proof.
  intros Hm Hf h p. unfold mbind, hostM_bind. specialize (Hm h p). destruct (m h) as [a h']. rewrite Hf. exact Hm.
Qed.
End still.

Section rollback.
#[local] Set Default Proof Using "Type*".
Context {H : Type} (ops : runtime_ops H) (view : H → string → file_view) `{!FileView ops view}.

Lemma still_lstat q : still view (op_lstat (base ops) q).
Proof. intros h p. destruct (op_lstat _ _ _) as [r h'] eqn:E. by eapply view_lstat. Qed.
Lemma still_read q : still view (op_read (base ops) q).
Proof. intros h p. destruct (op_read _ _ _) as [r h'] eqn:E. by eapply view_read. Qed.
Lemma still_reject q : still view (op_reject ops q).
Proof. intros h p. destruct (op_reject _ _ _) as [r h'] eqn:E. by eapply view_reject. Qed.

(** A backup agrees with the files of [h]. *)
Definition backup_of (h : H) (b : managedFileBackup) : Prop :=
  0 ≤ bk_Mode b < 512 ∧ cleanAbsPath (bk_Path b) = bk_Path b
  ∧ view h (bk_Path b) = if bk_Existed b then Some (bk_Content b, bk_Mode b) else None.

Lemma backup_of_view h h' b : (∀ p, view h' p = view h p) → backup_of h b → backup_of h' b.
Proof. intros E (? & ? & Hv). unfold backup_of. by rewrite E. Qed.

Lemma snapshot_file_still raw path : still view (snapshot_file ops raw path).
Proof.
  unfold snapshot_file. destruct (hasUnsafePathToken path); [apply still_ret|].
  apply still_bind; [apply still_reject|]. intros [|]; [|apply still_ret].
  apply still_bind; [apply still_lstat|]. intros [info|[]]; [|apply still_ret..].
  destruct (is_dir info); [apply still_ret|]. apply still_bind; [apply still_read|]. intros; apply still_ret.
Qed.

Lemma snapshot_file_spec raw h h' b (path := cleanAbsPath raw) :
  path ≠ "" → snapshot_file ops raw path h = (Ok b, h') → bk_Path b = path ∧ backup_of h b.
Proof.
  intros Hne. unfold snapshot_file. destruct (hasUnsafePathToken path) eqn:Eu; [done|].
  destruct (clean_fixed raw Hne Eu) as (Hc & _). fold path in Hc.
  unfold mbind, hostM_bind. destruct (op_reject ops path h) as [[[]|e] h1] eqn:Er; [|done].
  destruct (op_lstat (base ops) path h1) as [[info|[e|e]] h2] eqn:El; [|intros [= <- <-]|done].
  - destruct (is_dir info) eqn:Ed; [done|].
    destruct (op_read (base ops) path h2) as [[content|e] h3] eqn:Ec; [|done]. intros [= <- <-].
    split; [done|]. destruct (view_lstat_found _ _ _ _ El) as (c & Hv & Hm); [by eapply view_reject_link|done|].
    assert (c = content) as ->.
    { eapply view_read_content; [exact Ec|]. by rewrite (view_lstat _ _ _ _ El). }
    split; [done|]. split; [done|]. simpl. by rewrite <-(view_reject _ _ _ _ Er).
  - split; [done|]. split; [simpl; lia|]. split; [done|]. simpl. rewrite <-(view_reject _ _ _ _ Er).
    by eapply view_lstat_missing.
Qed.

Lemma snapshot_files_spec seen files h h' backups :
  snapshot_files ops seen files h = (Ok backups, h') →
  (∀ p, view h' p = view h p) ∧ Forall (backup_of h) backups ∧ NoDup (bk_Path <$> backups)
  ∧ (∀ p, p ∈ bk_Path <$> backups → p ∉ seen)
  ∧ ∀ f, f ∈ files → cleanAbsPath (file_Path f) ∈ seen ∨ cleanAbsPath (file_Path f) ∈ bk_Path <$> backups.
Proof.
  revert seen h backups. induction files as [|f files IH]; intros seen h backups; cbn [snapshot_files].
  { intros [= <- <-]. repeat split; [constructor|constructor|by intros ? ?%elem_of_nil|by intros ? ?%elem_of_nil]. }
  cbv zeta. set (path := cleanAbsPath (file_Path f)). destruct (String.eqb_spec path "") as [|Hne]; [done|].
  destruct (one_of path seen) eqn:Es.
  { intros (Hv & Hb & Hn & Hs & Hc)%IH. repeat split; [done..|]. apply one_of_spec in Es.
    intros g [->|Hg]%elem_of_cons; [by left|by apply Hc]. }
  assert (path ∉ seen) as Hns by (rewrite <-one_of_spec; congruence).
  unfold mbind, hostM_bind. destruct (snapshot_file ops (file_Path f) path h) as [[b|e] h1] eqn:Ef; [|done].
  pose proof (snapshot_file_still (file_Path f) path h) as Hst. rewrite Ef in Hst. simpl in Hst.
  apply snapshot_file_spec in Ef as [Hp Hb]; [|done].
  destruct (snapshot_files ops (path :: seen) files h1) as [[bs|e] h2] eqn:Efs; [|done]. intros [= <- <-].
  apply IH in Efs as (Hv & Hbs & Hn & Hs & Hc). split_and!.
  - intros p. by rewrite Hv, Hst.
  - constructor; [done|]. eapply Forall_impl; [exact Hbs|]. intros b'. by apply backup_of_view.
  - rewrite fmap_cons, Hp. constructor; [|done]. intros Hin. apply (Hs _ Hin). by left.
  - intros p [->|Hp']%elem_of_cons; [by rewrite Hp|]. intros Hin. apply (Hs _ Hp'). by right.
  - intros g [->|Hg]%elem_of_cons; [right; rewrite fmap_cons, Hp; by left|].
    destruct (Hc g Hg) as [[->|Hin]%elem_of_cons|Hin]; [right; rewrite fmap_cons, Hp; by left|by left|right; by right].
Qed.

(** What one step of the rollback does when it adds no error. *)
Lemma rollback_file_spec b st st' h h' :
  0 ≤ bk_Mode b < 512 → cleanAbsPath (bk_Path b) = bk_Path b →
  rollback_file ops b st h = (st', h') →
  (∃ errs, rb_errors st' = rb_errors st ++ errs)
  ∧ (rb_errors st' = rb_errors st →
     ∀ p, view h' p = if p =s bk_Path b then (if bk_Existed b then Some (bk_Content b, bk_Mode b) else None) else view h p).
Proof.
  intros Hm Hc. unfold rollback_file. cbv zeta. rewrite Hc.
  assert (∀ e, rb_errors (add_error st e) = rb_errors st → False) as Hadd.
  { intros e E%(f_equal (@length _)). simpl in E. rewrite length_app in E. simpl in E. lia. }
  destruct (bk_Path b =s ""); [intros [= <- <-]; split; [by eexists|by intros ?%Hadd]|].
  destruct (bk_Existed b); unfold mbind, hostM_bind.
  - destruct (op_write _ _ h) as [[[]|e] h1] eqn:Ew; intros [= <- <-].
    + split; [exists []; by rewrite app_nil_r|]. intros _ p. rewrite (view_write _ _ _ _ Ew). simpl.
      rewrite octal_mode_roundtrip by done. rewrite Hc. destruct (p =s bk_Path b); [|done]. simpl. by rewrite Z.mod_small.
    + split; [by eexists|by intros ?%Hadd].
  - destruct (op_reject ops (bk_Path b) h) as [[[]|e] h1] eqn:Er; [|intros [= <- <-]; split; [by eexists|by intros ?%Hadd]].
    destruct (op_unlink ops (bk_Path b) h1) as [[[]|[e|e]] h2] eqn:Eu; intros [= <- <-].
    + split; [exists []; by rewrite app_nil_r|]. intros _ p. rewrite (view_unlink _ _ _ _ Eu). simpl.
      by rewrite (view_reject _ _ _ _ Er).
    + split; [exists []; by rewrite app_nil_r|]. intros _ p. rewrite (view_unlink _ _ _ _ Eu). simpl.
      rewrite (view_reject _ _ _ _ Er). destruct (String.eqb_spec p (bk_Path b)) as [->|]; [|done].
      rewrite <-(view_reject _ _ _ _ Er). by eapply view_unlink_missing.
    + split; [by eexists|by intros ?%Hadd].
Qed.

Lemma rollback_files_spec bs st st' h h' :
  Forall (λ b, 0 ≤ bk_Mode b < 512 ∧ cleanAbsPath (bk_Path b) = bk_Path b) bs → NoDup (bk_Path <$> bs) →
  rollback_files ops bs st h = (st', h') →
  (∃ errs, rb_errors st' = rb_errors st ++ errs)
  ∧ (rb_errors st' = rb_errors st →
     (∀ b, b ∈ bs → view h' (bk_Path b) = if bk_Existed b then Some (bk_Content b, bk_Mode b) else None)
     ∧ ∀ p, p ∉ bk_Path <$> bs → view h' p = view h p).
Proof.
  intros Hb. revert st h. induction Hb as [|b bs [Hm Hc] Hb IH]; intros st h Hn; cbn [rollback_files].
  { intros [= <- <-]. split; [exists []; by rewrite app_nil_r|]. intros _. split; [by intros ? ?%elem_of_nil|done]. }
  unfold mbind, hostM_bind. destruct (rollback_file ops b st h) as [st1 h1] eqn:E1. intros E2.
  apply NoDup_cons in Hn as [Hni Hn]. apply rollback_file_spec in E1 as [[e1 He1] H1]; [|done..].
  apply IH in E2 as [[e2 He2] H2]; [|done]. split; [exists (e1 ++ e2); by rewrite He2, He1, app_assoc|].
  intros E. assert (e1 = [] ∧ e2 = []) as [-> ->].
  { rewrite He2, He1, <-app_assoc in E. apply (f_equal (@length _)) in E. rewrite !length_app in E.
    destruct e1, e2; simpl in E; try lia. done. }
  rewrite app_nil_r in He1, He2. specialize (H1 He1). destruct (H2 He2) as [H2a H2b]. split.
  - intros b' [->|Hin]%elem_of_cons; [|by apply H2a]. rewrite H2b, H1 by done. by rewrite String.eqb_refl.
  - intros p. rewrite fmap_cons, not_elem_of_cons. intros [Hp Hps]. rewrite H2b, H1 by done.
    by apply String.eqb_neq in Hp as ->.
Qed.

(** A rollback that reports no error restores what the backup was taken of, and
    touches nothing else. *)
Lemma rollback_restores files h0 h1 h2 h3 backups result :
  snapshotManagedFiles ops files h0 = (Ok backups, h1) → rollbackManagedFiles ops backups h2 = (result, h3) →
  result !! "ok" = Some (ABool true) →
  (∀ f, f ∈ files → view h3 (cleanAbsPath (file_Path f)) = view h0 (cleanAbsPath (file_Path f)))
  ∧ ∀ p, p ∉ (λ f, cleanAbsPath (file_Path f)) <$> files → view h3 p = view h2 p.
Proof.
  unfold snapshotManagedFiles, rollbackManagedFiles. intros Hs.
  pose proof (snapshot_returns ops [] files h0) as Hr. rewrite Hs in Hr. specialize (Hr backups eq_refl).
  apply snapshot_files_spec in Hs as (_ & Hb & Hn & _ & Hc). unfold mbind, hostM_bind.
  destruct (rollback_files ops (rev backups) _ h2) as [st h'] eqn:E. intros [= <- <-] Hok.
  apply rollback_files_spec in E as [_ E].
  - assert (rb_errors st = []) as Herr.
    { unfold rollback_result in Hok. cbn [list_to_map foldr uncurry fst snd] in Hok. revert Hok. simplify_map_eq.
      intros [= Hl%Nat.eqb_eq]. by apply length_zero_iff_nil. }
    destruct (E Herr) as [Ea Eb]. split.
    + intros f Hf. destruct (Hc f Hf) as [[]%elem_of_nil|Hin]. apply list_elem_of_fmap in Hin as (b & -> & Hb').
      rewrite Ea by (by rewrite list_elem_of_In, <-in_rev, <-list_elem_of_In).
      rewrite Forall_forall in Hb. destruct (Hb _ Hb') as (_ & _ & Hv). by rewrite Hv.
    + intros p Hp. apply Eb. rewrite paths_rev, list_elem_of_In, <-in_rev, <-list_elem_of_In. intros Hin. apply Hp.
      apply list_elem_of_fmap in Hin as (b & -> & Hb'). rewrite Forall_forall in Hr. destruct (Hr _ Hb') as (f & Hf & ->).
      by apply (list_elem_of_fmap_2 (λ f, cleanAbsPath (file_Path f))).
  - apply Forall_rev. eapply Forall_impl; [exact Hb|]. by intros b (? & ? & _).
  - rewrite paths_rev. apply NoDup_ListNoDup, NoDup_rev; by apply NoDup_ListNoDup.
Qed.
End rollback.

(** ** Applying *)

(** The result reports a rollback without errors. *)
Definition rolled_back (result : gomap) : Prop :=
  ∃ rb, result !! "rollback" = Some (AMap rb) ∧ rb !! "ok" = Some (ABool true).

Lemma not_rolled_back result : result !! "rollback" = None → ¬ rolled_back result.
Proof. intros E (rb & E' & _). congruence. Qed.

Ltac no_rollback :=
  cbn [fst snd]; repeat rewrite lookup_insert_ne by done;
  first
    [ apply lookup_empty
    | apply not_elem_of_list_to_map_1; cbn [fmap list_fmap app fst identity_fields]; rewrite !not_elem_of_cons;
      repeat split; try discriminate; apply not_elem_of_nil ].

Section apply.
#[local] Set Default Proof Using "Type*".
Context (sprint : any → string) (is_print : Z → bool) (order : gomap → list (string * any)).
Context (marshal_value : any → T string) (json_valid : string → bool).
Context {H : Type} (ops : runtime_ops H) (view : H → string → file_view) `{!FileView ops view}.
Context (install_nginx : hostM H gomap) (payload : instanceJobPayload).

Lemma systemd_returns operation :
  returns (Systemd sprint is_print ops payload operation)
    (λ r, (r.1 = "failed" ∨ r.1 = "succeeded") ∧ r.2 !! "rollback" = None).
Proof.
  unfold Systemd, job_failed. destruct (negb _); [apply returns_ret; split; [by left|no_rollback]|].
  destruct (systemdArgs _ _ _) as [args|e]; [|apply returns_ret; split; [by left|no_rollback]].
  destruct (_ =s ""); [apply returns_ret; split; [by left|no_rollback]|].
  apply returns_bind. intros [code out]. apply returns_bind. intros elapsed. apply returns_bind. intros state.
  destruct (code =? 0); apply returns_ret; (split; [first [by left|by right]|no_rollback]).
Qed.

Lemma validate_still files : still view (validate_files sprint ops payload files).
Proof.
  induction files as [|f files IH]; cbn [validate_files]; [apply still_ret|].
  apply still_bind; [|intros [|]; [done|apply still_ret]]. unfold validateManagedFilePolicy.
  destruct (path_policy _ _ _) as [path|]; [|apply still_ret]. destruct (_ && _); [apply still_ret|].
  unfold not_symlink. apply still_bind; [by apply still_lstat|]. intros; apply still_ret.
Qed.

Section undone.
(** The state the backup was taken in. *)
Context (files : list managedFileSpec) (backups : list managedFileBackup) (h1 h2 : H).
Context (Hsnap : snapshotManagedFiles ops files h1 = (Ok backups, h2)).

(** Whenever the result reports a complete rollback, the files are as backed up. *)
Definition undone (m : hostM H (string * gomap)) : Prop :=
  ∀ h s r h', m h = ((s, r), h') → rolled_back r →
  s = "failed" ∧ ∀ f, f ∈ files → view h' (cleanAbsPath (file_Path f)) = view h1 (cleanAbsPath (file_Path f)).

Lemma undone_ret s r : r !! "rollback" = None → undone (mret (s, r)).
Proof using Type. intros Hr h s' r' h' [= <- <- <-] Hrb. by apply not_rolled_back in Hr. Qed.

Lemma undone_bind {A} (m : hostM H A) f : (∀ a, undone (f a)) → undone (m ≫= f).
Proof using Type. intros Hf h s r h'. unfold mbind, hostM_bind. destruct (m h) as [a h3]. apply Hf. Qed.

Lemma undone_bind_with {A} (m : hostM H A) (R : A → Prop) f : returns m R → (∀ a, R a → undone (f a)) → undone (m ≫= f).
Proof using Type. intros Hm Hf h s r h'. unfold mbind, hostM_bind. specialize (Hm h). destruct (m h) as [a h3]. by apply Hf. Qed.

Lemma rollback_undone h rb h' :
  rollback ops backups h = (rb, h') → rb !! "ok" = Some (ABool true) →
  ∀ f, f ∈ files → view h' (cleanAbsPath (file_Path f)) = view h1 (cleanAbsPath (file_Path f)).
Proof.
  unfold rollback, runSystemdDaemonReload, mbind, hostM_bind.
  destruct (rollbackManagedFiles ops backups h) as [rb0 h3] eqn:Er.
  destruct (op_run _ _ h3) as [[code out] h4] eqn:El. intros [= <- <-] Hok f Hf.
  rewrite (view_reload _ _ _ El). destruct (rollback_restores ops view files _ _ _ _ _ _ Hsnap Er) as [Ha _]; [|by apply Ha].
  destruct (code =? 0); by simplify_map_eq.
Qed.

Lemma fail_undone fields : "rollback" ∉ fields.*1 → undone (fail_rolled_back ops backups fields).
Proof.
  intros Hn h s r h'. unfold fail_rolled_back, job_failed, mbind, hostM_bind.
  destruct (rollback ops backups h) as [rb h3] eqn:Er. intros [= <- <- <-] (rb' & Erb & Hok). split; [done|].
  rewrite list_to_map_app, lookup_union_r in Erb by by apply not_elem_of_list_to_map_1.
  cbn [list_to_map foldr uncurry fst snd] in Erb. rewrite lookup_insert_eq in Erb. injection Erb as ->.
  by eapply rollback_undone.
Qed.

Lemma apply_unit_undone changed policy result :
  result !! "rollback" = None → undone (apply_unit sprint is_print ops payload backups changed policy result).
Proof.
  intros Hres. unfold apply_unit, job_failed. apply undone_bind. intros state. destruct (Enabled payload).
  - eapply undone_bind_with; [apply systemd_returns|]. intros [status r] [Hst Hr]. cbn [fst snd] in *.
    apply undone_bind. intros elapsed. destruct (negb (status =s "succeeded")) eqn:Es.
    + intros h s r' h'. unfold mbind, hostM_bind. destruct (rollback ops backups h) as [rb h3] eqn:Er.
      intros [= <- <- <-] (rb' & Erb & Hok). rewrite lookup_insert_eq in Erb. injection Erb as ->.
      split; [|by eapply rollback_undone]. destruct Hst as [->| ->]; done.
    + apply undone_ret. by repeat rewrite lookup_insert_ne by done.
  - destruct (negb _); [apply undone_ret; no_rollback|]. apply undone_bind. intros [code out].
    destruct (_ && _); [apply undone_ret; by repeat rewrite lookup_insert_ne by done|].
    apply undone_bind. intros state'. apply undone_ret. by repeat rewrite lookup_insert_ne by done.
Qed.

Lemma with_preflight_lookup preflight result :
  result !! "rollback" = None → with_preflight preflight result !! "rollback" = None.
Proof. intros. unfold with_preflight. destruct (_ =? _)%nat; [done|]. by rewrite lookup_insert_ne. Qed.

Lemma apply_written_undone changed preflight :
  undone (apply_written sprint is_print order json_valid ops payload files backups changed preflight).
Proof.
  assert (∀ fields, bool_decide ("rollback" ∈ fields.*1) = false → undone (fail_rolled_back ops backups fields)) as Hfail.
  { intros fields Hd%bool_decide_eq_false. by apply fail_undone. }
  unfold apply_written. cbv zeta. apply undone_bind. intros [reload [e|]]; [by apply Hfail|].
  apply undone_bind. intros [e|]; [by apply Hfail|]. apply undone_bind. intros [policy [e|]]; [by apply Hfail|].
  apply undone_bind. intros elapsed.
  match goal with |- context [with_preflight ?p ?r] => assert (with_preflight p r !! "rollback" = None) as Hr end.
  { apply with_preflight_lookup. no_rollback. }
  destruct (_ =s ""); [|by apply apply_unit_undone]. apply undone_bind. intros state. apply undone_ret.
  by rewrite lookup_insert_ne.
Qed.
End undone.

(** C14: a failed apply is undone.  Whenever the result of an apply reports a
    rollback without errors, the job has failed, and every file of the
    specification is as it was once the runtime of the service had been ensured:
    with its content and permission bits, or absent. *)
Theorem apply_rolls_back (h : H) (status : string) (result : gomap) (h' : H) (files : list managedFileSpec) :
  Apply sprint is_print order marshal_value json_valid ops install_nginx payload h = ((status, result), h') →
  rolled_back result → materializeInstanceSpec sprint marshal_value payload = Ok files →
  let h0 := (ensureInstanceRuntime sprint ops install_nginx payload h).2 in
  status = "failed" ∧ ∀ f, f ∈ files → view h' (cleanAbsPath (file_Path f)) = view h0 (cleanAbsPath (file_Path f)).
Proof.
  intros E Hrb Hf. unfold Apply, mbind at 1, hostM_bind at 1 in E. cbv zeta.
  destruct (ensureInstanceRuntime sprint ops install_nginx payload h) as [[preflight [e|]] h0] eqn:Ee; cbn [snd].
  { unfold mbind, hostM_bind in E. destruct (op_elapsed ops h0) as [elapsed h1]. injection E as <- <- <-.
    exfalso. refine (not_rolled_back _ _ Hrb). cbn [snd]. apply with_preflight_lookup. no_rollback. }
  rewrite Hf in E. unfold mbind at 1, hostM_bind at 1 in E.
  destruct (validate_files sprint ops payload files h0) as [[[e path]|] h1] eqn:Ev.
  { injection E as <- <- <-. exfalso. refine (not_rolled_back _ _ Hrb). no_rollback. }
  pose proof (validate_still files h0) as Hst. rewrite Ev in Hst. cbn [snd] in Hst.
  unfold mbind at 1, hostM_bind at 1 in E.
  destruct (snapshotManagedFiles ops files h1) as [[backups|e] h2] eqn:Es.
  2:{ injection E as <- <- <-. exfalso. refine (not_rolled_back _ _ Hrb). no_rollback. }
  assert (undone files h1 (write_files ops [] files ≫= λ '(changed, err),
    match err with
    | Some (e, path) => fail_rolled_back ops backups (("error", AString e) :: identity_fields payload ++ [("path", AString path)])
    | None => apply_written sprint is_print order json_valid ops payload files backups changed preflight
    end)) as Hu.
  { apply undone_bind. intros [changed [[e path]|]]; [|by apply (apply_written_undone _ _ _ _ Es)].
    apply (fail_undone _ _ _ _ Es). by apply (bool_decide_eq_false ("rollback" ∈ _)). }
  destruct (Hu _ _ _ _ E Hrb) as [-> Hv]. split; [done|]. intros f Hin. by rewrite Hv, Hst.
Qed.
End apply.

(** ** A host *)

Module InstanceSample.
Notation files := (gmap string (string * Z)).

(** The files by path; [broken] are the commands that fail. *)
Definition agent (broken : list (list string)) : agent_ops files :=
  {| op_run := λ args h, ((if bool_decide (args ∈ broken) then 1 else 0, "out"), h);
     op_output := λ _ h, ("active", h);
     op_write := λ f h, match parseFileMode (file_Mode f) with
                        | Some mode => (Ok (), <[cleanAbsPath (file_Path f) := (file_Content f, mode)]> h)
                        | None => (Err (IOError "invalid file mode"), h)
                        end;
     op_remove := λ p _ h, (Ok (bool_decide (is_Some (h !! p))), delete p h);
     op_lstat := λ p h, (match h !! p with
                         | Some (_, mode) => Ok {| is_symlink := false; is_dir := false; perm := mode mod 512 |}
                         | None => Err (NotExist p)
                         end, h);
     op_read := λ p h, (match h !! p with Some (c, _) => Ok c | None => Err (NotExist p) end, h);
     op_now := λ h, ("", h) |}.

Definition host (broken : list (list string)) : runtime_ops files :=
  {| base := agent broken; op_reject := λ _ h, (Ok (), h);
     op_unlink := λ p h, match h !! p with Some _ => (Ok (), delete p h) | None => (Err (NotExist p), h) end;
     op_look_path := λ n h, (Some ("/usr/bin/" +:+ n), h); op_is_executable := λ _ h, (true, h);
     op_glob := λ _ h, (Ok [], h); op_elapsed := λ h, (7, h) |}.

Definition view (h : files) (p : string) : file_view := (λ c, (c.1, c.2 mod 512)) <$> h !! p.

#[global] Instance host_view broken : FileView (host broken) view.
Proof.
  split; unfold view, host, agent; cbn [base op_write op_lstat op_read op_run op_reject op_unlink].
  - intros f h r h' E p. destruct (parseFileMode (file_Mode f)) as [mode|]; injection E as <- <-; [|done]. cbn [is_ok andb].
    destruct (String.eqb_spec p (cleanAbsPath (file_Path f))) as [->|Hne]; [by rewrite lookup_insert_eq|].
    by rewrite lookup_insert_ne.
  - intros f h h' E. by destruct (parseFileMode (file_Mode f)).
  - intros q h r h' E p. destruct (h !! q) eqn:Eq; injection E as <- <-; [|done]. cbn [is_ok andb].
    destruct (String.eqb_spec p q) as [->|Hne]; [by rewrite lookup_delete_eq|by rewrite lookup_delete_ne].
  - intros q h e h' E. by destruct (h !! q).
  - by intros q h r h' [= _ <-].
  - intros q h e h' E. destruct (h !! q) as [[]|] eqn:Eq; [done|]. done.
  - intros q h info h' E _ _. destruct (h !! q) as [[c m]|]; [|done]. injection E as <- _. exists c.
    split; [done|]. by apply Z.mod_pos_bound.
  - by intros q h r h' [= _ <-].
  - intros q h content h' c m E Hv. destruct (h !! q) as [[c' m']|]; [|done]. injection E as -> _. by injection Hv as ->.
  - by intros q h r h' [= _ <-].
  - intros q h h' info h'' E1 E2. destruct (h' !! q) as [[]|]; [|done]. by injection E2 as <- _.
  - by intros h r h' [= _ <-].
Qed.

Definition payload (enabled : bool) : instanceJobPayload :=
  {| InstanceID := "i-1"; Action := "apply"; ServiceCode := "openvpn"; RuntimeServiceCode := "openvpn"; pl_Name := "Office";
     Slug := "office"; SystemdUnit := DefaultSystemdUnit OpenVPN "office"; EndpointHost := ""; EndpointPort := 1194;
     Enabled := enabled; Spec := {[ "config_content" := AString "port 1194" ]} |}.

Definition config : string := DefaultConfigPath OpenVPN "office".
Definition held : files := {[ config := ("port 1193", 384) ]}.

Definition apply (broken : list (list string)) (enabled : bool) : (string * gomap) * files :=
  Apply (λ _, "") (λ _, true) map_to_list (λ _, Ok "") (λ _, true) (host broken) (mret ∅) (payload enabled) held.
Definition restart_fails : list (list string) := [["systemctl"; "restart"; DefaultSystemdUnit OpenVPN "office"]].
Definition disable_fails : list (list string) := [["systemctl"; "disable"; DefaultSystemdUnit OpenVPN "office"]].
Definition spec_files : list managedFileSpec :=
  default [] (match materializeInstanceSpec (λ _, "") (λ _, Ok "") (payload true) with Ok l => Some l | Err _ => None end).
End InstanceSample.

Lemma apply_rolls_back_witness :
  let r := InstanceSample.apply InstanceSample.restart_fails true in
  rolled_back r.1.2 ∧ r.1.1 = "failed"
  ∧ ∀ f, f ∈ InstanceSample.spec_files →
      InstanceSample.view r.2 (cleanAbsPath (file_Path f)) = InstanceSample.view InstanceSample.held (cleanAbsPath (file_Path f)).
Proof.
  intros r.
  assert (rolled_back r.1.2) as Hrb.
  { exists (match r.1.2 !! "rollback" with Some (AMap rb) => rb | _ => ∅ end). split; vm_compute; reflexivity. }
  split; [exact Hrb|].
  destruct (apply_rolls_back (λ _, "") (λ _, true) map_to_list (λ _, Ok "") (λ _, true)
    (InstanceSample.host InstanceSample.restart_fails) InstanceSample.view (mret ∅) (InstanceSample.payload true)
    InstanceSample.held r.1.1 r.1.2 r.2 InstanceSample.spec_files) as [Hst Hv].
  - unfold r. destruct (InstanceSample.apply InstanceSample.restart_fails true) as [[s x] h'] eqn:E. exact E.
  - exact Hrb.
  - vm_compute. reflexivity.
  - split; [exact Hst|].
    assert ((ensureInstanceRuntime (λ _, "") (InstanceSample.host InstanceSample.restart_fails) (mret ∅)
      (InstanceSample.payload true) InstanceSample.held).2 = InstanceSample.held) as E0 by (vm_compute; reflexivity).
    rewrite E0 in Hv. exact Hv.
Defined.

(** An apply that cannot disable the unit of a disabled instance fails without a
    rollback: the new files stay. *)
Lemma disabled_apply_keeps_its_files :
  let r := InstanceSample.apply InstanceSample.disable_fails false in
  r.1.1 = "failed" ∧ r.1.2 !! "rollback" = None
  ∧ InstanceSample.view InstanceSample.held InstanceSample.config = Some ("port 1193", 384)
  ∧ (fst <$> InstanceSample.view r.2 InstanceSample.config) = Some ("port 1194" +:+ String LF "").
Proof. vm_compute. repeat split. Qed.

