(* ===== verification/AddressPool.v ===== *)
(** * Address pools: the arithmetic of IPv4 subnets

    The pure part of [internal/infra/postgres/address_pools.go]: validation of a
    pool's networks, its capacity, the search for the first free subnet, and the
    addresses derived from an allocated one.  A [uint32] is a [Z] below [2^32] with
    its wrap-around written out; [used] holds the keys of the Go map that are true. *)
From stdpp Require Import gmap.
From S2P Require Import Prelude GoStrings Strconv Netip.
From Stdlib Require Import Ascii.
From stdpp Require Import options.
Open Scope Z_scope.

(** ** Machine words *)

Definition u32 (z : Z) : Z := z mod two32.
Definition max_u32 : Z := two32 - 1.

(** [a << b] on [uint32]: a shift by 32 or more gives zero. *)
Definition shl32 (a b : Z) : Z := u32 (Z.shiftl a b).

(** [Addr.As4] and [netip.AddrFrom4]. *)
Definition As4 (a : addr) : list Z :=
  (λ k, Z.land (Z.shiftr (addr_value a) k) 255) <$> [24; 16; 8; 0].
Definition AddrFrom4 (raw : list Z) : addr := V4 (octets_value raw).

Definition ipv4ToUint32 (a : addr) : Z :=
  match As4 a with
  | [b0; b1; b2; b3] => Z.lor (Z.lor (Z.lor (shl32 b0 24) (shl32 b1 16)) (shl32 b2 8)) b3
  | _ => 0
  end.

Definition uint32ToIPv4 (value : Z) : addr :=
  AddrFrom4 ((λ k, Z.land (Z.shiftr value k) 255) <$> [24; 16; 8; 0]).

Definition alignIPv4ToPrefix (value bits : Z) : Z :=
  if 32 <=? bits then value
  else Z.land value (shl32 max_u32 (u32 (32 - bits))).

(** ** Pools *)

Inductive pool_error :=
| BaseInvalid
| StartInvalid
| OnlyIPv4
| StartOutsideBase
| AllocationPrefixRange (prefix base : Z)
| NoFreeSubnet (prefix : Z) (base start : string)
| PrefixInvalid
| PrefixNotIPv4
| HostOutsidePrefix (host : Z) (prefix : string)
| NetworkInvalid
| NetworkNotIPv4
| NetmaskInvalid
| NetmaskNotIPv4
| TooSmallForL2TP (prefix : string).

Definition parse_or (e : pool_error) (s : string) : result pool_error prefix :=
  match ParsePrefix s with Some p => Ok p | None => Err e end.

Definition validateAddressPoolSpaceCIDRs (BaseCIDR StartCIDR : string) (AllocationPrefix : Z)
  : result pool_error () :=
  base ← parse_or BaseInvalid (trim_space BaseCIDR);
  start ← parse_or StartInvalid (trim_space StartCIDR);
  if negb (Is4 (prefix_addr base)) || negb (Is4 (prefix_addr start)) then Err OnlyIPv4
  else if negb (Contains base (prefix_addr (Masked start))) then Err StartOutsideBase
  else
    let prefix := if AllocationPrefix <=? 0 then 24 else AllocationPrefix in
    if (prefix <? prefix_bits base) || (32 <? prefix) then Err (AllocationPrefixRange prefix (prefix_bits base))
    else Ok ().

(** [uint32(uint64(baseStart) + (uint64(1) << uint32(32-base.Bits())) - 1)]. *)
Definition base_end (base : prefix) : Z :=
  u32 (ipv4ToUint32 (prefix_addr (Masked base)) + 2 ^ (32 - prefix_bits base) - 1).

(** The first subnet the pool hands out. *)
Definition first_subnet (base start : prefix) (allocationPrefix : Z) : Z :=
  let next := alignIPv4ToPrefix (ipv4ToUint32 (prefix_addr (Masked start))) allocationPrefix in
  let baseStart := ipv4ToUint32 (prefix_addr (Masked base)) in
  if next <? baseStart then baseStart else next.

(** [None] is the panic of the division by a zero block. *)
Definition addressPoolCapacity (baseCIDR startCIDR : string) (allocationPrefix : Z) : option Z :=
  match ParsePrefix baseCIDR with
  | None => Some 0
  | Some base =>
      if negb (Is4 (prefix_addr base)) then Some 0
      else match ParsePrefix startCIDR with
      | None => Some 0
      | Some start =>
          if negb (Is4 (prefix_addr start)) then Some 0
          else if (allocationPrefix <? prefix_bits base) || (32 <? allocationPrefix) then Some 0
          else
            let block := shl32 1 (u32 (32 - allocationPrefix)) in
            let startValue := first_subnet base start allocationPrefix in
            if base_end base <? startValue then Some 0
            else if block =? 0 then None
            else Some ((base_end base - startValue) / block + 1)
      end
  end.

(** The loop; the outer [None] is out of fuel, the inner one its end. *)
Fixpoint next_loop (fuel : nat) (block baseEnd allocationPrefix : Z) (used : gset string) (next : Z)
  : option (option prefix) :=
  match fuel with
  | O => None
  | S fuel =>
      if (next <=? baseEnd) && (u32 (u32 (next + block) - 1) <=? baseEnd) then
        let candidate := Masked (Prefix (uint32ToIPv4 next) allocationPrefix) in
        if negb (bool_decide (prefix_string candidate ∈ used)) then Some (Some candidate)
        else if u32 (max_u32 - next) <? block then Some None
        else next_loop fuel block baseEnd allocationPrefix used (u32 (next + block))
      else Some None
  end.

Definition nextAvailableIPv4Subnet (fuel : nat) (baseCIDR startCIDR : string) (allocationPrefix : Z) (used : gset string)
  : option (result pool_error prefix) :=
  match parse_or BaseInvalid baseCIDR, parse_or StartInvalid startCIDR with
  | Err e, _ => Some (Err e)
  | Ok _, Err e => Some (Err e)
  | Ok base, Ok start =>
      if negb (Is4 (prefix_addr base)) || negb (Is4 (prefix_addr start)) then Some (Err OnlyIPv4)
      else if (allocationPrefix <? prefix_bits base) || (32 <? allocationPrefix)
      then Some (Err (AllocationPrefixRange allocationPrefix (prefix_bits base)))
      else
        match next_loop fuel (shl32 1 (u32 (32 - allocationPrefix))) (base_end base) allocationPrefix used
                (first_subnet base start allocationPrefix) with
        | None => None
        | Some (Some p) => Some (Ok p)
        | Some None => Some (Err (NoFreeSubnet allocationPrefix (prefix_string base) (prefix_string start)))
        end
  end.

(** ** Addresses of a subnet *)

Definition firstUsableIPv4Address (prefix : string) (hostIndex : Z) : result pool_error string :=
  p ← parse_or PrefixInvalid prefix;
  if negb (Is4 (prefix_addr p)) then Err PrefixNotIPv4
  else
    let hostIndex := if hostIndex =? 0 then 1 else hostIndex in
    let base := ipv4ToUint32 (prefix_addr (Masked p)) in
    let a := uint32ToIPv4 (u32 (base + hostIndex)) in
    if negb (Contains p a) then Err (HostOutsidePrefix hostIndex (prefix_string p))
    else Ok (addr_string a +:+ "/" +:+ itoa (prefix_bits p)).

Definition netmask (bits : Z) : Z := if 0 <? bits then shl32 max_u32 (u32 (32 - bits)) else 0.

Definition ipv4NetworkAndNetmask (prefix : string) : result pool_error (string * string) :=
  p ← parse_or PrefixInvalid prefix;
  if negb (Is4 (prefix_addr p)) then Err PrefixNotIPv4
  else Ok (addr_string (prefix_addr (Masked p)), addr_string (uint32ToIPv4 (netmask (prefix_bits p)))).

(** The number of leading ones of a mask: [i] bits are left to look at. *)
Fixpoint leading_ones (i : nat) (mask : Z) : Z :=
  match i with
  | O => 0
  | S i => if Z.land mask (Z.shiftl 1 (Z.of_nat i)) =? 0 then 0 else 1 + leading_ones i mask
  end.

Definition cidrFromIPv4NetworkAndNetmask (network netmask : string) : result pool_error string :=
  match ParseAddr (trim_space network) with
  | None => Err NetworkInvalid
  | Some a =>
      if negb (Is4 a) then Err NetworkNotIPv4
      else match ParseAddr (trim_space netmask) with
      | None => Err NetmaskInvalid
      | Some maskAddr =>
          if negb (Is4 maskAddr) then Err NetmaskNotIPv4
          else Ok (prefix_string (Masked (Prefix a (leading_ones 32 (ipv4ToUint32 maskAddr)))))
      end
  end.

Definition l2tpPoolFromPrefix (prefix : string) : result pool_error (string * string * string) :=
  p ← parse_or PrefixInvalid prefix;
  if negb (Is4 (prefix_addr p)) then Err PrefixNotIPv4
  else
    let base := ipv4ToUint32 (prefix_addr (Masked p)) in
    let size := shl32 1 (u32 (32 - prefix_bits p)) in
    if size <? 32 then Err (TooSmallForL2TP (prefix_string p))
    else
      let endOffset := if u32 (size - 1) <=? 200 then u32 (size - 2) else 200 in
      Ok (addr_string (uint32ToIPv4 (u32 (base + 1))), addr_string (uint32ToIPv4 (u32 (base + 10))),
          addr_string (uint32ToIPv4 (u32 (base + endOffset)))).

Example next_subnet_first :
  (prefix_string <$> match nextAvailableIPv4Subnet 1 "172.16.0.0/12" "172.16.112.0/24" 24 ∅ with Some (Ok p) => Some p | _ => None end)
  = Some "172.16.112.0/24".
Proof. vm_compute. reflexivity. Qed.
Example l2tp_pool :
  l2tpPoolFromPrefix "172.16.120.0/24" = Ok ("172.16.120.1", "172.16.120.10", "172.16.120.200").
Proof. vm_compute. reflexivity. Qed.
Example cidr_of_mask : cidrFromIPv4NetworkAndNetmask "10.8.0.5" "255.255.255.0" = Ok "10.8.0.0/24".
Proof. vm_compute. reflexivity. Qed.

(** ** Words and addresses *)

Lemma land_255 v : Z.land v 255 = v mod 256.
Proof. exact (Z.land_ones v 8 ltac:(done)). Qed.

Lemma land_shiftl_low a b k : 0 ≤ k → 0 ≤ b < 2 ^ k → Z.land (Z.shiftl a k) b = 0.
Proof.
  intros Hk Hb. apply Z.bits_inj'. intros i Hi. rewrite Z.land_spec, Z.bits_0, Z.shiftl_spec by done.
  destruct (Z.lt_ge_cases i k) as [|Hge]; [by rewrite Z.testbit_neg_r by lia|].
  rewrite <-(Z.mod_small b (2 ^ k)), Z.mod_pow2_bits_high by lia. apply andb_false_r.
Qed.

Lemma lor_shiftl a b k : 0 ≤ k → 0 ≤ b < 2 ^ k → Z.lor (Z.shiftl a k) b = a * 2 ^ k + b.
Proof.
  intros Hk Hb. pose proof (Z.add_lor_land (Z.shiftl a k) b) as E. rewrite land_shiftl_low in E by done.
  rewrite Z.shiftl_mul_pow2 in E by done. rewrite Z.shiftl_mul_pow2 by done. lia.
Qed.

(** The high bits of a value, by arithmetic. *)
Lemma land_high v k m : 0 ≤ k → 0 ≤ m → 0 ≤ v < 2 ^ (k + m) → Z.land v (Z.shiftl (Z.ones m) k) = v - v mod 2 ^ k.
Proof.
  intros Hk Hm Hv. assert (0 < 2 ^ k) as Hp by (apply Z.pow_pos_nonneg; lia).
  transitivity (Z.shiftl (Z.shiftr v k) k).
  - apply Z.bits_inj'. intros i Hi. rewrite Z.land_spec, !Z.shiftl_spec by done.
    destruct (Z.lt_ge_cases i k) as [|Hge].
    + rewrite !(Z.testbit_neg_r _ (i - k)) by lia. apply andb_false_r.
    + rewrite Z.shiftr_spec by lia. replace (i - k + k) with i by lia.
      destruct (Z.lt_ge_cases (i - k) m) as [Hlt|Hge']; [rewrite Z.ones_spec_low by lia; apply andb_true_r|].
      rewrite Z.ones_spec_high by lia. rewrite <-(Z.mod_small v (2 ^ (k + m))), Z.mod_pow2_bits_high by lia. done.
  - rewrite Z.shiftl_mul_pow2, Z.shiftr_div_pow2 by done. pose proof (Z.div_mod v (2 ^ k) ltac:(lia)). lia.
Qed.

Lemma octets_of v : 0 ≤ v < two32 →
  (λ k, Z.land (Z.shiftr v k) 255) <$> [24; 16; 8; 0] = [v / 16777216; v / 65536 mod 256; v / 256 mod 256; v mod 256].
Proof.
  unfold two32. intros Hv. cbn [fmap list_fmap]. rewrite !land_255, !Z.shiftr_div_pow2 by done.
  change (2 ^ 24) with 16777216. change (2 ^ 16) with 65536. change (2 ^ 8) with 256. change (2 ^ 0) with 1.
  rewrite Z.div_1_r. repeat f_equal. apply Z.mod_small. lia.
Qed.

Lemma uint32ToIPv4_eq v : 0 ≤ v < two32 → uint32ToIPv4 v = V4 v.
Proof.
  intros Hv. unfold uint32ToIPv4, AddrFrom4. rewrite octets_of by done. f_equal. unfold octets_value. simpl.
  unfold two32 in Hv. lia.
Qed.

Lemma shl32_small a k : 0 ≤ k → 0 ≤ a * 2 ^ k < two32 → shl32 a k = Z.shiftl a k.
Proof. intros Hk Ha. unfold shl32, u32. rewrite Z.shiftl_mul_pow2 by done. by apply Z.mod_small. Qed.

Lemma ipv4ToUint32_eq n : 0 ≤ n < two32 → ipv4ToUint32 (V4 n) = n.
Proof.
  intros Hn. unfold ipv4ToUint32, As4. cbn [addr_value]. rewrite octets_of by done. unfold two32 in *.
  rewrite !shl32_small by (unfold two32; lia).
  rewrite <-!Z.lor_assoc. rewrite (lor_shiftl _ (n mod 256) 8) by lia.
  rewrite (lor_shiftl _ _ 16) by lia. rewrite (lor_shiftl _ _ 24) by lia. lia.
Qed.

Lemma align_eq v b : 0 ≤ v < two32 → 0 ≤ b ≤ 32 → alignIPv4ToPrefix v b = mask_value 32 b v.
Proof.
  intros Hv Hb. unfold alignIPv4ToPrefix, mask_value. destruct (Z.leb_spec 32 b) as [|Hlt].
  - assert (b = 32) as -> by lia. simpl. rewrite Z.mod_1_r. lia.
  - replace (u32 (32 - b)) with (32 - b) by (unfold u32; rewrite Z.mod_small; [done|unfold two32; lia]).
    assert (shl32 max_u32 (32 - b) = Z.shiftl (Z.ones b) (32 - b)) as ->.
    { unfold shl32, u32. rewrite Z.shiftl_mul_pow2, Z.shiftl_mul_pow2 by lia.
      rewrite Z.ones_equiv. unfold max_u32, two32. change 4294967296 with (2 ^ 32).
      replace 32 with (b + (32 - b)) at 1 3 by lia. rewrite Z.pow_add_r by lia.
      set (x := 2 ^ b). set (y := 2 ^ (32 - b)). assert (0 < x) by (apply Z.pow_pos_nonneg; lia).
      assert (0 < y) by (apply Z.pow_pos_nonneg; lia). symmetry. apply (Z.mod_unique_pos _ _ (y - 1)); nia. }
    rewrite land_high; [done|lia..|]. replace (32 - b + b) with 32 by lia. done.
Qed.

(** ** The search *)

Section search.
Context (ap : Z).
Hypothesis ap_range : 1 ≤ ap ≤ 32.
Notation block := (2 ^ (32 - ap)).

(** The [i]-th subnet from [next] on. *)
Definition subnet (bits next i : Z) : prefix := Prefix (V4 (next + i * 2 ^ (32 - bits))) bits.

Lemma block_pos : 0 < block.
Proof using ap_range. apply Z.pow_pos_nonneg; lia. Qed.

Lemma block_le : block ≤ 2 ^ 31.
Proof using ap_range. apply Z.pow_le_mono_r; lia. Qed.

Lemma block_eq : shl32 1 (u32 (32 - ap)) = block.
Proof using ap_range.
  pose proof block_pos. pose proof block_le.
  replace (u32 (32 - ap)) with (32 - ap) by (unfold u32; rewrite Z.mod_small; [done|unfold two32; lia]).
  unfold shl32, u32. rewrite Z.shiftl_mul_pow2, Z.mul_1_l by lia. apply Z.mod_small. unfold two32. lia.
Qed.

Lemma subnet_ok next i : 0 ≤ next + i * block < two32 → prefix_ok (subnet ap next i).
Proof using ap_range. intros H. unfold prefix_ok, subnet. simpl. split_and!; (done || lia). Qed.

Lemma subnet_string_inj next i j :
  0 ≤ next + i * block < two32 → 0 ≤ next + j * block < two32 →
  prefix_string (subnet ap next i) = prefix_string (subnet ap next j) → i = j.
Proof using ap_range.
  intros Hi%subnet_ok%ParsePrefix_string Hj%subnet_ok%ParsePrefix_string E. rewrite E, Hj in Hi.
  pose proof block_pos. injection Hi as Hi. nia.
Qed.

Lemma Masked_subnet next : 0 ≤ next < two32 → next mod block = 0 →
  Masked (Prefix (uint32ToIPv4 next) ap) = subnet ap next 0.
Proof using ap_range.
  intros Hn Ha. rewrite uint32ToIPv4_eq by done. unfold Masked, subnet, mask_value. simpl. rewrite Ha. repeat f_equal; lia.
Qed.

Lemma subnet_shift next i : subnet ap (next + block) i = subnet ap next (1 + i).
Proof. unfold subnet. do 2 f_equal. lia. Qed.

Lemma next_loop_spec fuel baseEnd (used rem : gset string) next n :
  0 ≤ next < two32 → next mod block = 0 → baseEnd < two32 → 0 ≤ n →
  baseEnd + 1 = next + n * block ∨ n = 0 ∧ baseEnd < next →
  (∀ i, 0 ≤ i < n → prefix_string (subnet ap next i) ∈ used → prefix_string (subnet ap next i) ∈ rem) →
  (size rem < fuel)%nat →
  match next_loop fuel block baseEnd ap used next with
  | None => False
  | Some None => ∀ i, 0 ≤ i < n → prefix_string (subnet ap next i) ∈ used
  | Some (Some p) =>
      ∃ i, 0 ≤ i < n ∧ p = subnet ap next i ∧ prefix_string p ∉ used
        ∧ ∀ j, 0 ≤ j < i → prefix_string (subnet ap next j) ∈ used
  end.
Proof using ap_range.
  pose proof block_pos as Hb. pose proof block_le as Hb'.
  revert rem next n. induction fuel as [|fuel IH]; intros rem next n Hnext Ha Hend Hn Hspan Hrem Hfuel; [lia|].
  cbn [next_loop]. destruct (Z.eq_dec n 0) as [->|Hn0].
  - replace (next <=? baseEnd) with false by lia. cbn [andb]. lia.
  - assert (baseEnd + 1 = next + n * block) as Hspan' by lia. clear Hspan.
    assert (next + block ≤ baseEnd + 1) as Hfit by nia.
    assert (u32 (u32 (next + block) - 1) = next + block - 1) as ->.
    { unfold u32. rewrite Zminus_mod_idemp_l. apply Z.mod_small. lia. }
    replace (next <=? baseEnd) with true by lia. replace (next + block - 1 <=? baseEnd) with true by lia.
    cbn [andb]. rewrite Masked_subnet by done.
    destruct (bool_decide_reflect (prefix_string (subnet ap next 0) ∈ used)) as [Hin|Hout]; cbn [negb].
    + assert (u32 (max_u32 - next) = max_u32 - next) as ->.
      { unfold u32, max_u32. apply Z.mod_small. lia. }
      unfold max_u32. destruct (Z.ltb_spec (two32 - 1 - next) block) as [Hlast|Hmore].
      * intros i Hi. assert (n = 1) as -> by nia. by replace i with 0 by lia.
      * replace (u32 (next + block)) with (next + block) by (unfold u32; symmetry; apply Z.mod_small; lia).
        assert (prefix_string (subnet ap next 0) ∈ rem) as Hin0 by (apply Hrem; [lia|done]).
        assert (match next_loop fuel block baseEnd ap used (next + block) with
          | None => False
          | Some None => ∀ i, 0 ≤ i < n - 1 → prefix_string (subnet ap (next + block) i) ∈ used
          | Some (Some p) => ∃ i, 0 ≤ i < n - 1 ∧ p = subnet ap (next + block) i ∧ prefix_string p ∉ used
              ∧ ∀ j, 0 ≤ j < i → prefix_string (subnet ap (next + block) j) ∈ used
          end) as IH'.
        { apply (IH (rem ∖ {[prefix_string (subnet ap next 0)]})); try lia.
          - rewrite Zplus_mod, Ha, Z_mod_same_full. done.
          - intros i Hi. rewrite subnet_shift. intros Hu. apply elem_of_difference. split; [apply Hrem; [lia|done]|].
            intros E%elem_of_singleton. apply subnet_string_inj in E; nia.
          - rewrite size_difference, size_singleton by (by apply singleton_subseteq_l).
            assert (size rem ≠ 0%nat); [|lia]. intros E%size_empty_inv. set_solver. }
        clear IH. destruct (next_loop fuel block baseEnd ap used (next + block)) as [[p|]|]; [| |done].
        -- destruct IH' as (i & Hi & -> & Hp & Hmin). exists (1 + i). rewrite <-subnet_shift.
           split_and!; try done; try lia. intros j Hj. destruct (Z.eq_dec j 0) as [->|]; [done|].
           replace j with (1 + (j - 1)) by lia. rewrite <-subnet_shift. apply Hmin. lia.
        -- intros i Hi. destruct (Z.eq_dec i 0) as [->|]; [done|]. replace i with (1 + (i - 1)) by lia.
           rewrite <-subnet_shift. apply IH'. lia.
    + exists 0. split_and!; (done || lia).
Qed.
End search.

(** ** The addresses of a network *)

(** A network aligned to [2^k] is aligned to every smaller block. *)
Lemma mod_pow2_le v k m : 0 ≤ k ≤ m → v mod 2 ^ m = 0 → v mod 2 ^ k = 0.
Proof.
  intros Hk H. apply Z.mod_divide in H; [|lia]. apply Z.mod_divide; [lia|].
  eapply Z.divide_trans; [|exact H]. exists (2 ^ (m - k)). rewrite <-Z.pow_add_r by lia. f_equal. lia.
Qed.

Lemma mask_value_aligned b n : 0 ≤ b ≤ 32 → mask_value 32 b n mod 2 ^ (32 - b) = 0.
Proof.
  intros Hb. unfold mask_value. rewrite Zminus_mod_idemp_r, Z.sub_diag. apply Zmod_0_l.
Qed.

(** An aligned block below [2^32] ends below it. *)
Lemma aligned_fits b v : 0 ≤ b ≤ 32 → 0 ≤ v < two32 → v mod 2 ^ (32 - b) = 0 → v + 2 ^ (32 - b) ≤ two32.
Proof.
  intros Hb Hv Hal. change two32 with (2 ^ 32) in *. replace 32 with (b + (32 - b)) in Hv |- * at 2 by lia.
  rewrite Z.pow_add_r in Hv |- * by lia. set (B := 2 ^ (32 - b)) in *.
  assert (0 < B) by (apply Z.pow_pos_nonneg; lia). apply Z.mod_divide in Hal as [q ->]; [|lia].
  destruct Hv as [_ Hv]. apply Z.mul_lt_mono_pos_r in Hv; [|done]. replace (q * B + B) with ((q + 1) * B) by lia.
  apply Z.mul_le_mono_nonneg_r; lia.
Qed.

Section subnet_addresses.
Context {s : string} {p : prefix} {n : Z}.
Hypothesis Hparse : ParsePrefix s = Some p.
Hypothesis Hv4 : prefix_addr p = V4 n.
Notation bits := (prefix_bits p).
Notation network := (mask_value 32 bits n).

Lemma subnet_bits : 0 ≤ bits ≤ 32 ∧ 0 ≤ n < two32.
Proof using Hparse Hv4. destruct (ParsePrefix_ok _ _ Hparse) as (Ha & _ & Hb). rewrite Hv4 in *. done. Qed.

Lemma subnet_network :
  prefix_addr (Masked p) = V4 network ∧ ipv4ToUint32 (prefix_addr (Masked p)) = network
  ∧ 0 ≤ network ∧ network mod 2 ^ (32 - bits) = 0 ∧ network + 2 ^ (32 - bits) ≤ two32.
Proof using Hparse Hv4.
  destruct subnet_bits as [Hb Hn]. unfold Masked. rewrite Hv4. cbn [prefix_addr].
  pose proof (mask_value_range 32 bits n Hb Hn) as Hm. pose proof (mask_value_aligned bits n Hb) as Hal.
  split; [done|]. split; [apply ipv4ToUint32_eq; lia|]. split; [lia|]. split; [done|].
  by apply aligned_fits; [|lia|].
Qed.

(** The addresses a prefix contains are its network and the next ones. *)
Lemma subnet_contains x : 0 ≤ x < two32 → Contains p (V4 x) = true ↔ network ≤ x < network + 2 ^ (32 - bits).
Proof using Hparse Hv4.
  destruct subnet_bits as [Hb Hn]. destruct subnet_network as (_ & _ & H0 & Hal & Hfit). intros Hx.
  unfold Contains. rewrite Hv4. cbn [addr_width addr_value zone_of]. rewrite Z.eqb_refl, String.eqb_refl. cbn [andb].
  rewrite Z.eqb_eq. assert (0 < 2 ^ (32 - bits)) as Hp by (apply Z.pow_pos_nonneg; lia).
  pose proof (Z.mod_pos_bound x _ Hp). unfold mask_value at 2. split; [lia|]. intros Hr.
  apply Z.mod_divide in Hal as [q Hq]; [|lia].
  assert (x mod 2 ^ (32 - bits) = x - network) as ->; [|lia]. symmetry. apply (Z.mod_unique_pos _ _ q); lia.
Qed.
End subnet_addresses.

(** ** A pool's subnets *)

(** What the guards of the search establish, with a positive allocation prefix. *)
Record pool_ok (baseCIDR startCIDR : string) (ap : Z) (base start : prefix) : Prop := {
  pool_base : ParsePrefix baseCIDR = Some base;
  pool_start : ParsePrefix startCIDR = Some start;
  pool_base4 : Is4 (prefix_addr base) = true;
  pool_start4 : Is4 (prefix_addr start) = true;
  pool_prefix : prefix_bits base ≤ ap ≤ 32;
  pool_positive : 1 ≤ ap }.

Section pool.
Context {baseCIDR startCIDR : string} {ap : Z} {base start : prefix}.
Hypothesis Hpool : pool_ok baseCIDR startCIDR ap base start.
Notation first := (first_subnet base start ap).
Notation base_start := (ipv4ToUint32 (prefix_addr (Masked base))).
Notation block := (2 ^ (32 - ap)).

Lemma pool_bits : 0 ≤ prefix_bits base ≤ 32.
Proof using Hpool.
  pose proof (pool_base4 _ _ _ _ _ Hpool) as H4. destruct (prefix_addr base) as [n|] eqn:En; [|discriminate H4].
  by destruct (subnet_bits (pool_base _ _ _ _ _ Hpool) En).
Qed.

(** The base network, as numbers. *)
Lemma pool_network :
  ∃ n, prefix_addr base = V4 n ∧ base_start = mask_value 32 (prefix_bits base) n
    ∧ 0 ≤ base_start ∧ base_start mod 2 ^ (32 - prefix_bits base) = 0
    ∧ base_end base = base_start + 2 ^ (32 - prefix_bits base) - 1 ∧ base_end base < two32.
Proof using Hpool.
  pose proof (pool_base4 _ _ _ _ _ Hpool) as H4. destruct (prefix_addr base) as [n|] eqn:En; [|discriminate H4].
  destruct (subnet_network (pool_base _ _ _ _ _ Hpool) En) as (_ & E & H0 & Hal & Hfit). exists n.
  assert (0 < 2 ^ (32 - prefix_bits base)) by (pose proof pool_bits; apply Z.pow_pos_nonneg; lia).
  unfold base_end. rewrite E. assert (u32 (mask_value 32 (prefix_bits base) n + 2 ^ (32 - prefix_bits base) - 1)
    = mask_value 32 (prefix_bits base) n + 2 ^ (32 - prefix_bits base) - 1) as -> by (apply Z.mod_small; lia).
  split_and!; (done || lia).
Qed.

Lemma pool_first : 0 ≤ first < two32 ∧ first mod block = 0 ∧ base_start ≤ first.
Proof using Hpool.
  destruct pool_network as (n & _ & _ & Hb0 & Hal & He & Hlt). pose proof pool_bits as Hbits.
  destruct Hpool as [_ Hs _ Hs4 Hap Hpos].
  assert (0 < 2 ^ (32 - prefix_bits base)) by (apply Z.pow_pos_nonneg; lia).
  assert (base_start mod block = 0) as Hbs by (eapply mod_pow2_le; [|exact Hal]; lia).
  destruct (ParsePrefix_ok _ _ Hs) as (Ha & _ & Hb). unfold first_subnet.
  destruct (prefix_addr start) as [v|] eqn:Ev; [|discriminate Hs4]. simpl in Ha, Hb.
  assert (prefix_addr (Masked start) = V4 (mask_value 32 (prefix_bits start) v)) as -> by (unfold Masked; by rewrite Ev).
  pose proof (mask_value_range 32 (prefix_bits start) v Hb Ha) as Hm.
  rewrite ipv4ToUint32_eq by lia. rewrite align_eq by lia.
  set (s := mask_value 32 (prefix_bits start) v) in *.
  pose proof (mask_value_range 32 ap s ltac:(lia) ltac:(change (2 ^ 32) with two32; lia)).
  pose proof (mask_value_aligned ap s ltac:(lia)).
  destruct (Z.ltb_spec (mask_value 32 ap s) base_start); split_and!; try done; lia.
Qed.

Lemma pool_capacity :
  ∃ n, addressPoolCapacity baseCIDR startCIDR ap = Some n ∧ 0 ≤ n
    ∧ (base_end base + 1 = first + n * block ∨ n = 0 ∧ base_end base < first).
Proof using Hpool.
  destruct pool_network as (n0 & _ & _ & Hb0 & Hal & He & Hlt). destruct pool_first as (Hf & Hfal & Hle).
  pose proof pool_bits as Hbits. pose proof Hpool as [Hb Hs Hb4 Hs4 Hap Hpos].
  unfold addressPoolCapacity. rewrite Hb, Hs, Hb4, Hs4. cbn [negb].
  replace (ap <? prefix_bits base) with false by lia. replace (32 <? ap) with false by lia. cbn [orb].
  rewrite block_eq by lia. pose proof (block_pos ap ltac:(lia)) as Hpb.
  destruct (Z.ltb_spec (base_end base) first) as [|Hfe]; [exists 0; by split_and!; [| |right]|].
  replace (block =? 0) with false by lia.
  assert ((base_end base + 1 - first) mod block = 0) as Hdiv.
  { rewrite Zminus_mod, Hfal, Z.sub_0_r, Z.mod_mod by lia. rewrite He.
    replace (base_start + 2 ^ (32 - prefix_bits base) - 1 + 1) with (base_start + 2 ^ (32 - prefix_bits base)) by lia.
    rewrite Zplus_mod. rewrite (mod_pow2_le base_start (32 - ap) (32 - prefix_bits base)) by (done || lia).
    rewrite (mod_pow2_le (2 ^ (32 - prefix_bits base)) (32 - ap) (32 - prefix_bits base));
      [done|lia|apply Z_mod_same_full]. }
  apply Z.mod_divide in Hdiv as [q Hq]; [|lia].
  assert ((base_end base - first) / block + 1 = q) as ->.
  { replace (base_end base - first) with ((q - 1) * block + (block - 1)) by lia.
    rewrite Z.div_add_l, Z.div_small by lia. lia. }
  exists q. split; [done|]. split; [nia|left; lia].
Qed.

(** A subnet the capacity counts is sound, and lies in the base. *)
Lemma pool_subnet n i :
  addressPoolCapacity baseCIDR startCIDR ap = Some n → 0 ≤ i < n →
  0 ≤ first + i * block ∧ first + i * block + block ≤ base_end base + 1
  ∧ (first + i * block) mod block = 0 ∧ prefix_ok (subnet ap first i) ∧ Masked (subnet ap first i) = subnet ap first i.
Proof using Hpool.
  destruct pool_network as (n0 & _ & _ & _ & _ & _ & Hlt). destruct pool_first as (Hf & Hfal & _).
  destruct pool_capacity as (n' & -> & _ & Hcap). pose proof Hpool as [_ _ _ _ Hap Hpos].
  pose proof (block_pos ap ltac:(lia)) as Hpb. intros [= ->] Hi.
  assert ((first + i * block) mod block = 0) as Hal by by rewrite Z.mod_add by lia.
  assert (0 ≤ first + i * block ∧ first + i * block + block ≤ base_end base + 1) as [? ?] by nia.
  split_and!; try done; [apply subnet_ok; lia|].
  unfold Masked, subnet, mask_value. cbn [prefix_addr prefix_bits]. rewrite Hal. by rewrite Z.sub_0_r.
Qed.

Lemma pool_subnet_contains n i x :
  addressPoolCapacity baseCIDR startCIDR ap = Some n → 0 ≤ i < n → 0 ≤ x < two32 →
  Contains (subnet ap first i) (V4 x) = true ↔ first + i * block ≤ x < first + i * block + block.
Proof using Hpool.
  intros Hn Hi Hx. destruct (pool_subnet n i Hn Hi) as (_ & _ & Hal & Hok & _).
  rewrite (subnet_contains (ParsePrefix_string _ Hok) eq_refl x Hx). unfold subnet. cbn [prefix_bits].
  unfold mask_value. rewrite Hal, Z.sub_0_r. done.
Qed.

Lemma pool_subnet_inside n i a :
  addressPoolCapacity baseCIDR startCIDR ap = Some n → 0 ≤ i < n →
  addr_ok a → Contains (subnet ap first i) a = true → Contains base a = true.
Proof using Hpool.
  destruct pool_network as (n0 & Hn0 & Hbs & _ & _ & He & _). destruct pool_first as (_ & _ & Hle).
  pose proof Hpool as [Hb _ _ _ Hap Hpos]. pose proof (block_pos ap ltac:(lia)) as Hpb.
  intros Hn Hi Ha Hin. destruct a as [x|]; [|done]. simpl in Ha.
  destruct (pool_subnet n i Hn Hi) as (_ & Hend & _). apply (pool_subnet_contains n i x Hn Hi Ha) in Hin.
  apply (subnet_contains Hb Hn0); [done|]. nia.
Qed.

Lemma pool_search (used : gset string) (fuel : nat) :
  (size used < fuel)%nat →
  ∃ n, addressPoolCapacity baseCIDR startCIDR ap = Some n ∧
  match nextAvailableIPv4Subnet fuel baseCIDR startCIDR ap used with
  | Some (Ok p) =>
      ∃ i, 0 ≤ i < n ∧ p = subnet ap first i ∧ prefix_string p ∉ used
        ∧ ∀ j, 0 ≤ j < i → prefix_string (subnet ap first j) ∈ used
  | Some (Err e) =>
      e = NoFreeSubnet ap (prefix_string base) (prefix_string start)
      ∧ ∀ j, 0 ≤ j < n → prefix_string (subnet ap first j) ∈ used
  | None => False
  end.
Proof using Hpool.
  intros Hfuel. destruct pool_network as (n0 & _ & _ & _ & _ & _ & Hlt). destruct pool_first as (Hf & Hfal & _).
  destruct pool_capacity as (n & En & Hn & Hcap). pose proof pool_bits. pose proof Hpool as [Hb Hs Hb4 Hs4 Hap Hpos].
  exists n. split; [done|].
  unfold nextAvailableIPv4Subnet, parse_or. rewrite Hb, Hs, Hb4, Hs4. cbn [negb orb].
  replace (ap <? prefix_bits base) with false by lia. replace (32 <? ap) with false by lia. cbn [orb].
  rewrite block_eq by lia.
  pose proof (next_loop_spec ap ltac:(lia) fuel (base_end base) used used first n Hf Hfal Hlt Hn Hcap
    (λ i _ H, H) Hfuel) as H1.
  destruct (next_loop _ _ _ _ _ _) as [[p|]|]; [done|by split|done].
Qed.

(** C33: with an allocation prefix of at least one the search ends, within one step
    more than there are used subnets; it returns the first subnet of the pool that is
    not used, which lies in the base network, and fails only when every subnet that the
    capacity counts is used. *)
Theorem next_subnet_spec (used : gset string) (fuel : nat) :
  (size used < fuel)%nat →
  ∃ n, addressPoolCapacity baseCIDR startCIDR ap = Some n ∧
  match nextAvailableIPv4Subnet fuel baseCIDR startCIDR ap used with
  | Some (Ok p) =>
      ∃ i, 0 ≤ i < n ∧ p = subnet ap first i ∧ prefix_string p ∉ used
        ∧ (∀ j, 0 ≤ j < i → prefix_string (subnet ap first j) ∈ used)
        ∧ ∀ a, addr_ok a → Contains p a = true → Contains base a = true
  | Some (Err e) =>
      e = NoFreeSubnet ap (prefix_string base) (prefix_string start)
      ∧ ∀ j, 0 ≤ j < n → prefix_string (subnet ap first j) ∈ used
  | None => False
  end.
Proof using Hpool.
  intros Hfuel. destruct (pool_search used fuel Hfuel) as (n & En & H). exists n. split; [done|].
  destruct (nextAvailableIPv4Subnet _ _ _ _ _) as [[p|e]|]; [|done..].
  destruct H as (i & Hi & -> & Hp & Hmin). exists i. do 4 (split; [done|]). intros a. by apply (pool_subnet_inside n).
Qed.
End pool.

(** The validation of a pool gives what the search needs, for the networks the database
    hands back and the prefix as it is stored. *)
Lemma validated_pool BaseCIDR StartCIDR prefix base start :
  validateAddressPoolSpaceCIDRs BaseCIDR StartCIDR prefix = Ok () →
  ParsePrefix (trim_space BaseCIDR) = Some base → ParsePrefix (trim_space StartCIDR) = Some start →
  Masked base = base → Masked start = start →
  pool_ok (prefix_string base) (prefix_string start) (if prefix <=? 0 then 24 else prefix) base start.
Proof.
  unfold validateAddressPoolSpaceCIDRs, parse_or. intros H Hb Hs Mb Ms. rewrite Hb, Hs in H. cbn [mbind result_bind] in H.
  destruct (Is4 (prefix_addr base)) eqn:Hb4, (Is4 (prefix_addr start)) eqn:Hs4; try discriminate H. cbn [negb orb] in H.
  destruct (negb (Contains _ _)); [discriminate H|]. destruct (_ || _) eqn:Er in H; [discriminate H|].
  apply orb_false_iff in Er as [E1 E2]. pose proof (prefix_canonical _ _ Hb) as Cb. pose proof (prefix_canonical _ _ Hs) as Cs.
  rewrite Mb in Cb. rewrite Ms in Cs. split; try done; [lia|]. destruct (Z.leb_spec prefix 0); lia.
Qed.

(** With the prefix 0 a used subnet is tried over and over. *)
Lemma zero_prefix_diverges fuel :
  nextAvailableIPv4Subnet fuel "0.0.0.0/0" "0.0.0.0/0" 0 {["0.0.0.0/0"]} = None.
Proof.
  assert (∀ e, parse_or e "0.0.0.0/0" = Ok (Prefix (V4 0) 0)) as E by (intros e; vm_compute; reflexivity).
  unfold nextAvailableIPv4Subnet. rewrite !E. cbn [prefix_addr prefix_bits Is4 negb orb].
  change ((0 <? 0) || (32 <? 0)) with false. cbv iota.
  assert (next_loop fuel (shl32 1 (u32 (32 - 0))) (base_end (Prefix (V4 0) 0)) 0 {["0.0.0.0/0"]}
    (first_subnet (Prefix (V4 0) 0) (Prefix (V4 0) 0) 0) = None) as ->; [|done].
  change (first_subnet _ _ 0) with 0. change (shl32 1 _) with 0. change (base_end _) with max_u32.
  induction fuel as [|fuel IH]; [done|]. cbn [next_loop]. change (u32 (0 + 0)) with 0. change (u32 (0 - 1)) with max_u32.
  change (u32 (max_u32 - 0) <? 0) with false. change (0 <=? max_u32) with true. change (max_u32 <=? max_u32) with true.
  rewrite bool_decide_eq_true_2; [exact IH|]. vm_compute. reflexivity.
Qed.

(** ** Addresses handed to the services *)

Lemma netmask_range b : 0 ≤ b ≤ 32 → 0 ≤ netmask b < two32.
Proof. intros Hb. unfold netmask. destruct (0 <? b); [apply Z.mod_pos_bound|]; done. Qed.

(** The mask of a prefix length reads back as the length: all 33 of them. *)
Lemma leading_ones_netmask b : 0 ≤ b ≤ 32 → leading_ones 32 (netmask b) = b.
Proof.
  intros Hb. assert (forallb (λ k, leading_ones 32 (netmask (Z.of_nat k)) =? Z.of_nat k) (seq 0 33) = true) as H
    by (vm_compute; reflexivity).
  rewrite forallb_forall in H. specialize (H (Z.to_nat b)). rewrite Z2Nat.id in H by lia. apply Z.eqb_eq, H.
  apply in_seq. lia.
Qed.

(** The network and the netmask of an IPv4 prefix are read back as that prefix,
    in its masked form. *)
Theorem netmask_roundtrip (s : string) (p : prefix) :
  ParsePrefix s = Some p → Is4 (prefix_addr p) = true →
  ∃ network mask, ipv4NetworkAndNetmask s = Ok (network, mask)
    ∧ cidrFromIPv4NetworkAndNetmask network mask = Ok (prefix_string (Masked p)).
Proof.
  intros Hs H4. destruct (prefix_addr p) as [n|] eqn:En; [|discriminate H4].
  destruct (subnet_bits Hs En) as [Hb Hn]. destruct (subnet_network Hs En) as (Em & _ & H0 & _ & Hfit).
  pose proof (netmask_range _ Hb) as Hm. assert (0 < 2 ^ (32 - prefix_bits p)) by (apply Z.pow_pos_nonneg; lia).
  unfold ipv4NetworkAndNetmask, parse_or. rewrite Hs. cbn [mbind result_bind]. rewrite En, Em. cbn [Is4 negb].
  eexists _, _. split; [done|]. rewrite uint32ToIPv4_eq by done. unfold cidrFromIPv4NetworkAndNetmask.
  assert (addr_ok (V4 (mask_value 32 (prefix_bits p) n))) as Hok by (simpl; lia).
  rewrite (trim_addr _ Hok eq_refl), (ParseAddr_string _ Hok). cbn [Is4 negb].
  rewrite (trim_addr (V4 _) Hm eq_refl), (ParseAddr_string (V4 _) Hm). cbn [Is4 negb].
  rewrite ipv4ToUint32_eq, leading_ones_netmask by done. do 2 f_equal.
  unfold Masked. rewrite En. cbn [prefix_addr prefix_bits]. by rewrite mask_value_idemp.
Qed.

(** An L2TP pool is refused for networks of fewer than 32 addresses and for the
    whole address space; otherwise the server's address and the client range are
    addresses of the network, in order, that leave out its first and last one. *)
Theorem l2tp_pool_inside (s : string) (p : prefix) :
  ParsePrefix s = Some p → Is4 (prefix_addr p) = true →
  match l2tpPoolFromPrefix s with
  | Ok (localIP, rangeStart, rangeEnd) =>
      1 ≤ prefix_bits p ≤ 27 ∧ ∃ network last, Masked p = Prefix (V4 network) (prefix_bits p)
        ∧ localIP = addr_string (V4 (network + 1)) ∧ rangeStart = addr_string (V4 (network + 10))
        ∧ rangeEnd = addr_string (V4 last) ∧ network + 10 < last
        ∧ (∀ x, network < x ≤ last → Contains p (V4 x) = true ∧ Contains p (V4 (x + 1)) = true)
  | Err e => e = TooSmallForL2TP (prefix_string p) ∧ (prefix_bits p = 0 ∨ 27 < prefix_bits p)
  end.
Proof.
  intros Hs H4. destruct (prefix_addr p) as [n|] eqn:En; [|discriminate H4].
  destruct (subnet_bits Hs En) as [Hb Hn]. destruct (subnet_network Hs En) as (Em & Eu & H0 & _ & Hfit).
  unfold l2tpPoolFromPrefix, parse_or. rewrite Hs. cbn [mbind result_bind]. rewrite En. cbn [Is4 negb]. rewrite Eu.
  destruct (Z.eq_dec (prefix_bits p) 0) as [E0|]; [rewrite E0; split; [done|by left]|].
  rewrite block_eq by lia. assert (2 ^ (32 - prefix_bits p) ≤ 2 ^ 31) as Hle by (apply Z.pow_le_mono_r; lia).
  set (m := mask_value 32 (prefix_bits p) n) in *. set (size := 2 ^ (32 - prefix_bits p)) in *.
  destruct (Z.ltb_spec size 32) as [Hsmall|Hbig].
  - split; [done|right]. destruct (Z.le_gt_cases (prefix_bits p) 27); [|done].
    assert (2 ^ 5 ≤ size) by (apply Z.pow_le_mono_r; lia). lia.
  - assert (prefix_bits p ≤ 27) as H27.
    { destruct (Z.le_gt_cases (prefix_bits p) 27); [done|].
      assert (size ≤ 2 ^ 4) by (apply Z.pow_le_mono_r; lia). lia. }
    unfold two32 in *. assert (∀ z, 0 ≤ z < 4294967296 → u32 z = z) as Hu by (intros; by apply Z.mod_small).
    set (e := if u32 (size - 1) <=? 200 then u32 (size - 2) else 200).
    assert (10 < e ∧ e + 2 ≤ size) as [He1 He2].
    { subst e. rewrite !Hu by lia. destruct (Z.leb_spec (size - 1) 200); lia. }
    rewrite !Hu, !uint32ToIPv4_eq by (unfold two32; lia).
    split; [lia|]. exists m, (m + e). split; [unfold Masked; by rewrite En|]. do 3 (split; [done|]). split; [lia|].
    intros x Hx. split; apply (subnet_contains Hs En); unfold two32; fold m; fold size; lia.
Qed.

Lemma first_usable_spec s p h :
  ParsePrefix s = Some p → Is4 (prefix_addr p) = true → 0 ≤ h < two32 →
  let host := if h =? 0 then 1 else h in
  ∃ network, Masked p = Prefix (V4 network) (prefix_bits p) ∧
  firstUsableIPv4Address s h
  = if host <? 2 ^ (32 - prefix_bits p) then Ok (addr_string (V4 (network + host)) +:+ "/" +:+ itoa (prefix_bits p))
    else Err (HostOutsidePrefix host (prefix_string p)).
Proof.
  intros Hs H4 Hh. destruct (prefix_addr p) as [n|] eqn:En; [|discriminate H4].
  destruct (subnet_bits Hs En) as [Hb Hn]. destruct (subnet_network Hs En) as (Em & Eu & H0 & _ & Hfit).
  cbv zeta. set (host := if h =? 0 then 1 else h).
  assert (0 < host < two32) as Hhost by (subst host; unfold two32 in *; destruct (Z.eqb_spec h 0); lia).
  eexists. split; [unfold Masked; by rewrite En|].
  unfold firstUsableIPv4Address, parse_or. rewrite Hs. cbn [mbind result_bind]. rewrite En. cbn [Is4 negb].
  fold host. rewrite Eu. set (m := mask_value 32 (prefix_bits p) n) in *.
  assert (0 < 2 ^ (32 - prefix_bits p)) by (apply Z.pow_pos_nonneg; lia).
  assert (0 ≤ u32 (m + host) < two32) as Hu by (apply Z.mod_pos_bound; done).
  rewrite uint32ToIPv4_eq by done. pose proof (subnet_contains Hs En _ Hu) as Hc. fold m in Hc.
  destruct (Z.ltb_spec host (2 ^ (32 - prefix_bits p))) as [Hlt|Hge].
  - assert (u32 (m + host) = m + host) as E by (apply Z.mod_small; lia). rewrite E in *.
    destruct (Contains p (V4 (m + host))); [done|]. destruct Hc as [_ Hc]. by rewrite Hc in * by lia.
  - destruct (Contains p (V4 (u32 (m + host)))); [|done]. destruct Hc as [Hc _]. specialize (Hc eq_refl). exfalso.
    destruct (Z.lt_ge_cases (m + host) two32) as [Hs'|Hw].
    + assert (u32 (m + host) = m + host) as E by (apply Z.mod_small; lia). lia.
    + assert (u32 (m + host) = m + host - two32) as E; [|lia]. symmetry.
      apply (Z.mod_unique_pos _ _ 1); lia.
Qed.

(** ** Witnesses *)

Definition sample_base : prefix := Prefix (V4 167772160) 29.
Definition sample_start : prefix := Prefix (V4 167772162) 31.
Definition sample_used : gset string := {["10.0.0.2/31"]}.

Lemma sample_pool : pool_ok "10.0.0.0/29" "10.0.0.2/31" 31 sample_base sample_start.
Proof. split; vm_compute; try done; split; discriminate. Qed.

Lemma next_subnet_spec_witness :
  ∃ n, addressPoolCapacity "10.0.0.0/29" "10.0.0.2/31" 31 = Some n ∧
  match nextAvailableIPv4Subnet 2 "10.0.0.0/29" "10.0.0.2/31" 31 sample_used with
  | Some (Ok p) =>
      ∃ i, 0 ≤ i < n ∧ p = subnet 31 (first_subnet sample_base sample_start 31) i ∧ prefix_string p ∉ sample_used
        ∧ (∀ j, 0 ≤ j < i → prefix_string (subnet 31 (first_subnet sample_base sample_start 31) j) ∈ sample_used)
        ∧ ∀ a, addr_ok a → Contains p a = true → Contains sample_base a = true
  | Some (Err e) =>
      e = NoFreeSubnet 31 (prefix_string sample_base) (prefix_string sample_start)
      ∧ ∀ j, 0 ≤ j < n → prefix_string (subnet 31 (first_subnet sample_base sample_start 31) j) ∈ sample_used
  | None => False
  end.
Proof. apply (next_subnet_spec sample_pool sample_used 2). vm_compute. lia. Defined.

Example sample_second :
  match nextAvailableIPv4Subnet 2 "10.0.0.0/29" "10.0.0.2/31" 31 sample_used with
  | Some (Ok p) => prefix_string p | _ => "" end = "10.0.0.4/31".
Proof. vm_compute. reflexivity. Qed.

Lemma netmask_roundtrip_witness :
  ∃ network mask, ipv4NetworkAndNetmask "10.8.3.7/22" = Ok (network, mask)
    ∧ cidrFromIPv4NetworkAndNetmask network mask = Ok (prefix_string (Masked (Prefix (V4 168297223) 22))).
Proof. apply (netmask_roundtrip "10.8.3.7/22" (Prefix (V4 168297223) 22)); vm_compute; reflexivity. Defined.

Lemma l2tp_pool_inside_witness :
  match l2tpPoolFromPrefix "172.16.120.0/24" with
  | Ok (localIP, rangeStart, rangeEnd) =>
      1 ≤ 24 ≤ 27 ∧ ∃ network last, Masked (Prefix (V4 2886760448) 24) = Prefix (V4 network) 24
        ∧ localIP = addr_string (V4 (network + 1)) ∧ rangeStart = addr_string (V4 (network + 10))
        ∧ rangeEnd = addr_string (V4 last) ∧ network + 10 < last
        ∧ (∀ x, network < x ≤ last →
             Contains (Prefix (V4 2886760448) 24) (V4 x) = true ∧ Contains (Prefix (V4 2886760448) 24) (V4 (x + 1)) = true)
  | Err e => e = TooSmallForL2TP (prefix_string (Prefix (V4 2886760448) 24)) ∧ (24 = 0 ∨ 27 < 24)
  end.
Proof. apply (l2tp_pool_inside "172.16.120.0/24" (Prefix (V4 2886760448) 24)); vm_compute; reflexivity. Defined.
