(* ===== verification/AddressPoolStore.v ===== *)
(** * Address pools: the tables

    The operations of [internal/infra/postgres/address_pools.go] over the tables
    [address_pool_spaces] and [address_pool_allocations], with the constraints of the
    schema.  A table is the list of its rows in the order they were inserted; a query
    that can match several rows without an order takes the first.  Operations run one
    after the other and the tables exist.  Timestamps and audit records are written and
    never read here, so they are not part of the state. *)
From stdpp Require Import gmap.
From S2P Require Import Prelude GoStrings Strconv GoValue Netip Driver AddressPool.
From Stdlib Require Import Ascii.
From stdpp Require Import options.
Open Scope Z_scope.

Definition defaultRemoteAccessPoolKey : string := "remote_access_v4".
Definition importedRemoteAccessPoolKey : string := "imported_remote_access_v4".

(** ** Records *)

Record AddressPoolSpace := MkSpace {
  sp_ID : string; sp_Key : string; sp_Label : string; sp_Description : string; sp_Family : string;
  sp_BaseCIDR : string; sp_StartCIDR : string; sp_AllocationPrefix : Z; sp_ServiceScope : string;
  sp_RoutingEnabled : bool; sp_Status : string; sp_DisplayOrder : Z;
  sp_Capacity : Z; sp_Used : Z; sp_Free : Z }.

Record AddressPoolAllocation := MkAllocation {
  al_ID : string; al_PoolSpaceID : string; al_CIDR : string; al_NodeID : option string; al_InstanceID : option string;
  al_ServiceCode : string; al_Purpose : string; al_Status : string; al_RouteExport : bool }.

Record pools := { spaces : list AddressPoolSpace; allocations : list AddressPoolAllocation }.

Inductive store_error :=
| LabelRequired
| PoolIDRequired
| PoolNotFound
| PoolError (e : pool_error)
| ActiveAllocations (n : nat)
| NoActiveSpace
| CatalogRejected.

(** [status in ('reserved','active')]. *)
Definition live (a : AddressPoolAllocation) : bool := one_of (al_Status a) ["reserved"; "active"].
Definition live_in (poolSpaceID : string) (a : AddressPoolAllocation) : bool := (al_PoolSpaceID a =s poolSpaceID) && live a.

(** [where id::text=$1 or key=$1]. *)
Definition by_ref (poolID : string) (sp : AddressPoolSpace) : bool := (sp_ID sp =s poolID) || (sp_Key sp =s poolID).

Definition slug_rune (r : Z) : bool := ((97 <=? r) && (r <=? 122)) || ((48 <=? r) && (r <=? 57)).
Definition slugify (s : string) : string :=
  let s := to_lower (trim_space s) in
  let out := trim_set "-" (dash_runs slug_rune false (runes s)) in
  if out =s "" then "instance" else out.

Definition nullIfEmpty (v : string) : option string := if trim_space v =s "" then None else Some v.

(** ** The constraints of the schema *)

(** [key ~ '^[a-z0-9][a-z0-9_-]{1,95}$']. *)
Definition key_char (c : ascii) : bool := slug_rune (byte_val c).
Definition key_check (key : string) : bool :=
  match key with
  | String c rest =>
      key_char c && forallb (λ c, key_char c || Ascii.eqb c "_" || Ascii.eqb c "-") (bytes rest)
      && (1 <=? Z.of_nat (String.length rest)) && (Z.of_nat (String.length rest) <=? 95)
  | EmptyString => false
  end.

(** [start_cidr <<= base_cidr]. *)
Definition within_cidr (start base : prefix) : bool :=
  (prefix_bits base <=? prefix_bits start) && Contains base (prefix_addr start).

Definition space_checks (sp : AddressPoolSpace) : bool :=
  key_check (sp_Key sp) && (sp_Family sp =s "ipv4") && one_of (sp_Status sp) ["active"; "disabled"; "deleted"]
  && match ParsePrefix (sp_BaseCIDR sp), ParsePrefix (sp_StartCIDR sp) with
     | Some base, Some start =>
         (prefix_bits base <=? sp_AllocationPrefix sp) && (sp_AllocationPrefix sp <=? 32) && within_cidr start base
     | _, _ => false
     end.

Section store.
(** The input of the type [cidr], and the text of what it read; [None] is an error. *)
Context (pg_cidr : string → option string).
(** The order of the texts of labels, the database's collation. *)
Context (label_before : string → string → bool).

Definition set_cidrs (base start : string) (sp : AddressPoolSpace) : AddressPoolSpace :=
  MkSpace (sp_ID sp) (sp_Key sp) (sp_Label sp) (sp_Description sp) (sp_Family sp) base start (sp_AllocationPrefix sp)
    (sp_ServiceScope sp) (sp_RoutingEnabled sp) (sp_Status sp) (sp_DisplayOrder sp) (sp_Capacity sp) (sp_Used sp) (sp_Free sp).

(** The row as the columns hold it, if the schema accepts it. *)
Definition space_row (sp : AddressPoolSpace) : option AddressPoolSpace :=
  base ← pg_cidr (sp_BaseCIDR sp);
  start ← pg_cidr (sp_StartCIDR sp);
  let row := set_cidrs base start sp in
  if space_checks row then Some row else None.

Definition insert_space (sp : AddressPoolSpace) (st : pools) : option (AddressPoolSpace * pools) :=
  row ← space_row sp;
  if existsb (λ x, (sp_ID x =s sp_ID row) || (sp_Key x =s sp_Key row)) (spaces st) then None
  else Some (row, {| spaces := spaces st ++ [row]; allocations := allocations st |}).

(** The unique indexes of the allocations. *)
Definition insert_allocation (a : AddressPoolAllocation) (st : pools) : option (AddressPoolAllocation * pools) :=
  cidr ← pg_cidr (al_CIDR a);
  let row := MkAllocation (al_ID a) (al_PoolSpaceID a) cidr (al_NodeID a) (al_InstanceID a) (al_ServiceCode a)
               (al_Purpose a) (al_Status a) (al_RouteExport a) in
  if existsb (λ x, (al_ID x =s al_ID row)
       || (live x && live row && (al_PoolSpaceID x =s al_PoolSpaceID row) && (al_CIDR x =s al_CIDR row))
       || (live x && live row && bool_decide (is_Some (al_InstanceID row) ∧ al_InstanceID x = al_InstanceID row)
           && (al_Purpose x =s al_Purpose row))) (allocations st)
  then None
  else Some (row, {| spaces := spaces st; allocations := allocations st ++ [row] |}).

(** ** Default pools *)

Definition default_spaces (id1 id2 : string) : list AddressPoolSpace :=
  [MkSpace id1 defaultRemoteAccessPoolKey "Remote Access IPv4"
     "Default IPv4 supernet for WireGuard, OpenVPN and L2TP client pools." "ipv4" "172.16.0.0/12" "172.16.112.0/24" 24
     "remote_access" false "active" 10 0 0 0;
   MkSpace id2 importedRemoteAccessPoolKey "Imported Remote Access IPv4"
     "Observed pools imported from existing instance revisions. The allocator does not use this space for new automatic allocations."
     "ipv4" "10.0.0.0/8" "10.0.0.0/24" 24 "imported" false "active" 900 0 0 0].

(** [on conflict(key) do nothing]: rows whose key is there are skipped. *)
Definition EnsureDefaultAddressPoolSpaces (id1 id2 : string) (st : pools) : option pools :=
  foldl (λ st sp,
    st ← st;
    if existsb (λ x, sp_Key x =s sp_Key sp) (spaces st) then Some st else snd <$> insert_space sp st)
    (Some st) (default_spaces id1 id2).

(** ** Pools *)

Definition getAddressPoolSpace (poolID : string) (st : pools) : result store_error AddressPoolSpace :=
  match List.find (λ sp, by_ref poolID sp && negb (sp_Status sp =s "deleted")) (spaces st) with
  | Some sp => Ok sp
  | None => Err PoolNotFound
  end.

Definition countActiveAddressPoolAllocations (poolSpaceID : string) (st : pools) : nat :=
  length (List.filter (live_in poolSpaceID) (allocations st)).

Definition CreateAddressPoolSpace (space : AddressPoolSpace) (st : pools) : result store_error AddressPoolSpace * pools :=
  let key := trim_space (sp_Key space) in
  let key := if key =s "" then slugify (sp_Label space) else key in
  let label := trim_space (sp_Label space) in
  if label =s "" then (Err LabelRequired, st)
  else
    let family := if trim_space (sp_Family space) =s "" then "ipv4" else sp_Family space in
    let scope := if trim_space (sp_ServiceScope space) =s "" then "remote_access" else sp_ServiceScope space in
    let status := if trim_space (sp_Status space) =s "" then "active" else sp_Status space in
    let order := if sp_DisplayOrder space =? 0 then 1000 else sp_DisplayOrder space in
    match validateAddressPoolSpaceCIDRs (sp_BaseCIDR space) (sp_StartCIDR space) (sp_AllocationPrefix space) with
    | Err e => (Err (PoolError e), st)
    | Ok _ =>
        let prefix := if sp_AllocationPrefix space <=? 0 then 24 else sp_AllocationPrefix space in
        match insert_space (MkSpace (sp_ID space) key label (sp_Description space) family (sp_BaseCIDR space)
                (sp_StartCIDR space) prefix scope (sp_RoutingEnabled space) status order 0 0 0) st with
        | Some (created, st) => (Ok created, st)
        | None => (Err CatalogRejected, st)
        end
    end.

(** [set route_export=$2 ... where pool_space_id=$1 and status in ('reserved','active')]. *)
Definition export_routes (poolSpaceID : string) (enabled : bool) (a : AddressPoolAllocation) : AddressPoolAllocation :=
  if live_in poolSpaceID a
  then MkAllocation (al_ID a) (al_PoolSpaceID a) (al_CIDR a) (al_NodeID a) (al_InstanceID a) (al_ServiceCode a)
         (al_Purpose a) (al_Status a) enabled
  else a.

(** [trim(new)] unless it is blank. *)
Definition patched (old new : string) : string := let new := trim_space new in if new =s "" then old else new.

Definition patch_space (existing patch : AddressPoolSpace) : AddressPoolSpace :=
  MkSpace (sp_ID existing) (sp_Key existing) (patched (sp_Label existing) (sp_Label patch))
    (trim_space (sp_Description patch)) (patched (sp_Family existing) (sp_Family patch))
    (patched (sp_BaseCIDR existing) (sp_BaseCIDR patch)) (patched (sp_StartCIDR existing) (sp_StartCIDR patch))
    (if 0 <? sp_AllocationPrefix patch then sp_AllocationPrefix patch else sp_AllocationPrefix existing)
    (patched (sp_ServiceScope existing) (sp_ServiceScope patch)) (sp_RoutingEnabled patch)
    (patched (sp_Status existing) (sp_Status patch))
    (if sp_DisplayOrder patch =? 0 then sp_DisplayOrder existing else sp_DisplayOrder patch)
    (sp_Capacity existing) (sp_Used existing) (sp_Free existing).

(** The columns an update writes. *)
Definition write_space (updated row : AddressPoolSpace) : AddressPoolSpace :=
  MkSpace (sp_ID row) (sp_Key row) (sp_Label updated) (sp_Description updated) (sp_Family updated) (sp_BaseCIDR updated)
    (sp_StartCIDR updated) (sp_AllocationPrefix updated) (sp_ServiceScope updated) (sp_RoutingEnabled updated)
    (sp_Status updated) (sp_DisplayOrder updated) (sp_Capacity row) (sp_Used row) (sp_Free row).

Definition structural_change (existing updated : AddressPoolSpace) : bool :=
  negb (sp_Family existing =s sp_Family updated) || negb (sp_BaseCIDR existing =s sp_BaseCIDR updated)
  || negb (sp_StartCIDR existing =s sp_StartCIDR updated)
  || negb (sp_AllocationPrefix existing =? sp_AllocationPrefix updated)
  || negb (sp_ServiceScope existing =s sp_ServiceScope updated).

(** An update of the rows that match, and the first of them. *)
Fixpoint update_spaces (p : AddressPoolSpace → bool) (f : AddressPoolSpace → option AddressPoolSpace)
    (rows : list AddressPoolSpace) : option (list AddressPoolSpace) :=
  match rows with
  | [] => Some []
  | sp :: rows =>
      sp' ← (if p sp then f sp else Some sp);
      rows' ← update_spaces p f rows;
      Some (sp' :: rows')
  end.

Definition update_returning (p : AddressPoolSpace → bool) (f : AddressPoolSpace → option AddressPoolSpace) (st : pools)
  : result store_error (AddressPoolSpace * pools) :=
  match update_spaces p f (spaces st), List.find p (spaces st) with
  | Some rows, Some sp =>
      match f sp with
      | Some out => Ok (out, {| spaces := rows; allocations := allocations st |})
      | None => Err CatalogRejected
      end
  | None, _ => Err CatalogRejected
  | Some _, None => Err PoolNotFound
  end.

(** The two statements of an update of a pool run outside a transaction. *)
Definition with_exports (out : AddressPoolSpace) (enabled : bool) (st : pools) : pools :=
  {| spaces := spaces st; allocations := export_routes (sp_ID out) enabled <$> allocations st |}.

Definition UpdateAddressPoolSpace (poolID : string) (patch : AddressPoolSpace) (st : pools)
  : result store_error AddressPoolSpace * pools :=
  let poolID := trim_space poolID in
  if poolID =s "" then (Err PoolIDRequired, st)
  else match getAddressPoolSpace poolID st with
  | Err e => (Err e, st)
  | Ok existing =>
      let updated := patch_space existing patch in
      match validateAddressPoolSpaceCIDRs (sp_BaseCIDR updated) (sp_StartCIDR updated) (sp_AllocationPrefix updated) with
      | Err e => (Err (PoolError e), st)
      | Ok _ =>
          let activeAllocations := countActiveAddressPoolAllocations (sp_ID existing) st in
          if (0 <? Z.of_nat activeAllocations) && structural_change existing updated
          then (Err (ActiveAllocations activeAllocations), st)
          else match update_returning (by_ref poolID) (λ row, space_row (write_space updated row)) st with
          | Err e => (Err e, st)
          | Ok (out, st) => (Ok out, with_exports out (sp_RoutingEnabled out) st)
          end
      end
  end.

Definition set_status (status : string) (sp : AddressPoolSpace) : AddressPoolSpace :=
  MkSpace (sp_ID sp) (sp_Key sp) (sp_Label sp) (sp_Description sp) (sp_Family sp) (sp_BaseCIDR sp) (sp_StartCIDR sp)
    (sp_AllocationPrefix sp) (sp_ServiceScope sp) (sp_RoutingEnabled sp) status (sp_DisplayOrder sp) (sp_Capacity sp)
    (sp_Used sp) (sp_Free sp).
Definition set_routing (enabled : bool) (sp : AddressPoolSpace) : AddressPoolSpace :=
  MkSpace (sp_ID sp) (sp_Key sp) (sp_Label sp) (sp_Description sp) (sp_Family sp) (sp_BaseCIDR sp) (sp_StartCIDR sp)
    (sp_AllocationPrefix sp) (sp_ServiceScope sp) enabled (sp_Status sp) (sp_DisplayOrder sp) (sp_Capacity sp)
    (sp_Used sp) (sp_Free sp).

Definition DeleteAddressPoolSpace (poolID : string) (st : pools) : result store_error AddressPoolSpace * pools :=
  let poolID := trim_space poolID in
  if poolID =s "" then (Err PoolIDRequired, st)
  else match getAddressPoolSpace poolID st with
  | Err e => (Err e, st)
  | Ok existing =>
      let activeAllocations := countActiveAddressPoolAllocations (sp_ID existing) st in
      if 0 <? Z.of_nat activeAllocations then (Err (ActiveAllocations activeAllocations), st)
      else match update_returning (λ sp, sp_ID sp =s sp_ID existing) (λ row, Some (set_status "deleted" row)) st with
      | Err e => (Err e, st)
      | Ok (out, st) => (Ok out, st)
      end
  end.

Definition SetAddressPoolRouting (poolID : string) (enabled : bool) (st : pools) : result store_error AddressPoolSpace * pools :=
  let poolID := trim_space poolID in
  if poolID =s "" then (Err PoolIDRequired, st)
  else match update_returning (by_ref poolID) (λ row, Some (set_routing enabled row)) st with
  | Err e => (Err e, st)
  | Ok (out, st) => (Ok out, with_exports out enabled st)
  end.

(** ** Allocations *)

(** [order by case key when ... then 0 else 1 end, display_order asc, label asc]. *)
Definition pool_before (a b : AddressPoolSpace) : bool :=
  let rank sp := if sp_Key sp =s defaultRemoteAccessPoolKey then 0 else 1 in
  if negb (rank a =? rank b) then rank a <? rank b
  else if negb (sp_DisplayOrder a =? sp_DisplayOrder b) then sp_DisplayOrder a <? sp_DisplayOrder b
  else label_before (sp_Label a) (sp_Label b).

Definition allocatable (sp : AddressPoolSpace) : bool :=
  (sp_Status sp =s "active") && one_of (sp_ServiceScope sp) ["remote_access"; "generic"].

Definition getInstanceAddressPoolAllocation (instanceID purpose : string) (st : pools) : option AddressPoolAllocation :=
  List.find (λ a, match al_InstanceID a with Some i => i =s instanceID | None => false end
                  && (al_Purpose a =s purpose) && live a) (allocations st).

Definition used_cidrs (poolSpaceID : string) (st : pools) : gset string :=
  list_to_set (al_CIDR <$> List.filter (live_in poolSpaceID) (allocations st)).

(** The identifier, the node and the service of an instance. *)
Record Instance := { in_ID : string; in_NodeID : string; in_ServiceCode : string }.

(** The outer [None] is out of fuel. *)
Definition ensureInstanceAddressPoolAllocation (fuel : nat) (id1 id2 allocationID : string) (instance : Instance)
    (purpose : string) (st : pools) : option (result store_error AddressPoolAllocation * pools) :=
  let purpose := trim_space purpose in
  let purpose := if purpose =s "" then "remote_access" else purpose in
  match getInstanceAddressPoolAllocation (in_ID instance) purpose st with
  | Some existing => Some (Ok existing, st)
  | None =>
      match EnsureDefaultAddressPoolSpaces id1 id2 st with
      | None => Some (Err CatalogRejected, st)
      | Some st =>
          match isort pool_before (List.filter allocatable (spaces st)) with
          | [] => Some (Err NoActiveSpace, st)
          | space :: _ =>
              match nextAvailableIPv4Subnet fuel (sp_BaseCIDR space) (sp_StartCIDR space) (sp_AllocationPrefix space)
                      (used_cidrs (sp_ID space) st) with
              | None => None
              | Some (Err e) => Some (Err (PoolError e), st)
              | Some (Ok cidr) =>
                  match insert_allocation
                          (MkAllocation allocationID (sp_ID space) (prefix_string cidr) (nullIfEmpty (in_NodeID instance))
                             (nullIfEmpty (in_ID instance)) (in_ServiceCode instance) purpose "active" (sp_RoutingEnabled space)) st with
                  | Some (allocation, st) => Some (Ok allocation, st)
                  | None => Some (Err CatalogRejected, st)
                  end
              end
          end
      end
  end.

Definition release (a : AddressPoolAllocation) : AddressPoolAllocation :=
  MkAllocation (al_ID a) (al_PoolSpaceID a) (al_CIDR a) (al_NodeID a) (al_InstanceID a) (al_ServiceCode a)
    (al_Purpose a) "released" (al_RouteExport a).

Definition releaseInstanceAddressPoolAllocationsTx (instanceID : string) (st : pools) : pools :=
  let instanceID := trim_space instanceID in
  if instanceID =s "" then st
  else
    {| spaces := spaces st;
       allocations := (λ a, if match al_InstanceID a with Some i => i =s instanceID | None => false end && live a
                            then release a else a) <$> allocations st |}.

(** ** Importing the networks of existing instances *)

Context (sprint : any → string).

Definition stringify (v : option any) : string :=
  match v with
  | Some (AString s) => trim_space s
  | None | Some ANil => ""
  | Some v => trim_space (sprint v)
  end.

Fixpoint firstString (values : list (option any)) : string :=
  match values with
  | [] => ""
  | v :: values => let text := trim_space (stringify v) in if text =s "" then firstString values else text
  end.

Definition parses (cidr : string) : bool := match ParsePrefix cidr with Some _ => true | None => false end.

Definition observedPoolCIDRFromInstanceSpec (serviceCode : string) (spec : gomap) : string * string :=
  let code := NormalizeCode serviceCode in
  if code =s "wireguard" then
    let cidr := firstString [spec !! "network_cidr"; spec !! "address_pool_cidr"] in
    if parses cidr then (cidr, "wireguard") else ("", "")
  else if code =s "openvpn" then
    let cidr := firstString [spec !! "address_pool_cidr"] in
    if parses cidr then (cidr, "openvpn")
    else match cidrFromIPv4NetworkAndNetmask (firstString [spec !! "server_network"]) (firstString [spec !! "server_netmask"]) with
    | Ok cidr => (cidr, "openvpn")
    | Err _ => ("", "")
    end
  else if code =s "xl2tpd" then
    let cidr := firstString [spec !! "address_pool_cidr"] in
    if parses cidr then (cidr, "xl2tpd")
    else
      match ParseAddr (firstString [spec !! "local_ip"]) with
      | Some a =>
          if negb (Is4 a) then ("", "")
          else (prefix_string (Prefix (uint32ToIPv4 (alignIPv4ToPrefix (ipv4ToUint32 a) 24)) 24), "xl2tpd")
      | None => ("", "")
      end
  else ("", "").

(** A row of the query: the instance, its service, its specification, and the
    identifier for the import. *)
Record instance_row := { ir_ID : string; ir_NodeID : string; ir_Code : string; ir_Spec : gomap; ir_New : string }.

(** True is the nil error; rows imported before an error stay. *)
Fixpoint backfill_rows (importedSpaceID : string) (rows : list instance_row) (st : pools) : bool * pools :=
  match rows with
  | [] => (true, st)
  | r :: rows =>
      let '(cidr, purpose) := observedPoolCIDRFromInstanceSpec (ir_Code r) (ir_Spec r) in
      if (cidr =s "") || (purpose =s "") then backfill_rows importedSpaceID rows st
      else
        let a := MkAllocation (ir_New r) importedSpaceID cidr (nullIfEmpty (ir_NodeID r)) (nullIfEmpty (ir_ID r))
                   (NormalizeCode (ir_Code r)) purpose "active" false in
        if existsb (λ x, live x && bool_decide (is_Some (al_InstanceID a) ∧ al_InstanceID x = al_InstanceID a)
                         && (al_Purpose x =s purpose)) (allocations st)
        then backfill_rows importedSpaceID rows st
        else match insert_allocation a st with
        | None => (false, st)
        | Some (_, st) => backfill_rows importedSpaceID rows st
        end
  end.

Definition backfillAddressPoolAllocationsFromInstances (rows : list instance_row) (st : pools) : bool * pools :=
  match List.find (λ sp, sp_Key sp =s importedRemoteAccessPoolKey) (spaces st) with
  | None => (false, st)
  | Some sp => backfill_rows (sp_ID sp) rows st
  end.

(** ** The inventory *)

(** The capacity, the use and the rest of a pool; [None] is a panic. *)
Definition with_usage (st : pools) (sp : AddressPoolSpace) : option AddressPoolSpace :=
  capacity ← addressPoolCapacity (sp_BaseCIDR sp) (sp_StartCIDR sp) (sp_AllocationPrefix sp);
  let used := Z.of_nat (countActiveAddressPoolAllocations (sp_ID sp) st) in
  let free := if capacity - used <? 0 then 0 else capacity - used in
  Some (MkSpace (sp_ID sp) (sp_Key sp) (sp_Label sp) (sp_Description sp) (sp_Family sp) (sp_BaseCIDR sp) (sp_StartCIDR sp)
    (sp_AllocationPrefix sp) (sp_ServiceScope sp) (sp_RoutingEnabled sp) (sp_Status sp) (sp_DisplayOrder sp) capacity used free).

(** The order of the listing: [display_order asc,label asc,key asc], the keys being distinct. *)
Definition listed_before (a b : AddressPoolSpace) : bool :=
  if negb (sp_DisplayOrder a =? sp_DisplayOrder b) then sp_DisplayOrder a <? sp_DisplayOrder b
  else label_before (sp_Label a) (sp_Label b)
       || (negb (label_before (sp_Label b) (sp_Label a)) && label_before (sp_Key a) (sp_Key b)).

Definition listAddressPoolSpaces (st : pools) : list AddressPoolSpace :=
  isort listed_before (List.filter (λ sp, negb (sp_Status sp =s "deleted")) (spaces st)).

(** The spaces of the inventory after the default pools and the import. *)
Definition AddressPoolInventory (id1 id2 : string) (rows : list instance_row) (st : pools)
  : result store_error (option (list AddressPoolSpace)) * pools :=
  match EnsureDefaultAddressPoolSpaces id1 id2 st with
  | None => (Err CatalogRejected, st)
  | Some st =>
      match backfillAddressPoolAllocationsFromInstances rows st with
      | (false, st) => (Err CatalogRejected, st)
      | (true, st) => (Ok (mapM (with_usage st) (listAddressPoolSpaces st)), st)
      end
  end.
End store.
