(* ===== verification/AddressPoolProps.v ===== *)
(** * Address pools: allocated networks are disjoint

    The operations of [AddressPoolStore] as the steps of a state machine, and the
    invariant that gives every pool its properties: each live allocation is one of the
    pool's subnets, no two live allocations of a pool share an address, and what the
    inventory counts as free is free. *)
From stdpp Require Import gmap.
From S2P Require Import Prelude GoStrings Strconv GoValue Netip AddressPool AddressPoolStore.
From Stdlib Require Import Ascii.
From stdpp Require Import options.
Open Scope Z_scope.

(** The text of an identifier: 36 hexadecimal digits and dashes. *)
Definition id_text (s : string) : bool :=
  (Nat.eqb (String.length s) 36) && forallb (λ c, is_hex_any c || Ascii.eqb c "-") (bytes s).

Lemma trim_prefix p : prefix_ok p → trim_space (prefix_string p) = prefix_string p.
Proof.
  intros (Ha & Hz & Hb). apply trim_space_no_space. unfold prefix_string. rewrite !all_bytes_app. split; [|split].
  - eapply all_bytes_impl; [apply addr_byte_no_space|by apply addr_text].
  - by repeat constructor.
  - eapply all_bytes_impl; [|apply itoa_digits; destruct (prefix_addr p); simpl in Hb; lia].
    intros [[] [] [] [] [] [] [] []]; vm_compute; congruence.
Qed.

Lemma validated_networks b s prefix :
  validateAddressPoolSpaceCIDRs b s prefix = Ok () →
  ∃ base start, ParsePrefix (trim_space b) = Some base ∧ ParsePrefix (trim_space s) = Some start
    ∧ Is4 (prefix_addr base) = true ∧ Is4 (prefix_addr start) = true.
Proof.
  unfold validateAddressPoolSpaceCIDRs, parse_or. destruct (ParsePrefix (trim_space b)) as [base|]; [|done].
  destruct (ParsePrefix (trim_space s)) as [start|]; [|done]. cbn [mbind result_bind]. intros H. exists base, start.
  by destruct (Is4 (prefix_addr base)), (Is4 (prefix_addr start)).
Qed.

Lemma size_list_to_set_le (l : list string) : (size (list_to_set l : gset string) ≤ length l)%nat.
Proof.
  induction l as [|x l IH]; [done|]. cbn [list_to_set length]. rewrite size_union_alt, size_singleton.
  pose proof (subseteq_size (list_to_set l ∖ {[x]} : gset string) (list_to_set l) ltac:(set_solver)). lia.
Qed.

(** ** The invariant *)

(** The networks of a pool, as its columns hold them. *)
Definition space_nets (sp : AddressPoolSpace) (base start : prefix) : Prop :=
  sp_BaseCIDR sp = prefix_string base ∧ sp_StartCIDR sp = prefix_string start
  ∧ pool_ok (sp_BaseCIDR sp) (sp_StartCIDR sp) (sp_AllocationPrefix sp) base start.

(** An allocation is one of the subnets of its pool. *)
Definition one_of_subnets (sp : AddressPoolSpace) (cidr : string) : Prop :=
  ∃ base start n i, space_nets sp base start
    ∧ addressPoolCapacity (sp_BaseCIDR sp) (sp_StartCIDR sp) (sp_AllocationPrefix sp) = Some n ∧ 0 ≤ i < n
    ∧ cidr = prefix_string (subnet (sp_AllocationPrefix sp) (first_subnet base start (sp_AllocationPrefix sp)) i).

Definition same_network (x y : AddressPoolAllocation) : Prop :=
  live x = true ∧ live y = true ∧ al_PoolSpaceID x = al_PoolSpaceID y ∧ al_CIDR x = al_CIDR y.

Record pools_ok (st : pools) : Prop := {
  ok_ids : NoDup (sp_ID <$> spaces st);
  ok_keys : NoDup (sp_Key <$> spaces st);
  ok_refs : ∀ sp, sp ∈ spaces st → id_text (sp_ID sp) = true ∧ id_text (sp_Key sp) = false;
  ok_spaces : ∀ sp, sp ∈ spaces st → ∃ base start, space_nets sp base start;
  ok_owner : ∀ a, a ∈ allocations st → live a = true → ∃ sp, sp ∈ spaces st ∧ sp_ID sp = al_PoolSpaceID a
    ∧ (sp_Key sp ≠ importedRemoteAccessPoolKey → one_of_subnets sp (al_CIDR a));
  ok_distinct : ∀ i j x y, allocations st !! i = Some x → allocations st !! j = Some y → same_network x y → i = j }.

(** Distinct networks of a pool, as a list of texts. *)
Lemma filter_live_nodup poolID l :
  (∀ i j x y, l !! i = Some x → l !! j = Some y → same_network x y → i = j) →
  NoDup (al_CIDR <$> List.filter (live_in poolID) l).
Proof.
  induction l as [|a l IH]; intros H; [constructor|]. cbn [List.filter].
  assert (NoDup (al_CIDR <$> List.filter (live_in poolID) l)) as Hl.
  { apply IH. intros i j x y Hx Hy Hs. specialize (H (S i) (S j) x y Hx Hy Hs). lia. }
  destruct (live_in poolID a) eqn:Ea; [|done]. cbn [fmap list_fmap]. constructor; [|done].
  intros (b & Eb & Hb)%list_elem_of_fmap. rewrite list_elem_of_In, filter_In, <-list_elem_of_In in Hb.
  destruct Hb as [[j Hj]%list_elem_of_lookup_1 Lb]. unfold live_in in *.
  apply andb_true_iff in Ea as [Ea%String.eqb_eq La], Lb as [Eb'%String.eqb_eq Lb].
  specialize (H 0%nat (S j) a b eq_refl Hj). discriminate H. repeat split; congruence.
Qed.

Section props.
Context (pg_cidr : string → option string).

(** What [cidr] makes of a text Go reads as an IPv4 prefix: it refuses one with host
    bits, and prints the others as Go does. *)
Hypothesis cidr_text : ∀ s t p, pg_cidr s = Some t → ParsePrefix (trim_space s) = Some p → Is4 (prefix_addr p) = true →
  t = prefix_string p ∧ Masked p = p.

(** A text that is the print of a prefix is stored as it is. *)
Lemma pg_cidr_printed p t :
  prefix_ok p → Is4 (prefix_addr p) = true → pg_cidr (prefix_string p) = Some t → t = prefix_string p ∧ Masked p = p.
Proof using cidr_text.
  intros Hp H4 Ht. apply (cidr_text _ _ _ Ht); [|done]. rewrite trim_prefix by done. by apply ParsePrefix_string.
Qed.

(** Rows that pass the validation and the schema have sound networks. *)
Lemma space_row_nets sp row base start prefix :
  space_row pg_cidr sp = Some row →
  validateAddressPoolSpaceCIDRs (sp_BaseCIDR sp) (sp_StartCIDR sp) prefix = Ok () →
  sp_AllocationPrefix sp = (if prefix <=? 0 then 24 else prefix) →
  ParsePrefix (trim_space (sp_BaseCIDR sp)) = Some base → ParsePrefix (trim_space (sp_StartCIDR sp)) = Some start →
  Is4 (prefix_addr base) = true → Is4 (prefix_addr start) = true →
  row = set_cidrs (prefix_string base) (prefix_string start) sp ∧ space_nets row base start.
Proof using cidr_text.
  unfold space_row. intros Hrow Hv Hp Hb Hs Hb4 Hs4.
  destruct (pg_cidr (sp_BaseCIDR sp)) as [tb|] eqn:Eb; [|done].
  destruct (pg_cidr (sp_StartCIDR sp)) as [ts|] eqn:Es; [|done]. cbn [mbind option_bind] in Hrow.
  destruct (space_checks _); [|done]. injection Hrow as <-.
  destruct (cidr_text _ _ _ Eb Hb Hb4) as [-> Mb], (cidr_text _ _ _ Es Hs Hs4) as [-> Ms].
  split; [done|]. split; [done|]. split; [done|]. cbn. rewrite Hp. by eapply validated_pool.
Qed.


(** ** Rows and their pools *)

Lemma space_nets_unique sp b1 s1 b2 s2 : space_nets sp b1 s1 → space_nets sp b2 s2 → b1 = b2 ∧ s1 = s2.
Proof. intros (_ & _ & [H1 H2 _ _ _ _]) (_ & _ & [H3 H4 _ _ _ _]). split; congruence. Qed.

Lemma one_of_subnets_ext sp sp' cidr :
  sp_BaseCIDR sp' = sp_BaseCIDR sp → sp_StartCIDR sp' = sp_StartCIDR sp → sp_AllocationPrefix sp' = sp_AllocationPrefix sp →
  one_of_subnets sp cidr → one_of_subnets sp' cidr.
Proof. unfold one_of_subnets, space_nets. by intros -> -> ->. Qed.

Lemma insert_space_ok sp st row st' :
  pools_ok st → insert_space pg_cidr sp st = Some (row, st') → (∃ base start, space_nets row base start) →
  id_text (sp_ID sp) = true → id_text (sp_Key sp) = false → pools_ok st'.
Proof.
  intros [H1 H2 H3 H4 H5 H6] Hi Hnets Hid Hkey. unfold insert_space in Hi.
  destruct (space_row pg_cidr sp) as [r|] eqn:Er; [|done]. cbn [mbind option_bind] in Hi.
  assert (sp_ID r = sp_ID sp ∧ sp_Key r = sp_Key sp) as [Eid Ekey].
  { unfold space_row in Er. destruct (pg_cidr (sp_BaseCIDR sp)); [|done]. cbn [mbind option_bind] in Er.
    destruct (pg_cidr (sp_StartCIDR sp)); [|done]. cbn [mbind option_bind] in Er.
    destruct (space_checks _); by simplify_eq. }
  destruct (existsb _ _) eqn:Ex; [done|]. injection Hi as -> <-.
  assert (∀ x, x ∈ spaces st → sp_ID x ≠ sp_ID row ∧ sp_Key x ≠ sp_Key row) as Hfresh.
  { intros x Hx. rewrite existsb_false in Ex. specialize (Ex x Hx). apply orb_false_iff in Ex as [? ?].
    by split; apply String.eqb_neq. }
  split; cbn [spaces allocations].
  - rewrite fmap_app. apply NoDup_app. split; [done|]. split; [|apply NoDup_singleton].
    intros i (x & -> & Hx)%list_elem_of_fmap. intros E%list_elem_of_singleton. by destruct (Hfresh x Hx).
  - rewrite fmap_app. apply NoDup_app. split; [done|]. split; [|apply NoDup_singleton].
    intros i (x & -> & Hx)%list_elem_of_fmap. intros E%list_elem_of_singleton. by destruct (Hfresh x Hx).
  - intros x [Hx| ->%list_elem_of_singleton]%elem_of_app; [by apply H3|]. by rewrite Eid, Ekey.
  - intros x [Hx| ->%list_elem_of_singleton]%elem_of_app; [by apply H4|done].
  - intros a Ha Hl. destruct (H5 a Ha Hl) as (x & Hx & ?). exists x. split; [|done]. apply elem_of_app. by left.
  - done.
Qed.

Lemma insert_allocation_ok a st row st' :
  pools_ok st → insert_allocation pg_cidr a st = Some (row, st') →
  (live row = true → ∃ sp, sp ∈ spaces st ∧ sp_ID sp = al_PoolSpaceID row
     ∧ (sp_Key sp ≠ importedRemoteAccessPoolKey → one_of_subnets sp (al_CIDR row))) →
  pools_ok st'.
Proof.
  intros [H1 H2 H3 H4 H5 H6] Hi Hown. unfold insert_allocation in Hi.
  destruct (pg_cidr (al_CIDR a)) as [t|]; [|done]. cbn [mbind option_bind] in Hi.
  destruct (existsb _ _) eqn:Ex; [done|]. injection Hi as <- <-. set (row := MkAllocation _ _ _ _ _ _ _ _ _) in *.
  rewrite existsb_false in Ex. assert (∀ x, x ∈ allocations st → ¬ same_network x row) as Hfresh.
  { intros x Hx (L1 & L2 & E1 & E2). specialize (Ex x Hx). rewrite L1, L2, E1, E2, !String.eqb_refl in Ex.
    rewrite orb_true_r in Ex. discriminate Ex. }
  split; cbn [spaces allocations]; try done.
  - intros x [Hx| ->%list_elem_of_singleton]%elem_of_app; [by apply H5|done].
  - intros i j x y Hx Hy Hs. apply lookup_app_Some in Hx, Hy.
    destruct Hx as [Hx|[Li Hx]], Hy as [Hy|[Lj Hy]]; [by eapply H6|..].
    + apply list_lookup_singleton_Some in Hy as [_ <-]. destruct (Hfresh x); [by eapply list_elem_of_lookup_2|done].
    + apply list_lookup_singleton_Some in Hx as [_ <-]. destruct (Hfresh y); [by eapply list_elem_of_lookup_2|].
      destruct Hs as (? & ? & ? & ?). by repeat split.
    + apply list_lookup_singleton_Some in Hx as [Ei _], Hy as [Ej _]. lia.
Qed.

(** Changes of the allocations that keep their networks, or end them. *)
Lemma map_allocations_ok f st :
  pools_ok st → (∀ a, al_PoolSpaceID (f a) = al_PoolSpaceID a ∧ al_CIDR (f a) = al_CIDR a ∧ (live (f a) = true → live a = true)) →
  pools_ok {| spaces := spaces st; allocations := f <$> allocations st |}.
Proof.
  intros [H1 H2 H3 H4 H5 H6] Hf. split; cbn [spaces allocations]; try done.
  - intros a' (a & -> & Ha)%list_elem_of_fmap. destruct (Hf a) as (-> & -> & Hl). intros Hlive. by apply H5, Hl.
  - intros i j x' y' Hx Hy (L1 & L2 & E1 & E2). rewrite list_lookup_fmap in Hx, Hy.
    apply fmap_Some in Hx as (x & Hx & ->), Hy as (y & Hy & ->).
    destruct (Hf x) as (Px & Cx & Lx), (Hf y) as (Py & Cy & Ly). apply (H6 i j x y Hx Hy). repeat split; auto; congruence.
Qed.

(** Changes of the pools: the networks of a pool with live allocations stay. *)
Lemma map_spaces_ok st rows :
  pools_ok st →
  Forall2 (λ sp sp', sp_ID sp' = sp_ID sp ∧ sp_Key sp' = sp_Key sp ∧ (∃ base start, space_nets sp' base start)
    ∧ ((∃ a, a ∈ allocations st ∧ live_in (sp_ID sp) a = true) →
       sp_BaseCIDR sp' = sp_BaseCIDR sp ∧ sp_StartCIDR sp' = sp_StartCIDR sp ∧ sp_AllocationPrefix sp' = sp_AllocationPrefix sp))
    (spaces st) rows →
  pools_ok {| spaces := rows; allocations := allocations st |}.
Proof.
  intros [H1 H2 H3 H4 H5 H6] HF.
  assert (sp_ID <$> rows = sp_ID <$> spaces st ∧ sp_Key <$> rows = sp_Key <$> spaces st) as [E1 E2].
  { clear -HF. induction HF as [|sp sp' l l' (Hi & Hk & _) _ [IH1 IH2]]; [done|]. cbn [fmap list_fmap].
    by rewrite Hi, Hk; split; f_equal. }
  assert (∀ sp', sp' ∈ rows → ∃ sp, sp ∈ spaces st ∧ sp_ID sp' = sp_ID sp ∧ sp_Key sp' = sp_Key sp
    ∧ ∃ base start, space_nets sp' base start) as Hback.
  { intros sp' (i & Hi)%list_elem_of_lookup_1. destruct (Forall2_lookup_r _ _ _ _ _ HF Hi) as (sp & Hsp & ? & ? & ? & _).
    exists sp. split; [by eapply list_elem_of_lookup_2|done]. }
  split; cbn [spaces allocations]; try congruence.
  - intros sp' (sp & Hsp & -> & -> & _)%Hback. by apply H3.
  - intros sp' (sp & Hsp & _ & _ & ?)%Hback. done.
  - intros a Ha Hl. destruct (H5 a Ha Hl) as (sp & (i & Hi)%list_elem_of_lookup_1 & Hid & Hnet).
    destruct (Forall2_lookup_l _ _ _ _ _ HF Hi) as (sp' & Hsp' & Eid & Ekey & _ & Hsame).
    exists sp'. split; [by eapply list_elem_of_lookup_2|]. rewrite Eid, Ekey. split; [done|]. intros Hk.
    destruct Hsame as (? & ? & ?).
    { exists a. split; [done|]. unfold live_in. by rewrite Hid, String.eqb_refl, Hl. }
    eapply one_of_subnets_ext; [done..|]. by apply Hnet.
  - done.
Qed.

(** ** Pools *)

Lemma find_elem {A} (p : A → bool) l x : List.find p l = Some x → x ∈ l ∧ p x = true.
Proof. intros [H ?]%find_some. by apply list_elem_of_In in H. Qed.

(** A reference names at most one pool. *)
Lemma by_ref_unique st poolID sp sp' :
  pools_ok st → sp ∈ spaces st → sp' ∈ spaces st → by_ref poolID sp = true → by_ref poolID sp' = true → sp = sp'.
Proof.
  intros [H1 H2 H3 _ _ _] Hsp Hsp' Hr Hr'. unfold by_ref in *.
  destruct (H3 _ Hsp) as [I K], (H3 _ Hsp') as [I' K'].
  apply orb_true_iff in Hr, Hr'. rewrite !String.eqb_eq in Hr, Hr'.
  apply list_elem_of_lookup_1 in Hsp as [i Hi], Hsp' as [j Hj].
  destruct Hr as [E|E], Hr' as [E'|E']; [|congruence|congruence|].
  - assert (i = j) as ->; [|congruence]. apply (NoDup_lookup _ i j poolID H1); rewrite list_lookup_fmap, ?Hi, ?Hj; simpl; congruence.
  - assert (i = j) as ->; [|congruence]. apply (NoDup_lookup _ i j poolID H2); rewrite list_lookup_fmap, ?Hi, ?Hj; simpl; congruence.
Qed.

Lemma update_spaces_Forall2 p f l rows :
  update_spaces p f l = Some rows → Forall2 (λ sp sp', if p sp then f sp = Some sp' else sp' = sp) l rows.
Proof.
  revert rows. induction l as [|sp l IH]; intros rows; cbn [update_spaces]; [by intros [= <-]|].
  destruct (if p sp then f sp else Some sp) as [sp'|] eqn:E; [|done]. cbn [mbind option_bind].
  destruct (update_spaces p f l) as [rows'|]; [|done]. cbn [mbind option_bind]. intros [= <-].
  constructor; [|by apply IH]. destruct (p sp); by simplify_eq.
Qed.

(** An update of the pools that match, when each changed row is sound. *)
Lemma update_returning_ok p f st out st' :
  pools_ok st → update_returning p f st = Ok (out, st') →
  (∀ sp sp', sp ∈ spaces st → p sp = true → f sp = Some sp' →
     sp_ID sp' = sp_ID sp ∧ sp_Key sp' = sp_Key sp ∧ (∃ base start, space_nets sp' base start)
     ∧ ((∃ a, a ∈ allocations st ∧ live_in (sp_ID sp) a = true) →
        sp_BaseCIDR sp' = sp_BaseCIDR sp ∧ sp_StartCIDR sp' = sp_StartCIDR sp ∧ sp_AllocationPrefix sp' = sp_AllocationPrefix sp)) →
  pools_ok st'.
Proof.
  intros Hok Hu Hf. unfold update_returning in Hu. destruct (update_spaces p f (spaces st)) as [rows|] eqn:Er; [|done].
  destruct (List.find p (spaces st)) as [sp0|]; [|done]. destruct (f sp0); [|done]. injection Hu as _ <-.
  apply map_spaces_ok; [done|]. apply update_spaces_Forall2 in Er.
  apply Forall2_same_length_lookup. split; [by eapply Forall2_length|]. intros i sp sp' Hsp Hsp'.
  pose proof (Forall2_lookup_lr _ _ _ _ _ _ Er Hsp Hsp') as E. cbn beta in E.
  pose proof (list_elem_of_lookup_2 _ _ _ Hsp) as Hin.
  destruct (p sp) eqn:Ep; [by apply Hf|]. subst sp'. split_and!; try done. by apply Hok.
Qed.

Lemma with_exports_ok out enabled st : pools_ok st → pools_ok (with_exports out enabled st).
Proof.
  intros H. unfold with_exports. apply map_allocations_ok; [done|]. intros a. unfold export_routes.
  by destruct (live_in (sp_ID out) a).
Qed.

Lemma patched_same old : trim_space old = old → patched old old = old.
Proof. unfold patched. intros ->. by destruct (old =s ""). Qed.

(** The row an update writes over the pool it found. *)
Lemma update_row_ok existing patch row st :
  pools_ok st → existing ∈ spaces st →
  let updated := patch_space existing patch in
  validateAddressPoolSpaceCIDRs (sp_BaseCIDR updated) (sp_StartCIDR updated) (sp_AllocationPrefix updated) = Ok () →
  space_row pg_cidr (write_space updated existing) = Some row →
  sp_ID row = sp_ID existing ∧ sp_Key row = sp_Key existing ∧ (∃ base start, space_nets row base start)
  ∧ (structural_change existing updated = false →
     sp_BaseCIDR row = sp_BaseCIDR existing ∧ sp_StartCIDR row = sp_StartCIDR existing
     ∧ sp_AllocationPrefix row = sp_AllocationPrefix existing).
Proof using cidr_text.
  intros Hok Hin updated Hv Hrow. destruct (ok_spaces _ Hok _ Hin) as (b0 & s0 & Eb0 & Es0 & Hp0).
  destruct (validated_networks _ _ _ Hv) as (base & start & Hb & Hs & Hb4 & Hs4).
  assert (0 < sp_AllocationPrefix updated) as Hpos.
  { subst updated. cbn. pose proof (pool_positive _ _ _ _ _ Hp0).
    destruct (Z.ltb_spec 0 (sp_AllocationPrefix patch)); lia. }
  destruct (space_row_nets (write_space updated existing) row base start (sp_AllocationPrefix updated) Hrow Hv)
    as [-> Hnets]; try done.
  { by replace (sp_AllocationPrefix updated <=? 0) with false by lia. }
  split; [done|]. split; [done|]. split; [by exists base, start|]. unfold structural_change.
  rewrite !orb_false_iff, !negb_false_iff, !String.eqb_eq, Z.eqb_eq. intros ((((_ & Ebase) & Estart) & Eap) & _).
  assert (∀ cidr p, ParsePrefix cidr = Some p → cidr = prefix_string p → trim_space cidr = cidr) as Htrim.
  { intros cidr p Hp ->. by apply trim_prefix, (ParsePrefix_ok _ _ Hp). }
  pose proof (pool_base _ _ _ _ _ Hp0) as Pb. pose proof (pool_start _ _ _ _ _ Hp0) as Ps.
  cbn [sp_BaseCIDR sp_StartCIDR write_space set_cidrs] in *.
  rewrite <-Ebase, (Htrim _ b0 Pb Eb0), Pb in Hb. rewrite <-Estart, (Htrim _ s0 Ps Es0), Ps in Hs. simplify_eq. done.
Qed.

Lemma count_zero poolID st :
  (0 <? Z.of_nat (countActiveAddressPoolAllocations poolID st)) = false →
  ∀ a, a ∈ allocations st → live_in poolID a = false.
Proof.
  unfold countActiveAddressPoolAllocations. intros Hc a Ha. destruct (live_in poolID a) eqn:E; [|done].
  assert (a ∈ List.filter (live_in poolID) (allocations st)) as Hin.
  { apply list_elem_of_In, filter_In. split; [by apply list_elem_of_In|done]. }
  destruct (List.filter _ _); [by apply not_elem_of_nil in Hin|discriminate Hc].
Qed.

Lemma UpdateAddressPoolSpace_ok poolID patch st : pools_ok st → pools_ok (snd (UpdateAddressPoolSpace pg_cidr poolID patch st)).
Proof using cidr_text.
  intros Hok. unfold UpdateAddressPoolSpace. cbv zeta. destruct (trim_space poolID =s ""); [done|].
  unfold getAddressPoolSpace. destruct (List.find _ (spaces st)) as [existing|] eqn:Ef; [|done].
  apply find_elem in Ef as [Hin Href%andb_true_iff]. destruct Href as [Href _].
  destruct (validateAddressPoolSpaceCIDRs _ _ _) as [[]|] eqn:Hv; [|done].
  destruct (_ && structural_change _ _) eqn:Hg; [done|].
  destruct (update_returning _ _ _) as [[out st']|] eqn:Hu; [|done]. cbn [snd]. apply with_exports_ok.
  eapply update_returning_ok; [done|exact Hu|]. intros sp sp' Hsp Hp Hrow.
  assert (sp = existing) as -> by exact (by_ref_unique st _ sp existing Hok Hsp Hin Hp Href).
  destruct (update_row_ok existing patch sp' st Hok Hin Hv Hrow) as (H1 & H2 & H3 & H4). do 3 (split; [done|]).
  intros (a & Ha & Hl). apply H4. apply andb_false_iff in Hg as [Hg|Hg]; [|done].
  rewrite (count_zero _ _ Hg a Ha) in Hl. discriminate Hl.
Qed.

Lemma DeleteAddressPoolSpace_ok poolID st : pools_ok st → pools_ok (snd (DeleteAddressPoolSpace poolID st)).
Proof.
  intros Hok. unfold DeleteAddressPoolSpace. cbv zeta. destruct (trim_space poolID =s ""); [done|].
  destruct (getAddressPoolSpace _ _) as [existing|]; [|done]. destruct (0 <? _); [done|].
  destruct (update_returning _ _ _) as [[out st']|] eqn:Hu; [|done]. cbn [snd].
  eapply update_returning_ok; [done|exact Hu|]. intros sp sp' Hsp _ [= <-].
  split_and!; try done. exact (ok_spaces _ Hok sp Hsp).
Qed.

Lemma SetAddressPoolRouting_ok poolID enabled st : pools_ok st → pools_ok (snd (SetAddressPoolRouting poolID enabled st)).
Proof.
  intros Hok. unfold SetAddressPoolRouting. cbv zeta. destruct (trim_space poolID =s ""); [done|].
  destruct (update_returning _ _ _) as [[out st']|] eqn:Hu; [|done]. cbn [snd]. apply with_exports_ok.
  eapply update_returning_ok; [done|exact Hu|]. intros sp sp' Hsp _ [= <-].
  split_and!; try done. exact (ok_spaces _ Hok sp Hsp).
Qed.

(** The key a pool is created under. *)
Definition created_key (space : AddressPoolSpace) : string :=
  let key := trim_space (sp_Key space) in if key =s "" then slugify (sp_Label space) else key.

Lemma CreateAddressPoolSpace_ok space st :
  pools_ok st → id_text (sp_ID space) = true → id_text (created_key space) = false →
  pools_ok (snd (CreateAddressPoolSpace pg_cidr space st)).
Proof using cidr_text.
  intros Hok Hid Hkey. unfold CreateAddressPoolSpace. cbv zeta. destruct (trim_space (sp_Label space) =s ""); [done|].
  destruct (validateAddressPoolSpaceCIDRs _ _ _) as [[]|] eqn:Hv; [|done].
  fold (created_key space). destruct (insert_space _ _ st) as [[created st']|] eqn:Hi; [|done]. cbn [snd].
  eapply insert_space_ok; [done|exact Hi| |done|done].
  destruct (validated_networks _ _ _ Hv) as (base & start & Hb & Hs & Hb4 & Hs4). exists base, start.
  unfold insert_space in Hi. destruct (space_row _ _) as [row|] eqn:Hrow; [|done]. cbn [mbind option_bind] in Hi.
  destruct (existsb _ _); [done|]. injection Hi as -> _. by eapply (space_row_nets _ _ base start _ Hrow).
Qed.

Lemma EnsureDefaultAddressPoolSpaces_ok id1 id2 st st' :
  pools_ok st → id_text id1 = true → id_text id2 = true →
  EnsureDefaultAddressPoolSpaces pg_cidr id1 id2 st = Some st' → pools_ok st'.
Proof using cidr_text.
  intros Hok H1 H2. unfold EnsureDefaultAddressPoolSpaces.
  assert (∀ sp, sp ∈ default_spaces id1 id2 → id_text (sp_ID sp) = true ∧ id_text (sp_Key sp) = false
    ∧ validateAddressPoolSpaceCIDRs (sp_BaseCIDR sp) (sp_StartCIDR sp) (sp_AllocationPrefix sp) = Ok ()
    ∧ sp_AllocationPrefix sp = (if sp_AllocationPrefix sp <=? 0 then 24 else sp_AllocationPrefix sp)) as Hd.
  { intros sp [->|[->|[]%elem_of_nil]%elem_of_cons]%elem_of_cons; split_and!; try done; vm_compute; reflexivity. }
  revert Hok Hd. generalize (default_spaces id1 id2). intros l. revert st.
  induction l as [|sp l IH]; intros st Hok Hd; [by intros [= <-]|]. cbn [foldl]. cbn [mbind option_bind].
  assert (∀ x, x ∈ l → x ∈ sp :: l) as Hl by (intros; by right).
  destruct (existsb _ _); [apply IH; auto|]. destruct (insert_space pg_cidr sp st) as [[row st1]|] eqn:Hi; cbn [fmap option_fmap option_map snd].
  - apply IH; [|auto]. destruct (Hd sp) as (Hid & Hkey & Hv & Hp); [by left|].
    eapply insert_space_ok; [done|exact Hi| |done|done].
    destruct (validated_networks _ _ _ Hv) as (base & start & Hb & Hs & Hb4 & Hs4). exists base, start.
    unfold insert_space in Hi. destruct (space_row _ _) as [r|] eqn:Hrow; [|done]. cbn [mbind option_bind] in Hi.
    destruct (existsb _ _); [done|]. injection Hi as -> _. by eapply (space_row_nets _ _ base start _ Hrow).
  - intros Hn. exfalso. clear -Hn. induction l as [|x l IHl]; [done|]. apply IHl, Hn.
Qed.

(** ** Allocations *)

Lemma used_cidrs_size poolID st : (size (used_cidrs poolID st) ≤ length (allocations st))%nat.
Proof.
  unfold used_cidrs. etrans; [apply size_list_to_set_le|]. rewrite length_fmap. apply List.filter_length_le.
Qed.

Lemma defaults_allocations id1 id2 st st' :
  EnsureDefaultAddressPoolSpaces pg_cidr id1 id2 st = Some st' → allocations st' = allocations st.
Proof.
  unfold EnsureDefaultAddressPoolSpaces. generalize (default_spaces id1 id2). intros l.
  assert (∀ o : option pools, foldl (λ st sp, st ← st;
    if existsb (λ x, sp_Key x =s sp_Key sp) (spaces st) then Some st else snd <$> insert_space pg_cidr sp st) o l = Some st' →
    ∃ st0, o = Some st0 ∧ allocations st' = allocations st0) as H.
  { induction l as [|sp l IH]; intros o; cbn [foldl]; [intros ->; by exists st'|].
    intros (st1 & E & ->)%IH. destruct o as [st0|]; [|done]. cbn [mbind option_bind] in E. exists st0. split; [done|].
    destruct (existsb _ _); [by injection E as ->|]. unfold insert_space in E.
    destruct (space_row pg_cidr sp); [|done]. cbn [mbind option_bind] in E. destruct (existsb _ _); [done|].
    by injection E as <-. }
  intros (st0 & [= ->] & E)%H. done.
Qed.

Lemma imported_key_exempt sp st t : sp ∈ spaces st → sp_Key sp = importedRemoteAccessPoolKey → 
  ∃ x, x ∈ spaces st ∧ sp_ID x = sp_ID sp ∧ (sp_Key x ≠ importedRemoteAccessPoolKey → one_of_subnets x t).
Proof. intros Hin Hk. exists sp. split; [done|]. split; [done|]. by rewrite Hk. Qed.

(** The subnet the search hands out, as the database stores it. *)
Lemma search_subnet sp st fuel cidr t :
  pools_ok st → sp ∈ spaces st → (length (allocations st) < fuel)%nat →
  nextAvailableIPv4Subnet fuel (sp_BaseCIDR sp) (sp_StartCIDR sp) (sp_AllocationPrefix sp) (used_cidrs (sp_ID sp) st) = Some (Ok cidr) →
  pg_cidr (prefix_string cidr) = Some t → t = prefix_string cidr ∧ one_of_subnets sp t.
Proof using cidr_text.
  intros Hok Hin Hfuel Hs Ht. destruct (ok_spaces _ Hok _ Hin) as (base & start & Eb & Es & Hp).
  assert (size (used_cidrs (sp_ID sp) st) < fuel)%nat as Hf by (pose proof (used_cidrs_size (sp_ID sp) st); lia).
  destruct (pool_search Hp (used_cidrs (sp_ID sp) st) fuel Hf) as (n & En & H). rewrite Hs in H.
  destruct H as (i & Hi & -> & _). destruct (pool_subnet Hp n i En Hi) as (_ & _ & _ & Hpok & _).
  destruct (pg_cidr_printed _ _ Hpok eq_refl Ht) as [-> _]. split; [done|].
  by exists base, start, n, i.
Qed.

Lemma insert_allocation_row a st row st' :
  insert_allocation pg_cidr a st = Some (row, st') →
  ∃ t, pg_cidr (al_CIDR a) = Some t ∧ al_CIDR row = t ∧ al_PoolSpaceID row = al_PoolSpaceID a.
Proof.
  unfold insert_allocation. destruct (pg_cidr (al_CIDR a)) as [t|]; [|done]. cbn [mbind option_bind].
  destruct (existsb _ _); [done|]. intros [= <- <-]. by exists t.
Qed.

Lemma ensure_ok label_before fuel id1 id2 id instance purpose st r st' :
  pools_ok st → id_text id1 = true → id_text id2 = true → (length (allocations st) < fuel)%nat →
  ensureInstanceAddressPoolAllocation pg_cidr label_before fuel id1 id2 id instance purpose st = Some (r, st') →
  pools_ok st'.
Proof using cidr_text.
  intros Hok H1 H2 Hfuel. unfold ensureInstanceAddressPoolAllocation. cbv zeta.
  set (p := if trim_space purpose =s "" then _ else _).
  destruct (getInstanceAddressPoolAllocation _ _ _); [by intros [= _ <-]|].
  destruct (EnsureDefaultAddressPoolSpaces pg_cidr id1 id2 st) as [st1|] eqn:Ed; [|by intros [= _ <-]].
  pose proof (EnsureDefaultAddressPoolSpaces_ok _ _ _ _ Hok H1 H2 Ed) as Hok1.
  rewrite <-(defaults_allocations _ _ _ _ Ed) in Hfuel.
  destruct (isort _ _) as [|space l] eqn:Es; [by intros [= _ <-]|].
  assert (space ∈ spaces st1) as Hin.
  { assert (space ∈ isort (pool_before label_before) (List.filter allocatable (spaces st1))) as H by (rewrite Es; by left).
    rewrite elem_of_isort, list_elem_of_In, filter_In, <-list_elem_of_In in H. apply H. }
  destruct (nextAvailableIPv4Subnet _ _ _ _ _) as [[cidr|e]|] eqn:En; [|by intros [= _ <-]|done].
  destruct (insert_allocation _ _ _) as [[row st2]|] eqn:Ei; [|by intros [= _ <-]]. intros [= _ <-].
  destruct (insert_allocation_row _ _ _ _ Ei) as (t & Ht & Erow & Eid). cbn [al_CIDR al_PoolSpaceID] in Ht, Eid.
  destruct (search_subnet _ _ _ _ _ Hok1 Hin Hfuel En Ht) as [_ Hsub].
  eapply insert_allocation_ok; [done|exact Ei|]. intros _. exists space. by rewrite Eid, Erow.
Qed.

Lemma release_ok instanceID st : pools_ok st → pools_ok (releaseInstanceAddressPoolAllocationsTx instanceID st).
Proof.
  intros Hok. unfold releaseInstanceAddressPoolAllocationsTx. cbv zeta. destruct (trim_space instanceID =s ""); [done|].
  apply map_allocations_ok; [done|]. intros a. by destruct (_ && live a).
Qed.

Lemma backfill_ok sprint rows st : pools_ok st → pools_ok (snd (backfillAddressPoolAllocationsFromInstances pg_cidr sprint rows st)).
Proof.
  intros Hok. unfold backfillAddressPoolAllocationsFromInstances.
  destruct (List.find _ (spaces st)) as [sp|] eqn:Ef; [|done]. apply find_elem in Ef as [Hin Hk%String.eqb_eq].
  revert st Hok Hin. induction rows as [|r rows IH]; intros st Hok Hin; [done|]. cbn [backfill_rows].
  destruct (observedPoolCIDRFromInstanceSpec _ _ _) as [cidr purpose]. destruct (_ || _); [by apply IH|].
  destruct (existsb _ _); [by apply IH|]. destruct (insert_allocation _ _ _) as [[row st1]|] eqn:Ei; [|done].
  assert (spaces st1 = spaces st) as Esp.
  { unfold insert_allocation in Ei. destruct (pg_cidr _); [|done]. cbn [mbind option_bind] in Ei.
    destruct (existsb _ _); [done|]. by injection Ei as _ <-. }
  destruct (insert_allocation_row _ _ _ _ Ei) as (t & _ & _ & Eid).
  apply IH; [|by rewrite Esp]. eapply insert_allocation_ok; [done|exact Ei|]. intros _.
  rewrite Eid. by apply imported_key_exempt.
Qed.
End props.

(** Live allocations of a pool that is not the imported one are at most its subnets. *)
Lemma pool_use_bounded st sp base start n :
  pools_ok st → sp ∈ spaces st → sp_Key sp ≠ importedRemoteAccessPoolKey → space_nets sp base start →
  addressPoolCapacity (sp_BaseCIDR sp) (sp_StartCIDR sp) (sp_AllocationPrefix sp) = Some n → 0 ≤ n →
  Z.of_nat (countActiveAddressPoolAllocations (sp_ID sp) st) ≤ n.
Proof.
  intros Hr Hsp Hkey Hnets En Hn. unfold countActiveAddressPoolAllocations.
  set (net i := prefix_string (subnet (sp_AllocationPrefix sp) (first_subnet base start (sp_AllocationPrefix sp)) i)).
  set (l := List.filter _ _). assert (NoDup (al_CIDR <$> l)) as Hnd.
  { unfold l. apply filter_live_nodup. exact (ok_distinct _ Hr). }
  assert ((al_CIDR <$> l) ⊆ (λ i, net (Z.of_nat i)) <$> seq 0 (Z.to_nat n)) as Hsub.
  { intros c (a & -> & Ha)%list_elem_of_fmap. unfold l in Ha.
    rewrite list_elem_of_In, filter_In, <-list_elem_of_In in Ha. destruct Ha as [Ha [Ep%String.eqb_eq La]%andb_true_iff].
    destruct (ok_owner _ Hr a Ha La) as (sp' & Hsp' & Esp' & Hs).
    assert (sp' = sp) as ->.
    { apply (by_ref_unique st (sp_ID sp)); try done; unfold by_ref; apply orb_true_iff; left; apply String.eqb_eq; congruence. }
    destruct (Hs Hkey) as (b & s & n' & i & Hn' & En' & Hi & ->).
    destruct (space_nets_unique sp b s base start Hn' Hnets) as [-> ->]. rewrite En in En'. injection En' as <-.
    apply list_elem_of_fmap. exists (Z.to_nat i). rewrite Z2Nat.id by lia. split; [done|]. apply elem_of_seq. lia. }
  apply NoDup_submseteq in Hsub; [|done]. apply submseteq_length in Hsub. rewrite !length_fmap, length_seq in Hsub. lia.
Qed.

(** ** Histories *)

Section steps.
Context (pg_cidr : string → option string) (label_before : string → string → bool) (sprint : any → string).

Inductive op :=
| OpDefaults (id1 id2 : string)
| OpCreate (space : AddressPoolSpace)
| OpUpdate (poolID : string) (patch : AddressPoolSpace)
| OpDelete (poolID : string)
| OpRouting (poolID : string) (enabled : bool)
| OpAllocate (id1 id2 allocationID : string) (instance : Instance) (purpose : string)
| OpRelease (instanceID : string)
| OpInventory (id1 id2 : string) (rows : list instance_row).

(** One step more than there are allocations is enough for a search. *)
Definition allocate (id1 id2 allocationID : string) (instance : Instance) (purpose : string) (st : pools) :=
  ensureInstanceAddressPoolAllocation pg_cidr label_before (S (length (allocations st))) id1 id2 allocationID instance purpose st.

Definition run_op (o : op) (st : pools) : pools :=
  match o with
  | OpDefaults id1 id2 => default st (EnsureDefaultAddressPoolSpaces pg_cidr id1 id2 st)
  | OpCreate space => snd (CreateAddressPoolSpace pg_cidr space st)
  | OpUpdate poolID patch => snd (UpdateAddressPoolSpace pg_cidr poolID patch st)
  | OpDelete poolID => snd (DeleteAddressPoolSpace poolID st)
  | OpRouting poolID enabled => snd (SetAddressPoolRouting poolID enabled st)
  | OpAllocate id1 id2 i instance purpose => default st (snd <$> allocate id1 id2 i instance purpose st)
  | OpRelease instanceID => releaseInstanceAddressPoolAllocationsTx instanceID st
  | OpInventory id1 id2 rows => snd (AddressPoolInventory pg_cidr label_before sprint id1 id2 rows st)
  end.

(** Generated identifiers are identifiers, and no pool is created under a key that is one. *)
Definition well_named (o : op) : Prop :=
  match o with
  | OpDefaults id1 id2 | OpAllocate id1 id2 _ _ _ | OpInventory id1 id2 _ => id_text id1 = true ∧ id_text id2 = true
  | OpCreate space => id_text (sp_ID space) = true ∧ id_text (created_key space) = false
  | _ => True
  end.

Inductive reachable : pools → Prop :=
| reach_start : reachable {| spaces := []; allocations := [] |}
| reach_step st o : reachable st → well_named o → reachable (run_op o st).

Hypothesis cidr_text : ∀ s t p, pg_cidr s = Some t → ParsePrefix (trim_space s) = Some p → Is4 (prefix_addr p) = true →
  t = prefix_string p ∧ Masked p = p.

Lemma reachable_pools_ok st : reachable st → pools_ok st.
Proof using cidr_text.
  induction 1 as [|st o _ Hok Hw].
  - split; cbn [spaces allocations fmap list_fmap]; [apply NoDup_nil_2|apply NoDup_nil_2|..]; try by intros ? ?%elem_of_nil.
    intros i j x y Hx. by rewrite lookup_nil in Hx.
  - destruct o as [id1 id2|space|poolID patch|poolID|poolID enabled|id1 id2 i instance purpose|instanceID|id1 id2 rows];
      cbn [run_op].
    + destruct Hw as [H1 H2]. destruct (EnsureDefaultAddressPoolSpaces pg_cidr id1 id2 st) as [st'|] eqn:E; [|done].
      exact (EnsureDefaultAddressPoolSpaces_ok _ cidr_text _ _ _ _ Hok H1 H2 E).
    + destruct Hw. by apply CreateAddressPoolSpace_ok.
    + by apply UpdateAddressPoolSpace_ok.
    + by apply DeleteAddressPoolSpace_ok.
    + by apply SetAddressPoolRouting_ok.
    + destruct Hw as [H1 H2]. destruct (allocate id1 id2 i instance purpose st) as [[r st']|] eqn:E; [|done].
      exact (ensure_ok _ cidr_text _ _ _ _ _ _ _ _ _ _ Hok H1 H2 (Nat.lt_succ_diag_r _) E).
    + by apply release_ok.
    + destruct Hw as [H1 H2]. unfold AddressPoolInventory.
      destruct (EnsureDefaultAddressPoolSpaces pg_cidr id1 id2 st) as [st1|] eqn:E; [|done].
      pose proof (EnsureDefaultAddressPoolSpaces_ok _ cidr_text _ _ _ _ Hok H1 H2 E) as Hok1.
      pose proof (backfill_ok pg_cidr sprint rows st1 Hok1) as Hb.
      destruct (backfillAddressPoolAllocationsFromInstances _ _ _ _) as [[] st2]; done.
Qed.


(** The inventory of a pool never panics and adds up: of the subnets it counts as
    the pool's capacity, those in use and those it calls free are all, for every pool but
    the imported one. *)
Theorem inventory_adds_up (st : pools) (sp : AddressPoolSpace) :
  reachable st → sp ∈ spaces st →
  ∃ row, with_usage st sp = Some row
    ∧ (sp_Key sp ≠ importedRemoteAccessPoolKey → sp_Used row + sp_Free row = sp_Capacity row)
    ∧ 0 ≤ sp_Free row ∧ sp_Used row = Z.of_nat (countActiveAddressPoolAllocations (sp_ID sp) st).
Proof using cidr_text.
  intros Hr Hsp. apply reachable_pools_ok in Hr. destruct (ok_spaces _ Hr _ Hsp) as (base & start & Hnets).
  destruct Hnets as (Eb & Es & Hp). destruct (pool_capacity Hp) as (n & En & Hn & _).
  unfold with_usage. rewrite En. cbn [mbind option_bind]. eexists. split; [done|]. cbn [sp_Used sp_Free sp_Capacity].
  destruct (Z.ltb_spec (n - Z.of_nat (countActiveAddressPoolAllocations (sp_ID sp) st)) 0); split_and!; try done; try lia.
  intros Hkey. pose proof (pool_use_bounded st sp base start n Hr Hsp Hkey (conj Eb (conj Es Hp)) En Hn). lia.
Qed.

(** Asking for an instance's network always ends: with the live allocation the
    instance has for the purpose, if there is one; with a new live allocation that is
    added to the others; or with an error that adds none. *)
Theorem allocation_total (st : pools) (id1 id2 allocationID : string) (instance : Instance) (purpose : string) :
  reachable st → well_named (OpAllocate id1 id2 allocationID instance purpose) →
  let wanted := if trim_space purpose =s "" then "remote_access" else trim_space purpose in
  ∃ r st', allocate id1 id2 allocationID instance purpose st = Some (r, st') ∧
  match r with
  | Ok a =>
      live a = true ∧ al_Purpose a = wanted ∧
      ((al_InstanceID a = Some (in_ID instance) ∧ a ∈ allocations st ∧ st' = st)
       ∨ (al_InstanceID a = nullIfEmpty (in_ID instance) ∧ allocations st' = allocations st ++ [a]
          ∧ getInstanceAddressPoolAllocation (in_ID instance) wanted st = None
          ∧ ∃ sp, sp ∈ spaces st' ∧ allocatable sp = true ∧ sp_ID sp = al_PoolSpaceID a))
  | Err _ => allocations st' = allocations st
  end.
Proof using cidr_text.
  intros Hr [H1 H2] wanted. apply reachable_pools_ok in Hr. unfold allocate, ensureInstanceAddressPoolAllocation. cbv zeta.
  fold wanted. destruct (getInstanceAddressPoolAllocation (in_ID instance) wanted st) as [a|] eqn:Eg.
  { eexists _, _. split; [done|]. apply find_elem in Eg as [Ha Hg]. rewrite !andb_true_iff in Hg. destruct Hg as [[Hi Hp] Hl].
    split; [done|]. split; [by apply String.eqb_eq|]. left. split; [|done].
    destruct (al_InstanceID a); [|done]. f_equal. by apply String.eqb_eq. }
  destruct (EnsureDefaultAddressPoolSpaces pg_cidr id1 id2 st) as [st1|] eqn:Ed; [|by eexists _, _].
  pose proof (EnsureDefaultAddressPoolSpaces_ok _ cidr_text _ _ _ _ Hr H1 H2 Ed) as Hok1.
  pose proof (defaults_allocations _ _ _ _ _ Ed) as Eal.
  destruct (isort _ _) as [|space l] eqn:Es; [by eexists _, _|].
  assert (space ∈ spaces st1 ∧ allocatable space = true) as [Hin Hall].
  { assert (space ∈ isort (pool_before label_before) (List.filter allocatable (spaces st1))) as H by (rewrite Es; by left).
    by rewrite elem_of_isort, list_elem_of_In, filter_In, <-list_elem_of_In in H. }
  destruct (ok_spaces _ Hok1 _ Hin) as (base & start & _ & _ & Hp).
  destruct (pool_search Hp (used_cidrs (sp_ID space) st1) (S (length (allocations st)))) as (n & _ & Hn).
  { pose proof (used_cidrs_size (sp_ID space) st1). rewrite Eal in *. lia. }
  destruct (nextAvailableIPv4Subnet _ _ _ _ _) as [[cidr|e]|]; [|by eexists _, _|done].
  unfold insert_allocation. destruct (pg_cidr _) as [t|]; cbn [mbind option_bind]; [|by eexists _, _].
  destruct (existsb _ _); [by eexists _, _|]. eexists _, _. split; [done|]. split; [done|]. split; [done|]. right.
  split; [done|]. cbn [allocations]. rewrite Eal. split; [done|]. split; [done|]. exists space. done.
Qed.
End steps.

(** ** Sample histories *)

Module Sample.

(** A [cidr] column that reads what Go reads. *)
Definition pg_cidr (s : string) : option string :=
  match ParsePrefix (trim_space s) with
  | Some (Prefix (V4 n) b) => if n =? mask_value 32 b n then Some (prefix_string (Prefix (V4 n) b)) else None
  | _ => None
  end.

Lemma pg_cidr_text s t p : pg_cidr s = Some t → ParsePrefix (trim_space s) = Some p → Is4 (prefix_addr p) = true →
  t = prefix_string p ∧ Masked p = p.
Proof.
  unfold pg_cidr. intros H Hp H4. rewrite Hp in H. destruct p as [[n|n z] b]; [|done].
  destruct (Z.eqb_spec n (mask_value 32 b n)) as [E|]; [|done]. injection H as <-. split; [done|].
  unfold Masked. cbn [prefix_addr prefix_bits]. by rewrite <-E.
Qed.

Definition label_before (a b : string) : bool := String.ltb a b.
Definition sprint (v : any) : string := "".
Local Notation step := (run_op pg_cidr label_before sprint).

Definition id_of (digit : string) : string := "00000000-0000-4000-8000-00000000000" +:+ digit.
Definition instance (name : string) : Instance := {| in_ID := name; in_NodeID := "n1"; in_ServiceCode := "wireguard" |}.

Definition none : pools := {| spaces := []; allocations := [] |}.
Definition allocate_step (digit name : string) : op := OpAllocate (id_of "1") (id_of "2") (id_of digit) (instance name) "wireguard".
Definition two_instances : pools := step (allocate_step "4" "i2") (step (allocate_step "3" "i1") none).

Lemma two_reachable : reachable pg_cidr label_before sprint two_instances.
Proof. apply reach_step; [apply reach_step; [apply reach_start|]|]; by split. Qed.

Definition allocation (i : nat) (st : pools) : AddressPoolAllocation :=
  default (MkAllocation "" "" "" None None "" "" "" false) (allocations st !! i).
Definition pool (i : nat) (st : pools) : AddressPoolSpace :=
  default (MkSpace "" "" "" "" "" "" "" 0 "" false "" 0 0 0 0) (spaces st !! i).

Example two_networks :
  (al_CIDR (allocation 0 two_instances), al_CIDR (allocation 1 two_instances)) = ("172.16.112.0/24", "172.16.113.0/24").
Proof. vm_compute. reflexivity. Qed.


Lemma inventory_adds_up_witness :
  ∃ row, with_usage two_instances (pool 0 two_instances) = Some row
    ∧ (sp_Key (pool 0 two_instances) ≠ importedRemoteAccessPoolKey → sp_Used row + sp_Free row = sp_Capacity row)
    ∧ 0 ≤ sp_Free row
    ∧ sp_Used row = Z.of_nat (countActiveAddressPoolAllocations (sp_ID (pool 0 two_instances)) two_instances).
Proof.
  apply (inventory_adds_up pg_cidr label_before sprint pg_cidr_text two_instances);
    [apply two_reachable|apply (list_elem_of_lookup_2 _ 0); vm_compute; reflexivity].
Defined.

Lemma allocation_total_witness :
  ∃ r st', allocate pg_cidr label_before (id_of "1") (id_of "2") (id_of "5") (instance "i3") "openvpn" two_instances = Some (r, st') ∧
  match r with
  | Ok a =>
      live a = true ∧ al_Purpose a = "openvpn" ∧
      ((al_InstanceID a = Some "i3" ∧ a ∈ allocations two_instances ∧ st' = two_instances)
       ∨ (al_InstanceID a = nullIfEmpty "i3" ∧ allocations st' = allocations two_instances ++ [a]
          ∧ getInstanceAddressPoolAllocation "i3" "openvpn" two_instances = None
          ∧ ∃ sp, sp ∈ spaces st' ∧ allocatable sp = true ∧ sp_ID sp = al_PoolSpaceID a))
  | Err _ => allocations st' = allocations two_instances
  end.
Proof.
  apply (allocation_total pg_cidr label_before sprint pg_cidr_text two_instances (id_of "1") (id_of "2") (id_of "5") (instance "i3") "openvpn");
    [apply two_reachable|by split].
Defined.

Definition small (key base : string) (order : Z) (digit : string) : AddressPoolSpace :=
  MkSpace (id_of digit) key key "" "" base base 30 "" false "" order 0 0 0.

(** The default pool is full and another one is empty: the allocator does not turn to
    it, though the error asks for a new pool. *)
Lemma full_default_pool_shadows :
  let st := step (OpCreate (small "spare" "10.1.0.0/24" 1 "7")) (step (OpCreate (small defaultRemoteAccessPoolKey "10.0.0.0/30" 2 "6")) none) in
  let full := step (allocate_step "3" "i1") st in
  al_CIDR (allocation 0 full) = "10.0.0.0/30"
  ∧ List.map (sp_Free ∘ default (pool 9 full) ∘ with_usage full) (List.filter allocatable (spaces full)) = [0; 64]
  ∧ (fst <$> allocate pg_cidr label_before (id_of "1") (id_of "2") (id_of "4") (instance "i2") "wireguard" full)
    = Some (Err (PoolError (NoFreeSubnet 30 "10.0.0.0/30" "10.0.0.0/30"))).
Proof. vm_compute. auto. Qed.

(** The update of a pool takes the status deleted while allocations are live, which the
    deletion refuses. *)
Lemma update_deletes_used_pool :
  let patch := MkSpace "" "" "" "" "" "" "" 0 "" false "deleted" 0 0 0 0 in
  let st' := step (OpUpdate defaultRemoteAccessPoolKey patch) two_instances in
  fst (DeleteAddressPoolSpace defaultRemoteAccessPoolKey two_instances) = Err (ActiveAllocations 2)
  ∧ sp_Status (pool 0 st') = "deleted" ∧ countActiveAddressPoolAllocations (sp_ID (pool 0 st')) st' = 2%nat.
Proof. vm_compute. auto. Qed.
End Sample.
