(* ===== verification/VlessPolicy.v ===== *)
(** * VLESS access policies

    [internal/accesspolicy/vless.go]: the boundary an operator's routing policy passes
    before it is stored and again before it is rendered.  The decoder and the encoder
    of JSON are parameters, and so is the order in which a [range] visits a map. *)
From S2P Require Import Prelude GoStrings Strconv GoValue.
From Stdlib Require Import Ascii.
From stdpp Require Import options.
Open Scope Z_scope.

Definition maxVLESSPolicyBytes : Z := 64 * 1024.
Definition maxVLESSPolicyRules : Z := 128.
Definition maxVLESSRuleValues : Z := 256.

(** [len] of a string. *)
Definition len (s : string) : Z := Z.of_nat (String.length s).

Inductive vless_error :=
| PolicyTooLarge
| InvalidPolicyJSON
| FieldNotSupported (key : string)
| FieldNotString (key : string)
| UnsupportedAccessMode (mode : string)
| UnsupportedEgressMode (mode : string)
| InvalidOutboundTag
| EgressNodeNotUUID
| TargetInstanceNotUUID
| ModeMismatch (accessMode : string)
| AdBlockNotBool
| RulesNotArray (field : string)
| TooManyRules (field : string)
| RuleNotObject (field : string) (index : Z)
| RuleTooManyFields (field : string) (index : Z)
| RuleFieldNotSupported (field : string) (index : Z) (key : string)
| RuleTypeNotField (field : string) (index : Z)
| RuleTagInvalid (field : string) (index : Z) (key : string)
| RuleValueInvalid (field : string) (index : Z) (key : string) (reason : string)
| EncodeFailed
| DecodeFailed
| GroupKeyEmpty.

Notation R := (result vless_error).

(** ** Texts *)

Definition identifier_rune (r : Z) : bool :=
  ((97 <=? r) && (r <=? 122)) || ((65 <=? r) && (r <=? 90)) || ((48 <=? r) && (r <=? 57))
  || bool_decide (r ∈ [95; 46; 58; 45]).

Definition runtimeIdentifier (value : string) (max : Z) : bool :=
  if (value =s "") || (max <? len value) then false else forallb identifier_rune (runes value).

Definition uuid_rune (r : Z) : bool :=
  ((48 <=? r) && (r <=? 57)) || ((97 <=? r) && (r <=? 102)) || ((65 <=? r) && (r <=? 70)).

(** The byte at [i], for [i] below the length. *)
Definition byte_at (s : string) (i : nat) : ascii := default "000"%char (bytes s !! i).

(** The loop visits the runes with the offsets of their first bytes.  A byte that is
    no rune reads as U+FFFD, which ends the loop: its width does not matter. *)
Fixpoint uuid_runes (offset : Z) (rs : list Z) : bool :=
  match rs with
  | [] => true
  | r :: rs =>
      (bool_decide (offset ∈ [8; 13; 18; 23]) || uuid_rune r) && uuid_runes (offset + len (encode r)) rs
  end.

Definition uuidText (value : string) : bool :=
  if negb (len value =? 36) || negb (Ascii.eqb (byte_at value 8) "-") || negb (Ascii.eqb (byte_at value 13) "-")
     || negb (Ascii.eqb (byte_at value 18) "-") || negb (Ascii.eqb (byte_at value 23) "-")
  then false else uuid_runes 0 (runes value).

Definition policyString (policy : gomap) (key fallback : string) : R string :=
  match policy !! key with
  | None | Some ANil => Ok fallback
  | Some (AString text) => Ok (trim_space text)
  | Some _ => Err (FieldNotString key)
  end.

(** ** Rules *)

Definition rule_fields : list string :=
  ["type"; "domain"; "ip"; "port"; "sourcePort"; "source_port"; "network"; "source"; "protocol"; "attrs"; "outboundTag";
   "outbound_tag"].

Definition short_text (v : any) : bool := match v with AString text => len text <=? 2048 | _ => false end.

Definition validateRuleValue (value : any) : option string :=
  match value with
  | AString text => if 2048 <? len text then Some "string value is too long" else None
  | ASlice items =>
      if maxVLESSRuleValues <? Z.of_nat (length items) then Some "array contains more than 256 values"
      else if forallb short_text items then None
      else Some "array values must be strings up to 2048 bytes"
  | _ => Some "value must be a string or an array of strings"
  end.

(** The loop over the entries of a rule. *)
Fixpoint clean_entries (field : string) (index : Z) (entries : list (string * any)) (clean : gomap) : R gomap :=
  match entries with
  | [] => Ok clean
  | (key, value) :: entries =>
      if negb (one_of key rule_fields) then Err (RuleFieldNotSupported field index key)
      else if key =s "type" then
        match value with
        | AString typeName =>
            if negb (trim_space typeName =s "") && negb (equal_fold_ascii (trim_space typeName) "field")
            then Err (RuleTypeNotField field index)
            else clean_entries field index entries (<["type" := AString "field"]> clean)
        | _ => Err (RuleTypeNotField field index)
        end
      else if one_of key ["outboundTag"; "outbound_tag"] then
        match value with
        | AString tag =>
            if negb (runtimeIdentifier (trim_space tag) 64) then Err (RuleTagInvalid field index key)
            else clean_entries field index entries (<["outbound_tag" := AString (trim_space tag)]> clean)
        | _ => Err (RuleTagInvalid field index key)
        end
      else match validateRuleValue value with
      | Some reason => Err (RuleValueInvalid field index key reason)
      | None => clean_entries field index entries (<[key := value]> clean)
      end
  end.

Section policy.
(** The order of a [range] over a map. *)
Context (range : gomap → list (string * any)).
(** [json.Unmarshal] into a map (a null is the nil map, read as the empty one), and
    [json.Marshal] of one; [None] is their error. *)
Context (unmarshal : string → option gomap) (marshal : gomap → option string).

Definition clean_rule (field : string) (index : Z) (rule : gomap) : R gomap :=
  if Z.of_nat (length rule_fields) <? Z.of_nat (size rule) then Err (RuleTooManyFields field index)
  else
    clean ← clean_entries field index (range rule) ∅;
    Ok (match clean !! "type" with None => <["type" := AString "field"]> clean | Some _ => clean end).

Fixpoint clean_rules (field : string) (index : Z) (items : list any) : R (list gomap) :=
  match items with
  | [] => Ok []
  | AMap rule :: items =>
      clean ← clean_rule field index rule;
      rest ← clean_rules field (index + 1) items;
      Ok (clean :: rest)
  | _ :: _ => Err (RuleNotObject field index)
  end.

Definition validateRules (raw : option any) (field : string) : R (list gomap) :=
  match raw with
  | None | Some ANil => Ok []
  | Some (ASlice items) =>
      if maxVLESSPolicyRules <? Z.of_nat (length items) then Err (TooManyRules field)
      else clean_rules field 0 items
  | Some _ => Err (RulesNotArray field)
  end.

(** ** The policy *)

Definition policy_fields : list string :=
  ["access_mode"; "egress_mode"; "egress_node_id"; "target_instance_id"; "outbound_tag"; "ad_block"; "rules"; "extra_rules"].
Definition access_modes : list string := ["instance_default"; "local_breakout"; "egress_node"; "instance_only"; "block"].
Definition egress_modes : list string := ["default"; "local_breakout"; "egress_node"; "instance_only"; "block"].

(** The switch over the access mode. *)
Definition modes_agree (accessMode egressMode egressNodeID targetInstanceID outboundTag : string) : bool :=
  if accessMode =s "egress_node" then negb (negb (egressMode =s "egress_node") || (egressNodeID =s ""))
  else if accessMode =s "instance_only" then negb (negb (egressMode =s "instance_only") || (targetInstanceID =s ""))
  else if accessMode =s "local_breakout" then egressMode =s "local_breakout"
  else if accessMode =s "block" then negb (negb (egressMode =s "block") || negb (outboundTag =s "block"))
  else if accessMode =s "instance_default" then egressMode =s "default"
  else true.

(** The literal of the normalised policy. *)
Definition policy_map (accessMode egressMode egressNodeID targetInstanceID outboundTag : string) (adBlock : bool)
    (rules extraRules : list gomap) : gomap :=
  <["access_mode" := AString accessMode]> (<["egress_mode" := AString egressMode]>
  (<["egress_node_id" := AString egressNodeID]> (<["target_instance_id" := AString targetInstanceID]>
  (<["outbound_tag" := AString outboundTag]> (<["ad_block" := ABool adBlock]>
  (<["rules" := AMaps rules]> (<["extra_rules" := AMaps extraRules]> ∅))))))).

(** [NormalizeVLESS] from the decoded policy to the map it encodes. *)
Definition normalize_policy (policy : gomap) (externalProvider : bool) : R gomap :=
  match List.find (λ kv, negb (one_of kv.1 policy_fields)) (range policy) with
  | Some (key, _) => Err (FieldNotSupported key)
  | None =>
      accessMode ← policyString policy "access_mode" "instance_default";
      let accessMode := to_lower accessMode in
      egressMode ← policyString policy "egress_mode" "default";
      let egressMode := to_lower egressMode in
      egressNodeID ← policyString policy "egress_node_id" "";
      let egressNodeID := to_lower egressNodeID in
      targetInstanceID ← policyString policy "target_instance_id" "";
      let targetInstanceID := to_lower targetInstanceID in
      outboundTag ← policyString policy "outbound_tag" "direct";
      _ ← guard_err (one_of accessMode access_modes) (UnsupportedAccessMode accessMode);
      _ ← guard_err (one_of egressMode egress_modes) (UnsupportedEgressMode egressMode);
      _ ← guard_err (runtimeIdentifier outboundTag 64) InvalidOutboundTag;
      _ ← guard_err ((egressNodeID =s "") || uuidText egressNodeID) EgressNodeNotUUID;
      _ ← guard_err ((targetInstanceID =s "") || uuidText targetInstanceID) TargetInstanceNotUUID;
      _ ← guard_err (externalProvider || modes_agree accessMode egressMode egressNodeID targetInstanceID outboundTag)
            (ModeMismatch accessMode);
      adBlock ← (match policy !! "ad_block" with
                 | None => Ok false | Some (ABool b) => Ok b | Some _ => Err AdBlockNotBool end);
      rules ← validateRules (policy !! "rules") "rules";
      extraRules ← validateRules (policy !! "extra_rules") "extra_rules";
      Ok (policy_map accessMode egressMode egressNodeID targetInstanceID outboundTag adBlock rules extraRules)
  end.

Definition NormalizeVLESS (raw : string) (externalProvider : bool) : R string :=
  let raw := if len (trim_space raw) =? 0 then "{}" else raw in
  if maxVLESSPolicyBytes <? len raw then Err PolicyTooLarge
  else match unmarshal raw with
  | None => Err InvalidPolicyJSON
  | Some policy =>
      normalized ← normalize_policy policy externalProvider;
      match marshal normalized with Some encoded => Ok encoded | None => Err EncodeFailed end
  end.

(** ** Decoding for the renderer *)

(** The fields of a group that the decoding reads. *)
Record ClientAccessGroup := {
  GroupKey : string; DisplayName : string; Description : string; Status : string; PolicyJSON : string;
  ExternalEgressProfileID : option string }.

Record VLESSAccessPolicy := {
  Key : string; Label : string; PolicyDescription : string; AccessMode : string; EgressMode : string;
  EgressNodeID : string; TargetInstanceID : string; OutboundTag : string; AdBlock : bool;
  Rules : list gomap; ExtraRules : list gomap; PolicyStatus : string; Source : string; Version : Z; DisplayOrder : Z }.

(** A field of the anonymous struct: absent and null keep the zero value. *)
Definition string_field (m : gomap) (key : string) : option string :=
  match m !! key with None | Some ANil => Some "" | Some (AString s) => Some s | Some _ => None end.
Definition bool_field (m : gomap) (key : string) : option bool :=
  match m !! key with None | Some ANil => Some false | Some (ABool b) => Some b | Some _ => None end.
Definition object (v : any) : option gomap := match v with AMap m => Some m | ANil => Some ∅ | _ => None end.
Definition objects_field (m : gomap) (key : string) : option (list gomap) :=
  match m !! key with None | Some ANil => Some [] | Some (ASlice l) => mapM object l | Some _ => None end.

Definition DecodeVLESS (group : ClientAccessGroup) : R VLESSAccessPolicy :=
  let external := match ExternalEgressProfileID group with Some p => negb (trim_space p =s "") | None => false end in
  normalized ← NormalizeVLESS (PolicyJSON group) external;
  match (m ← unmarshal normalized;
         am ← string_field m "access_mode"; em ← string_field m "egress_mode"; en ← string_field m "egress_node_id";
         ti ← string_field m "target_instance_id"; tag ← string_field m "outbound_tag"; ad ← bool_field m "ad_block";
         rs ← objects_field m "rules"; xs ← objects_field m "extra_rules"; Some (am, em, en, ti, tag, ad, rs, xs)) with
  | None => Err DecodeFailed
  | Some (am, em, en, ti, tag, ad, rs, xs) =>
      let key := trim_space (GroupKey group) in
      if key =s "" then Err GroupKeyEmpty
      else
        let label := trim_space (DisplayName group) in
        let label := if label =s "" then key else label in
        Ok {| Key := key; Label := label; PolicyDescription := trim_space (Description group); AccessMode := am;
              EgressMode := em; EgressNodeID := en; TargetInstanceID := ti; OutboundTag := tag; AdBlock := ad;
              Rules := rs; ExtraRules := xs; PolicyStatus := Status group; Source := "client_access_group";
              Version := 1; DisplayOrder := 100 |}
  end.
End policy.
