(* ===== verification/VlessPolicyProps.v ===== *)
(** * What a VLESS access policy satisfies

    The boundary: every policy that [NormalizeVLESS] lets through has only known
    fields, agreeing modes and sound rules; and the stored form of one passes again
    unchanged, whatever the order in which the maps are visited. *)
From S2P Require Import Prelude GoStrings Strconv GoValue VlessPolicy.
From Stdlib Require Import Ascii.
From stdpp Require Import options.
Open Scope Z_scope.

(** ** Sound rules *)

(** The fields of a rule whose values are kept as they are. *)
Definition value_fields : list string :=
  ["domain"; "ip"; "port"; "sourcePort"; "source_port"; "network"; "source"; "protocol"; "attrs"].

Definition value_ok (v : any) : Prop :=
  match v with
  | AString text => len text ≤ 2048
  | ASlice items => Z.of_nat (length items) ≤ maxVLESSRuleValues ∧ ∀ x, x ∈ items → ∃ text, x = AString text ∧ len text ≤ 2048
  | _ => False
  end.

Definition tag_ok (v : any) : Prop := ∃ tag, v = AString tag ∧ trim_space tag = tag ∧ runtimeIdentifier tag 64 = true.

Definition entry_ok (k : string) (v : any) : Prop :=
  k = "type" ∧ v = AString "field" ∨ k = "outbound_tag" ∧ tag_ok v ∨ k ∈ value_fields ∧ value_ok v.

Definition rule_sound (r : gomap) : Prop :=
  r !! "type" = Some (AString "field") ∧ ∀ k v, r !! k = Some v → entry_ok k v.

Lemma validateRuleValue_spec v : validateRuleValue v = None ↔ value_ok v.
Proof.
  destruct v; cbn [validateRuleValue value_ok]; try (split; [discriminate|done]).
  - destruct (Z.ltb_spec 2048 (len s)); (split; intros; first [discriminate|lia|done]).
  - destruct (Z.ltb_spec maxVLESSRuleValues (Z.of_nat (length l))) as [|Hlen]; [split; [discriminate|lia]|].
    assert (forallb short_text l = true ↔ ∀ x, x ∈ l → ∃ text, x = AString text ∧ len text ≤ 2048) as E.
    { rewrite forallb_forall. setoid_rewrite <-list_elem_of_In. split; intros H x Hx; specialize (H x Hx).
      - destruct x; try discriminate H. eexists. split; [done|]. apply Z.leb_le, H.
      - destruct H as (t & -> & Ht). by apply Z.leb_le. }
    destruct (forallb short_text l) eqn:Ef; (split; [intros|]); try done.
    + split; [done|]. by apply E.
    + intros [_ H]. apply E in H. congruence.
Qed.

Lemma one_of_value_fields k :
  one_of k rule_fields = true → (k =s "type") = false → one_of k ["outboundTag"; "outbound_tag"] = false → k ∈ value_fields.
Proof.
  rewrite one_of_spec, one_of_false, String.eqb_neq. intros Hk Ht Ho. unfold rule_fields, value_fields in *.
  rewrite !elem_of_cons in *. naive_solver.
Qed.

Lemma value_field_cases k : k ∈ value_fields →
  one_of k rule_fields = true ∧ (k =s "type") = false ∧ one_of k ["outboundTag"; "outbound_tag"] = false.
Proof.
  unfold value_fields. intros H. rewrite !elem_of_cons in H.
  destruct H as [->|[->|[->|[->|[->|[->|[->|[->|[->|[]%elem_of_nil]]]]]]]]]; done.
Qed.

(** Every entry of a cleaned rule is sound. *)
Lemma clean_entries_ok field index entries clean r :
  clean_entries field index entries clean = Ok r → (∀ k v, clean !! k = Some v → entry_ok k v) →
  ∀ k v, r !! k = Some v → entry_ok k v.
Proof.
  revert clean. induction entries as [|[key value] entries IH]; intros clean; cbn [clean_entries]; [by intros [= ->]|].
  assert (∀ k' v', entry_ok k' v' → (∀ k v, clean !! k = Some v → entry_ok k v) →
    ∀ k v, <[k' := v']> clean !! k = Some v → entry_ok k v) as Hput.
  { intros k' v' H Hc k v [[<- <-]|[_ Hk]]%lookup_insert_Some; [done|by apply Hc]. }
  destruct (one_of key rule_fields) eqn:Ek; [|discriminate]. cbn [negb].
  destruct (key =s "type") eqn:Et.
  - destruct value; try discriminate. destruct (_ && _); [discriminate|]. intros H Hc. eapply IH; [exact H|].
    apply Hput; [by left|done].
  - destruct (one_of key ["outboundTag"; "outbound_tag"]) eqn:Eo.
    + destruct value as [| | | | | |tag| | | | | | | |]; try discriminate.
      destruct (runtimeIdentifier (trim_space tag) 64) eqn:Ei; [|discriminate]. cbn [negb]. intros H Hc.
      eapply IH; [exact H|]. apply Hput; [|done]. right; left. split; [done|]. eexists. split; [done|].
      by rewrite trim_space_idemp.
    + destruct (validateRuleValue value) eqn:Ev; [discriminate|]. intros H Hc. eapply IH; [exact H|].
      apply Hput; [|done]. right; right. split; [by apply one_of_value_fields|by apply validateRuleValue_spec].
Qed.

(** Sound entries are put as they are. *)
Lemma clean_entries_fixed field index entries clean :
  (∀ k v, (k, v) ∈ entries → entry_ok k v) →
  clean_entries field index entries clean = Ok (foldl (λ m kv, <[kv.1 := kv.2]> m) clean entries).
Proof.
  revert clean. induction entries as [|[key value] entries IH]; intros clean H; [done|]. cbn [clean_entries foldl fst snd].
  assert (∀ k v, (k, v) ∈ entries → entry_ok k v) as Htl by (intros; apply H; by right).
  destruct (H key value ltac:(by left)) as [[-> ->]|[[-> (tag & -> & Ht & Hi)]|[Hk Hv]]].
  - by apply IH.
  - change (one_of "outbound_tag" rule_fields) with true. cbn [negb].
    change ("outbound_tag" =s "type") with false. change (one_of "outbound_tag" ["outboundTag"; "outbound_tag"]) with true.
    cbv iota. rewrite Ht, Hi. by apply IH.
  - destruct (value_field_cases key Hk) as (-> & -> & ->). cbn [negb]. apply validateRuleValue_spec in Hv as ->. by apply IH.
Qed.

Lemma foldl_insert_union (l : list (string * any)) (m : gomap) :
  NoDup l.*1 → foldl (λ m kv, <[kv.1 := kv.2]> m) m l = list_to_map l ∪ m.
Proof.
  revert m. induction l as [|[k v] l IH]; intros m Hnd; [by rewrite list_to_map_nil, map_empty_union|].
  cbn [fmap list_fmap fst] in Hnd. apply NoDup_cons in Hnd as [Hk Hnd]. cbn [foldl fst snd]. rewrite IH by done.
  rewrite list_to_map_cons, <-insert_union_l, insert_union_r; [done|].
  by apply not_elem_of_list_to_map_1.
Qed.

Lemma sound_rule_size r : rule_sound r → (size r ≤ length rule_fields)%nat.
Proof.
  intros [_ H]. rewrite <-length_map_to_list, <-(length_fmap fst). apply submseteq_length, NoDup_submseteq.
  - apply NoDup_fst_map_to_list.
  - intros k ([k' v] & -> & Hk%elem_of_map_to_list)%list_elem_of_fmap. cbn [fst].
    destruct (H _ _ Hk) as [[-> _]|[[-> _]|[Hv _]]]; [by left|..]; apply one_of_spec; [done|].
    by apply value_field_cases.
Qed.

Section range.
Context (range : gomap → list (string * any)).
Hypothesis range_entries : ∀ m, range m ≡ₚ map_to_list m.

Lemma clean_rule_sound field index rule r : clean_rule range field index rule = Ok r → rule_sound r.
Proof.
  unfold clean_rule. destruct (_ <? _); [discriminate|].
  destruct (clean_entries _ _ _ _) as [clean|] eqn:E; [|discriminate]. cbn [mbind result_bind].
  pose proof (clean_entries_ok _ _ _ _ _ E ltac:(intros k v Hk; by rewrite lookup_empty in Hk)) as H.
  intros [= <-]. destruct (clean !! "type") as [v|] eqn:Et.
  - split; [|done]. rewrite Et. f_equal.
    destruct (H _ _ Et) as [[_ ->]|[[? _]|[Hk _]]]; [done|discriminate|]. by apply value_field_cases in Hk as (_ & ? & _).
  - split; [by rewrite lookup_insert_eq|]. intros k v [[<- <-]|[_ Hk]]%lookup_insert_Some; [by left|by apply H].
Qed.

Lemma clean_rule_fixed field index r : rule_sound r → clean_rule range field index r = Ok r.
Proof using range_entries.
  intros Hs. pose proof (sound_rule_size r Hs) as Hsize. destruct Hs as [Ht Hs]. unfold clean_rule.
  replace (Z.of_nat (length rule_fields) <? Z.of_nat (size r)) with false by lia.
  rewrite clean_entries_fixed by (intros k v; rewrite range_entries; intros Hk%elem_of_map_to_list; by apply Hs).
  assert (NoDup (range r).*1) as Hnd by (rewrite range_entries; apply NoDup_fst_map_to_list).
  rewrite foldl_insert_union, map_union_empty by done.
  assert (list_to_map (range r) = r) as ->.
  { rewrite (list_to_map_proper _ (map_to_list r) Hnd (range_entries r)). apply list_to_map_to_list. }
  cbn [mbind result_bind]. by rewrite Ht.
Qed.

Lemma clean_rules_sound field index items rs :
  clean_rules range field index items = Ok rs → length rs = length items ∧ Forall rule_sound rs.
Proof.
  revert index rs. induction items as [|item items IH]; intros index rs; cbn [clean_rules]; [by intros [= <-]|].
  destruct item; try discriminate. destruct (clean_rule _ _ _ _) as [r|] eqn:Er; [|discriminate]. cbn [mbind result_bind].
  destruct (clean_rules _ _ _ _) as [rest|] eqn:Es; [|discriminate]. cbn [mbind result_bind]. intros [= <-].
  destruct (IH _ _ Es) as [Hl Hf]. cbn [length]. split; [by f_equal|]. constructor; [by eapply clean_rule_sound|done].
Qed.

Lemma clean_rules_fixed field index rs :
  Forall rule_sound rs → clean_rules range field index (AMap <$> rs) = Ok rs.
Proof using range_entries.
  intros H. revert index. induction H as [|r rs Hr _ IH]; intros index; [done|]. cbn [fmap list_fmap clean_rules].
  rewrite clean_rule_fixed by done. cbn [mbind result_bind]. by rewrite IH.
Qed.

Definition rules_sound (rs : list gomap) : Prop := Z.of_nat (length rs) ≤ maxVLESSPolicyRules ∧ Forall rule_sound rs.

Lemma validateRules_sound raw field rs : validateRules range raw field = Ok rs → rules_sound rs.
Proof.
  unfold validateRules. destruct raw as [v|]; [|by intros [= <-]]. destruct v; try discriminate; [by intros [= <-]|].
  destruct (Z.ltb_spec maxVLESSPolicyRules (Z.of_nat (length l))); [discriminate|].
  intros (Hl & Hf)%clean_rules_sound. split; [|done]. by rewrite Hl.
Qed.

Lemma validateRules_fixed field rs : rules_sound rs → validateRules range (Some (ASlice (AMap <$> rs))) field = Ok rs.
Proof using range_entries.
  intros [Hl Hf]. unfold validateRules. rewrite length_fmap.
  replace (maxVLESSPolicyRules <? Z.of_nat (length rs)) with false by lia. by apply clean_rules_fixed.
Qed.
End range.

(** ** Sound policies *)

(** A text as the policy stores it. *)
Definition lowered (s : string) : Prop := trim_space s = s ∧ to_lower s = s.

(** The access mode and the rest of the policy agree. *)
Definition modes_spec (accessMode egressMode egressNodeID targetInstanceID outboundTag : string) : Prop :=
  accessMode = "egress_node" ∧ egressMode = "egress_node" ∧ egressNodeID ≠ ""
  ∨ accessMode = "instance_only" ∧ egressMode = "instance_only" ∧ targetInstanceID ≠ ""
  ∨ accessMode = "local_breakout" ∧ egressMode = "local_breakout"
  ∨ accessMode = "block" ∧ egressMode = "block" ∧ outboundTag = "block"
  ∨ accessMode = "instance_default" ∧ egressMode = "default".

Record policy_sound (external : bool) (am em en ti tag : string) (rs xs : list gomap) : Prop := {
  ps_access : am ∈ access_modes;
  ps_egress : em ∈ egress_modes;
  ps_node : lowered en ∧ (en = "" ∨ uuidText en = true);
  ps_target : lowered ti ∧ (ti = "" ∨ uuidText ti = true);
  ps_tag : trim_space tag = tag ∧ runtimeIdentifier tag 64 = true;
  ps_modes : external = true ∨ modes_spec am em en ti tag;
  ps_rules : rules_sound rs;
  ps_extra : rules_sound xs }.

Lemma modes_agree_spec am em en ti tag :
  am ∈ access_modes → modes_agree am em en ti tag = true ↔ modes_spec am em en ti tag.
Proof.
  unfold access_modes. rewrite !elem_of_cons. unfold modes_spec.
  intros [->|[->|[->|[->|[->|[]%elem_of_nil]]]]]; unfold modes_agree; cbn;
    repeat match goal with |- context [?a =s ?b] => destruct (String.eqb_spec a b) end; cbn; naive_solver.
Qed.

Lemma policyString_trimmed policy key fallback t :
  policyString policy key fallback = Ok t → trim_space fallback = fallback → trim_space t = t.
Proof.
  unfold policyString. destruct (policy !! key) as [v|]; [|by intros [= <-]].
  destruct v; try discriminate; intros [= <-] Hf; [done|apply trim_space_idemp].
Qed.

Lemma lowered_text t : trim_space t = t → lowered (to_lower t).
Proof. intros H. split; [by apply to_lower_trimmed|apply to_lower_idemp]. Qed.

Section policy.
Context (range : gomap → list (string * any)).

Lemma normalize_policy_sound policy external n :
  normalize_policy range policy external = Ok n →
  ∃ am em en ti tag ad rs xs, n = policy_map am em en ti tag ad rs xs ∧ policy_sound external am em en ti tag rs xs.
Proof.
  unfold normalize_policy. destruct (List.find _ _) as [[? ?]|]; [discriminate|]. intros H.
  apply bind_ok_inv in H as (am & Ham & H). apply bind_ok_inv in H as (em & Hem & H).
  apply bind_ok_inv in H as (en & Hen & H). apply bind_ok_inv in H as (ti & Hti & H).
  apply bind_ok_inv in H as (tag & Htag & H).
  apply bind_ok_inv in H as (? & Ga%guard_err_ok & H). apply bind_ok_inv in H as (? & Ge%guard_err_ok & H).
  apply bind_ok_inv in H as (? & Gt%guard_err_ok & H). apply bind_ok_inv in H as (? & Gn%guard_err_ok & H).
  apply bind_ok_inv in H as (? & Gi%guard_err_ok & H). apply bind_ok_inv in H as (? & Gm%guard_err_ok & H).
  apply bind_ok_inv in H as (ad & _ & H). apply bind_ok_inv in H as (rs & Hrs & H).
  apply bind_ok_inv in H as (xs & Hxs & H). injection H as <-.
  apply one_of_spec in Ga, Ge. apply orb_true_iff in Gn, Gi, Gm. rewrite String.eqb_eq in Gn, Gi.
  eexists _, _, _, _, _, _, _, _. split; [done|]. split; try done.
  - split; [|done]. apply lowered_text. by eapply policyString_trimmed.
  - split; [|done]. apply lowered_text. by eapply policyString_trimmed.
  - split; [|done]. by eapply policyString_trimmed.
  - destruct Gm as [?|Gm]; [by left|right]. by apply modes_agree_spec in Gm.
  - by eapply validateRules_sound.
  - by eapply validateRules_sound.
Qed.

(** A JSON document decodes a slice of objects to a slice of any. *)
Definition decoded (v : any) : any := match v with AMaps l => ASlice (AMap <$> l) | v => v end.
Definition as_read (m : gomap) : gomap := decoded <$> m.

Lemma as_read_fields am em en ti tag ad rs xs :
  let m := as_read (policy_map am em en ti tag ad rs xs) in
  m !! "access_mode" = Some (AString am) ∧ m !! "egress_mode" = Some (AString em)
  ∧ m !! "egress_node_id" = Some (AString en) ∧ m !! "target_instance_id" = Some (AString ti)
  ∧ m !! "outbound_tag" = Some (AString tag) ∧ m !! "ad_block" = Some (ABool ad)
  ∧ m !! "rules" = Some (ASlice (AMap <$> rs)) ∧ m !! "extra_rules" = Some (ASlice (AMap <$> xs)).
Proof.
  cbv zeta. unfold as_read, policy_map. rewrite !lookup_fmap.
  split_and!; repeat first [rewrite lookup_insert_eq; reflexivity | rewrite lookup_insert_ne by discriminate].
Qed.

Lemma as_read_known am em en ti tag ad rs xs k v :
  as_read (policy_map am em en ti tag ad rs xs) !! k = Some v → one_of k policy_fields = true.
Proof.
  unfold as_read, policy_map. rewrite lookup_fmap. intros (w & Hw & _)%fmap_Some.
  repeat (apply lookup_insert_Some in Hw as [[<- _]|[_ Hw]]; [reflexivity|]). by rewrite lookup_empty in Hw.
Qed.

Hypothesis range_entries : ∀ m, range m ≡ₚ map_to_list m.

Lemma normalize_policy_fixed external am em en ti tag ad rs xs :
  policy_sound external am em en ti tag rs xs →
  normalize_policy range (as_read (policy_map am em en ti tag ad rs xs)) external = Ok (policy_map am em en ti tag ad rs xs).
Proof using range_entries.
  intros [Ha He [[Tn Ln] Hn] [[Tt Lt] Ht] [Ttag Htag] Hm Hrs Hxs]. unfold normalize_policy.
  destruct (List.find _ _) as [[k v]|] eqn:Ef.
  { exfalso. apply find_some in Ef as [Hin Hk]. rewrite <-list_elem_of_In, range_entries in Hin.
    apply elem_of_map_to_list, as_read_known in Hin. cbn [fst] in Hk. by rewrite Hin in Hk. }
  destruct (as_read_fields am em en ti tag ad rs xs) as (F1 & F2 & F3 & F4 & F5 & F6 & F7 & F8). unfold policyString.
  rewrite F1, F2, F3, F4, F5, F6, F7, F8. cbn [mbind result_bind].
  assert (lowered am ∧ lowered em) as [[Ta La] [Te Le]].
  { unfold access_modes, egress_modes in *. rewrite !elem_of_cons in Ha, He.
    split; [destruct Ha as [->|[->|[->|[->|[->|[]%elem_of_nil]]]]]|destruct He as [->|[->|[->|[->|[->|[]%elem_of_nil]]]]]];
      split; vm_compute; reflexivity. }
  rewrite Ta, Te, Tn, Tt, Ttag, La, Le, Ln, Lt. apply one_of_spec in Ha as Ha', He as He'. rewrite Ha', He', Htag.
  assert ((en =s "") || uuidText en = true) as -> by (apply orb_true_iff; by rewrite String.eqb_eq).
  assert ((ti =s "") || uuidText ti = true) as -> by (apply orb_true_iff; by rewrite String.eqb_eq).
  assert (external || modes_agree am em en ti tag = true) as ->.
  { apply orb_true_iff. destruct Hm as [?|Hm]; [by left|right]. by apply modes_agree_spec. }
  cbn [guard_err mbind result_bind]. rewrite !(validateRules_fixed range range_entries) by done. done.
Qed.

Context (unmarshal : string → option gomap) (marshal : gomap → option string).

(** What comes out of the boundary is the encoding of a sound policy, made from the
    document that was read. *)
Lemma boundary_inv raw external encoded :
  NormalizeVLESS range unmarshal marshal raw external = Ok encoded →
  ∃ document policy am em en ti tag ad rs xs, unmarshal document = Some policy
    ∧ normalize_policy range policy external = Ok (policy_map am em en ti tag ad rs xs)
    ∧ marshal (policy_map am em en ti tag ad rs xs) = Some encoded ∧ policy_sound external am em en ti tag rs xs.
Proof.
  unfold NormalizeVLESS. cbv zeta. destruct (_ <? _); [discriminate|]. destruct (unmarshal _) as [policy|] eqn:Hu; [|discriminate].
  intros (n & Hn & H)%bind_ok_inv. destruct (marshal n) as [b|] eqn:Hb; [|discriminate]. injection H as <-.
  destruct (normalize_policy_sound _ _ _ Hn) as (am & em & en & ti & tag & ad & rs & xs & -> & Hs).
  by eexists _, policy, am, em, en, ti, tag, ad, rs, xs.
Qed.

(** A blank text is no JSON document, and a policy that came from one survives being
    encoded and decoded. *)
Hypothesis blank_document : ∀ raw, trim_space raw = "" → unmarshal raw = None.
Hypothesis json_round_trip : ∀ raw policy external n encoded,
  unmarshal raw = Some policy → normalize_policy range policy external = Ok n → marshal n = Some encoded →
  unmarshal encoded = Some (as_read n).


Lemma objects_read rs : mapM object (AMap <$> rs) = Some rs.
Proof. induction rs as [|r rs IH]; [done|]. cbn. by rewrite IH. Qed.

(** The struct reads back what the policy holds. *)
Lemma decode_fields am em en ti tag ad rs xs :
  let m := as_read (policy_map am em en ti tag ad rs xs) in
  string_field m "access_mode" = Some am ∧ string_field m "egress_mode" = Some em
  ∧ string_field m "egress_node_id" = Some en ∧ string_field m "target_instance_id" = Some ti
  ∧ string_field m "outbound_tag" = Some tag ∧ bool_field m "ad_block" = Some ad
  ∧ objects_field m "rules" = Some rs ∧ objects_field m "extra_rules" = Some xs.
Proof.
  cbv zeta. destruct (as_read_fields am em en ti tag ad rs xs) as (F1 & F2 & F3 & F4 & F5 & F6 & F7 & F8).
  unfold string_field, bool_field, objects_field. rewrite F1, F2, F3, F4, F5, F6, F7, F8, !objects_read. done.
Qed.

(** C19: the renderer gets a policy for every group whose stored policy passes the
    boundary and whose key is not blank, whatever the row held; it is a sound one under
    the group's key: known modes that agree unless the group leaves through an external
    provider, identifiers and UUIDs where they are asked for, and at most 128 rules
    whose fields, tags and values are within their limits. *)
Theorem vless_decoded_sound (group : ClientAccessGroup) :
  let external := match ExternalEgressProfileID group with Some p => negb (trim_space p =s "") | None => false end in
  match DecodeVLESS range unmarshal marshal group with
  | Ok p =>
      Key p = trim_space (GroupKey group) ∧ Key p ≠ "" ∧ Label p ≠ ""
      ∧ policy_sound external (AccessMode p) (EgressMode p) (EgressNodeID p) (TargetInstanceID p) (OutboundTag p)
          (Rules p) (ExtraRules p)
  | Err e =>
      NormalizeVLESS range unmarshal marshal (PolicyJSON group) external = Err e
      ∨ e = GroupKeyEmpty ∧ trim_space (GroupKey group) = ""
  end.
Proof using json_round_trip.
  intros external. unfold DecodeVLESS. fold external.
  destruct (NormalizeVLESS _ _ _ _ _) as [encoded|e] eqn:En; [|by left]. cbn [mbind result_bind].
  apply boundary_inv in En as (document & policy & am & em & en & ti & tag & ad & rs & xs & Hu0 & Hn & Hb & Hs).
  pose proof (json_round_trip _ _ _ _ _ Hu0 Hn Hb) as Hu.
  destruct (decode_fields am em en ti tag ad rs xs) as (D1 & D2 & D3 & D4 & D5 & D6 & D7 & D8).
  rewrite Hu. cbn [mbind option_bind]. rewrite D1, D2, D3, D4, D5, D6, D7, D8. cbn [mbind option_bind].
  destruct (String.eqb_spec (trim_space (GroupKey group)) "") as [Hk|Hk]; [by right|].
  cbn [Key Label AccessMode EgressMode EgressNodeID TargetInstanceID OutboundTag Rules ExtraRules].
  split; [done|]. split; [done|]. split; [|done]. by destruct (String.eqb_spec (trim_space (DisplayName group)) "").
Qed.
End policy.

(** ** A sample policy *)

Module Sample.
Definition document : string := "{}".
Definition stored : string := "normalised".
Definition default_policy : gomap := policy_map "instance_default" "default" "" "" "direct" false [] [].

(** A decoder and an encoder of the documents of the sample. *)
Definition unmarshal (s : string) : option gomap :=
  if s =s document then Some ∅ else if s =s stored then Some (as_read default_policy) else None.
Definition marshal (m : gomap) : option string :=
  match m !! "access_mode", m !! "egress_mode", m !! "egress_node_id", m !! "target_instance_id", m !! "outbound_tag",
        m !! "ad_block", m !! "rules", m !! "extra_rules" with
  | Some (AString am), Some (AString em), Some (AString en), Some (AString ti), Some (AString tag), Some (ABool false),
    Some (AMaps []), Some (AMaps []) =>
      if (am =s "instance_default") && (em =s "default") && (en =s "") && (ti =s "") && (tag =s "direct")
      then Some stored else None
  | _, _, _, _, _, _, _, _ => None
  end.

Lemma sample_round_trip raw policy external n encoded :
  unmarshal raw = Some policy → normalize_policy map_to_list policy external = Ok n → marshal n = Some encoded →
  unmarshal encoded = Some (as_read n).
Proof.
  intros _ (am & em & en & ti & tag & ad & rs & xs & -> & _)%normalize_policy_sound. unfold marshal.
  unfold policy_map.
  repeat first [rewrite lookup_insert_eq | rewrite lookup_insert_ne by discriminate]. cbv iota.
  destruct ad; [discriminate|]. destruct rs; [|discriminate]. destruct xs; [|discriminate].
  destruct (_ && _) eqn:E; [|discriminate]. rewrite !andb_true_iff, !String.eqb_eq in E.
  destruct E as [[[[-> ->] ->] ->] ->]. intros [= <-]. done.
Qed.

Lemma blank_sample raw : trim_space raw = "" → unmarshal raw = None.
Proof.
  unfold unmarshal. intros H. destruct (String.eqb_spec raw document) as [->|_]; [discriminate H|].
  by destruct (String.eqb_spec raw stored) as [->|_].
Qed.


Definition group : ClientAccessGroup :=
  {| GroupKey := " staff "; DisplayName := ""; Description := ""; Status := "active"; PolicyJSON := "";
     ExternalEgressProfileID := None |}.

Lemma vless_decoded_sound_witness :
  match DecodeVLESS map_to_list unmarshal marshal group with
  | Ok p =>
      Key p = "staff" ∧ Key p ≠ "" ∧ Label p ≠ ""
      ∧ policy_sound false (AccessMode p) (EgressMode p) (EgressNodeID p) (TargetInstanceID p) (OutboundTag p)
          (Rules p) (ExtraRules p)
  | Err e =>
      NormalizeVLESS map_to_list unmarshal marshal "" false = Err e ∨ e = GroupKeyEmpty ∧ trim_space " staff " = ""
  end.
Proof. apply (vless_decoded_sound map_to_list unmarshal marshal sample_round_trip group). Defined.

(** A rule that names its outbound under both spellings is cleaned to either of them,
    as the map is visited. *)
Lemma two_tags_depend_on_order :
  let a := ("outboundTag", AString "direct") in
  let b := ("outbound_tag", AString "block") in
  (λ r, r !! "outbound_tag") <$> clean_entries "rules" 0 [a; b] ∅ = Ok (Some (AString "block"))
  ∧ (λ r, r !! "outbound_tag") <$> clean_entries "rules" 0 [b; a] ∅ = Ok (Some (AString "direct")).
Proof. split; reflexivity. Qed.
End Sample.
