(* ===== verification/EgressText.v ===== *)
(** * Reading provider profiles: lines, names and addresses

    The text functions of [internal/externalegress] and of the standard library
    they rest on: [bufio.Scanner] by lines, [net.ParseIP] and [net.ParseCIDR],
    host names, and the fields of an OpenVPN line. *)
From S2P Require Import Prelude GoStrings Strconv Netip Firewall AgentPaths AgentPathsProps.
From Stdlib Require Import Ascii.
From stdpp Require Import options.
Open Scope Z_scope.

Definition CR : ascii := "013"%char.

(** ** [bufio.Scanner] with [ScanLines] *)

(** A carriage return at the end of a line is dropped. *)
Fixpoint drop_cr (s : string) : string :=
  match s with
  | EmptyString => EmptyString
  | String a EmptyString => if Ascii.eqb a CR then EmptyString else s
  | String a s' => String a (drop_cr s')
  end.

(** The raw lines: what follows the last line feed is a line unless it is empty. *)
Fixpoint raw_lines (pieces : list string) : list string :=
  match pieces with
  | [] => []
  | [last] => if last =s "" then [] else [last]
  | piece :: pieces => piece :: raw_lines pieces
  end.

(** The lines up to the first one that does not fit in the buffer of [max]
    bytes, and whether there was such a line ([bufio.ErrTooLong]). *)
Fixpoint scan_upto (max : Z) (lines : list string) : list string * bool :=
  match lines with
  | [] => ([], false)
  | line :: lines =>
      if Z.of_nat (String.length line) <? max
      then let '(l, long) := scan_upto max lines in (drop_cr line :: l, long)
      else ([], true)
  end.
Definition scan_lines (max : Z) (s : string) : list string * bool :=
  scan_upto max (raw_lines (split_char LF s)).

(** [bufio.MaxScanTokenSize] *)
Definition MaxScanTokenSize : Z := 65536.

Example scan_some : scan_lines 10 (String "a" (String CR (String LF (String LF "bc")))) = (["a"; ""; "bc"], false).
Proof. reflexivity. Qed.
Example scan_end : (scan_lines 10 (String "a" (String LF ""))).1 = ["a"] ∧ (scan_lines 10 "").1 = [].
Proof. repeat split. Qed.
Example scan_long : scan_lines 3 (String "a" (String LF "abc")) = (["a"], true).
Proof. reflexivity. Qed.

(** ** Addresses *)

(** [net.ParseIP]; only whether it gives an address is used. *)
Definition ParseIP (s : string) : option addr :=
  match ParseAddr s with
  | Some a => if zone_of a =s "" then Some a else None
  | None => None
  end.
Definition is_ip (s : string) : bool := match ParseIP s with Some _ => true | None => false end.

(** [net.dtoi] where all of the text is used: decimal digits below [0xFFFFFF]. *)
Fixpoint dtoi_from (acc : Z) (s : string) : option Z :=
  match s with
  | EmptyString => Some acc
  | String a s =>
      if is_digit a then
        let acc := acc * 10 + (byte_val a - 48) in
        if 16777215 <=? acc then None else dtoi_from acc s
      else None
  end.
Definition dtoi (s : string) : option Z := if s =s "" then None else dtoi_from 0 s.

(** [net.ParseCIDR]: the address and the length of the mask. *)
Definition ParseCIDR (s : string) : option (addr * Z) :=
  '(ip, mask) ← cut_char "/" s;
  a ← ParseIP ip;
  n ← dtoi mask;
  if n <=? addr_width a then Some (a, n) else None.
Definition is_cidr (s : string) : bool := match ParseCIDR s with Some _ => true | None => false end.

(** [net.IP.String]: an IPv4 address mapped into IPv6 is printed as IPv4. *)
Definition ip_string (a : addr) : string :=
  match a with
  | V4 n => show_ipv4 n
  | V6 n _ => if is_4in6 n then show_ipv4 (n mod two32) else show_ipv6 n
  end.

Example cidr_some : ParseCIDR "10.0.0.2/08" = Some (V4 167772162, 8) ∧ ParseCIDR "10.0.0.2/33" = None
  ∧ ParseCIDR "10.0.0.2" = None ∧ ParseCIDR "::/0" = Some (V6 0 "", 0).
Proof. repeat split. Qed.

(** ** Host names *)

Definition dns_rune (r : Z) : bool :=
  ((97 <=? r) && (r <=? 122)) || ((65 <=? r) && (r <=? 90)) || ((48 <=? r) && (r <=? 57)) || (r =? 45).

Definition dns_label (label : string) : bool :=
  match label with
  | EmptyString => false
  | String first _ =>
      (String.length label <=? 63)%nat && negb (Ascii.eqb first "-") && negb (has_suffix "-" label)
      && forallb dns_rune (runes label)
  end.

Definition validDNSName (value : string) : bool :=
  let value := trim_suffix "." (trim_space value) in
  negb (value =s "") && (String.length value <=? 253)%nat && forallb dns_label (split_char "." value).

Example dns_some : validDNSName "vpn.example.com." = true ∧ validDNSName "-x.com" = false ∧ validDNSName "a..b" = false
  ∧ validDNSName "a_b" = false ∧ validDNSName "" = false.
Proof. repeat split. Qed.

Definition appendUnique (values : list string) (value : string) : list string :=
  if one_of value values then values else values ++ [value].

(** ** The fields of an OpenVPN line *)

Definition bslash_rune : Z := 92.
Definition quote_mark (r : Z) : bool := (r =? 39) || (r =? 34).

(** The word being read is [cur]; nothing is flushed for an empty one. *)
Definition flush (cur : string) (rest : list string) : list string := if cur =s "" then rest else cur :: rest.

(** [None] is the unterminated escape or quote. *)
Fixpoint openvpn_fields (rs : list Z) (cur : string) (quote : option Z) (escaped : bool) : option (list string) :=
  match rs with
  | [] => if escaped || (match quote with Some _ => true | None => false end) then None else Some (flush cur [])
  | r :: rs =>
      if escaped then openvpn_fields rs (cur +:+ encode r) quote false
      else if r =? bslash_rune then openvpn_fields rs cur quote true
      else match quote with
           | Some q =>
               if r =? q then openvpn_fields rs cur None false
               else openvpn_fields rs (cur +:+ encode r) (Some q) false
           | None =>
               if quote_mark r then openvpn_fields rs cur (Some r) false
               else if (r =? 32) || (r =? 9) then flush cur <$> openvpn_fields rs "" None false
               else openvpn_fields rs (cur +:+ encode r) None false
           end
  end.
Definition splitOpenVPNFields (line : string) : option (list string) := openvpn_fields (runes line) "" None false.

Example fields_quoted : splitOpenVPNFields "remote 'a b' c\ d" = Some ["remote"; "a b"; "c d"]
  ∧ splitOpenVPNFields "x 'y" = None ∧ splitOpenVPNFields "u\p /bin/sh" = Some ["up"; "/bin/sh"].
Proof. repeat split. Qed.

(** [strings.TrimLeft(s, "-")] *)
Definition trim_dashes (s : string) : string := trim_left_set (Ascii.eqb "-") s.

(** The name of an inline tag: [strings.ToLower(strings.Trim(strings.Fields(line)[0], "<>/"))]. *)
Definition tag_name (line : string) : string := to_lower (trim_set "<>/" (default "" (head (fields line)))).

(** [strings.SplitN(s, "=", 2)] with both parts. *)
Definition cut_equals (s : string) : option (string * string) := cut_char "=" s.

(** [strings.IndexFunc(s, unicode.IsControl) >= 0] *)
Definition has_control (s : string) : bool := existsb is_control (runes s).

(** ** Imported text *)

Definition MaxImportedConfigBytes : Z := 1048576.

Definition text_too_long (raw : string) : bool := MaxImportedConfigBytes <? Z.of_nat (String.length raw).

(** ** Texts that begin with ASCII *)

Lemma runes_ascii_app x v : all_bytes ascii_byte x → runes (x +:+ v) = runes x ++ runes v.
Proof.
  induction x as [|a x IH]; [done|]. rewrite all_bytes_cons. unfold ascii_byte. intros [Ha Hx].
  rewrite sapp_cons, !(runes_decode1 (String a _) (byte_val a) _) by (unfold decode1; by rewrite Ha).
  by rewrite IH.
Qed.

(** [v] as the end of a line that begins with a plain word. *)
Lemma trim_space_line x v :
  all_bytes ascii_byte x → no_lead_space x → x ≠ "" → trim_space v = v → v ≠ "" →
  trim_space (x +:+ v) = x +:+ v.
Proof.
  intros Hx Hl Hne [_ Hv]%trim_space_fix Hv0. apply trim_space_fix.
  unfold no_lead_space, no_trail_space in *. rewrite runes_ascii_app by done. split.
  - destruct (runes x) eqn:E; [by apply runes_eq_nil in E|done].
  - destruct (last (runes v)) as [r|] eqn:E; [|by apply last_None, runes_eq_nil in E].
    by rewrite last_app, E.
Qed.

Lemma trim_space_blank v : trim_space v = v → trim_space (" " +:+ v) = v.
Proof.
  intros Hv. change (" " +:+ v) with (String " " v). unfold trim_space.
  by rewrite (trim_left_decode1 _ 32 v).
Qed.

Lemma trim_itoa z : trim_space (itoa z) = itoa z.
Proof.
  apply trim_space_no_space. unfold all_bytes. apply Forall_forall. intros c Hc.
  destruct (itoa_bytes _ _ Hc) as [Hd| ->]; [|done]. revert Hd. unfold no_space, ascii_byte, is_digit.
  intros ?. split_bools. apply andb_true_iff. split; [lia|]. apply negb_true_iff, existsb_false.
  intros r Hr. apply Z.eqb_neq. intros <-. unfold space_runes in Hr. set_unfold. lia.
Qed.

(** A byte that opens no white space and that lower case keeps. *)
Definition firm_byte (c : ascii) : bool :=
  ascii_byte c && negb (is_space (byte_val c)) && (to_lower_rune (byte_val c) =? byte_val c)
  && forallb (λ e, match e with String a _ => negb (Ascii.eqb a c) | EmptyString => true end) space_encodings.

Lemma trim_space_firm c s : firm_byte c = true → ∃ t, trim_space (String c s) = String c t.
Proof.
  unfold firm_byte, ascii_byte. intros H. split_bools. exists (trim_right s).
  unfold trim_space. rewrite (trim_left_decode1 _ (byte_val c) s).
  2:{ unfold decode1. by replace (byte_val c <? 128) with true. }
  replace (is_space (byte_val c)) with false. cbn [trim_right].
  destruct (existsb _ _) eqn:Ex; [|done]. exfalso. apply existsb_exists in Ex as (e & He & Eq%String.eqb_eq).
  pose proof (proj1 (forallb_forall _ _) H0 e He) as Hf. subst e. simpl in Hf. by rewrite Ascii.eqb_refl in Hf.
Qed.

Lemma to_lower_firm c s : firm_byte c = true → ∃ t, to_lower (String c s) = String c t.
Proof.
  unfold firm_byte, ascii_byte. intros H. split_bools. exists (to_lower s). unfold to_lower.
  rewrite (runes_decode1 _ (byte_val c) s); [|unfold decode1; by replace (byte_val c <? 128) with true].
  rewrite fmap_cons. cbn [encode_all foldr]. replace (to_lower_rune (byte_val c)) with (byte_val c) by lia.
  pose proof (byte_val_range c). rewrite encode_ascii by lia. by rewrite byte_chr_val.
Qed.

(** ** Lines without line feeds *)

Lemma drop_cr_bytes c s : c ∈ bytes (drop_cr s) → c ∈ bytes s.
Proof.
  induction s as [|a s IH]; [done|]. cbn [drop_cr]. destruct s as [|b s].
  - destruct (Ascii.eqb a CR); [intros H; by apply elem_of_nil in H|done].
  - rewrite !(bytes_cons a), !elem_of_cons. tauto.
Qed.

Lemma raw_lines_Forall P l : Forall P l → Forall P (raw_lines l).
Proof.
  induction 1 as [|w l Hw Hl IH]; [constructor|]. cbn [raw_lines].
  destruct l; [|by constructor]. destruct (_ =s _); by repeat constructor.
Qed.

Lemma scan_without_LF max s : Forall (λ w, LF ∉ bytes w) (scan_lines max s).1.
Proof.
  unfold scan_lines. pose proof (raw_lines_Forall (λ w, LF ∉ bytes w) (split_char LF s)) as H.
  specialize (H (proj2 (Forall_forall _ _) (split_char_parts LF s))). revert H.
  generalize (raw_lines (split_char LF s)). induction 1 as [|w l Hw Hl IH]; [constructor|]. cbn [scan_upto].
  destruct (_ <? _); [|constructor]. destruct (scan_upto max l) as [r long]. cbn [fst] in *.
  constructor; [|done]. by intros ?%drop_cr_bytes.
Qed.

