(* ===== verification/EgressProfiles.v ===== *)
(** * Provider profiles: what the control plane and the agent accept

    [internal/externalegress]: the parsers of imported OpenVPN, WireGuard,
    L2TP/IPsec, Shadowsocks and VLESS profiles.  The API runs them when a profile
    is stored and the agent again before it renders the runtime from it.  An
    error carries no text.  [net/url.Parse], [encoding/json] and the order of a
    [range] over a map are parameters. *)
From stdpp Require Import gmap.
From S2P Require Import Prelude GoStrings Strconv GoValue Netip NetHost AgentPaths Firewall EgressText.
From Stdlib Require Import Ascii.
From stdpp Require Import options.
Open Scope Z_scope.

Inductive profile_error :=
| ConfigEmpty | ConfigInvalid | ConfigTooLarge | NulByte | LineTooLong
(** OpenVPN, with the number of the line *)
| UnexpectedClose (line : Z) | UnsupportedBlock (line : Z) | UnterminatedQuote (line : Z)
| ForbiddenDirective (directive : string) | RemoteHost | RemoteInvalid | RemotePort | ProtoValue | ProtoUnsupported
| DeviceType | AuthFilePath | BlockNotClosed | NoRemote
(** WireGuard *)
| WGSection | WGLine | WGHook (key : string) | WGFwMark | WGAddress | WGEndpoint | WGEndpointPort | WGEndpointHost
| WGAllowedIPs | WGInterfaces | WGPeers | WGNoEndpoint | WGNoAllowedIPs
(** L2TP/IPsec *)
| L2TPJson | L2TPField (key : string) | L2TPFieldType | L2TPLine (line : Z) | L2TPDuplicate (key : string)
| L2TPAuthMethod | L2TPCIDR | L2TPServer | L2TPProposal | L2TPRemoteID
(** Shadowsocks and VLESS *)
| SSMethod | SSPassword | SSUrl | SSPlugin | SSParameter | SSCredentials | SSEndpoint | SSJson | SSFieldType
| VLUuid | VLUrl | VLParameter | VLInsecure | VLHeader | VLJson | VLField
| VLTransport | VLSecurity | VLServerName | VLSettings | VLEncryption | VLFlow | VLFingerprint | VLHost | VLPath
| VLSpider | VLAlpn | VLRealityKey | VLRealityShortID | VLRealityTransport
| EndpointInvalid.

Notation P := (result profile_error).

Definition NUL_free (raw : string) : bool := negb (contains_char "000" raw).
Definition comment_line (line : string) : bool := has_prefix "#" line || has_prefix ";" line.

(** ** OpenVPN *)

Definition forbiddenOpenVPNDirectives : list string :=
  ["askpass"; "auth-gen-token-secret"; "auth-user-pass-verify"; "cd"; "chroot"; "client-connect"; "client-disconnect";
   "config"; "daemon"; "down"; "down-pre"; "extra-certs"; "group"; "http-proxy-user-pass"; "ipchange"; "iproute";
   "learn-address"; "log"; "log-append"; "management"; "management-client-auth"; "management-client-group";
   "management-client-user"; "plugin"; "route-pre-down"; "route-up"; "pkcs11-id"; "pkcs11-id-management";
   "pkcs11-private-mode"; "pkcs11-providers"; "bind-dev"; "client-crresponse"; "dh"; "engine"; "mark"; "providers";
   "script-security"; "setcon"; "socks-proxy"; "status"; "syslog"; "tls-export-cert"; "tls-verify";
   "tls-crypt-v2-verify"; "tmp-dir"; "up"; "up-delay"; "up-restart"; "user"; "writepid"; "crl-verify"].

Definition managedOpenVPNPathDirectives : list (string * string) :=
  [("ca", "ca_certificate"); ("cert", "certificate"); ("key", "private_key"); ("pkcs12", "pkcs12");
   ("tls-auth", "tls_auth_key"); ("tls-crypt", "tls_crypt_key"); ("tls-crypt-v2", "tls_crypt_v2_key");
   ("secret", "static_key")].

Definition allowedOpenVPNInlineBlocks : list string :=
  ["auth-user-pass"; "ca"; "cert"; "key"; "pkcs12"; "secret"; "tls-auth"; "tls-crypt"; "tls-crypt-v2"].

Definition assoc_get (l : list (string * string)) (key : string) : option string :=
  snd <$> List.find (λ kv, kv.1 =s key) l.

Record OpenVPNPreview := {
  ov_Transport : string; ov_EndpointHost : string; ov_EndpointPort : Z; ov_AuthUserPass : bool;
  (** in the order of their first tags; the code's order is a map's *)
  ov_InlineBlocks : list string; ov_RequiredSecrets : list string }.

(** The scan: the preview so far and the open inline block, if any. *)
Record openvpn_state := { os_preview : OpenVPNPreview; os_open : string }.

Definition set_remote (p : OpenVPNPreview) (host : string) (port : Z) : OpenVPNPreview :=
  {| ov_Transport := ov_Transport p; ov_EndpointHost := host; ov_EndpointPort := port; ov_AuthUserPass := ov_AuthUserPass p;
     ov_InlineBlocks := ov_InlineBlocks p; ov_RequiredSecrets := ov_RequiredSecrets p |}.
Definition set_transport (p : OpenVPNPreview) (t : string) : OpenVPNPreview :=
  {| ov_Transport := t; ov_EndpointHost := ov_EndpointHost p; ov_EndpointPort := ov_EndpointPort p;
     ov_AuthUserPass := ov_AuthUserPass p; ov_InlineBlocks := ov_InlineBlocks p; ov_RequiredSecrets := ov_RequiredSecrets p |}.
Definition set_auth (p : OpenVPNPreview) : OpenVPNPreview :=
  {| ov_Transport := ov_Transport p; ov_EndpointHost := ov_EndpointHost p; ov_EndpointPort := ov_EndpointPort p;
     ov_AuthUserPass := true; ov_InlineBlocks := ov_InlineBlocks p; ov_RequiredSecrets := ov_RequiredSecrets p |}.
Definition add_block (p : OpenVPNPreview) (name : string) : OpenVPNPreview :=
  {| ov_Transport := ov_Transport p; ov_EndpointHost := ov_EndpointHost p; ov_EndpointPort := ov_EndpointPort p;
     ov_AuthUserPass := ov_AuthUserPass p; ov_InlineBlocks := appendUnique (ov_InlineBlocks p) name;
     ov_RequiredSecrets := ov_RequiredSecrets p |}.
Definition add_secret (p : OpenVPNPreview) (purpose : string) : OpenVPNPreview :=
  {| ov_Transport := ov_Transport p; ov_EndpointHost := ov_EndpointHost p; ov_EndpointPort := ov_EndpointPort p;
     ov_AuthUserPass := ov_AuthUserPass p; ov_InlineBlocks := ov_InlineBlocks p;
     ov_RequiredSecrets := appendUnique (ov_RequiredSecrets p) purpose |}.

(** One directive with its arguments. *)
Definition openvpn_directive (p : OpenVPNPreview) (directive : string) (args : list string) : P OpenVPNPreview :=
  if one_of directive forbiddenOpenVPNDirectives then Err (ForbiddenDirective directive)
  else if directive =s "remote" then
    match args with
    | [] => Err RemoteHost
    | host :: more =>
        let host := trim_space host in
        if negb (is_ip host) && negb (validDNSName host) then Err RemoteInvalid
        else if negb (ov_EndpointHost p =s "") then Ok p
        else match more with
             | [] => Ok (set_remote p host (ov_EndpointPort p))
             | port :: _ =>
                 match atoi port with
                 | Some port => if (port <? 1) || (65535 <? port) then Err RemotePort else Ok (set_remote p host port)
                 | None => Err RemotePort
                 end
             end
    end
  else if directive =s "proto" then
    match args with
    | [] => Err ProtoValue
    | proto :: _ =>
        let proto := to_lower proto in
        if has_prefix "udp" proto then Ok (set_transport p "udp")
        else if has_prefix "tcp" proto then Ok (set_transport p "tcp")
        else Err ProtoUnsupported
    end
  else if one_of directive ["dev"; "dev-type"] then
    match args with
    | [] => Ok p
    | dev :: _ => if has_prefix "tun" (to_lower dev) then Ok p else Err DeviceType
    end
  else if directive =s "auth-user-pass" then
    match args with
    | path :: _ => if path =s "[inline]" then Ok (set_auth p) else Err AuthFilePath
    | [] => Ok (set_auth p)
    end
  else match assoc_get managedOpenVPNPathDirectives directive, args with
       | Some purpose, path :: _ => if path =s "[inline]" then Ok p else Ok (add_secret p purpose)
       | _, _ => Ok p
       end.

(** One line of the file. *)
Definition openvpn_line (line_no : Z) (line : string) (st : openvpn_state) : P openvpn_state :=
  let line := trim_space line in
  if (line =s "") || comment_line line then Ok st
  else if has_prefix "<" line then
    let name := tag_name line in
    if has_prefix "</" line then
      if (os_open st =s "") || negb (name =s os_open st) then Err (UnexpectedClose line_no)
      else Ok {| os_preview := os_preview st; os_open := "" |}
    else if negb (one_of name allowedOpenVPNInlineBlocks) || negb (os_open st =s "") then Err (UnsupportedBlock line_no)
    else Ok {| os_preview := add_block (os_preview st) name; os_open := name |}
  else if negb (os_open st =s "") then Ok st
  else match splitOpenVPNFields line with
       | None => Err (UnterminatedQuote line_no)
       | Some [] => Ok st
       | Some (first :: args) =>
           p ← openvpn_directive (os_preview st) (to_lower (trim_dashes first)) args;
           Ok {| os_preview := p; os_open := os_open st |}
       end.

Fixpoint openvpn_lines (line_no : Z) (lines : list string) (st : openvpn_state) : P openvpn_state :=
  match lines with
  | [] => Ok st
  | line :: lines => st ← openvpn_line line_no line st; openvpn_lines (line_no + 1) lines st
  end.

Definition openvpn_start : openvpn_state :=
  {| os_preview := {| ov_Transport := "udp"; ov_EndpointHost := ""; ov_EndpointPort := 1194; ov_AuthUserPass := false;
                      ov_InlineBlocks := []; ov_RequiredSecrets := [] |};
     os_open := "" |}.

Definition ParseOpenVPN (raw : string) : P OpenVPNPreview :=
  guard_err (negb (raw =s "")) ConfigEmpty;;
  guard_err (negb (text_too_long raw)) ConfigTooLarge;;
  guard_err (NUL_free raw) NulByte;;
  let '(lines, long) := scan_lines MaxImportedConfigBytes raw in
  st ← openvpn_lines 1 lines openvpn_start;
  guard_err (negb long) LineTooLong;;
  guard_err (os_open st =s "") BlockNotClosed;;
  let p := os_preview st in
  guard_err (negb (ov_EndpointHost p =s "")) NoRemote;;
  Ok (if ov_AuthUserPass p && negb (one_of "auth-user-pass" (ov_InlineBlocks p)) then add_secret p "username_password" else p).

(** ** WireGuard *)

Record WireGuardPreview := {
  wg_EndpointHost : string; wg_EndpointPort : Z; wg_Addresses : list string; wg_AllowedIPs : list string;
  wg_HasPrivateKey : bool; wg_HasPresharedKey : bool; wg_HasDefaultRoute : bool; wg_RequiredSecrets : list string }.

Record wireguard_state := { ws_preview : WireGuardPreview; ws_section : string; ws_interfaces : Z; ws_peers : Z }.

Definition wireguard_hooks : list string := ["preup"; "postup"; "predown"; "postdown"; "saveconfig"].

Fixpoint checked_cidrs (e : profile_error) (items : list string) : P (list string) :=
  match items with
  | [] => Ok []
  | item :: items =>
      let item := trim_space item in
      guard_err (is_cidr item) e;; rest ← checked_cidrs e items; Ok (item :: rest)
  end.

Definition with_private_key (p : WireGuardPreview) (b : bool) : WireGuardPreview :=
  {| wg_EndpointHost := wg_EndpointHost p; wg_EndpointPort := wg_EndpointPort p; wg_Addresses := wg_Addresses p;
     wg_AllowedIPs := wg_AllowedIPs p; wg_HasPrivateKey := b; wg_HasPresharedKey := wg_HasPresharedKey p;
     wg_HasDefaultRoute := wg_HasDefaultRoute p; wg_RequiredSecrets := wg_RequiredSecrets p |}.
Definition with_preshared_key (p : WireGuardPreview) (b : bool) : WireGuardPreview :=
  {| wg_EndpointHost := wg_EndpointHost p; wg_EndpointPort := wg_EndpointPort p; wg_Addresses := wg_Addresses p;
     wg_AllowedIPs := wg_AllowedIPs p; wg_HasPrivateKey := wg_HasPrivateKey p; wg_HasPresharedKey := b;
     wg_HasDefaultRoute := wg_HasDefaultRoute p; wg_RequiredSecrets := wg_RequiredSecrets p |}.
Definition with_addresses (p : WireGuardPreview) (l : list string) : WireGuardPreview :=
  {| wg_EndpointHost := wg_EndpointHost p; wg_EndpointPort := wg_EndpointPort p; wg_Addresses := wg_Addresses p ++ l;
     wg_AllowedIPs := wg_AllowedIPs p; wg_HasPrivateKey := wg_HasPrivateKey p; wg_HasPresharedKey := wg_HasPresharedKey p;
     wg_HasDefaultRoute := wg_HasDefaultRoute p; wg_RequiredSecrets := wg_RequiredSecrets p |}.
Definition with_allowed_ips (p : WireGuardPreview) (l : list string) : WireGuardPreview :=
  {| wg_EndpointHost := wg_EndpointHost p; wg_EndpointPort := wg_EndpointPort p; wg_Addresses := wg_Addresses p;
     wg_AllowedIPs := wg_AllowedIPs p ++ l; wg_HasPrivateKey := wg_HasPrivateKey p; wg_HasPresharedKey := wg_HasPresharedKey p;
     wg_HasDefaultRoute := wg_HasDefaultRoute p || one_of "0.0.0.0/0" l; wg_RequiredSecrets := wg_RequiredSecrets p |}.
Definition with_endpoint (p : WireGuardPreview) (host : string) (port : Z) : WireGuardPreview :=
  if negb (wg_EndpointHost p =s "") then p
  else {| wg_EndpointHost := host; wg_EndpointPort := port; wg_Addresses := wg_Addresses p; wg_AllowedIPs := wg_AllowedIPs p;
          wg_HasPrivateKey := wg_HasPrivateKey p; wg_HasPresharedKey := wg_HasPresharedKey p;
          wg_HasDefaultRoute := wg_HasDefaultRoute p; wg_RequiredSecrets := wg_RequiredSecrets p |}.

(** The switch on the section and the key. *)
Definition wireguard_value (p : WireGuardPreview) (section key value : string) : P WireGuardPreview :=
  let name := section +:+ "." +:+ key in
  if name =s "interface.privatekey" then Ok (with_private_key p (negb (value =s "")))
  else if name =s "interface.address" then
    l ← checked_cidrs WGAddress (split_char "," value); Ok (with_addresses p l)
  else if name =s "peer.presharedkey" then Ok (with_preshared_key p (negb (value =s "")))
  else if name =s "peer.endpoint" then
    match SplitHostPort value with
    | None => Err WGEndpoint
    | Some (host, port) =>
        match atoi port with
        | None => Err WGEndpointPort
        | Some port =>
            if (port <? 1) || (65535 <? port) then Err WGEndpointPort
            else if negb (is_ip host) && negb (validDNSName host) then Err WGEndpointHost
            else Ok (with_endpoint p host port)
        end
    end
  else if name =s "peer.allowedips" then
    l ← checked_cidrs WGAllowedIPs (split_char "," value); Ok (with_allowed_ips p l)
  else Ok p.

(** [line[1:len(line)-1]] without every bracket around it, lower-cased: the section's name. *)
Definition section_name (line : string) : string := to_lower (trim_space (trim_set "[]" line)).
Definition config_key (part : string) : string := to_lower (trim_space part).

Definition wireguard_line (line : string) (st : wireguard_state) : P wireguard_state :=
  let line := trim_space line in
  if (line =s "") || comment_line line then Ok st
  else if has_prefix "[" line && has_suffix "]" line then
    let section := section_name line in
    guard_err (one_of section ["interface"; "peer"]) WGSection;;
    Ok {| ws_preview := ws_preview st; ws_section := section;
          ws_interfaces := ws_interfaces st + (if section =s "interface" then 1 else 0);
          ws_peers := ws_peers st + (if section =s "peer" then 1 else 0) |}
  else match cut_equals line with
       | None => Err WGLine
       | Some (key, value) =>
           let section := ws_section st in
           guard_err (negb (section =s "")) WGLine;;
           let key := config_key key in
           let value := trim_space value in
           guard_err (negb (one_of key wireguard_hooks)) (WGHook key);;
           guard_err (negb ((section =s "interface") && (key =s "fwmark"))) WGFwMark;;
           p ← wireguard_value (ws_preview st) section key value;
           Ok {| ws_preview := p; ws_section := section; ws_interfaces := ws_interfaces st; ws_peers := ws_peers st |}
       end.

Fixpoint wireguard_lines (lines : list string) (st : wireguard_state) : P wireguard_state :=
  match lines with
  | [] => Ok st
  | line :: lines => st ← wireguard_line line st; wireguard_lines lines st
  end.

Definition wireguard_start : wireguard_state :=
  {| ws_preview := {| wg_EndpointHost := ""; wg_EndpointPort := 0; wg_Addresses := []; wg_AllowedIPs := [];
                      wg_HasPrivateKey := false; wg_HasPresharedKey := false; wg_HasDefaultRoute := false;
                      wg_RequiredSecrets := [] |};
     ws_section := ""; ws_interfaces := 0; ws_peers := 0 |}.

(** The checks after the scan. *)
Definition wireguard_finish (st : wireguard_state) : P WireGuardPreview :=
  guard_err (ws_interfaces st =? 1) WGInterfaces;;
  guard_err (ws_peers st =? 1) WGPeers;;
  let p := ws_preview st in
  let p := if wg_HasPrivateKey p then p else
    {| wg_EndpointHost := wg_EndpointHost p; wg_EndpointPort := wg_EndpointPort p; wg_Addresses := wg_Addresses p;
       wg_AllowedIPs := wg_AllowedIPs p; wg_HasPrivateKey := wg_HasPrivateKey p; wg_HasPresharedKey := wg_HasPresharedKey p;
       wg_HasDefaultRoute := wg_HasDefaultRoute p; wg_RequiredSecrets := wg_RequiredSecrets p ++ ["private_key"] |} in
  guard_err (negb (wg_EndpointHost p =s "")) WGNoEndpoint;;
  guard_err (negb (length (wg_AllowedIPs p) =? 0)%nat) WGNoAllowedIPs;;
  Ok p.

Definition ParseWireGuard (raw : string) : P WireGuardPreview :=
  guard_err (negb (raw =s "")) ConfigEmpty;;
  guard_err (negb (text_too_long raw) && NUL_free raw) ConfigInvalid;;
  let '(lines, long) := scan_lines MaxScanTokenSize raw in
  st ← wireguard_lines lines wireguard_start;
  guard_err (negb long) LineTooLong;;
  wireguard_finish st.

(** ** Endpoints and imported text *)

Definition validateManagedEndpoint (host : string) (port : Z) : P () :=
  let host := trim_space host in
  guard_err (negb ((negb (is_ip host) && negb (validDNSName host)) || (port <? 1) || (65535 <? port))) EndpointInvalid.

Definition splitManagedEndpoint (value : string) : P (string * Z) :=
  match SplitHostPort (trim_space value) with
  | None => Err EndpointInvalid
  | Some (host, port) =>
      match atoi port with
      | None => Err EndpointInvalid
      | Some port => _ ← validateManagedEndpoint host port; Ok (host, port)
      end
  end.

Definition validateImportedText (raw : string) : P string :=
  guard_err (negb (raw =s "")) ConfigEmpty;;
  guard_err (negb (text_too_long raw) && NUL_free raw) ConfigInvalid;;
  Ok (trim_space raw).

Definition firstNonEmpty (values : list string) : string := first values.

(** ** L2TP/IPsec *)

Record L2TPIPsecPreview := {
  l2_EndpointHost : string; l2_AuthMethod : string; l2_RemoteID : string; l2_IKEProposal : string; l2_ESPProposal : string;
  l2_RequiredSecrets : list string; l2_Warnings : list string; l2_Username : string; l2_Password : string; l2_PSK : string }.

Definition l2tp_secret_keys : list string :=
  ["username"; "user"; "name"; "password"; "pass"; "preshared_key"; "pre_shared_key"; "psk"; "ipsec_psk"].
Definition allowedL2TPIPsecKey (key : string) : bool :=
  one_of key (["server"; "endpoint"; "host"; "address"; "auth_method"; "ipsec_auth"; "auth"; "remote_id"; "rightid"]
              ++ l2tp_secret_keys ++ ["ike"; "ike_proposal"; "esp"; "esp_proposal"]).
Definition l2tpIPsecSecretKey (key : string) : bool := one_of key l2tp_secret_keys.

Notation values := (gmap string string).

Fixpoint firstMapValue (m : values) (keys : list string) : string :=
  match keys with
  | [] => ""
  | key :: keys =>
      let value := trim_space (default "" (m !! key)) in
      if value =s "" then firstMapValue m keys else value
  end.
Fixpoint firstMapSecretValue (m : values) (keys : list string) : string :=
  match keys with
  | [] => ""
  | key :: keys =>
      let value := default "" (m !! key) in
      if value =s "" then firstMapSecretValue m keys else value
  end.

Definition normalizeL2TPIPsecAuthMethod (value : string) : string :=
  let value := to_lower (trim_space value) in
  if one_of value [""; "psk"; "pre_shared_key"; "preshared_key"] then "psk"
  else if one_of value ["certificate"; "cert"; "public_key"] then "certificate"
  else "".

Definition normalizeL2TPIPsecEndpoint (value : string) : P string :=
  let value := trim_space value in
  match ParseCIDR value with
  | Some (a, ones) => guard_err (ones =? addr_width a) L2TPCIDR;; Ok (ip_string a)
  | None => _ ← map_err (λ _, L2TPServer) (validateManagedEndpoint value 1701); Ok value
  end.

Definition safeIPsecRemoteID (value : string) : bool :=
  let value := trim_space (trim_prefix "@" value) in validDNSName value || is_ip value.

Definition proposal_rune (r : Z) : bool := dns_rune r || (r =? 95) || (r =? 44).
Definition safeIPsecProposalList (value : string) : bool :=
  negb (value =s "") && (String.length value <=? 512)%nat && forallb proposal_rune (runes value).

(** The object's fields, in the order of the range. *)
Fixpoint l2tp_object (fields : list (string * any)) (m : values) : P values :=
  match fields with
  | [] => Ok m
  | (key, value) :: fields =>
      let key := to_lower (trim_space key) in
      guard_err (allowedL2TPIPsecKey key) (L2TPField key);;
      match value with
      | AString text => l2tp_object fields (<[key := if l2tpIPsecSecretKey key then text else trim_space text]> m)
      | _ => Err L2TPFieldType
      end
  end.

(** The lines of a [key=value] file; a key may be given once. *)
Fixpoint l2tp_lines (line_no : Z) (lines : list string) (m : values) : P values :=
  match lines with
  | [] => Ok m
  | line :: lines =>
      let line := trim_space line in
      if (line =s "") || comment_line line then l2tp_lines (line_no + 1) lines m
      else match cut_equals line with
           | None => Err (L2TPLine line_no)
           | Some (key, value) =>
               let key := to_lower (trim_space key) in
               guard_err (allowedL2TPIPsecKey key) (L2TPField key);;
               match m !! key with
               | Some _ => Err (L2TPDuplicate key)
               | None => l2tp_lines (line_no + 1) lines (<[key := trim_space value]> m)
               end
           end
  end.

Definition default_ike : string := "aes256-sha256-modp2048,aes256-sha1-modp2048".
Definition default_esp : string := "aes256-sha256,aes256-sha1,aes128-sha1".

(** What the collected values give. *)
Definition l2tp_preview (m : values) : P L2TPIPsecPreview :=
  let auth := normalizeL2TPIPsecAuthMethod (firstMapValue m ["auth_method"; "ipsec_auth"; "auth"]) in
  guard_err (negb (auth =s "")) L2TPAuthMethod;;
  let remote_id := firstMapValue m ["remote_id"; "rightid"] in
  let username := firstMapSecretValue m ["username"; "user"; "name"] in
  let password := firstMapSecretValue m ["password"; "pass"] in
  let psk := firstMapSecretValue m ["preshared_key"; "pre_shared_key"; "psk"; "ipsec_psk"] in
  let ike := firstNonEmpty [firstMapValue m ["ike"; "ike_proposal"]; default_ike] in
  let esp := firstNonEmpty [firstMapValue m ["esp"; "esp_proposal"]; default_esp] in
  host ← normalizeL2TPIPsecEndpoint (firstMapValue m ["server"; "endpoint"; "host"; "address"]);
  guard_err (safeIPsecProposalList ike && safeIPsecProposalList esp) L2TPProposal;;
  guard_err ((remote_id =s "") || safeIPsecRemoteID remote_id) L2TPRemoteID;;
  Ok {| l2_EndpointHost := host; l2_AuthMethod := auth; l2_RemoteID := remote_id; l2_IKEProposal := ike; l2_ESPProposal := esp;
        l2_RequiredSecrets :=
          (if username =s "" then ["username"] else []) ++ (if password =s "" then ["password"] else [])
          ++ (if (auth =s "psk") && (psk =s "") then ["preshared_key"] else [])
          ++ (if auth =s "certificate" then ["ca_certificate"; "certificate"; "private_key"] else []);
        l2_Warnings := if contains_sub "modp1024" ike then ["modp1024 is retained only as a legacy provider fallback"] else [];
        l2_Username := username; l2_Password := password; l2_PSK := psk |}.

(** ** Values of an imported JSON object *)

Fixpoint firstImportedString (value : gomap) (keys : list string) : string :=
  match keys with
  | [] => ""
  | key :: keys =>
      match value !! key with
      | Some (AString text) => if trim_space text =s "" then firstImportedString value keys else trim_space text
      | _ => firstImportedString value keys
      end
  end.
Fixpoint firstImportedSecretString (value : gomap) (keys : list string) : string :=
  match keys with
  | [] => ""
  | key :: keys =>
      match value !! key with
      | Some (AString text) => if text =s "" then firstImportedSecretString value keys else text
      | _ => firstImportedSecretString value keys
      end
  end.
Fixpoint firstImportedInt (value : gomap) (keys : list string) : Z :=
  match keys with
  | [] => 0
  | key :: keys =>
      match value !! key with
      | Some (AFloat64 item) => int_of_float item
      | Some (AString item) => match atoi (trim_space item) with Some z => z | None => firstImportedInt value keys end
      | _ => firstImportedInt value keys
      end
  end.

(** [typed == float64(int(typed))] and [math.Trunc(typed) == typed] *)
Definition float_is_int (f : spec_float) : bool := float_is f (int_of_float f).
Definition float_is_whole (f : spec_float) : bool :=
  match f with S754_finite _ m e => whole_mag m e | S754_nan => false | S754_zero _ | S754_infinity _ => true end.

(** ** Base64 *)

Definition base64_digit (url : bool) (c : ascii) : option Z :=
  let z := byte_val c in
  if (65 <=? z) && (z <=? 90) then Some (z - 65)
  else if (97 <=? z) && (z <=? 122) then Some (z - 71)
  else if (48 <=? z) && (z <=? 57) then Some (z + 4)
  else if Ascii.eqb c (if url then "-" else "+")%char then Some 62
  else if Ascii.eqb c (if url then "_" else "/")%char then Some 63
  else None.

(** [encoding.DecodeString] without the line breaks, which it skips: groups of
    four digits, the last one padded or, without padding, shorter. *)
Fixpoint base64_groups (url padded : bool) (cs : list ascii) : option string :=
  let digit := base64_digit url in
  match cs with
  | [] => Some ""
  | [_] => None
  | [a; b] =>
      if padded then None else
      x ← digit a; y ← digit b; Some (String (byte_chr (x * 4 + y / 16)) "")
  | [a; b; c] =>
      if padded then None else
      x ← digit a; y ← digit b; z ← digit c;
      Some (String (byte_chr (x * 4 + y / 16)) (String (byte_chr ((y mod 16) * 16 + z / 4)) ""))
  | a :: b :: c :: d :: rest =>
      x ← digit a; y ← digit b;
      match digit c, digit d with
      | Some z, Some w =>
          tail ← base64_groups url padded rest;
          Some (String (byte_chr (x * 4 + y / 16))
                  (String (byte_chr ((y mod 16) * 16 + z / 4)) (String (byte_chr ((z mod 4) * 64 + w)) tail)))
      | Some z, None =>
          if padded && Ascii.eqb d "=" && (length rest =? 0)%nat
          then Some (String (byte_chr (x * 4 + y / 16)) (String (byte_chr ((y mod 16) * 16 + z / 4)) ""))
          else None
      | None, _ =>
          if padded && Ascii.eqb c "=" && Ascii.eqb d "=" && (length rest =? 0)%nat
          then Some (String (byte_chr (x * 4 + y / 16)) "")
          else None
      end
  end.
Definition base64_decode (url padded : bool) (s : string) : option string :=
  base64_groups url padded (List.filter (λ c, negb (Ascii.eqb c LF || Ascii.eqb c CR)) (bytes s)).

(** [strings.SplitN(s, c, 2)[0]] *)
Definition before (c : ascii) (s : string) : string := match cut_char c s with Some (l, _) => l | None => s end.

Definition decodeURLBase64 (value : string) : option string :=
  let value := trim_space (before "#" (before "?" value)) in
  match base64_decode true false value with
  | Some s => Some s
  | None =>
      match base64_decode true true value with
      | Some s => Some s
      | None =>
          match base64_decode false false value with
          | Some s => Some s
          | None => base64_decode false true value
          end
      end
  end.

Example base64_some : decodeURLBase64 "YWVzLTI1Ni1nY206cHc=#x" = Some "aes-256-gcm:pw" ∧ decodeURLBase64 "YQ" = Some "a"
  ∧ decodeURLBase64 "Y" = None.
Proof. repeat split. Qed.

Section parsers.
(** [net/url.Parse], reduced to what is used of its result; [json.Unmarshal] into
    a map ([null] gives an empty one); the order of a [range] over a map. *)
Record url := {
  url_Scheme : string; url_Host : string; url_Hostname : string; url_Port : string;
  (** [User.String()] and [User.Username()] *)
  url_User : option (string * string);
  url_Query : gmap string (list string) }.
Context (url_Parse : string → option url) (json_object : string → option gomap)
        (order : gomap → list (string * any)) (query_unescape : string → option string).

Definition query_get (u : url) (key : string) : string := default "" (head (default [] (url_Query u !! key))).
Definition query_keys (u : url) : list string := (map_to_list (url_Query u)).*1.

Definition ParseL2TPIPsec (raw : string) : P L2TPIPsecPreview :=
  content ← validateImportedText raw;
  m ← (if has_prefix "{" content then
         match json_object content with
         | None => Err L2TPJson
         | Some object => l2tp_object (order object) ∅
         end
       else l2tp_lines 1 (split_char LF content) ∅);
  l2tp_preview m.

(** ** Shadowsocks *)

Record ShadowsocksPreview := {
  ss_EndpointHost : string; ss_EndpointPort : Z; ss_Method : string; ss_Password : string; ss_RequiredSecrets : list string }.

Definition supportedShadowsocksMethods : list string :=
  ["2022-blake3-aes-128-gcm"; "2022-blake3-aes-256-gcm"; "2022-blake3-chacha20-poly1305"; "aes-128-gcm"; "aes-256-gcm";
   "chacha20-poly1305"; "chacha20-ietf-poly1305"; "xchacha20-poly1305"; "xchacha20-ietf-poly1305"].

(** The credentials and the endpoint of the URL. *)
Definition shadowsocks_authority (content : string) (u : url) : P (string * string) :=
  match url_User u with
  | Some (userinfo, _) => Ok (userinfo, url_Host u)
  | None =>
      match decodeURLBase64 (trim_prefix "ss://" content) with
      | None => Err SSCredentials
      | Some decoded =>
          match cut_last "@" (before "#" decoded) with
          | Some (EmptyString, _) | None => Err SSCredentials
          | Some (userinfo, hostport) => Ok (userinfo, hostport)
          end
      end
  end.

Definition parseShadowsocksURL (content : string) : P ShadowsocksPreview :=
  match url_Parse content with
  | None => Err SSUrl
  | Some u =>
      guard_err (equal_fold_ascii (url_Scheme u) "ss") SSUrl;;
      guard_err (trim_space (query_get u "plugin") =s "") SSPlugin;;
      guard_err (forallb (λ key, key =s "plugin") (query_keys u)) SSParameter;;
      '(userinfo, hostport) ← shadowsocks_authority content u;
      let userinfo := default userinfo (query_unescape userinfo) in
      userinfo ← (if contains_char ":" userinfo then Ok userinfo
                  else match decodeURLBase64 userinfo with Some d => Ok d | None => Err SSCredentials end);
      match cut_char ":" userinfo with
      | None => Err SSCredentials
      | Some (method, password) =>
          guard_err (negb (trim_space method =s "") && negb (password =s "")) SSCredentials;;
          '(host, port) ← map_err (λ _, SSEndpoint) (splitManagedEndpoint hostport);
          Ok {| ss_EndpointHost := host; ss_EndpointPort := port; ss_Method := to_lower (trim_space method);
                ss_Password := password; ss_RequiredSecrets := [] |}
      end
  end.

Definition is_string (v : any) : bool := match v with AString _ => true | _ => false end.

Definition shadowsocks_field (key : string) (item : any) : P () :=
  if one_of key ["server"; "address"; "host"; "method"; "cipher"; "password"] then guard_err (is_string item) SSFieldType
  else if one_of key ["server_port"; "port"] then
    match item with
    | AString _ => Ok tt
    | AFloat64 f => guard_err (float_is_int f) SSFieldType
    | _ => Err SSFieldType
    end
  else if one_of key ["plugin"; "plugin_opts"] then Err SSPlugin
  else Err SSParameter.

Fixpoint check_fields (check : string → any → P ()) (fields : list (string * any)) : P () :=
  match fields with
  | [] => Ok tt
  | (key, item) :: fields => _ ← check key item; check_fields check fields
  end.

Definition present (value : gomap) (key : string) : bool :=
  match value !! key with None | Some ANil => false | Some _ => true end.

Definition parseShadowsocksJSON (content : string) : P ShadowsocksPreview :=
  match json_object content with
  | None => Err SSJson
  | Some value =>
      guard_err (negb (present value "plugin") && negb (present value "plugin_opts")) SSPlugin;;
      _ ← check_fields shadowsocks_field (order value);
      let host := firstImportedString value ["server"; "address"; "host"] in
      let port := firstImportedInt value ["server_port"; "port"] in
      _ ← validateManagedEndpoint host port;
      Ok {| ss_EndpointHost := host; ss_EndpointPort := port;
            ss_Method := to_lower (firstImportedString value ["method"; "cipher"]);
            ss_Password := firstImportedSecretString value ["password"]; ss_RequiredSecrets := [] |}
  end.

Definition ParseShadowsocks (raw : string) : P ShadowsocksPreview :=
  content ← validateImportedText raw;
  p ← (if has_prefix "ss://" (to_lower content) then parseShadowsocksURL content else parseShadowsocksJSON content);
  guard_err (one_of (ss_Method p) supportedShadowsocksMethods) SSMethod;;
  if ss_Password p =s "" then
    Ok {| ss_EndpointHost := ss_EndpointHost p; ss_EndpointPort := ss_EndpointPort p; ss_Method := ss_Method p;
          ss_Password := ss_Password p; ss_RequiredSecrets := ["password"] |}
  else
    guard_err ((String.length (ss_Password p) <=? N.to_nat 4096)%nat && negb (has_control (ss_Password p))) SSPassword;;
    Ok p.

(** ** VLESS *)

Record VLESSPreview := {
  vl_Transport : string; vl_EndpointHost : string; vl_EndpointPort : Z; vl_Security : string; vl_ServerName : string;
  vl_Flow : string; vl_Fingerprint : string; vl_Path : string; vl_Host : string; vl_ServiceName : string;
  vl_PublicKey : string; vl_ShortID : string; vl_SpiderX : string; vl_ALPN : list string; vl_Encryption : string;
  vl_UUID : string }.

(** The patterns: a text of the five groups of a UUID, with its version and variant. *)
Definition uuid_pattern (hex : ascii → bool) (variants : string) (s : string) : bool :=
  match split_char "-" s with
  | [a; b; c; d; e] =>
      bool_decide (String.length <$> [a; b; c; d; e] = [8; 4; 4; 4; 12]%nat)
      && forallb hex (bytes (a +:+ b +:+ c +:+ d +:+ e))
      && match c, d with
         | String v _, String w _ => contains_char v "12345" && contains_char w variants
         | _, _ => false
         end
  | _ => false
  end.
Definition managedVLESSUUIDPattern : string → bool := uuid_pattern is_hex_any "89abAB".

Definition alnum_byte (c : ascii) : bool :=
  let z := byte_val c in ((97 <=? z) && (z <=? 122)) || ((65 <=? z) && (z <=? 90)) || ((48 <=? z) && (z <=? 57)).
(** [^[class]{min,max}$] *)
Definition class_pattern (class : ascii → bool) (min max : nat) (s : string) : bool :=
  (min <=? String.length s)%nat && (String.length s <=? max)%nat && forallb class (bytes s).
Definition managedVLESSFingerprintPattern : string → bool := class_pattern (λ c, alnum_byte c || Ascii.eqb c "-") 1 32.
Definition managedVLESSRealityKeyPattern : string → bool :=
  class_pattern (λ c, alnum_byte c || Ascii.eqb c "_" || Ascii.eqb c "-") 32 64.
Definition managedVLESSShortIDPattern : string → bool := class_pattern is_hex_any 2 16.

Definition nonblank (values : list string) : list string :=
  List.filter (λ v, negb (v =s "")) (trim_space <$> values).
Definition splitVLESSALPN (value : string) : list string := nonblank (split_char "," value).
Definition parseVLESSALPNValue (value : option any) : list string :=
  match value with
  | Some (AString typed) => splitVLESSALPN typed
  | Some (ASlice typed) => nonblank (omap (λ v, match v with AString s => Some s | _ => None end) typed)
  | _ => []
  end.

(** [vless -> tcp], another name of the transport. *)
Definition vless_transport (values : list string) : string :=
  let t := to_lower (firstNonEmpty (values ++ ["tcp"])) in if t =s "raw" then "tcp" else t.

Definition vless_query_keys : list string :=
  ["type"; "network"; "security"; "sni"; "serverName"; "flow"; "fp"; "path"; "host"; "serviceName"; "service_name"; "pbk";
   "publicKey"; "password"; "sid"; "shortId"; "spx"; "spiderX"; "alpn"; "headerType"; "encryption"; "allowInsecure"].

Definition parseVLESSURL (content : string) : P VLESSPreview :=
  match url_Parse content with
  | Some u =>
      match url_User u with
      | None => Err VLUrl
      | Some (_, username) =>
          guard_err (equal_fold_ascii (url_Scheme u) "vless") VLUrl;;
          let port := if url_Port u =s "" then 0 else firstImportedInt {["port" := AString (url_Port u)]} ["port"] in
          let q := query_get u in
          let p := {| vl_Transport := vless_transport [q "type"; q "network"]; vl_EndpointHost := url_Hostname u;
                      vl_EndpointPort := port; vl_Security := to_lower (firstNonEmpty [q "security"; "tls"]);
                      vl_ServerName := firstNonEmpty [q "sni"; q "serverName"]; vl_Flow := trim_space (q "flow");
                      vl_Fingerprint := trim_space (q "fp"); vl_Path := trim_space (q "path"); vl_Host := trim_space (q "host");
                      vl_ServiceName := firstNonEmpty [q "serviceName"; q "service_name"];
                      vl_PublicKey := firstNonEmpty [q "pbk"; q "publicKey"; q "password"];
                      vl_ShortID := firstNonEmpty [q "sid"; q "shortId"]; vl_SpiderX := firstNonEmpty [q "spx"; q "spiderX"];
                      vl_ALPN := splitVLESSALPN (q "alpn"); vl_Encryption := firstNonEmpty [q "encryption"; "none"];
                      vl_UUID := username |} in
          guard_err (forallb (λ key, one_of key vless_query_keys) (query_keys u)) VLParameter;;
          guard_err (negb (equal_fold_ascii (q "allowInsecure") "1" || equal_fold_ascii (q "allowInsecure") "true")) VLInsecure;;
          guard_err ((trim_space (q "headerType") =s "") || equal_fold_ascii (trim_space (q "headerType")) "none") VLHeader;;
          _ ← validateManagedEndpoint (vl_EndpointHost p) (vl_EndpointPort p);
          Ok p
      end
  | None => Err VLUrl
  end.

Definition vless_string_fields : list string :=
  ["address"; "server"; "host"; "id"; "uuid"; "network"; "type"; "transport"; "security"; "server_name"; "serverName"; "sni";
   "flow"; "fingerprint"; "fp"; "path"; "ws_host"; "host_header"; "service_name"; "serviceName"; "public_key"; "publicKey";
   "pbk"; "reality_password"; "short_id"; "shortId"; "sid"; "spider_x"; "spiderX"; "encryption"].

Definition vless_field (key : string) (item : any) : P () :=
  if one_of key vless_string_fields then guard_err (is_string item) VLField
  else if one_of key ["port"; "server_port"] then
    match item with
    | AString _ => Ok tt
    | AFloat64 f => guard_err (float_is_whole f) VLField
    | _ => Err VLField
    end
  else if one_of key ["allow_insecure"; "allowInsecure"] then match item with ABool _ => Ok tt | _ => Err VLField end
  else if key =s "alpn" then
    match item with
    | AString _ => Ok tt
    | ASlice typed => guard_err (forallb is_string typed) VLField
    | _ => Err VLField
    end
  else Err VLParameter.

Definition is_true (v : option any) : bool := match v with Some (ABool true) => true | _ => false end.

Definition parseVLESSJSON (content : string) : P VLESSPreview :=
  match json_object content with
  | None => Err VLJson
  | Some value =>
      _ ← check_fields vless_field (order value);
      let s := firstImportedString value in
      let p := {| vl_Transport := vless_transport [s ["network"; "type"; "transport"]];
                  vl_EndpointHost := s ["address"; "server"; "host"]; vl_EndpointPort := firstImportedInt value ["port"; "server_port"];
                  vl_Security := to_lower (firstNonEmpty [s ["security"]; "tls"]);
                  vl_ServerName := s ["server_name"; "serverName"; "sni"]; vl_Flow := s ["flow"];
                  vl_Fingerprint := s ["fingerprint"; "fp"]; vl_Path := s ["path"]; vl_Host := s ["ws_host"; "host_header"];
                  vl_ServiceName := s ["service_name"; "serviceName"];
                  vl_PublicKey := s ["public_key"; "publicKey"; "pbk"; "reality_password"];
                  vl_ShortID := s ["short_id"; "shortId"; "sid"]; vl_SpiderX := s ["spider_x"; "spiderX"];
                  vl_ALPN := parseVLESSALPNValue (value !! "alpn"); vl_Encryption := firstNonEmpty [s ["encryption"]; "none"];
                  vl_UUID := s ["id"; "uuid"] |} in
      guard_err (negb (is_true (value !! "allow_insecure"))) VLInsecure;;
      guard_err (negb (is_true (value !! "allowInsecure"))) VLInsecure;;
      _ ← validateManagedEndpoint (vl_EndpointHost p) (vl_EndpointPort p);
      Ok p
  end.

Definition safeVLESSValue (value : string) (maxLength : N) : bool :=
  (N.of_nat (String.length value) <=? maxLength)%N && negb (has_control value).

Definition validateVLESSPreview (p : VLESSPreview) : P () :=
  guard_err (one_of (vl_Transport p) ["tcp"; "ws"; "grpc"; "httpupgrade"; "xhttp"]) VLTransport;;
  guard_err (one_of (vl_Security p) ["tls"; "reality"]) VLSecurity;;
  guard_err (negb (vl_ServerName p =s "")) VLServerName;;
  guard_err (is_ip (vl_ServerName p) || validDNSName (vl_ServerName p)) VLServerName;;
  guard_err (safeVLESSValue (vl_Flow p) 64 && safeVLESSValue (vl_Fingerprint p) 32 && safeVLESSValue (vl_Path p) 2048
             && safeVLESSValue (vl_Host p) 255 && safeVLESSValue (vl_ServiceName p) 512 && safeVLESSValue (vl_SpiderX p) 2048)
            VLSettings;;
  guard_err (vl_Encryption p =s "none") VLEncryption;;
  guard_err (one_of (vl_Flow p) [""; "xtls-rprx-vision"; "xtls-rprx-vision-udp443"]) VLFlow;;
  guard_err ((vl_Fingerprint p =s "") || managedVLESSFingerprintPattern (vl_Fingerprint p)) VLFingerprint;;
  guard_err ((vl_Host p =s "") || is_ip (vl_Host p) || validDNSName (vl_Host p)) VLHost;;
  guard_err ((vl_Path p =s "") || has_prefix "/" (vl_Path p)) VLPath;;
  guard_err ((vl_SpiderX p =s "") || has_prefix "/" (vl_SpiderX p)) VLSpider;;
  guard_err (forallb (λ protocol, one_of protocol ["h2"; "http/1.1"; "h3"]) (vl_ALPN p)) VLAlpn;;
  if vl_Security p =s "reality" then
    guard_err (negb (vl_PublicKey p =s "")) VLRealityKey;;
    guard_err (managedVLESSRealityKeyPattern (vl_PublicKey p)) VLRealityKey;;
    guard_err ((vl_ShortID p =s "")
               || (managedVLESSShortIDPattern (vl_ShortID p) && Nat.even (String.length (vl_ShortID p)))) VLRealityShortID;;
    guard_err (negb (one_of (vl_Transport p) ["ws"; "httpupgrade"])) VLRealityTransport
  else Ok tt.

Definition with_server_name (p : VLESSPreview) (name : string) : VLESSPreview :=
  {| vl_Transport := vl_Transport p; vl_EndpointHost := vl_EndpointHost p; vl_EndpointPort := vl_EndpointPort p;
     vl_Security := vl_Security p; vl_ServerName := name; vl_Flow := vl_Flow p; vl_Fingerprint := vl_Fingerprint p;
     vl_Path := vl_Path p; vl_Host := vl_Host p; vl_ServiceName := vl_ServiceName p; vl_PublicKey := vl_PublicKey p;
     vl_ShortID := vl_ShortID p; vl_SpiderX := vl_SpiderX p; vl_ALPN := vl_ALPN p; vl_Encryption := vl_Encryption p;
     vl_UUID := vl_UUID p |}.

Definition ParseVLESS (raw : string) : P VLESSPreview :=
  content ← validateImportedText raw;
  p ← (if has_prefix "vless://" (to_lower content) then parseVLESSURL content else parseVLESSJSON content);
  let p := if (vl_ServerName p =s "") && negb (is_ip (vl_EndpointHost p)) then with_server_name p (vl_EndpointHost p) else p in
  guard_err ((vl_UUID p =s "") || managedVLESSUUIDPattern (vl_UUID p)) VLUuid;;
  _ ← validateVLESSPreview p;
  Ok p.
End parsers.
