(* ===== verification/EgressRender.v ===== *)
(** * External egress on the agent: the job and its files

    [cmd/agent/external_egress.go]: decoding the job, rendering the provider's
    profile into the configuration of a managed tunnel (OpenVPN, WireGuard,
    L2TP/IPsec, or Xray for VLESS and Shadowsocks), the policy-routing script and
    the unit, and the allow-list of the files a deployment may write.  A
    configuration is built as the list of its lines. *)
From stdpp Require Import gmap.
From S2P Require Import Prelude GoStrings Strconv GoValue Netip NetHost Sha256 AgentPaths Firewall FirewallAgent Shell EgressText EgressProfiles.
From Stdlib Require Import Ascii.
From stdpp Require Import options.
Open Scope Z_scope.

Definition externalEgressManagedRoot : string := "/etc/megavpn/external-egress".

Record externalEgressJobPayload := {
  eg_NodeID : string; eg_ProfileID : string; eg_DeploymentID : string; eg_Protocol : string; eg_InterfaceName : string;
  eg_RoutingTable : Z; eg_RouteMetric : Z; eg_FWMark : Z; eg_ProxyPort : Z; eg_Secrets : gmap string string }.

Inductive egress_error :=
| NodeMismatch | IdentityInvalid | InterfaceInvalid | TableOutside | MetricInvalid | MarkOutside | ProtocolUnready (protocol : string)
| ProxyPortMismatch | ConfigMissing
| Profile (e : profile_error)
| CapabilityMissing (binary : string)
| AuthSecrets | KeyArguments (directive : string) | SecretRequired (directive : string)
| DefaultRouteRequired | PrivateKeyRequired | PresharedKeyInvalid
| PasswordRequired | UuidRequired | SecurityRequired | TransportUnsupported
| CredentialInvalid (label : string) | AuthMethodUnsupported | CertificateRequired | CertificateInvalid
| MarshalFailed
| DirInvalid | UnitPathInvalid | NoAllowlist (protocol : string) | PathOutside (path : string) | UnsafeMode (path mode : string)
| PathDuplicated (path : string).

Notation E := (result egress_error).

(** ** Names *)

Definition hex_lower (c : ascii) : bool := is_digit c || ((97 <=? byte_val c) && (byte_val c <=? 102)).
Definition externalEgressUUIDPattern : string → bool := uuid_pattern hex_lower "89ab".
Definition externalEgressInterfacePattern (s : string) : bool :=
  match strip_prefix "mgev" s with
  | Some rest => (String.length rest =? 10)%nat && forallb hex_lower (bytes rest)
  | None => false
  end.

Definition remove_dashes (s : string) : string := replace_char "-" "" s.

Definition externalEgressManagedDir (p : externalEgressJobPayload) : string :=
  externalEgressManagedRoot +:+ "/" +:+ eg_DeploymentID p.
Definition externalEgressRuntimeDir (p : externalEgressJobPayload) : string :=
  "/run/megavpn/external-egress/" +:+ remove_dashes (eg_DeploymentID p).
Definition externalEgressUnitName (p : externalEgressJobPayload) : string :=
  "megavpn-external-egress-" +:+ remove_dashes (eg_DeploymentID p) +:+ ".service".
Definition externalEgressUnitPath (p : externalEgressJobPayload) : string :=
  "/etc/systemd/system/" +:+ externalEgressUnitName p.

(** [filepath.Join(dir, name)] of a cleaned directory and a plain name. *)
Definition under (dir name : string) : string := dir +:+ "/" +:+ name.

Definition compact_id (p : externalEgressJobPayload) : string :=
  let compact := remove_dashes (to_lower (eg_DeploymentID p)) in
  take_bytes 12 (if (String.length compact <? 12)%nat then sha256_hex (eg_DeploymentID p) else compact).
Definition externalEgressIPsecConnectionName (p : externalEgressJobPayload) : string := "mgev-" +:+ compact_id p.
Definition externalEgressIPsecCertificatePaths (p : externalEgressJobPayload) : list string :=
  let prefix := "megavpn-" +:+ compact_id p in
  ["/etc/ipsec.d/cacerts/" +:+ prefix +:+ "-ca.pem"; "/etc/ipsec.d/certs/" +:+ prefix +:+ "-client.pem";
   "/etc/ipsec.d/private/" +:+ prefix +:+ "-client.key"].

Definition externalEgressRuntimeProtocol (protocol : string) : bool :=
  one_of protocol ["openvpn"; "wireguard"; "l2tp_ipsec"; "vless"; "shadowsocks"].
Definition externalEgressUsesLoopbackProxyRuntime (protocol : string) : bool :=
  (protocol =s "vless") || (protocol =s "shadowsocks").
Definition externalEgressUsesPolicyRouting (protocol : string) : bool :=
  negb (externalEgressUsesLoopbackProxyRuntime protocol).
Definition externalEgressProxyPort (routingTable : Z) : Z := 20000 + routingTable - 40000.
Definition externalEgressRulePriority (routingTable : Z) : Z := routingTable + 10000.

(** ** Values *)

Definition intFromPayload (raw : option any) (fallback : Z) : Z :=
  match raw with
  | Some (AInt z) | Some (AInt32 z) | Some (AInt64 z) => z
  | Some (AFloat64 f) => int_of_float f
  | Some (AString s) => default fallback (atoi (trim_space s))
  | _ => fallback
  end.

Definition firstNonEmptyAgentString (values : list string) : string := first values.
Fixpoint firstNonEmptyAgentSecret (values : list string) : string :=
  match values with
  | [] => ""
  | v :: values => if v =s "" then firstNonEmptyAgentSecret values else v
  end.

(** [payload.Secrets[purpose]] *)
Definition secret (p : externalEgressJobPayload) (purpose : string) : string := default "" (eg_Secrets p !! purpose).

(** [fmt.Sprintf("0x%x", n)]: the marks a job may carry have eight digits. *)
Definition mark_text (n : Z) : string := "0x" +:+ hex_digits 8 n.

Example mark_some : mark_text 1297678337 = "0x4d590001".
Proof. reflexivity. Qed.

(** [strings.ContainsAny(s, CR LF NUL)] *)
Definition breaks_line (s : string) : bool :=
  existsb (λ c, Ascii.eqb c CR || Ascii.eqb c LF || Ascii.eqb c "000") (bytes s).

Definition validateExternalEgressCredential (label value : string) : E () :=
  guard_err (negb (value =s "") && (String.length value <=? N.to_nat 4096)%nat && negb (has_control value))
            (CredentialInvalid label).

(** [strings.NewReplacer] of the backslash and the quotation mark, each with a backslash before it. *)
Definition quote_byte (c : ascii) : string :=
  if Ascii.eqb c bslash || Ascii.eqb c dquote then String bslash (String c "") else String c "".
Fixpoint escape_secret (s : string) : string :=
  match s with EmptyString => "" | String c s => quote_byte c +:+ escape_secret s end.
Definition quoteExternalEgressSecret (value : string) : string :=
  String dquote (escape_secret value +:+ String dquote "").

(** A text from its lines, each ended by a line feed. *)
Fixpoint lines_text (lines : list string) : string :=
  match lines with [] => "" | line :: lines => line +:+ String LF (lines_text lines) end.

Section decode.
(** [fmt.Sprint] and the order of a [range] over a map. *)
Context (sprint : any → string) (order : gomap → list (string * any)).
Notation text m key := (stringify sprint (m !! key)).

(** The secrets of the job; of two spellings of a purpose the later one stays. *)
Definition job_secrets (payload : gomap) : gmap string string :=
  match payload !! "secrets" with
  | Some (AMap raw) =>
      foldl (λ m kv, <[to_lower (trim_space kv.1) := stringify sprint (Some kv.2)]> m) ∅ (order raw)
  | _ => ∅
  end.

Definition decodeExternalEgressJob (payload : gomap) (node_id : string) (requireSecrets : bool) : E externalEgressJobPayload :=
  let p := {| eg_NodeID := text payload "node_id"; eg_ProfileID := to_lower (text payload "profile_id");
              eg_DeploymentID := to_lower (text payload "deployment_id"); eg_Protocol := to_lower (text payload "protocol");
              eg_InterfaceName := text payload "interface_name";
              eg_RoutingTable := intFromPayload (payload !! "routing_table") 0;
              eg_RouteMetric := intFromPayload (payload !! "route_metric") 100;
              eg_FWMark := intFromPayload (payload !! "fwmark") 0;
              eg_ProxyPort := intFromPayload (payload !! "proxy_port") 0; eg_Secrets := ∅ |} in
  guard_err (negb (eg_NodeID p =s "") && (eg_NodeID p =s trim_space node_id)) NodeMismatch;;
  guard_err (externalEgressUUIDPattern (eg_ProfileID p) && externalEgressUUIDPattern (eg_DeploymentID p)) IdentityInvalid;;
  guard_err (externalEgressInterfacePattern (eg_InterfaceName p)) InterfaceInvalid;;
  guard_err ((40000 <=? eg_RoutingTable p) && (eg_RoutingTable p <=? 48999)) TableOutside;;
  guard_err ((1 <=? eg_RouteMetric p) && (eg_RouteMetric p <=? 32767)) MetricInvalid;;
  guard_err ((1297678336 <=? eg_FWMark p) && (eg_FWMark p <=? 1297743871)) MarkOutside;;
  guard_err (externalEgressRuntimeProtocol (eg_Protocol p)) (ProtocolUnready (eg_Protocol p));;
  let expected := externalEgressProxyPort (eg_RoutingTable p) in
  let loopback := externalEgressUsesLoopbackProxyRuntime (eg_Protocol p) in
  let port := if loopback && (eg_ProxyPort p =? 0) then expected else eg_ProxyPort p in
  guard_err (negb loopback || (port =? expected)) ProxyPortMismatch;;
  let p := {| eg_NodeID := eg_NodeID p; eg_ProfileID := eg_ProfileID p; eg_DeploymentID := eg_DeploymentID p;
              eg_Protocol := eg_Protocol p; eg_InterfaceName := eg_InterfaceName p; eg_RoutingTable := eg_RoutingTable p;
              eg_RouteMetric := eg_RouteMetric p; eg_FWMark := eg_FWMark p; eg_ProxyPort := port;
              eg_Secrets := job_secrets payload |} in
  guard_err (negb (requireSecrets && (secret p "config" =s ""))) ConfigMissing;;
  Ok p.
End decode.

(** ** OpenVPN *)

Definition splitExternalOpenVPNLine (line : string) : list string :=
  if (line =s "") || comment_line line then [] else fields line.

Definition managed_file (path content mode : string) : managedFileSpec :=
  {| file_Path := path; file_Content := content; file_Mode := mode |}.

Definition secret_path (dir purpose : string) : string :=
  if purpose =s "pkcs12" then under dir "client.p12" else under dir (purpose +:+ ".pem").

(** The files of the uploaded secrets, with the directive that names each. *)
Definition uploaded (p : externalEgressJobPayload) (dir : string) (purposes : list (string * string))
  : list (string * managedFileSpec) :=
  omap (λ '(directive, purpose),
    let value := secret p purpose in
    if value =s "" then None else Some (directive, managed_file (secret_path dir purpose) value "0600")) purposes.

Notation replacements := (gmap string string).

Definition dropped_directives : list string :=
  ["dev"; "dev-type"; "route"; "route-ipv6"; "redirect-gateway"; "redirect-private"; "route-nopull"; "route-noexec";
   "auth-nocache"].
Definition path_directives : list string :=
  ["ca"; "cert"; "key"; "pkcs12"; "tls-auth"; "tls-crypt"; "tls-crypt-v2"; "secret"; "auth-user-pass"].

(** What is written for a line outside the inline blocks. *)
Definition openvpn_rendered (m : replacements) (line : string) (words : list string) : E (list string) :=
  match words with
  | [] => Ok [line]
  | first :: args =>
      let directive := to_lower (trim_dashes first) in
      if one_of directive dropped_directives then Ok []
      else match m !! directive with
           | Some path =>
               match args with
               | [] | [_] => Ok [directive +:+ " " +:+ path]
               | [_; direction] =>
                   if one_of direction ["0"; "1"] then Ok [directive +:+ " " +:+ path +:+ " " +:+ direction]
                   else Err (KeyArguments directive)
               | _ => Err (KeyArguments directive)
               end
           | None =>
               match args with
               | path :: _ =>
                   if one_of directive path_directives && negb (path =s "[inline]") then Err (SecretRequired directive)
                   else Ok [line]
               | [] => Ok [line]
               end
           end
  end.

Definition opens_block (trimmed : string) : bool := has_prefix "<" trimmed && negb (has_prefix "</" trimmed).
Definition closes_block (inline trimmed : string) : bool := has_prefix ("</" +:+ inline +:+ ">") (to_lower trimmed).
Definition replaced (m : replacements) (inline : string) : bool := negb (default "" (m !! inline) =s "").

(** One line: what is written, and the open block and whether it is left out. *)
Definition openvpn_step (m : replacements) (line inline : string) (skip : bool) : E (list string * (string * bool)) :=
  let trimmed := trim_space line in
  let '(inline, skip) :=
    if opens_block trimmed then (tag_name trimmed, replaced m (tag_name trimmed)) else (inline, skip) in
  if negb (inline =s "") then
    Ok (if skip then [] else [line], if closes_block inline trimmed then ("", false) else (inline, skip))
  else
    out ← openvpn_rendered m line (splitExternalOpenVPNLine trimmed); Ok (out, (inline, skip)).

Fixpoint openvpn_render (m : replacements) (lines : list string) (inline : string) (skip : bool) : E (list string) :=
  match lines with
  | [] => Ok []
  | line :: lines =>
      '(out, (inline, skip)) ← openvpn_step m line inline skip;
      rest ← openvpn_render m lines inline skip;
      Ok (out ++ rest)
  end.

(** The lines the agent adds at the end. *)
Definition openvpn_trailer (p : externalEgressJobPayload) (m : replacements) : list string :=
  [""; "dev " +:+ eg_InterfaceName p; "dev-type tun"; "route-nopull"; "route-noexec"; "auth-nocache"]
  ++ (let path := default "" (m !! "auth-user-pass") in if path =s "" then [] else ["auth-user-pass " +:+ path]).

Section openvpn.
(** The order of the range over the managed directives. *)
Context (purposes : list (string * string)).

(** The separate credentials of a profile that asks for them. *)
Definition openvpn_auth (p : externalEgressJobPayload) (dir : string) (preview : OpenVPNPreview)
  : E (list (string * managedFileSpec)) :=
  if ov_AuthUserPass preview && negb (one_of "auth-user-pass" (ov_InlineBlocks preview)) then
    let username := secret p "username" in
    let password := secret p "password" in
    guard_err (negb ((username =s "") || (password =s "") || breaks_line (username +:+ password))) AuthSecrets;;
    Ok [("auth-user-pass", managed_file (under dir "auth.txt") (lines_text [username; password]) "0600")]
  else Ok [].

Definition replacement_map (files : list (string * managedFileSpec)) : replacements :=
  foldl (λ m '(directive, file), <[directive := file_Path file]> m) ∅ files.

(** The configuration's lines and the files it names. *)
Definition openvpn_config (p : externalEgressJobPayload) (dir : string) : E (list string * list managedFileSpec) :=
  let raw := secret p "config" in
  preview ← map_err Profile (ParseOpenVPN raw);
  auth ← openvpn_auth p dir preview;
  let files := uploaded p dir purposes ++ auth in
  let m := replacement_map files in
  let '(lines, long) := scan_lines MaxScanTokenSize raw in
  out ← openvpn_render m lines "" false;
  guard_err (negb long) (Profile LineTooLong);;
  Ok (out ++ openvpn_trailer p m, files.*2).

Definition renderManagedOpenVPNConfig (p : externalEgressJobPayload) (dir : string) : E (string * list managedFileSpec) :=
  '(lines, files) ← openvpn_config p dir; Ok (lines_text lines, files).
End openvpn.

(** ** WireGuard *)

(** The private key of the job, where the profile has none. *)
Definition job_private_key (p : externalEgressJobPayload) : E string :=
  let key := trim_space (secret p "private_key") in
  guard_err (negb ((key =s "") || breaks_line key)) PrivateKeyRequired;; Ok ("PrivateKey = " +:+ key).

Record wg_render_state := { wr_interface : bool; wr_table : bool; wr_key : bool }.

Definition table_line (p : externalEgressJobPayload) : string := "Table = " +:+ itoa (eg_RoutingTable p).

(** The lines added where the Interface section ends, and the state after them. *)
Definition close_interface (p : externalEgressJobPayload) (st : wg_render_state) : E (list string * wg_render_state) :=
  if wr_interface st then
    key ← (if wr_key st then Ok [] else line ← job_private_key p; Ok [line]);
    Ok ((if wr_table st then [] else [table_line p]) ++ key, {| wr_interface := false; wr_table := true; wr_key := true |})
  else Ok ([], st).

(** What is written for a line that opens no section, and the state after it. *)
Definition wireguard_rendered (p : externalEgressJobPayload) (line : string) (st : wg_render_state)
  : E (list string * wg_render_state) :=
  match cut_equals (trim_space line) with
  | None => Ok ([line], st)
  | Some (key, value) =>
      let key := config_key key in
      if one_of key ["table"; "dns"] then Ok ([], st)
      else if wr_interface st && (key =s "privatekey") then
        let private := trim_space (secret p "private_key") in
        let private := if private =s "" then trim_space value else private in
        guard_err (negb ((private =s "") || breaks_line private)) PrivateKeyRequired;;
        Ok (["PrivateKey = " +:+ private], {| wr_interface := wr_interface st; wr_table := wr_table st; wr_key := true |})
      else if negb (wr_interface st) && (key =s "presharedkey") && negb (trim_space (secret p "preshared_key") =s "") then
        let shared := trim_space (secret p "preshared_key") in
        guard_err (negb (breaks_line shared)) PresharedKeyInvalid;;
        Ok (["PresharedKey = " +:+ shared], st)
      else Ok ([line], st)
  end.

Definition wireguard_step (p : externalEgressJobPayload) (line : string) (st : wg_render_state)
  : E (list string * wg_render_state) :=
  let trimmed := trim_space line in
  if equal_fold_ascii trimmed "[Interface]" then
    Ok ([line], {| wr_interface := true; wr_table := wr_table st; wr_key := wr_key st |})
  else
    '(out, st) ← (if has_prefix "[" trimmed then close_interface p st else Ok ([], st));
    '(out', st) ← wireguard_rendered p line st;
    Ok (out ++ out', st).

Fixpoint wireguard_render (p : externalEgressJobPayload) (lines : list string) (st : wg_render_state)
  : E (list string * wg_render_state) :=
  match lines with
  | [] => Ok ([], st)
  | line :: lines =>
      '(out, st) ← wireguard_step p line st;
      '(rest, st) ← wireguard_render p lines st;
      Ok (out ++ rest, st)
  end.

Definition wireguard_config (p : externalEgressJobPayload) : E (list string) :=
  let raw := secret p "config" in
  preview ← map_err Profile (ParseWireGuard raw);
  guard_err (one_of "0.0.0.0/0" (wg_AllowedIPs preview)) DefaultRouteRequired;;
  let '(lines, long) := scan_lines MaxScanTokenSize raw in
  '(out, st) ← wireguard_render p lines {| wr_interface := false; wr_table := false; wr_key := false |};
  '(last, _) ← close_interface p st;
  guard_err (negb long) (Profile LineTooLong);;
  Ok (out ++ last).

Definition renderManagedWireGuardConfig (p : externalEgressJobPayload) : E string :=
  lines ← wireguard_config p; Ok (lines_text lines).

(** ** Xray: Shadowsocks and VLESS behind a local SOCKS port *)

Definition obj (l : list (string * any)) : any := AMap (list_to_map l).

Definition externalEgressSOCKSInbound (port : Z) : any :=
  obj [("tag", AString "provider-in"); ("listen", AString "127.0.0.1"); ("port", AInt port); ("protocol", AString "socks");
       ("settings", obj [("auth", AString "noauth"); ("udp", ABool true); ("ip", AString "127.0.0.1")]);
       ("sniffing", obj [("enabled", ABool true); ("destOverride", AStrings ["http"; "tls"; "quic"])])].

(** The whole configuration around the provider's outbound. *)
Definition xray_config (port : Z) (outbound : any) : gomap :=
  list_to_map
    [("log", obj [("loglevel", AString "warning")]); ("inbounds", ASlice [externalEgressSOCKSInbound port]);
     ("outbounds", ASlice [outbound; obj [("tag", AString "block"); ("protocol", AString "blackhole")]]);
     ("routing", obj [("domainStrategy", AString "AsIs"); ("rules", ASlice [])])].

Definition opt_field (key value : string) : list (string * any) := if value =s "" then [] else [(key, AString value)].

Definition vless_user (preview : VLESSPreview) (uuid : string) : any :=
  obj ([("id", AString uuid); ("encryption", AString (firstNonEmptyAgentString [vl_Encryption preview; "none"])); ("level", AInt 0)]
       ++ opt_field "flow" (vl_Flow preview)).

Definition vless_security (preview : VLESSPreview) : E (list (string * any)) :=
  if vl_Security preview =s "tls" then
    Ok [("tlsSettings", obj ([("serverName", AString (vl_ServerName preview)); ("allowInsecure", ABool false)]
                             ++ opt_field "fingerprint" (vl_Fingerprint preview)
                             ++ (if (0 <? length (vl_ALPN preview))%nat then [("alpn", AStrings (vl_ALPN preview))] else [])))]
  else if vl_Security preview =s "reality" then
    Ok [("realitySettings", obj ([("serverName", AString (vl_ServerName preview));
                                  ("fingerprint", AString (firstNonEmptyAgentString [vl_Fingerprint preview; "chrome"]));
                                  ("password", AString (vl_PublicKey preview)); ("shortId", AString (vl_ShortID preview))]
                                 ++ opt_field "spiderX" (vl_SpiderX preview)))]
  else Err SecurityRequired.

Definition vless_path (preview : VLESSPreview) : list (string * any) :=
  [("path", AString (firstNonEmptyAgentString [vl_Path preview; "/"]))].
Definition vless_transport_settings (preview : VLESSPreview) : E (list (string * any)) :=
  let t := vl_Transport preview in
  if t =s "ws" then
    Ok [("wsSettings", obj (vless_path preview
          ++ (if vl_Host preview =s "" then [] else [("headers", obj [("Host", AString (vl_Host preview))])])))]
  else if t =s "grpc" then Ok [("grpcSettings", obj [("serviceName", AString (vl_ServiceName preview))])]
  else if t =s "httpupgrade" then Ok [("httpupgradeSettings", obj (vless_path preview ++ opt_field "host" (vl_Host preview)))]
  else if t =s "xhttp" then Ok [("xhttpSettings", obj (vless_path preview ++ opt_field "host" (vl_Host preview)))]
  else if t =s "tcp" then Ok []
  else Err TransportUnsupported.

Section xray.
(** [net/url.Parse], [encoding/json] and the order of a [range] over a map. *)
Context (url_Parse : string → option url) (json_object : string → option gomap)
        (order : gomap → list (string * any)) (query_unescape : string → option string)
        (marshal_indent : gomap → option string).

Definition marshalExternalEgressXrayConfig (config : gomap) : E string :=
  match marshal_indent config with Some raw => Ok (raw +:+ String LF "") | None => Err MarshalFailed end.

Definition renderManagedShadowsocksXrayConfig (p : externalEgressJobPayload) : E string :=
  preview ← map_err Profile (ParseShadowsocks url_Parse json_object order query_unescape (secret p "config"));
  let password := firstNonEmptyAgentSecret [secret p "password"; ss_Password preview] in
  guard_err (negb ((password =s "") || breaks_line password)) PasswordRequired;;
  marshalExternalEgressXrayConfig
    (xray_config (eg_ProxyPort p)
       (obj [("tag", AString "provider-out"); ("protocol", AString "shadowsocks");
             ("settings", obj [("servers", ASlice [obj [("address", AString (ss_EndpointHost preview));
                ("port", AInt (ss_EndpointPort preview)); ("method", AString (ss_Method preview));
                ("password", AString password)]])])])).

Definition renderManagedVLESSXrayConfig (p : externalEgressJobPayload) : E string :=
  preview ← map_err Profile (ParseVLESS url_Parse json_object order (secret p "config"));
  let uuid := firstNonEmptyAgentString [trim_space (secret p "uuid"); vl_UUID preview] in
  guard_err (externalEgressUUIDPattern (to_lower uuid)) UuidRequired;;
  security ← vless_security preview;
  transport ← vless_transport_settings preview;
  marshalExternalEgressXrayConfig
    (xray_config (eg_ProxyPort p)
       (obj [("tag", AString "provider-out"); ("protocol", AString "vless");
             ("settings", obj [("vnext", ASlice [obj [("address", AString (vl_EndpointHost preview));
                ("port", AInt (vl_EndpointPort preview)); ("users", ASlice [vless_user preview uuid])]])]);
             ("streamSettings", obj ([("network", AString (vl_Transport preview)); ("security", AString (vl_Security preview))]
                                     ++ security ++ transport))])).
End xray.

(** ** L2TP/IPsec *)

(** What [ValidateCertificateMaterial] returns, from [crypto/x509]. *)
Record CertificateMaterial := { cm_PrivateKeyType : string; cm_CASubject : string }.

Record l2tp_files := { lf_ipsec_conf : list string; lf_ipsec_secrets : list string; lf_xl2tpd : list string; lf_ppp : list string }.

Definition ipsec_conf (p : externalEgressJobPayload) (preview : L2TPIPsecPreview) (auth : list string) (remote_id : string)
  : list string :=
  ["conn " +:+ externalEgressIPsecConnectionName p; "    type=transport"; "    keyexchange=ikev1"]
  ++ auth ++
  ["    left=%defaultroute"; "    leftprotoport=17/1701"; "    right=" +:+ l2_EndpointHost preview;
   "    rightid=" +:+ remote_id; "    rightprotoport=17/1701"; "    ike=" +:+ l2_IKEProposal preview +:+ "!";
   "    esp=" +:+ l2_ESPProposal preview +:+ "!"; "    dpdaction=clear"; "    dpddelay=30s"; "    keyingtries=3"; "    auto=add"].

Definition xl2tpd_conf (p : externalEgressJobPayload) (preview : L2TPIPsecPreview) (dir : string) : list string :=
  ["[global]"; "port = 1701"; ""; "[lac " +:+ externalEgressIPsecConnectionName p +:+ "]";
   "lns = " +:+ l2_EndpointHost preview; "pppoptfile = " +:+ under dir "ppp-options"; "autodial = yes"; "redial = yes";
   "redial timeout = 5"; "max redials = 10"; "length bit = yes"].

Definition ppp_options (p : externalEgressJobPayload) (username password : string) : list string :=
  ["ifname " +:+ eg_InterfaceName p; "ipparam " +:+ eg_InterfaceName p; "linkname " +:+ eg_InterfaceName p;
   "name " +:+ quoteExternalEgressSecret username; "password " +:+ quoteExternalEgressSecret password;
   "noauth"; "nodefaultroute"; "refuse-eap"; "noccp"; "mtu 1400"; "mru 1400"; "persist"; "maxfail 0"; "holdoff 5"].

Section l2tp.
(** [encoding/json], the order of a [range] over a map, and [ValidateCertificateMaterial]. *)
Context (json_object : string → option gomap) (order : gomap → list (string * any))
        (validate_certificates : string → string → string → option CertificateMaterial).

Definition l2tp_profile (p : externalEgressJobPayload) : E L2TPIPsecPreview :=
  map_err Profile (ParseL2TPIPsec json_object order (secret p "config")).

(** The material and its three files. *)
Definition renderManagedL2TPIPsecCertificateMaterial (p : externalEgressJobPayload)
  : E (CertificateMaterial * list managedFileSpec) :=
  let ca := secret p "ca_certificate" in
  let certificate := secret p "certificate" in
  let key := secret p "private_key" in
  guard_err (negb ((ca =s "") || (certificate =s "") || (key =s ""))) CertificateRequired;;
  match validate_certificates ca certificate key with
  | None => Err CertificateInvalid
  | Some material =>
      Ok (material, zip_with (λ path content, managed_file path content "0600")
                      (externalEgressIPsecCertificatePaths p) [ca; certificate; key])
  end.

Definition nth_path (p : externalEgressJobPayload) (i : nat) : string := default "" (externalEgressIPsecCertificatePaths p !! i).

(** The lines of the authentication, and those of the secrets file. *)
Definition l2tp_auth (p : externalEgressJobPayload) (preview : L2TPIPsecPreview) (remote_id : string)
  : E (list string * list string) :=
  if l2_AuthMethod preview =s "psk" then
    let psk := firstNonEmptyAgentSecret [secret p "preshared_key"; l2_PSK preview] in
    _ ← validateExternalEgressCredential "IPsec pre-shared key" psk;
    Ok (["    authby=psk"], ["%any " +:+ remote_id +:+ " : PSK " +:+ quoteExternalEgressSecret psk])
  else if l2_AuthMethod preview =s "certificate" then
    '(material, _) ← renderManagedL2TPIPsecCertificateMaterial p;
    Ok (["    leftauth=pubkey"; "    leftcert=" +:+ nth_path p 1; "    rightauth=pubkey";
         "    rightca=" +:+ quoteExternalEgressSecret (cm_CASubject material)],
        [": " +:+ cm_PrivateKeyType material +:+ " " +:+ nth_path p 2])
  else Err AuthMethodUnsupported.

Definition renderManagedL2TPIPsecConfig (p : externalEgressJobPayload) : E l2tp_files :=
  preview ← l2tp_profile p;
  let username := firstNonEmptyAgentSecret [secret p "username"; l2_Username preview] in
  let password := firstNonEmptyAgentSecret [secret p "password"; l2_Password preview] in
  _ ← validateExternalEgressCredential "L2TP username" username;
  _ ← validateExternalEgressCredential "L2TP password" password;
  let remote_id := firstNonEmptyAgentString [l2_RemoteID preview; l2_EndpointHost preview] in
  '(auth, secrets) ← l2tp_auth p preview remote_id;
  Ok {| lf_ipsec_conf := ipsec_conf p preview auth remote_id; lf_ipsec_secrets := secrets;
        lf_xl2tpd := xl2tpd_conf p preview (externalEgressManagedDir p); lf_ppp := ppp_options p username password |}.

Definition ipsec_config_include : string := "include /etc/megavpn/external-egress/*/ipsec.conf".
Definition ipsec_secrets_include : string := "include /etc/megavpn/external-egress/*/ipsec.secrets".

Definition append_once (include file : string) : string :=
  "grep -Fqx '" +:+ include +:+ "' " +:+ file +:+ " || printf '\n" +:+ include +:+ "\n' >>" +:+ file.

Definition renderManagedL2TPIPsecStartScript (p : externalEgressJobPayload) (ipsec xl2tpd flock : string) : list string :=
  let runtime := externalEgressRuntimeDir p in
  let reread := match l2tp_profile p with
                | Ok preview => if l2_AuthMethod preview =s "certificate" then ipsec +:+ " rereadcacerts" else ""
                | Err _ => ""
                end in
  ["#!/bin/sh"; "set -eu"; "umask 077"; "mkdir -p " +:+ runtime; "exec 9>/run/lock/megavpn-external-ipsec.lock";
   flock +:+ " -x 9"; "touch /etc/ipsec.conf /etc/ipsec.secrets";
   append_once ipsec_config_include "/etc/ipsec.conf"; append_once ipsec_secrets_include "/etc/ipsec.secrets";
   flock +:+ " -u 9"; "exec 9>&-";
   "systemctl start strongswan-starter 2>/dev/null || systemctl start strongswan 2>/dev/null || true";
   reread; ipsec +:+ " rereadsecrets"; ipsec +:+ " reload"; ipsec +:+ " up " +:+ externalEgressIPsecConnectionName p;
   "exec " +:+ xl2tpd +:+ " -D -c " +:+ under (externalEgressManagedDir p) "xl2tpd.conf" +:+ " -p " +:+ runtime
   +:+ "/xl2tpd.pid -C " +:+ runtime +:+ "/xl2tpd.control"].
End l2tp.

(** ** The policy-routing script and the unit *)

Definition table_text (p : externalEgressJobPayload) : string := itoa (eg_RoutingTable p).
Definition rule_words (p : externalEgressJobPayload) : string :=
  "pref " +:+ itoa (externalEgressRulePriority (eg_RoutingTable p)) +:+ " fwmark " +:+ mark_text (eg_FWMark p)
  +:+ " lookup " +:+ table_text p.

Definition quoted (s : string) : string := String dquote (s +:+ String dquote "").

(** Waiting up to a minute for a condition, with a message if it does not come. *)
Definition wait_loop (condition message : string) : list string :=
  ["i=0"; "while ! " +:+ condition +:+ "; do"; "  i=$((i + 1))";
   "  [ " +:+ quoted "$i" +:+ " -lt 60 ] || { echo " +:+ quoted message +:+ " >&2; exit 1; }"; "  sleep 1"; "done"].

Definition externalEgressInterfaceAddressWait (p : externalEgressJobPayload) : list string :=
  if eg_Protocol p =s "l2tp_ipsec" then
    wait_loop ("ip -4 addr show dev " +:+ eg_InterfaceName p +:+ " | grep -q 'inet '")
              ("interface " +:+ eg_InterfaceName p +:+ " did not receive an IPv4 address")
  else [""].

Definition renderExternalEgressRouteScript (p : externalEgressJobPayload) : list string :=
  ["#!/bin/sh"; "set -eu"; "action=" +:+ quoted "${1:-apply}";
   "if [ " +:+ quoted "$action" +:+ " = cleanup ]; then";
   "  ip rule del " +:+ rule_words p +:+ " 2>/dev/null || true";
   "  ip route flush table " +:+ table_text p +:+ " 2>/dev/null || true"; "  exit 0"; "fi";
   "ip route flush table " +:+ table_text p +:+ " 2>/dev/null || true";
   "ip route replace unreachable default metric 32767 table " +:+ table_text p;
   "ip rule del " +:+ rule_words p +:+ " 2>/dev/null || true"; "ip rule add " +:+ rule_words p;
   "if [ " +:+ quoted "$action" +:+ " = guard ]; then"; "  exit 0"; "fi"]
  ++ wait_loop ("ip link show dev " +:+ eg_InterfaceName p +:+ " >/dev/null 2>&1")
               ("interface " +:+ eg_InterfaceName p +:+ " did not appear")
  ++ externalEgressInterfaceAddressWait p
  ++ ["ip route replace default dev " +:+ eg_InterfaceName p +:+ " table " +:+ table_text p +:+ " metric " +:+ itoa (eg_RouteMetric p)].

Definition renderExternalEgressUnit (p : externalEgressJobPayload) (routeScript execStart : string) (stopCommands : list string)
  : list string :=
  let wireguard := eg_Protocol p =s "wireguard" in
  ["[Unit]"; "Description=MegaVPN external egress " +:+ eg_DeploymentID p; "After=network-online.target";
   "Wants=network-online.target"; "StartLimitIntervalSec=300s"; "StartLimitBurst=5"; ""; "[Service]";
   "Type=" +:+ (if wireguard then "oneshot" else "simple")]
  ++ (if wireguard then ["RemainAfterExit=yes"] else [])
  ++ ["ExecStart=" +:+ execStart]
  ++ (if routeScript =s "" then [] else ["ExecStartPost=" +:+ routeScript +:+ " apply"])
  ++ ((λ command, "ExecStop=" +:+ command) <$> stopCommands)
  ++ ["Restart=" +:+ (if wireguard then "no" else "on-failure");
      "RestartSec=" +:+ (if eg_Protocol p =s "l2tp_ipsec" then "15s" else "3s");
      "KillMode=control-group"; "TimeoutStartSec=120s"; "TimeoutStopSec=30s"; ""; "[Install]"; "WantedBy=multi-user.target"].

(** ** The files a deployment may write *)

Definition openvpn_artifacts : list string :=
  ["client.ovpn"; "auth.txt"; "ca_certificate.pem"; "certificate.pem"; "private_key.pem"; "client.p12"; "tls_auth_key.pem";
   "tls_crypt_key.pem"; "tls_crypt_v2_key.pem"; "static_key.pem"].

(** The allowed paths with their modes. *)
Definition allowed_artifacts (p : externalEgressJobPayload) (dir : string) : option (list (string * string)) :=
  let own mode := λ name, (under dir name, mode) in
  let route := if externalEgressUsesPolicyRouting (eg_Protocol p) then [own "0700" "route-policy.sh"] else [] in
  if eg_Protocol p =s "openvpn" then Some (route ++ (own "0600" <$> openvpn_artifacts))
  else if eg_Protocol p =s "wireguard" then Some (route ++ [own "0600" (eg_InterfaceName p +:+ ".conf")])
  else if one_of (eg_Protocol p) ["vless"; "shadowsocks"] then Some (route ++ [own "0600" "config.json"])
  else if eg_Protocol p =s "l2tp_ipsec" then
    Some (route ++ (own "0600" <$> ["ipsec.conf"; "ipsec.secrets"; "xl2tpd.conf"; "ppp-options"]) ++ [own "0700" "start.sh"]
          ++ ((λ path, (path, "0600")) <$> externalEgressIPsecCertificatePaths p))
  else None.

Fixpoint check_artifacts (allowed : list (string * string)) (seen : list string) (files : list managedFileSpec) : E () :=
  match files with
  | [] => Ok tt
  | file :: files =>
      let path := cleanAbsPath (file_Path file) in
      match assoc_get (rev allowed) path with
      | None => Err (PathOutside (file_Path file))
      | Some mode =>
          guard_err (path =s file_Path file) (PathOutside (file_Path file));;
          guard_err (file_Mode file =s mode) (UnsafeMode (file_Path file) (file_Mode file));;
          guard_err (negb (one_of path seen)) (PathDuplicated (file_Path file));;
          check_artifacts allowed (path :: seen) files
      end
  end.

Definition validateExternalEgressManagedArtifacts (p : externalEgressJobPayload) (files : list managedFileSpec) (unitPath : string)
  : E () :=
  let dir := cleanAbsPath (externalEgressManagedDir p) in
  guard_err (negb (dir =s "") && (dir =s externalEgressManagedDir p)) DirInvalid;;
  guard_err (cleanAbsPath unitPath =s externalEgressUnitPath p) UnitPathInvalid;;
  match allowed_artifacts p dir with
  | None => Err (NoAllowlist (eg_Protocol p))
  | Some allowed => check_artifacts allowed [] files
  end.
