(* ===== verification/EgressWireGuard.v ===== *)
(** * WireGuard profiles: what the agent renders from one it accepted

    The rendered configuration is read again by the parser that accepted the
    profile: it has the same peer and the same addresses, the managed table and
    no other, no name server, no hook and a private key. *)
From stdpp Require Import gmap.
From S2P Require Import Prelude GoStrings Strconv GoValue Netip NetHost AgentPaths Firewall FirewallAgent Shell EgressText EgressProfiles EgressRender.
From Stdlib Require Import Ascii.
From stdpp Require Import options.
Open Scope Z_scope.

Lemma config_key_firm c k : firm_byte c = true → ∃ s, config_key (String c k) = String c s.
Proof. intros Hc. unfold config_key. destruct (trim_space_firm c k Hc) as [t ->]. by apply to_lower_firm. Qed.

(** ** Reading a configuration *)

Definition section_header (line : string) : bool := has_prefix "[" line && has_suffix "]" line.
Notation setting := (string * string * string)%type.

(** The section after a line and the settings before it, with their sections. *)
Definition wg_read1 (st : string * list setting) (line : string) : string * list setting :=
  let line := trim_space line in
  if (line =s "") || comment_line line then st
  else if section_header line then (section_name line, st.2)
  else match cut_equals line with
       | Some (key, value) => (st.1, st.2 ++ [(st.1, config_key key, trim_space value)])
       | None => st
       end.
Definition wg_settings (lines : list string) : list setting := (foldl wg_read1 ("", []) lines).2.
Definition settings_of (key : string) (l : list setting) : list setting := filter (λ s, s.1.2 = key) l.

(** A line that the two readers of the code take alike: a line in brackets is a
    header for both, and the header of the interface is spelled as the agent
    looks for it. *)
Definition plain_header (line : string) : bool :=
  let line := trim_space line in
  negb (has_prefix "[" line)
  || (has_suffix "]" line && (negb (section_name line =s "interface") || equal_fold_ascii line "[Interface]")).

(** The endpoint, the addresses and the routes of a profile. *)
Definition same_peer (p q : WireGuardPreview) : Prop :=
  wg_EndpointHost p = wg_EndpointHost q ∧ wg_EndpointPort p = wg_EndpointPort q ∧ wg_Addresses p = wg_Addresses q
  ∧ wg_AllowedIPs p = wg_AllowedIPs q ∧ wg_HasDefaultRoute p = wg_HasDefaultRoute q.

Lemma same_peer_refl p : same_peer p p.
Proof. by repeat split. Qed.

(** What a setting does to two previews of the same peer. *)
Definition alike (p q p' q' : WireGuardPreview) : Prop :=
  same_peer p' q' ∧ (wg_HasPrivateKey q = true → wg_HasPrivateKey q' = true).

Lemma alike_setters p q host port l b :
  same_peer p q →
  alike p q p q ∧ alike p q (with_addresses p l) (with_addresses q l)
  ∧ alike p q (with_allowed_ips p l) (with_allowed_ips q l)
  ∧ alike p q (with_preshared_key p b) (with_preshared_key q b)
  ∧ alike p q (with_endpoint p host port) (with_endpoint q host port).
Proof.
  unfold alike, same_peer. intros (E1 & E2 & E3 & E4 & E5). unfold with_endpoint. rewrite E1.
  destruct (negb (wg_EndpointHost q =s "")); simpl; rewrite ?E3, ?E4, ?E5; intuition congruence.
Qed.

(** A setting of the peer, or one of the interface other than its private key. *)
Lemma same_peer_value p q section key value p' :
  same_peer p q → section +:+ "." +:+ key ≠ "interface.privatekey" → wireguard_value p section key value = Ok p' →
  ∃ q', wireguard_value q section key value = Ok q' ∧ alike p q p' q'.
Proof.
  intros Hs Hk. unfold wireguard_value. apply String.eqb_neq in Hk. cbv zeta. rewrite Hk.
  destruct (_ =s "interface.address").
  { destruct (checked_cidrs _ _) as [l|]; [|done]. intros [= <-]. eexists. split; [done|].
    by apply (alike_setters p q "" 0 l true). }
  destruct (_ =s "peer.presharedkey").
  { intros [= <-]. eexists. split; [done|]. by apply (alike_setters p q "" 0 []). }
  destruct (_ =s "peer.endpoint").
  { destruct (SplitHostPort value) as [[host port]|]; [|done]. destruct (atoi port) as [n|]; [|done].
    destruct (_ || _); [done|]. destruct (_ && _); [done|]. intros [= <-]. eexists. split; [done|].
    by apply (alike_setters p q host n [] true). }
  destruct (_ =s "peer.allowedips").
  { destruct (checked_cidrs _ _) as [l|]; [|done]. intros [= <-]. eexists. split; [done|].
    by apply (alike_setters p q "" 0 l true). }
  intros [= <-]. eexists. split; [done|]. by apply (alike_setters p q "" 0 [] true).
Qed.

Lemma wireguard_lines_app a b st :
  wireguard_lines (a ++ b) st = wireguard_lines a st ≫= wireguard_lines b.
Proof.
  revert st. induction a as [|l a IH]; intros st; [done|]. cbn [app wireguard_lines].
  rewrite bind_assoc. apply bind_ext. intros st' _. apply IH.
Qed.

(** ** The written lines *)

Lemma table_line_trim p : trim_space (table_line p) = table_line p.
Proof. apply trim_space_line; [by apply all_bytes_dec|done|done|apply trim_itoa|apply itoa_nonempty]. Qed.

Lemma private_key_trim key : trim_space key = key → key ≠ "" → trim_space ("PrivateKey = " +:+ key) = "PrivateKey = " +:+ key.
Proof. intros. by apply trim_space_line; [apply all_bytes_dec| | | |]. Qed.
Lemma preshared_key_trim key :
  trim_space key = key → key ≠ "" → trim_space ("PresharedKey = " +:+ key) = "PresharedKey = " +:+ key.
Proof. intros. by apply trim_space_line; [apply all_bytes_dec| | | |]. Qed.

(** One preview or another, in a state of the scan. *)
Definition with_preview (st : wireguard_state) (p : WireGuardPreview) : wireguard_state :=
  {| ws_preview := p; ws_section := ws_section st; ws_interfaces := ws_interfaces st; ws_peers := ws_peers st |}.

Lemma with_preview_same st : with_preview st (ws_preview st) = st.
Proof. by destruct st. Qed.

Lemma read_setting line t key value st rd :
  trim_space line = t → section_header t = false → (t =s "") || comment_line t = false →
  cut_equals t = Some (key, value) → ws_section st ≠ "" → rd.1 = ws_section st →
  one_of (config_key key) wireguard_hooks = false → (ws_section st =s "interface") && (config_key key =s "fwmark") = false →
  wireguard_line line st =
    (p ← wireguard_value (ws_preview st) (ws_section st) (config_key key) (trim_space value); Ok (with_preview st p))
  ∧ wg_read1 rd line = (rd.1, rd.2 ++ [(ws_section st, config_key key, trim_space value)]).
Proof.
  intros Ht Hh Hc Hcut Hs Hrd Hk Hf. unfold wireguard_line, wg_read1. rewrite Ht, Hc. fold (section_header t).
  rewrite Hh, Hcut. apply String.eqb_neq in Hs. rewrite Hs, Hk, Hf.
  by rewrite Hrd.
Qed.

Lemma read_table p st rd :
  ws_section st = "interface" → rd.1 = "interface" →
  wireguard_line (table_line p) st = Ok st
  ∧ wg_read1 rd (table_line p) = ("interface", rd.2 ++ [("interface", "table", table_text p)]).
Proof.
  intros Hs Hrd.
  destruct (read_setting (table_line p) (table_line p) "Table " (" " +:+ table_text p) st rd) as [-> ->];
    [apply table_line_trim|done|done|done|by rewrite Hs|congruence|done|by rewrite andb_false_r|].
  rewrite Hs, Hrd, trim_space_blank by apply trim_itoa. by destruct st; simplify_eq/=.
Qed.

Lemma read_private_key key st rd :
  trim_space key = key → key ≠ "" → ws_section st = "interface" → rd.1 = "interface" →
  wireguard_line ("PrivateKey = " +:+ key) st = Ok (with_preview st (with_private_key (ws_preview st) true))
  ∧ wg_read1 rd ("PrivateKey = " +:+ key) = ("interface", rd.2 ++ [("interface", "privatekey", key)]).
Proof.
  intros Hk Hne Hs Hrd.
  destruct (read_setting ("PrivateKey = " +:+ key) ("PrivateKey = " +:+ key) "PrivateKey " (" " +:+ key) st rd) as [-> ->];
    [by apply private_key_trim|done|done|done|by rewrite Hs|congruence|done|by rewrite andb_false_r|].
  rewrite Hs, Hrd, trim_space_blank by done. by destruct key.
Qed.

Lemma read_preshared_key key st rd :
  trim_space key = key → key ≠ "" → ws_section st = "peer" → rd.1 = "peer" →
  wireguard_line ("PresharedKey = " +:+ key) st = Ok (with_preview st (with_preshared_key (ws_preview st) true))
  ∧ wg_read1 rd ("PresharedKey = " +:+ key) = ("peer", rd.2 ++ [("peer", "presharedkey", key)]).
Proof.
  intros Hk Hne Hs Hrd.
  destruct (read_setting ("PresharedKey = " +:+ key) ("PresharedKey = " +:+ key) "PresharedKey " (" " +:+ key) st rd) as [-> ->];
    [by apply preshared_key_trim|done|done|done|by rewrite Hs|congruence|done|by rewrite andb_false_r|].
  rewrite Hs, Hrd, trim_space_blank by done. by destruct key.
Qed.

Lemma settings_of_app key a b : settings_of key (a ++ b) = settings_of key a ++ settings_of key b.
Proof. apply filter_app. Qed.
Lemma settings_of_one key s k v :
  settings_of key [(s, k, v)] = if bool_decide (k = key) then [(s, k, v)] else [].
Proof. unfold settings_of. cbn. by case_decide; case_bool_decide. Qed.

(** ** The interface's header *)

Lemma encode_all_runes s : Forall (λ r, r ≠ rune_error) (runes s) → encode_all (runes s) = s.
Proof.
  induction s as [|s r s' E IH] using rune_ind; [done|]. rewrite (runes_decode1 _ _ _ E).
  intros [Hr Hs]%Forall_cons_iff. cbn [encode_all foldr]. fold (encode_all (runes s')). rewrite IH by done.
  destruct (decode1_inv _ _ _ E) as [_ [?|Es]]; [done|]. done.
Qed.

(** The runes that fold to the one of a lower-case letter without others that do. *)
Definition spellings (c : Z) : list Z := if (97 <=? c) && (c <=? 122) then [c; c - 32] else [c].

Lemma fold_rune_spellings r c : c ≠ 115 → c ≠ 107 → c < 128 → fold_rune r = c → r ∈ spellings c.
Proof.
  intros H1 H2 H3 <-. revert H1 H2 H3. unfold fold_rune, spellings.
  destruct (r =? 383) eqn:?; [done|]. destruct (r =? 8490) eqn:?; [done|].
  destruct ((65 <=? r) && (r <=? 90)) eqn:E; intros ? ? ?.
  - replace ((97 <=? r + 32) && (r + 32 <=? 122)) with true by lia. replace (r + 32 - 32) with r by lia. set_solver.
  - destruct ((97 <=? r) && (r <=? 122)); set_solver.
Qed.

Fixpoint spelled (cs : list Z) : list (list Z) :=
  match cs with [] => [[]] | c :: cs => spellings c ≫= λ r, cons r <$> spelled cs end.

Lemma elem_of_spelled rs : Forall (λ r, fold_rune r ≠ 115 ∧ fold_rune r ≠ 107 ∧ fold_rune r < 128) rs →
  rs ∈ spelled (fold_rune <$> rs).
Proof.
  induction 1 as [|r rs (? & ? & ?) _ IH]; [by apply list_elem_of_singleton|]. rewrite fmap_cons. cbn [spelled].
  apply list_elem_of_bind. exists r. split; [by apply list_elem_of_fmap_2|by apply fold_rune_spellings].
Qed.

Definition interface_text : list (list Z) := spelled (fold_rune <$> runes "[Interface]").

Definition interface_spelled (rs : list Z) : bool :=
  let t := encode_all rs in
  forallb (λ r, negb (r =? rune_error)) rs && section_header t && (section_name t =s "interface")
  && negb ((t =s "") || comment_line t).

Lemma interface_text_spelled : forallb interface_spelled interface_text = true.
Proof. vm_compute. reflexivity. Qed.

Lemma interface_header t :
  equal_fold_ascii t "[Interface]" = true →
  section_header t = true ∧ section_name t = "interface" ∧ (t =s "") || comment_line t = false.
Proof.
  unfold equal_fold_ascii. rewrite bool_decide_eq_true. intros H.
  assert (Forall (λ c, c ≠ 115 ∧ c ≠ 107 ∧ c < 128) (fold_rune <$> runes t)) as Hf%Forall_fmap.
  { rewrite H. vm_compute. repeat constructor; discriminate. }
  assert (runes t ∈ interface_text) as Ht.
  { unfold interface_text. rewrite <-H. by apply elem_of_spelled. }
  pose proof (proj1 (forallb_forall _ _) interface_text_spelled _ (proj1 (list_elem_of_In _ _) Ht)) as Hs.
  unfold interface_spelled in Hs. cbv zeta in Hs. rewrite !andb_true_iff, negb_true_iff, String.eqb_eq, forallb_forall in Hs.
  destruct Hs as [[[He Hh] Hn] Hc].
  assert (encode_all (runes t) = t) as Eq.
  { apply encode_all_runes, Forall_forall. intros r Hr%list_elem_of_In ->. by specialize (He _ Hr). }
  by rewrite Eq in Hh, Hn, Hc.
Qed.

(** ** The agent's pass follows the parser's *)

Section simulation.
Context (p : externalEgressJobPayload).

(** The scan of the profile, the agent's state, and the scan of what the agent wrote. *)
Record follows (st : wireguard_state) (wr : wg_render_state) (st' : wireguard_state) (rd : string * list setting) : Prop := {
  fo_peer : same_peer (ws_preview st) (ws_preview st');
  fo_section : ws_section st' = ws_section st ∧ rd.1 = ws_section st;
  fo_known : one_of (ws_section st) [""; "interface"; "peer"] = true;
  fo_counts : ws_interfaces st' = ws_interfaces st ∧ ws_peers st' = ws_peers st;
  fo_key : wr_key wr = true → wg_HasPrivateKey (ws_preview st') = true;
  fo_interface : wr_interface wr = (ws_section st =s "interface");
  fo_phase : (ws_interfaces st = 0 ∧ ws_section st ≠ "interface" ∧ wr_table wr = false ∧ wr_key wr = false)
             ∨ (ws_interfaces st = 1 ∧ ws_section st = "interface" ∧ wr_table wr = false)
             ∨ (ws_interfaces st = 1 ∧ ws_section st = "peer" ∧ wr_table wr = true ∧ wr_key wr = true)
             ∨ 1 < ws_interfaces st;
  fo_table : ws_interfaces st ≤ 1 →
             settings_of "table" rd.2 = if wr_table wr then [("interface", "table", table_text p)] else [];
  fo_dns : settings_of "dns" rd.2 = [] }.

Definition wrote (out : list string) (st : wireguard_state) (wr : wg_render_state)
  (st' : wireguard_state) (rd : string * list setting) : Prop :=
  ∃ st1, wireguard_lines out st' = Ok st1 ∧ follows st wr st1 (foldl wg_read1 rd out).

Lemma wrote_nil st wr st' rd : follows st wr st' rd → wrote [] st wr st' rd.
Proof. intros H. by exists st'. Qed.

Lemma wrote_one line st wr st' st1 rd :
  wireguard_line line st' = Ok st1 → follows st wr st1 (wg_read1 rd line) → wrote [line] st wr st' rd.
Proof. intros H Hf. exists st1. split; [|done]. cbn [wireguard_lines]. by rewrite H. Qed.

Lemma wrote_app a b st wr st' rd st1 :
  wireguard_lines a st' = Ok st1 → wrote b st wr st1 (foldl wg_read1 rd a) → wrote (a ++ b) st wr st' rd.
Proof.
  intros Ha (st2 & Hb & Hf). exists st2. rewrite wireguard_lines_app, Ha, foldl_app. done.
Qed.

(** Where the Interface section ends, the managed lines are read as its settings. *)
Lemma close_interface_wrote st wr st' rd out wr' :
  follows st wr st' rd → ws_interfaces st ≤ 1 → close_interface p wr = Ok (out, wr') →
  ∃ st1, wireguard_lines out st' = Ok st1
    ∧ follows (if wr_interface wr then {| ws_preview := ws_preview st; ws_section := "peer"; ws_interfaces := ws_interfaces st;
                                          ws_peers := ws_peers st |} else st) wr'
        (if wr_interface wr then {| ws_preview := ws_preview st1; ws_section := "peer"; ws_interfaces := ws_interfaces st1;
                                    ws_peers := ws_peers st1 |} else st1)
        (if wr_interface wr then "peer" else rd.1, (foldl wg_read1 rd out).2)
    ∧ ws_section st1 = ws_section st ∧ (foldl wg_read1 rd out).1 = ws_section st.
Proof.
  intros [Hp [Hs Hr] Hn [Hi He] Hk Hw Hph Ht Hd] Hle. unfold close_interface.
  destruct (wr_interface wr) eqn:Ew.
  2:{ intros [= <- <-]. exists st'. split; [reflexivity|]. split; [|by split]. destruct rd. split; auto. by rewrite Ew. }
  symmetry in Hw. apply String.eqb_eq in Hw.
  assert (ws_interfaces st = 1 ∧ wr_table wr = false) as [Hi1 Hnt].
  { destruct Hph as [(_ & Hx & _)|[(? & _ & ?)|[(_ & Hx & _)|?]]]; [by destruct Hx|done|congruence|lia]. }
  rewrite Hnt in *. specialize (Ht Hle). intros H. apply bind_ok_inv in H as (key & Hkey & [= <- <-]).
  destruct (read_table p st' rd) as [Etl Etr]; [congruence|congruence|].
  destruct (wr_key wr) eqn:Ek.
  - injection Hkey as <-. exists st'. cbn [app wireguard_lines foldl]. rewrite Etl, Etr. split; [done|].
    split; [|split; [exact Hs|symmetry; exact Hw]].
    split; cbn [ws_preview ws_section ws_interfaces ws_peers wr_key wr_interface wr_table fst snd]; auto.
    + right. right. left. repeat split; assumption || reflexivity.
    + intros _. by rewrite settings_of_app, Ht, settings_of_one.
    + by rewrite settings_of_app, Hd, settings_of_one.
  - apply bind_ok_inv in Hkey as (line & Hline & [= <-]). unfold job_private_key in Hline.
    apply bind_ok_inv in Hline as (? & Hg%guard_err_ok & [= <-]).
    set (key := trim_space (secret p "private_key")) in *.
    assert (key ≠ "") as Hne by (destruct key; [discriminate Hg|done]).
    destruct (read_private_key key st' ("interface", rd.2 ++ [("interface", "table", table_text p)])) as [Ekl Ekr];
      [apply trim_space_idemp|done|congruence|done|].
    eexists. cbn [app wireguard_lines foldl]. rewrite Etl, Etr. cbn [mbind result_bind]. rewrite Ekl, Ekr. split; [done|].
    split; [|split; [exact Hs|symmetry; exact Hw]].
    split; cbn [ws_preview ws_section ws_interfaces ws_peers wr_key wr_interface wr_table fst snd with_preview]; auto.
    + right. right. left. repeat split; assumption || reflexivity.
    + intros _. rewrite !settings_of_app, Ht, !settings_of_one. done.
    + rewrite !settings_of_app, Hd, !settings_of_one. done.
Qed.

(** A key that starts like a header or a comment is none of the managed ones. *)
Lemma rendered_other line wr c s :
  trim_space line = String c s → firm_byte c = true → existsb (Ascii.eqb c) (bytes "=tdp") = false →
  wireguard_rendered p line wr = Ok ([line], wr).
Proof.
  intros Et Hc Hl. simpl in Hl. rewrite !orb_false_iff in Hl. destruct Hl as (He & Ht & Hd & Hp & _).
  unfold wireguard_rendered, cut_equals. rewrite Et. cbn [cut_char]. rewrite He.
  destruct (cut_char "=" s) as [[k v]|]; [|reflexivity]. destruct (config_key_firm c k Hc) as [t Ek]. rewrite Ek.
  cbn. rewrite Ht, Hd, Hp, !andb_false_r. reflexivity.
Qed.
(** A header is read with its section. *)
Lemma read_header line t section st rd :
  trim_space line = t → section_header t = true → (t =s "") || comment_line t = false → section_name t = section →
  one_of section ["interface"; "peer"] = true →
  wireguard_line line st
    = Ok {| ws_preview := ws_preview st; ws_section := section;
            ws_interfaces := ws_interfaces st + (if section =s "interface" then 1 else 0);
            ws_peers := ws_peers st + (if section =s "peer" then 1 else 0) |}
  ∧ wg_read1 rd line = (section, rd.2).
Proof.
  intros Et Hh Hc Hn Ho. unfold wireguard_line, wg_read1. rewrite Et, Hc. fold (section_header t). by rewrite Hh, Hn, Ho.
Qed.

Lemma no_table section key : one_of section ["interface"; "peer"] = true → one_of key ["table"; "dns"] = true →
  ∀ q v, wireguard_value q section key v = Ok q.
Proof.
  rewrite !one_of_spec. intros Hs Hk q v.
  repeat (apply elem_of_cons in Hs as [->|Hs]); try by apply elem_of_nil in Hs.
  all: repeat (apply elem_of_cons in Hk as [->|Hk]); try by apply elem_of_nil in Hk.
  all: reflexivity.
Qed.

Definition count_ok (st : wireguard_state) : Prop := ws_interfaces st ≤ 1.

(** The interface's header. *)
Lemma step_interface line st st2 wr st' rd :
  follows st wr st' rd → count_ok st2 → wireguard_line line st = Ok st2 →
  equal_fold_ascii (trim_space line) "[Interface]" = true →
  wrote [line] st2 {| wr_interface := true; wr_table := wr_table wr; wr_key := wr_key wr |} st' rd.
Proof.
  intros [Hp [Hs Hr] Hn [Hi He] Hk Hw Hph Ht Hd] Hc Hl Heq.
  destruct (interface_header _ Heq) as (Hh & Hname & Hcm).
  destruct (read_header line _ _ st rd eq_refl Hh Hcm Hname eq_refl) as [El _]. rewrite El in Hl. injection Hl as <-.
  destruct (read_header line _ _ st' rd eq_refl Hh Hcm Hname eq_refl) as [El' Er].
  unfold count_ok in Hc. cbn in Hc.
  assert (ws_interfaces st = 0 ∧ wr_table wr = false ∧ wr_key wr = false) as (H0 & Hnt & Hnk).
  { destruct Hph as [(? & _ & ? & ?)|[(? & _)|[(? & _)|?]]]; [by repeat split|lia|lia|lia]. }
  eapply wrote_one; [exact El'|]. rewrite Er.
  split; cbn [ws_preview ws_section ws_interfaces ws_peers wr_key wr_interface wr_table fst snd]; auto.
  - split; [by rewrite Hi|by rewrite He].
  - right. left. split; [by rewrite H0|]. by split.
  - intros _. rewrite Ht by lia. reflexivity.
Qed.

(** Another header, after the managed lines where the interface's section ends. *)
Lemma step_header line st st2 wr st' rd out wr2 :
  follows st wr st' rd → count_ok st2 → count_ok st → wireguard_line line st = Ok st2 →
  equal_fold_ascii (trim_space line) "[Interface]" = false → plain_header line = true → has_prefix "[" (trim_space line) = true →
  close_interface p wr = Ok (out, wr2) →
  wrote (out ++ [line]) st2 wr2 st' rd.
Proof.
  intros Hf Hc2 Hc Hl Heq Hplain Hpre Hcl. unfold plain_header in Hplain. rewrite Hpre, Heq, orb_false_r in Hplain.
  simpl in Hplain. apply andb_true_iff in Hplain as [Hsuf Hname%negb_true_iff].
  assert (section_header (trim_space line) = true) as Hh by (unfold section_header; by rewrite Hpre, Hsuf).
  assert ((trim_space line =s "") || comment_line (trim_space line) = false) as Hcm.
  { destruct (trim_space line) as [|c s]; [done|]. unfold has_prefix in Hpre. cbn [strip_prefix] in Hpre.
    destruct (Ascii.eqb_spec "[" c); [subst; reflexivity|discriminate Hpre]. }
  assert (section_name (trim_space line) = "peer") as Hpeer.
  { unfold wireguard_line in Hl. rewrite Hcm in Hl. fold (section_header (trim_space line)) in Hl. rewrite Hh in Hl.
    apply bind_ok_inv in Hl as (? & Hg%guard_err_ok & _). apply one_of_spec in Hg. apply String.eqb_neq in Hname. set_solver. }
  destruct (read_header line _ _ st rd eq_refl Hh Hcm Hpeer eq_refl) as [El _]. rewrite El in Hl. injection Hl as <-.
  destruct (close_interface_wrote _ _ _ _ _ _ Hf Hc Hcl) as (st1 & Hlines & Hf1 & Hs1 & Hr1).
  eapply wrote_app; [exact Hlines|].
  destruct (read_header line _ _ st1 (foldl wg_read1 rd out) eq_refl Hh Hcm Hpeer eq_refl) as [El1 Er1].
  eapply wrote_one; [exact El1|]. rewrite Er1.
  assert (wr_interface wr2 = false) as Hw2.
  { revert Hcl. unfold close_interface. destruct (wr_interface wr) eqn:E; [|by intros [= _ <-]].
    intros H. by apply bind_ok_inv in H as (? & _ & [= _ <-]). }
  destruct Hf1 as [Hp [Hs Hr] Hn [Hi He] Hk Hw Hph Ht Hd]. unfold count_ok in *. cbn in Hc2.
  destruct (wr_interface wr) eqn:Ewi; cbn [ws_preview ws_section ws_interfaces ws_peers fst snd] in *;
    (split; cbn [ws_preview ws_section ws_interfaces ws_peers fst snd]; rewrite ?Z.add_0_r; auto).
  - by split; rewrite ?Hi, ?He.
  - by split; rewrite ?Hi, ?He.
  - destruct Hph as [(? & _ & ? & ?)|[(_ & Hx & _)|[(? & _ & ? & ?)|?]]]; [left; by repeat split| | |lia].
    + rewrite Hx in Hw. rewrite Hw in Hw2. discriminate.
    + right. right. left. by repeat split.
Qed.
Lemma known_section st : one_of (ws_section st) [""; "interface"; "peer"] = true → ws_section st ≠ "" →
  one_of (ws_section st) ["interface"; "peer"] = true.
Proof. rewrite !one_of_spec. intros H Hs. apply elem_of_cons in H as [H|H]; [by destruct Hs|done]. Qed.

(** A setting of the profile's. *)
Lemma step_setting line key value st q wr st' rd out wr2 :
  follows st wr st' rd → section_header (trim_space line) = false →
  (trim_space line =s "") || comment_line (trim_space line) = false →
  cut_equals (trim_space line) = Some (key, value) → ws_section st ≠ "" →
  one_of (config_key key) wireguard_hooks = false → (ws_section st =s "interface") && (config_key key =s "fwmark") = false →
  wireguard_value (ws_preview st) (ws_section st) (config_key key) (trim_space value) = Ok q →
  wireguard_rendered p line wr = Ok (out, wr2) →
  wrote out (with_preview st q) wr2 st' rd.
Proof.
  intros [Hp [Hs Hrd] Hn [Hi He] Hk Hw Hph Ht Hd] Hh Hcm Hcut Hs0 Hhook Hfw Hv Hr.
  unfold wireguard_rendered in Hr. rewrite Hcut in Hr. pose proof (known_section _ Hn Hs0) as Hkn.
  destruct (one_of (config_key key) ["table"; "dns"]) eqn:Htd.
  { rewrite no_table in Hv by done. injection Hv as <-. injection Hr as <- <-. apply wrote_nil. by split. }
  destruct (wr_interface wr && (config_key key =s "privatekey")) eqn:Hpk.
  { apply andb_true_iff in Hpk as [Hwi Hkey%String.eqb_eq]. rewrite Hwi in Hw. symmetry in Hw. apply String.eqb_eq in Hw.
    apply bind_ok_inv in Hr as (? & Hg%guard_err_ok & Hr).
    set (private := if trim_space (secret p "private_key") =s "" then _ else _) in *. injection Hr as <- <-.
    assert (trim_space private = private) as Hpt by (unfold private; destruct (trim_space (secret p "private_key") =s ""); apply trim_space_idemp).
    assert (private ≠ "") as Hne by (destruct private; [discriminate Hg|discriminate]).
    rewrite Hw, Hkey in Hv. cbn in Hv. injection Hv as <-.
    destruct (read_private_key private st' rd Hpt Hne) as [El Er]; [congruence|congruence|].
    eapply wrote_one; [exact El|]. rewrite Er.
    split; cbn [ws_preview ws_section ws_interfaces ws_peers wr_key wr_interface wr_table fst snd with_preview]; auto.
    - by rewrite Hwi, Hw.
    - destruct Hph as [(_ & Hx & _)|[?|[(_ & Hx & _)|?]]]; [by destruct Hx|auto|congruence|auto].
    - intros Hc. rewrite settings_of_app, Ht by done. by rewrite settings_of_one, app_nil_r.
    - by rewrite settings_of_app, Hd, settings_of_one. }
  destruct (negb (wr_interface wr) && (config_key key =s "presharedkey") && _) eqn:Hps.
  { rewrite !andb_true_iff, !negb_true_iff, String.eqb_eq, String.eqb_neq in Hps. destruct Hps as [[Hwi Hkey] Hne].
    apply bind_ok_inv in Hr as (? & Hg%guard_err_ok & Hr). injection Hr as <- <-.
    assert (ws_section st = "peer") as Hpeer.
    { rewrite Hwi in Hw. symmetry in Hw. apply String.eqb_neq in Hw. apply one_of_spec in Hkn. set_solver. }
    rewrite Hpeer, Hkey in Hv. cbn in Hv. injection Hv as <-.
    destruct (read_preshared_key (trim_space (secret p "preshared_key")) st' rd (trim_space_idemp _) Hne) as [El Er];
      [congruence|congruence|].
    eapply wrote_one; [exact El|]. rewrite Er.
    split; cbn [ws_preview ws_section ws_interfaces ws_peers wr_key wr_interface wr_table fst snd with_preview]; auto.
    - intros Hc. rewrite settings_of_app, Ht by done. by rewrite settings_of_one, app_nil_r.
    - by rewrite settings_of_app, Hd, settings_of_one. }
  injection Hr as <- <-.
  assert (ws_section st +:+ "." +:+ config_key key ≠ "interface.privatekey") as Hname.
  { intros E. rewrite Hw in Hpk. apply one_of_spec in Hkn.
    repeat (apply elem_of_cons in Hkn as [Hx|Hkn]); try by apply elem_of_nil in Hkn.
    - rewrite Hx in E, Hpk. injection E as E. rewrite sapp_nil_l in E. by rewrite E in Hpk.
    - by rewrite Hx in E. }
  destruct (same_peer_value _ _ _ _ _ _ Hp Hname Hv) as (q' & Hv' & Hp' & Hk').
  rewrite <-Hs in Hv', Hfw, Hs0.
  destruct (read_setting line _ key value st' rd eq_refl Hh Hcm Hcut Hs0) as [El Er]; [congruence|done|done|].
  rewrite Hv' in El. cbn [mbind result_bind] in El. eapply wrote_one; [exact El|]. rewrite Er.
  apply one_of_false in Htd.
  split; cbn [ws_preview ws_section ws_interfaces ws_peers wr_key wr_interface wr_table fst snd with_preview]; auto.
  - intros Hc. rewrite settings_of_app, Ht, settings_of_one by done. rewrite bool_decide_eq_false_2 by set_solver. by rewrite app_nil_r.
  - rewrite settings_of_app, Hd, settings_of_one. rewrite bool_decide_eq_false_2 by set_solver. done.
Qed.

(** Any other line: dropped, rewritten or copied. *)
Lemma wireguard_step_other line st st2 wr st' rd out wr2 :
  follows st wr st' rd → wireguard_line line st = Ok st2 → has_prefix "[" (trim_space line) = false →
  wireguard_rendered p line wr = Ok (out, wr2) → wrote out st2 wr2 st' rd.
Proof.
  intros Hf Hl Hpre Hr. assert (section_header (trim_space line) = false) as Hh by (unfold section_header; by rewrite Hpre).
  destruct ((trim_space line =s "") || comment_line (trim_space line)) eqn:Hcm.
  { assert (out = [line] ∧ wr2 = wr) as [-> ->].
    { revert Hr. destruct (trim_space line) as [|c s] eqn:Et.
      - unfold wireguard_rendered, cut_equals. rewrite Et. by intros [= <- <-].
      - unfold comment_line, has_prefix in Hcm. cbn [strip_prefix String.eqb orb] in Hcm.
        destruct (Ascii.eqb_spec "#" c); [|destruct (Ascii.eqb_spec ";" c); [|discriminate Hcm]]; subst c;
          rewrite (rendered_other _ _ _ _ Et) by reflexivity; by intros [= <- <-]. }
    unfold wireguard_line in Hl. rewrite Hcm in Hl. injection Hl as <-.
    eapply wrote_one; [unfold wireguard_line; by rewrite Hcm|]. unfold wg_read1. by rewrite Hcm. }
  unfold wireguard_line in Hl. rewrite Hcm in Hl. fold (section_header (trim_space line)) in Hl. rewrite Hh in Hl.
  destruct (cut_equals (trim_space line)) as [[key value]|] eqn:Hcut; [|discriminate Hl].
  apply bind_ok_inv in Hl as (? & Hs%guard_err_ok%negb_true_iff%String.eqb_neq & Hl).
  apply bind_ok_inv in Hl as (? & Hk%guard_err_ok%negb_true_iff & Hl).
  apply bind_ok_inv in Hl as (? & Hfw%guard_err_ok%negb_true_iff & Hl).
  apply bind_ok_inv in Hl as (q & Hv & Hl). injection Hl as <-.
  exact (step_setting line key value st q wr st' rd out wr2 Hf Hh Hcm Hcut Hs Hk Hfw Hv Hr).
Qed.
Lemma line_counts line st st2 : wireguard_line line st = Ok st2 → ws_interfaces st ≤ ws_interfaces st2.
Proof.
  unfold wireguard_line. cbv zeta. destruct (_ || _); [intros [= ->]; lia|]. destruct (_ && _).
  - intros H. apply bind_ok_inv in H as (? & _ & [= <-]). cbn. destruct (_ =s "interface"); lia.
  - destruct (cut_equals _) as [[key value]|]; [|done]. intros H. inv_binds. subst st2. cbn. lia.
Qed.

Lemma lines_counts lines st st2 : wireguard_lines lines st = Ok st2 → ws_interfaces st ≤ ws_interfaces st2.
Proof.
  revert st. induction lines as [|line lines IH]; intros st; cbn [wireguard_lines]; [intros [= ->]; lia|].
  intros (st1 & H1%line_counts & H2%IH)%bind_ok_inv. lia.
Qed.

Lemma wireguard_step_wrote line st st2 wr st' rd out wr2 :
  follows st wr st' rd → count_ok st2 → wireguard_line line st = Ok st2 → plain_header line = true →
  wireguard_step p line wr = Ok (out, wr2) → wrote out st2 wr2 st' rd.
Proof.
  intros Hf Hc Hl Hplain. unfold wireguard_step. cbv zeta.
  assert (count_ok st) as Hc0 by (unfold count_ok in *; pose proof (line_counts _ _ _ Hl); lia).
  destruct (equal_fold_ascii _ _) eqn:Heq; [intros [= <- <-]; by eapply step_interface|].
  intros ([out1 wr1] & H1 & ([out2 wr3] & H2 & [= <- <-])%bind_ok_inv)%bind_ok_inv.
  destruct (has_prefix "[" (trim_space line)) eqn:Hpre.
  - assert (∃ s, trim_space line = String "[" s) as [s Et].
    { destruct (trim_space line) as [|c s]; [done|]. unfold has_prefix in Hpre. cbn [strip_prefix] in Hpre.
      destruct (Ascii.eqb_spec "[" c); [subst; eauto|discriminate Hpre]. }
    rewrite (rendered_other line wr1 _ _ Et) in H2 by reflexivity. injection H2 as <- <-.
    by eapply step_header.
  - injection H1 as <- <-. by eapply wireguard_step_other.
Qed.

Lemma wireguard_render_wrote lines st st2 wr st' rd out wr2 :
  follows st wr st' rd → count_ok st2 → wireguard_lines lines st = Ok st2 → forallb plain_header lines = true →
  wireguard_render p lines wr = Ok (out, wr2) → wrote out st2 wr2 st' rd.
Proof.
  revert st wr st' rd out wr2. induction lines as [|line lines IH]; intros st wr st' rd out wr2 Hf Hc.
  - intros [= <-] _ [= <- <-]. by apply wrote_nil.
  - cbn [wireguard_lines forallb wireguard_render].
    intros (st1 & Hl & Hls)%bind_ok_inv [Hpl Hpls]%andb_true_iff
      ([out1 wr1] & H1 & ([rest wr3] & H2 & [= <- <-])%bind_ok_inv)%bind_ok_inv.
    assert (count_ok st1) as Hc1 by (unfold count_ok in *; pose proof (lines_counts _ _ _ Hls); lia).
    destruct (wireguard_step_wrote _ _ _ _ _ _ _ _ Hf Hc1 Hl Hpl H1) as (st1' & Hw1 & Hf1).
    eapply wrote_app; [exact Hw1|]. by eapply IH.
Qed.
End simulation.

Lemma breaks_line_LF s : breaks_line s = false → LF ∉ bytes s.
Proof. unfold breaks_line. intros H Hin. rewrite existsb_false in H. specialize (H _ Hin). by rewrite orb_true_r in H. Qed.

Lemma rendered_without_LF p line st out st' :
  LF ∉ bytes line → wireguard_rendered p line st = Ok (out, st') → Forall (λ l, LF ∉ bytes l) out.
Proof.
  unfold wireguard_rendered. intros Hline. destruct (cut_equals _) as [[key value]|].
  2:{ intros [= <- <-]. by constructor. }
  cbv zeta. destruct (one_of _ _); [intros [= <- <-]; constructor|]. destruct (_ && _).
  { intros (? & Hg%guard_err_ok%negb_true_iff%orb_false_iff & [= <- <-])%bind_ok_inv. destruct Hg as [_ Hg%breaks_line_LF].
    constructor; [|constructor]. by rewrite bytes_app, elem_of_app; intros [H%list_elem_of_In|?]; [vm_compute in H; intuition discriminate|]. }
  destruct (_ && _ && _).
  { intros (? & Hg%guard_err_ok%negb_true_iff%breaks_line_LF & [= <- <-])%bind_ok_inv.
    constructor; [|constructor]. by rewrite bytes_app, elem_of_app; intros [H%list_elem_of_In|?]; [vm_compute in H; intuition discriminate|]. }
  intros [= <- <-]. by constructor.
Qed.

Lemma close_without_LF p st out st' : close_interface p st = Ok (out, st') → Forall (λ l, LF ∉ bytes l) out.
Proof.
  unfold close_interface, job_private_key. destruct (wr_interface st); [|intros [= <- <-]; constructor].
  intros (key & Hkey & [= <- <-])%bind_ok_inv. apply Forall_app. split.
  - destruct (wr_table st); [constructor|]. constructor; [|constructor]. unfold table_line.
    rewrite bytes_app, elem_of_app. intros [H%list_elem_of_In|H%itoa_bytes]; [vm_compute in H; intuition discriminate|].
    by destruct H as [H|H]; [vm_compute in H|].
  - destruct (wr_key st); [injection Hkey as <-; constructor|].
    apply bind_ok_inv in Hkey as (line & (? & Hg%guard_err_ok%negb_true_iff%orb_false_iff & [= <-])%bind_ok_inv & [= <-]).
    destruct Hg as [_ Hg%breaks_line_LF]. constructor; [|constructor].
    by rewrite bytes_app, elem_of_app; intros [H%list_elem_of_In|?]; [vm_compute in H; intuition discriminate|].
Qed.

Lemma render_without_LF p lines st out st' :
  Forall (λ l, LF ∉ bytes l) lines → wireguard_render p lines st = Ok (out, st') → Forall (λ l, LF ∉ bytes l) out.
Proof.
  intros Hl. revert st out. induction Hl as [|line lines Hline _ IH]; intros st out; cbn [wireguard_render].
  { intros [= <- <-]. constructor. }
  intros ([out1 st1] & H1 & ([rest st2] & H2 & [= <- <-])%bind_ok_inv)%bind_ok_inv.
  apply Forall_app. split; [|by eapply IH]. revert H1. unfold wireguard_step. cbv zeta.
  destruct (equal_fold_ascii _ _); [intros [= <- <-]; by constructor|].
  intros ([a sa] & Ha & ([b sb] & Hb & [= <- <-])%bind_ok_inv)%bind_ok_inv. apply Forall_app. split.
  - destruct (has_prefix _ _); [by eapply close_without_LF|injection Ha as <- <-; constructor].
  - by eapply rendered_without_LF.
Qed.

(** The scan itself asks for no secret. *)
Lemma value_secrets q section key value q' :
  wireguard_value q section key value = Ok q' → wg_RequiredSecrets q' = wg_RequiredSecrets q.
Proof.
  unfold wireguard_value. cbv zeta. destruct (_ =s _); [by intros [= <-]|]. destruct (_ =s _).
  { by intros (l & _ & [= <-])%bind_ok_inv. }
  destruct (_ =s _); [by intros [= <-]|]. destruct (_ =s _).
  { destruct (SplitHostPort value) as [[host port]|]; [|done]. destruct (atoi port); [|done].
    destruct (_ || _); [done|]. destruct (_ && _); [done|]. intros [= <-]. unfold with_endpoint. by destruct (negb _). }
  destruct (_ =s _); [by intros (l & _ & [= <-])%bind_ok_inv|by intros [= <-]].
Qed.

Lemma lines_secrets lines st st' :
  wireguard_lines lines st = Ok st' → wg_RequiredSecrets (ws_preview st') = wg_RequiredSecrets (ws_preview st).
Proof.
  revert st. induction lines as [|line lines IH]; intros st; cbn [wireguard_lines]; [by intros [= ->]|].
  intros (st1 & Hl & ->%IH)%bind_ok_inv. revert Hl. unfold wireguard_line. cbv zeta.
  destruct (_ || _); [by intros [= ->]|]. destruct (_ && _); [by intros (? & _ & [= <-])%bind_ok_inv|].
  destruct (cut_equals _) as [[key value]|]; [|done].
  intros (_ & _ & (_ & _ & (_ & _ & (q & Hq & [= <-])%bind_ok_inv)%bind_ok_inv)%bind_ok_inv)%bind_ok_inv.
  by apply value_secrets in Hq.
Qed.

(** ** The rendered configuration *)

