(* ===== verification/EgressOpenVPN.v ===== *)
(** * OpenVPN profiles: what the agent renders from one it accepted

    The parser of profiles refuses the directives that run programs or open
    files; the renderer copies what the parser accepted, with its own reading of
    the lines, drops the routes and the device, and replaces the paths.  Where
    the two readings agree, every directive of the rendered configuration is one
    the parser allows, and every path is inline or a file of the deployment. *)
From stdpp Require Import gmap.
From S2P Require Import Prelude GoStrings Strconv GoValue Netip NetHost Firewall FirewallAgent Shell AgentPaths AgentPathsProps EgressText EgressProfiles EgressRender.
From Stdlib Require Import Ascii.
From stdpp Require Import options.
Open Scope Z_scope.

(** ** Reading a configuration with the parser's fields *)

Notation directive := (string * list string)%type.
Definition directive_name (word : string) : string := to_lower (trim_dashes word).

(** The open inline block after a line, and the directives so far. *)
Definition ov_read1 (st : string * list directive) (line : string) : string * list directive :=
  let line := trim_space line in
  if (line =s "") || comment_line line then st
  else if has_prefix "<" line then (if has_prefix "</" line then "" else tag_name line, st.2)
  else if negb (st.1 =s "") then st
  else match splitOpenVPNFields line with
       | Some (first :: args) => (st.1, st.2 ++ [(directive_name first, args)])
       | _ => st
       end.
Definition ov_directives (lines : list string) : list directive := (foldl ov_read1 ("", []) lines).2.

(** ** Lines that both readers take alike *)

Definition words_key (words : list string) : option (string * option string) :=
  match words with
  | [] => None
  | first :: args =>
      let d := directive_name first in Some (d, if one_of d path_directives then head args else None)
  end.
Definition readers_agree (line : string) : bool :=
  match splitOpenVPNFields line with
  | Some (first :: args) => bool_decide (words_key (first :: args) = words_key (fields line))
  | _ => false
  end.

(** The open block after a line, for the parser; and the lines meant. *)
Definition next_open (open t : string) : string :=
  if (t =s "") || comment_line t then open
  else if has_prefix "<" t then (if has_prefix "</" t then "" else tag_name t)
  else open.
Definition plain_line (open t : string) : bool :=
  if (t =s "") || comment_line t then true
  else if has_prefix "<" t then negb (has_prefix "</" t) || closes_block (tag_name t) t
  else negb (open =s "") || readers_agree t.

Fixpoint plain_profile (open : string) (lines : list string) : bool :=
  match lines with
  | [] => true
  | line :: lines => plain_line open (trim_space line) && plain_profile (next_open open (trim_space line)) lines
  end.

(** ** Fields of plain words *)

Definition word_byte (a : ascii) : bool :=
  no_space a && negb (Ascii.eqb a bslash) && negb (quote_mark (byte_val a)).
Definition plain_word (w : string) : Prop := w ≠ "" ∧ all_bytes word_byte w.

Lemma word_byte_no_space a : word_byte a = true → no_space a = true.
Proof. unfold word_byte. intros. by split_bools. Qed.
Lemma word_byte_ascii a : word_byte a = true → ascii_byte a = true.
Proof. unfold word_byte, no_space. intros. by split_bools. Qed.

Lemma trim_plain_word w : plain_word w → trim_space w = w.
Proof. intros [_ H]. apply trim_space_no_space. eapply all_bytes_impl; [|exact H]. apply word_byte_no_space. Qed.

Lemma openvpn_fields_word w rs cur :
  all_bytes word_byte w → openvpn_fields (runes w ++ rs) cur None false = openvpn_fields rs (cur +:+ w) None false.
Proof.
  revert cur. induction w as [|a w IH]; intros cur; [by rewrite sapp_nil_r|]. rewrite all_bytes_cons. intros [Ha Hw].
  pose proof (word_byte_ascii _ Ha) as Haa. unfold ascii_byte in Haa. pose proof (byte_val_range a) as Hr.
  rewrite (runes_decode1 _ (byte_val a) w) by (unfold decode1; by rewrite Haa). cbn [app openvpn_fields].
  assert (byte_val a ≠ 92) as H92 by (intros E; apply byte_val_inj with (b := bslash) in E; subst; discriminate Ha).
  assert (byte_val a ≠ 32 ∧ byte_val a ≠ 9) as [H32 H9].
  { split; intros E; [apply byte_val_inj with (b := " "%char) in E|apply byte_val_inj with (b := "009"%char) in E]; subst; discriminate Ha. }
  unfold word_byte in Ha. split_bools. unfold bslash_rune. replace (quote_mark (byte_val a)) with false by congruence. bool_lia. simpl.
  rewrite IH by done. rewrite encode_ascii by lia. rewrite byte_chr_val. f_equal. by rewrite sapp_assoc.
Qed.

Lemma openvpn_fields_words ws : Forall plain_word ws → splitOpenVPNFields (join " " ws) = Some ws.
Proof.
  unfold splitOpenVPNFields. induction 1 as [|w ws [Hne Hw] Hws IH]; [done|].
  assert (all_bytes ascii_byte w) as Ha by (eapply all_bytes_impl; [|exact Hw]; apply word_byte_ascii).
  apply String.eqb_neq in Hne.
  destruct ws as [|w' ws].
  - cbn [join]. rewrite <-(app_nil_r (runes w)), openvpn_fields_word, sapp_nil_l by done. cbn [openvpn_fields orb]. unfold flush. by rewrite Hne.
  - change (join " " (w :: w' :: ws)) with (w +:+ (" " +:+ join " " (w' :: ws))).
    rewrite (runes_ascii_app w), (runes_ascii_app " ") by (done || by apply all_bytes_dec).
    rewrite openvpn_fields_word, sapp_nil_l by done. change (runes " ") with [32].
    cbn [app openvpn_fields]. change (32 =? bslash_rune) with false. change (quote_mark 32) with false.
    change ((32 =? 32) || (32 =? 9)) with true. cbn iota. rewrite IH. unfold flush. cbn [fmap option_fmap option_map]. by rewrite Hne.
Qed.

Lemma plain_word_lead w s : plain_word w → no_lead_space (w +:+ s).
Proof.
  intros [Hne Hw]. destruct w as [|a w]; [done|]. rewrite all_bytes_cons in Hw. destruct Hw as [Ha _].
  apply word_byte_no_space in Ha. unfold no_space, ascii_byte in Ha. split_bools. unfold no_lead_space.
  rewrite sapp_cons, (runes_decode1 _ (byte_val a) (w +:+ s)) by (unfold decode1; by replace (byte_val a <? 128) with true).
  done.
Qed.

Lemma trim_plain_words ws : Forall plain_word ws → trim_space (join " " ws) = join " " ws.
Proof.
  induction 1 as [|w ws Hw Hws IH]; [done|]. destruct ws as [|w' ws]; [by apply trim_plain_word|].
  change (join " " (w :: w' :: ws)) with (w +:+ (" " +:+ join " " (w' :: ws))). rewrite <-sapp_assoc. inversion_clear Hws as [|? ? Hw' _].
  apply trim_space_line; [| by apply plain_word_lead | by destruct w | done |].
  - rewrite all_bytes_app. split; [|by apply all_bytes_dec]. eapply all_bytes_impl; [|exact (proj2 Hw)]. apply word_byte_ascii.
  - destruct Hw' as [Hne _]. destruct w'; [done|]. by destruct ws.
Qed.

(** ** Tags *)

Lemma lower_head c s t :
  byte_val c < 128 → ¬ (97 ≤ byte_val c ≤ 122) → to_lower s = String c t → ∃ s', s = String c s' ∧ to_lower s' = t.
Proof.
  intros Hc Hl E. pose proof (byte_val_range c) as Hr0.
  destruct (decode1 s) as [[r s']|] eqn:D; [|apply decode1_None in D; subst; discriminate E].
  pose proof (runes_decode1 _ _ _ D) as Hs. pose proof (runes_nonneg s) as Hn. rewrite Hs in Hn. inversion_clear Hn as [|? ? Hr _].
  pose proof (runes_to_lower s) as H. rewrite E, Hs, fmap_cons in H.
  rewrite (runes_decode1 (String c t) (byte_val c) t) in H by (unfold decode1; bool_lia; done). injection H as H _.
  symmetry in H. pose proof H as Hk. apply (to_lower_rune_ascii_fixed r Hr) in H; [|lia|done]. subst r.
  destruct (decode1_inv _ _ _ D) as [_ [He|Es]]; [unfold rune_error in He; lia|].
  rewrite encode_ascii, byte_chr_val in Es by lia. exists s'. subst s. split; [done|].
  unfold to_lower in E |- *. rewrite Hs, fmap_cons in E. cbn [encode_all foldr] in E.
  rewrite Hk, encode_ascii, byte_chr_val in E by lia. by injection E as E.
Qed.

Lemma closes_block_tag inline t : closes_block inline t = true → has_prefix "</" t = true.
Proof.
  unfold closes_block. rewrite !has_prefix_spec. intros [r E].
  destruct (lower_head "<" t ("/" +:+ (inline +:+ ">") +:+ r)) as (t1 & -> & E1); [done|intros [H _]; by apply H|exact E|].
  destruct (lower_head "/" t1 ((inline +:+ ">") +:+ r)) as (t2 & -> & _); [done|intros [H _]; by apply H|exact E1|].
  by exists t2.
Qed.

Lemma close_prefix t : has_prefix "</" t = true → has_prefix "<" t = true.
Proof. rewrite !has_prefix_spec. intros [r ->]. by exists ("/" +:+ r). Qed.

Lemma comment_no_tag t : (t =s "") || comment_line t = true → has_prefix "<" t = false.
Proof.
  destruct t as [|c t]; [done|]. unfold comment_line, has_prefix. cbn [String.eqb orb strip_prefix].
  destruct (Ascii.eqb_spec "<" c); [subst; discriminate|done].
Qed.

Lemma no_tag_closes inline t : has_prefix "<" t = false → closes_block inline t = false.
Proof.
  intros H. apply not_true_is_false. intros Hc%closes_block_tag%close_prefix. congruence.
Qed.

Lemma no_tag_opens t : has_prefix "<" t = false → opens_block t = false.
Proof. unfold opens_block. by intros ->. Qed.

(** ** What the rendered directives are *)

Section managed.
Context (m : gmap string string).

(** The directives of the profile that remain. *)
Definition managed_directive (d : directive) : Prop :=
  one_of d.1 forbiddenOpenVPNDirectives = false ∧ one_of d.1 dropped_directives = false
  ∧ (one_of d.1 path_directives = true → ∀ a, head d.2 = Some a → a = "[inline]" ∨ m !! d.1 = Some a).

(** The files named in the configuration: directives of paths, at plain paths. *)
Definition files_plain : Prop :=
  ∀ d path, m !! d = Some path → one_of d path_directives = true ∧ plain_word path.

(** The scan of the profile, the agent's state, and the reading of what it wrote. *)
Record ov_follows (st : openvpn_state) (inline : string) (skip : bool) (rd : string * list directive) : Prop := {
  of_inline : inline = os_open st;
  of_open : rd.1 = if skip then "" else os_open st;
  of_skip : os_open st = "" → skip = false;
  of_directives : Forall managed_directive rd.2 }.

Definition ov_out (skip : bool) (line : string) : list string := if skip then [] else [line].

Lemma read_replaced d path extra rd :
  one_of d path_directives = true → plain_word path → extra = [] ∨ extra = ["0"] ∨ extra = ["1"] → rd.1 = "" →
  ov_read1 rd (join " " (d :: path :: extra)) = (rd.1, rd.2 ++ [(d, path :: extra)]).
Proof.
  intros Hd Hp He Hrd. assert (plain_word d ∧ directive_name d = d ∧
    ∀ s, (d +:+ " " +:+ s =s "") || comment_line (d +:+ " " +:+ s) = false ∧ has_prefix "<" (d +:+ " " +:+ s) = false) as (Hw & Hn & Hs).
  { apply one_of_spec in Hd.
    repeat (apply elem_of_cons in Hd as [->|Hd]); try by apply elem_of_nil in Hd.
    all: split; [split; [discriminate|by apply all_bytes_dec]|]; split; [reflexivity|]; intros s; split; reflexivity. }
  assert (Forall plain_word (d :: path :: extra)) as Hall.
  { constructor; [done|]. constructor; [done|]. destruct He as [->|[->| ->]]; repeat constructor; discriminate || reflexivity. }
  assert (∃ s, join " " (d :: path :: extra) = d +:+ " " +:+ s) as [s Es] by (eexists; reflexivity).
  unfold ov_read1. rewrite trim_plain_words, Es by done. destruct (Hs s) as [-> ->]. rewrite Hrd. cbn [String.eqb negb].
  rewrite <-Es, openvpn_fields_words by done. by rewrite Hn.
Qed.

(** A directive of the profile outside the inline blocks. *)
Lemma rendered_follows line first args out rd p p' :
  files_plain → (trim_space line =s "") || comment_line (trim_space line) = false → has_prefix "<" (trim_space line) = false →
  splitOpenVPNFields (trim_space line) = Some (first :: args) → readers_agree (trim_space line) = true →
  openvpn_directive p (directive_name first) args = Ok p' →
  openvpn_rendered m line (splitExternalOpenVPNLine (trim_space line)) = Ok out →
  rd.1 = "" → Forall managed_directive rd.2 →
  (foldl ov_read1 rd out).1 = "" ∧ Forall managed_directive (foldl ov_read1 rd out).2.
Proof.
  intros Hm Hc Ht Hsplit Hag Hdir Hr Hrd Hall. unfold readers_agree in Hag. rewrite Hsplit, bool_decide_eq_true in Hag.
  assert (one_of (directive_name first) forbiddenOpenVPNDirectives = false) as Hf.
  { revert Hdir. unfold openvpn_directive. by destruct (one_of _ _). }
  unfold splitExternalOpenVPNLine in Hr. rewrite Hc in Hr. destruct (fields (trim_space line)) as [|w wargs]; [done|].
  cbn [words_key openvpn_rendered] in *. fold (directive_name w) in Hr. cbv zeta in Hr. apply (inj Some), pair_equal_spec in Hag as [Hd Hh]. rewrite <-Hd in Hr, Hh.
  destruct (one_of (directive_name first) dropped_directives) eqn:Hdrop; [injection Hr as <-; by split|].
  assert (ov_read1 rd line = (rd.1, rd.2 ++ [(directive_name first, args)])) as Hread.
  { unfold ov_read1. by rewrite Hc, Ht, Hrd, Hsplit. }
  destruct (m !! directive_name first) as [path|] eqn:Hl.
  - destruct (Hm _ _ Hl) as [Hp Hw].
    assert (∃ extra, out = [join " " (directive_name first :: path :: extra)] ∧ (extra = [] ∨ extra = ["0"] ∨ extra = ["1"]))
      as (extra & -> & He).
    { revert Hr. destruct wargs as [|? [|direction [|? ?]]]; [intros [= <-]; exists []; auto|intros [= <-]; exists []; auto| |done].
      destruct (one_of direction ["0"; "1"]) eqn:E; [|done]. intros [= <-]. exists [direction]. split; [done|].
      apply one_of_spec in E. set_unfold in E. destruct E as [->|[->|[]]]; auto. }
    cbn [foldl]. rewrite read_replaced by done. split; [done|]. apply Forall_app. split; [done|]. constructor; [|constructor].
    split; [done|]. split; [done|]. cbn. intros _ a [= <-]. auto.
  - assert (out = [line] ∧ (one_of (directive_name first) path_directives = true → head args = None ∨ head args = Some "[inline]")) as [-> Hin].
    { destruct wargs as [|path wargs].
      - injection Hr as <-. split; [done|]. intros Hp. rewrite Hp in Hh. by left.
      - destruct (one_of (directive_name first) path_directives) eqn:Hp; cbn [andb] in Hr; [|injection Hr as <-; by split].
        destruct (String.eqb_spec path "[inline]"); [|done]. injection Hr as <-. split; [done|]. intros _. subst path. auto. }
    cbn [foldl]. rewrite Hread. split; [done|]. apply Forall_app. split; [done|]. constructor; [|constructor].
    split; [done|]. split; [done|]. cbn. intros Hp a Ha. destruct (Hin Hp) as [E|E]; rewrite E in Ha; [done|]. injection Ha as <-. auto.
Qed.
Lemma line_next_open n line st st1 :
  openvpn_line n line st = Ok st1 → os_open st1 = next_open (os_open st) (trim_space line).
Proof.
  unfold openvpn_line, next_open. cbv zeta. destruct (_ || _); [by intros [= <-]|]. destruct (has_prefix "<" _).
  - destruct (has_prefix "</" _); (destruct (_ || _); [done|by intros [= <-]]).
  - destruct (negb _); [by intros [= <-]|]. destruct (splitOpenVPNFields _) as [[|first args]|]; [by intros [= <-]| |done].
    by intros (p & _ & [= <-])%bind_ok_inv.
Qed.

(** A line with a tag. *)
Lemma tag_follows n line st st1 inline skip rd out inline' skip' :
  ov_follows st inline skip rd → has_prefix "<" (trim_space line) = true → plain_line (os_open st) (trim_space line) = true →
  openvpn_line n line st = Ok st1 → openvpn_step m line inline skip = Ok (out, (inline', skip')) →
  ov_follows st1 inline' skip' (foldl ov_read1 rd out).
Proof.
  intros [Hi Ho Hsk Hds] Ht Hpl Hl Hr. unfold openvpn_line, plain_line, openvpn_step in *. cbv zeta in *.
  assert ((trim_space line =s "") || comment_line (trim_space line) = false) as Hc.
  { apply not_true_is_false. intros ?%comment_no_tag. congruence. }
  assert (∀ rd, ov_read1 rd line = (next_open rd.1 (trim_space line), rd.2)) as Hread.
  { intros r. unfold ov_read1, next_open. by rewrite Hc, Ht. }
  rewrite Hc, Ht in *. unfold opens_block in Hr. rewrite Ht in Hr. destruct (has_prefix "</" (trim_space line)) eqn:Hcl; cbn [negb andb orb] in *.
  - destruct (String.eqb_spec (os_open st) "") as [|Hne]; [done|]. destruct (String.eqb_spec (tag_name (trim_space line)) (os_open st)) as [Hname|]; [|done].
    injection Hl as <-. rewrite Hi in Hr. apply String.eqb_neq in Hne. rewrite Hne, <-Hname, Hpl in Hr. injection Hr as <- <- <-.
    destruct skip; split; try done; cbn [foldl]; rewrite Hread; [|done]. unfold next_open. by rewrite Hc, Ht, Hcl.
  - destruct (one_of _ _) eqn:Hal; [|done]. destruct (String.eqb_spec (os_open st) "") as [Hop|]; [|done]. injection Hl as <-.
    assert (tag_name (trim_space line) =s "" = false) as Hne by (apply String.eqb_neq; intros E; by rewrite E in Hal).
    assert (closes_block (tag_name (trim_space line)) (trim_space line) = false) as Hnc.
    { apply not_true_is_false. intros ?%closes_block_tag. congruence. }
    rewrite Hne, Hnc in Hr. injection Hr as <- <- <-.
    assert (rd.1 = "") as Hrd by (rewrite Ho, Hop; by destruct skip). apply String.eqb_neq in Hne.
    destruct (replaced m _); split; try done; cbn [foldl]; rewrite Hread; [|done]. unfold next_open. by rewrite Hc, Ht, Hcl.
Qed.

(** Any other line. *)
Lemma content_follows n line st st1 inline skip rd out inline' skip' :
  files_plain → ov_follows st inline skip rd → has_prefix "<" (trim_space line) = false →
  plain_line (os_open st) (trim_space line) = true →
  openvpn_line n line st = Ok st1 → openvpn_step m line inline skip = Ok (out, (inline', skip')) →
  ov_follows st1 inline' skip' (foldl ov_read1 rd out).
Proof.
  intros Hm [Hi Ho Hsk Hds] Ht Hpl Hl Hr. unfold openvpn_line, plain_line, openvpn_step in *. cbv zeta in *.
  rewrite (no_tag_opens _ Ht), (no_tag_closes _ _ Ht) in Hr. rewrite Ht in *.
  destruct ((trim_space line =s "") || comment_line (trim_space line)) eqn:Hc.
  { injection Hl as <-. assert (ov_read1 rd line = rd) as Hread by (unfold ov_read1; by rewrite Hc).
    unfold splitExternalOpenVPNLine in Hr. rewrite Hc in Hr. destruct (negb (inline =s "")); injection Hr as <- <- <-.
    - destruct skip; split; try done; cbn [foldl]; by rewrite Hread.
    - by split; cbn [foldl]; rewrite ?Hread. }
  rewrite Hi in Hr. destruct (String.eqb_spec (os_open st) "") as [Hop|Hop]; cbn [negb orb] in *.
  - destruct (splitOpenVPNFields (trim_space line)) as [[|first args]|] eqn:Hsp; [| |done].
    { exfalso. unfold readers_agree in Hpl. rewrite Hsp in Hpl. discriminate. }
    apply bind_ok_inv in Hl as (p' & Hdir & [= <-]). apply bind_ok_inv in Hr as (o & Hout & [= <- <- <-]).
    assert (rd.1 = "") as Hrd by (rewrite Ho, Hop; by destruct skip).
    destruct (rendered_follows _ _ _ _ _ _ _ Hm Hc Ht Hsp Hpl Hdir Hout Hrd Hds) as [Ho' Hds'].
    rewrite (Hsk Hop). split; try done. cbn [os_open]. by rewrite Ho', Hop.
  - injection Hl as <-. injection Hr as <- <- <-. destruct skip; [by split|]. cbn [foldl].
    assert (ov_read1 rd line = rd) as ->; [|by split]. unfold ov_read1. rewrite Hc, Ht, Ho. apply String.eqb_neq in Hop. by rewrite Hop.
Qed.

Lemma openvpn_render_follows lines n st st2 inline skip rd out :
  files_plain → ov_follows st inline skip rd → plain_profile (os_open st) lines = true →
  openvpn_lines n lines st = Ok st2 → os_open st2 = "" → openvpn_render m lines inline skip = Ok out →
  (foldl ov_read1 rd out).1 = "" ∧ Forall managed_directive (foldl ov_read1 rd out).2.
Proof.
  intros Hm. revert n st inline skip rd out. induction lines as [|line lines IH]; intros n st inline skip rd out Hf Hpl.
  { destruct Hf as [Hi Ho Hsk Hds]. intros [= <-] Hend [= <-]. split; [|done]. cbn. rewrite Ho, Hend. by destruct skip. }
  cbn [openvpn_lines plain_profile openvpn_render] in *. apply andb_true_iff in Hpl as [Hpl1 Hpl].
  intros (st1 & Hl & Hls)%bind_ok_inv Hend ([o [inline' skip']] & Hstep & (rest & Hrest & [= <-])%bind_ok_inv)%bind_ok_inv.
  rewrite foldl_app. rewrite <-(line_next_open _ _ _ _ Hl) in Hpl.
  eapply IH; [|exact Hpl|exact Hls|exact Hend|exact Hrest].
  destruct (has_prefix "<" (trim_space line)) eqn:Ht; [by eapply tag_follows|by eapply content_follows].
Qed.
End managed.

(** ** The files and their paths *)

Lemma split_char_cover c s b : b ∈ bytes s → b = c ∨ ∃ w, w ∈ split_char c s ∧ b ∈ bytes w.
Proof.
  induction s as [|a s IH]; [by intros ?%elem_of_nil|]. rewrite bytes_cons, elem_of_cons. cbn [split_char].
  intros [->|Hb]; destruct (Ascii.eqb_spec a c) as [->|Hne].
  - by left.
  - right. destruct (split_char c s) as [|w ws]; eexists; (split; [by left|]); rewrite bytes_cons; by left.
  - destruct (IH Hb) as [->|(w & Hw & Hin)]; [by left|]. right. exists w. split; [by right|done].
  - destruct (IH Hb) as [->|(w & Hw & Hin)]; [by left|]. right.
    destruct (split_char c s) as [|w' ws]; [by apply elem_of_nil in Hw|]. apply elem_of_cons in Hw as [->|Hw].
    + exists (String a w'). split; [by left|]. rewrite bytes_cons. by right.
    + exists w. split; [by right|done].
Qed.

Lemma uuid_bytes s : externalEgressUUIDPattern s = true → all_bytes (λ a, hex_lower a || Ascii.eqb a "-") s.
Proof.
  unfold externalEgressUUIDPattern, uuid_pattern. intros H. apply Forall_forall. intros b Hb.
  destruct (split_char_cover "-" s b Hb) as [->|(w & Hw & Hin)]; [by rewrite orb_true_r|].
  destruct (split_char "-" s) as [|x1 [|x2 [|x3 [|x4 [|x5 [|? ?]]]]]]; try done.
  rewrite !andb_true_iff, forallb_forall in H. destruct H as [[_ H] _].
  rewrite (H b); [done|]. apply list_elem_of_In. rewrite !bytes_app, !elem_of_app.
  repeat (apply elem_of_cons in Hw as [->|Hw]); auto 10. by apply elem_of_nil in Hw.
Qed.

Definition id_byte (a : ascii) : bool := hex_lower a || Ascii.eqb a "-".
Lemma id_byte_word : ∀ a, id_byte a = true → word_byte a = true.
Proof. intros [[] [] [] [] [] [] [] []]; vm_compute; congruence. Qed.

(** What every decoded job has. *)
Lemma decoded_job sprint order payload node_id need p :
  decodeExternalEgressJob sprint order payload node_id need = Ok p →
  externalEgressUUIDPattern (eg_DeploymentID p) = true ∧ externalEgressInterfacePattern (eg_InterfaceName p) = true
  ∧ (40000 ≤ eg_RoutingTable p ≤ 48999) ∧ (1297678336 ≤ eg_FWMark p ≤ 1297743871)
  ∧ (1 ≤ eg_RouteMetric p ≤ 32767) ∧ externalEgressRuntimeProtocol (eg_Protocol p) = true.
Proof.
  unfold decodeExternalEgressJob. cbv zeta. cbn [eg_NodeID eg_ProfileID eg_DeploymentID eg_Protocol eg_InterfaceName
    eg_RoutingTable eg_RouteMetric eg_FWMark eg_ProxyPort eg_Secrets].
  intros H. inv_binds. subst p. split_bools. cbn [eg_DeploymentID eg_InterfaceName eg_RoutingTable eg_FWMark eg_RouteMetric eg_Protocol].
  repeat split; first [assumption|lia].
Qed.

Lemma interface_word s : externalEgressInterfacePattern s = true → plain_word s.
Proof.
  unfold externalEgressInterfacePattern. destruct (strip_prefix "mgev" s) as [rest|] eqn:E; [|done]. intros [_ H]%andb_true_iff.
  assert (has_prefix "mgev" s = true) as Hp by (unfold has_prefix; by rewrite E). apply has_prefix_spec in Hp as [r ->].
  assert (rest = r) as -> by (change (strip_prefix "mgev" ("mgev" +:+ r)) with (Some r) in E; congruence).
  split; [done|]. rewrite all_bytes_app. split; [by apply all_bytes_dec|]. apply all_bytes_dec in H.
  eapply all_bytes_impl; [|exact H]. intros a Ha. apply id_byte_word. unfold id_byte. by rewrite Ha.
Qed.

(** The deployment's directory, and its files. *)
Lemma managed_dir_word p name :
  externalEgressUUIDPattern (eg_DeploymentID p) = true → all_bytes word_byte name →
  plain_word (under (externalEgressManagedDir p) name).
Proof.
  intros H%uuid_bytes Hn. split; [done|]. unfold under, externalEgressManagedDir. rewrite !all_bytes_app.
  split; [|split; [by apply all_bytes_dec|done]]. split; [by apply all_bytes_dec|]. split; [by apply all_bytes_dec|].
  eapply all_bytes_impl; [|exact H]. apply id_byte_word.
Qed.

Lemma replacement_map_elem files d path :
  replacement_map files !! d = Some path → ∃ file, (d, file) ∈ files ∧ path = file_Path file.
Proof.
  unfold replacement_map.
  assert (∀ m : gmap string string, foldl (λ m '(directive, file), <[directive := file_Path file]> m) m files !! d = Some path →
               m !! d = Some path ∨ ∃ file, (d, file) ∈ files ∧ path = file_Path file) as H.
  { induction files as [|[d' file'] files IH]; intros m; cbn [foldl]; [by left|]. intros [H|(file & Hin & ->)]%IH.
    - apply lookup_insert_Some in H as [[-> <-]|[_ H]]; [|by left]. right. exists file'. split; [by left|done].
    - right. exists file. split; [by right|done]. }
  intros Hl. destruct (H ∅ Hl) as [Hn|?]; [by rewrite lookup_empty in Hn|done].
Qed.

Lemma uploaded_elem p dir purposes d file :
  (d, file) ∈ uploaded p dir purposes → ∃ purpose, (d, purpose) ∈ purposes ∧ file_Path file = secret_path dir purpose.
Proof.
  unfold uploaded. rewrite list_elem_of_omap. intros ([d' purpose] & Hin & H). cbv zeta in H.
  destruct (_ =s _); [done|]. injection H as -> <-. eauto.
Qed.

Lemma openvpn_auth_elem p dir preview files d file :
  openvpn_auth p dir preview = Ok files → (d, file) ∈ files → d = "auth-user-pass" ∧ file_Path file = under dir "auth.txt".
Proof.
  unfold openvpn_auth. destruct (_ && _); [|intros [= <-] H; by apply elem_of_nil in H].
  intros (_ & _ & [= <-])%bind_ok_inv [= -> ->]%list_elem_of_singleton. done.
Qed.

Lemma config_files_plain purposes p preview auth :
  purposes ≡ₚ managedOpenVPNPathDirectives → externalEgressUUIDPattern (eg_DeploymentID p) = true →
  openvpn_auth p (externalEgressManagedDir p) preview = Ok auth →
  files_plain (replacement_map (uploaded p (externalEgressManagedDir p) purposes ++ auth)).
Proof.
  intros Hperm Hid Hauth d path (file & [Hin|Hin]%elem_of_app & ->)%replacement_map_elem.
  - apply uploaded_elem in Hin as (purpose & Hin & ->). rewrite Hperm in Hin. unfold managedOpenVPNPathDirectives in Hin.
    repeat (apply elem_of_cons in Hin as [[= -> ->]|Hin]); try by apply elem_of_nil in Hin.
    all: split; [reflexivity|]; apply managed_dir_word; [done|by apply all_bytes_dec].
  - destruct (openvpn_auth_elem _ _ _ _ _ _ Hauth Hin) as [-> ->]. split; [reflexivity|].
    apply managed_dir_word; [done|by apply all_bytes_dec].
Qed.

Lemma scan_longer max max' s l : max ≤ max' → scan_lines max s = (l, false) → scan_lines max' s = (l, false).
Proof.
  intros Hle. unfold scan_lines. generalize (raw_lines (split_char LF s)). intros lines. revert l.
  induction lines as [|w lines IH]; intros l; [done|]. cbn [scan_upto].
  destruct (Z.ltb_spec (Z.of_nat (String.length w)) max); [|done].
  replace (Z.of_nat (String.length w) <? max') with true by lia.
  destruct (scan_upto max lines) as [r b] eqn:E. intros [= <- ->]. by rewrite (IH r eq_refl).
Qed.

(** ** The rendered configuration *)

Definition openvpn_tail (p : externalEgressJobPayload) : list directive :=
  [("dev", [eg_InterfaceName p]); ("dev-type", ["tun"]); ("route-nopull", []); ("route-noexec", []); ("auth-nocache", [])].

Lemma read_words w ws rd :
  Forall plain_word (w :: ws) → comment_line (join " " (w :: ws)) = false → has_prefix "<" (join " " (w :: ws)) = false →
  rd.1 = "" → ov_read1 rd (join " " (w :: ws)) = (rd.1, rd.2 ++ [(directive_name w, ws)]).
Proof.
  intros Hw Hc Ht Hrd. unfold ov_read1. rewrite trim_plain_words by done.
  assert (join " " (w :: ws) =s "" = false) as ->.
  { inversion_clear Hw as [|? ? [Hne _] _]. destruct w; [done|]. by destruct ws. }
  rewrite Hc, Ht, Hrd, openvpn_fields_words by done. done.
Qed.

Lemma read_trailer p m rd :
  plain_word (eg_InterfaceName p) → rd.1 = "" →
  (∀ path, m !! "auth-user-pass" = Some path → plain_word path) →
  foldl ov_read1 rd (openvpn_trailer p m)
  = ("", rd.2 ++ openvpn_tail p
         ++ match m !! "auth-user-pass" with Some path => [("auth-user-pass", [path])] | None => [] end).
Proof.
  intros Hi Hrd Ha. unfold openvpn_trailer. rewrite foldl_app. cbn [foldl].
  assert (∀ s, all_bytes word_byte s → s ≠ "" → plain_word s) as Hpw by by split.
  change "dev-type tun" with (join " " ["dev-type"; "tun"]). change "route-nopull" with (join " " ["route-nopull"]).
  change "route-noexec" with (join " " ["route-noexec"]). change "auth-nocache" with (join " " ["auth-nocache"]).
  change ("dev " +:+ eg_InterfaceName p) with (join " " ["dev"; eg_InterfaceName p]).
  change (ov_read1 rd "") with rd.
  assert (∀ w, forallb word_byte (bytes w) = true → w ≠ "" → plain_word w) as Hd by (intros; split; [done|by apply all_bytes_dec]).
  rewrite (read_words "dev" [_] rd) by (done || (constructor; [by apply Hd|by constructor])).
  rewrite (read_words "dev-type" ["tun"] _) by (done || (repeat constructor; by apply Hd)).
  rewrite (read_words "route-nopull" [] _) by (done || (repeat constructor; by apply Hd)).
  rewrite (read_words "route-noexec" [] _) by (done || (repeat constructor; by apply Hd)).
  rewrite (read_words "auth-nocache" [] _) by (done || (repeat constructor; by apply Hd)).
  cbn [fst snd]. rewrite Hrd, <-!(assoc_L (++)). unfold openvpn_tail.
  destruct (m !! "auth-user-pass") as [path|] eqn:El; cbn [default]; [|by rewrite app_nil_r].
  destruct (Ha _ eq_refl) as [Hne Hp]. pose proof Hne as Hne'. apply String.eqb_neq in Hne'. cbn [default from_option id]. rewrite Hne'. cbn [foldl].
  change ("auth-user-pass " +:+ path) with (join " " ["auth-user-pass"; path]).
  rewrite read_words by (done || (constructor; [by apply Hd|by constructor])). cbn [fst snd]. by rewrite <-!(assoc_L (++)).
Qed.

(** *** One line each *)

Lemma word_no_LF w : all_bytes word_byte w → LF ∉ bytes w.
Proof. intros H. by eapply all_bytes_not_in. Qed.

Lemma literal_no_LF w : contains_char LF w = false → LF ∉ bytes w.
Proof. intros H Hin. apply contains_char_spec in Hin. congruence. Qed.

Lemma rendered_no_LF m line words out :
  files_plain m → LF ∉ bytes line → openvpn_rendered m line words = Ok out → Forall (λ l, LF ∉ bytes l) out.
Proof.
  intros Hm Hline. unfold openvpn_rendered. destruct words as [|first args]; [intros [= <-]; by constructor|]. cbv zeta.
  destruct (one_of _ dropped_directives); [intros [= <-]; constructor|].
  destruct (m !! to_lower (trim_dashes first)) as [path|] eqn:El.
  - destruct (Hm _ _ El) as [Hd [_ Hw]]. set (d := to_lower (trim_dashes first)) in *.
    assert (LF ∉ bytes d) as Hld.
    { apply one_of_spec in Hd. generalize dependent d. intros d _ Hd.
      repeat (apply elem_of_cons in Hd as [->|Hd]; [by apply literal_no_LF|]). by apply elem_of_nil in Hd. }
    assert (∀ x, LF ∉ bytes x → LF ∉ bytes (d +:+ " " +:+ path +:+ x)) as Hx.
    { intros x Hx. rewrite !bytes_app, !elem_of_app. intros [?|[H|[H|?]]]; try done; [by apply literal_no_LF in H|by apply (word_no_LF _ Hw)]. }
    assert (LF ∉ bytes "") as Hnil by apply not_elem_of_nil.
    pose proof (Hx "" Hnil) as Hx0. rewrite sapp_nil_r in Hx0.
    destruct args as [|? [|direction [|? ?]]]; [intros [= <-]; by constructor|intros [= <-]; by constructor| |done].
    destruct (one_of direction ["0"; "1"]) eqn:E; [|done]. intros [= <-]. constructor; [|constructor]. apply Hx.
    apply one_of_spec in E. set_unfold in E. destruct E as [->|[->|[]]]; by apply literal_no_LF.
  - destruct args; [intros [= <-]; by constructor|]. destruct (_ && _); [done|intros [= <-]; by constructor].
Qed.

Lemma render_no_LF m lines inline skip out :
  files_plain m → Forall (λ l, LF ∉ bytes l) lines → openvpn_render m lines inline skip = Ok out → Forall (λ l, LF ∉ bytes l) out.
Proof.
  intros Hm Hl. revert inline skip out. induction Hl as [|line lines Hline _ IH]; intros inline skip out; cbn [openvpn_render].
  { intros [= <-]. constructor. }
  intros ([o [i s]] & Hs & (rest & Hrest & [= <-])%bind_ok_inv)%bind_ok_inv. apply Forall_app. split; [|by eapply IH].
  revert Hs. unfold openvpn_step. cbv zeta. destruct (if opens_block _ then _ else _) as [i' s'].
  destruct (negb _); [intros [= <- _]; destruct s'; by repeat constructor|].
  intros (o' & Ho & [= <- _ _])%bind_ok_inv. by eapply rendered_no_LF.
Qed.

Lemma trailer_no_LF p m : plain_word (eg_InterfaceName p) → files_plain m → Forall (λ l, LF ∉ bytes l) (openvpn_trailer p m).
Proof.
  intros [_ Hi] Hm. unfold openvpn_trailer. apply Forall_app. split.
  - assert (LF ∉ bytes ("dev " +:+ eg_InterfaceName p)) as Hdev.
    { rewrite bytes_app, elem_of_app. intros [H|H]; [by apply literal_no_LF in H|by apply (word_no_LF _ Hi)]. }
    repeat (constructor; [first [exact Hdev|by apply literal_no_LF]|]). constructor.
  - destruct (m !! "auth-user-pass") as [path|] eqn:El; [|constructor]. cbv zeta. cbn [default from_option id].
    destruct (_ =s _); [constructor|]. constructor; [|constructor]. destruct (Hm _ _ El) as [_ [_ Hp]].
    rewrite bytes_app, elem_of_app. intros [H|H]; [by apply literal_no_LF in H|by apply (word_no_LF _ Hp)].
Qed.

