(* ===== verification/PackageCommands.v ===== *)
(** * Package manager commands of the agent

    [cmd/agent/system.go]: which commands run in a unit of their own outside the
    agent's sandbox; [cmd/agent/capability.go]: how the output of [apt-get] and
    [dpkg] is read, when a command is tried again, and the form of a command for
    a host on which [apt] cannot leave root. *)
From stdpp Require Import gmap.
From S2P Require Import Prelude GoStrings Strconv GoValue Driver Firewall Shell AgentPaths.
From Stdlib Require Import Ascii.
From stdpp Require Import options.
Open Scope Z_scope.

(** ** The allow-list of [system.go] *)

Definition isAllowedPackageManagerEnvironment (value : string) : bool :=
  one_of value ["DEBIAN_FRONTEND=noninteractive"; "NEEDRESTART_MODE=a"; "UCF_FORCE_CONFFOLD=1"].

Definition isAllowedAptGetOption (value : string) : bool :=
  one_of value ["APT::Sandbox::User=root"; "Acquire::Retries=3"; "Dpkg::Lock::Timeout=120";
                "Dpkg::Options::=--force-confdef"; "Dpkg::Options::=--force-confold"].

Definition package_first_rune (r : Z) : bool := ((97 <=? r) && (r <=? 122)) || ((48 <=? r) && (r <=? 57)).
(** also a plus sign, a hyphen, a full stop or a colon *)
Definition package_rune (r : Z) : bool := package_first_rune r || (r =? 43) || (r =? 45) || (r =? 46) || (r =? 58).
Definition isSafeDebianPackageName (value : string) : bool :=
  (String.length value <=? 128)%nat
  && match runes value with [] => false | r :: rs => package_first_rune r && forallb package_rune rs end.

Definition unit_name_rune (r : Z) : bool :=
  ((97 <=? r) && (r <=? 122)) || ((65 <=? r) && (r <=? 90)) || ((48 <=? r) && (r <=? 57))
  || (r =? 45) || (r =? 95) || (r =? 46) || (r =? 64).
Definition isSafeSystemdUnitName (value : string) : bool :=
  negb (value =s "") && (String.length value <=? 128)%nat && forallb unit_name_rune (runes value).

(** The loop over the arguments: the action so far, whether [-f] was given, and
    the number of packages. *)
Fixpoint apt_get_args (action : string) (fixBroken : bool) (packages : nat) (args : list string) : bool :=
  match args with
  | [] => (action =s "update") || (negb (action =s "") && ((0 <? packages)%nat || ((action =s "install") && fixBroken)))
  | raw :: args =>
      let arg := trim_space raw in
      if arg =s "" then false
      else if one_of arg ["-o"; "--option"] then
        match args with
        | [] => false
        | value :: args => isAllowedAptGetOption (trim_space value) && apt_get_args action fixBroken packages args
        end
      else if one_of arg ["-f"; "--fix-broken"] then apt_get_args action true packages args
      else if one_of arg ["-y"; "--assume-yes"] then apt_get_args action fixBroken packages args
      else if action =s "" then one_of arg ["update"; "install"; "purge"] && apt_get_args arg fixBroken packages args
      else if (action =s "update") || negb (isSafeDebianPackageName arg) then false
      else apt_get_args action fixBroken (S packages) args
  end.
Definition isAllowedAptGetCommand (args : list string) : bool := apt_get_args "" false 0 args.

Definition isAllowedDpkgCommand (args : list string) : bool :=
  match args with
  | [flag; path] =>
      (one_of flag ["-i"; "--install"] && has_prefix "/" path && negb (contains_char NUL path))
      || ((flag =s "--configure") && one_of path ["-a"; "--pending"])
  | _ => false
  end.

(** The package manager behind [env] and its arguments. *)
Fixpoint env_invocation (args : list string) : option (string * list string) :=
  match args with
  | [] => None
  | raw :: args =>
      let arg := trim_space raw in
      if arg =s "" then env_invocation args
      else if contains_sub "=" arg then
        if isAllowedPackageManagerEnvironment arg then env_invocation args else None
      else if one_of arg ["apt-get"; "dpkg"] then Some (arg, args) else None
  end.
Definition packageManagerInvocation (name : string) (args : list string) : option (string * list string) :=
  let name := trim_space name in
  if one_of name ["apt-get"; "dpkg"] then Some (name, args)
  else if name =s "env" then env_invocation args else None.

Definition isAllowedPackageManagerCommand (name : string) (args : list string) : bool :=
  match packageManagerInvocation name args with
  | None => false
  | Some (manager, args) => if manager =s "apt-get" then isAllowedAptGetCommand args else isAllowedDpkgCommand args
  end.

Definition wrap_options : list string :=
  ["--system"; "--quiet"; "--wait"; "--pipe"; "--collect"; "--service-type=exec"].
Definition wrap_properties : list string :=
  ["--property=NoNewPrivileges=no"; "--property=RestrictSUIDSGID=no"; "--property=PrivateTmp=no";
   "--property=RuntimeMaxSec=9min"; "--setenv=PATH=/usr/local/sbin:/usr/local/bin:/usr/sbin:/usr/bin:/sbin:/bin"; "--"].

(** The command that is run, and whether it is in a unit of its own. *)
Definition wrapPackageManagerCommand (name : string) (args : list string) (invocationID systemdRunPath unitName : string)
  : string * list string * bool :=
  if (trim_space invocationID =s "") || (trim_space systemdRunPath =s "") || (trim_space unitName =s "") then (name, args, false)
  else if negb (isAllowedPackageManagerCommand name args) || negb (isSafeSystemdUnitName unitName) then (name, args, false)
  else (systemdRunPath, wrap_options ++ ["--unit"; unitName] ++ wrap_properties ++ name :: args, true).

Example wrap_some :
  isAllowedPackageManagerCommand "env" ["DEBIAN_FRONTEND=noninteractive"; "apt-get"; "install"; "-y"; "squid"] = true
  ∧ isAllowedPackageManagerCommand "env" ["LD_PRELOAD=/tmp/x.so"; "apt-get"; "install"; "-y"; "squid"] = false
  ∧ isAllowedPackageManagerCommand "apt-get" ["install"; "-y"; "--allow-unauthenticated"; "squid"] = false
  ∧ isAllowedPackageManagerCommand "dpkg" ["--install"; "/var/tmp/x.deb"] = true.
Proof. repeat split. Qed.

(** ** Reading [apt-get] and [dpkg] *)

(** The verb of a command line that updates or installs. *)
Fixpoint first_verb (args : list string) : string :=
  match args with
  | [] => ""
  | arg :: args => if one_of arg ["update"; "install"] then arg else first_verb args
  end.
(** What follows the first [apt-get]. *)
Fixpoint after_apt_get (args : list string) : option (list string) :=
  match args with
  | [] => None
  | arg :: args => if arg =s "apt-get" then Some args else after_apt_get args
  end.
Definition aptInstallCommandVerb (name : string) (args : list string) : string :=
  if name =s "apt-get" then first_verb args
  else if name =s "env" then match after_apt_get args with Some rest => first_verb rest | None => "" end
  else "".

Definition aptInstallCommandAttempts (name : string) (args : list string) : nat :=
  if aptInstallCommandVerb name args =s "" then 1 else 3.

(** Whether the text has one of the markers in it. *)
Definition mentions (markers : list string) (text : string) : bool := existsb (λ marker, contains_sub marker text) markers.

Definition aptFailureLooksTransient (output : string) : bool :=
  mentions ["could not get lock"; "unable to acquire the dpkg frontend lock"; "is another process using it";
            "temporary failure resolving"; "temporary failure"; "failed to fetch"; "connection timed out";
            "could not connect"; "connection failed"; "hash sum mismatch"; "mirror sync in progress";
            "resource temporarily unavailable"] (to_lower output).

Definition shouldRetryAptInstallCommand (name : string) (args : list string) (exitCode : Z) (output : string) : bool :=
  negb ((exitCode =? 0) || (aptInstallCommandVerb name args =s ""))
  && negb (mentions ["unable to locate package"; "has no installation candidate"] (to_lower output))
  && aptFailureLooksTransient output.

(** Seconds. *)
Definition aptInstallRetryDelay (attempt : nat) : Z :=
  if (attempt =? 1)%nat then 5 else if (attempt =? 2)%nat then 15 else 30.

Definition aptFailureSuggestsRepair (output : string) : bool :=
  mentions ["dpkg was interrupted"; "dpkg --configure -a"; "apt --fix-broken install"; "apt-get -f install";
            "fix-broken install"; "dependency problems prevent configuration"; "dependencies - leaving unconfigured";
            "post-installation script subprocess returned error"; "sub-process /usr/bin/dpkg returned an error code"]
    (to_lower output).

Definition aptFailureLooksSandboxSetuid (output : string) : bool :=
  let lower := to_lower output in
  mentions ["seteuid"; "setresuid"; "failed to set new user ids"] lower
  && mentions ["operation not permitted"; "_apt"; "method http has died"] lower.

Definition sandbox_root : string := "APT::Sandbox::User=root".
Definition aptCommandHasSandboxUserRoot (name : string) (args : list string) : bool :=
  if name =s "apt-get" then one_of sandbox_root args
  else if name =s "env" then match after_apt_get args with Some rest => one_of sandbox_root rest | None => false end
  else false.

(** With the option after the first [apt-get]. *)
Fixpoint with_sandbox_root (args : list string) : list string :=
  match args with
  | [] => []
  | arg :: args => if arg =s "apt-get" then arg :: "-o" :: sandbox_root :: args else arg :: with_sandbox_root args
  end.
Definition aptSandboxRootFallbackCommand (name : string) (args : list string) : option (string * list string) :=
  if aptInstallCommandVerb name args =s "" then None
  else if aptCommandHasSandboxUserRoot name args then None
  else if name =s "apt-get" then Some (name, "-o" :: sandbox_root :: args)
  else Some (name, with_sandbox_root args).

(** [Candidate:] with a version. *)
Definition candidate_line (line : string) : option string := trim_space <$> strip_prefix "Candidate:" (trim_space line).
Definition aptPolicyHasCandidate (policy : string) : bool :=
  match omap candidate_line (split_char LF policy) with
  | candidate :: _ => negb (candidate =s "") && negb (candidate =s "(none)")
  | [] => false
  end.
Definition aptPolicyMentionsNginxOrg (policy : string) : bool := contains_sub "nginx.org" (to_lower policy).

Definition normalizePGPFingerprint (value : string) : string := replace_char " " "" (to_upper (trim_space value)).
Definition pgpFingerprintOutputContains (output expected : string) : bool :=
  let expected := normalizePGPFingerprint expected in
  negb (expected =s "")
  && existsb (λ line, let fields := split_char ":" line in
                      match fields !! 0%nat, fields !! 9%nat with
                      | Some kind, Some print => (kind =s "fpr") && (normalizePGPFingerprint print =s expected)
                      | _, _ => false
                      end) (split_char LF output).

Definition codename_rune (r : Z) : bool := package_first_rune r || (r =? 46) || (r =? 45) || (r =? 95).
Definition safeAptCodename (value : string) : bool :=
  negb (value =s "") && (String.length value <=? 64)%nat && forallb codename_rune (runes value).

Definition packageRequiresUbuntuUniverse (packageName : string) : bool := trim_space packageName =s "shadowsocks-libev".
Definition shouldPrepareUbuntuUniverseRepository (osReleaseID packageName : string) : bool :=
  equal_fold_ascii (trim_space osReleaseID) "ubuntu" && packageRequiresUbuntuUniverse packageName.

(** The value of [ID] in [/etc/os-release], without quotes around it. *)
Definition os_release_id (line : string) : option string :=
  '(key, value) ← cut_char "=" (trim_space line);
  if key =s "ID" then Some (trim_set (String dquote "'") (trim_space value)) else None.
Definition osReleaseIDFromContent (content : string) : string :=
  match omap os_release_id (split_char LF content) with id :: _ => id | [] => "" end.

Definition shouldPreventPackageServiceAutostart (capabilityCode : string) : bool :=
  one_of (NormalizeCode capabilityCode) [Shadowsocks; XL2TPD].
Definition ubuntuPackageEnableUnits (capabilityCode : string) (units : list string) : list string :=
  if NormalizeCode capabilityCode =s Shadowsocks then [] else units.

Definition aptInstallFailureMessage (capabilityCode packageName reason : string) : string :=
  let base := trim_space reason in
  let base := if base =s "" then "apt install failed" else base in
  let base := if packageName =s "" then base else base +:+ " for package " +:+ packageName in
  let code := NormalizeCode capabilityCode in
  if code =s Shadowsocks
  then base +:+ "; fix node apt repositories/network or install a pinned ss-server artifact from the runtime repository"
  else if code =s OpenVPN then base +:+ "; fix node apt repositories/network and retry the OpenVPN runtime install"
  else base +:+ "; fix node apt repositories/network and retry runtime install".

(** ** The failed command of an install *)

Definition installFailureDiagnosticLine (line : string) : bool :=
  mentions ["e:"; "error:"; "dpkg:"; "dependency problem"; "unmet dependenc"; "held broken package";
            "not going to be installed"; "returned an error code"; "operation not permitted"; "permission denied";
            "unable to "; "failed"] (to_lower (trim_space line)).

Definition crlf : string := String "013" (String LF "").
(** The last three lines that tell of a failure, or else the last line that is not blank. *)
Definition summarizeInstallFailureOutput (output : string) : string :=
  let lines := trim_space <$> rev (split_char LF (replace_all crlf (String LF "") output)) in
  match take 3 (List.filter (λ line, negb (line =s "") && installFailureDiagnosticLine line) lines) with
  | [] => match List.find (λ line, negb (line =s "")) lines with Some line => truncate line 800 | None => "" end
  | diagnostic => truncate (join " | " (rev diagnostic)) 1200
  end.

Record failedInstallCommand := { fi_command : string; fi_exitCode : option Z; fi_output : string; fi_outputLine : string }.

(** The number behind an [exit_code]; a fraction is refused. *)
Definition intFromInstallStep (raw : option any) : option Z :=
  match raw with
  | Some (AInt z) | Some (AInt32 z) | Some (AInt64 z) => Some z
  | Some (AFloat64 f) => let z := int_of_float f in if float_is f z then Some z else None
  | _ => None
  end.

Section steps.
(** [fmt.Sprint]. *)
Context (sprint : any → string).
Notation stringify := (stringify sprint).

Definition commandLineFromStep (raw : option any) : string :=
  match raw with
  | Some (AStrings value) => join " " value
  | Some (ASlice value) => join " " (List.filter (λ part, negb (part =s "")) ((λ item, stringify (Some item)) <$> value))
  | Some (AString value) => trim_space value
  | _ => ""
  end.

(** A step that failed with a command line. *)
Definition failed_step (step : gomap) : option failedInstallCommand :=
  code ← intFromInstallStep (step !! "exit_code");
  let command := commandLineFromStep (step !! "command") in
  if (code =? 0) || (command =s "") then None
  else
    let output := trim_space (stringify (step !! "output")) in
    Some {| fi_command := command; fi_exitCode := Some code; fi_output := truncate output 4000;
            fi_outputLine := summarizeInstallFailureOutput output |}.
Definition lastFailedInstallCommand (steps : list gomap) : failedInstallCommand :=
  match omap failed_step (rev steps) with
  | failed :: _ => failed
  | [] => {| fi_command := ""; fi_exitCode := None; fi_output := ""; fi_outputLine := "" |}
  end.

Definition opt_key (b : bool) (key : string) (v : any) (m : gomap) : gomap := if b then <[key := v]> m else m.

Definition aptInstallFailureResult (capabilityCode packageName reason : string) (steps : list gomap) : gomap :=
  let detail := lastFailedInstallCommand steps in
  let message := aptInstallFailureMessage capabilityCode packageName reason in
  let has_command := negb (fi_command detail =s "") in
  let message := if has_command then message +:+ "; failed command: " +:+ fi_command detail else message in
  let message := if fi_outputLine detail =s "" then message else message +:+ "; output: " +:+ fi_outputLine detail in
  let r : gomap := list_to_map [("ok", ABool false); ("message", AString message); ("steps", AMaps steps);
                                ("package", AString packageName)] in
  let r := opt_key has_command "last_failed_command" (AString (fi_command detail)) r in
  let r := match fi_exitCode detail with Some code => <["last_failed_exit_code" := AInt code]> r | None => r end in
  opt_key (negb (fi_output detail =s "")) "last_failed_output" (AString (fi_output detail)) r.
End steps.
