(* ===== verification/AgentPackages.v ===== *)
(** * Installing and verifying the runtimes of a node

    [cmd/agent/capability.go]: the jobs that install a service's packages or look
    at what is installed, over any host; with [firstKnownUnit],
    [firstKnownActiveState] of [system.go] and [readOSRelease] of [inventory.go].
    The event log of this file also carries what the external-egress jobs do. *)
From stdpp Require Import gmap.
From S2P Require Import Prelude GoStrings Strconv GoValue Sha256 Driver Firewall FirewallAgent Shell AgentPaths AgentHost NetPolicy InstanceFiles InstanceRuntime EgressText PackageCommands.
From Stdlib Require Import Ascii.
From stdpp Require Import options.
Open Scope Z_scope.

(** ** The host of an install

    The operations of the instance jobs, and those only the installers use. *)
Record package_ops (H : Type) := {
  instance_host : runtime_ops H;
  (** [runCombinedOutput] *)
  op_combined : list string → hostM H string;
  op_geteuid : hostM H Z;
  op_getenv : string → hostM H string;
  (** [os.Stat], [os.WriteFile], [os.Chmod] *)
  op_stat : string → hostM H (io ());
  op_write_raw : string → string → Z → hostM H (io ());
  op_chmod : string → Z → hostM H (io ());
  (** [os.MkdirTemp] and [os.CreateTemp] in the default directory *)
  op_mkdir_temp : string → hostM H (io string);
  op_create_temp : string → hostM H (io string);
  (** [os.RemoveAll] *)
  op_remove_tree : string → hostM H ();
  (** a timer of some milliseconds: the error of the context if that ends first *)
  op_sleep : Z → hostM H (option string) }.
Arguments instance_host {H} _.
Arguments op_combined {H} _ _ _.
Arguments op_geteuid {H} _ _.
Arguments op_getenv {H} _ _ _.
Arguments op_stat {H} _ _ _.
Arguments op_write_raw {H} _ _ _ _ _.
Arguments op_chmod {H} _ _ _ _.
Arguments op_mkdir_temp {H} _ _ _.
Arguments op_create_temp {H} _ _ _.
Arguments op_remove_tree {H} _ _ _.
Arguments op_sleep {H} _ _ _.

(** ** Parsing [/etc/os-release] for the nginx repository *)

Definition os_release_entry (raw : string) : option (string * string) :=
  let line := trim_space raw in
  if (line =s "") || has_prefix "#" line then None
  else '(k, v) ← cut_char "=" line; Some (k, trim_set (String dquote "") (trim_space v)).

(** The last value of one of the keys. *)
Definition os_release_value (keys : list string) (content : string) : string :=
  default "" (last (snd <$> List.filter (λ kv, one_of kv.1 keys) (omap os_release_entry (scan_lines MaxScanTokenSize content).1))).

Definition x86_flags : list string := ["cx16"; "lahf_lm"; "popcnt"; "sse4_1"; "sse4_2"; "ssse3"].

Definition nginxOrgSigningKeyURL : string := "https://nginx.org/keys/nginx_signing.key".
Definition nginxOrgSigningKeyFingerprint : string := "573BFD6B3D8FBC641079A6ABABF5BD827BD9BF62".
Definition nginxOrgKeyringPath : string := "/usr/share/keyrings/nginx-archive-keyring.gpg".
Definition nginxOrgSourceListPath : string := "/etc/apt/sources.list.d/nginx.list".
Definition nginxOrgPreferencesPath : string := "/etc/apt/preferences.d/99nginx".
Definition autostart_policy_path : string := "/usr/sbin/policy-rc.d".

Definition env_apt (args : list string) : list string := "env" :: "DEBIAN_FRONTEND=noninteractive" :: "apt-get" :: args.
Definition env_apt_careful (args : list string) : list string :=
  ["env"; "DEBIAN_FRONTEND=noninteractive"; "NEEDRESTART_MODE=a"; "UCF_FORCE_CONFFOLD=1"; "apt-get"; "-o";
   "Dpkg::Lock::Timeout=120"; "-o"; "Dpkg::Options::=--force-confdef"; "-o"; "Dpkg::Options::=--force-confold"] ++ args.
Definition apt_update : list string := ["apt-get"; "-o"; "Acquire::Retries=3"; "-o"; "Dpkg::Lock::Timeout=120"; "update"].
Definition dpkg_configure : list string := ["env"; "DEBIAN_FRONTEND=noninteractive"; "NEEDRESTART_MODE=a"; "dpkg"; "--configure"; "-a"].

(** [res["ok"] == true] *)
Definition is_true (v : option any) : bool := match v with Some (ABool b) => b | _ => false end.
Definition is_false (v : option any) : bool := match v with Some (ABool b) => negb b | _ => false end.
(** [stringFromMap] *)
Definition string_at (m : gomap) (key : string) : string := match m !! key with Some (AString s) => trim_space s | _ => "" end.

Definition answer (fields : list (string * any)) : gomap := list_to_map fields.
Definition not_ok (message : string) (fields : list (string * any)) : gomap :=
  answer (("ok", ABool false) :: ("message", AString message) :: fields).
Definition put (key : string) (v : any) (m : gomap) : gomap := <[key := v]> m.
Definition put_absent (key : string) (v : any) (m : gomap) : gomap := match m !! key with Some _ => m | None => <[key := v]> m end.

Section packages.
(** [fmt.Sprint], [strconv.IsPrint] beyond ASCII; whether the agent was built for
    amd64; the version of the agent. *)
Context (sprint : any → string) (amd64 : bool) (appVersion : string).
Context {H : Type} (ops : package_ops H).
Notation hostM := (hostM H).
Notation instance := (instance_host ops).
Notation agent := (base instance).
Notation run args := (op_run agent args).
Notation steps := (list gomap).
Notation stringify := (stringify sprint).

(** ** Commands whose results are kept as steps *)

Definition command_step (command : list string) (code : Z) (out : string) : gomap :=
  answer [("command", AStrings command); ("exit_code", AInt code); ("output", AString (truncate out 4000))].

(** The [run] of the installers that try a command once. *)
Definition run_step (command : list string) (st : steps) : hostM (bool * steps) :=
  '(code, out) ← run command; mret (code =? 0, st ++ [command_step command code out]).

(** The loop over the attempts, the first of which is number [attempt].  A step
    is a map on the list already while the loop still sets its keys: after a
    failure to leave root with no other form of the command it is there twice. *)
Fixpoint tracked_attempts (remaining attempt : nat) (name : string) (args : list string) (st : steps) : hostM (bool * steps) :=
  match remaining with
  | O => mret (false, st)
  | S remaining =>
      let is_last := (remaining =? 0)%nat in
      let delay := aptInstallRetryDelay attempt in
      let retry := put "retry_after_seconds" (AInt delay) in
      '(code, out) ← run (name :: args);
      let step := put "attempt" (AInt (Z.of_nat attempt)) (command_step (name :: args) code out) in
      if code =? 0 then mret (true, st ++ [step])
      else
        let setuid := aptFailureLooksSandboxSetuid out in
        let step := opt_key setuid "apt_sandbox_fallback" (AString "retrying with APT::Sandbox::User=root") step in
        match (if setuid then aptSandboxRootFallbackCommand name args else None) with
        | Some (fallbackName, fallbackArgs) =>
            '(fallbackCode, fallbackOut) ← run (fallbackName :: fallbackArgs);
            let fallbackStep :=
              put "apt_sandbox_reason" (AString "apt could not switch to the _apt sandbox user inside the agent service sandbox")
                (put "apt_sandbox_user" (AString "root")
                  (put "attempt" (AInt (Z.of_nat attempt)) (command_step (fallbackName :: fallbackArgs) fallbackCode fallbackOut))) in
            if fallbackCode =? 0 then mret (true, st ++ [step; fallbackStep])
            else if negb (shouldRetryAptInstallCommand fallbackName fallbackArgs fallbackCode fallbackOut) || is_last
            then mret (false, st ++ [step; fallbackStep])
            else
              e ← op_sleep ops (1000 * delay);
              let st := st ++ [step; retry fallbackStep] in
              match e with Some _ => mret (false, st) | None => tracked_attempts remaining (S attempt) name args st end
        | None =>
            let kept step := if setuid then st ++ [step; step] else st ++ [step] in
            if negb (shouldRetryAptInstallCommand name args code out) || is_last then mret (false, kept step)
            else
              e ← op_sleep ops (1000 * delay);
              let st := kept (retry step) in
              match e with Some _ => mret (false, st) | None => tracked_attempts remaining (S attempt) name args st end
        end
  end.

Definition runTrackedInstallCommand (command : list string) (st : steps) : hostM (bool * steps) :=
  match command with
  | [] => mret (false, st)
  | name :: args => tracked_attempts (aptInstallCommandAttempts name args) 1 name args st
  end.

Definition aptPackageCandidateAvailable (packageName : string) (st : steps) : hostM (bool * steps) :=
  let packageName := trim_space packageName in
  if packageName =s "" then mret (false, st)
  else
    '(code, out) ← run ["apt-cache"; "policy"; packageName];
    mret ((code =? 0) && aptPolicyHasCandidate out, st ++ [command_step ["apt-cache"; "policy"; packageName] code out]).

Definition hostOSReleaseID : hostM string :=
  r ← op_read agent "/etc/os-release"; mret match r with Ok b => osReleaseIDFromContent b | Err _ => "" end.

(** Run [k] only if the step before succeeded. *)
Definition and_then (m : hostM (bool * steps)) (k : steps → hostM (bool * steps)) : hostM (bool * steps) :=
  '(ok, st) ← m; if ok : bool then k st else mret (false, st).

Definition tryPrepareUbuntuUniverseRepository (packageName : string) (st : steps) : hostM (bool * steps) :=
  let packageName := trim_space packageName in
  id ← hostOSReleaseID;
  if negb (shouldPrepareUbuntuUniverseRepository id packageName) then mret (false, st)
  else
    let st := st ++ [answer [("stage", AString "repository_prepare"); ("repository", AString "ubuntu_universe");
                             ("package", AString packageName)]] in
    '(_, found) ← resolveExecutable instance "add-apt-repository" ["/usr/bin/add-apt-repository"];
    and_then (if found : bool then mret (true, st)
              else run_step (env_apt ["-o"; "Dpkg::Lock::Timeout=120"; "install"; "-y"; "software-properties-common"]) st) (λ st,
    and_then (run_step ["add-apt-repository"; "-y"; "universe"] st) (λ st,
    and_then (run_step apt_update st) (λ st, aptPackageCandidateAvailable packageName st))).

(** An error text, or none. *)
Definition repairUbuntuPackageState (st : steps) : hostM (string * steps) :=
  '(ok, st) ← runTrackedInstallCommand dpkg_configure st;
  let st := if ok : bool then st
            else st ++ [answer [("stage", AString "apt_repair");
                                ("note", AString "dpkg configuration is blocked by unresolved dependencies; continuing with apt dependency repair")]] in
  '(ok, st) ← runTrackedInstallCommand (env_apt_careful ["-f"; "install"; "-y"]) st;
  if negb ok then mret ("apt dependency repair failed", st)
  else
    '(ok, st) ← runTrackedInstallCommand dpkg_configure st;
    mret (if ok : bool then "" else "dpkg configure repair failed after dependency repair", st).

(** ** The policy that keeps packages from starting services *)

Definition autostart_step (action : string) : gomap :=
  answer [("stage", AString "package_service_autostart"); ("path", AString autostart_policy_path); ("action", AString action)].

(** Whether the file was created, and so has to go when the install ends; or an error. *)
Definition preventPackageServiceAutostart (st : steps) : hostM (result io_error bool * steps) :=
  r ← op_stat ops autostart_policy_path;
  match r with
  | Ok _ => mret (Ok false, st ++ [autostart_step "existing_policy_left_unchanged"])
  | Err (IOError _ as e) => mret (Err e, st)
  | Err (NotExist _) =>
      w ← op_write_raw ops autostart_policy_path ("#!/bin/sh" +:+ String LF ("exit 101" +:+ String LF "")) 493;
      mret match w with
           | Err e => (Err e, st)
           | Ok _ => (Ok true, st ++ [autostart_step "temporary_policy_created"])
           end
  end.

(** ** What is installed *)

Fixpoint firstKnownUnit_from (fallback : string) (names : list string) : hostM string :=
  match names with
  | [] => mret fallback
  | name :: names =>
      active ← op_output agent ["systemctl"; "is-active"; name];
      enabled ← op_output agent ["systemctl"; "is-enabled"; name];
      if negb (normalizeSystemctlState (trim_space active) =s "unknown")
         || negb (normalizeSystemctlState (trim_space enabled) =s "unknown")
      then mret name else firstKnownUnit_from fallback names
  end.
Definition firstKnownUnit (names : list string) : hostM string := firstKnownUnit_from (default "" (head names)) names.

Fixpoint firstKnownActiveState (names : list string) : hostM string :=
  match names with
  | [] => mret "unknown"
  | name :: names =>
      active ← op_output agent ["systemctl"; "is-active"; name];
      let normalized := normalizeSystemctlState (trim_space active) in
      if negb (normalized =s "unknown") then mret normalized else firstKnownActiveState names
  end.

Definition version_line (out : string) : string := trim_space (firstLine out).

(** The answer of a verifier that found a version. *)
Definition verified (label version : string) (fields : list (string * any)) : gomap :=
  answer (("ok", ABool true) :: ("message", AString (label +:+ " capability verified")) :: ("version", AString version) :: fields).
Definition verified_units (label version : string) (fields : list (string * any)) (units : list string) : hostM gomap :=
  active ← firstKnownActiveState units;
  unit ← firstKnownUnit units;
  mret (verified label version (fields ++ [("systemd_unit", AString unit); ("active_state", AString active)])).

Definition verifyNginx : hostM gomap :=
  let missing := not_ok "nginx binary not found or version unavailable" [] in
  '(path, found) ← resolveExecutable instance "nginx" [];
  if negb found then mret missing
  else
    out ← op_combined ops [path; "-v"];
    let version := version_line out in
    if version =s "" then mret missing
    else
      '(code, out) ← run [path; "-t"];
      active ← op_output agent ["systemctl"; "is-active"; "nginx"];
      mret (answer [("ok", ABool (code =? 0)); ("message", AString "nginx capability verified"); ("version", AString version);
                    ("binary_path", AString path); ("verify_output", AString (truncate out 2000));
                    ("systemd_unit", AString "nginx"); ("active_state", AString (normalizeSystemctlState (trim_space active)))]).

Definition verifyXrayCore : hostM gomap :=
  path ← xrayExecutablePath instance;
  out ← op_output agent [path; "version"];
  version ← (if version_line out =s "" then out ← op_output agent [path; "--version"]; mret (version_line out)
             else mret (version_line out));
  if version =s "" then mret (not_ok "xray-core binary not found or version unavailable" [])
  else
    active ← op_output agent ["systemctl"; "is-active"; "xray"];
    mret (verified "xray-core" version [("binary_path", AString path); ("systemd_unit", AString "xray");
                                        ("active_state", AString (normalizeSystemctlState (trim_space active)))]).

Definition verifyOpenVPN : hostM gomap :=
  out ← op_output agent ["openvpn"; "--version"];
  if version_line out =s "" then mret (not_ok "openvpn binary not found or version unavailable" [])
  else verified_units "openvpn" (version_line out) [] ["openvpn"; "openvpn-server@server"; "megavpn-openvpn"].

Definition verifyWireGuard : hostM gomap :=
  out ← op_combined ops ["wg"; "--version"];
  version ← (if version_line out =s "" then out ← op_combined ops ["wg-quick"; "--version"]; mret (version_line out)
             else mret (version_line out));
  if version =s "" then mret (not_ok "wireguard binary not found or version unavailable" [])
  else verified_units "wireguard" version [] ["wg-quick@wg0"].

Definition verifyIPsec : hostM gomap :=
  '(path, found) ← resolveExecutable instance "ipsec" [];
  if negb found then mret (not_ok "ipsec binary not found or not executable" [])
  else
    out ← op_combined ops [path; "--version"];
    if version_line out =s "" then mret (not_ok "ipsec binary version is unavailable" [("binary_path", AString path)])
    else verified_units "ipsec" (version_line out) [("binary_path", AString path)] ["strongswan"; "strongswan-starter"; "ipsec"].

Definition verifyPPP : hostM gomap :=
  '(path, found) ← resolveExecutable instance "pppd" [];
  if negb found then mret (not_ok "pppd binary not found or not executable" [])
  else
    out ← op_combined ops [path; "--version"];
    mret (if version_line out =s "" then not_ok "pppd binary version is unavailable" [("binary_path", AString path)]
          else verified "ppp" (version_line out) [("binary_path", AString path)]).

Definition verifyXL2TPD : hostM gomap :=
  '(path, found) ← resolveExecutable instance "xl2tpd" [];
  if negb found then mret (not_ok "xl2tpd binary not found or not executable" [])
  else
    out ← op_combined ops [path; "-v"];
    verified_units "xl2tpd" (if version_line out =s "" then path else version_line out) [("binary_path", AString path)] ["xl2tpd"].

Definition verifyHTTPProxy : hostM gomap :=
  out ← op_combined ops ["squid"; "-v"];
  if version_line out =s "" then mret (not_ok "squid binary not found or version unavailable" [])
  else verified_units "http proxy" (version_line out) [] ["squid"].

Definition verifyShadowsocks : hostM gomap :=
  out ← op_combined ops ["ss-server"; "-h"];
  if version_line out =s "" then mret (not_ok "shadowsocks binary not found or version unavailable" [])
  else verified_units "shadowsocks" (version_line out) [] ["shadowsocks-libev"; "shadowsocks"].

(** ** Ubuntu packages *)

(** The index of packages: [apt-get update], or what is known without it. *)
Definition refresh_index (capabilityCode packageName : string) (st : steps) : hostM (result gomap steps) :=
  '(ok, st) ← runTrackedInstallCommand apt_update st;
  '(available, st) ← aptPackageCandidateAvailable packageName st;
  if negb ok then
    mret (if negb available then Err (aptInstallFailureResult sprint capabilityCode packageName "apt update failed" st)
          else Ok (st ++ [answer [("command", AStrings ["apt-cache"; "policy"; packageName]);
                                  ("note", AString "apt update failed, but local package metadata has an install candidate; continuing with package install")]]))
  else if negb available then '(_, st) ← tryPrepareUbuntuUniverseRepository packageName st; mret (Ok st)
  else mret (Ok st).

Definition install_command (packageName : string) : list string := env_apt_careful ["install"; "-y"; packageName].

(** The install, and once more after a repair of the package state. *)
Definition install_package (capabilityCode packageName : string) (st : steps) : hostM (result gomap steps) :=
  let failure reason st := aptInstallFailureResult sprint capabilityCode packageName reason st in
  '(ok, st) ← runTrackedInstallCommand (install_command packageName) st;
  if ok : bool then mret (Ok st)
  else
    let detail := lastFailedInstallCommand sprint st in
    if negb (aptFailureSuggestsRepair (fi_output detail)) then mret (Err (failure "package install failed" st))
    else
      let st := st ++ [answer [("stage", AString "apt_repair"); ("reason", AString (fi_outputLine detail))]] in
      '(reason, st) ← repairUbuntuPackageState st;
      if negb (reason =s "") then mret (Err (failure reason st))
      else
        '(ok, st) ← runTrackedInstallCommand (install_command packageName) st;
        mret (if ok : bool then Ok st else Err (failure "package install failed after apt repair" st)).

Fixpoint enable_units (capabilityCode packageName : string) (units : list string) (st : steps) : hostM (result gomap steps) :=
  match units with
  | [] => mret (Ok st)
  | unit :: units =>
      '(ok, st) ← runTrackedInstallCommand ["systemctl"; "enable"; "--now"; unit] st;
      if ok : bool then enable_units capabilityCode packageName units st
      else mret (Err (not_ok (capabilityCode +:+ " service enable/start failed")
                        [("steps", AMaps st); ("package", AString packageName); ("unit", AString unit)]))
  end.

Definition verify_package (capabilityCode verifyHint : string) : hostM gomap :=
  if capabilityCode =s "openvpn" then verifyOpenVPN
  else if capabilityCode =s "wireguard" then verifyWireGuard
  else if capabilityCode =s "ipsec" then verifyIPsec
  else if capabilityCode =s "ppp" then verifyPPP
  else if capabilityCode =s "http_proxy" then verifyHTTPProxy
  else if capabilityCode =s "xl2tpd" then verifyXL2TPD
  else if capabilityCode =s "shadowsocks" then verifyShadowsocks
  else mret (not_ok ("no verify handler for " +:+ verifyHint) []).

(** From the install of the package to the verification. *)
Definition install_and_verify (capabilityCode packageName verifyHint : string) (enableUnits : list string) (st : steps) : hostM gomap :=
  r ← install_package capabilityCode packageName st;
  match r with
  | Err failed => mret failed
  | Ok st =>
      r ← enable_units capabilityCode packageName enableUnits st;
      match r with
      | Err failed => mret failed
      | Ok st =>
          verify ← verify_package capabilityCode verifyHint;
          mret (put "package" (AString packageName) (put "steps" (AMaps st) verify))
      end
  end.

(** The policy file the install created goes on every way out; the step that
    tells of it comes too late for the result. *)
Definition installUbuntuPackageCapability (capabilityCode packageName verifyHint : string) (enableUnits : list string) : hostM gomap :=
  euid ← op_geteuid ops;
  if negb (euid =? 0) then mret (not_ok (capabilityCode +:+ " install requires root") [("steps", AMaps [])])
  else
    r ← refresh_index capabilityCode packageName [];
    match r with
    | Err failed => mret failed
    | Ok st =>
        if negb (shouldPreventPackageServiceAutostart capabilityCode)
        then install_and_verify capabilityCode packageName verifyHint enableUnits st
        else
          '(r, st) ← preventPackageServiceAutostart st;
          match r with
          | Err e => mret (not_ok (capabilityCode +:+ " install failed before package install")
                             [("error", AString (error_text e)); ("steps", AMaps st); ("package", AString packageName)])
          | Ok created =>
              result ← install_and_verify capabilityCode packageName verifyHint enableUnits st;
              _ ← (if created : bool then r ← op_unlink instance autostart_policy_path; mret () else mret ());
              mret result
          end
    end.

(** ** Xray *)

(** An error text, or none. *)
Definition verifyFileSHA256 (path expectedHex : string) : hostM (option string) :=
  let expectedHex := to_lower (trim_space expectedHex) in
  if negb (String.length expectedHex =? 64)%nat then mret (Some "expected sha256 must be 64 hex characters")
  else
    r ← op_read agent path;
    mret match r with
         | Err e => Some (error_text e)
         | Ok b => if sha256_hex b =s expectedHex then None else Some ("sha256 mismatch: got " +:+ sha256_hex b)
         end.

Definition xray_installer_url : string := "https://github.com/XTLS/Xray-install/raw/main/install-release.sh".

(** With the directory of the installer in place. *)
Definition run_xray_installer (installerPath expectedSHA256 : string) : hostM gomap :=
  let failed message st := not_ok message [("steps", AMaps st)] in
  let failed_with message error st := not_ok message [("error", AString error); ("steps", AMaps st)] in
  '(ok, st) ← run_step ["curl"; "-fsSL"; xray_installer_url; "-o"; installerPath] [];
  if negb ok then mret (failed "xray-core install script download failed" st)
  else
    r ← op_chmod ops installerPath 448;
    match r with
    | Err e => mret (failed_with "xray-core install script permission hardening failed" (error_text e) st)
    | Ok _ =>
        e ← verifyFileSHA256 installerPath expectedSHA256;
        match e with
        | Some e => mret (failed_with "xray-core install script checksum verification failed" e st)
        | None =>
            '(ok, st) ← run_step ["bash"; installerPath; "install"] st;
            if negb ok then mret (failed "xray-core install script failed" st)
            else verify ← verifyXrayCore; mret (put "steps" (AMaps st) verify)
        end
    end.

Definition installXrayCore : hostM gomap :=
  let failed message := not_ok message [("steps", AMaps [])] in
  euid ← op_geteuid ops;
  if negb (euid =? 0) then mret (failed "xray-core install requires root")
  else
    raw ← op_getenv ops "MEGAVPN_XRAY_INSTALL_SCRIPT_SHA256";
    let expectedSHA256 := to_lower (trim_space raw) in
    if expectedSHA256 =s ""
    then mret (failed "xray-core install requires MEGAVPN_XRAY_INSTALL_SCRIPT_SHA256 for pinned supply-chain verification")
    else
      r ← op_mkdir_temp ops "megavpn-xray-install-*";
      match r with
      | Err e => mret (not_ok "xray-core installer workspace creation failed" [("error", AString (error_text e)); ("steps", AMaps [])])
      | Ok installerDir =>
          result ← run_xray_installer (clean (installerDir +:+ "/install-release.sh")) expectedSHA256;
          _ ← op_remove_tree ops installerDir;
          mret result
      end.

(** ** nginx *)

Definition nginx_fallback_markers : list string :=
  ["apt update failed before nginx install"; "nginx prerequisites install failed"; "nginx signing key temp file creation failed";
   "nginx signing key download failed"; "nginx signing key fingerprint read failed"; "nginx signing key fingerprint mismatch";
   "nginx signing key import failed"; "nginx repository codename detection failed"; "nginx repository codename is invalid";
   "nginx repository setup failed"; "nginx apt pinning setup failed"; "apt update failed after nginx repo setup";
   "nginx package install failed"].

Definition nginxOrgFallbackReason (res : gomap) : string :=
  let text key := stringify (res !! key) in
  if is_true (res !! "ok") then ""
  else
    let text := to_lower (text "message" +:+ " " +:+ text "verify_output" +:+ " " +:+ text "version") in
    if contains_sub "requires root" text then ""
    else if contains_sub "isa level" text then "nginx.org binary failed with CPU ISA compatibility error"
    else match List.find (λ marker, contains_sub marker text) nginx_fallback_markers with
         | Some marker => "nginx.org repository install failed: " +:+ marker
         | None => ""
         end.

Definition ubuntu_failure (reason message : string) (fields : list (string * any)) (st : steps) : gomap :=
  not_ok message (("steps", AMaps st) :: ("effective_strategy", AString "ubuntu_repo") :: ("fallback_reason", AString reason) :: fields).

(** The files of the nginx.org repository; the error of one that stays. *)
Fixpoint remove_all (paths : list string) : hostM (option io_error) :=
  match paths with
  | [] => mret None
  | path :: paths =>
      r ← op_unlink instance path;
      match r with Err (IOError _ as e) => mret (Some e) | _ => remove_all paths end
  end.

(** The commands of the reinstall, in order; the message of the first that fails. *)
Fixpoint run_tracked_all (commands : list (list string * string)) (st : steps) : hostM (option string * steps) :=
  match commands with
  | [] => mret (None, st)
  | (command, message) :: commands =>
      '(ok, st) ← runTrackedInstallCommand command st;
      if ok : bool then run_tracked_all commands st else mret (Some message, st)
  end.

Definition ubuntu_nginx_commands : list (list string * string) :=
  [(env_apt ["purge"; "-y"; "nginx"], "ubuntu nginx purge before reinstall failed");
   (["systemctl"; "daemon-reload"], "systemd daemon reload failed before ubuntu nginx install");
   (env_apt ["install"; "-y"; "nginx"], "ubuntu nginx package install failed");
   (["systemctl"; "enable"; "--now"; "nginx"], "nginx service enable/start failed after ubuntu nginx install")].

(** A failure of [apt-get] with its details. *)
Definition ubuntu_apt_failure (reason message : string) (st : steps) : gomap :=
  put "fallback_reason" (AString reason) (put "effective_strategy" (AString "ubuntu_repo")
    (aptInstallFailureResult sprint "nginx" "nginx" message st)).

(** Once the index of packages is there. *)
Definition reinstall_nginx (reason : string) (st : steps) : hostM gomap :=
  '(policyCode, policyOut) ← run ["apt-cache"; "policy"; "nginx"];
  let st := st ++ [command_step ["apt-cache"; "policy"; "nginx"] policyCode policyOut] in
  let policy := [("apt_policy", AString (truncate policyOut 4000))] in
  if negb (aptPolicyHasCandidate policyOut)
  then mret (ubuntu_failure reason "ubuntu nginx package is not available after removing nginx.org repository" policy st)
  else if aptPolicyMentionsNginxOrg policyOut
  then mret (ubuntu_failure reason "ubuntu_repo fallback still resolves to nginx.org package; refusing unsafe reinstall" policy st)
  else
    '(e, st) ← run_tracked_all ubuntu_nginx_commands st;
    match e with
    | Some message =>
        mret (if message =s "ubuntu nginx package install failed" then ubuntu_apt_failure reason message st
              else ubuntu_failure reason message [] st)
    | None =>
        verify ← verifyNginx;
        let verify := put "effective_strategy" (AString "ubuntu_repo") (put "steps" (AMaps st) verify) in
        mret (if reason =s "" then verify else put "fallback_reason" (AString reason) verify)
    end.

Definition installNginxUbuntuRepo (reason : string) : hostM gomap :=
  euid ← op_geteuid ops;
  if negb (euid =? 0) then mret (ubuntu_failure reason "nginx install requires root" [] [])
  else
    e ← remove_all [nginxOrgSourceListPath; nginxOrgPreferencesPath; nginxOrgKeyringPath];
    match e with
    | Some e => mret (ubuntu_failure reason "nginx.org repository cleanup failed before ubuntu nginx install" [("error", AString (error_text e))] [])
    | None =>
        '(ok, st) ← runTrackedInstallCommand ["apt-get"; "update"] [];
        if ok : bool then reinstall_nginx reason st
        else
          '(available, st) ← aptPackageCandidateAvailable "nginx" st;
          if negb available then mret (ubuntu_apt_failure reason "apt update failed before ubuntu nginx install" st)
          else reinstall_nginx reason (st ++ [answer [("stage", AString "apt_update"); ("package", AString "nginx");
                 ("note", AString "apt update failed, but local package metadata has an nginx install candidate; continuing with package install")]])
    end.

Definition supportsX8664V2 : hostM bool :=
  if negb amd64 then mret true
  else
    r ← op_read agent "/proc/cpuinfo";
    mret match r with Err _ => true | Ok data => forallb (λ f, contains_sub f (to_lower data)) x86_flags end.

Definition nginxOrgPreflightBlockReason : hostM string :=
  r ← op_read agent "/etc/os-release";
  let info keys := match r with Ok b => to_lower (trim_space (os_release_value keys b)) | Err _ => "" end in
  if (info ["VERSION_CODENAME"; "UBUNTU_CODENAME"] =s "resolute") || (info ["VERSION_ID"] =s "26.04")
  then mret "nginx.org packages for Ubuntu 26.04/resolute are blocked on this node until CPU ISA compatibility is verified"
  else
    ok ← supportsX8664V2;
    mret (if ok : bool then "" else "nginx.org packages may require a higher x86-64 ISA level than this CPU exposes").

(** The commands with the key in its temporary file: the checks of the key and
    the repository, and the install. *)
Definition nginx_from_key (keyPath channel : string) (st : steps) : hostM gomap :=
  let failed message st := mret (not_ok message [("steps", AMaps st)]) in
  let show := ["gpg"; "--show-keys"; "--with-colons"; "--fingerprint"; keyPath] in
  '(ok, st) ← run_step ["curl"; "-fsSL"; nginxOrgSigningKeyURL; "-o"; keyPath] st;
  if negb ok then failed "nginx signing key download failed" st else
  '(code, out) ← run show;
  let st := st ++ [command_step show code out] in
  if negb (code =? 0) then failed "nginx signing key fingerprint read failed" st else
  if negb (pgpFingerprintOutputContains out nginxOrgSigningKeyFingerprint)
  then mret (not_ok "nginx signing key fingerprint mismatch" [("expected_fingerprint", AString nginxOrgSigningKeyFingerprint); ("steps", AMaps st)]) else
  '(ok, st) ← run_step ["gpg"; "--dearmor"; "--yes"; "--batch"; "-o"; nginxOrgKeyringPath; keyPath] st;
  if negb ok then failed "nginx signing key import failed" st else
  let repo := if channel =s "mainline" then "https://nginx.org/packages/mainline/ubuntu" else "https://nginx.org/packages/ubuntu" in
  '(code, codenameOut) ← run ["lsb_release"; "-cs"];
  let st := st ++ [command_step ["lsb_release"; "-cs"] code codenameOut] in
  if negb (code =? 0) then failed "nginx repository codename detection failed" st else
  let codename := trim_space codenameOut in
  if negb (safeAptCodename codename)
  then mret (not_ok "nginx repository codename is invalid" [("codename", AString codename); ("steps", AMaps st)]) else
  r ← op_write_raw ops nginxOrgSourceListPath
        ("deb [signed-by=" +:+ nginxOrgKeyringPath +:+ "] " +:+ repo +:+ " " +:+ codename +:+ " nginx" +:+ String LF "") 420;
  match r with
  | Err e => mret (not_ok "nginx repository setup failed" [("error", AString (error_text e)); ("steps", AMaps st)])
  | Ok _ =>
      r ← op_write_raw ops nginxOrgPreferencesPath
            ("Package: *" +:+ String LF ("Pin: origin nginx.org" +:+ String LF ("Pin: release o=nginx" +:+ String LF
             ("Pin-Priority: 900" +:+ String LF "")))) 420;
      match r with
      | Err e => mret (not_ok "nginx apt pinning setup failed" [("error", AString (error_text e)); ("steps", AMaps st)])
      | Ok _ =>
          '(ok, st) ← run_step ["apt-get"; "update"] st;
          if negb ok then failed "apt update failed after nginx repo setup" st else
          '(ok, st) ← run_step (env_apt ["install"; "-y"; "nginx"]) st;
          if negb ok then failed "nginx package install failed" st else
          '(ok, st) ← run_step ["systemctl"; "enable"; "--now"; "nginx"] st;
          if negb ok then failed "nginx service enable/start failed after nginx.org install" st else
          verify ← verifyNginx; mret (put "steps" (AMaps st) verify)
      end
  end.

Definition installNginxOrg (channel : string) : hostM gomap :=
  let failed message st := mret (not_ok message [("steps", AMaps st)]) in
  euid ← op_geteuid ops;
  if negb (euid =? 0) then failed "nginx install requires root" [] else
  '(ok, st) ← run_step ["apt-get"; "update"] [];
  if negb ok then failed "apt update failed before nginx install" st else
  '(ok, st) ← run_step (env_apt ["install"; "-y"; "curl"; "gnupg2"; "ca-certificates"; "lsb-release"; "ubuntu-keyring"]) st;
  if negb ok then failed "nginx prerequisites install failed" st else
  r ← op_create_temp ops "megavpn-nginx-signing-*.key";
  match r with
  | Err e => mret (not_ok "nginx signing key temp file creation failed" [("error", AString (error_text e)); ("steps", AMaps st)])
  | Ok keyPath =>
      result ← nginx_from_key keyPath channel st;
      _ ← op_unlink instance keyPath;
      mret result
  end.

Definition with_strategies (requested effective : string) (res : gomap) : gomap :=
  put "effective_strategy" (AString effective) (put "requested_strategy" (AString requested) res).

Definition installNginx (strategy channel : string) : hostM gomap :=
  if strategy =s "ubuntu_repo" then
    res ← installNginxUbuntuRepo "explicit ubuntu_repo strategy"; mret (with_strategies strategy "ubuntu_repo" res)
  else
    reason ← nginxOrgPreflightBlockReason;
    if negb (reason =s "") then
      res ← installNginxUbuntuRepo reason;
      mret (put "fallback_reason" (AString reason) (with_strategies "nginx_org_repo" "ubuntu_repo" res))
    else
      res ← installNginxOrg channel;
      let res := with_strategies "nginx_org_repo" "nginx_org_repo" res in
      let fallbackReason := nginxOrgFallbackReason res in
      if negb (is_false (res !! "ok")) || (fallbackReason =s "") then mret res
      else
        fallback ← installNginxUbuntuRepo fallbackReason;
        mret (put "primary_result" (AMap res) (put "fallback_reason" (AString fallbackReason)
                (with_strategies "nginx_org_repo" "ubuntu_repo" fallback))).

(** ** The jobs *)

Definition verify_service (serviceCode : string) : option (hostM gomap) :=
  if serviceCode =s "nginx" then Some verifyNginx
  else if serviceCode =s "xray-core" then Some verifyXrayCore
  else if serviceCode =s "openvpn" then Some verifyOpenVPN
  else if serviceCode =s "wireguard" then Some verifyWireGuard
  else if serviceCode =s "ipsec" then Some verifyIPsec
  else if serviceCode =s "http_proxy" then Some verifyHTTPProxy
  else if serviceCode =s "xl2tpd" then Some verifyXL2TPD
  else if serviceCode =s "shadowsocks" then Some verifyShadowsocks
  else None.

(** The arguments of the package install of a service. *)
Definition package_of (serviceCode : string) : string * list string :=
  if serviceCode =s "openvpn" then ("openvpn", ["openvpn"])
  else if serviceCode =s "wireguard" then ("wireguard-tools", [])
  else if serviceCode =s "ipsec" then ("strongswan", ["strongswan-starter"; "strongswan"])
  else if serviceCode =s "http_proxy" then ("squid", ["squid"])
  else if serviceCode =s "xl2tpd" then ("xl2tpd", ["xl2tpd"])
  else ("shadowsocks-libev", ubuntuPackageEnableUnits "shadowsocks" []).

(** The result of an install with what it lacks; [elapsed] milliseconds after it started. *)
Definition normalizeInstallResult (res : gomap) (serviceCode strategy : string) (elapsed : Z) : gomap :=
  let res := put "service_code" (AString serviceCode) res in
  let res := put_absent "strategy" (AString strategy) res in
  let res := put_absent "effective_strategy" (AString strategy) res in
  let res := put_absent "duration_ms" (AInt64 elapsed) res in
  let ok := is_true (res !! "ok") in
  let res := put_absent "status" (AString (if ok then "succeeded" else "failed")) res in
  put_absent "message" (AString (if ok then "capability install succeeded" else "capability install failed")) res.

(** [recordCapabilityInventorySync] and [installBinaryRepositoryCapability] of
    other files: an error text, and the result for the payload under a key. *)
Context (submit_inventory : hostM (option string)) (install_binary : string → string → hostM gomap).

Definition recordCapabilityInventorySync (res : gomap) : hostM gomap :=
  e ← submit_inventory;
  mret match e with
       | Some e => put "inventory_sync_error" (AString (truncate e 1000)) (put "inventory_sync_status" (AString "failed") res)
       | None => put "inventory_sync_status" (AString "succeeded") res
       end.

Definition status_of (res : gomap) : string := if is_true (res !! "ok") then "succeeded" else "failed".

Definition verifyCapability (payload : gomap) : hostM (string * gomap) :=
  let serviceCode := NormalizeCode (string_at payload "service_code") in
  match verify_service serviceCode with
  | None => mret ("failed", answer [("error", AString "capability is not whitelisted for verify"); ("service_code", AString serviceCode)])
  | Some verify =>
      res ← verify;
      res ← recordCapabilityInventorySync res;
      let res := put "agent_version" (AString appVersion) (put "service_code" (AString serviceCode) res) in
      mret (status_of res, res)
  end.

(** An install, its inventory and its normalised result. *)
Definition finish_install (serviceCode strategy : string) (install : hostM gomap) : hostM (string * gomap) :=
  started ← op_elapsed instance;
  res ← install;
  res ← recordCapabilityInventorySync res;
  now ← op_elapsed instance;
  let res := put "agent_version" (AString appVersion) (normalizeInstallResult res serviceCode strategy (now - started)) in
  mret (status_of res, res).

Definition unsupported_strategy (serviceCode strategy : string) : string * gomap :=
  ("failed", normalizeInstallResult
     (not_ok ("unsupported " +:+ serviceCode +:+ " install strategy") [("strategy", AString strategy)]) serviceCode strategy 0).

(** The time of this look is not measured. *)
Definition look_at_nginx (strategy : string) : hostM (string * gomap) :=
  res ← verifyNginx;
  res ← recordCapabilityInventorySync res;
  let res := put "agent_version" (AString appVersion) (put "strategy" (AString strategy) (put "service_code" (AString "nginx") res)) in
  let res := normalizeInstallResult res "nginx" strategy 0 in
  mret (status_of res, res).

Definition install_nginx_job (strategy channel : string) : hostM (string * gomap) :=
  started ← op_elapsed instance;
  res ← installNginx strategy channel;
  res ← recordCapabilityInventorySync res;
  now ← op_elapsed instance;
  let res := normalizeInstallResult res "nginx" (string_at res "effective_strategy") (now - started) in
  let res := match res !! "strategy" with Some (AString "") => put "strategy" (AString strategy) res | _ => res end in
  let res := put "agent_version" (AString appVersion) (put "requested_strategy" (AString strategy) res) in
  mret (status_of res, res).

(** Shadowsocks falls back to the binary repository if the job has one. *)
Definition install_shadowsocks_job (payload : gomap) (strategy : string) : hostM (string * gomap) :=
  let '(packageName, units) := package_of "shadowsocks" in
  started ← op_elapsed instance;
  res ← installUbuntuPackageCapability "shadowsocks" packageName packageName units;
  let has_fallback := match payload !! "binary_repository_fallback" with Some (AMap _) => true | _ => false end in
  if negb (is_true (res !! "ok")) && has_fallback then
    fallback ← install_binary "shadowsocks" "binary_repository_fallback";
    let message := first [string_at fallback "message"; "shadowsocks binary repository fallback completed"] in
    let fallback := put "message" (AString message) (put "ubuntu_repo_result" (AMap res)
                      (put "fallback_from" (AString "ubuntu_repo") fallback)) in
    fallback ← recordCapabilityInventorySync fallback;
    now ← op_elapsed instance;
    let fallback := normalizeInstallResult fallback "shadowsocks" "binary_repository" (now - started) in
    let fallback := put "agent_version" (AString appVersion) (put "requested_strategy" (AString strategy) fallback) in
    mret (status_of fallback, fallback)
  else
    res ← recordCapabilityInventorySync res;
    now ← op_elapsed instance;
    let res := put "agent_version" (AString appVersion) (normalizeInstallResult res "shadowsocks" strategy (now - started)) in
    mret (status_of res, res).

Definition default_strategy (serviceCode : string) : string :=
  if serviceCode =s "nginx" then "nginx_org_repo"
  else if serviceCode =s "xray-core" then "xtls_install_release" else "ubuntu_repo".

(** Every service but [ppp] has the strategy [manual_present], which only looks. *)
Definition installCapability (payload : gomap) : hostM (string * gomap) :=
  let serviceCode := NormalizeCode (string_at payload "service_code") in
  let strategy := string_at payload "strategy" in
  let strategy := if strategy =s "" then default_strategy serviceCode else strategy in
  let channel := string_at payload "channel" in
  let channel := if channel =s "" then "latest" else channel in
  match verify_service serviceCode with
  | None => mret ("failed", answer [("error", AString "capability is not whitelisted for install"); ("service_code", AString serviceCode)])
  | Some verify =>
      if (strategy =s "binary_repository") && one_of serviceCode ["xray-core"; "shadowsocks"]
      then finish_install serviceCode strategy (install_binary serviceCode "binary_repository")
      else if strategy =s "manual_present" then
        if serviceCode =s "nginx" then look_at_nginx strategy else finish_install serviceCode strategy verify
      else if serviceCode =s "nginx" then
        if one_of strategy ["nginx_org_repo"; "ubuntu_repo"] then install_nginx_job strategy channel
        else mret (unsupported_strategy serviceCode strategy)
      else if negb (strategy =s default_strategy serviceCode) then mret (unsupported_strategy serviceCode strategy)
      else if serviceCode =s "xray-core" then finish_install serviceCode strategy installXrayCore
      else if serviceCode =s "shadowsocks" then install_shadowsocks_job payload strategy
      else let '(packageName, units) := package_of serviceCode in
           finish_install serviceCode strategy
             (installUbuntuPackageCapability serviceCode packageName packageName units)
  end.
End packages.
