(* ===== verification/EgressProcess.v ===== *)
(** * The L2TP daemon of an external egress: which process may be ended

    [cmd/agent/external_egress.go]: the agent ends a stale [xl2tpd] before it
    takes UDP port 1701 over.  It finds the process through a file with its
    number or through the listener of the port, and looks at the executable, the
    arguments and the control group of the process in [/proc] before it sends a
    signal. *)
From stdpp Require Import gmap.
From S2P Require Import Prelude GoStrings Strconv GoValue Netip NetHost Firewall FirewallAgent Shell AgentPaths AgentHost NetPolicy InstanceFiles InstanceRuntime EgressText EgressProfiles EgressRender PackageCommands AgentPackages.
From Stdlib Require Import Ascii.
From stdpp Require Import options.
Open Scope Z_scope.

(** ** The host of an external egress

    The operations of the other handlers, and those only these jobs use. *)
Inductive signal := SIGTERM | SIGKILL.
(** The outcome of [syscall.Kill]: sent, [ESRCH], or another error. *)
Inductive kill_result := Sent | NoProcess | KillFailed (text : string).

Record egress_ops (H : Type) := {
  packages : package_ops H;
  op_readlink : string → hostM H (io string);
  op_signal : Z → signal → hostM H kill_result;
  (** [os.Stat] succeeds and the mode has an execute bit *)
  op_stat_exec : string → hostM H bool;
  (** [os.Stat]: the permission bits *)
  op_stat_mode : string → hostM H (io Z) }.
Arguments packages {H} _.
Arguments op_readlink {H} _ _ _.
Arguments op_signal {H} _ _ _ _.
Arguments op_stat_exec {H} _ _ _.
Arguments op_stat_mode {H} _ _ _.

(** ** Listeners in the output of [ss] *)

(** Whether the line has an address with the port and a host. *)
Definition line_listens (wanted line : string) : bool :=
  existsb (λ address, match SplitHostPort address with
                      | Some (h, value) => (value =s wanted) && negb (h =s "")
                      | None => false
                      end) (fields (trim_space line)).

Definition externalEgressUDPPortListening (output : string) (port : Z) : bool :=
  (1 <=? port) && (port <=? 65535) && existsb (line_listens (itoa port)) (split_char LF output).

Definition externalEgressUDPPortOwner (output : string) (port : Z) : string :=
  if (1 <=? port) && (port <=? 65535)
  then match List.find (line_listens (itoa port)) (split_char LF output) with Some line => trim_space line | None => "" end
  else "".

Definition externalEgressLoopbackPortListening (output : string) (port : Z) : bool :=
  (1 <=? port) && (port <=? 65535)
  && existsb (λ line, existsb (λ address, one_of address ["127.0.0.1:" +:+ itoa port; "[::1]:" +:+ itoa port])
                        (fields (trim_space line))) (split_char LF output).

(** ** [\bpid=([0-9]+)\b], the first match *)

Definition regexp_word (c : ascii) : bool := alnum_byte c || Ascii.eqb c "_".
Fixpoint span_digits (s : string) : string * string :=
  match s with
  | String c s' => if is_digit c then let '(d, r) := span_digits s' in (String c d, r) else ("", s)
  | EmptyString => ("", "")
  end.
Fixpoint listener_pid (after_word : bool) (s : string) : option string :=
  match s with
  | EmptyString => None
  | String c s' =>
      let here :=
        if after_word then None
        else match strip_prefix "pid=" s with
             | None => None
             | Some rest =>
                 match span_digits rest with
                 | (EmptyString, _) => None
                 | (digits, EmptyString) => Some digits
                 | (digits, String next _) => if regexp_word next then None else Some digits
                 end
             end in
      match here with Some d => Some d | None => listener_pid (regexp_word c) s' end
  end.

Example pid_some : listener_pid false "UNCONN 0 0 0.0.0.0:1701 0.0.0.0:* users:((xl2tpd,pid=4321,fd=3))" = Some "4321"
  ∧ listener_pid false "xpid=1 pid=2a pid=3" = Some "3".
Proof. repeat split. Qed.

(** ** Processes *)

(** [filepath.Base]. *)
Definition go_base (path : string) : string :=
  if path =s "" then "."
  else let s := trim_slashes path in
       if s =s "" then "/" else match cut_last "/" s with Some (_, base) => base | None => s end.

Definition hex_text (n : nat) (s : string) : bool := (String.length s =? n)%nat && forallb hex_lower (bytes s).

Definition externalEgressL2TPConfigPathPattern (s : string) : bool :=
  match split_char "/" s with
  | [r; e; m; x; id; f] =>
      (r =s "") && (e =s "etc") && (m =s "megavpn") && (x =s "external-egress") && externalEgressUUIDPattern id && (f =s "xl2tpd.conf")
  | _ => false
  end.
Definition externalEgressL2TPRuntimePathPattern (s : string) : bool :=
  match split_char "/" s with
  | [r; e; m; x; id; f] =>
      (r =s "") && (e =s "run") && (m =s "megavpn") && (x =s "external-egress") && hex_text 32 id
      && one_of f ["xl2tpd.pid"; "xl2tpd.control"]
  | _ => false
  end.

(** An argument that names a file of a managed daemon; a relative path matches neither pattern. *)
Definition managed_argument (argument : string) : bool :=
  let a := trim_space argument in
  is_abs a && (externalEgressL2TPConfigPathPattern (clean a) || externalEgressL2TPRuntimePathPattern (clean a)).

Definition trim_nuls (s : string) : string := trim_right_set (Ascii.eqb "000") s.
Definition command_arguments (raw : string) : list string := split_char "000" (trim_nuls raw).

(** [strings.SplitN(line, ":", 3)[2]] *)
Definition third_field (line : string) : option string :=
  '(_, rest) ← cut_char ":" line; '(_, path) ← cut_char ":" rest; Some path.
Definition in_xl2tpd_service (cgroup : string) : bool :=
  existsb (λ line, match third_field line with Some path => one_of "xl2tpd.service" (split_char "/" path) | None => false end)
          (split_char LF cgroup).

Section process.
(** [fmt.Sprint], for [stringify]. *)
Context (sprint : any → string) {H : Type} (ops : egress_ops H).
Notation hostM := (hostM H).
Notation agent := (base (instance_host (packages ops))).
Notation run args := (op_run agent args).

Definition proc_path (pid : Z) (name : string) : string := "/proc/" +:+ itoa pid +:+ "/" +:+ name.

(** Whether the process exists, whether it is an [xl2tpd], and its executable. *)
Definition externalEgressManagedL2TPProcess (pid : Z) : hostM (result string (bool * bool * string)) :=
  r ← op_readlink ops (proc_path pid "exe");
  mret match r with
       | Err (NotExist _) => Ok (false, false, "")
       | Err e => Err ("inspect managed xl2tpd process " +:+ itoa pid +:+ ": " +:+ error_text e)
       | Ok executable => Ok (true, go_base (trim_suffix " (deleted)" executable) =s "xl2tpd", executable)
       end.

(** Whether an argument names a managed file, and the command line. *)
Definition externalEgressManagedL2TPCommandLine (pid : Z) : hostM (result string (bool * string)) :=
  r ← op_read agent (proc_path pid "cmdline");
  mret match r with
       | Err (NotExist _) => Ok (false, "")
       | Err e => Err ("inspect managed xl2tpd command line " +:+ itoa pid +:+ ": " +:+ error_text e)
       | Ok raw => let arguments := command_arguments raw in
                   Ok (existsb managed_argument arguments, join " " arguments)
       end.

Definition externalEgressL2TPSystemdServiceProcess (pid : Z) : hostM (result string (bool * string)) :=
  r ← op_read agent (proc_path pid "cgroup");
  mret match r with
       | Err (NotExist _) => Ok (false, "")
       | Err e => Err ("inspect xl2tpd systemd cgroup " +:+ itoa pid +:+ ": " +:+ error_text e)
       | Ok raw => let cgroup := trim_space raw in Ok (in_xl2tpd_service cgroup, cgroup)
       end.

(** Whether the process is gone after at most [attempts] looks. *)
Fixpoint waitForManagedExternalEgressL2TPProcess (pid : Z) (attempts : nat) (interval : Z) : hostM (result string bool) :=
  match attempts with
  | O => mret (Ok false)
  | S attempts =>
      r ← externalEgressManagedL2TPProcess pid;
      match r with
      | Err e => mret (Err e)
      | Ok (active, owned, _) =>
          if negb active || negb owned then mret (Ok true)
          else
            t ← op_sleep (packages ops) interval;
            match t with
            | Some e => mret (Err e)
            | None => waitForManagedExternalEgressL2TPProcess pid attempts interval
            end
      end
  end.

(** A result and the error text, if any. *)
Notation outcome := (gomap * option string)%type.

(** After the signal to end: the signal to kill, unless the process has gone. *)
Definition kill_verified (pid : Z) (result : gomap) : hostM outcome :=
  r ← externalEgressManagedL2TPProcess pid;
  match r with
  | Err e => mret (result, Some e)
  | Ok (active, owned, executable) =>
      if negb active || negb owned
      then mret (put "executable" (AString executable) (put "terminated" (ABool true) result), None)
      else
        k ← op_signal ops pid SIGKILL;
        match k with
        | KillFailed e => mret (result, Some ("kill managed xl2tpd process " +:+ itoa pid +:+ ": " +:+ e))
        | _ =>
            let result := put "kill_sent" (ABool true) result in
            w ← waitForManagedExternalEgressL2TPProcess pid 20 100;
            mret match w with
                 | Err e => (result, Some e)
                 | Ok false => (result, Some ("managed xl2tpd process " +:+ itoa pid +:+ " did not exit"))
                 | Ok true => (put "terminated" (ABool true) result, None)
                 end
        end
  end.

Definition signal_verified (pid : Z) (result : gomap) : hostM outcome :=
  k ← op_signal ops pid SIGTERM;
  match k with
  | KillFailed e => mret (result, Some ("terminate managed xl2tpd process " +:+ itoa pid +:+ ": " +:+ e))
  | _ =>
      let result := put "term_sent" (ABool true) result in
      w ← waitForManagedExternalEgressL2TPProcess pid 30 100;
      match w with
      | Err e => mret (result, Some e)
      | Ok true => mret (put "terminated" (ABool true) result, None)
      | Ok false => kill_verified pid result
      end
  end.

(** The reason for which the process was taken to be the agent's is checked again. *)
Definition verify_ownership (pid : Z) (res : gomap) : hostM (result (gomap * option string) gomap) :=
  let ownership := stringify sprint (res !! "ownership") in
  if ownership =s "managed_arguments" then
    r ← externalEgressManagedL2TPCommandLine pid;
    mret match r with
         | Err e => Err (put "command_line" (AString "") res, Some e)
         | Ok (managed, line) =>
             let res := put "command_line" (AString line) res in
             if managed : bool then Ok res else Err (put "ownership_changed" (ABool true) res, None)
         end
  else if ownership =s "xl2tpd.service" then
    r ← externalEgressL2TPSystemdServiceProcess pid;
    mret match r with
         | Err e => Err (put "cgroup" (AString "") res, Some e)
         | Ok (service, cgroup) =>
             let res := put "cgroup" (AString cgroup) res in
             if service : bool then Ok res else Err (put "ownership_changed" (ABool true) res, None)
         end
  else mret (Err (put "ownership_missing" (ABool true) res, None)).

Definition terminateVerifiedExternalEgressL2TPProcess (pid : Z) (result : gomap) : hostM outcome :=
  r ← externalEgressManagedL2TPProcess pid;
  match r with
  | Err e => mret (result, Some e)
  | Ok (active, owned, executable) =>
      let result := put "executable" (AString executable) result in
      if negb active then mret (put "stale_pid" (ABool true) result, None)
      else if negb owned then mret (put "pid_reused" (ABool true) (put "stale_pid" (ABool true) result), None)
      else
        v ← verify_ownership pid result;
        match v with
        | Err out => mret out
        | Ok result => signal_verified pid result
        end
  end.

Definition terminateManagedExternalEgressL2TPProcessAt (pidPath : string) : hostM outcome :=
  let result : gomap := list_to_map [("pid_file", AString pidPath); ("pid", AInt 0); ("terminated", ABool false)] in
  raw ← op_read agent pidPath;
  match raw with
  | Err (NotExist _) => mret (put "pid_file_present" (ABool false) result, None)
  | Err e => mret (result, Some ("read managed xl2tpd pid file: " +:+ error_text e))
  | Ok rawPID =>
      let result := put "pid_file_present" (ABool true) result in
      match atoi (trim_space rawPID) with
      | None => mret (result, Some "managed xl2tpd pid file is invalid")
      | Some pid =>
          if pid <=? 1 then mret (result, Some "managed xl2tpd pid file is invalid")
          else
            let result := put "pid" (AInt pid) result in
            r ← externalEgressManagedL2TPProcess pid;
            match r with
            | Err e => mret (result, Some e)
            | Ok (active, owned, executable) =>
                let result := put "executable" (AString executable) result in
                if active && owned then
                  c ← externalEgressManagedL2TPCommandLine pid;
                  match c with
                  | Err e => mret (result, Some e)
                  | Ok (managed, line) =>
                      let result := put "command_line" (AString line) result in
                      if negb managed then
                        mret (put "ownership_mismatch" (ABool true) (put "pid_reused" (ABool true)
                                (put "stale_pid" (ABool true) result)), None)
                      else terminateVerifiedExternalEgressL2TPProcess pid (put "ownership" (AString "managed_arguments") result)
                  end
                else terminateVerifiedExternalEgressL2TPProcess pid result
            end
      end
  end.

Definition terminateManagedExternalEgressL2TPProcess (p : externalEgressJobPayload) : hostM outcome :=
  terminateManagedExternalEgressL2TPProcessAt (externalEgressRuntimeDir p +:+ "/xl2tpd.pid").

(** The process that listens on the port: a managed one, or the distribution's
    service where that is allowed. *)
Definition terminateManagedExternalEgressL2TPListener (output : string) (port : Z) (allowSystemService : bool) : hostM outcome :=
  let owner := externalEgressUDPPortOwner output port in
  let result : gomap := list_to_map [("owner", AString owner); ("pid", AInt 0); ("managed", ABool false); ("terminated", ABool false)] in
  match listener_pid false owner ≫= atoi with
  | None => mret (result, None)
  | Some pid =>
      if pid <=? 1 then mret (result, None)
      else
        let result := put "pid" (AInt pid) result in
        r ← externalEgressManagedL2TPProcess pid;
        match r with
        | Err e => mret (result, Some e)
        | Ok (active, owned, executable) =>
            let result := put "executable" (AString executable) result in
            if negb active then mret (put "stale_pid" (ABool true) result, None)
            else if negb owned then mret (result, None)
            else
              c ← externalEgressManagedL2TPCommandLine pid;
              match c with
              | Err e => mret (result, Some e)
              | Ok (managed, line) =>
                  let result := put "command_line" (AString line) result in
                  if managed : bool then
                    terminateVerifiedExternalEgressL2TPProcess pid
                      (put "managed" (ABool true) (put "ownership" (AString "managed_arguments") result))
                  else if negb allowSystemService then mret (result, None)
                  else
                    s ← externalEgressL2TPSystemdServiceProcess pid;
                    match s with
                    | Err e => mret (result, Some e)
                    | Ok (service, cgroup) =>
                        let result := put "cgroup" (AString cgroup) result in
                        if negb service then mret (result, None)
                        else terminateVerifiedExternalEgressL2TPProcess pid
                               (put "managed" (ABool true) (put "ownership" (AString "xl2tpd.service") result))
                    end
              end
        end
  end.
End process.
