(* ===== verification/EgressRuntime.v ===== *)
(** * The runtime of an external egress: its files, its health and its diagnosis

    [cmd/agent/external_egress.go]: [renderExternalEgressRuntime], the probes of
    a running egress, the evidence of a failed L2TP tunnel with the secrets taken
    out, and the line editor for the shared IPsec files. *)
From stdpp Require Import gmap.
From S2P Require Import Prelude GoStrings Strconv GoValue Netip Firewall FirewallAgent Shell AgentPaths AgentHost NetPolicy InstanceFiles InstanceRuntime EgressText EgressProfiles EgressRender PackageCommands AgentPackages EgressProcess.
From Stdlib Require Import Ascii.
From stdpp Require Import options.
Open Scope Z_scope.

(** ** Texts *)

(** What the default routes of a table say: one through the interface, and one
    that is unreachable. *)
Fixpoint dev_follows (interfaceName : string) (words : list string) : bool :=
  match words with
  | dev :: (name :: _) as rest => ((dev =s "dev") && (name =s interfaceName)) || dev_follows interfaceName rest
  | _ => false
  end.
Definition provider_route (interfaceName : string) (line : string) : bool :=
  match fields (trim_space line) with
  | w :: (_ :: _) as rest => (w =s "default") && dev_follows interfaceName rest
  | _ => false
  end.
Definition unreachable_route (line : string) : bool :=
  match fields (trim_space line) with u :: d :: _ => (u =s "unreachable") && (d =s "default") | _ => false end.
Definition externalEgressRouteHealth (routes interfaceName : string) : bool * bool :=
  let lines := split_char LF routes in
  (existsb (provider_route interfaceName) lines, existsb unreachable_route lines).

Example route_health_some :
  externalEgressRouteHealth ("default dev mgev0123456789 metric 100" +:+ String LF "unreachable default metric 32767") "mgev0123456789"
  = (true, true).
Proof. reflexivity. Qed.

Definition externalEgressProbeRequirementMessage (protocol : string) : string :=
  if protocol =s "l2tp_ipsec"
  then "systemd unit, IPsec association, PPP interface address, provider route and policy rule must all be active"
  else "systemd unit, tunnel interface, provider route and policy rule must all be active".

Definition externalEgressInterfaceMissing (output : string) : bool :=
  mentions ["cannot find device"; "does not exist"; "no such device"] (to_lower (trim_space output)).
Definition isMissingIPRouteTableOutput (output : string) : bool :=
  mentions ["fib table does not exist"; "routing table does not exist"] (to_lower (trim_space output)).

Definition classifyExternalEgressL2TPFailure (output : string) : string :=
  let normalized := to_lower output in
  let says markers := mentions markers normalized in
  if says ["peer not responding"] || (says ["giving up after"] && says ["retransmit"])
  then "the provider IKE endpoint did not respond; verify UDP/500 and UDP/4500 reachability, upstream NAT and provider source-IP allowlists"
  else if says ["no proposal chosen"; "no_proposal_chosen"; "no acceptable proposal"]
  then "IPsec proposal mismatch; compare the provider IKE/ESP algorithms with the profile"
  else if says ["chap authentication failed"; "pap authentication failed"; "peer refused to authenticate"]
  then "PPP authentication failed; verify the provider username, password and accepted PPP authentication mode"
  else if says ["no shared key found"; "authentication_failed"; "authentication failed"; "peer authentication failed"]
  then "IPsec authentication failed; verify the PSK or certificate and the provider remote ID"
  else if says ["address already in use"; "bind: address"] then "UDP/1701 is owned by another runtime or process"
  else if says ["failed to load connection"; "parsing config file failed"; "unable to load config file";
                "rmax value must be at least 1"; "unknown keyword"]
  then "the generated strongSwan or xl2tpd configuration was rejected by the installed runtime"
  else "".

(** [sort.SliceStable] by length, the longest first. *)
Fixpoint insert_by_length (s : string) (l : list string) : list string :=
  match l with
  | [] => [s]
  | t :: l' => if (String.length t <=? String.length s)%nat then s :: l else t :: insert_by_length s l'
  end.
Definition longest_first (l : list string) : list string := foldr insert_by_length [] l.

(** Each value once, the longest first. *)
Fixpoint redact_values (seen : list string) (values : list string) (output : string) : string :=
  match values with
  | [] => output
  | value :: values =>
      if (value =s "") || one_of value seen then redact_values seen values output
      else redact_values (value :: seen) values (replace_all value "[REDACTED]" output)
  end.

(** ** The lines of the shared IPsec files *)

Definition trim_newlines (s : string) : string := trim_right_set (Ascii.eqb LF) s.

(** The text without the lines that are [target] but for spaces around it; and
    whether there were any. *)
Definition removeExactManagedConfigLineContent (content target : string) : string * bool :=
  let target := trim_space target in
  let lines := split_char LF (replace_all crlf (String LF "") content) in
  if existsb (λ line, trim_space line =s target) lines
  then (trim_newlines (join (String LF "") (List.filter (λ line, negb (trim_space line =s target)) lines)) +:+ String LF "", true)
  else (content, false).

Example remove_line_some :
  removeExactManagedConfigLineContent ("a" +:+ String LF ("include x" +:+ String LF ("b" +:+ String LF (String LF "")))) "include x"
  = ("a" +:+ String LF ("b" +:+ String LF ""), true).
Proof. reflexivity. Qed.

Definition outcome : Type := gomap * option string.

Section runtime.
(** [fmt.Sprint] and the order of a [range] over a map; [net/url.Parse],
    [encoding/json], [url.QueryUnescape] and the indented JSON of a value;
    [crypto/x509] in [ValidateCertificateMaterial]; the order in which the
    directives of OpenVPN with a file are gone through; and the texts of the errors. *)
Context (sprint : any → string) (order : gomap → list (string * any)).
Context (url_Parse : string → option url) (json_object : string → option gomap)
        (query_unescape : string → option string) (marshal_indent : gomap → option string).
Context (validate_certificates : string → string → string → option CertificateMaterial).
Context (purposes : list (string * string)) (err_text : egress_error → string).
Context {H : Type} (ops : egress_ops H).
Notation hostM := (hostM H).
Notation instance := (instance_host (packages ops)).
Notation agent := (base instance).
Notation run args := (op_run agent args).

(** ** The files and the unit *)

(** The files of the protocol, the command that starts it and those that stop it. *)
Definition runtime_parts : Type := list managedFileSpec * string * list string.

Definition route_script (p : externalEgressJobPayload) : string :=
  if externalEgressUsesPolicyRouting (eg_Protocol p) then under (externalEgressManagedDir p) "route-policy.sh" else "".
Definition guard_command (p : externalEgressJobPayload) : string := route_script p +:+ " guard".

Definition openvpn_parts (p : externalEgressJobPayload) (binary : string) : E runtime_parts :=
  let dir := externalEgressManagedDir p in
  '(config, extraFiles) ← renderManagedOpenVPNConfig purposes p dir;
  let configPath := under dir "client.ovpn" in
  Ok (managed_file configPath config "0600" :: extraFiles, words [binary; "--config"; configPath], [guard_command p]).

Definition wireguard_parts (p : externalEgressJobPayload) (binary : string) : E runtime_parts :=
  config ← renderManagedWireGuardConfig p;
  let configPath := under (externalEgressManagedDir p) (eg_InterfaceName p +:+ ".conf") in
  Ok ([managed_file configPath config "0600"], words [binary; "up"; configPath],
      [guard_command p; words [binary; "down"; configPath]]).

Definition xray_config_of (p : externalEgressJobPayload) : E string :=
  if eg_Protocol p =s "shadowsocks" then renderManagedShadowsocksXrayConfig url_Parse json_object order query_unescape marshal_indent p
  else renderManagedVLESSXrayConfig url_Parse json_object order marshal_indent p.
Definition xray_parts (p : externalEgressJobPayload) (binary : string) : E runtime_parts :=
  config ← xray_config_of p;
  let configPath := under (externalEgressManagedDir p) "config.json" in
  Ok ([managed_file configPath config "0600"], words [binary; "run"; "-config"; configPath], []).

Definition l2tp_parts (p : externalEgressJobPayload) (ipsec xl2tpd flock : string) : E runtime_parts :=
  let dir := externalEgressManagedDir p in
  config ← renderManagedL2TPIPsecConfig json_object order validate_certificates p;
  preview ← l2tp_profile json_object order p;
  certificates ← (if l2_AuthMethod preview =s "certificate"
                  then '(_, files) ← renderManagedL2TPIPsecCertificateMaterial validate_certificates p; Ok files
                  else Ok []);
  let file name lines mode := managed_file (under dir name) (lines_text lines) mode in
  Ok ([file "ipsec.conf" (lf_ipsec_conf config) "0600"; file "ipsec.secrets" (lf_ipsec_secrets config) "0600";
       file "xl2tpd.conf" (lf_xl2tpd config) "0600"; file "ppp-options" (lf_ppp config) "0600"]
      ++ certificates
      ++ [file "start.sh" (renderManagedL2TPIPsecStartScript json_object order p ipsec xl2tpd flock) "0700"],
      under dir "start.sh", [guard_command p; ipsec +:+ " down " +:+ externalEgressIPsecConnectionName p]).

Definition with_binary {A} (name : string) (k : string → hostM (E A)) : hostM (E A) :=
  '(path, found) ← resolveExecutable instance name [];
  if found : bool then k path else mret (Err (CapabilityMissing name)).

Definition runtime_parts_of (p : externalEgressJobPayload) : hostM (E runtime_parts) :=
  let protocol := eg_Protocol p in
  if protocol =s "openvpn" then with_binary "openvpn" (λ binary, mret (openvpn_parts p binary))
  else if protocol =s "wireguard" then with_binary "wg-quick" (λ binary, mret (wireguard_parts p binary))
  else if one_of protocol ["shadowsocks"; "vless"] then with_binary "xray" (λ binary, mret (xray_parts p binary))
  else if protocol =s "l2tp_ipsec" then
    with_binary "ipsec" (λ ipsec, with_binary "xl2tpd" (λ xl2tpd, with_binary "flock" (λ flock,
      mret (l2tp_parts p ipsec xl2tpd flock))))
  else mret (Err (ProtocolUnready protocol)).

(** The files and the text of the unit. *)
Definition assemble_runtime (p : externalEgressJobPayload) (parts : runtime_parts) : list managedFileSpec * string :=
  let '(files, execStart, stopCommands) := parts in
  let route := if externalEgressUsesPolicyRouting (eg_Protocol p)
               then [managed_file (route_script p) (lines_text (renderExternalEgressRouteScript p)) "0700"] else [] in
  (route ++ files, lines_text (renderExternalEgressUnit p (route_script p) execStart stopCommands)).

Definition renderExternalEgressRuntime (p : externalEgressJobPayload) : hostM (E (list managedFileSpec * string)) :=
  r ← runtime_parts_of p; mret (parts ← r; Ok (assemble_runtime p parts)).

Definition validateExternalEgressRuntimeConfig (p : externalEgressJobPayload) : E () :=
  let protocol := eg_Protocol p in
  if protocol =s "openvpn" then _ ← renderManagedOpenVPNConfig purposes p (externalEgressManagedDir p); Ok ()
  else if protocol =s "wireguard" then _ ← renderManagedWireGuardConfig p; Ok ()
  else if one_of protocol ["shadowsocks"; "vless"] then _ ← xray_config_of p; Ok ()
  else if protocol =s "l2tp_ipsec" then _ ← renderManagedL2TPIPsecConfig json_object order validate_certificates p; Ok ()
  else Err (ProtocolUnready protocol).

(** ** Probes *)

Definition failed_with (fields : list (string * any)) : string * gomap := ("failed", answer fields).
Definition failed_stage (error stage : string) (fields : list (string * any)) : string * gomap :=
  failed_with (("error", AString error) :: ("stage", AString stage) :: fields).

Definition probe_proxy (p : externalEgressJobPayload) (unitCode : Z) (unitState : string) : hostM (string * gomap) :=
  '(listenCode, listenOutput) ← run ["ss"; "-H"; "-lnt"];
  let listening := (listenCode =? 0) && externalEgressLoopbackPortListening listenOutput (eg_ProxyPort p) in
  let health := answer [
    ("status", AString "active"); ("unit", AString (externalEgressUnitName p)); ("unit_state", AString unitState);
    ("proxy_address", AString "127.0.0.1"); ("proxy_port", AInt (eg_ProxyPort p)); ("proxy_listening", ABool listening);
    ("unit_check_exit_code", AInt unitCode); ("listener_check_exit_code", AInt listenCode)] in
  mret (if negb (unitState =s "active") || negb listening
        then failed_with [("error", AString "external egress loopback proxy is incomplete");
                          ("health", AMap (put "status" (AString "failed") health))]
        else ("succeeded", answer [("message", AString "external egress loopback proxy is active"); ("health", AMap health)])).

(** Whether the association is established and installed, the exit code and the output of [ipsec status]. *)
Definition probe_ipsec (p : externalEgressJobPayload) : hostM (bool * Z * string) :=
  if eg_Protocol p =s "l2tp_ipsec" then
    '(code, out) ← run ["ipsec"; "status"; externalEgressIPsecConnectionName p];
    let normalized := to_upper out in
    mret ((code =? 0) && contains_sub "ESTABLISHED" normalized && contains_sub "INSTALLED" normalized, code, out)
  else mret (true, 0, "").

(** What a probe of a tunnel sees. *)
Record tunnel_probe := {
  tp_unitCode : Z; tp_unitState : string; tp_interfaceCode : Z; tp_interfaceState : string; tp_addressCode : Z;
  tp_addressState : string; tp_rulesCode : Z; tp_rules : string; tp_routesCode : Z; tp_routes : string;
  tp_ipsec : bool * Z * string }.

Definition table_of (p : externalEgressJobPayload) : string := itoa (eg_RoutingTable p).

Definition probe_tunnel (p : externalEgressJobPayload) (unitCode : Z) (unitState : string) : hostM tunnel_probe :=
  '(interfaceCode, interfaceOutput) ← run ["ip"; "-o"; "link"; "show"; "dev"; eg_InterfaceName p];
  '(addressCode, addressOutput) ← run ["ip"; "-4"; "-o"; "addr"; "show"; "dev"; eg_InterfaceName p];
  '(rulesCode, rules) ← run ["ip"; "rule"; "show"];
  '(routesCode, routesOutput) ← run ["ip"; "route"; "show"; "table"; table_of p];
  ipsec ← probe_ipsec p;
  mret {| tp_unitCode := unitCode; tp_unitState := unitState; tp_interfaceCode := interfaceCode;
          tp_interfaceState := trim_space interfaceOutput; tp_addressCode := addressCode;
          tp_addressState := trim_space addressOutput; tp_rulesCode := rulesCode; tp_rules := rules;
          tp_routesCode := routesCode; tp_routes := trim_space routesOutput; tp_ipsec := ipsec |}.

Definition l2tp (p : externalEgressJobPayload) : bool := eg_Protocol p =s "l2tp_ipsec".
Definition rule_present (p : externalEgressJobPayload) (t : tunnel_probe) : bool :=
  (tp_rulesCode t =? 0) && contains_sub (to_lower (mark_text (eg_FWMark p))) (to_lower (tp_rules t))
  && contains_sub (table_of p) (tp_rules t).
Definition interface_present (t : tunnel_probe) : bool := (tp_interfaceCode t =? 0) && negb (tp_interfaceState t =s "").
Definition address_present (t : tunnel_probe) : bool := (tp_addressCode t =? 0) && negb (tp_addressState t =s "").
Definition provider_present (p : externalEgressJobPayload) (t : tunnel_probe) : bool :=
  (externalEgressRouteHealth (tp_routes t) (eg_InterfaceName p)).1.

Definition missing_when (b : bool) (what : string) : list string := if b then [what] else [].
Definition missing_components (p : externalEgressJobPayload) (t : tunnel_probe) : list string :=
  missing_when (negb (tp_unitState t =s "active")) ("systemd unit " +:+ externalEgressUnitName p)
  ++ missing_when (negb (interface_present t)) ((if l2tp p then "PPP interface " else "tunnel interface ") +:+ eg_InterfaceName p)
  ++ missing_when (l2tp p && negb (address_present t)) ("IPv4 address on " +:+ eg_InterfaceName p)
  ++ missing_when (negb (provider_present p t)) ("provider default route in table " +:+ table_of p)
  ++ missing_when (negb (rule_present p t)) ("policy rule for " +:+ mark_text (eg_FWMark p))
  ++ missing_when (l2tp p && negb (tp_ipsec t).1.1) ("IPsec security association " +:+ externalEgressIPsecConnectionName p).

Definition tunnel_health (p : externalEgressJobPayload) (t : tunnel_probe) : gomap :=
  let '(established, code, out) := tp_ipsec t in
  answer ([("status", AString "active"); ("unit", AString (externalEgressUnitName p)); ("unit_state", AString (tp_unitState t));
     ("interface", AString (eg_InterfaceName p)); ("interface_present", ABool (interface_present t));
     ("interface_address_present", ABool (address_present t)); ("interface_address_required", ABool (l2tp p));
     ("routing_table", AInt (eg_RoutingTable p)); ("route_present", ABool (provider_present p t));
     ("provider_default_route_present", ABool (provider_present p t));
     ("fail_closed_route_present", ABool (externalEgressRouteHealth (tp_routes t) (eg_InterfaceName p)).2);
     ("fwmark", AString (mark_text (eg_FWMark p))); ("rule_present", ABool (rule_present p t));
     ("unit_check_exit_code", AInt (tp_unitCode t)); ("interface_check_exit_code", AInt (tp_interfaceCode t));
     ("address_check_exit_code", AInt (tp_addressCode t)); ("rule_check_exit_code", AInt (tp_rulesCode t));
     ("route_check_exit_code", AInt (tp_routesCode t))]
    ++ (if l2tp p then [("ipsec_connection", AString (externalEgressIPsecConnectionName p)); ("ipsec_established", ABool established);
                        ("ipsec_check_exit_code", AInt code); ("ipsec_status", AString (truncate (trim_space out) 2000))] else [])).

Definition diagnostic_commands (p : externalEgressJobPayload) : list string :=
  (if l2tp p then ["ipsec status " +:+ externalEgressIPsecConnectionName p] else [])
  ++ ["systemctl status " +:+ externalEgressUnitName p +:+ " --no-pager -l";
      "journalctl -u " +:+ externalEgressUnitName p +:+ " -n 200 --no-pager -l";
      "ip -4 addr show dev " +:+ eg_InterfaceName p; "ip route show table " +:+ table_of p; "ip rule show"].

(** The verdict on a tunnel. *)
Definition tunnel_verdict (p : externalEgressJobPayload) (t : tunnel_probe) : string * gomap :=
  match missing_components p t with
  | [] => ("succeeded", answer [("message", AString "external egress runtime is active"); ("health", AMap (tunnel_health p t))])
  | missing =>
      failed_with [("error", AString ("external egress runtime is incomplete: missing " +:+ join ", " missing));
                   ("message", AString (externalEgressProbeRequirementMessage (eg_Protocol p)));
                   ("diagnostic_commands", AStrings (diagnostic_commands p));
                   ("health", AMap (put "missing_components" (AStrings missing) (put "status" (AString "failed") (tunnel_health p t))))]
  end.

Definition probe_payload (p : externalEgressJobPayload) : hostM (string * gomap) :=
  '(unitCode, unitOutput) ← run ["systemctl"; "is-active"; externalEgressUnitName p];
  let unitState := normalizeSystemctlState (trim_space unitOutput) in
  if externalEgressUsesLoopbackProxyRuntime (eg_Protocol p) then probe_proxy p unitCode unitState
  else t ← probe_tunnel p unitCode unitState; mret (tunnel_verdict p t).

(** The arguments of a job: its payload and the agent's node. *)
Definition probeExternalEgress (payload : gomap) (node_id : string) : hostM (string * gomap) :=
  match decodeExternalEgressJob sprint order payload node_id false with
  | Err e => mret (failed_stage (err_text e) "validate" [])
  | Ok p => probe_payload p
  end.

(** *** Evidence of a failed tunnel *)

Definition redactExternalEgressDiagnosticOutput (output : string) (p : externalEgressJobPayload) : string :=
  let values := secret p <$> ["password"; "preshared_key"; "private_key"; "username"] in
  let values := values ++ match ParseL2TPIPsec json_object order (secret p "config") with
                          | Ok preview => [l2_Password preview; l2_PSK preview; l2_Username preview]
                          | Err _ => []
                          end in
  redact_values [] (longest_first values) output.

(** Key, command and the number of bytes kept. *)
Definition evidence_commands (p : externalEgressJobPayload) : list (string * list string * nat) :=
  let unit := externalEgressUnitName p in
  [("managed_unit", ["systemctl"; "status"; unit; "--no-pager"; "-l"; "--lines=100"], N.to_nat 4000);
   ("managed_unit_journal", ["journalctl"; "-u"; unit; "--since=-15min"; "-n"; "200"; "--no-pager"; "-o"; "cat"], N.to_nat 7000);
   ("ipsec_connection", ["ipsec"; "status"; externalEgressIPsecConnectionName p], N.to_nat 3500);
   ("strongswan_journal", ["journalctl"; "-u"; "strongswan-starter.service"; "-u"; "strongswan.service"; "--since=-15min";
                           "-n"; "160"; "--no-pager"; "-o"; "cat"], N.to_nat 6000);
   ("pppd_journal", ["journalctl"; "_COMM=pppd"; "--since=-15min"; "-n"; "120"; "--no-pager"; "-o"; "cat"], N.to_nat 5000)].

Fixpoint collect_evidence (p : externalEgressJobPayload) (commands : list (string * list string * nat)) (result : gomap)
  (combined : string) : hostM (gomap * string) :=
  match commands with
  | [] => mret (result, combined)
  | (key, command, max) :: commands =>
      '(code, out) ← run command;
      let out := truncate (trim_space (redactExternalEgressDiagnosticOutput out p)) max in
      collect_evidence p commands (put key (AMap (answer [("exit_code", AInt code); ("output", AString out)])) result)
        (if out =s "" then combined else combined +:+ out +:+ String LF "")
  end.

Definition collectExternalEgressL2TPRuntimeEvidence (p : externalEgressJobPayload) : hostM gomap :=
  '(result, combined) ← collect_evidence p (evidence_commands p)
     (answer [("unit", AString (externalEgressUnitName p)); ("connection", AString (externalEgressIPsecConnectionName p))]) "";
  let cause := classifyExternalEgressL2TPFailure combined in
  mret (if cause =s "" then result else put "likely_cause" (AString cause) result).

Definition probeExternalEgressWithEvidence (payload : gomap) (node_id : string) : hostM (string * gomap) :=
  '(status, result) ← probeExternalEgress payload node_id;
  if status =s "succeeded" then mret (status, result)
  else
    match decodeExternalEgressJob sprint order payload node_id false with
    | Ok p => if l2tp p then evidence ← collectExternalEgressL2TPRuntimeEvidence p;
                             mret (status, put "runtime_evidence" (AMap evidence) result)
              else mret (status, result)
    | Err _ => mret (status, result)
    end.

(** *** Probing until the runtime is stable *)

(** The result where the probes that succeeded were too few. *)
Definition unstable_result (consecutive required : Z) (status : string) (result : gomap) : gomap :=
  let result := put "stable_observations" (AInt consecutive) result in
  if status =s "succeeded" then
    let result := put "error" (AString ("external egress runtime did not remain stable: observed " +:+ itoa consecutive
                    +:+ " of " +:+ itoa required +:+ " required consecutive complete probes")) result in
    match result !! "health" with
    | Some (AMap health) =>
        put "health" (AMap (put "stability_check" (AString "failed") (put "status" (AString "failed") health))) result
    | _ => result
    end
  else result.

Fixpoint probe_loop (probe : hostM (string * gomap)) (required : Z) (attempt remaining : nat) (consecutive : Z)
  : hostM (string * gomap) :=
  '(status, result) ← probe;
  let result := put "probe_attempt" (AInt (Z.of_nat attempt + 1)) result in
  let consecutive := if status =s "succeeded" then consecutive + 1 else 0 in
  if (status =s "succeeded") && (required <=? consecutive)
  then mret (status, put "stable_observations" (AInt consecutive) result)
  else
    match remaining with
    | O => mret ("failed", unstable_result consecutive required status result)
    | S remaining =>
        e ← op_sleep (packages ops) 1000;
        match e with
        | Some e => mret (failed_stage e "stability_probe" [])
        | None => probe_loop probe required (S attempt) remaining consecutive
        end
    end.

(** L2TP: two complete probes in a row of at most four; the others: one. *)
Definition probeExternalEgressUntilStable (payload : gomap) (node_id protocol : string) : hostM (string * gomap) :=
  let probe := probeExternalEgress payload node_id in
  if protocol =s "l2tp_ipsec" then probe_loop probe 2 0 3 0 else probe_loop probe 1 0 0 0.
End runtime.
