(* ===== verification/EgressAgent.v ===== *)
(** * The external-egress jobs on the node

    [cmd/agent/external_egress.go]: applying an egress (its capability, files,
    takeover of UDP port 1701, fail-closed guard, unit and probe) and removing it
    again, over any host. *)
From stdpp Require Import gmap.
From S2P Require Import Prelude GoStrings Strconv GoValue Netip Firewall FirewallAgent Shell AgentPaths AgentHost NetPolicy InstanceFiles InstanceRuntime EgressText EgressProfiles EgressRender PackageCommands AgentPackages EgressProcess EgressRuntime.
From Stdlib Require Import Ascii.
From stdpp Require Import options.
Open Scope Z_scope.

Definition ss_udp : list string := ["ss"; "-H"; "-lunp"].
Definition disable_now (unit : string) : list string := ["systemctl"; "disable"; "--now"; unit].
Definition enable_now (unit : string) : list string := ["systemctl"; "enable"; "--now"; unit].

(** The commands of the fail-closed guard. *)
Definition guard_flush (p : externalEgressJobPayload) : list string := ["ip"; "route"; "flush"; "table"; table_of p].
Definition guard_route (p : externalEgressJobPayload) : list string :=
  ["ip"; "route"; "replace"; "unreachable"; "default"; "metric"; "32767"; "table"; table_of p].
Definition guard_rule (action : string) (p : externalEgressJobPayload) : list string :=
  ["ip"; "rule"; action; "pref"; itoa (externalEgressRulePriority (eg_RoutingTable p)); "fwmark"; mark_text (eg_FWMark p);
   "lookup"; table_of p].

(** The payload of another deployment of the same kind. *)
Definition with_deployment (p : externalEgressJobPayload) (deploymentID : string) : externalEgressJobPayload :=
  {| eg_NodeID := eg_NodeID p; eg_ProfileID := eg_ProfileID p; eg_DeploymentID := deploymentID; eg_Protocol := eg_Protocol p;
     eg_InterfaceName := eg_InterfaceName p; eg_RoutingTable := eg_RoutingTable p; eg_RouteMetric := eg_RouteMetric p;
     eg_FWMark := eg_FWMark p; eg_ProxyPort := eg_ProxyPort p; eg_Secrets := eg_Secrets p |}.

Definition as_result (r : outcome) : gomap := r.1.

Section agent.
(** The parameters of [EgressRuntime] and of [AgentPackages]. *)
Context (sprint : any → string) (order : gomap → list (string * any)).
Context (url_Parse : string → option url) (json_object : string → option gomap)
        (query_unescape : string → option string) (marshal_indent : gomap → option string).
Context (validate_certificates : string → string → string → option CertificateMaterial).
Context (purposes : list (string * string)) (err_text : egress_error → string).
Context {H : Type} (ops : egress_ops H).
Notation hostM := (hostM H).
Notation instance := (instance_host (packages ops)).
Notation agent := (base instance).
Notation run args := (op_run agent args).

(** ** Capabilities *)

(** The verifier's answer, or that of the install where it is not satisfied. *)
Definition verify_or_install (verify install : hostM gomap) : hostM gomap :=
  result ← verify; if is_true (result !! "ok") then mret result else install.

Notation install_ubuntu := (installUbuntuPackageCapability sprint (packages ops)).

Fixpoint l2tp_components (checks : list (hostM gomap * string * string * string)) (results : list gomap) : hostM (result gomap (list gomap)) :=
  match checks with
  | [] => mret (Ok results)
  | (verify, code, pkg, hint) :: checks =>
      result ← verify_or_install verify (install_ubuntu code pkg hint []);
      let results := results ++ [result] in
      if is_true (result !! "ok") then l2tp_components checks results
      else mret (Err (not_ok (firstNonEmptyAgentString [stringify sprint (result !! "message"); code +:+ " capability is unavailable"])
                        [("components", AMaps results)]))
  end.

Definition ensureL2TPIPsecExternalEgressCapability : hostM gomap :=
  r ← l2tp_components [(verifyIPsec (packages ops), "ipsec", "strongswan", "strongswan"); (verifyPPP (packages ops), "ppp", "ppp", "pppd");
                       (verifyXL2TPD (packages ops), "xl2tpd", "xl2tpd", "xl2tpd")] [];
  match r with
  | Err failed => mret failed
  | Ok results =>
      '(_, found) ← resolveExecutable instance "flock" [];
      mret (if found : bool
            then answer [("ok", ABool true); ("message", AString "L2TP/IPsec external egress capability verified"); ("components", AMaps results)]
            else not_ok "flock capability is unavailable" [("components", AMaps results)])
  end.

Definition ensureExternalEgressRuntimeCapability (protocol : string) : hostM gomap :=
  let pk := packages ops in
  if protocol =s "openvpn" then verify_or_install (verifyOpenVPN pk) (install_ubuntu "openvpn" "openvpn" "openvpn" ["openvpn"])
  else if protocol =s "wireguard"
  then verify_or_install (verifyWireGuard pk) (install_ubuntu "wireguard" "wireguard-tools" "wireguard-tools" [])
  else if one_of protocol ["vless"; "shadowsocks"] then verify_or_install (verifyXrayCore pk) (installXrayCore pk)
  else if protocol =s "l2tp_ipsec" then ensureL2TPIPsecExternalEgressCapability
  else mret (not_ok "external egress protocol runtime is not supported" []).

(** An error text, or none. *)
Definition validateExternalEgressXrayConfig (p : externalEgressJobPayload) : hostM (option string) :=
  '(binary, found) ← resolveExecutable instance "xray" [];
  if negb found then mret (Some "xray binary is not installed or not executable")
  else
    let configPath := under (externalEgressManagedDir p) "config.json" in
    '(code, output) ← run [binary; "run"; "-test"; "-config"; configPath];
    if code =? 0 then mret None
    else
      '(fallbackCode, fallbackOutput) ← run [binary; "-test"; "-config"; configPath];
      mret (if fallbackCode =? 0 then None
            else Some ("xray rejected external egress config: " +:+ firstLine (firstNonEmptyAgentString [fallbackOutput; output]))).

(** ** The fail-closed guard *)

Definition installExternalEgressFailClosedGuard (p : externalEgressJobPayload) : hostM (option string) :=
  '(code, out) ← run (guard_flush p);
  if negb (code =? 0) && negb (isMissingIPRouteTableOutput out)
  then mret (Some ("flush external egress routing table: " +:+ firstLine out))
  else
    '(code, out) ← run (guard_route p);
    if negb (code =? 0) then mret (Some ("install unreachable provider fallback: " +:+ firstLine out))
    else
      _ ← run (guard_rule "del" p);
      '(code, out) ← run (guard_rule "add" p);
      mret (if code =? 0 then None else Some ("install external egress policy rule: " +:+ firstLine out)).

(** The check that no rule and no route is left. *)
Definition verify_policy_removed (p : externalEgressJobPayload) : hostM (option string) :=
  '(code, output) ← run ["ip"; "rule"; "show"];
  if negb (code =? 0) then mret (Some ("verify external egress policy cleanup: " +:+ firstLine output))
  else
    let rules := to_lower output in
    if contains_sub (to_lower (mark_text (eg_FWMark p))) rules && contains_sub (table_of p) rules
    then mret (Some "external egress policy rule is still present after cleanup")
    else
      '(code, output) ← run ["ip"; "route"; "show"; "table"; table_of p];
      mret (if negb (code =? 0) && negb (isMissingIPRouteTableOutput output)
            then Some ("verify external egress route cleanup: " +:+ firstLine output)
            else if (code =? 0) && negb (trim_space output =s "")
            then Some "external egress routing table is not empty after cleanup" else None).

Definition cleanupExternalEgressPolicy (p : externalEgressJobPayload) : hostM (option string) :=
  let script := under (externalEgressManagedDir p) "route-policy.sh" in
  executable ← op_stat_exec ops script;
  if executable : bool then
    '(code, output) ← run [script; "cleanup"];
    if code =? 0 then verify_policy_removed p
    else mret (if isMissingIPRouteTableOutput output then None else Some ("external egress policy cleanup failed: " +:+ firstLine output))
  else
    _ ← run (guard_rule "del" p);
    '(code, output) ← run (guard_flush p);
    if negb (code =? 0) && negb (isMissingIPRouteTableOutput output)
    then mret (Some ("external egress route cleanup failed: " +:+ firstLine output))
    else verify_policy_removed p.

(** ** L2TP: the interface and the port *)

(** Up to [remaining] looks at the interface, 200 ms apart; the first removes it. *)
Fixpoint release_loop (p : externalEgressJobPayload) (attempt remaining : nat) (result : gomap) : hostM outcome :=
  match remaining with
  | O => mret (result, Some ("stale managed PPP interface " +:+ eg_InterfaceName p +:+ " remained after stopping the previous L2TP runtime"))
  | S remaining =>
      '(code, output) ← run ["ip"; "-o"; "link"; "show"; "dev"; eg_InterfaceName p];
      if negb (code =? 0) then
        mret (if externalEgressInterfaceMissing output
              then (put "attempts" (AInt (Z.of_nat attempt + 1)) (put "released" (ABool true) result), None)
              else (put "inspect_error" (AString (firstLine output)) result,
                    Some ("inspect stale managed PPP interface " +:+ eg_InterfaceName p +:+ ": "
                          +:+ firstNonEmptyAgentString [firstLine output; "ip link failed"])))
      else
        result ←
          (if (attempt =? 0)%nat then
             _ ← run ["ip"; "link"; "set"; "dev"; eg_InterfaceName p; "down"];
             '(deleteCode, deleteOutput) ← run ["ip"; "link"; "delete"; "dev"; eg_InterfaceName p];
             mret (opt_key (negb (deleteCode =? 0) && negb (externalEgressInterfaceMissing deleteOutput)) "delete_output"
                     (AString (truncate (trim_space deleteOutput) 1000))
                     (put "delete_exit_code" (AInt deleteCode)
                        (put "stale_interface" (AString (truncate (trim_space output) 1000)) result)))
           else mret result);
        e ← op_sleep (packages ops) 200;
        match e with
        | Some e => mret (result, Some e)
        | None => release_loop p (S attempt) remaining result
        end
  end.
Definition releaseExternalEgressL2TPInterface (p : externalEgressJobPayload) : hostM outcome :=
  release_loop p 0 25 (answer [("interface", AString (eg_InterfaceName p)); ("released", ABool false)]).

(** *** Another deployment's L2TP runtime *)

(** The paths of a deployment, each with whether it is a directory. *)
Definition stale_paths (p : externalEgressJobPayload) : list (string * bool) :=
  [(externalEgressUnitPath p, false); (externalEgressManagedDir p, true); (externalEgressRuntimeDir p, true)]
  ++ ((λ path, (path, false)) <$> externalEgressIPsecCertificatePaths p).

(** The paths that were removed, or the first error. *)
Fixpoint remove_stale (paths : list (string * bool)) (removed : list string) : hostM (list string * option string) :=
  match paths with
  | [] => mret (removed, None)
  | (path, recursive) :: paths =>
      r ← op_remove agent path recursive;
      match r with
      | Ok was => remove_stale paths (if was : bool then removed ++ [path] else removed)
      | Err (NotExist _) => remove_stale paths removed
      | Err e => mret (removed, Some ("remove stale managed L2TP path " +:+ path +:+ ": " +:+ error_text e))
      end
  end.

(** An error text, or the paths removed and the result of ending its process. *)
Definition stop_stale_deployment (stale : externalEgressJobPayload) (removed : list string)
  : hostM (result string (list string) * option gomap) :=
  let id := eg_DeploymentID stale in
  '(stopCode, stopOutput) ← run (disable_now (externalEgressUnitName stale));
  if negb (stopCode =? 0) && negb (isMissingSystemdUnitOutput stopOutput)
  then mret (Err ("stop stale managed L2TP runtime " +:+ id +:+ ": " +:+ firstLine stopOutput), None)
  else
    '(process, e) ← terminateManagedExternalEgressL2TPProcess sprint ops stale;
    match e with
    | Some e => mret (Err ("stop stale managed L2TP process " +:+ id +:+ ": " +:+ e), None)
    | None =>
        let script := under (externalEgressManagedDir stale) "route-policy.sh" in
        executable ← op_stat_exec ops script;
        failed ← (if executable : bool then
                    '(code, output) ← run [script; "cleanup"];
                    mret (if negb (code =? 0) && negb (isMissingIPRouteTableOutput output)
                          then Some ("cleanup stale managed L2TP policy " +:+ id +:+ ": " +:+ firstLine output) else None)
                  else mret None);
        match failed with
        | Some e => mret (Err e, Some process)
        | None =>
            '(removed, e) ← remove_stale (stale_paths stale) removed;
            mret (match e with Some e => Err e | None => Ok removed end, Some process)
        end
    end.

Definition config_deployment (configPath : string) : string := to_lower (go_base (path_dir configPath)).

(** Every deployment of the list but the job's own. *)
Fixpoint stop_stale_deployments (p : externalEgressJobPayload) (configs : list string) (stale removed : list string) (result : gomap)
  : hostM (outcome * list string) :=
  match configs with
  | [] => mret (put "removed_paths" (AStrings removed) (put "stale_deployments" (AStrings stale) result), None, stale)
  | configPath :: configs =>
      let id := config_deployment configPath in
      if (id =s eg_DeploymentID p) || negb (externalEgressUUIDPattern id) then stop_stale_deployments p configs stale removed result
      else
        '(r, process) ← stop_stale_deployment (with_deployment p id) removed;
        let result := match process with Some m => put ("stale_process_" +:+ id) (AMap m) result | None => result end in
        match r with
        | Err e => mret (result, Some e, stale)
        | Ok removed => stop_stale_deployments p configs (stale ++ [id]) removed result
        end
  end.

Definition prepareExternalEgressL2TPTakeover (p : externalEgressJobPayload) : hostM outcome :=
  let result := answer [("system_xl2tpd_stopped", ABool false); ("current_process", AMap ∅);
                        ("stale_deployments", AStrings []); ("removed_paths", AStrings [])] in
  '(process, e) ← terminateManagedExternalEgressL2TPProcess sprint ops p;
  let result := put "current_process" (AMap process) result in
  match e with
  | Some e => mret (result, Some ("stop current managed L2TP process: " +:+ e))
  | None =>
      '(code, output) ← run (disable_now "xl2tpd.service");
      if negb (code =? 0) && negb (isMissingSystemdUnitOutput output)
      then mret (put "system_xl2tpd_output" (AString (truncate output 2000)) result,
                 Some ("existing xl2tpd service could not be stopped: " +:+ firstLine output))
      else
        let result := put "system_xl2tpd_stopped" (ABool (code =? 0)) result in
        configs ← op_glob instance (externalEgressManagedRoot +:+ "/*/xl2tpd.conf");
        match configs with
        | Err e => mret (result, Some ("discover stale managed L2TP runtimes: " +:+ e))
        | Ok configs =>
            '(result, e, stale) ← stop_stale_deployments p configs [] [] result;
            match e, stale with
            | Some _, _ | None, [] => mret (result, e)
            | None, _ => '(_, e) ← runSystemdDaemonReload agent; mret (result, e)
            end
        end
  end.

(** The listener of UDP port 1701: the output of [ss] after a managed one has been
    ended, with the takeover's record; or the result of the job. *)
Definition clear_udp_port (takeover : gomap) : hostM (result (string * gomap) (string * gomap)) :=
  let preflight error fields := Err (failed_stage error "port_preflight" fields) in
  '(code, output) ← run ss_udp;
  if negb (code =? 0) then mret (preflight ("cannot verify UDP/1701 availability: " +:+ firstLine output) [])
  else if negb (externalEgressUDPPortListening output 1701) then mret (Ok (output, takeover))
  else
    '(listener, e) ← terminateManagedExternalEgressL2TPListener sprint ops output 1701 true;
    let takeover := put "orphan_listener" (AMap listener) takeover in
    match e with
    | Some e => mret (preflight ("inspect stale managed UDP/1701 listener: " +:+ e) [("takeover", AMap takeover)])
    | None =>
        if is_true (listener !! "terminated") then
          '(code, output) ← run ss_udp;
          mret (if negb (code =? 0)
                then preflight ("cannot verify UDP/1701 after managed listener teardown: " +:+ firstLine output) [("takeover", AMap takeover)]
                else Ok (output, takeover))
        else mret (Ok (output, takeover))
    end.

(** Certificates that an earlier profile left. *)
Fixpoint remove_certificates (paths : list string) : hostM (option (string * string)) :=
  match paths with
  | [] => mret None
  | path :: paths =>
      r ← op_remove agent path false;
      match r with
      | Err (IOError _ as e) => mret (Some (error_text e, path))
      | _ => remove_certificates paths
      end
  end.

Definition udp_in_use : string :=
  "UDP/1701 is already in use after managed L2TP teardown; stop or move the remaining listener before applying this provider profile".

(** Everything an L2TP apply does before the guard: the record of the takeover, or
    the result of the job. *)
Definition take_over_l2tp (p : externalEgressJobPayload) : hostM (result (string * gomap) gomap) :=
  '(takeover, e) ← prepareExternalEgressL2TPTakeover p;
  match e with
  | Some e => mret (Err (failed_stage e "prepare_l2tp_takeover" [("takeover", AMap takeover)]))
  | None =>
      '(release, e) ← releaseExternalEgressL2TPInterface p;
      let takeover := put "interface_release" (AMap release) takeover in
      match e with
      | Some e => mret (Err (failed_stage e "prepare_l2tp_interface" [("takeover", AMap takeover)]))
      | None =>
          r ← clear_udp_port takeover;
          match r with
          | Err failed => mret (Err failed)
          | Ok (output, takeover) =>
              if externalEgressUDPPortListening output 1701
              then mret (Err (failed_stage udp_in_use "port_preflight" [("owner", AString (externalEgressUDPPortOwner output 1701))]))
              else
                match l2tp_profile json_object order p with
                | Err e => mret (Err (failed_stage (err_text e) "validate_config" []))
                | Ok preview =>
                    if l2_AuthMethod preview =s "certificate" then mret (Ok takeover)
                    else
                      e ← remove_certificates (externalEgressIPsecCertificatePaths p);
                      mret match e with
                           | Some (e, path) => Err (failed_stage e "remove_stale_certificate" [("path", AString path)])
                           | None => Ok takeover
                           end
                end
          end
      end
  end.

(** ** Apply *)

Fixpoint write_files (files : list managedFileSpec) : hostM (option (string * string)) :=
  match files with
  | [] => mret None
  | file :: files =>
      r ← op_write agent file;
      match r with Err e => mret (Some (error_text e, file_Path file)) | Ok _ => write_files files end
  end.

(** [None] is the result [k] of the job; a text is a failure at a stage. *)
Definition stage_or (m : hostM (option string)) (stage : string) (fields : list (string * any)) (k : hostM (string * gomap))
  : hostM (string * gomap) :=
  e ← m; match e with Some e => mret (failed_stage e stage fields) | None => k end.

(** Start the unit and look at it until it is stable. *)
Definition start_and_probe (p : externalEgressJobPayload) (payload : gomap) (node_id : string) (takeover : option gomap)
  : hostM (string * gomap) :=
  let unitName := externalEgressUnitName p in
  '(code, output) ← run (enable_now unitName);
  if negb (code =? 0) then
    mret (failed_stage ("external egress service failed to start: " +:+ firstLine output) "systemd_start"
            [("unit", AString unitName); ("output", AString (truncate output 4000))])
  else
    '(status, result) ← probeExternalEgressUntilStable sprint order err_text ops payload node_id (eg_Protocol p);
    let result := match takeover with Some m => put "l2tp_takeover" (AMap m) result | None => result end in
    if negb (status =s "succeeded") && l2tp p
    then evidence ← collectExternalEgressL2TPRuntimeEvidence order json_object ops p;
         mret (status, put "runtime_evidence" (AMap evidence) result)
    else mret (status, result).

(** From the guard on. *)
Definition install_runtime (p : externalEgressJobPayload) (payload : gomap) (node_id : string) (files : list managedFileSpec)
  (unit : string) (takeover : option gomap) : hostM (string * gomap) :=
  let unitName := externalEgressUnitName p in
  stage_or (if externalEgressUsesPolicyRouting (eg_Protocol p) then installExternalEgressFailClosedGuard p else mret None)
    "install_fail_closed_guard" [("unit", AString unitName)]
  (e ← write_files files;
   match e with
   | Some (e, path) => mret (failed_stage e "write" [("path", AString path)])
   | None =>
       r ← op_write agent (managed_file (externalEgressUnitPath p) unit "0644");
       match r with
       | Err e => mret (failed_stage (error_text e) "write_unit" [])
       | Ok _ =>
           stage_or (if externalEgressUsesLoopbackProxyRuntime (eg_Protocol p) then validateExternalEgressXrayConfig p else mret None)
             "validate_xray_config" []
           (stage_or ('(_, e) ← runSystemdDaemonReload agent; mret e) "daemon_reload" []
              (start_and_probe p payload node_id takeover))
       end
   end).

Definition applyExternalEgress (payload : gomap) (node_id : string) : hostM (string * gomap) :=
  match decodeExternalEgressJob sprint order payload node_id true with
  | Err e => mret (failed_stage (err_text e) "validate" [])
  | Ok p =>
      let protocol := [("protocol", AString (eg_Protocol p))] in
      match validateExternalEgressRuntimeConfig order url_Parse json_object query_unescape marshal_indent validate_certificates purposes p with
      | Err e => mret (failed_stage (err_text e) "validate_config" protocol)
      | Ok _ =>
          runtime ← ensureExternalEgressRuntimeCapability (eg_Protocol p);
          if negb (is_true (runtime !! "ok")) then
            mret (failed_stage (firstNonEmptyAgentString [stringify sprint (runtime !! "message"); "external egress runtime capability is unavailable"])
                    "runtime_capability" [("runtime", AMap runtime)])
          else
            r ← renderExternalEgressRuntime order url_Parse json_object query_unescape marshal_indent validate_certificates purposes ops p;
            match r with
            | Err e => mret (failed_stage (err_text e) "render" protocol)
            | Ok (files, unit) =>
                let unitName := externalEgressUnitName p in
                match validateExternalEgressManagedArtifacts p files (externalEgressUnitPath p) with
                | Err e => mret (failed_stage (err_text e) "validate_artifacts" [])
                | Ok _ =>
                    '(code, output) ← run (disable_now unitName);
                    if negb (code =? 0) && negb (isMissingSystemdUnitOutput output) && negb (contains_sub "not loaded" (to_lower output)) then
                      mret (failed_stage ("existing external egress service could not be stopped: " +:+ firstLine output) "stop_existing"
                              [("unit", AString unitName)])
                    else if l2tp p then
                      r ← take_over_l2tp p;
                      match r with
                      | Err failed => mret failed
                      | Ok takeover => install_runtime p payload node_id files unit (Some takeover)
                      end
                    else install_runtime p payload node_id files unit None
                end
            end
      end
  end.

(** ** Removal *)

Definition warn_when (b : bool) (warning : string) (warnings : list string) : list string := if b then warnings ++ [warning] else warnings.
Definition warn_error (prefix : string) (e : option string) (warnings : list string) : list string :=
  match e with Some e => warnings ++ [prefix +:+ e] | None => warnings end.

(** What the removal of an L2TP runtime found. *)
Record l2tp_teardown := { td_warnings : list string; td_safe : bool; td_process : gomap; td_listener : gomap; td_release : gomap }.

(** The listener of the port: the warnings, whether it is safe to go on, and the
    record of the listener. *)
Definition teardown_listener (warnings : list string) : hostM (list string * bool * gomap) :=
  '(code, output) ← run ss_udp;
  if negb (code =? 0) then mret (warnings ++ ["verify UDP/1701 cleanup: " +:+ firstLine output], false, ∅)
  else
    '(code, output, warnings, safe, listener) ←
      (if externalEgressUDPPortListening output 1701 then
         '(listener, e) ← terminateManagedExternalEgressL2TPListener sprint ops output 1701 true;
         let warnings := warn_error "inspect stale managed UDP/1701 listener: " e warnings in
         let safe := match e with Some _ => false | None => true end in
         if is_true (listener !! "terminated") then
           '(code, output) ← run ss_udp;
           let failed := negb (code =? 0) in
           mret (code, output, warn_when failed ("verify UDP/1701 after managed listener teardown: " +:+ firstLine output) warnings,
                 safe && negb failed, listener)
         else mret (code, output, warnings, safe, listener)
       else mret (code, output, warnings, true, ∅));
    let busy := (code =? 0) && externalEgressUDPPortListening output 1701 in
    let owner := firstNonEmptyAgentString [externalEgressUDPPortOwner output 1701; "owner unavailable"] in
    mret (warn_when busy ("UDP/1701 remains in use after managed cleanup: " +:+ owner) warnings, safe && negb busy, listener).

Definition teardown_l2tp (p : externalEgressJobPayload) (warnings : list string) : hostM l2tp_teardown :=
  '(code, output) ← run (disable_now "xl2tpd.service");
  let warnings := warn_when (negb (code =? 0) && negb (isMissingSystemdUnitOutput output))
                    ("system xl2tpd stop: " +:+ firstLine output) warnings in
  '(process, e) ← terminateManagedExternalEgressL2TPProcess sprint ops p;
  let warnings := warn_error "" e warnings in
  let stopped := match e with Some _ => false | None => true end in
  '(warnings, free, listener) ← teardown_listener warnings;
  if stopped && free then
    '(release, e) ← releaseExternalEgressL2TPInterface p;
    mret {| td_warnings := warn_error "" e warnings; td_safe := match e with Some _ => false | None => true end;
            td_process := process; td_listener := listener; td_release := release |}
  else mret {| td_warnings := warnings; td_safe := false; td_process := process; td_listener := listener; td_release := ∅ |}.

Fixpoint remove_with_warnings (paths : list (string * bool)) (warnings : list string) : hostM (list string) :=
  match paths with
  | [] => mret warnings
  | (path, recursive) :: paths =>
      r ← op_remove agent path recursive;
      remove_with_warnings paths
        match r with Err (IOError _ as e) => warnings ++ [path +:+ ": " +:+ error_text e] | _ => warnings end
  end.

(** *** The shared IPsec files *)

(** Whether a line was removed. *)
Definition removeExactManagedConfigLine (path target : string) : hostM (io bool) :=
  let path := cleanAbsPath path in
  let target := trim_space target in
  if (path =s "") || (target =s "") then mret (Err (IOError "managed config line cleanup requires an absolute path and exact line"))
  else
    r ← op_reject instance path;
    match r with
    | Err e => mret (Err e)
    | Ok _ =>
        mode ← op_stat_mode ops path;
        match mode with
        | Err e => mret (Err e)
        | Ok mode =>
            body ← op_read agent path;
            match body with
            | Err e => mret (Err e)
            | Ok body =>
                let '(next, removed) := removeExactManagedConfigLineContent body target in
                if negb removed then mret (Ok false)
                else
                  r ← op_write agent (managed_file path next (octal_mode mode));
                  mret match r with Err e => Err e | Ok _ => Ok true end
            end
        end
    end.

Definition ipsec_includes : gomap :=
  {[ "/etc/ipsec.conf" := AString ipsec_config_include; "/etc/ipsec.secrets" := AString ipsec_secrets_include ]}.

Fixpoint remove_includes (includes : list (string * any)) (warnings : list string) : hostM (list string) :=
  match includes with
  | [] => mret warnings
  | (path, line) :: includes =>
      r ← removeExactManagedConfigLine path (match line with AString s => s | _ => "" end);
      remove_includes includes
        match r with Err (IOError _ as e) => warnings ++ [path +:+ ": " +:+ error_text e] | _ => warnings end
  end.

Definition cleanupExternalEgressIPsecIncludesIfUnused : hostM (list string) :=
  configs ← op_glob instance (externalEgressManagedRoot +:+ "/*/ipsec.conf");
  match configs with
  | Err e => mret ["discover managed IPsec configs: " +:+ e]
  | Ok (_ :: _) => mret []
  | Ok [] => remove_includes (order ipsec_includes) []
  end.

Definition reloadExternalEgressIPsecAfterCleanup : hostM string :=
  '(ipsec, found) ← resolveExecutable instance "ipsec" [];
  if negb found then mret ""
  else
    _ ← run [ipsec; "rereadsecrets"];
    '(code, output) ← run [ipsec; "reload"];
    mret (if code =? 0 then "" else "strongSwan reload: " +:+ firstLine output).

(** *** The job *)

Definition own_paths (p : externalEgressJobPayload) : list (string * bool) :=
  [(externalEgressUnitPath p, false); (externalEgressManagedDir p, true); (externalEgressRuntimeDir p, true)].
Definition no_teardown (warnings : list string) : l2tp_teardown :=
  {| td_warnings := warnings; td_safe := true; td_process := ∅; td_listener := ∅; td_release := ∅ |}.

(** The files of L2TP that are shared or kept elsewhere. *)
Definition cleanup_ipsec (p : externalEgressJobPayload) (warnings : list string) : hostM (list string) :=
  warnings ← remove_with_warnings ((λ path, (path, false)) <$> externalEgressIPsecCertificatePaths p) warnings;
  included ← cleanupExternalEgressIPsecIncludesIfUnused;
  reload ← reloadExternalEgressIPsecAfterCleanup;
  mret (warn_when (negb (reload =s "")) reload (warnings ++ included)).

Definition cleanup_payload (p : externalEgressJobPayload) : hostM (string * gomap) :=
  let unitName := externalEgressUnitName p in
  '(code, output) ← run (disable_now unitName);
  let warnings := warn_when (negb (code =? 0) && negb (isMissingSystemdUnitOutput output)) ("systemd stop: " +:+ firstLine output) [] in
  e ← (if externalEgressUsesPolicyRouting (eg_Protocol p) then cleanupExternalEgressPolicy p else mret None);
  let warnings := warn_error "" e warnings in
  td ← (if l2tp p then teardown_l2tp p warnings else mret (no_teardown warnings));
  let warnings := warn_when (negb (td_safe td)) "managed L2TP artifacts were preserved for a safe cleanup retry" (td_warnings td) in
  warnings ← remove_with_warnings (if td_safe td then own_paths p else []) warnings;
  warnings ← (if l2tp p then cleanup_ipsec p warnings else mret warnings);
  '(_, e) ← runSystemdDaemonReload agent;
  let warnings := warn_error "" e warnings in
  let result := answer ([("message", AString "external egress runtime removed"); ("unit", AString unitName);
                         ("warnings", AStrings warnings); ("health", AMap {[ "status" := AString "inactive" ]})]
                        ++ (if l2tp p then [("l2tp_process", AMap (td_process td)); ("l2tp_listener_process", AMap (td_listener td));
                                            ("l2tp_interface_release", AMap (td_release td))] else [])) in
  mret match warnings with
       | [] => ("succeeded", result)
       | _ => ("failed", put "error" (AString (join "; " warnings)) result)
       end.

Definition cleanupExternalEgress (payload : gomap) (node_id : string) : hostM (string * gomap) :=
  match decodeExternalEgressJob sprint order payload node_id false with
  | Err e => mret (failed_stage (err_text e) "validate" [])
  | Ok p => cleanup_payload p
  end.
End agent.
