(* ===== verification/HostTrace.v ===== *)
(** * What a job does to its host, in order

    A log for the hosts of the install and external-egress jobs, and a small
    logic for it: [runs m R] says that [m], over any host, adds events to the log
    of which, with its answer, [R] holds. *)
From stdpp Require Import gmap.
From S2P Require Import Prelude GoStrings Strconv GoValue Firewall FirewallAgent Shell AgentPaths AgentHost NetPolicy InstanceFiles InstanceRuntime PackageCommands AgentPackages EgressProcess.
From Stdlib Require Import Ascii.
From stdpp Require Import options.
Open Scope Z_scope.

(** ** Events *)

Inductive host_event :=
(** a command and its exit code *)
| Did (args : list string) (code : Z)
| Asked (args : list string)
(** a file written, and whether it succeeded *)
| Saved (path : string) (done : bool)
| Deleted (path : string) (recursive : bool)
| ReadFile (path : string) (r : io string)
| ReadLink (path : string) (r : io string)
| Signalled (pid : Z) (s : signal)
(** a mode changed, a temporary file or directory made *)
| Touched (path : string).

#[global] Instance signal_eq_dec : EqDecision signal.
Proof. solve_decision. Defined.
#[global] Instance io_error_eq_dec : EqDecision io_error.
Proof. solve_decision. Defined.
#[global] Instance result_eq_dec {E A} `{EqDecision E, EqDecision A} : EqDecision (result E A).
Proof. solve_decision. Defined.
#[global] Instance host_event_eq_dec : EqDecision host_event.
Proof. solve_decision. Defined.

Notation traced H := (H * list host_event)%type.

Definition with_events {H A} (m : hostM H A) (f : A → list host_event) : hostM (traced H) A :=
  λ '(h, log), let '(a, h) := m h in (a, (h, log ++ f a)).
Definition unseen {H A} (m : hostM H A) : hostM (traced H) A := with_events m (λ _, []).

Definition seen_agent {H} (o : agent_ops H) : agent_ops (traced H) :=
  {| op_run := λ args, with_events (op_run o args) (λ r, [Did args r.1]);
     op_output := λ args, with_events (op_output o args) (λ _, [Asked args]);
     op_write := λ f, with_events (op_write o f) (λ r, [Saved (file_Path f) (is_ok r)]);
     op_remove := λ p rec, with_events (op_remove o p rec) (λ _, [Deleted p rec]);
     op_lstat := λ p, unseen (op_lstat o p);
     op_read := λ p, with_events (op_read o p) (λ r, [ReadFile p r]);
     op_now := unseen (op_now o) |}.

Definition seen_instance {H} (o : runtime_ops H) : runtime_ops (traced H) :=
  {| base := seen_agent (base o);
     op_reject := λ p, unseen (op_reject o p);
     op_unlink := λ p, with_events (op_unlink o p) (λ _, [Deleted p false]);
     op_look_path := λ n, unseen (op_look_path o n);
     op_is_executable := λ p, unseen (op_is_executable o p);
     op_glob := λ p, unseen (op_glob o p);
     op_elapsed := unseen (op_elapsed o) |}.

Definition seen_packages {H} (o : package_ops H) : package_ops (traced H) :=
  {| instance_host := seen_instance (instance_host o);
     op_combined := λ args, with_events (op_combined o args) (λ _, [Asked args]);
     op_geteuid := unseen (op_geteuid o);
     op_getenv := λ name, unseen (op_getenv o name);
     op_stat := λ p, unseen (op_stat o p);
     op_write_raw := λ p c m, with_events (op_write_raw o p c m) (λ r, [Saved p (is_ok r)]);
     op_chmod := λ p m, with_events (op_chmod o p m) (λ _, [Touched p]);
     op_mkdir_temp := λ pat, with_events (op_mkdir_temp o pat) (λ _, [Touched pat]);
     op_create_temp := λ pat, with_events (op_create_temp o pat) (λ _, [Touched pat]);
     op_remove_tree := λ p, with_events (op_remove_tree o p) (λ _, [Deleted p true]);
     op_sleep := λ ms, unseen (op_sleep o ms) |}.

Definition seen_egress {H} (o : egress_ops H) : egress_ops (traced H) :=
  {| packages := seen_packages (packages o);
     op_readlink := λ p, with_events (op_readlink o p) (λ r, [ReadLink p r]);
     op_signal := λ pid s, with_events (op_signal o pid s) (λ _, [Signalled pid s]);
     op_stat_exec := λ p, unseen (op_stat_exec o p);
     op_stat_mode := λ p, unseen (op_stat_mode o p) |}.

(** The events and the answer of a computation started with an empty log. *)
Definition log_of {H A} (m : hostM (traced H) A) (h : H) : list host_event := (m (h, [])).2.2.
Definition answer_of {H A} (m : hostM (traced H) A) (h : H) : A := (m (h, [])).1.

(** ** The logic *)

Section logic.
Context {H : Type}.
Notation M A := (hostM (traced H) A).

Definition runs {A} (m : M A) (R : A → list host_event → Prop) : Prop :=
  ∀ h log, ∃ a h' new, m (h, log) = (a, (h', log ++ new)) ∧ R a new.

(** Only events of [P]. *)
Definition emits {A} (P : host_event → Prop) (m : M A) : Prop := runs m (λ _ new, Forall P new).

Lemma runs_ret {A} (a : A) (R : A → list host_event → Prop) : R a [] → runs (mret a) R.
Proof. intros HR h log. exists a, h, []. by rewrite app_nil_r. Qed.

Lemma runs_bind {A B} (m : M A) (f : A → M B) (R1 : A → list host_event → Prop) (R : B → list host_event → Prop) :
  runs m R1 → (∀ a new, R1 a new → runs (f a) (λ b new', R b (new ++ new'))) → runs (m ≫= f) R.
Proof.
  intros Hm Hf h log. destruct (Hm h log) as (a & h1 & n1 & E1 & H1).
  destruct (Hf a n1 H1 h1 (log ++ n1)) as (b & h2 & n2 & E2 & H2). exists b, h2, (n1 ++ n2).
  unfold mbind, hostM_bind. by rewrite E1, E2, <-(assoc_L (++)).
Qed.

Lemma runs_weaken {A} (m : M A) (R R' : A → list host_event → Prop) :
  runs m R → (∀ a new, R a new → R' a new) → runs m R'.
Proof. intros Hm Hi h log. destruct (Hm h log) as (a & h' & n & E & Hn). exists a, h', n. split; [done|by apply Hi]. Qed.

Lemma runs_events {A} (m : hostM H A) f (R : A → list host_event → Prop) : (∀ a, R a (f a)) → runs (with_events m f) R.
Proof. intros HR h log. unfold with_events. destruct (m h) as [a h']. exists a, h', (f a). split; [done|apply HR]. Qed.

Lemma runs_log {A} (m : M A) R h : runs m R → R (answer_of m h) (log_of m h).
Proof. intros Hm. unfold answer_of, log_of. destruct (Hm h []) as (a & h' & n & E & Hn). by rewrite E. Qed.

(** *** Only such events *)

Lemma emits_ret {A} P (a : A) : emits P (mret a : M A).
Proof. by apply runs_ret. Qed.
Lemma emits_bind {A B} P (m : M A) (f : A → M B) : emits P m → (∀ a, emits P (f a)) → emits P (m ≫= f).
Proof.
  intros Hm Hf. eapply runs_bind; [exact Hm|]. intros a new Hn. eapply runs_weaken; [apply Hf|].
  intros b new' Hn'. by apply Forall_app.
Qed.
Lemma emits_events {A} P (m : hostM H A) f : (∀ a, Forall P (f a)) → emits P (with_events m f).
Proof. intros HP. by apply runs_events. Qed.
Lemma emits_event {A} P (m : hostM H A) f : (∀ a, P (f a)) → emits P (with_events m (λ a, [f a])).
Proof. intros HP. apply emits_events. intros a. by rewrite Forall_singleton. Qed.
Lemma emits_unseen {A} P (m : hostM H A) : emits P (unseen m).
Proof. by apply emits_events. Qed.
Lemma emits_impl {A} (P Q : host_event → Prop) (m : M A) : (∀ e, P e → Q e) → emits P m → emits Q m.
Proof. intros Hi Hm. eapply runs_weaken; [exact Hm|]. intros a new Hn. eapply Forall_impl; [exact Hn|exact Hi]. Qed.
Lemma emits_and {A} (P Q : host_event → Prop) (m : M A) : emits P m → emits Q m → emits (λ e, P e ∧ Q e) m.
Proof.
  intros HP HQ h log. destruct (HP h log) as (a & h' & n & E & Hn). destruct (HQ h log) as (a2 & h2 & n2 & E2 & Hn2).
  rewrite E in E2. injection E2 as <- <- En. apply app_inv_head in En as <-. exists a, h', n. split; [done|]. by apply Forall_and.
Qed.

(** What holds of an answer by itself can be added. *)
Lemma runs_then_emits {A B} P (R : list host_event → Prop) (m : M A) (f : A → M B) :
  (∀ l l', R l → R l' → R (l ++ l')) → (∀ l, Forall P l → R l) →
  emits P m → (∀ a, runs (f a) (λ _, R)) → runs (m ≫= f) (λ _, R).
Proof.
  intros Happ HP Hm Hf. eapply runs_bind; [exact Hm|]. intros a new Hn. eapply runs_weaken; [apply Hf|]. intros b new' Hn'. apply Happ; [by apply HP|done].
Qed.
End logic.

(** A call with an event or without one, and the structure of a computation; what
    is left is [P] of the events, and the calls of other functions. *)
Ltac walk_host :=
  repeat match goal with
  | |- emits _ (mbind _ _) => apply emits_bind
  | |- emits _ (mret _) => apply emits_ret
  | |- emits _ (let '(_, _) := ?x in _) => destruct x
  | |- emits _ (match ?x with _ => _ end) => destruct x eqn:?
  | |- emits _ (op_run _ _) => apply emits_event; intros ?
  | |- emits _ (op_output _ _) => apply emits_event; intros ?
  | |- emits _ (op_combined _ _) => apply emits_event; intros ?
  | |- emits _ (op_write _ _) => apply emits_event; intros ?
  | |- emits _ (op_write_raw _ _ _ _) => apply emits_event; intros ?
  | |- emits _ (op_remove _ _ _) => apply emits_event; intros ?
  | |- emits _ (op_unlink _ _) => apply emits_event; intros ?
  | |- emits _ (op_remove_tree _ _) => apply emits_event; intros ?
  | |- emits _ (op_read _ _) => apply emits_event; intros ?
  | |- emits _ (op_readlink _ _) => apply emits_event; intros ?
  | |- emits _ (op_chmod _ _ _) => apply emits_event; intros ?
  | |- emits _ (op_mkdir_temp _ _) => apply emits_event; intros ?
  | |- emits _ (op_create_temp _ _) => apply emits_event; intros ?
  | |- emits _ (op_lstat _ _) => apply emits_unseen
  | |- emits _ (op_now _) => apply emits_unseen
  | |- emits _ (op_reject _ _) => apply emits_unseen
  | |- emits _ (op_look_path _ _) => apply emits_unseen
  | |- emits _ (op_is_executable _ _) => apply emits_unseen
  | |- emits _ (op_glob _ _) => apply emits_unseen
  | |- emits _ (op_elapsed _) => apply emits_unseen
  | |- emits _ (op_geteuid _) => apply emits_unseen
  | |- emits _ (op_getenv _ _) => apply emits_unseen
  | |- emits _ (op_stat _ _) => apply emits_unseen
  | |- emits _ (op_sleep _ _) => apply emits_unseen
  | |- emits _ (op_stat_exec _ _) => apply emits_unseen
  | |- emits _ (op_stat_mode _ _) => apply emits_unseen
  | |- ∀ _, _ => intros ?
  end.

(** ** Functions every job uses *)

Section shared.
Context {H : Type} (o : runtime_ops H) (P : host_event → Prop).

Lemma executable_emits name candidates : emits P (resolveExecutable (seen_instance o) name candidates).
Proof.
  assert (∀ l, emits P (first_executable (seen_instance o) l)) as Hf.
  { induction l as [|c l IH]; cbn [first_executable]; cbv zeta; [walk_host|].
    destruct (_ =s ""); [done|]. apply emits_bind; [apply emits_unseen|]. intros []; [walk_host|done]. }
  unfold resolveExecutable. cbv zeta. apply emits_bind; [destruct (_ =s ""); walk_host|].
  intros [path|]; [destruct (negb _); [walk_host|]|]; (apply emits_bind; [apply Hf|intros; walk_host]).
Qed.
End shared.
