(* ===== verification/PackageProps.v ===== *)
(** * Installing packages: what runs outside the sandbox, and what is left behind

    The allow-list of package manager commands against a grammar of them; every
    command of the installers is on it; an attempt ends after at most six commands;
    and the policy that keeps services from starting goes with the install. *)
From stdpp Require Import gmap.
From S2P Require Import Prelude GoStrings Strconv GoValue Driver Firewall FirewallAgent Shell AgentPaths AgentHost NetPolicy InstanceFiles InstanceRuntime PackageCommands AgentPackages EgressProcess HostTrace.
From Stdlib Require Import Ascii.
From stdpp Require Import options.
Open Scope Z_scope.

(** ** The grammar of [apt-get] command lines *)

Definition option_words : list string := ["-o"; "--option"].
Definition fix_words : list string := ["-f"; "--fix-broken"].
Definition yes_words : list string := ["-y"; "--assume-yes"].
Definition apt_actions : list string := ["update"; "install"; "purge"].

(** The words of a command line that are neither options nor flags. *)
Inductive apt_operands : list string → list string → Prop :=
| operands_nil : apt_operands [] []
| operands_option o v args ops :
    trim_space o ∈ option_words → isAllowedAptGetOption (trim_space v) = true →
    apt_operands args ops → apt_operands (o :: v :: args) ops
| operands_flag f args ops :
    trim_space f ∈ fix_words ++ yes_words → apt_operands args ops → apt_operands (f :: args) ops
| operands_word w args ops :
    trim_space w ≠ "" → trim_space w ∉ option_words ++ fix_words ++ yes_words →
    apt_operands args ops → apt_operands (w :: args) (trim_space w :: ops).


Definition has_fix (args : list string) : Prop := ∃ f, f ∈ args ∧ trim_space f ∈ fix_words.

(** The words make a command: an action, and packages where it takes them. *)
Definition accepted (action : string) (fix_broken : Prop) (packages : nat) (pkgs : list string) : Prop :=
  action ∈ apt_actions ∧ Forall (λ p, isSafeDebianPackageName p = true) pkgs ∧ (action = "update" → pkgs = [])
  ∧ (action ≠ "update" → (0 < packages + length pkgs)%nat ∨ (action = "install" ∧ fix_broken)).

(** The words that are left, with the action so far. *)
Definition accepts (action : string) (fix_broken : Prop) (packages : nat) (ops : list string) : Prop :=
  if action =s "" then ∃ a pkgs, ops = a :: pkgs ∧ accepted a fix_broken packages pkgs
  else accepted action fix_broken packages ops.

Lemma words_disjoint (t : string) : t ∈ option_words → t ∉ fix_words ++ yes_words ∧ t ≠ "" ∧ t ∉ fix_words.
Proof. unfold option_words, fix_words, yes_words. set_unfold. intros [-> | [-> | []]]; naive_solver. Qed.

Lemma option_not_fix v : isAllowedAptGetOption (trim_space v) = true → trim_space v ∉ fix_words.
Proof. unfold isAllowedAptGetOption. rewrite one_of_spec. unfold fix_words. set_unfold. intros H [E|[E|[]]]; rewrite E in H; set_unfold in H; naive_solver. Qed.

Lemma has_fix_cons f args : has_fix (f :: args) ↔ trim_space f ∈ fix_words ∨ has_fix args.
Proof. unfold has_fix. set_solver. Qed.

Lemma accepts_iff action P Q n ops : (P ↔ Q) → accepts action P n ops → accepts action Q n ops.
Proof. intros HPQ. unfold accepts, accepted. destruct (_ =s ""); naive_solver. Qed.

(** One step of the loop, for each kind of word. *)
Lemma operands_option_inv o v args ops :
  trim_space o ∈ option_words → apt_operands (o :: v :: args) ops →
  isAllowedAptGetOption (trim_space v) = true ∧ apt_operands args ops.
Proof.
  intros Ho Hops. pose proof (words_disjoint _ Ho) as (Hf & _ & _). inversion Hops; subst; [done|done|].
  exfalso. set_solver.
Qed.
Lemma operands_option_nil o ops : trim_space o ∈ option_words → ¬ apt_operands [o] ops.
Proof. intros Ho Hops. pose proof (words_disjoint _ Ho) as (Hf & _ & _). inversion Hops; subst; set_solver. Qed.
Lemma operands_flag_inv f args ops : trim_space f ∈ fix_words ++ yes_words → apt_operands (f :: args) ops → apt_operands args ops.
Proof.
  intros Hf Hops. inversion Hops; subst; [|done|set_solver].
  match goal with H : trim_space f ∈ option_words |- _ => by destruct (words_disjoint _ H) end.
Qed.
Lemma operands_word_inv w args ops :
  trim_space w ∉ option_words ++ fix_words ++ yes_words → apt_operands (w :: args) ops →
  ∃ ops', ops = trim_space w :: ops' ∧ apt_operands args ops'.
Proof. intros Hw Hops. inversion Hops; subst; [set_solver|set_solver|]. eauto. Qed.

Lemma forall_exist_iff {A} (P Q : A → Prop) : (∀ x, P x ↔ Q x) → (∃ x, P x) ↔ (∃ x, Q x).
Proof. naive_solver. Qed.

Lemma end_accepts action fx packages  :
  action = "" ∨ action ∈ apt_actions →
  (action =s "update") || (negb (action =s "") && ((0 <? packages)%nat || ((action =s "install") && fx))) = true
  ↔ accepts action (fx = true ∨ has_fix []) packages [].
Proof.
  unfold accepts, accepted. intros [->|Ha]; [split; [done|intros (? & ? & ? & _); done]|].
  destruct (action =s "") eqn:E0; [apply String.eqb_eq in E0; subst; set_unfold; naive_solver|].
  rewrite orb_true_iff, andb_true_iff, orb_true_iff, andb_true_iff, Nat.ltb_lt, !String.eqb_eq. cbn [length negb].
  assert (has_fix [] ↔ False) as -> by (unfold has_fix; set_solver). rewrite Nat.add_0_r. split.
  - intros [->|(_ & [Hp|[-> ->]])]; (split; [done|]); (split; [constructor|]); naive_solver.
  - intros (_ & _ & _ & H). destruct (decide (action = "update")) as [|Hn]; [by left|right]. naive_solver.
Qed.

Lemma word_step action fx packages raw args :
  (∀ action packages, action = "" ∨ action ∈ apt_actions → apt_get_args action fx packages args = true
     ↔ ∃ ops, apt_operands args ops ∧ accepts action (fx = true ∨ has_fix args) packages ops) →
  action = "" ∨ action ∈ apt_actions → trim_space raw ≠ "" → trim_space raw ∉ option_words ++ fix_words ++ yes_words →
  (if action =s "" then one_of (trim_space raw) ["update"; "install"; "purge"] && apt_get_args (trim_space raw) fx packages args
   else if (action =s "update") || negb (isSafeDebianPackageName (trim_space raw)) then false
   else apt_get_args action fx (S packages) args) = true
  ↔ ∃ ops, apt_operands (raw :: args) ops ∧ accepts action (fx = true ∨ has_fix (raw :: args)) packages ops.
Proof.
  intros IH Ha H0 Hw. assert (∀ P : list string → Prop, (∃ ops, apt_operands (raw :: args) ops ∧ P ops)
    ↔ ∃ ops, apt_operands args ops ∧ P (trim_space raw :: ops)) as ->.
  { intros P. split.
    - intros (ops & Hops & HP). apply operands_word_inv in Hops as (ops' & -> & Hops); [|done]. eauto.
    - intros (ops & Hops & HP). eexists; split; [by apply operands_word|done]. }
  assert (has_fix (raw :: args) ↔ has_fix args) as Hfix.
  { rewrite has_fix_cons. rewrite !not_elem_of_app in Hw. tauto. }
  destruct (action =s "") eqn:Ea.
  - apply String.eqb_eq in Ea as ->. rewrite andb_true_iff, one_of_spec. split.
    + intros (Hact & H). apply IH in H as (ops & Hops & H); [|by right]. exists ops. split; [done|].
      exists (trim_space raw), ops. split; [done|]. revert H. unfold accepts.
      rewrite (proj2 (String.eqb_neq _ _) H0). unfold accepted. naive_solver.
    + intros (ops & Hops & a & pkgs & [= <- <-] & H). assert (trim_space raw ∈ apt_actions) as Hact by apply H.
      split; [done|]. apply IH; [by right|]. exists ops. split; [done|]. unfold accepts.
      rewrite (proj2 (String.eqb_neq _ _) H0). revert H. unfold accepted. naive_solver.
  - destruct Ha as [->|Ha]; [done|]. destruct (action =s "update") eqn:Eu; cbn [orb].
    { apply String.eqb_eq in Eu as ->. split; [done|]. intros (ops & _ & H). unfold accepts in H. cbn in H.
      destruct H as (_ & _ & H & _). by specialize (H eq_refl). }
    destruct (isSafeDebianPackageName (trim_space raw)) eqn:Es; cbn [negb].
    + rewrite (IH action (S packages)) by by right. apply forall_exist_iff. intros ops. apply and_iff_compat_l.
      unfold accepts. rewrite Ea. unfold accepted. rewrite Forall_cons, Hfix. apply String.eqb_neq in Eu.
      cbn [length]. rewrite Nat.add_succ_r. cbn [Nat.add]. naive_solver.
    + split; [done|]. intros (ops & _ & H). unfold accepts in H. rewrite Ea in H. destruct H as (_ & H & _).
      apply Forall_cons in H as [H _]. congruence.
Qed.

(** The rest of the command line, from any point of the loop. *)
Lemma apt_get_args_spec action fx packages args :
  action = "" ∨ action ∈ apt_actions →
  apt_get_args action fx packages args = true
  ↔ ∃ ops, apt_operands args ops ∧ accepts action (fx = true ∨ has_fix args) packages ops.
Proof.
  remember (length args) as n eqn:En. revert action fx packages args En.
  induction n as [n IH] using lt_wf_ind. intros action fx packages args -> Ha. destruct args as [|raw args].
  { cbn [apt_get_args]. split.
    - intros H. exists []. split; [constructor|]. by apply end_accepts.
    - intros (ops & Hops & H). inversion Hops; subst. by apply end_accepts in H. }
  cbn [apt_get_args]. cbv zeta. destruct (trim_space raw =s "") eqn:E0.
  { apply String.eqb_eq in E0. split; [done|]. intros (ops & Hops & _). exfalso.
    inversion Hops; subst; rewrite ?E0 in *; set_unfold; naive_solver. }
  destruct (one_of (trim_space raw) ["-o"; "--option"]) eqn:E1.
  { apply one_of_spec in E1. destruct args as [|v args].
    { split; [done|]. intros (ops & Hops & _). by apply operands_option_nil in Hops. }
    rewrite andb_true_iff, (IH (length args)); [|simpl; lia|done|done]. clear IH.
    assert (isAllowedAptGetOption (trim_space v) = true → has_fix (raw :: v :: args) ↔ has_fix args) as Hfix.
    { intros Hv. rewrite !has_fix_cons. pose proof (words_disjoint _ E1) as (_ & _ & Hf).
      pose proof (option_not_fix _ Hv). tauto. }
    split.
    - intros (Hv & ops & Hops & H). exists ops. split; [by apply operands_option|].
      eapply accepts_iff; [|exact H]. by rewrite Hfix.
    - intros (ops & Hops & H). apply operands_option_inv in Hops as [Hv Hops]; [|done]. split; [done|]. exists ops. split; [done|].
      eapply accepts_iff; [|exact H]. by rewrite Hfix. }
  destruct (one_of (trim_space raw) ["-f"; "--fix-broken"]) eqn:E2.
  { apply one_of_spec in E2. assert (true = true) as Ht by done. rewrite (IH (length args)); [|simpl; lia|done|done]. clear IH. split.
    - intros (ops & Hops & H). exists ops. split; [apply operands_flag; [by apply elem_of_app; left|done]|].
      eapply accepts_iff; [|exact H]. rewrite has_fix_cons. tauto.
    - intros (ops & Hops & H). apply operands_flag_inv in Hops; [|by apply elem_of_app; left]. exists ops. split; [done|].
      eapply accepts_iff; [|exact H]. rewrite has_fix_cons. tauto. }
  destruct (one_of (trim_space raw) ["-y"; "--assume-yes"]) eqn:E3.
  { apply one_of_spec in E3. assert (trim_space raw ∉ fix_words) as Hnf by (intros Hf; apply one_of_spec in Hf; unfold fix_words in Hf; congruence).
    rewrite (IH (length args)); [|simpl; lia|done|done]. clear IH. split.
    - intros (ops & Hops & H). exists ops. split; [apply operands_flag; [by apply elem_of_app; right|done]|].
      eapply accepts_iff; [|exact H]. rewrite has_fix_cons. tauto.
    - intros (ops & Hops & H). apply operands_flag_inv in Hops; [|by apply elem_of_app; right]. exists ops. split; [done|].
      eapply accepts_iff; [|exact H]. rewrite has_fix_cons. tauto. }
  apply word_step; [intros; apply (IH (length args)); [simpl; lia|done|done]|done|by apply String.eqb_neq|].
  rewrite !not_elem_of_app. unfold option_words, fix_words, yes_words. rewrite <-!one_of_spec, E1, E2, E3. done.
Qed.

(** C26: the allow-list of [apt-get] command lines is exactly this grammar: beside
    the listed options and flags, one action, and names of packages after it unless
    the action is [update]; an install without a package only to fix broken ones. *)
Theorem apt_allowed_spec args :
  isAllowedAptGetCommand args = true
  ↔ ∃ action pkgs, apt_operands args (action :: pkgs) ∧ action ∈ apt_actions
      ∧ Forall (λ p, isSafeDebianPackageName p = true) pkgs ∧ (action = "update" → pkgs = [])
      ∧ (action ≠ "update" → pkgs ≠ [] ∨ (action = "install" ∧ has_fix args)).
Proof.
  unfold isAllowedAptGetCommand. rewrite apt_get_args_spec by by left. split.
  - intros (ops & Hops & action & pkgs & -> & Ha & Hs & Hu & Hp). exists action, pkgs. repeat (split; [done|]).
    intros Hn. destruct (Hp Hn) as [Hl|[-> [?|?]]]; [|done|by right]. left. intros ->. simpl in Hl. lia.
  - intros (action & pkgs & Hops & Ha & Hs & Hu & Hp). exists (action :: pkgs). split; [done|].
    exists action, pkgs. repeat (split; [done|]). intros Hn. destruct (Hp Hn) as [Hl|[-> Hf]]; [left|by right; split; [|right]].
    destruct pkgs; [done|simpl; lia].
Qed.

(** ** The form of a command without the sandbox is allowed as well *)

Lemma sandbox_option action fx n args :
  apt_get_args action fx n ("-o" :: sandbox_root :: args) = apt_get_args action fx n args.
Proof. reflexivity. Qed.

Lemma literal_ne (s t : string) : (s =s t) = false → s ≠ t.
Proof. apply String.eqb_neq. Qed.

(** The option may come anywhere in the command line. *)
Lemma with_sandbox_root_args action fx n args :
  apt_get_args action fx n args = true → apt_get_args action fx n (with_sandbox_root args) = true.
Proof.
  remember (length args) as k eqn:Ek. revert action fx n args Ek.
  induction k as [k IH] using lt_wf_ind. intros action fx n args -> H. destruct args as [|raw args]; [done|].
  cbn [with_sandbox_root]. destruct (raw =s "apt-get") eqn:Eraw.
  { apply String.eqb_eq in Eraw as ->. cbn [apt_get_args] in H |- *. cbv zeta in H |- *.
    change (trim_space "apt-get") with "apt-get" in *.
    change (apt_get_args ?a ?b ?c ("-o" :: sandbox_root :: args)) with (apt_get_args a b c args). exact H. }
  revert H. cbn [apt_get_args]. cbv zeta. destruct (trim_space raw =s ""); [done|].
  destruct (one_of (trim_space raw) ["-o"; "--option"]).
  { destruct args as [|v args]; [done|]. intros [Hv H]%andb_true_iff. cbn [with_sandbox_root].
    destruct (v =s "apt-get") eqn:Ev; [apply String.eqb_eq in Ev as ->; done|].
    rewrite Hv. cbn [andb]. by apply (IH (length args)); [simpl; lia| |]. }
  destruct (one_of _ ["-f"; "--fix-broken"]); [by apply (IH (length args)); [simpl; lia|]|].
  destruct (one_of _ ["-y"; "--assume-yes"]); [by apply (IH (length args)); [simpl; lia|]|].
  destruct (action =s "").
  { intros [Ha H]%andb_true_iff. rewrite Ha. cbn [andb]. by apply (IH (length args)); [simpl; lia| |]. }
  destruct (_ || _); [done|]. by apply (IH (length args)); [simpl; lia|].
Qed.

Lemma dpkg_no_apt_get args : isAllowedDpkgCommand args = true → after_apt_get args = None.
Proof.
  destruct args as [|flag [|path [|]]]; try done. cbn [isAllowedDpkgCommand after_apt_get].
  destruct (flag =s "apt-get") eqn:Ef; [apply String.eqb_eq in Ef as ->; done|].
  destruct (path =s "apt-get") eqn:Ep; [apply String.eqb_eq in Ep as ->|done].
  cbn. rewrite andb_false_r, andb_false_l, andb_false_r. done.
Qed.

(** Behind [env], for the arguments of either package manager. *)
Lemma env_fallback args manager rest r :
  env_invocation args = Some (manager, rest) → after_apt_get args = Some r →
  (if manager =s "apt-get" then isAllowedAptGetCommand rest else isAllowedDpkgCommand rest) = true →
  ∃ rest', env_invocation (with_sandbox_root args) = Some ("apt-get", rest') ∧ isAllowedAptGetCommand rest' = true.
Proof.
  induction args as [|raw args IH]; [done|]. cbn [env_invocation after_apt_get with_sandbox_root]. cbv zeta.
  destruct (raw =s "apt-get") eqn:Eraw.
  { apply String.eqb_eq in Eraw as ->. change (trim_space "apt-get") with "apt-get".
    change (env_invocation ("apt-get" :: ?l)) with (Some ("apt-get", l)).
    intros [= <- <-] _ H. exists ("-o" :: sandbox_root :: args). split; [done|]. exact H. }
  cbn [env_invocation]. cbv zeta. destruct (trim_space raw =s ""); [done|]. destruct (contains_sub "=" _).
  { destruct (isAllowedPackageManagerEnvironment _); [done|done]. }
  destruct (one_of _ _) eqn:Em; [|done]. intros [= <- <-] Hr H. apply one_of_spec in Em. set_unfold in Em.
  destruct Em as [E|[E|[]]]; rewrite E in H |- *.
  - eexists. split; [done|]. by apply with_sandbox_root_args.
  - apply dpkg_no_apt_get in H. congruence.
Qed.

Lemma fallback_allowed name args name' args' :
  isAllowedPackageManagerCommand name args = true → aptSandboxRootFallbackCommand name args = Some (name', args') →
  isAllowedPackageManagerCommand name' args' = true.
Proof.
  unfold aptSandboxRootFallbackCommand. intros Ha H. destruct (_ =s "") eqn:Ev in H; [done|]. destruct (aptCommandHasSandboxUserRoot _ _) in H; [done|].
  unfold aptInstallCommandVerb in Ev. destruct (name =s "apt-get") eqn:Ea.
  { apply String.eqb_eq in Ea as ->. injection H as <- <-. exact Ha. }
  destruct (name =s "env") eqn:Ee; [|done]. apply String.eqb_eq in Ee as ->. injection H as <- <-.
  destruct (after_apt_get args) as [r|] eqn:Er; [|done].
  unfold isAllowedPackageManagerCommand, packageManagerInvocation in Ha |- *. change (trim_space "env") with "env" in *.
  cbn -[env_invocation isAllowedAptGetCommand isAllowedDpkgCommand] in Ha |- *.
  destruct (env_invocation args) as [[manager rest]|] eqn:Ei; [|done].
  destruct (env_fallback _ _ _ _ Ei Er Ha) as (rest' & -> & H'). exact H'.
Qed.

(** ** The commands of an install *)

(** The command runs in a unit of its own, given an invocation, [systemd-run] and
    a name for the unit. *)
Definition runs_in_own_unit (name : string) (args : list string) : Prop :=
  ∀ invocation path unit,
    trim_space invocation ≠ "" → trim_space path ≠ "" → trim_space unit ≠ "" → isSafeSystemdUnitName unit = true →
    wrapPackageManagerCommand name args invocation path unit
    = (path, wrap_options ++ ["--unit"; unit] ++ wrap_properties ++ name :: args, true).

Lemma allowed_own_unit name args : isAllowedPackageManagerCommand name args = true → runs_in_own_unit name args.
Proof.
  intros Ha invocation path unit Hi Hp Hu Hs. unfold wrapPackageManagerCommand.
  by rewrite (proj2 (String.eqb_neq _ _) Hi), (proj2 (String.eqb_neq _ _) Hp), (proj2 (String.eqb_neq _ _) Hu), Ha, Hs.
Qed.

Definition manager_command (name : string) : bool := one_of name ["apt-get"; "dpkg"; "env"].

(** A command of a package manager is on the allow-list. *)
Definition manager_allowed (e : host_event) : Prop :=
  match e with
  | Did (name :: args) _ => manager_command name = true → isAllowedPackageManagerCommand name args = true
  | Did [] _ => False
  | _ => True
  end.

Lemma install_tail_allowed tail :
  isAllowedPackageManagerCommand "env" (tl (env_apt_careful ("install" :: "-y" :: tail))) = apt_get_args "install" false 0 tail.
Proof. reflexivity. Qed.

Lemma safe_not_flag p : isSafeDebianPackageName p = true → p ∉ "" :: option_words ++ fix_words ++ yes_words.
Proof.
  intros Hs Hp. unfold option_words, fix_words, yes_words in Hp. set_unfold in Hp.
  repeat destruct Hp as [-> | Hp]; try done; destruct_or?; by subst.
Qed.

Lemma install_allowed packageName :
  isSafeDebianPackageName (trim_space packageName) = true →
  isAllowedPackageManagerCommand "env" (tl (install_command packageName)) = true.
Proof.
  intros Hs. unfold install_command. rewrite install_tail_allowed. cbn [apt_get_args]. cbv zeta.
  generalize dependent (trim_space packageName). intros t Hs. pose proof (safe_not_flag _ Hs) as Hn.
  assert (∀ l, l ⊆ option_words ++ fix_words ++ yes_words → one_of t l = false) as Hf.
  { intros l Hl. apply not_true_iff_false. rewrite one_of_spec. intros Hx. apply Hn. right. by apply Hl. }
  destruct (t =s "") eqn:E0; [apply String.eqb_eq in E0; set_solver|].
  rewrite (Hf ["-o"; "--option"]), (Hf ["-f"; "--fix-broken"]), (Hf ["-y"; "--assume-yes"]), Hs; [done|set_solver..].
Qed.

(** The commands of an install that enables [units]. *)
Definition install_commands (units : list string) (name : string) (args : list string) : Prop :=
  (manager_command name = true → isAllowedPackageManagerCommand name args = true)
  ∧ (name = "systemctl" → ∃ unit, unit ∈ units ∧ args = ["enable"; "--now"; unit]).

Lemma fallback_commands units name args name' args' :
  install_commands units name args → aptSandboxRootFallbackCommand name args = Some (name', args') → install_commands units name' args'.
Proof.
  intros [Ha _] Hf. pose proof Hf as Hf'. unfold aptSandboxRootFallbackCommand, aptInstallCommandVerb in Hf'.
  assert (name' = name ∧ (name = "apt-get" ∨ name = "env")) as [-> Hn].
  { destruct (name =s "apt-get") eqn:E1; [apply String.eqb_eq in E1|destruct (name =s "env") eqn:E2; [apply String.eqb_eq in E2|done]];
      repeat case_match; simplify_eq; auto. }
  split; [|by destruct Hn as [-> | ->]]. intros Hm. eapply fallback_allowed; [by apply Ha|done].
Qed.

(** What an installer does: the rest of the host's events are of [P] if these are. *)
Record install_events (units : list string) (P : host_event → Prop) := {
  ie_asked : ∀ args, P (Asked args);
  ie_read : ∀ path r, P (ReadFile path r);
  ie_did : ∀ name args code, install_commands units name args → P (Did (name :: args) code) }.

Section install.
#[local] Set Default Proof Using "Type*".
Context (sprint : any → string) {H : Type} (ops : package_ops H) (units : list string) (P : host_event → Prop).
Context (HP : install_events units P).
Notation pk := (seen_packages ops).
Notation allowed m := (emits P m).

Ltac command := first [ done | by split; [vm_compute; done|] | by split; [done|discriminate] ].
Ltac event := first [apply (ie_asked _ _ HP) | apply (ie_read _ _ HP) | apply (ie_did _ _ HP); command].
Ltac walk := walk_host; try event.

Lemma attempts_allowed remaining attempt name args st :
  install_commands units name args → allowed (tracked_attempts pk remaining attempt name args st).
Proof.
  intros Ha. revert attempt st. induction remaining as [|remaining IH]; intros attempt st; cbn [tracked_attempts]; [walk|]. cbv zeta.
  apply emits_bind; [apply emits_event; intros ?; by apply (ie_did _ _ HP)|]. intros [code out]. destruct (code =? 0); [walk|].
  destruct (if aptFailureLooksSandboxSetuid out then aptSandboxRootFallbackCommand name args else None) as [[name' args']|] eqn:Ef.
  - assert (aptSandboxRootFallbackCommand name args = Some (name', args')) as Hf by by destruct (aptFailureLooksSandboxSetuid out).
    apply emits_bind; [apply emits_event; intros [c o]; apply (ie_did _ _ HP); by eapply fallback_commands|].
    intros [c o]. destruct (c =? 0); [walk|]. destruct (_ || _); [walk|]. apply emits_bind; [walk|]. intros [|]; [walk|apply IH].
  - destruct (_ || _); [walk|]. apply emits_bind; [walk|]. intros [|]; [walk|apply IH].
Qed.

Lemma run_tracked_allowed name args st :
  install_commands units name args → allowed (runTrackedInstallCommand pk (name :: args) st).
Proof. apply attempts_allowed. Qed.

Lemma candidate_allowed packageName st : allowed (aptPackageCandidateAvailable pk packageName st).
Proof. unfold aptPackageCandidateAvailable. cbv zeta. walk. Qed.

Lemma and_then_allowed m k : allowed m → (∀ st, allowed (k st)) → allowed (and_then (H := traced H) m k).
Proof. intros Hm Hk. unfold and_then. apply emits_bind; [done|]. intros [[] st]; [apply Hk|walk]. Qed.

Lemma run_step_allowed name args st : install_commands units name args → allowed (run_step pk (name :: args) st).
Proof. intros Ha. unfold run_step. apply emits_bind; [apply emits_event; intros ?; by apply (ie_did _ _ HP)|]. intros []. walk. Qed.

Lemma universe_allowed packageName st : allowed (tryPrepareUbuntuUniverseRepository pk packageName st).
Proof.
  unfold tryPrepareUbuntuUniverseRepository. cbv zeta. apply emits_bind; [unfold hostOSReleaseID; walk|]. intros id.
  destruct (negb _); [walk|]. apply emits_bind; [apply executable_emits|]. intros [p found].
  apply and_then_allowed; [destruct found; [walk|apply run_step_allowed; command]|]. intros st1.
  apply and_then_allowed; [apply run_step_allowed; command|]. intros st2.
  apply and_then_allowed; [apply run_step_allowed; command|]. intros st3. apply candidate_allowed.
Qed.

Lemma index_allowed code packageName st : allowed (refresh_index sprint pk code packageName st).
Proof.
  unfold refresh_index. apply emits_bind; [apply run_tracked_allowed; command|]. intros [ok st1].
  apply emits_bind; [apply candidate_allowed|]. intros [av st2]. destruct (negb ok); [walk|]. destruct (negb av); [|walk].
  apply emits_bind; [apply universe_allowed|]. intros []. walk.
Qed.

Lemma repair_allowed st : allowed (repairUbuntuPackageState pk st).
Proof.
  unfold repairUbuntuPackageState. apply emits_bind; [apply run_tracked_allowed; command|]. intros [ok st1]. cbv zeta.
  apply emits_bind; [apply run_tracked_allowed; command|]. intros [ok2 st2]. destruct (negb ok2); [walk|].
  apply emits_bind; [apply run_tracked_allowed; command|]. intros []. walk.
Qed.

Lemma package_allowed code packageName st :
  isSafeDebianPackageName (trim_space packageName) = true → allowed (install_package sprint pk code packageName st).
Proof.
  intros Hs. unfold install_package. cbv zeta.
  assert (∀ st, allowed (runTrackedInstallCommand pk (install_command packageName) st)) as Hi.
  { intros st'. apply run_tracked_allowed. split; [intros _; by apply install_allowed|done]. }
  apply emits_bind; [apply Hi|]. intros [[] st1]; [walk|]. destruct (negb _); [walk|].
  apply emits_bind; [apply repair_allowed|]. intros [reason st2]. destruct (negb _); [walk|].
  apply emits_bind; [apply Hi|]. intros []. walk.
Qed.

Lemma units_allowed code packageName us st : us ⊆ units → allowed (enable_units pk code packageName us st).
Proof.
  revert st. induction us as [|unit us IH]; intros st Hu; cbn [enable_units]; [walk|].
  apply emits_bind; [apply run_tracked_allowed; split; [done|]; intros _; exists unit; set_solver|].
  intros [[] st1]; [apply IH; set_solver|walk].
Qed.

Lemma known_units_emits fallback us : allowed (firstKnownUnit_from pk fallback us).
Proof. revert fallback. induction us as [|u us IH]; intros f; cbn [firstKnownUnit_from]; walk; auto. Qed.
Lemma known_state_emits us : allowed (firstKnownActiveState pk us).
Proof. induction us as [|u us IH]; cbn [firstKnownActiveState]; walk; auto. Qed.

(** The verifiers of packages only ask. *)
Lemma verified_units_emits label version fields us : allowed (verified_units pk label version fields us).
Proof.
  unfold verified_units, firstKnownUnit. apply emits_bind; [apply known_state_emits|]. intros a.
  apply emits_bind; [apply known_units_emits|]. intros u. walk.
Qed.
Lemma verify_package_emits code hint : allowed (verify_package pk code hint).
Proof.
  unfold verify_package, verifyOpenVPN, verifyWireGuard, verifyIPsec, verifyPPP, verifyHTTPProxy, verifyXL2TPD, verifyShadowsocks.
  repeat match goal with |- emits _ (if code =s _ then _ else _) => destruct (code =s _) end;
    walk_host; repeat first [apply executable_emits | apply verified_units_emits | apply (ie_asked _ _ HP) | progress walk_host].
Qed.

Lemma verify_install_allowed code packageName hint st :
  isSafeDebianPackageName (trim_space packageName) = true → allowed (install_and_verify sprint pk code packageName hint units st).
Proof.
  intros Hs. unfold install_and_verify. apply emits_bind; [by apply package_allowed|]. intros [st1|]; [|walk].
  apply emits_bind; [by apply units_allowed|]. intros [st2|]; [|walk]. apply emits_bind; [apply verify_package_emits|]. intros. walk.
Qed.

(** With the events of the policy file as well. *)
Lemma ubuntu_install_allowed code packageName hint :
  (∀ done, P (Saved autostart_policy_path done)) → P (Deleted autostart_policy_path false) →
  isSafeDebianPackageName (trim_space packageName) = true → allowed (installUbuntuPackageCapability sprint pk code packageName hint units).
Proof.
  intros Hsave Hdel Hs. unfold installUbuntuPackageCapability. apply emits_bind; [walk|]. intros euid. destruct (negb _); [walk|].
  apply emits_bind; [apply index_allowed|]. intros [st|]; [|walk]. destruct (negb _); [by apply verify_install_allowed|].
  apply emits_bind; [unfold preventPackageServiceAutostart; walk; apply Hsave|]. intros [[created|e] st']; [|walk].
  apply emits_bind; [by apply verify_install_allowed|]. intros result. apply emits_bind; [destruct created; walk; apply Hdel|]. intros. walk.
Qed.
End install.

Lemma manager_allowed_events units : install_events units manager_allowed.
Proof. split; [done|done|]. intros name args code [Hm _]. exact Hm. Qed.

(** Every command of a package manager that the install of a package with a
    safe name runs, on any host and on every path (updates, repairs, repeats, and
    the form without apt's own sandbox), is on the allow-list, and so runs in a
    unit of its own when the agent has an invocation and [systemd-run]. *)
Theorem installer_commands_allowed {H} sprint (ops : package_ops H) code packageName hint units (h : H) name args exit :
  isSafeDebianPackageName (trim_space packageName) = true →
  Did (name :: args) exit ∈ log_of (installUbuntuPackageCapability sprint (seen_packages ops) code packageName hint units) h →
  manager_command name = true →
  isAllowedPackageManagerCommand name args = true ∧ runs_in_own_unit name args.
Proof.
  intros Hs Hin Hm. pose proof (runs_log _ _ h (ubuntu_install_allowed sprint ops units _ (manager_allowed_events units) code packageName hint (λ _, I) I Hs)) as Hl.
  rewrite Forall_forall in Hl. specialize (Hl _ Hin Hm). split; [done|by apply allowed_own_unit].
Qed.

(** ** The policy against starting services *)

(** No event of a file. *)
Definition no_file (e : host_event) : Prop := match e with Saved _ _ | Deleted _ _ => False | _ => True end.
Lemma no_file_events units : install_events units no_file.
Proof. by split. Qed.

(** The policy that was written is deleted at the end; without one nothing is. *)
Definition policy_undone (l : list host_event) : Prop :=
  (Saved autostart_policy_path true ∈ l → last l = Some (Deleted autostart_policy_path false))
  ∧ (Saved autostart_policy_path true ∉ l → ∀ p rec, Deleted p rec ∉ l).

Lemma no_file_elem l e : Forall no_file l → (∀ p b, e ≠ Saved p b) ∧ (∀ p b, e ≠ Deleted p b) ∨ e ∉ l.
Proof. rewrite Forall_forall. intros Hl. destruct e; try (left; split; congruence); right; intros He; apply (Hl _ He). Qed.

Lemma no_file_undone l : Forall no_file l → policy_undone l.
Proof.
  intros Hl. split.
  - intros Hin. rewrite Forall_forall in Hl. by destruct (Hl _ Hin).
  - intros _ p rec Hin. rewrite Forall_forall in Hl. by destruct (Hl _ Hin).
Qed.
Lemma undone_app l l' : Forall no_file l → policy_undone l' → policy_undone (l ++ l').
Proof.
  intros Hl [H1 H2]. rewrite Forall_forall in Hl. split.
  - intros [Hin|Hin]%elem_of_app; [by destruct (Hl _ Hin)|]. rewrite last_app. by rewrite (H1 Hin).
  - intros Hn p rec [Hin|Hin]%elem_of_app; [by destruct (Hl _ Hin)|]. apply (H2 (λ H, Hn (proj2 (elem_of_app _ _ _) (or_intror H))) _ _ Hin).
Qed.


(** ** Attempts *)

(** The command, or its form without the sandbox. *)
Definition attempt_of (name : string) (args : list string) (e : host_event) : Prop :=
  ∃ code, e = Did (name :: args) code
    ∨ ∃ name' args', aptSandboxRootFallbackCommand name args = Some (name', args') ∧ e = Did (name' :: args') code.

Definition last_succeeded (l : list host_event) : Prop := ∃ args, last l = Some (Did args 0).

(** What a run of the loop with [n] attempts left gives. *)
Definition attempts_spec (name : string) (args : list string) (n : nat) (r : bool * list gomap) (l : list host_event) : Prop :=
  (1 ≤ length l ≤ 2 * n)%nat ∧ Forall (attempt_of name args) l ∧ (r.1 = true ↔ last_succeeded l)
  ∧ (aptInstallCommandVerb name args = "" → length l = 1%nat).

Lemma last_snoc_succeeded l args code : last_succeeded (l ++ [Did args code]) ↔ code = 0.
Proof. unfold last_succeeded. rewrite last_snoc. split; [by intros (? & [= _ ->])|intros ->; eauto]. Qed.

Lemma no_verb_no_fallback name args name' args' :
  aptSandboxRootFallbackCommand name args = Some (name', args') → aptInstallCommandVerb name args ≠ "".
Proof. unfold aptSandboxRootFallbackCommand. intros Hf Hv. by rewrite Hv in Hf. Qed.
Lemma no_verb_no_retry name args code out : shouldRetryAptInstallCommand name args code out = true → aptInstallCommandVerb name args ≠ "".
Proof. unfold shouldRetryAptInstallCommand. intros Hf Hv. rewrite Hv, orb_true_r in Hf. done. Qed.

(** The attempts before a repeat. *)
Lemma attempts_spec_app name args n r l l' :
  (1 ≤ length l ≤ 2)%nat → Forall (attempt_of name args) l → aptInstallCommandVerb name args ≠ "" →
  attempts_spec name args n r l' → attempts_spec name args (S n) r (l ++ l').
Proof.
  intros Hl Hf Hv (Hn & Hf' & Hr & _). unfold attempts_spec. rewrite length_app. split; [lia|]. split; [by apply Forall_app|]. split; [|done].
  rewrite Hr. unfold last_succeeded. rewrite last_app. destruct (last l') eqn:E; [done|]. apply last_None in E as ->. simpl in Hn. lia.
Qed.
Lemma attempts_spec_end name args n b st l command code :
  (length l ≤ 1)%nat → Forall (attempt_of name args) (l ++ [Did command code]) → (b = true ↔ code = 0) →
  (l ≠ [] → aptInstallCommandVerb name args ≠ "") → attempts_spec name args (S n) (b, st) (l ++ [Did command code]).
Proof.
  intros Hl Hf Hb Hv. unfold attempts_spec. rewrite length_app. cbn [length fst]. split; [lia|]. split; [done|].
  split; [by rewrite last_snoc_succeeded|]. intros Hn. destruct l; [done|]. by destruct (Hv ltac:(done)).
Qed.

Section attempts.
Context {H : Type} (ops : package_ops H) (name : string) (args : list string).
Notation loop remaining attempt st := (tracked_attempts (seen_packages ops) remaining attempt name args st).

(** A repeat, or the end of the waiting, after a failed command. *)
Lemma attempts_retry remaining attempt delay l command code st :
  (∀ attempt st, runs (loop remaining attempt st) (attempts_spec name args remaining)) →
  (length l ≤ 1)%nat → Forall (attempt_of name args) (l ++ [Did command code]) → code ≠ 0 → aptInstallCommandVerb name args ≠ "" →
  runs (e ← op_sleep (seen_packages ops) delay; match e with Some _ => mret (false, st) | None => loop remaining (S attempt) st end)
    (λ r new, attempts_spec name args (S remaining) r ((l ++ [Did command code]) ++ new)).
Proof.
  intros IH Hl Hf Hc Hv. eapply (runs_bind _ _ (λ _ new, new = [])); [by apply runs_events|]. intros [e|] ? ->.
  - apply runs_ret. rewrite app_nil_r. by apply attempts_spec_end.
  - eapply runs_weaken; [apply IH|]. intros r new Hn. cbn [app]. apply attempts_spec_app; [rewrite length_app; simpl; lia|done..].
Qed.

Lemma attempts_step remaining attempt st :
  (remaining ≠ O → ∀ attempt st, runs (loop remaining attempt st) (attempts_spec name args remaining)) →
  runs (loop (S remaining) attempt st) (attempts_spec name args (S remaining)).
Proof.
  intros IH. cbn [tracked_attempts]. cbv zeta.
  eapply (runs_bind _ _ (λ r new, new = [Did (name :: args) r.1])); [by apply runs_events|]. intros [code out] ? ->. cbn [fst].
  assert (attempt_of name args (Did (name :: args) code)) as Hd by (exists code; by left).
  assert (∀ st b, (b = true ↔ code = 0) → runs (mret (b, st) : hostM (traced H) _)
    (λ r new, attempts_spec name args (S remaining) r ([Did (name :: args) code] ++ new))) as Hend.
  { intros st' b Hb. apply runs_ret. rewrite app_nil_r. apply (attempts_spec_end _ _ _ _ _ []); simpl; [lia|by apply Forall_singleton|done|done]. }
  destruct (code =? 0) eqn:Ec; [apply Hend; lia|]. apply Z.eqb_neq in Ec.
  destruct (if aptFailureLooksSandboxSetuid out then aptSandboxRootFallbackCommand name args else None) as [[name' args']|] eqn:Ef.
  - assert (aptSandboxRootFallbackCommand name args = Some (name', args')) as Hf by by destruct (aptFailureLooksSandboxSetuid out).
    pose proof (no_verb_no_fallback _ _ _ _ Hf) as Hv.
    eapply (runs_bind _ _ (λ r new, new = [Did (name' :: args') r.1])); [by apply runs_events|]. intros [c o] ? ->. cbn [fst].
    assert (Forall (attempt_of name args) ([Did (name :: args) code] ++ [Did (name' :: args') c])) as Hfs.
    { apply Forall_cons; split; [done|]. apply Forall_singleton. exists c. right. eauto. }
    assert (∀ st b, (b = true ↔ c = 0) → runs (mret (b, st) : hostM (traced H) _)
      (λ r new, attempts_spec name args (S remaining) r ([Did (name :: args) code] ++ [Did (name' :: args') c] ++ new))) as Hend2.
    { intros st' b Hb. apply runs_ret. rewrite app_nil_r. by apply attempts_spec_end. }
    destruct (c =? 0) eqn:Ec2; [apply Hend2; lia|]. apply Z.eqb_neq in Ec2.
    destruct (_ || _) eqn:El; [by apply Hend2|]. apply orb_false_iff in El as [_ El]. apply Nat.eqb_neq in El.
    eapply runs_weaken; [by apply (attempts_retry _ _ _ [Did (name :: args) code]); [apply IH|simpl; lia|..]|].
    intros r new Hn. exact Hn.
  - destruct (_ || _) eqn:El; [by apply Hend|]. apply orb_false_iff in El as [Hr El]. apply Nat.eqb_neq in El.
    apply negb_false_iff in Hr. apply (attempts_retry _ _ _ []); [by apply IH|simpl; lia|by apply Forall_singleton|done|].
    by eapply no_verb_no_retry.
Qed.

Lemma attempts_bound remaining attempt st : runs (loop (S remaining) attempt st) (attempts_spec name args (S remaining)).
Proof. revert attempt st. induction remaining as [|remaining IH]; intros; apply attempts_step; [done|intros _; apply IH]. Qed.
End attempts.

(** C29: a tracked command ends after at most six commands, each of them the given
    one or its form without apt's own sandbox; it succeeds exactly when the last of
    them did; and a command that neither updates nor installs is run once. *)
Theorem tracked_command_bounded {H} (ops : package_ops H) name args st (h : H) :
  let m := runTrackedInstallCommand (seen_packages ops) (name :: args) st in
  (1 ≤ length (log_of m h) ≤ 6)%nat ∧ Forall (attempt_of name args) (log_of m h)
  ∧ ((answer_of m h).1 = true ↔ last_succeeded (log_of m h))
  ∧ (aptInstallCommandVerb name args = "" → length (log_of m h) = 1%nat).
Proof.
  cbv zeta. cbn [runTrackedInstallCommand]. unfold aptInstallCommandAttempts. destruct (_ =s ""); cbn [Nat.add].
  - destruct (runs_log _ _ h (attempts_bound ops name args 0 1 st)) as (Hl & Hr). split; [lia|done].
  - apply (runs_log _ _ h (attempts_bound ops name args 2 1 st)).
Qed.
