(* ===== verification/EgressSignals.v ===== *)
(** * External egress: which processes are sent a signal

    Over any host, an apply or a removal of an external egress sends a signal only
    to a process it has just seen to be an [xl2tpd] of its own or of the
    distribution's service, and kills only one it has asked to end before. *)
From stdpp Require Import gmap.
From S2P Require Import Prelude GoStrings Strconv GoValue Firewall FirewallAgent Shell AgentPaths AgentHost NetPolicy InstanceFiles InstanceRuntime EgressText EgressProfiles EgressRender PackageCommands AgentPackages EgressProcess EgressRuntime EgressAgent HostTrace PackageProps.
From Stdlib Require Import Ascii.
From stdpp Require Import options.
Open Scope Z_scope.

(** ** What has to be seen before a signal *)

Definition is_xl2tpd (executable : string) : bool := go_base (trim_suffix " (deleted)" executable) =s "xl2tpd".

(** The last look at the executable of the process. *)
Definition looked (pid : Z) (e : host_event) : Prop :=
  ∃ executable, e = ReadLink (proc_path pid "exe") (Ok executable) ∧ is_xl2tpd executable = true.

(** An argument names a managed file; or the process is in the service's group. *)
Definition owned_by (pid : Z) (e : host_event) : Prop :=
  (∃ raw, e = ReadFile (proc_path pid "cmdline") (Ok raw) ∧ existsb managed_argument (command_arguments raw) = true)
  ∨ (∃ raw, e = ReadFile (proc_path pid "cgroup") (Ok raw) ∧ in_xl2tpd_service (trim_space raw) = true).

Definition may_signal (before : list host_event) (pid : Z) (s : signal) : Prop :=
  1 < pid ∧
  match s with
  | SIGTERM => ∃ l look reason, before = l ++ [look; reason] ∧ looked pid look ∧ owned_by pid reason
  | SIGKILL => Signalled pid SIGTERM ∈ before ∧ ∃ l look, before = l ++ [look] ∧ looked pid look
  end.

Definition justified (l : list host_event) : Prop :=
  ∀ before pid s after, l = before ++ Signalled pid s :: after → may_signal before pid s.

Lemma may_signal_app l before pid s : may_signal before pid s → may_signal (l ++ before) pid s.
Proof.
  intros [Hp Hs]. split; [done|]. destruct s.
  - destruct Hs as (l' & look & reason & -> & H). exists (l ++ l'), look, reason. by rewrite (assoc_L (++)).
  - destruct Hs as (Ht & l' & look & -> & H). split; [apply elem_of_app; by right|]. exists (l ++ l'), look. by rewrite (assoc_L (++)).
Qed.

Lemma justified_app l l' : justified l → justified l' → justified (l ++ l').
Proof.
  intros Hl Hl' before pid s after E. apply app_eq_inv in E as [(k & -> & E)|(k & -> & E)].
  - destruct k as [|e k]; simplify_eq/=.
    + rewrite <-(app_nil_r before). apply may_signal_app. by apply (Hl' [] pid s after).
    + by apply (Hl before pid s k).
  - apply may_signal_app. by apply (Hl' k pid s after).
Qed.

Definition no_signal (e : host_event) : Prop := match e with Signalled _ _ => False | _ => True end.

Lemma quiet_justified l : Forall no_signal l → justified l.
Proof. intros Hl before pid s after ->. apply Forall_app in Hl as [_ Hl]. apply Forall_cons in Hl as [Hl _]. done. Qed.

Lemma signal_justified l pid s : justified l → may_signal l pid s → justified (l ++ [Signalled pid s]).
Proof.
  intros Hl Hm before pid' s' after E. destruct after as [|e after] using rev_ind.
  - by apply app_inj_tail in E as [-> [= -> ->]].
  - rewrite app_comm_cons, (assoc_L (++)) in E. apply app_inj_tail in E as [-> _]. by apply (Hl before pid' s' after).
Qed.

Section signals.
Context {H : Type} (ops : egress_ops H) (sprint : any → string).
Notation tops := (seen_egress ops).
Notation M A := (hostM (traced H) A).
Definition safe {A} (m : M A) : Prop := runs m (λ _, justified).

Lemma safe_quiet {A} (m : M A) : emits no_signal m → safe m.
Proof. intros Hm. eapply runs_weaken; [exact Hm|]. intros a new. apply quiet_justified. Qed.
Lemma safe_ret {A} (a : A) : safe (mret a).
Proof. apply safe_quiet, emits_ret. Qed.
Lemma safe_bind {A B} (m : M A) (f : A → M B) : safe m → (∀ a, safe (f a)) → safe (m ≫= f).
Proof.
  intros Hm Hf. eapply runs_bind; [exact Hm|]. intros a new Hn. eapply runs_weaken; [apply Hf|].
  intros b new'. by apply justified_app.
Qed.

(** *** One look at a process *)

Definition look_event (pid : Z) (r : result string (bool * bool * string)) (l : list host_event) : Prop :=
  ∃ x, l = [ReadLink (proc_path pid "exe") x]
    ∧ ∀ executable, r = Ok (true, true, executable) → x = Ok executable ∧ is_xl2tpd executable = true.

Lemma look_runs pid : runs (externalEgressManagedL2TPProcess tops pid) (look_event pid).
Proof.
  unfold externalEgressManagedL2TPProcess.
  eapply (runs_bind _ _ (λ x new, new = [ReadLink (proc_path pid "exe") x])); [by apply runs_events|].
  intros x ? ->. apply runs_ret. rewrite app_nil_r. exists x. split; [done|]. intros executable E.
  destruct x as [raw|[|]]; simplify_eq/=. split; [done|]. first [done | assumption].
Qed.
Lemma look_quiet pid : emits no_signal (externalEgressManagedL2TPProcess tops pid).
Proof. unfold externalEgressManagedL2TPProcess. walk_host; done. Qed.

Lemma command_line_runs pid :
  runs (externalEgressManagedL2TPCommandLine tops pid)
    (λ r l, ∃ x, l = [x] ∧ no_signal x ∧ ∀ line, r = Ok (true, line) → owned_by pid x).
Proof.
  unfold externalEgressManagedL2TPCommandLine.
  eapply (runs_bind _ _ (λ x new, new = [ReadFile (proc_path pid "cmdline") x])); [by apply runs_events|].
  intros x ? ->. apply runs_ret. rewrite app_nil_r. eexists; split; [done|]. split; [done|]. intros line E.
  destruct x as [raw|[|]]; simplify_eq/=. left. exists raw. split; [done|]. first [done | assumption].
Qed.
Lemma service_runs pid :
  runs (externalEgressL2TPSystemdServiceProcess tops pid)
    (λ r l, ∃ x, l = [x] ∧ no_signal x ∧ ∀ cgroup, r = Ok (true, cgroup) → owned_by pid x).
Proof.
  unfold externalEgressL2TPSystemdServiceProcess.
  eapply (runs_bind _ _ (λ x new, new = [ReadFile (proc_path pid "cgroup") x])); [by apply runs_events|].
  intros x ? ->. apply runs_ret. rewrite app_nil_r. eexists; split; [done|]. split; [done|]. intros line E.
  destruct x as [raw|[|]]; simplify_eq/=. right. exists raw. split; [done|]. first [done | assumption].
Qed.

(** The last event proves the ownership where it is found. *)
Lemma ownership_runs pid (res : gomap) :
  runs (verify_ownership sprint tops pid res)
    (λ r l, Forall no_signal l ∧ ∀ res', r = Ok res' → ∃ x, l = [x] ∧ owned_by pid x).
Proof.
  unfold verify_ownership. cbv zeta. destruct (_ =s "managed_arguments"); [|destruct (_ =s "xl2tpd.service")].
  1: eapply runs_bind; [apply command_line_runs|].
  2: eapply runs_bind; [apply service_runs|].
  1, 2: intros r new (x & -> & Hx & Ho); apply runs_ret; rewrite app_nil_r; (split; [by apply Forall_singleton|]);
    intros res'; destruct r as [[[] line]|e]; try done; intros _; exists x; split; [done|by eapply Ho].
  by apply runs_ret.
Qed.

Lemma wait_quiet pid attempts interval : emits no_signal (waitForManagedExternalEgressL2TPProcess tops pid attempts interval).
Proof.
  induction attempts as [|attempts IH]; cbn [waitForManagedExternalEgressL2TPProcess]; [walk_host|].
  apply emits_bind; [apply look_quiet|]. intros [[[active owned] exe]|e]; [|walk_host]. destruct (_ || _); [walk_host|].
  apply emits_bind; [walk_host|]. intros [|]; [walk_host|done].
Qed.

(** *** After the looks *)

Lemma justified_quiet_app l l' : justified l → Forall no_signal l' → justified (l ++ l').
Proof. intros Hl Hq. apply justified_app; [done|by apply quiet_justified]. Qed.

Lemma kill_runs pid res :
  1 < pid →
  runs (kill_verified tops pid res)
    (λ _ l, ∀ before, Signalled pid SIGTERM ∈ before → justified before → justified (before ++ l)).
Proof.
  intros Hp. unfold kill_verified. eapply (runs_bind _ _ (λ r l, look_event pid r l ∧ Forall no_signal l)).
  { intros h log. destruct (look_runs pid h log) as (a & h1 & n1 & E1 & H1). exists a, h1, n1. split; [done|]. split; [done|].
    destruct H1 as (x & -> & _). by apply Forall_singleton. }
  intros r new ((x & -> & Hx) & Hq). destruct r as [[[active owned] exe]|e].
  2: { apply runs_ret. intros before _ Hj. rewrite app_nil_r. by apply justified_quiet_app. }
  destruct (negb active || negb owned) eqn:Ea.
  { apply runs_ret. intros before _ Hj. rewrite app_nil_r. by apply justified_quiet_app. }
  apply orb_false_iff in Ea as [->%negb_false_iff ->%negb_false_iff]. destruct (Hx exe eq_refl) as [-> Hexe].
  eapply (runs_bind _ _ (λ _ new, new = [Signalled pid SIGKILL])); [by apply runs_events|]. intros k ? ->.
  assert (∀ before, Signalled pid SIGTERM ∈ before → justified before →
    justified ((before ++ [ReadLink (proc_path pid "exe") (Ok exe)]) ++ [Signalled pid SIGKILL])) as Hkill.
  { intros before Ht Hj. apply signal_justified; [by apply justified_quiet_app|]. split; [done|]. split; [apply elem_of_app; by left|].
    eexists before, _. split; [done|]. by exists exe. }
  assert (∀ A (m : M A), emits no_signal m → runs m (λ _ l, ∀ before, Signalled pid SIGTERM ∈ before → justified before →
    justified (before ++ [ReadLink (proc_path pid "exe") (Ok exe)] ++ [Signalled pid SIGKILL] ++ l))) as Hrest.
  { intros A m Hm. eapply runs_weaken; [exact Hm|]. intros a l Hl before Ht Hj. rewrite !(assoc_L (++)).
    apply justified_quiet_app; [by apply Hkill|done]. }
  destruct k; apply Hrest; walk_host; apply wait_quiet.
Qed.

Lemma signal_runs pid res :
  1 < pid →
  runs (signal_verified tops pid res)
    (λ _ l, ∀ before, may_signal before pid SIGTERM → justified before → justified (before ++ l)).
Proof.
  intros Hp. unfold signal_verified. eapply (runs_bind _ _ (λ _ new, new = [Signalled pid SIGTERM])); [by apply runs_events|]. intros k ? ->.
  assert (∀ A (m : M A), runs m (λ _ l, ∀ before, Signalled pid SIGTERM ∈ before → justified before → justified (before ++ l)) →
    runs m (λ _ l, ∀ before, may_signal before pid SIGTERM → justified before → justified (before ++ [Signalled pid SIGTERM] ++ l))) as Hrest.
  { intros A m Hm. eapply runs_weaken; [exact Hm|]. intros a l Hl before Hs Hj. rewrite (assoc_L (++)). apply Hl.
    - apply elem_of_app. right. by left.
    - by apply signal_justified. }
  assert (∀ A (m : M A), emits no_signal m → runs m (λ _ l, ∀ before, Signalled pid SIGTERM ∈ before → justified before → justified (before ++ l))) as Hq.
  { intros A m Hm. eapply runs_weaken; [exact Hm|]. intros a l Hl before _ Hj. by apply justified_quiet_app. }
  assert (runs (w ← waitForManagedExternalEgressL2TPProcess tops pid 30 100;
            match w with Err e => mret (put "term_sent" (ABool true) res, Some e)
            | Ok true => mret (put "terminated" (ABool true) (put "term_sent" (ABool true) res), None)
            | Ok false => kill_verified tops pid (put "term_sent" (ABool true) res) end)
    (λ _ l, ∀ before, Signalled pid SIGTERM ∈ before → justified before → justified (before ++ l))) as Hwait.
  { eapply runs_bind; [apply wait_quiet|]. intros w new Hw. eapply runs_weaken.
    - instantiate (1 := λ _ l, ∀ before, Signalled pid SIGTERM ∈ before → justified before → justified (before ++ l)).
      destruct w as [[]|]; [apply Hq; walk_host|by apply kill_runs|apply Hq; walk_host].
    - intros a l Hl before Ht Hj. rewrite (assoc_L (++)). apply Hl; [apply elem_of_app; by left|by apply justified_quiet_app]. }
  destruct k; apply Hrest; [exact Hwait|exact Hwait|apply Hq; walk_host].
Qed.

Lemma verified_safe pid res : 1 < pid → safe (terminateVerifiedExternalEgressL2TPProcess sprint tops pid res).
Proof.
  intros Hp. unfold terminateVerifiedExternalEgressL2TPProcess. eapply runs_bind; [apply look_runs|].
  intros r new (x & -> & Hx).
  assert (justified [ReadLink (proc_path pid "exe") x]) as Hj by (apply quiet_justified; by apply Forall_singleton).
  destruct r as [[[active owned] exe]|e]; [|by apply runs_ret].
  destruct active; [|by apply runs_ret]. destruct owned; [|by apply runs_ret]. cbn [negb]. destruct (Hx exe eq_refl) as [-> Hexe].
  eapply runs_bind; [apply ownership_runs|]. intros v new (Hq & Hv). destruct v as [res'|out].
  - destruct (Hv res' eq_refl) as (reason & -> & Ho). eapply runs_weaken; [by apply signal_runs|]. intros a l Hl.
    rewrite (assoc_L (++)). apply Hl; [|by apply justified_quiet_app]. split; [done|].
    eexists [], _, reason. split; [done|]. split; [by exists exe|done].
  - apply runs_ret. rewrite app_nil_r. by apply justified_quiet_app.
Qed.

(** *** The functions that end a process *)

Ltac quiet := apply safe_quiet; walk_host; try done.

Lemma process_at_safe path : safe (terminateManagedExternalEgressL2TPProcessAt sprint tops path).
Proof.
  unfold terminateManagedExternalEgressL2TPProcessAt. cbv zeta. apply safe_bind; [quiet|]. intros [raw|[|]]; [|quiet..].
  destruct (atoi _) as [pid|]; [|quiet]. destruct (pid <=? 1) eqn:Ep; [quiet|]. apply Z.leb_gt in Ep.
  apply safe_bind; [apply safe_quiet, look_quiet|]. intros [[[active owned] exe]|e]; [|quiet]. destruct (active && owned); [|by apply verified_safe].
  apply safe_bind; [unfold externalEgressManagedL2TPCommandLine; quiet|]. intros [[[] line]|e]; [by apply verified_safe|quiet..].
Qed.

Lemma process_safe p : safe (terminateManagedExternalEgressL2TPProcess sprint tops p).
Proof. apply process_at_safe. Qed.

Lemma listener_safe output port allow : safe (terminateManagedExternalEgressL2TPListener sprint tops output port allow).
Proof.
  unfold terminateManagedExternalEgressL2TPListener. cbv zeta. destruct (_ ≫= _) as [pid|]; [|quiet].
  destruct (pid <=? 1) eqn:Ep; [quiet|]. apply Z.leb_gt in Ep.
  apply safe_bind; [apply safe_quiet, look_quiet|]. intros [[[active owned] exe]|e]; [|quiet]. destruct (negb active); [quiet|]. destruct (negb owned); [quiet|].
  apply safe_bind; [unfold externalEgressManagedL2TPCommandLine; quiet|]. intros [[[] line]|e]; [by apply verified_safe| |quiet].
  destruct (negb allow); [quiet|].
  apply safe_bind; [unfold externalEgressL2TPSystemdServiceProcess; quiet|]. intros [[service cgroup]|e]; [|quiet].
  destruct (negb service); [quiet|by apply verified_safe].
Qed.
End signals.
