(* ===== verification/EgressGuard.v ===== *)
(** * External egress: the guard is in place before the tunnel starts

    Over any host: where an apply of a tunnel starts its unit, the table of the
    egress was emptied, given its unreachable default route and the policy rule
    right before, and only files were written since.  And no job sends a signal
    that [EgressSignals] does not justify. *)
From stdpp Require Import gmap.
From S2P Require Import Prelude GoStrings Strconv GoValue Firewall FirewallAgent Shell AgentPaths AgentHost NetPolicy InstanceFiles InstanceRuntime EgressText EgressProfiles EgressRender PackageCommands AgentPackages EgressProcess EgressRuntime EgressAgent HostTrace PackageProps EgressSignals.
From Stdlib Require Import Ascii.
From stdpp Require Import options.
Open Scope Z_scope.

(** The unit of the egress is started. *)
Definition not_start (p : externalEgressJobPayload) (e : host_event) : Prop :=
  ∀ code, e ≠ Did (enable_now (externalEgressUnitName p)) code.
Definition calm (p : externalEgressJobPayload) (e : host_event) : Prop := no_signal e ∧ not_start p e.

Lemma unit_not_in p (units : list string) : Forall (λ u, has_prefix "megavpn-external-egress-" u = false) units → externalEgressUnitName p ∉ units.
Proof. rewrite Forall_forall. intros Hu Hin. apply Hu in Hin. unfold externalEgressUnitName in Hin. discriminate Hin. Qed.

Lemma calm_install p units : externalEgressUnitName p ∉ units → install_events units (calm p).
Proof.
  intros Hn. split; try done. intros name args code [_ Hs]. split; [done|]. intros c [= -> -> _].
  destruct (Hs eq_refl) as (unit & Hu & [= <-]). done.
Qed.

Section calm.
Context (sprint : any → string) (order : gomap → list (string * any)).
Context (url_Parse : string → option url) (json_object : string → option gomap)
        (query_unescape : string → option string) (marshal_indent : gomap → option string).
Context (validate_certificates : string → string → string → option CertificateMaterial).
Context (purposes : list (string * string)) (err_text : egress_error → string).
Context {H : Type} (ops : egress_ops H) (p : externalEgressJobPayload).
Notation tops := (seen_egress ops).
Notation pk := (seen_packages (packages ops)).
Notation M A := (hostM (traced H) A).
Notation quiet m := (emits (calm p) m).

Ltac event := first [by split; [done|intros ?; discriminate] | by split].
Ltac walk := walk_host; try event.

(** ** Capabilities *)

Lemma verify_quiet code hint : quiet (verify_package pk code hint).
Proof. apply (verify_package_emits (packages ops) []). apply calm_install. apply not_elem_of_nil. Qed.

Lemma install_quiet code packageName hint units :
  isSafeDebianPackageName (trim_space packageName) = true → Forall (λ u, has_prefix "megavpn-external-egress-" u = false) units →
  quiet (installUbuntuPackageCapability sprint pk code packageName hint units).
Proof.
  intros Hs Hu. apply ubuntu_install_allowed; [|by intros|by split|done]. by apply calm_install, unit_not_in.
Qed.

Lemma xray_verify_quiet : quiet (verifyXrayCore pk).
Proof.
  unfold verifyXrayCore, xrayExecutablePath, findExecutable. walk_host; repeat first [apply executable_emits | event | progress walk_host].
Qed.
Lemma xray_install_quiet : quiet (installXrayCore pk).
Proof.
  unfold installXrayCore, run_xray_installer, verifyFileSHA256, run_step. cbv zeta. walk_host; try event. apply xray_verify_quiet.
Qed.

Lemma verify_or_install_quiet (verify install : M gomap) : quiet verify → quiet install → quiet (verify_or_install verify install).
Proof. intros Hv Hi. unfold verify_or_install. apply emits_bind; [done|]. intros r. destruct (is_true _); [walk|done]. Qed.

Lemma l2tp_components_quiet checks results :
  Forall (λ '(verify, code, pkg, hint), quiet verify ∧ isSafeDebianPackageName (trim_space pkg) = true) checks →
  quiet (l2tp_components sprint tops checks results).
Proof.
  intros Hc. revert results. induction checks as [|[[[verify code] pkg] hint] checks IH]; intros results; cbn [l2tp_components]; [walk|].
  apply Forall_cons in Hc as [[Hv Hs] Hc]. apply emits_bind; [apply verify_or_install_quiet; [done|by apply install_quiet]|].
  intros r. cbv zeta. destruct (is_true _); [by apply IH|walk].
Qed.

Lemma capability_quiet protocol : quiet (ensureExternalEgressRuntimeCapability sprint tops protocol).
Proof.
  unfold ensureExternalEgressRuntimeCapability. cbv zeta. destruct (_ =s "openvpn").
  { apply verify_or_install_quiet; [apply (verify_quiet "openvpn" "")|by apply install_quiet; [|by apply Forall_singleton]]. }
  destruct (_ =s "wireguard"); [apply verify_or_install_quiet; [apply (verify_quiet "wireguard" "")|by apply install_quiet]|].
  destruct (one_of _ _); [apply verify_or_install_quiet; [apply xray_verify_quiet|apply xray_install_quiet]|].
  destruct (_ =s "l2tp_ipsec"); [|walk]. unfold ensureL2TPIPsecExternalEgressCapability. apply emits_bind.
  - apply l2tp_components_quiet. repeat (apply Forall_cons; split); try done; (split; [|done]);
      [apply (verify_quiet "ipsec" "")|apply (verify_quiet "ppp" "")|apply (verify_quiet "xl2tpd" "")].
  - intros [results|failed]; [|walk]. apply emits_bind; [apply executable_emits|]. intros []. walk.
Qed.

(** ** The other parts without a signal *)

Lemma with_binary_quiet {A} P name (k : string → M (E A)) : (∀ path, emits P (k path)) → emits P (with_binary tops name k).
Proof. intros Hk. unfold with_binary. apply emits_bind; [apply executable_emits|]. intros [path []]; [apply Hk|walk_host]. Qed.
Lemma render_quiet :
  quiet (renderExternalEgressRuntime order url_Parse json_object query_unescape marshal_indent validate_certificates purposes tops p).
Proof.
  unfold renderExternalEgressRuntime, runtime_parts_of. cbv zeta. apply emits_bind; [|intros; walk].
  repeat match goal with |- emits _ (if ?b then _ else _) => destruct b end; repeat (apply with_binary_quiet; intros); walk.
Qed.
Lemma xray_config_quiet : quiet (validateExternalEgressXrayConfig tops p).
Proof.
  unfold validateExternalEgressXrayConfig. apply emits_bind; [apply executable_emits|]. intros [binary found]. cbv zeta. walk.
Qed.
Lemma guard_quiet : quiet (installExternalEgressFailClosedGuard tops p).
Proof. unfold installExternalEgressFailClosedGuard. walk. Qed.
Lemma policy_quiet : quiet (cleanupExternalEgressPolicy tops p).
Proof. unfold cleanupExternalEgressPolicy, verify_policy_removed. cbv zeta. walk. Qed.
Lemma release_quiet : quiet (releaseExternalEgressL2TPInterface tops p).
Proof.
  assert (∀ n k m, quiet (release_loop tops p k n m)) as Hr; [|apply Hr].
  induction n as [|n IH]; intros k m; cbn [release_loop]; [walk|]. apply emits_bind; [walk|]. intros [code out].
  destruct (negb _); [walk|]. apply emits_bind; [walk|]. intros r. apply emits_bind; [walk|]. intros [|]; [walk|apply IH].
Qed.
Lemma remove_stale_quiet paths removed : quiet (remove_stale tops paths removed).
Proof.
  revert removed. induction paths as [|[path rec] paths IH]; intros removed; cbn [remove_stale]; [walk|].
  apply emits_bind; [walk|]. intros [|[]]; [apply IH|apply IH|walk].
Qed.
Lemma remove_certificates_quiet paths : quiet (remove_certificates tops paths).
Proof. induction paths as [|path paths IH]; cbn [remove_certificates]; [walk|]. apply emits_bind; [walk|]. intros [|[]]; [done|done|walk]. Qed.
Lemma remove_warnings_quiet paths warnings : quiet (remove_with_warnings tops paths warnings).
Proof. revert warnings. induction paths as [|[path rec] paths IH]; intros w; cbn [remove_with_warnings]; [walk|]. apply emits_bind; [walk|]. intros r. apply IH. Qed.
Lemma includes_quiet : quiet (cleanupExternalEgressIPsecIncludesIfUnused order tops).
Proof.
  unfold cleanupExternalEgressIPsecIncludesIfUnused. apply emits_bind; [walk|]. intros [[|]|]; [|walk..].
  assert (∀ l w, quiet (remove_includes tops l w)) as Hr; [|apply Hr].
  induction l as [|[path line] l IH]; intros w; cbn [remove_includes]; [walk|].
  apply emits_bind; [unfold removeExactManagedConfigLine; cbv zeta; walk|]. intros r. apply IH.
Qed.
Lemma reload_quiet : quiet (reloadExternalEgressIPsecAfterCleanup tops).
Proof. unfold reloadExternalEgressIPsecAfterCleanup. apply emits_bind; [apply executable_emits|]. intros [ipsec found]. walk. Qed.
Lemma daemon_reload_quiet : quiet (runSystemdDaemonReload (base (instance_host (packages tops)))).
Proof. unfold runSystemdDaemonReload. walk. Qed.

(** *** Probes *)

Lemma probe_quiet payload node_id : quiet (probeExternalEgress sprint order err_text tops payload node_id).
Proof.
  unfold probeExternalEgress, probe_payload, probe_proxy, probe_tunnel, probe_ipsec. cbv zeta.
  destruct (decodeExternalEgressJob _ _ _ _ _); walk.
Qed.
Lemma probe_loop_quiet probe required attempt remaining consecutive :
  quiet probe → quiet (probe_loop tops probe required attempt remaining consecutive).
Proof.
  intros Hp. revert attempt consecutive. induction remaining as [|n IH]; intros a c; cbn [probe_loop];
    (apply emits_bind; [done|]); intros [status result]; cbv zeta; (destruct (_ && _); [walk|]); [walk|].
  apply emits_bind; [walk|]. intros [|]; [walk|apply IH].
Qed.
Lemma until_stable_quiet payload node_id protocol : quiet (probeExternalEgressUntilStable sprint order err_text tops payload node_id protocol).
Proof. unfold probeExternalEgressUntilStable. cbv zeta. destruct (_ =s _); apply probe_loop_quiet, probe_quiet. Qed.
Lemma evidence_quiet q : quiet (collectExternalEgressL2TPRuntimeEvidence order json_object tops q).
Proof.
  unfold collectExternalEgressL2TPRuntimeEvidence. apply emits_bind; [|intros []; walk].
  set (r := answer _). generalize r ""%string. assert (Forall (λ c, c.1.2 ≠ enable_now (externalEgressUnitName p)) (evidence_commands q)) as Hc.
  { unfold evidence_commands. cbv zeta. repeat (apply Forall_cons; split); try done. }
  induction Hc as [|[[key command] max] l Hne Hl IH]; intros m s; cbn [collect_evidence]; [walk|].
  apply emits_bind; [apply emits_event; intros ?; split; [done|intros ? E; by apply Hne; injection E]|]. intros []. cbv zeta. apply IH.
Qed.
End calm.

(** ** Jobs with signals *)

(** The signals are justified, and the unit is not started. *)
Definition fine (p : externalEgressJobPayload) (l : list host_event) : Prop := justified l ∧ Forall (not_start p) l.

Lemma fine_app p l l' : fine p l → fine p l' → fine p (l ++ l').
Proof. intros [H1 H2] [H3 H4]. split; [by apply justified_app|by apply Forall_app]. Qed.
Lemma calm_fine p l : Forall (calm p) l → fine p l.
Proof. intros Hl. split; [apply quiet_justified|]; (eapply Forall_impl; [exact Hl|]); by intros e []. Qed.

Section fine.
Context (sprint : any → string) (order : gomap → list (string * any)).
Context (json_object : string → option gomap) (err_text : egress_error → string).
Context {H : Type} (ops : egress_ops H) (p : externalEgressJobPayload).
Notation tops := (seen_egress ops).
Notation M A := (hostM (traced H) A).
Notation ok m := (runs m (λ _, fine p)).

Lemma fine_calm {A} (m : M A) : emits (calm p) m → ok m.
Proof. intros Hm. eapply runs_weaken; [exact Hm|]. intros a l. apply calm_fine. Qed.
Lemma fine_bind {A B} (m : M A) (f : A → M B) : ok m → (∀ a, ok (f a)) → ok (m ≫= f).
Proof.
  intros Hm Hf. eapply runs_bind; [exact Hm|]. intros a new Hn. eapply runs_weaken; [apply Hf|]. intros b new'. by apply fine_app.
Qed.
Lemma fine_both {A} (m : M A) : safe m → emits (not_start p) m → ok m.
Proof.
  intros Hs Hn h log. destruct (Hs h log) as (a & h1 & n1 & E1 & H1). destruct (Hn h log) as (a2 & h2 & n2 & E2 & H2).
  exists a, h1, n1. split; [done|]. split; [done|]. rewrite E1 in E2. injection E2 as _ _ E. by apply app_inv_head in E as ->.
Qed.

Ltac event := first [by intros ? | by intros ?; discriminate].
Ltac walk := walk_host; try event.
Ltac calmly := apply fine_calm; walk_host; try first [by split; [done|intros ?; discriminate] | by split].

(** *** The processes are not units *)

Lemma look_not_start pid : emits (not_start p) (externalEgressManagedL2TPProcess tops pid).
Proof. unfold externalEgressManagedL2TPProcess. walk. Qed.
Lemma wait_not_start pid n ms : emits (not_start p) (waitForManagedExternalEgressL2TPProcess tops pid n ms).
Proof.
  induction n as [|n IH]; cbn [waitForManagedExternalEgressL2TPProcess]; [walk|].
  apply emits_bind; [apply look_not_start|]. intros [[[a o] exe]|e]; [|walk]. destruct (_ || _); [walk|].
  apply emits_bind; [walk|]. intros [|]; [walk|done].
Qed.
Lemma verified_not_start pid res : emits (not_start p) (terminateVerifiedExternalEgressL2TPProcess sprint tops pid res).
Proof.
  assert (∀ pid s, emits (not_start p) (op_signal tops pid s)) as Hsig by (intros; apply emits_event; event).
  unfold terminateVerifiedExternalEgressL2TPProcess, verify_ownership, signal_verified, kill_verified,
    externalEgressManagedL2TPCommandLine, externalEgressL2TPSystemdServiceProcess.
  walk_host; repeat first [apply look_not_start | apply wait_not_start | apply Hsig | event | progress walk_host].
Qed.
Lemma process_fine q : ok (terminateManagedExternalEgressL2TPProcess sprint tops q).
Proof.
  apply fine_both; [apply process_safe|].
  unfold terminateManagedExternalEgressL2TPProcess, terminateManagedExternalEgressL2TPProcessAt, externalEgressManagedL2TPCommandLine.
  cbv zeta. walk_host; repeat first [apply look_not_start | apply verified_not_start | event | progress walk_host].
Qed.
Lemma listener_fine output port allow : ok (terminateManagedExternalEgressL2TPListener sprint tops output port allow).
Proof.
  apply fine_both; [apply listener_safe|].
  unfold terminateManagedExternalEgressL2TPListener, externalEgressManagedL2TPCommandLine, externalEgressL2TPSystemdServiceProcess.
  cbv zeta. walk_host; repeat first [apply look_not_start | apply verified_not_start | event | progress walk_host].
Qed.

(** *** The takeover *)

Lemma stale_fine q removed : ok (stop_stale_deployment sprint tops q removed).
Proof.
  unfold stop_stale_deployment. cbv zeta. apply fine_bind; [calmly|]. intros [code out]. destruct (_ && _); [calmly|].
  apply fine_bind; [apply process_fine|]. intros [process [e|]]; [calmly|]. apply fine_bind; [calmly|]. intros executable.
  apply fine_bind; [calmly|]. intros [e|]; [calmly|]. apply fine_bind; [apply fine_calm, remove_stale_quiet|]. intros []. calmly.
Qed.
Lemma stale_deployments_fine configs stale removed result : ok (stop_stale_deployments sprint tops p configs stale removed result).
Proof.
  revert stale removed result. induction configs as [|c configs IH]; intros stale removed result; cbn [stop_stale_deployments]; [calmly|].
  cbv zeta. destruct (_ || _); [apply IH|]. apply fine_bind; [apply stale_fine|]. intros [[r|e] process]; [apply IH|calmly].
Qed.
Lemma takeover_fine : ok (prepareExternalEgressL2TPTakeover sprint tops p).
Proof.
  unfold prepareExternalEgressL2TPTakeover. cbv zeta. apply fine_bind; [apply process_fine|]. intros [process [e|]]; [calmly|].
  apply fine_bind; [calmly|]. intros [code out]. destruct (_ && _); [calmly|]. apply fine_bind; [calmly|]. intros [configs|e]; [|calmly].
  apply fine_bind; [apply stale_deployments_fine|]. intros [[result e] stale].
  destruct e; [calmly|]. destruct stale; [calmly|]. apply fine_bind; [apply fine_calm, daemon_reload_quiet|]. intros []. calmly.
Qed.
Lemma clear_port_fine takeover : ok (clear_udp_port sprint tops takeover).
Proof.
  unfold clear_udp_port. cbv zeta. apply fine_bind; [calmly|]. intros [code out]. destruct (negb _); [calmly|]. destruct (negb _); [calmly|].
  apply fine_bind; [apply listener_fine|]. intros [listener [e|]]; [calmly|]. destruct (is_true _); calmly.
Qed.
Lemma take_over_fine : ok (take_over_l2tp sprint order json_object err_text tops p).
Proof.
  unfold take_over_l2tp. apply fine_bind; [apply takeover_fine|]. intros [takeover [e|]]; [calmly|].
  apply fine_bind; [apply fine_calm, release_quiet|]. intros [release [e|]]; cbv zeta; [calmly|].
  apply fine_bind; [apply clear_port_fine|]. intros [[out tk]|failed]; [|calmly]. destruct (externalEgressUDPPortListening _ _); [calmly|].
  destruct (l2tp_profile _ _ _); [|calmly]. destruct (_ =s _); [calmly|].
  apply fine_bind; [apply fine_calm, remove_certificates_quiet|]. intros [[]|]; calmly.
Qed.

(** *** Removal *)

Lemma teardown_listener_fine warnings : ok (teardown_listener sprint tops warnings).
Proof.
  unfold teardown_listener. apply fine_bind; [calmly|]. intros [code out]. destruct (negb _); [calmly|].
  apply fine_bind; [|intros [[[[? ?] ?] ?] ?]; calmly]. destruct (externalEgressUDPPortListening _ _); [|calmly].
  apply fine_bind; [apply listener_fine|]. intros [listener e]. cbv zeta. destruct (is_true _); calmly.
Qed.
Lemma teardown_fine warnings : ok (teardown_l2tp sprint tops p warnings).
Proof.
  unfold teardown_l2tp. apply fine_bind; [calmly|]. intros [code out]. cbv zeta. apply fine_bind; [apply process_fine|]. intros [process e].
  apply fine_bind; [apply teardown_listener_fine|]. intros [[w free] listener]. destruct (_ && free); [|calmly].
  apply fine_bind; [apply fine_calm, release_quiet|]. intros []. calmly.
Qed.
Lemma cleanup_payload_fine : ok (cleanup_payload sprint order tops p).
Proof.
  unfold cleanup_payload. cbv zeta. apply fine_bind; [calmly|]. intros [code out].
  apply fine_bind; [destruct (externalEgressUsesPolicyRouting _); [apply fine_calm, policy_quiet|calmly]|]. intros e.
  apply fine_bind; [destruct (l2tp p); [apply teardown_fine|calmly]|]. intros td.
  apply fine_bind; [apply fine_calm, remove_warnings_quiet|]. intros w.
  apply fine_bind.
  { destruct (l2tp p); [|calmly]. unfold cleanup_ipsec. apply fine_bind; [apply fine_calm, remove_warnings_quiet|]. intros w'.
    apply fine_bind; [apply fine_calm, includes_quiet|]. intros included. apply fine_bind; [apply fine_calm, reload_quiet|]. intros. calmly. }
  intros w'. apply fine_bind; [apply fine_calm, daemon_reload_quiet|]. intros []. calmly.
Qed.
End fine.

(** ** From the guard to the unit *)

(** The guard: the table emptied, its unreachable route and the rule in place. *)
Definition guard_events (p : externalEgressJobPayload) (flushed deleted : Z) : list host_event :=
  [Did (guard_flush p) flushed; Did (guard_route p) 0; Did (guard_rule "del" p) deleted; Did (guard_rule "add" p) 0].

(** What may come between the guard and the start. *)
Definition install_step (e : host_event) : Prop :=
  (∃ path done, e = Saved path done) ∨ (∃ code, e = Did ["systemctl"; "daemon-reload"] code).

(** Every start of the unit comes after the guard, and only files were written in between. *)
Definition guarded (p : externalEgressJobPayload) (l : list host_event) : Prop :=
  ∀ before code after, l = before ++ Did (enable_now (externalEgressUnitName p)) code :: after →
  ∃ earlier flushed deleted steps,
    before = earlier ++ guard_events p flushed deleted ++ steps ∧ Forall install_step steps.

(** All that is shown of an apply. *)
Definition proper (p : externalEgressJobPayload) (l : list host_event) : Prop :=
  justified l ∧ (externalEgressUsesPolicyRouting (eg_Protocol p) = true → guarded p l).

Lemma not_start_guarded p l : Forall (not_start p) l → guarded p l.
Proof. intros Hl before code after ->. apply Forall_app in Hl as [_ Hl]. apply Forall_cons in Hl as [Hl _]. by destruct (Hl code). Qed.
Lemma guarded_after p l l' : Forall (not_start p) l → guarded p l' → guarded p (l ++ l').
Proof.
  intros Hl Hl' before code after E. apply app_eq_inv in E as [(k & -> & E)|(k & -> & E)].
  - destruct k as [|e k]; simplify_eq/=.
    + destruct (Hl' [] code after eq_refl) as (earlier & fl & de & steps & E & Hs). symmetry in E. apply app_nil in E as [_ E]. done.
    + apply Forall_app in Hl as [_ Hl]. apply Forall_cons in Hl as [Hl _]. by destruct (Hl code).
  - destruct (Hl' k code after E) as (earlier & fl & de & steps & -> & Hs).
    exists (l ++ earlier), fl, de, steps. by rewrite (assoc_L (++)).
Qed.
Lemma fine_proper p l : fine p l → proper p l.
Proof. intros [Hj Hn]. split; [done|]. intros _. by apply not_start_guarded. Qed.
Lemma proper_after p l l' : fine p l → proper p l' → proper p (l ++ l').
Proof. intros [Hj Hn] [Hj' Hg]. split; [by apply justified_app|]. intros Hp. by apply guarded_after, Hg. Qed.

Section guard.
Context (sprint : any → string) (order : gomap → list (string * any)).
Context (url_Parse : string → option url) (json_object : string → option gomap)
        (query_unescape : string → option string) (marshal_indent : gomap → option string).
Context (validate_certificates : string → string → string → option CertificateMaterial).
Context (purposes : list (string * string)) (err_text : egress_error → string).
Context {H : Type} (ops : egress_ops H) (p : externalEgressJobPayload).
Notation tops := (seen_egress ops).
Notation M A := (hostM (traced H) A).
Notation agent := (base (instance_host (packages tops))).

Lemma run_runs args : runs (op_run agent args) (λ r new, new = [Did args r.1]).
Proof. by apply runs_events. Qed.

(** The guard's own commands. *)
Lemma guard_runs :
  runs (installExternalEgressFailClosedGuard tops p) (λ r l, Forall (calm p) l ∧ (r = None → ∃ fl de, l = guard_events p fl de)).
Proof.
  intros h log. destruct (guard_quiet ops p h log) as (a & h' & new & E & Hc). exists a, h', new. split; [done|]. split; [done|].
  assert (runs (installExternalEgressFailClosedGuard tops p) (λ r l, r = None → ∃ fl de, l = guard_events p fl de)) as Hr.
  { unfold installExternalEgressFailClosedGuard. eapply runs_bind; [apply run_runs|]. intros [c1 o1] ? ->.
    destruct (_ && _); [by apply runs_ret|]. eapply runs_bind; [apply run_runs|]. intros [c2 o2] ? ->.
    destruct (c2 =? 0) eqn:E2; [|by apply runs_ret]. apply Z.eqb_eq in E2 as ->.
    eapply runs_bind; [apply run_runs|]. intros [c3 o3] ? ->. eapply runs_bind; [apply run_runs|]. intros [c4 o4] ? ->.
    apply runs_ret. destruct (c4 =? 0) eqn:E4; [|done]. apply Z.eqb_eq in E4 as ->. intros _. by exists c1, c3. }
  destruct (Hr h log) as (a2 & h2 & new2 & E' & Hg). rewrite E in E'. injection E' as <- _ Hn. apply app_inv_head in Hn as <-. done.
Qed.

Lemma write_files_runs files : emits install_step (write_files tops files).
Proof.
  induction files as [|file files IH]; cbn [write_files]; [walk_host|].
  apply emits_bind; [apply emits_event; intros ?; left; eauto|]. intros [|]; [done|walk_host].
Qed.
Lemma install_steps_calm l : Forall install_step l → Forall (calm p) l.
Proof.
  intros Hl. eapply Forall_impl; [exact Hl|]. intros e [(? & ? & ->)|(? & ->)]; (split; [done|intros ?; discriminate]).
Qed.

(** The start is the first event. *)
Lemma start_runs payload node_id takeover :
  runs (start_and_probe sprint order json_object err_text tops p payload node_id takeover)
    (λ _ l, ∃ code rest, l = Did (enable_now (externalEgressUnitName p)) code :: rest ∧ Forall (calm p) rest).
Proof.
  unfold start_and_probe. cbv zeta. eapply runs_bind; [apply run_runs|]. intros [code out] ? ->. cbn [fst].
  assert (∀ (m : M (string * gomap)), emits (calm p) m → runs m (λ _ l, ∃ c rest, [Did (enable_now (externalEgressUnitName p)) code] ++ l
    = Did (enable_now (externalEgressUnitName p)) c :: rest ∧ Forall (calm p) rest)) as Hq.
  { intros m Hm. eapply runs_weaken; [exact Hm|]. intros a l Hl. by exists code, l. }
  destruct (negb _); apply Hq; [walk_host|]. apply emits_bind; [apply until_stable_quiet|]. intros [status result].
  destruct (negb _ && _); [|walk_host]. apply emits_bind; [apply evidence_quiet|]. intros. walk_host.
Qed.

Lemma start_events code rest earlier fl de steps :
  Forall (calm p) earlier → Forall install_step steps → Forall (calm p) rest →
  proper p (earlier ++ guard_events p fl de ++ steps ++ Did (enable_now (externalEgressUnitName p)) code :: rest).
Proof.
  intros He Hs Hr. split.
  - apply quiet_justified. rewrite !Forall_app, Forall_cons. apply install_steps_calm in Hs.
    repeat split; try (by eapply Forall_impl; [eassumption|intros e []]).
    by repeat constructor.
  - intros _. apply guarded_after; [by eapply Forall_impl; [exact He|intros e []]|].
    rewrite (assoc_L (++)). intros before c after E.
    assert (Forall (not_start p) (guard_events p fl de ++ steps)) as Hn.
    { apply Forall_app. split; [|by eapply Forall_impl; [apply install_steps_calm, Hs|intros e []]].
      repeat constructor; intros ?; discriminate. }
    apply app_eq_inv in E as [(k & E1 & E)|(k & E1 & E)].
    + destruct k as [|e k]; simplify_eq/=.
      * rewrite app_nil_r in E1. exists [], fl, de, steps. by rewrite <-E1.
      * exfalso. rewrite E1 in Hn. apply Forall_app in Hn as [_ Hn]. apply Forall_cons in Hn as [Hn _]. by destruct (Hn c).
    + destruct k as [|e k]; simplify_eq/=; [exists [], fl, de, steps; by rewrite app_nil_r|].
      exfalso. apply Forall_app in Hr as [_ Hr]. apply Forall_cons in Hr as [[_ Hr] _]. by destruct (Hr c).
Qed.

(** *** The rest of an apply, behind the guard *)

Section behind.
Context (fl de : Z).
Definition behind (l : list host_event) : Prop :=
  ∀ steps, Forall install_step steps → proper p (guard_events p fl de ++ steps ++ l).

Lemma guard_events_calm : Forall (calm p) (guard_events p fl de).
Proof. repeat constructor; intros ?; discriminate. Qed.
Lemma behind_calm l : Forall (calm p) l → behind l.
Proof.
  intros Hl steps Hs. apply fine_proper, calm_fine. apply Forall_app. split; [apply guard_events_calm|].
  apply Forall_app. split; [by apply install_steps_calm|done].
Qed.
Lemma behind_ret {A} (a : A) : runs (mret a : M A) (λ _, behind).
Proof. by apply runs_ret, behind_calm. Qed.
Lemma behind_step {A B} (m : M A) (f : A → M B) : emits install_step m → (∀ a, runs (f a) (λ _, behind)) → runs (m ≫= f) (λ _, behind).
Proof.
  intros Hm Hf. eapply runs_bind; [exact Hm|]. intros a new Hn. eapply runs_weaken; [apply Hf|]. intros b l Hl steps Hs.
  rewrite (assoc_L (++) steps). apply Hl. by apply Forall_app.
Qed.
Lemma reload_step : emits install_step (runSystemdDaemonReload agent).
Proof. unfold runSystemdDaemonReload. walk_host. right. eauto. Qed.

Lemma install_behind payload node_id files unit takeover :
  externalEgressUsesPolicyRouting (eg_Protocol p) = true →
  runs (e ← write_files tops files;
        match e with
        | Some (e, path) => mret (failed_stage e "write" [("path", AString path)])
        | None =>
            r ← op_write agent (managed_file (externalEgressUnitPath p) unit "0644");
            match r with
            | Err e => mret (failed_stage (error_text e) "write_unit" [])
            | Ok _ =>
                stage_or (if externalEgressUsesLoopbackProxyRuntime (eg_Protocol p) then validateExternalEgressXrayConfig tops p else mret None)
                  "validate_xray_config" []
                  (stage_or ('(_, e) ← runSystemdDaemonReload agent; mret e) "daemon_reload" []
                     (start_and_probe sprint order json_object err_text tops p payload node_id takeover))
            end
        end) (λ _, behind).
Proof.
  intros Hr. apply behind_step; [apply write_files_runs|]. intros [[e path]|]; [apply behind_ret|].
  apply behind_step; [apply emits_event; intros ?; left; eauto|]. intros [|e]; [|apply behind_ret].
  unfold externalEgressUsesPolicyRouting in Hr. apply negb_true_iff in Hr. rewrite Hr. unfold stage_or.
  apply behind_step; [walk_host|]. intros [e|]; [apply behind_ret|].
  apply behind_step; [apply emits_bind; [apply reload_step|intros []; walk_host]|]. intros [e|]; [apply behind_ret|].
  eapply runs_weaken; [apply start_runs|]. intros x l (code & rest & -> & Hrest) steps Hs.
  by apply (start_events code rest [] fl de steps).
Qed.
End behind.

Lemma install_no_signal payload node_id files unit takeover :
  emits no_signal (install_runtime sprint order json_object err_text tops p payload node_id files unit takeover).
Proof.
  assert (∀ e, calm p e → no_signal e) as Hc by by intros e [].
  unfold install_runtime, stage_or. cbv zeta. apply emits_bind.
  { destruct (externalEgressUsesPolicyRouting _); [by eapply emits_impl; [exact Hc|apply guard_quiet]|walk_host]. }
  intros [e|]; [walk_host|]. apply emits_bind.
  { eapply emits_impl; [|apply write_files_runs]. by intros e [(? & ? & ->)|(? & ->)]. }
  intros [[e path]|]; [walk_host|]. apply emits_bind; [by apply emits_event|]. intros [|]; [|walk_host]. apply emits_bind.
  { destruct (externalEgressUsesLoopbackProxyRuntime _); [by eapply emits_impl; [exact Hc|apply xray_config_quiet]|walk_host]. }
  intros [e|]; [walk_host|]. apply emits_bind.
  { apply emits_bind; [by eapply emits_impl; [exact Hc|apply daemon_reload_quiet]|]. intros []. walk_host. }
  intros [e|]; [walk_host|]. eapply runs_weaken; [apply start_runs|]. intros x l (code & rest & -> & Hrest).
  apply Forall_cons. split; [done|]. eapply Forall_impl; [exact Hrest|exact Hc].
Qed.

Lemma install_proper payload node_id files unit takeover :
  runs (install_runtime sprint order json_object err_text tops p payload node_id files unit takeover) (λ _, proper p).
Proof.
  destruct (externalEgressUsesPolicyRouting (eg_Protocol p)) eqn:Hr.
  - unfold install_runtime. cbv zeta. rewrite Hr. unfold stage_or at 1.
    eapply runs_bind; [apply guard_runs|]. intros [e|] new [Hc Hg].
    + apply runs_ret. rewrite app_nil_r. by apply fine_proper, calm_fine.
    + destruct (Hg eq_refl) as (fl & de & ->). eapply runs_weaken; [by apply (install_behind fl de)|]. intros a l Hl. by apply (Hl []).
  - eapply runs_weaken; [apply install_no_signal|]. intros a l Hl. split; [by apply quiet_justified|]. rewrite Hr. done.
Qed.

(** *** The jobs *)

Lemma proper_then {A B} (m : M A) (f : A → M B) : runs m (λ _, fine p) → (∀ a, runs (f a) (λ _, proper p)) → runs (m ≫= f) (λ _, proper p).
Proof.
  intros Hm Hf. eapply runs_bind; [exact Hm|]. intros a new Hn. eapply runs_weaken; [apply Hf|]. intros b l. by apply proper_after.
Qed.
Lemma proper_ret {A} (a : A) : runs (mret a : M A) (λ _, proper p).
Proof. by apply runs_ret, fine_proper, calm_fine. Qed.

Lemma apply_proper payload node_id :
  decodeExternalEgressJob sprint order payload node_id true = Ok p →
  runs (applyExternalEgress sprint order url_Parse json_object query_unescape marshal_indent validate_certificates purposes err_text tops
          payload node_id) (λ _, proper p).
Proof.
  intros E. unfold applyExternalEgress. rewrite E. cbv zeta.
  destruct (validateExternalEgressRuntimeConfig _ _ _ _ _ _ _ _) as [[]|e]; [|apply proper_ret].
  apply proper_then; [apply fine_calm, capability_quiet|]. intros runtime. destruct (negb _); [apply proper_ret|].
  apply proper_then; [apply fine_calm, render_quiet|]. intros [[files unit]|e]; [|apply proper_ret].
  destruct (validateExternalEgressManagedArtifacts _ _ _) as [[]|e]; [|apply proper_ret].
  apply proper_then; [apply fine_calm; apply emits_event; intros ?; split; [done|intros ?; discriminate]|]. intros [code out].
  destruct (_ && _); [apply proper_ret|]. destruct (l2tp p); [|apply install_proper].
  apply proper_then; [apply take_over_fine|]. intros [takeover|failed]; [apply install_proper|apply proper_ret].
Qed.
End guard.

(** C7: over any host, whatever the job and the answers of the host, an apply or a
    removal of an external egress sends a signal only to a process of which the
    last things it read are an [xl2tpd] executable and an argument that names a
    managed file, or the control group of the service; the signal to kill only to
    one it asked to end, when it still is an [xl2tpd]; and never to process 1. *)
Theorem egress_signals_justified {H} sprint order url_Parse json_object query_unescape marshal_indent validate_certificates purposes err_text
  (ops : egress_ops H) payload node_id (h : H) :
  justified (log_of (applyExternalEgress sprint order url_Parse json_object query_unescape marshal_indent validate_certificates
                       purposes err_text (seen_egress ops) payload node_id) h)
  ∧ justified (log_of (cleanupExternalEgress sprint order err_text (seen_egress ops) payload node_id) h).
Proof.
  split.
  - destruct (decodeExternalEgressJob sprint order payload node_id true) as [p|e] eqn:E.
    + apply (runs_log _ _ h (apply_proper sprint order url_Parse json_object query_unescape marshal_indent validate_certificates
        purposes err_text ops p payload node_id E)).
    + unfold applyExternalEgress, log_of. rewrite E. by apply quiet_justified.
  - unfold cleanupExternalEgress. destruct (decodeExternalEgressJob sprint order payload node_id false) as [p|e].
    + apply (runs_log _ _ h (cleanup_payload_fine sprint order ops p)).
    + by apply quiet_justified.
Qed.

(** C3: the tunnel cannot leak before it is up.  In an apply of an OpenVPN,
    WireGuard or L2TP egress, over any host, the unit is started only after the
    routing table of the egress was given its unreachable default route and the
    rule for its mark, both commands with success, and only files were written
    and systemd reloaded since. *)
Theorem egress_guard_before_start {H} sprint order url_Parse json_object query_unescape marshal_indent validate_certificates purposes
  err_text (ops : egress_ops H) payload node_id p (h : H) :
  decodeExternalEgressJob sprint order payload node_id true = Ok p →
  externalEgressUsesPolicyRouting (eg_Protocol p) = true →
  guarded p (log_of (applyExternalEgress sprint order url_Parse json_object query_unescape marshal_indent validate_certificates
                       purposes err_text (seen_egress ops) payload node_id) h).
Proof.
  intros E Hp. by apply (runs_log _ _ h (apply_proper sprint order url_Parse json_object query_unescape marshal_indent validate_certificates
    purposes err_text ops p payload node_id E)).
Qed.
