(* ===== verification/EgressArtifacts.v ===== *)
(** * External egress: the files of a deployment are the ones it may write

    [renderExternalEgressRuntime] chooses the files of a deployment, and
    [validateExternalEgressManagedArtifacts] lists the paths and modes it may
    have.  The two agree: whatever is rendered is accepted. *)
From stdpp Require Import gmap.
From S2P Require Import Prelude GoStrings Strconv GoValue Sha256 Firewall FirewallAgent FirewallText Shell AgentPaths AgentPathsProps AgentHost NetPolicy InstanceFiles InstanceRuntime EgressText EgressProfiles EgressRender EgressOpenVPN PackageCommands AgentPackages EgressProcess EgressRuntime.
From Stdlib Require Import Ascii.
From stdpp Require Import options.
Open Scope Z_scope.

(** ** Accepted lists of files *)

Definition accepted_file (allowed : list (string * string)) (file : managedFileSpec) : Prop :=
  (file_Path file, file_Mode file) ∈ allowed ∧ cleanAbsPath (file_Path file) = file_Path file.

Lemma assoc_get_elem l key v : NoDup l.*1 → (key, v) ∈ l → assoc_get l key = Some v.
Proof.
  unfold assoc_get. induction l as [|[k w] l IH]; cbn [List.find fmap list_fmap fst]; intros Hn Hin; [by apply elem_of_nil in Hin|].
  apply NoDup_cons in Hn as [Hk Hn]. apply elem_of_cons in Hin as [[= <- <-]|Hin]; [by rewrite String.eqb_refl|].
  destruct (String.eqb_spec k key) as [->|]; [|by apply IH]. exfalso. apply Hk. apply list_elem_of_fmap. by exists (key, v).
Qed.

Lemma check_artifacts_ok allowed seen files :
  NoDup allowed.*1 → NoDup (file_Path <$> files) → Forall (accepted_file allowed) files →
  (∀ f, f ∈ files → file_Path f ∉ seen) → check_artifacts allowed seen files = Ok tt.
Proof.
  intros Ha Hn Hf. revert seen. induction Hf as [|file files [Hin Hc] Hf IH]; intros seen Hs; cbn [check_artifacts]; [done|].
  cbv zeta. rewrite Hc. cbn [fmap list_fmap] in Hn. apply NoDup_cons in Hn as [Hx Hn].
  rewrite (assoc_get_elem (rev allowed) (file_Path file) (file_Mode file)).
  - rewrite !String.eqb_refl. cbn [guard_err]. assert (one_of (file_Path file) seen = false) as ->.
    { apply not_true_iff_false. rewrite one_of_spec. apply Hs. by left. }
    cbn. apply IH; [done|]. intros f Hfin [E|Hin']%elem_of_cons; [|by apply (Hs f); [right|]].
    apply Hx. rewrite <-E. by apply list_elem_of_fmap_2.
  - by rewrite <-(Permutation_rev allowed).
  - by rewrite <-(Permutation_rev allowed).
Qed.

(** ** The paths of a deployment *)

(** A file name in the deployment's directory. *)
Definition path_byte (a : ascii) : bool := word_byte a && negb (Ascii.eqb a "000").
Definition plain_name (name : string) : Prop := all_bytes path_byte name ∧ plain_part name.

Lemma path_word s : all_bytes path_byte s → all_bytes word_byte s.
Proof. apply all_bytes_impl. intros a. unfold path_byte. intros. by split_bools. Qed.
Lemma id_path s : all_bytes id_byte s → all_bytes path_byte s.
Proof. apply all_bytes_impl. intros [[] [] [] [] [] [] [] []]; vm_compute; congruence. Qed.

Lemma plain_name_dec name :
  forallb path_byte (bytes name) && negb (one_of name [""; "."; ".."]) && negb (contains_char "/" name) = true → plain_name name.
Proof.
  intros H. split_bools. split; [by apply all_bytes_dec|]. rewrite <-not_true_iff_false, one_of_spec in H1. unfold plain_part.
  assert ("/"%char ∉ bytes name).
  { intros Hin. assert (contains_char "/" name = true); [|congruence]. apply existsb_exists.
    exists "/"%char. split; [by apply list_elem_of_In|done]. }
  set_solver.
Qed.

Lemma literal_part name :
  forallb path_byte (bytes name) && negb (one_of name [""; "."; ".."]) && negb (contains_char "/" name) = true → plain_part name.
Proof. apply plain_name_dec. Qed.

Lemma literal_no_slash s : contains_char "/" s = false → "/"%char ∉ bytes s.
Proof.
  intros H Hin. assert (contains_char "/" s = true); [|congruence]. apply existsb_exists. exists "/"%char. split; [by apply list_elem_of_In|done].
Qed.

Lemma word_abs_clean parts :
  all_bytes path_byte (abs_path parts) → Forall plain_part parts → cleanAbsPath (abs_path parts) = abs_path parts.
Proof.
  intros Hw Hp. unfold cleanAbsPath. rewrite trim_plain_word by (split; [done|by apply path_word]). cbv zeta.
  destruct (contains_sub NUL_text (abs_path parts)) eqn:En.
  { exfalso. apply contains_NUL in En. unfold all_bytes in Hw. rewrite Forall_forall in Hw. by apply Hw in En. }
  change (abs_path parts =s "") with false. cbn [orb]. unfold clean. by rewrite path_parts_abs.
Qed.

Section deployment.
Context (p : externalEgressJobPayload).
Context (Hid : externalEgressUUIDPattern (eg_DeploymentID p) = true).
Notation dir := (externalEgressManagedDir p).
#[local] Set Default Proof Using "Type*".

Lemma id_word : all_bytes path_byte (eg_DeploymentID p).
Proof. by apply id_path, uuid_bytes. Qed.
Lemma id_part : plain_part (eg_DeploymentID p).
Proof.
  assert ("/"%char ∉ bytes (eg_DeploymentID p)) as Hs by by eapply all_bytes_not_in; [by apply uuid_bytes|].
  repeat split; try done; intros E; rewrite E in Hid; discriminate Hid.
Qed.

Lemma under_path name : under dir name = abs_path ["etc"; "megavpn"; "external-egress"; eg_DeploymentID p; name].
Proof. unfold under, externalEgressManagedDir, abs_path. cbn [join]. unfold externalEgressManagedRoot. by rewrite !sapp_assoc. Qed.

Lemma under_clean name : plain_name name → cleanAbsPath (under dir name) = under dir name.
Proof.
  intros [Hw Hp]. rewrite under_path. apply word_abs_clean.
  - rewrite <-under_path. unfold under, externalEgressManagedDir. rewrite !all_bytes_app.
    repeat split; try done; try apply id_word; by apply all_bytes_dec.
  - repeat (apply Forall_cons; split); first [apply id_part | exact Hp | by apply literal_part | done].
Qed.

(** The names of certificates have a part of the deployment's identifier. *)
Lemma compact_bytes : all_bytes id_byte (compact_id p).
Proof.
  unfold compact_id. cbv zeta. apply take_bytes_bytes. destruct (_ <? _)%nat.
  - eapply all_bytes_impl; [|apply sha256_hex_hex]. intros [[] [] [] [] [] [] [] []]; vm_compute; congruence.
  - unfold remove_dashes. apply (all_bytes_replace _ id_byte); [|apply all_bytes_nil|by intros].
    rewrite to_lower_no_upper; [by apply uuid_bytes|].
    eapply all_bytes_impl; [|by apply uuid_bytes]. intros [[] [] [] [] [] [] [] []]; vm_compute; congruence.
Qed.
Lemma compact_path : all_bytes path_byte (compact_id p).
Proof. apply id_path, compact_bytes. Qed.

Lemma certificate_clean path : path ∈ externalEgressIPsecCertificatePaths p → cleanAbsPath path = path.
Proof.
  intros Hin. unfold externalEgressIPsecCertificatePaths in Hin. cbv zeta in Hin.
  assert (∀ kind suffix, plain_name kind → all_bytes path_byte suffix → "/"%char ∉ bytes suffix → String.length suffix ≠ 0%nat →
    cleanAbsPath ("/etc/ipsec.d/" +:+ kind +:+ "/megavpn-" +:+ compact_id p +:+ suffix)
    = "/etc/ipsec.d/" +:+ kind +:+ "/megavpn-" +:+ compact_id p +:+ suffix) as Hc.
  { intros kind suffix [Hk Hkp] Hs Hn Hl.
    assert ("/etc/ipsec.d/" +:+ kind +:+ "/megavpn-" +:+ compact_id p +:+ suffix
            = abs_path ["etc"; "ipsec.d"; kind; "megavpn-" +:+ compact_id p +:+ suffix]) as E by (unfold abs_path; cbn [join]; done).
    rewrite E. apply word_abs_clean.
    - rewrite <-E, !all_bytes_app. repeat split; try done; try apply compact_path; by apply all_bytes_dec.
    - repeat (apply Forall_cons; split); first [exact Hkp | by apply literal_part | done | idtac].
      repeat split; try done. rewrite !bytes_app, !not_elem_of_app. split; [by apply literal_no_slash|]. split; [|done].
      by eapply all_bytes_not_in; [apply compact_bytes|]. }
  repeat (apply elem_of_cons in Hin as [->|Hin]); [..|by apply elem_of_nil in Hin].
  - apply (Hc "cacerts" "-ca.pem"); [by apply plain_name_dec|by apply all_bytes_dec|by apply literal_no_slash|done].
  - apply (Hc "certs" "-client.pem"); [by apply plain_name_dec|by apply all_bytes_dec|by apply literal_no_slash|done].
  - apply (Hc "private" "-client.key"); [by apply plain_name_dec|by apply all_bytes_dec|by apply literal_no_slash|done].
Qed.

Lemma dir_clean : cleanAbsPath dir = dir.
Proof.
  assert (dir = abs_path ["etc"; "megavpn"; "external-egress"; eg_DeploymentID p]) as E.
  { done. }
  rewrite E. apply word_abs_clean.
  - rewrite <-E. unfold externalEgressManagedDir. rewrite !all_bytes_app. repeat split; try apply id_word; by apply all_bytes_dec.
  - repeat (apply Forall_cons; split); first [apply id_part | by apply literal_part | done].
Qed.

Lemma unit_clean : cleanAbsPath (externalEgressUnitPath p) = externalEgressUnitPath p.
Proof.
  assert (externalEgressUnitPath p = abs_path ["etc"; "systemd"; "system"; externalEgressUnitName p]) as E by done.
  assert (all_bytes id_byte (remove_dashes (eg_DeploymentID p))) as Hr.
  { apply (all_bytes_replace _ id_byte); [by apply uuid_bytes|apply all_bytes_nil|by intros]. }
  assert (all_bytes path_byte (externalEgressUnitName p)) as Hu.
  { unfold externalEgressUnitName. rewrite !all_bytes_app. repeat split; try by apply all_bytes_dec. by apply id_path. }
  rewrite E. apply word_abs_clean.
  - unfold abs_path. cbn [join]. rewrite !all_bytes_app. repeat split; try done; by apply all_bytes_dec.
  - repeat (apply Forall_cons; split); first [by apply literal_part | done | idtac].
    repeat split; try done. unfold externalEgressUnitName. rewrite !bytes_app, !not_elem_of_app.
    split; [by apply literal_no_slash|]. split; [by eapply all_bytes_not_in; [exact Hr|]|by apply literal_no_slash].
Qed.

#[local] Instance under_inj : Inj (=) (=) (under dir).
Proof. intros a b E. unfold under in E. apply (inj (String.append _)) in E. by injection E. Qed.

(** ** What may be written, and that each path is there once *)

Lemma certificates_distinct : NoDup (externalEgressIPsecCertificatePaths p).
Proof. unfold externalEgressIPsecCertificatePaths. cbv zeta. repeat (apply NoDup_cons; split); [..|by apply NoDup_nil]; set_unfold; intuition discriminate. Qed.
Lemma certificate_not_under name : under dir name ∉ externalEgressIPsecCertificatePaths p.
Proof. unfold externalEgressIPsecCertificatePaths. cbv zeta. set_unfold. intuition discriminate. Qed.

(** A list of files as rendered: names with their modes in the directory, and certificates. *)
Definition names_of (mode : string) (names : list string) : list (string * string) := (λ name, (under dir name, mode)) <$> names.
Lemma names_paths mode names : (names_of mode names).*1 = under dir <$> names.
Proof. unfold names_of. by rewrite <-list_fmap_compose. Qed.

Lemma names_distinct names : NoDup names → NoDup (under dir <$> names).
Proof. apply NoDup_fmap_2, _. Qed.

(** The files in the directory, or also the certificates. *)
Lemma accepted_names allowed mode names files :
  names_of mode names ⊆ allowed → Forall plain_name names →
  (∀ f, f ∈ files → file_Mode f = mode ∧ ∃ name, name ∈ names ∧ file_Path f = under dir name) → Forall (accepted_file allowed) files.
Proof.
  intros Ha Hn Hf. apply Forall_forall. intros f Hin. destruct (Hf f Hin) as (<- & name & Hname & E). split.
  - rewrite E. apply Ha. unfold names_of. apply list_elem_of_fmap. by exists name.
  - rewrite E. apply under_clean. rewrite Forall_forall in Hn. by apply Hn.
Qed.
End deployment.

(** ** Each protocol *)

Section protocols.
Context (order : gomap → list (string * any)).
Context (url_Parse : string → option url) (json_object : string → option gomap)
        (query_unescape : string → option string) (marshal_indent : gomap → option string).
Context (validate_certificates : string → string → string → option CertificateMaterial).
Context (purposes : list (string * string)).
Context (p : externalEgressJobPayload).
Context (Hid : externalEgressUUIDPattern (eg_DeploymentID p) = true).
Context (Hif : externalEgressInterfacePattern (eg_InterfaceName p) = true).
Context (Hpurposes : purposes ≡ₚ managedOpenVPNPathDirectives).
Notation dir := (externalEgressManagedDir p).
#[local] Set Default Proof Using "Type*".

(** The allow-list accepts the files together with the route script. *)
Definition parts_accepted (parts : runtime_parts) : Prop :=
  ∃ allowed, allowed_artifacts p dir = Some allowed ∧ NoDup allowed.*1
    ∧ NoDup (file_Path <$> (assemble_runtime p parts).1) ∧ Forall (accepted_file allowed) (assemble_runtime p parts).1.

Lemma uploaded_distinct : NoDup ((file_Path ∘ snd) <$> uploaded p dir purposes).
Proof.
  assert (NoDup ((λ dp, secret_path dir dp.2) <$> purposes)) as Hn.
  { rewrite Hpurposes. cbv [managedOpenVPNPathDirectives fmap list_fmap]. change (NoDup (under dir <$>
      ["ca_certificate.pem"; "certificate.pem"; "private_key.pem"; "client.p12"; "tls_auth_key.pem"; "tls_crypt_key.pem"; "tls_crypt_v2_key.pem"; "static_key.pem"])).
    apply names_distinct; [exact Hid|]. by apply (bool_decide_unpack _). }
  clear Hpurposes. unfold uploaded. induction purposes as [|[d purpose] l IH]; [constructor|].
  cbn [fmap list_fmap] in Hn. apply NoDup_cons in Hn as [Hx Hn]. cbn [omap list_omap]. cbv zeta. destruct (_ =s ""); [by apply IH|].
  cbn [fmap list_fmap]. apply NoDup_cons. split; [|by apply IH]. intros Hin. apply Hx. cbn in *.
  apply list_elem_of_fmap in Hin as ([d' f] & E & Hin). apply list_elem_of_omap in Hin as ([d2 p2] & Hin & H).
  cbv zeta in H. destruct (_ =s "") in H; [done|]. injection H as -> <-. apply list_elem_of_fmap. exists (d', p2). split; [exact E|done].
Qed.

(** The files of an OpenVPN profile: the uploaded secrets, and perhaps the credentials. *)
Lemma openvpn_extra config extra :
  renderManagedOpenVPNConfig purposes p dir = Ok (config, extra) →
  ∃ auth, extra = (uploaded p dir purposes).*2 ++ auth
    ∧ (auth = [] ∨ ∃ content, auth = [managed_file (under dir "auth.txt") content "0600"]).
Proof.
  clear. unfold renderManagedOpenVPNConfig, openvpn_config. cbv zeta. intros ([lines files] & H & [= _ <-])%bind_ok_inv.
  apply bind_ok_inv in H as (preview & _ & H). apply bind_ok_inv in H as (auth & Hauth & H).
  destruct (scan_lines _ _) as [ls long]. apply bind_ok_inv in H as (out & _ & H). apply bind_ok_inv in H as (_ & _ & [= _ <-]).
  exists auth.*2. split; [by rewrite fmap_app|]. unfold openvpn_auth in Hauth. cbv zeta in Hauth. destruct (_ && _); [|injection Hauth as <-; by left].
  apply bind_ok_inv in Hauth as (_ & _ & [= <-]). right. eauto.
Qed.

Lemma uploaded_file file :
  file ∈ (uploaded p dir purposes).*2 →
  file_Mode file = "0600" ∧ ∃ name, name ∈ tl (tl openvpn_artifacts) ∧ file_Path file = under dir name.
Proof.
  clear Hid Hif. intros Hin. apply list_elem_of_fmap in Hin as ([d f] & -> & Hin). unfold uploaded in Hin.
  apply list_elem_of_omap in Hin as ([d' purpose] & Hin & H). cbv zeta in H. destruct (_ =s "") in H; [done|]. injection H as -> <-.
  split; [done|]. rewrite Hpurposes in Hin. unfold managedOpenVPNPathDirectives in Hin. cbn [snd file_Path managed_file].
  repeat (apply elem_of_cons in Hin as [[= -> ->]|Hin]); [..|by apply elem_of_nil in Hin];
    (eexists; split; [|reflexivity]); clear; set_solver.
Qed.

Lemma not_uploaded name : name ∉ tl (tl openvpn_artifacts) → under dir name ∉ file_Path <$> (uploaded p dir purposes).*2.
Proof.
  intros Hn Hin. apply list_elem_of_fmap in Hin as (f & E & Hin). destruct (uploaded_file f Hin) as (_ & name' & Hn' & E').
  rewrite E' in E. by apply (under_inj p Hid) in E as ->.
Qed.

Lemma openvpn_paths_distinct route config auth :
  file_Path <$> auth = [] ∨ file_Path <$> auth = [under dir "auth.txt"] → file_Path route = under dir "route-policy.sh" →
  file_Path config = under dir "client.ovpn" →
  NoDup (file_Path <$> route :: config :: (uploaded p dir purposes).*2 ++ auth).
Proof.
  intros Ha Hr Hc. cbn [fmap list_fmap]. rewrite Hr, Hc. fold (fmap (M := list) file_Path). rewrite fmap_app.
  assert (∀ name name', name ≠ name' → under dir name ≠ under dir name') as Hne by (intros ? ? Hn E; by apply (under_inj p Hid) in E).
  assert (∀ name, name ∉ tl (tl openvpn_artifacts) → name ≠ "auth.txt" →
    under dir name ∉ (file_Path <$> (uploaded p dir purposes).*2) ++ (file_Path <$> auth)) as Hout.
  { intros name Hn Hna. rewrite not_elem_of_app. split; [by apply not_uploaded|].
    destruct Ha as [-> | ->]; [apply not_elem_of_nil|]. rewrite list_elem_of_singleton. by apply Hne. }
  repeat (apply NoDup_cons; split).
  - rewrite not_elem_of_cons. split; [by apply Hne|]. apply Hout; [by apply (bool_decide_unpack _)|done].
  - apply Hout; [by apply (bool_decide_unpack _)|done].
  - apply NoDup_app. split; [rewrite <-list_fmap_compose; apply uploaded_distinct|]. split.
    + intros x Hx. destruct Ha as [-> | ->]; [apply not_elem_of_nil|]. rewrite list_elem_of_singleton. intros ->.
      revert Hx. apply not_uploaded. by apply (bool_decide_unpack _).
    + destruct Ha as [-> | ->]; [apply NoDup_nil_2|apply NoDup_singleton].
Qed.

Definition route_names : list (string * string) := names_of p "0700" ["route-policy.sh"].

Lemma openvpn_accepted binary parts : eg_Protocol p = "openvpn" → openvpn_parts purposes p binary = Ok parts → parts_accepted parts.
Proof.
  intros Hp H. unfold openvpn_parts in H. apply bind_ok_inv in H as ([config extra] & Hr & H). cbv zeta in H. injection H as <-.
  destruct (openvpn_extra _ _ Hr) as (auth & -> & Hauth). unfold parts_accepted.
  exists (route_names ++ names_of p "0600" openvpn_artifacts). split; [unfold allowed_artifacts; by rewrite Hp|].
  unfold assemble_runtime. rewrite Hp. cbn [externalEgressUsesPolicyRouting externalEgressUsesLoopbackProxyRuntime fst].
  change (externalEgressUsesPolicyRouting "openvpn") with true. cbv iota. cbn [app].
  assert (route_script p = under dir "route-policy.sh") as Hroute by (unfold route_script; by rewrite Hp).
  assert (∀ f, f ∈ (uploaded p dir purposes).*2 ++ auth → file_Mode f = "0600" ∧ ∃ name, name ∈ tl openvpn_artifacts ∧ file_Path f = under dir name) as Hf.
  { intros f [Hin|Hin]%elem_of_app.
    - destruct (uploaded_file f Hin) as (Hm & name & Hn & E). split; [done|]. exists name. split; [unfold openvpn_artifacts in *; cbn [tl] in *; by right|done].
    - destruct Hauth as [->|(content & ->)]; [by apply elem_of_nil in Hin|]. apply list_elem_of_singleton in Hin as ->.
      split; [done|]. exists "auth.txt". split; [by left|done]. }
  split; [|split].
  - rewrite fmap_app. unfold route_names. rewrite !(names_paths p Hid), <-fmap_app. apply names_distinct; [exact Hid|]. by apply (bool_decide_unpack _).
  - apply openvpn_paths_distinct; [destruct Hauth as [->|(content & ->)]; [by left|by right]|done|done].
  - apply Forall_cons. split.
    + split; [apply elem_of_app; left; rewrite Hroute; by left|]. cbn. rewrite Hroute. apply under_clean; [exact Hid|by apply plain_name_dec].
    + apply (accepted_names p Hid _ "0600" openvpn_artifacts).
      * intros x Hx. apply elem_of_app. by right.
      * repeat (apply Forall_cons; split); try done; by apply plain_name_dec.
      * intros f [->|Hin]%elem_of_cons; [split; [done|]; exists "client.ovpn"; split; [by left|done]|].
        destruct (Hf f Hin) as (Hm & name & Hn & E). split; [done|]. exists name. split; [by right|done].
Qed.

Lemma interface_file : plain_name (eg_InterfaceName p +:+ ".conf") ∧ eg_InterfaceName p +:+ ".conf" ≠ "route-policy.sh".
Proof.
  clear Hid Hpurposes. unfold externalEgressInterfacePattern in Hif. destruct (strip_prefix "mgev" (eg_InterfaceName p)) as [r|] eqn:E; [|done].
  apply strip_prefix_spec in E as ->. apply andb_true_iff in Hif as [_ Hb%all_bytes_dec]. split; [|done].
  assert (all_bytes id_byte r) as Hr by (eapply all_bytes_impl; [|exact Hb]; intros a Ha; unfold id_byte; by rewrite Ha).
  split.
  - rewrite !all_bytes_app. repeat split; try by apply all_bytes_dec. by apply id_path.
  - repeat split; try done. rewrite !bytes_app, !not_elem_of_app. split; [split|]; [by apply literal_no_slash| |by apply literal_no_slash].
    by eapply all_bytes_not_in; [exact Hr|].
Qed.

Lemma wireguard_accepted binary parts : eg_Protocol p = "wireguard" → wireguard_parts p binary = Ok parts → parts_accepted parts.
Proof.
  intros Hp H. unfold wireguard_parts in H. apply bind_ok_inv in H as (config & _ & [= <-]).
  destruct interface_file as [Hn Hne]. unfold parts_accepted.
  exists (route_names ++ names_of p "0600" [eg_InterfaceName p +:+ ".conf"]). split; [unfold allowed_artifacts; by rewrite Hp|].
  unfold assemble_runtime. rewrite Hp. change (externalEgressUsesPolicyRouting "wireguard") with true. cbv iota.
  assert (route_script p = under dir "route-policy.sh") as Hroute by (unfold route_script; by rewrite Hp).
  assert (NoDup (under dir <$> ["route-policy.sh"; eg_InterfaceName p +:+ ".conf"])) as Hd.
  { apply names_distinct; [exact Hid|]. apply NoDup_cons. split; [|apply NoDup_singleton]. rewrite list_elem_of_singleton. congruence. }
  split; [exact Hd|]. split; [cbn; rewrite Hroute; exact Hd|].
  apply Forall_cons. split.
  - split; [rewrite Hroute; by left|]. cbn. rewrite Hroute. apply under_clean; [exact Hid|by apply plain_name_dec].
  - apply Forall_singleton. split; [right; by left|]. by apply under_clean.
Qed.

Lemma xray_accepted binary parts :
  one_of (eg_Protocol p) ["shadowsocks"; "vless"] = true →
  xray_parts order url_Parse json_object query_unescape marshal_indent p binary = Ok parts → parts_accepted parts.
Proof.
  intros Hp H. unfold xray_parts in H. apply bind_ok_inv in H as (config & _ & [= <-]). apply one_of_spec in Hp.
  unfold parts_accepted. exists (names_of p "0600" ["config.json"]). unfold allowed_artifacts, assemble_runtime.
  set_unfold in Hp. destruct Hp as [-> | [-> | []]].
  all: split; [done|]; split; [apply NoDup_singleton|]; split; [apply NoDup_singleton|].
  all: apply Forall_singleton; split; [by left|]; apply under_clean; [exact Hid|by apply plain_name_dec].
Qed.

Lemma certificate_files material files :
  renderManagedL2TPIPsecCertificateMaterial validate_certificates p = Ok (material, files) →
  file_Path <$> files = externalEgressIPsecCertificatePaths p ∧ Forall (λ f, file_Mode f = "0600") files.
Proof.
  clear. unfold renderManagedL2TPIPsecCertificateMaterial. cbv zeta. intros (_ & _ & H)%bind_ok_inv.
  destruct (validate_certificates _ _ _); [|done]. injection H as _ <-. split; [done|]. by repeat constructor.
Qed.

Definition l2tp_names : list string := ["ipsec.conf"; "ipsec.secrets"; "xl2tpd.conf"; "ppp-options"].

Lemma l2tp_paths_distinct paths :
  paths = [] ∨ paths = externalEgressIPsecCertificatePaths p →
  NoDup ((under dir <$> "route-policy.sh" :: l2tp_names ++ ["start.sh"]) ++ paths).
Proof.
  intros Hp. apply NoDup_app. split; [apply names_distinct; [exact Hid|by apply (bool_decide_unpack _)]|].
  destruct Hp as [-> | ->]; (split; [intros x Hx|]).
  - apply not_elem_of_nil.
  - apply NoDup_nil_2.
  - apply list_elem_of_fmap in Hx as (name & -> & _). by apply certificate_not_under.
  - by apply certificates_distinct.
Qed.

Lemma l2tp_accepted ipsec xl2tpd flock parts :
  eg_Protocol p = "l2tp_ipsec" → l2tp_parts order json_object validate_certificates p ipsec xl2tpd flock = Ok parts → parts_accepted parts.
Proof.
  intros Hp H. unfold l2tp_parts in H. cbv zeta in H. apply bind_ok_inv in H as (config & _ & H).
  apply bind_ok_inv in H as (preview & _ & H). apply bind_ok_inv in H as (certs & Hc & [= <-]).
  assert ((file_Path <$> certs = [] ∨ file_Path <$> certs = externalEgressIPsecCertificatePaths p) ∧ Forall (λ f, file_Mode f = "0600") certs) as [Hpaths Hmodes].
  { destruct (_ =s "certificate"); [|injection Hc as <-; split; [by left|constructor]].
    apply bind_ok_inv in Hc as ([material files] & Hm & [= <-]). apply certificate_files in Hm as [E Hm]. split; [by right|done]. }
  assert (route_script p = under dir "route-policy.sh") as Hroute by (unfold route_script; by rewrite Hp).
  unfold parts_accepted.
  exists (route_names ++ names_of p "0600" l2tp_names ++ names_of p "0700" ["start.sh"] ++ ((λ path, (path, "0600")) <$> externalEgressIPsecCertificatePaths p)).
  split; [unfold allowed_artifacts; by rewrite Hp|]. unfold assemble_runtime. rewrite Hp.
  change (externalEgressUsesPolicyRouting "l2tp_ipsec") with true. cbv iota. split; [|split].
  - exact (l2tp_paths_distinct _ (or_intror eq_refl)).
  - cbn [fst]. rewrite !fmap_app. pose proof (l2tp_paths_distinct _ Hpaths) as Hd.
    cbn [fmap list_fmap l2tp_names app file_Path managed_file] in Hd |- *. rewrite Hroute.
    by rewrite (Permutation_app_comm certs).
  - apply Forall_cons. split.
    { split; [rewrite Hroute; by left|]. cbn. rewrite Hroute. apply under_clean; [exact Hid|by apply plain_name_dec]. }
    refine (proj2 (Forall_app _ [_; _; _; _] (certs ++ [_])) _). split; [|apply Forall_app; split].
    + apply (accepted_names p Hid _ "0600" l2tp_names).
      * intros x Hx. apply elem_of_app. right. apply elem_of_app. by left.
      * repeat (apply Forall_cons; split); try done; by apply plain_name_dec.
      * intros f Hin. repeat (apply elem_of_cons in Hin as [->|Hin]); [..|by apply elem_of_nil in Hin];
          (split; [done|]; eexists; split; [|reflexivity]); unfold l2tp_names; clear; set_solver.
    + apply Forall_forall. intros f Hin. rewrite Forall_forall in Hmodes. specialize (Hmodes f Hin).
      assert (file_Path f ∈ externalEgressIPsecCertificatePaths p) as Hpath.
      { destruct Hpaths as [E|E]; [|rewrite <-E; by apply list_elem_of_fmap_2]. destruct certs; [by apply elem_of_nil in Hin|done]. }
      split; [|by apply (certificate_clean p Hid)]. rewrite Hmodes. rewrite !elem_of_app. do 3 right.
      apply list_elem_of_fmap. by exists (file_Path f).
    + apply (accepted_names p Hid _ "0700" ["start.sh"]).
      * intros x Hx. rewrite !elem_of_app. right. right. by left.
      * apply Forall_singleton. by apply plain_name_dec.
      * intros f Hin. apply list_elem_of_singleton in Hin as ->. split; [done|]. exists "start.sh". split; [by left|done].
Qed.

(** ** The theorem *)

Lemma parts_returns {H} (ops : egress_ops H) h parts :
  (runtime_parts_of order url_Parse json_object query_unescape marshal_indent validate_certificates purposes ops p h).1 = Ok parts →
  parts_accepted parts.
Proof.
  assert (∀ A name (k : string → hostM H (E A)) h a, (with_binary ops name k h).1 = Ok a → ∃ path h', (k path h').1 = Ok a) as Hb.
  { intros A name k h0 a. unfold with_binary, mbind, hostM_bind. destruct (resolveExecutable _ _ _ h0) as [[path []] h1]; [eauto|done]. }
  unfold runtime_parts_of. cbv zeta. destruct (String.eqb_spec (eg_Protocol p) "openvpn") as [E1|_].
  { intros (path & h' & Hk)%Hb. eapply openvpn_accepted; [exact E1|exact Hk]. }
  destruct (String.eqb_spec (eg_Protocol p) "wireguard") as [E1|_].
  { intros (path & h' & Hk)%Hb. eapply wireguard_accepted; [exact E1|exact Hk]. }
  destruct (one_of _ _) eqn:E1; [intros (path & h' & Hk)%Hb; eapply xray_accepted; [exact E1|exact Hk]|].
  destruct (String.eqb_spec (eg_Protocol p) "l2tp_ipsec") as [E2|_]; [|done].
  intros (ip & h1 & (xl & h2 & (fl & h3 & Hk)%Hb)%Hb)%Hb. eapply l2tp_accepted; [exact E2|exact Hk].
Qed.
End protocols.

(** C28: the two halves of the code that know the files of a deployment agree: for
    every job that decodes, whatever the host, the profile and the order of the
    OpenVPN directives, the files that are rendered have paths and modes on the
    allow-list of the protocol, each path once, so that an apply never stops at
    the check of its artifacts. *)
Theorem rendered_artifacts_accepted {H} sprint order url_Parse json_object query_unescape marshal_indent validate_certificates purposes
  (ops : egress_ops H) payload node_id need p files unit (h : H) :
  decodeExternalEgressJob sprint order payload node_id need = Ok p → purposes ≡ₚ managedOpenVPNPathDirectives →
  (renderExternalEgressRuntime order url_Parse json_object query_unescape marshal_indent validate_certificates purposes ops p h).1 = Ok (files, unit) →
  validateExternalEgressManagedArtifacts p files (externalEgressUnitPath p) = Ok tt.
Proof.
  intros (Hid & Hif & _)%decoded_job Hperm Hr. unfold renderExternalEgressRuntime, mbind, hostM_bind in Hr.
  destruct (runtime_parts_of _ _ _ _ _ _ _ _ _ h) as [r h1] eqn:E. cbn in Hr.
  destruct r as [parts|e]; [|done]. injection Hr as Hr.
  destruct (parts_returns order url_Parse json_object query_unescape marshal_indent validate_certificates purposes p Hid Hif Hperm ops h parts)
    as (allowed & Ha & Hn & Hd & Hf); [by rewrite E|]. rewrite Hr in Hd, Hf. cbn [fst] in Hd, Hf.
  unfold validateExternalEgressManagedArtifacts. cbv zeta. rewrite (dir_clean p Hid), (unit_clean p Hid), !String.eqb_refl, Ha.
  change (externalEgressManagedDir p =s "") with false. cbn.
  apply check_artifacts_ok; [done..|]. intros f _. apply not_elem_of_nil.
Qed.
