(* ===== verification/EgressSamples.v ===== *)
(** * External egress and packages: sample jobs

    Concrete jobs over a concrete host: that the theorems apply, that a tunnel is
    started and a signal is sent; and the profiles and hosts that show where two
    parts of the code read the same text differently. *)
From stdpp Require Import gmap.
From S2P Require Import Prelude GoStrings Strconv GoValue Netip Firewall FirewallAgent Shell AgentPaths AgentHost NetPolicy InstanceFiles InstanceRuntime EgressText EgressProfiles EgressRender EgressWireGuard EgressOpenVPN PackageCommands AgentPackages EgressProcess EgressRuntime EgressAgent HostTrace PackageProps EgressSignals EgressGuard EgressArtifacts.
From Stdlib Require Import Ascii.
From stdpp Require Import options.
Open Scope Z_scope.

Module EgressSample.
(** ** A host without memory

    Commands answer by their arguments; a file that is not listed does not exist. *)
Section host.
Context (answers : list string → Z * string) (files links : string → option string).

Definition look (f : string → option string) (p : string) : io string := match f p with Some c => Ok c | None => Err (NotExist p) end.
Definition agent : agent_ops () :=
  {| op_run := λ args h, (answers args, h); op_output := λ args h, ((answers args).2, h); op_write := λ _ h, (Ok (), h);
     op_remove := λ _ _ h, (Ok true, h); op_lstat := λ p h, (Err (NotExist p), h); op_read := λ p h, (look files p, h);
     op_now := λ h, ("", h) |}.
Definition instance_ops : runtime_ops () :=
  {| base := agent; op_reject := λ _ h, (Ok (), h); op_unlink := λ _ h, (Ok (), h);
     op_look_path := λ n h, (Some ("/usr/bin/" +:+ n), h); op_is_executable := λ _ h, (true, h);
     op_glob := λ _ h, (Ok [], h); op_elapsed := λ h, (7, h) |}.
Definition package_host : package_ops () :=
  {| instance_host := instance_ops; op_combined := λ args h, ((answers args).2, h); op_geteuid := λ h, (0, h);
     op_getenv := λ _ h, ("", h); op_stat := λ p h, (Err (NotExist p), h); op_write_raw := λ _ _ _ h, (Ok (), h);
     op_chmod := λ _ _ h, (Ok (), h); op_mkdir_temp := λ p h, (Ok ("/tmp/" +:+ p), h); op_create_temp := λ p h, (Ok ("/tmp/" +:+ p), h);
     op_remove_tree := λ _ h, ((), h); op_sleep := λ _ h, (None, h) |}.
Definition host : egress_ops () :=
  {| packages := package_host; op_readlink := λ p h, (look links p, h); op_signal := λ _ _ h, (Sent, h);
     op_stat_exec := λ _ h, (true, h); op_stat_mode := λ _ h, (Ok 384, h) |}.
End host.

Definition nothing (_ : string) : option string := None.
Definition succeeds (_ : list string) : Z * string := (0, "version 1").

(** ** Jobs *)

Definition id : string := "0f8fad5b-d9cb-469f-a165-70867728950e".
Definition base_job (protocol : string) : list (string * any) :=
  [("node_id", AString "n1"); ("profile_id", AString id); ("deployment_id", AString id); ("protocol", AString protocol);
   ("interface_name", AString "mgev0123456789"); ("routing_table", AInt 40001); ("fwmark", AInt 1297678337)].
Definition job (protocol config : string) (secrets : list (string * any)) : gomap :=
  list_to_map (("secrets", AMap (list_to_map (("config", AString config) :: secrets))) :: base_job protocol).
Definition sprint (_ : any) : string := "".
Definition order (m : gomap) : list (string * any) := map_to_list m.

Definition wireguard_lines_text : list string :=
  ["[Interface]"; "PrivateKey = aaaa"; "Address = 10.9.0.2/32"; "DNS = 10.9.0.1"; "";
   "[Peer]"; "PublicKey = bbbb"; "AllowedIPs = 0.0.0.0/0"; "Endpoint = vpn.example.com:51820"].
Definition wireguard_job : gomap := job "wireguard" (lines_text wireguard_lines_text) [].
Definition openvpn_lines_text : list string :=
  ["client"; "dev tun"; "proto udp"; "remote vpn.example.com 1194"; "route 10.0.0.0 255.0.0.0"; "<ca>"; "CERT"; "</ca>";
   "auth-user-pass"; "verb 3"].
Definition openvpn_job : gomap := job "openvpn" (lines_text openvpn_lines_text) [("username", AString "u"); ("password", AString "p")].

Definition empty_payload : externalEgressJobPayload :=
  {| eg_NodeID := ""; eg_ProfileID := ""; eg_DeploymentID := ""; eg_Protocol := ""; eg_InterfaceName := ""; eg_RoutingTable := 0;
     eg_RouteMetric := 0; eg_FWMark := 0; eg_ProxyPort := 0; eg_Secrets := ∅ |}.
Definition decoded (payload : gomap) : externalEgressJobPayload :=
  match decodeExternalEgressJob sprint order payload "n1" true with Ok p => p | Err _ => empty_payload end.

(** The parameters: no test here calls them but the certificate check. *)
Definition no_url (_ : string) : option url := None.
Definition no_json (_ : string) : option gomap := None.
Definition no_text (_ : string) : option string := None.
Definition no_marshal (_ : gomap) : option string := None.
Definition no_certificates (_ _ _ : string) : option CertificateMaterial := None.
Definition no_error (_ : egress_error) : string := "error".

Definition apply (ops : egress_ops ()) (payload : gomap) : list host_event :=
  log_of (applyExternalEgress sprint order no_url no_json no_text no_marshal no_certificates managedOpenVPNPathDirectives
            no_error (seen_egress ops) payload "n1") ().
Definition cleanup (ops : egress_ops ()) (payload : gomap) : list host_event :=
  log_of (cleanupExternalEgress sprint order no_error (seen_egress ops) payload "n1") ().
End EgressSample.
Import EgressSample.

Lemma order_ok : managedOpenVPNPathDirectives ≡ₚ managedOpenVPNPathDirectives.
Proof. done. Qed.

(** ** The theorems apply *)



(** An apply that starts its unit, with the guard before. *)
Lemma egress_guard_before_start_witness :
  Did (enable_now (externalEgressUnitName (decoded wireguard_job))) 0 ∈ apply (host succeeds nothing nothing) wireguard_job
  ∧ guarded (decoded wireguard_job) (apply (host succeeds nothing nothing) wireguard_job).
Proof.
  split; [by apply (bool_decide_unpack _); vm_compute|].
  unfold apply. apply egress_guard_before_start; vm_compute; reflexivity.
Defined.

Lemma rendered_artifacts_accepted_witness :
  ∃ files unit,
    (renderExternalEgressRuntime order no_url no_json no_text no_marshal no_certificates managedOpenVPNPathDirectives
       (host succeeds nothing nothing) (decoded openvpn_job) ()).1 = Ok (files, unit)
    ∧ length files = 3%nat
    ∧ validateExternalEgressManagedArtifacts (decoded openvpn_job) files (externalEgressUnitPath (decoded openvpn_job)) = Ok tt.
Proof.
  eexists _, _. split; [vm_compute; reflexivity|]. split; [reflexivity|].
  eapply (rendered_artifacts_accepted sprint order no_url no_json no_text no_marshal no_certificates managedOpenVPNPathDirectives
    (host succeeds nothing nothing) openvpn_job "n1" true (decoded openvpn_job) _ _ ());
    [vm_compute; reflexivity|apply order_ok|vm_compute; reflexivity].
Defined.

(** An install of a package with its commands, and one that keeps the service from starting. *)
Definition install_log : list host_event :=
  log_of (installUbuntuPackageCapability sprint (seen_packages (package_host succeeds nothing)) "openvpn" "openvpn" "openvpn" ["openvpn"]) ().

Lemma installer_commands_allowed_witness :
  Did (install_command "openvpn") 0 ∈ install_log ∧ runs_in_own_unit "env" (tl (install_command "openvpn")).
Proof.
  split; [by apply (bool_decide_unpack _); vm_compute|].
  apply (installer_commands_allowed sprint (package_host succeeds nothing) "openvpn" "openvpn" "openvpn" ["openvpn"] () "env" _ 0);
    [vm_compute; reflexivity|by apply (bool_decide_unpack _); vm_compute|reflexivity].
Defined.


(** ** A removal that ends a process *)

Definition pid_files (p : string) : option string :=
  if p =s "/run/megavpn/external-egress/0f8fad5bd9cb469fa16570867728950e/xl2tpd.pid" then Some "4321"
  else if p =s "/proc/4321/cmdline"
  then Some ("xl2tpd" +:+ String "000" ("-c" +:+ String "000" ("/etc/megavpn/external-egress/" +:+ id +:+ "/xl2tpd.conf")))
  else None.
Definition pid_links (p : string) : option string := if p =s "/proc/4321/exe" then Some "/usr/sbin/xl2tpd" else None.
Definition l2tp_removal : gomap := list_to_map (base_job "l2tp_ipsec").

Lemma signals_sent : omap (λ e, match e with Signalled pid s => Some (pid, s) | _ => None end)
  (cleanup (host succeeds pid_files pid_links) l2tp_removal) = [(4321, SIGTERM); (4321, SIGKILL)].
Proof. vm_compute. reflexivity. Qed.

(** The same number in the file of a process that is not an [xl2tpd]. *)
Lemma signals_withheld : Forall (λ e, match e with Signalled _ _ => False | _ => True end)
  (cleanup (host succeeds pid_files (λ _, Some "/usr/sbin/sshd")) l2tp_removal).
Proof. vm_compute. repeat constructor. Qed.

(** ** Where two readings differ *)

(** The parser of profiles splits a line at spaces and tabs only; the agent, and
    OpenVPN, at every kind of space: a forbidden directive with a vertical tab after
    its name is accepted and copied. *)
Definition hidden_directive : list string :=
  ["client"; "dev tun"; "remote vpn.example.com 1194"; "script-security" +:+ String "011" "2"; "up" +:+ String "011" "/tmp/x"; "<ca>"; "CERT"; "</ca>"].
Lemma forbidden_directive_copied :
  let p := decoded (job "openvpn" (lines_text hidden_directive) []) in
  ∃ out files, openvpn_config managedOpenVPNPathDirectives p (externalEgressManagedDir p) = Ok (out, files)
    ∧ "up" ∈ forbiddenOpenVPNDirectives ∧ ["up"; "/tmp/x"] ∈ fields <$> out.
Proof.
  eexists _, _. split; [vm_compute; reflexivity|]. split; apply (bool_decide_unpack _); by vm_compute.
Qed.

(** For the parser, a line that begins with a less-than sign opens a block even
    without a greater-than sign, and it looks at nothing in a block. *)
Definition open_tag : list string :=
  ["client"; "dev tun"; "remote vpn.example.com 1194"; "<ca>"; "CERT"; "</ca>"; "<tls-auth"; "script-security 2"; "up /tmp/x"; "</tls-auth"].
Lemma forbidden_directive_in_open_tag :
  let p := decoded (job "openvpn" (lines_text open_tag) []) in
  ∃ out files, openvpn_config managedOpenVPNPathDirectives p (externalEgressManagedDir p) = Ok (out, files)
    ∧ "up /tmp/x" ∈ out ∧ "script-security 2" ∈ out.
Proof.
  eexists _, _. split; [vm_compute; reflexivity|]. split; apply (bool_decide_unpack _); by vm_compute.
Qed.

(** The parser trims the name of a WireGuard section, the renderer does not: the
    managed routing table is not written. *)
Definition spaced_section : list string := "[ Interface ]" :: tl wireguard_lines_text.
Lemma spaced_section_without_table :
  ∃ out, wireguard_config (decoded (job "wireguard" (lines_text spaced_section) [])) = Ok out
    ∧ Forall (λ line, has_prefix "Table" line = false) out.
Proof. eexists. split; [vm_compute; reflexivity|]. repeat constructor. Qed.

(** An identity with a line feed after its first byte is safe for the parser. *)
Lemma remote_id_breaks_line : safeIPsecRemoteID (String "@" (String LF "foo")) = true.
Proof. reflexivity. Qed.

(** The sockets cannot be listed: the removal reports that the files of L2TP were
    kept for a retry, and has removed the certificates. *)
Definition no_sockets (args : list string) : Z * string := if default "" (head args) =s "ss" then (1, "cannot") else (0, "").
Lemma certificates_not_preserved :
  let r := cleanupExternalEgress sprint order no_error (seen_egress (host no_sockets nothing nothing)) l2tp_removal "n1" in
  (answer_of r ()).2 !! "warnings"
    = Some (AStrings ["verify UDP/1701 cleanup: cannot"; "managed L2TP artifacts were preserved for a safe cleanup retry"])
  ∧ Forall (λ path, Deleted path false ∈ log_of r ()) (externalEgressIPsecCertificatePaths (decoded (job "l2tp_ipsec" "c" []))).
Proof.
  split; [vm_compute; reflexivity|]. apply (bool_decide_unpack _). by vm_compute.
Qed.
